(* ===== verification/_CoqProject ===== *)
-Q . S2P
Prelude.v
GoText.v
Pdata.v
Sampling.v
Evaluator.v
Batcher.v
TailSampler.v
Keycheck.v
ColumnTypes.v
Operations.v
JsonIndex.v
Registry.v
Prog.v
Migrate.v
MigrateProps.v
BootstrapProps.v
StanzaField.v
OpAMP.v
RegexCache.v
Flatten.v
Utils.v
Fingerprint.v
Pmetric.v
ClickHouse.v
MetricsExporter.v
MetricsExporterProps.v
LogsPipeline.v
LogsPipelineProps.v
LogsExporter.v
LogsExporterProps.v
TracesSpan.v
TracesSpanProps.v
TracesExporter.v
TracesExporterProps.v
Metering.v
MeteringProps.v
MeterConnector.v
MeterConnectorProps.v
MeterExporter.v
SystemTables.v
Severity.v
LogsProcessor.v
LogsProcessorProps.v
StanzaOperators.v
StanzaOperatorsProps.v
TimeParser.v
TimeParserProps.v
Normalize.v
NormalizeProps.v
JsonParser.v
SpanCache.v
SpanDims.v
SpanHistogram.v
SpanMetrics.v
SpanMetricsProps.v
FloatInt.v
PromFamily.v
PromFamilyProps.v
PromHistogram.v
ScrapeConfig.v
ScrapeConfigProps.v
PromTarget.v
PromTargetProps.v
ScrapeDiscovery.v
ScrapeDiscoveryProps.v
ScrapeCache.v
PromTransaction.v
PromTransactionProps.v
ScrapeLoop.v
ScrapeLoopProps.v
ScrapePool.v
ScrapePoolProps.v
ScrapeManager.v
ScrapeManagerProps.v
