(* ===== verification/Prelude.v ===== *)
(** * SigInsight OpenTelemetry collector: verification development

    The repository is an OpenTelemetry collector distribution. Its own logic is in

    - a tail sampling processor (processor/signoztailsampler);
    - a schema migrator for ClickHouse (cmd/siginsightschemamigrator, driven by
      cmd/siginsightotelcollector/migrate);
    - exporters of metrics, logs, traces and meters to ClickHouse
      (exporter/signozclickhousemetrics, clickhouselogsexporter, clickhousetracesexporter,
      signozclickhousemeter) with their fingerprints, utilities and key checks;
    - a processor that makes metrics of spans (processor/signozspanmetricsprocessor);
    - metering (pkg/metering) and the connector that counts (connectors/signozmeterconnector);
    - a logs pipeline processor with a fork of the stanza operators
      (processor/signozlogspipelineprocessor);
    - a receiver of ClickHouse system tables (receiver/clickhousesystemtablesreceiver);
    - a receiver of Prometheus metrics with a scrape engine and a service discovery of its own
      (receiver/prometheusreceiver);
    - an OpAMP client that reloads the collector (opamp).

    ** Shared files

    - [Prelude]: results, 64-bit integers, byte strings and runes, sorting, FNV-1a, sums,
      channel operations ([outcome]: done, blocked, panic). Everything else requires it.
    - [GoText]: strconv, UTF-8 and runes. [Utils]: utils/utils.go (ids as text, keys of
      caches). [Flatten]: utils/flatten, and [any], the values that are decoded from JSON.
    - [Pdata], [Pmetric]: the parts of the collector's data (package pdata) the code reads.
    - [ClickHouse]: a prepared statement and a TTL cache, which the exporters share.
    - [Prog]: programs that call a service, their runs, and which calls they make.

    ** Tail sampling

    - [Sampling] (internal/sampling): one Section per evaluator, its state as a record and
      [X_Evaluate] for its method [Evaluate]. [Evaluator] (evaluator.go, config.go): the
      policy evaluator, which combines them.
    - [Batcher] (internal/idbatcher): the pipe of batches of trace ids. The goroutine that
      empties the channel is the step [drain].
    - [TailSampler] (processor.go): [ConsumeTraces] and [samplingPolicyOnTick] are the
      handlers, [tsp_step] interleaves them with [drain].

    Under every interleaving of arrivals, goroutine steps and ticks, the spans of a sampled
    trace are forwarded exactly once while the traces fit in the table; the table never
    exceeds its bound; every trace is decided after the delay of the batcher; the batcher
    neither loses nor reorders ids; handlers return from every reachable state. Three
    theorems state what is probably not meant: no configured policy is loaded, a trace can be
    forwarded twice after an eviction, and a composite exceeds its total.

    ** Migrations

    - [ColumnTypes], [Operations], [JsonIndex] (schema_migrator): column types, operations
      and index expressions with their SQL. The interface [Operation] is the class
      [OperationMethods], with an instance per struct, and the sum [Operation].
    - [Registry]: which migrations are registered and valid, and the state of a database. The
      registered lists and the DDL of the baseline are the class [Registry], so the theorems
      hold for every release of them.
    - [Migrate]: every method of the migration manager and every command, as a [Prog] over the
      calls to ClickHouse, the clock and the back-off policy; [MigrateProps],
      [BootstrapProps]: the theorems about all runs.

    The baseline is created only on empty databases, as a whole or not at all; migrations run
    in order between their records; unfinished records stop everything; bootstrap creates
    exactly what is missing. The validation of the registries is equivalent to a stated
    well-formedness.

    ** Exporters

    - [Fingerprint] (internal/common/fingerprint, utils/fingerprint): the bytes that are hashed
      determine the attributes.
    - [MetricsExporter], [MetricsExporterProps]: the rows of a batch, point by point; every
      sample has its time series; a series is written once an hour.
    - [LogsPipeline], [LogsPipelineProps]: the goroutines of a push; every run ends, and the
      channel is not closed while somebody sends, as long as there is no error; an error of
      the consumer can leave producers that wait for ever. [LogsExporter],
      [LogsExporterProps]: the rows of a record and the push as a whole, with the table of
      resources that its rows refer to; what a failed statement leaves in the cache.
    - [TracesSpan], [TracesSpanProps]: a span as a row; [TracesExporter],
      [TracesExporterProps]: the writer, whose tables hold every span of the window, its
      exceptions, resources and keys.
    - [Metering], [MeteringProps]: the size that is billed for a span is the length of the text
      that the exporter writes, and the samples billed are those it writes.
    - [MeterConnector], [MeterConnectorProps]: what was counted is what was sent on or is still
      held, over every interleaving; [MeterExporter]: every point of a meter is one row.
    - [SystemTables]: the rows of each window of the query log are pushed exactly once, and a
      receiver that is behind catches up.

    ** Span metrics

    - [SpanCache], [SpanDims], [SpanHistogram]: the cache of labels, the dimensions and keys,
      the histograms. [SpanMetrics]: the processor; [SpanMetricsProps]: it refines a log of
      latencies and a table of labels per series without caches or counters; every span is
      counted once, no handler panics, and the tables are bounded under delta temporality.

    ** Log entries

    - [LogsProcessor] (processor.go, utils.go): from a batch to entries and back, with the
      goroutines between; [LogsProcessorProps]: a record that no operator touches comes back, a
      record is sent for every entry, and every entry is processed once in any order.
    - [StanzaOperators] (helper/transformer.go, parser.go, expr.go, trace.go, scope_name.go and
      operators/): an entry with the list of what was written; [StanzaOperatorsProps]: an
      operator writes an entry at most once, and a chain is the sequence of the attempts.
    - [Severity], [TimeParser], [TimeParserProps]: levels and times; whole epochs are exact.
    - [StanzaField] (stanza/entry): dot notation, and [Get], [Set_], [Merge] and [Delete] of a
      body field on a heap of maps, with the laws of a tree. [Normalize], [NormalizeProps]: the
      normalizer of bodies on that heap: what becomes of each kind of message, and where it
      panics. [JsonParser]: flattening.
    - [RegexCache]: the cache of the regex parser never changes a result and is bounded; its
      limiter never recovers.

    ** Prometheus receiver

    - [ScrapeDiscovery] (internal/scrapediscovery): the manager of discoverers and its
      mechanisms; [ScrapeDiscoveryProps]: the last update sent tells what the discoverers of the
      last configuration found last, over every interleaving.
    - [ScrapeConfig] (internal/scrapeconfig): defaults, validation, files of jobs;
      [ScrapeConfigProps]: every job of a loaded configuration is well formed.
    - [PromTarget], [PromTargetProps] (internal/scrape/target.go, labels of scrape.go): targets,
      and which label wins.
    - [ScrapeCache], [ScrapeLoop] (scrape.go, scrape_append_v2.go): the cache of a target with the
      limits, and one scrape with its reports; [ScrapeLoopProps]: series that vanish get a
      marker each.
    - [ScrapePool], [ScrapePoolProps]: the loops of a job are those of its active targets, over
      every sequence of operations. [ScrapeManager], [ScrapeManagerProps] (manager.go): the same
      for all pools, and what the discoverers found last is what is scraped after a reload.
    - [PromTransaction], [PromTransactionProps] (internal/transaction.go, prom_to_otlp.go): the
      lines of a scrape are sent in groups. [PromFamily], [PromFamilyProps], [PromHistogram]
      (metricfamily.go, metadata.go, util.go): the points of a family, in particular those of
      classic and native histograms. [FloatInt]: floats that are whole numbers.

    ** Other parts

    - [Keycheck] (pkg/keycheck): the patterns of random and cardinal keys.
    - [OpAMP] (opamp): reload with rollback, as a [Prog] over the files, the collector and the
      client; what is in the files after every reload, and what a reported status tells of them.

    ** How the parts interact

    [TailSampler] calls [Batcher] and [Evaluator], which calls [Sampling]. [Migrate] calls
    [Registry] and the [ToSQL] of [Operations]. The exporters call [Fingerprint], [Utils],
    [Flatten] and [ClickHouse]; the consumer of [LogsPipeline] is given by [LogsExporter].
    [MeterConnector] calls [Metering], and the theorems of [MeterExporter] follow its
    metrics to the rows. [SpanMetrics] calls the three files before it. [LogsProcessor]
    takes the operators as a parameter, which [StanzaOperators] instantiates with chains;
    parsers of severities and times are functions on an entry that operators call.
    [ScrapeManager] has a [ScrapePool] for each job, whose loops run [ScrapeLoop] on a
    [ScrapeCache] with the labels of [PromTarget], and sends what they append to a
    transaction of [PromTransaction]; its updates come from [ScrapeDiscovery], and both get
    their jobs from [ScrapeConfig].

    Interfaces of code that is not under src/ are classes: [Pdata] and its [PdataText],
    [PdataTypes], [PdataValues], [PdataRaw], [PdataBuild] (values and how they are made and
    read back), [Regexp], [LRU], [TTLCache], [FormatAny], [FloatDecimal], [SeverityText],
    [GoTime], [Expr], [MeterJSON], [TablesText], [Prometheus], [ScrapeLibrary],
    [LabelsBuilder] with its [BuilderLaws], [TargetLibrary], [HistogramLibrary],
    [ScrapeText], [TransactionLibrary], [PoolLibrary], [DiscoveryLibrary], [ManagerLibrary]
    and the like; [Mechanism] is what the manager of discovery knows of configurations and
    discoverers. For all of these what is relied on is a law of the class or a hypothesis,
    and the witnesses instantiate them. [EntryFields] is the interface of the fields of an
    entry to the operators. Hash functions of other packages are arguments, with the absence
    of collisions as a hypothesis where it is needed.

    ** Bounds, fuel and atomicity

    Unsigned and signed 64-bit counters wrap ([u64], [i64]); times of the system tables are
    uint32. A float64 is a binary64 number of the standard library ([spec_float]); the
    comparison with 0.7 in [Keycheck] is written over the integers, exactly for the lengths
    it is called on. Sizes of data in memory are integers. Fuel is used in three places. The
    number of attempts of [Migrate.Run]: [MigrateProps.retry_loop] shows that it is used up
    only after that many waits were granted. The prefixes that [PromTarget.exported_name]
    tries, as many as the builder has labels: one of them is free, see
    [PromTargetProps.exported_name_free]. The resolutions of a histogram in
    [ScrapeCache.limit_buckets], as many as there are below its own. The goroutines of a
    push and of the logs processor have measures that every step decreases.

    In [TailSampler] one call of [ConsumeTraces], one tick and one receive of the goroutine
    are atomic steps; in [SpanMetrics], [MeterConnector] and [RegexCache] what holds the
    mutex is; in [LogsPipeline] and [LogsProcessor] a step is one step of one goroutine, and
    the context of the caller is not cancelled. A step of the manager of discovery holds its
    locks; of a scrape manager, an operation and the synchronization of one pool are steps.
    The caches of the exporters may have a capacity where only [TTLCacheSound] is assumed;
    with [TTLCacheLaws] they drop nothing early. Iteration over a Go map has an arbitrary
    order: the classes [MapRange] and [GoRange], or an argument. [OpAMP] handles one message
    at a time, as the client library calls it.

    ** Not modelled

    Logging, metrics recording and telemetry; flags and construction of the commands; the
    upstream collector, pdata, stanza, Prometheus and ClickHouse packages. The configuration
    of the exporters, the receivers and the service is wiring. The regular expressions
    compiled at start cannot fail and have no model of their compilation; expressions and
    their syntax trees belong to a library. Of the Prometheus receiver, its settings and
    wiring, the HTTP fetch, the parser of the text format, the first version of the
    appenders, the timing of the goroutine of a loop and the fields that reflection adds to
    a job are left out; resource detection reads the host; the generators of test data, the
    simulator and the components of the service have no logic of their own. Wrapped errors
    keep [%w] in their text and the wrapped errors in a list.

    ** Plan

    The start, restart and stop of the wrapped collector; the run of a scrape loop as a
    goroutine with its ticks; grok patterns; a round trip for the rendering of column types;
    a second run of the migrate commands changes nothing. *)
From stdpp Require Export strings gmap list sorting pretty.
From Stdlib Require Export Ascii ZArith Lia.
From Stdlib Require Strings.String.

#[global] Set Default Goal Selector "!".
#[global] Open Scope Z_scope.

(** ** Results of fallible Go functions *)

(** A Go function that returns [(value, error)]: [Ok v] when [err == nil]. *)
Inductive result (E A : Type) : Type :=
| Ok (a : A)
| Err (e : E).
Arguments Ok {E A} a.
Arguments Err {E A} e.

(** The early return of [if err != nil { return err }], with stdpp's do-notation. *)
#[export] Instance result_ret {E} : MRet (result E) := λ A a, Ok a.
#[export] Instance result_bind {E} : MBind (result E) :=
  λ A B f m, match m with Ok a => f a | Err e => Err e end.

Definition is_ok {E A} (m : result E A) : bool :=
  match m with Ok _ => true | Err _ => false end.

Lemma result_bind_Ok {E A B} (m : result E A) (f : A → result E B) b :
  m ≫= f = Ok b ↔ ∃ a, m = Ok a ∧ f a = Ok b.
Proof.
  destruct m as [a|e]; cbn; split.
  - by exists a.
  - by intros (? & [= ->] & ?).
  - done.
  - by intros (? & ? & ?).
Qed.

(** ** Machine integers *)

(** Wrap-around of Go's [uint64] and [int64]. *)
Definition two64 : Z := 2 ^ 64.
Definition u64 (z : Z) : Z := z mod two64.
Definition i64 (z : Z) : Z :=
  let m := u64 z in if Z.ltb m (2 ^ 63) then m else m - two64.

Lemma u64_range z : 0 ≤ u64 z < two64.
Proof. apply Z.mod_pos_bound. done. Qed.

Lemma u64_small z : 0 ≤ z < two64 → u64 z = z.
Proof. apply Z.mod_small. Qed.

Lemma i64_range z : - 2 ^ 63 ≤ i64 z < 2 ^ 63.
Proof.
  unfold i64. pose proof (u64_range z). unfold two64 in *.
  destruct (Z.ltb_spec (u64 z) (2 ^ 63)); lia.
Qed.

Lemma i64_small z : - 2 ^ 63 ≤ z < 2 ^ 63 → i64 z = z.
Proof.
  intros Hz. unfold i64, u64. unfold two64.
  destruct (Z.ltb_spec (z mod 2 ^ 64) (2 ^ 63)) as [Hl|Hl].
  - destruct (decide (0 ≤ z)); [rewrite Z.mod_small; lia|].
    exfalso. rewrite <- (Z.mod_add z 1 (2 ^ 64)) in Hl by lia.
    rewrite Z.mod_small in Hl; lia.
  - destruct (decide (0 ≤ z)).
    + rewrite Z.mod_small in Hl; lia.
    + rewrite <- (Z.mod_add z 1 (2 ^ 64)) by lia. rewrite Z.mod_small; lia.
Qed.

Lemma i64_u64 z : i64 (u64 z) = i64 z.
Proof. unfold i64. assert (u64 (u64 z) = u64 z) as -> by (apply u64_small, u64_range). done. Qed.

Lemma u64_i64 z : u64 (i64 z) = u64 z.
Proof.
  unfold i64. pose proof (u64_range z). destruct (u64 z <? 2 ^ 63).
  - by apply u64_small.
  - unfold u64 at 1. rewrite <- (Z.mod_add _ 1) by done. replace (u64 z - two64 + 1 * two64) with (u64 z) by lia.
    by apply Z.mod_small.
Qed.

Lemma u64_add_l a b : u64 (u64 a + b) = u64 (a + b).
Proof. unfold u64. apply Zplus_mod_idemp_l. Qed.

Lemma i64_add a b : i64 (i64 a + b) = i64 (a + b).
Proof.
  unfold i64 at 1 3. enough (u64 (i64 a + b) = u64 (a + b)) as -> by done.
  unfold i64. destruct (Z.ltb _ _); unfold u64.
  - by rewrite Z.add_mod_idemp_l.
  - replace (a mod two64 - two64 + b) with (a mod two64 + b + (-1) * two64) by lia.
    by rewrite Z.mod_add, Z.add_mod_idemp_l.
Qed.

Lemma i64_i64 a : i64 (i64 a) = i64 a.
Proof. apply i64_small, i64_range. Qed.

(** ** Byte strings *)

(** Go's [s[i]] ranges over bytes; a byte is an [ascii]. *)
Definition bytes (s : string) : list ascii := Strings.String.list_ascii_of_string s.
Definition of_bytes (l : list ascii) : string := Strings.String.string_of_list_ascii l.
Definition byte_val (c : ascii) : Z := Z.of_N (N_of_ascii c).

Lemma of_bytes_bytes s : of_bytes (bytes s) = s.
Proof. induction s as [|c s IH]; [done|]. exact (f_equal (String c) IH). Qed.
Lemma bytes_of_bytes l : bytes (of_bytes l) = l.
Proof. induction l as [|c l IH]; [done|]. exact (f_equal (cons c) IH). Qed.

Lemma bytes_app s t : bytes (s +:+ t) = bytes s ++ bytes t.
Proof. induction s as [|c s IH]; [done|]. exact (f_equal (cons c) IH). Qed.

Lemma byte_val_range c : 0 ≤ byte_val c < 256.
Proof. unfold byte_val. pose proof (N_ascii_bounded c). lia. Qed.

Lemma string_app_assoc (a b c : string) : (a +:+ b) +:+ c = a +:+ b +:+ c.
Proof. induction a as [|x a IH]; [done|]. exact (f_equal (String x) IH). Qed.
Lemma string_app_nil_r (a : string) : a +:+ "" = a.
Proof. induction a as [|x a IH]; [done|]. exact (f_equal (String x) IH). Qed.

(** Ranges ([auto with go]) and normal forms ([autorewrite with go]). *)
Create HintDb go.
#[export] Hint Resolve u64_range i64_range byte_val_range : go.
#[export] Hint Rewrite of_bytes_bytes bytes_of_bytes bytes_app : go.

(** [strings.Join]. *)
Fixpoint join (sep : string) (l : list string) : string :=
  match l with
  | [] => ""
  | [s] => s
  | s :: l' => s +:+ sep +:+ join sep l'
  end.

(** [strings.HasPrefix], [strings.HasSuffix], [strings.Contains]. *)
Definition has_prefix (s pre : string) : bool := Strings.String.prefix pre s.
Definition has_suffix (s suf : string) : bool :=
  bool_decide (drop (length (bytes s) - length (bytes suf)) (bytes s) = bytes suf).
Fixpoint contains_byte (c : ascii) (s : string) : bool :=
  match s with EmptyString => false | String d s' => Ascii.eqb c d || contains_byte c s' end.

(** The double quote, spelled as a byte. *)
Definition dquote : string := String (ascii_of_nat 34) "".

(** [strings.ToLower] on the ASCII range; bytes of multi-byte runes are kept. *)
Definition to_lower_ascii (c : ascii) : ascii :=
  let n := nat_of_ascii c in
  if ((65 <=? n)%nat && (n <=? 90)%nat) then ascii_of_nat (n + 32) else c.
Definition to_lower (s : string) : string := of_bytes (to_lower_ascii <$> bytes s).

(** ** Sorting *)

(** [sort.Slice] with a [less] callback: insertion sort, the algorithm Go's [sort]
    uses on short slices. *)
Section sort_slice.
Context {A : Type} (less : A → A → bool).

Fixpoint sort_insert (x : A) (l : list A) : list A :=
  match l with
  | [] => [x]
  | y :: l' => if less y x then y :: sort_insert x l' else x :: y :: l'
  end.
Fixpoint sort_slice (l : list A) : list A :=
  match l with [] => [] | x :: l' => sort_insert x (sort_slice l') end.

Lemma sort_insert_perm x l : sort_insert x l ≡ₚ x :: l.
Proof.
  induction l as [|y l IH]; simpl; [done|].
  destruct (less y x); [|done]. rewrite IH. apply Permutation_swap.
Qed.

Lemma sort_slice_perm l : sort_slice l ≡ₚ l.
Proof. induction l as [|x l IH]; simpl; [done|]. by rewrite sort_insert_perm, IH. Qed.

Context (less_asym : ∀ x y, less x y = true → less y x = false).

(** Adjacent elements are in order: the later one is not [less]. *)
Definition sorted_by (l : list A) : Prop := Sorted (λ x y, less y x = false) l.

Lemma sort_slice_sorted l : sorted_by (sort_slice l).
Proof using less_asym.
  induction l as [|x l IH]; simpl; [constructor|].
  revert IH. generalize (sort_slice l). clear l. intros l.
  unfold sorted_by. induction l as [|y l IH]; simpl; intros Hs; [by repeat constructor|].
  destruct (less y x) eqn:Hyx.
  - inversion Hs as [|? ? Hs' Hh]; subst. constructor; [by apply IH|].
    destruct l as [|z l]; simpl; [constructor; by apply less_asym|].
    inversion Hh; subst. destruct (less z x); constructor; [done|].
    by apply less_asym.
  - by constructor; [|constructor].
Qed.

(** A list that is in strict order is what sorting gives, whatever order it comes in. *)
Lemma sorted_by_unique l l' : StronglySorted (λ x y, less x y = true) l → sorted_by l' → l' ≡ₚ l → l' = l.
Proof using less_asym.
  intros Hl. revert l'. induction Hl as [|x l Hl IH Hx]; intros l' Hs Hp; [by apply Permutation_nil_r in Hp|].
  destruct l' as [|y l']; [by apply Permutation_nil_l in Hp|].
  assert (y = x) as ->.
  { assert (x ∈ y :: l') as Hin by (rewrite Hp; left). apply elem_of_cons in Hin as [->|Hin]; [done|].
    apply list_elem_of_split in Hin as (k1 & k2 & ->).
    assert (∃ k z, y :: k1 ++ x :: k2 = k ++ z :: x :: k2) as (k & z & E).
    { destruct (exists_last (l := y :: k1)) as (k & z & E); [done|]. exists k, z. rewrite app_comm_cons, E. by rewrite <-app_assoc. }
    rewrite E in Hp, Hs. assert (k ++ z :: k2 ≡ₚ l) as Hl'.
    { apply (Permutation_cons_inv (a := x)). rewrite <-Hp, (perm_swap x z k2). apply Permutation_middle. }
    assert (less x z = true) as Hlt by (rewrite Forall_forall in Hx; apply Hx; rewrite <-Hl'; set_solver).
    exfalso. clear -Hs Hlt. induction k as [|w k IHk]; inversion Hs as [|? ? H1 H2]; subst; [|by apply IHk].
    inversion H2; subst. congruence. }
  f_equal. apply IH; [by inversion Hs|]. by apply (Permutation_cons_inv (a := x)).
Qed.
Lemma sort_slice_unique l l' : StronglySorted (λ x y, less x y = true) l → l' ≡ₚ l → sort_slice l' = l.
Proof using less_asym.
  intros Hl Hp. apply sorted_by_unique; [done|apply sort_slice_sorted|]. by rewrite sort_slice_perm.
Qed.
End sort_slice.

(** ** FNV-1a, 64 bits ([hash/fnv.New64a]) *)
Definition fnv_offset64 : Z := 14695981039346656037.
Definition fnv_prime64 : Z := 1099511628211.
Definition fnv_step (h : Z) (c : ascii) : Z := u64 (Z.lxor h (byte_val c) * fnv_prime64).
Definition fnv1a (h : Z) (s : string) : Z := foldl fnv_step h (bytes s).

Lemma fnv_step_range h c : 0 ≤ fnv_step h c < two64.
Proof. unfold fnv_step. auto with go. Qed.

Lemma fnv1a_range h s : 0 ≤ h < two64 → 0 ≤ fnv1a h s < two64.
Proof.
  unfold fnv1a. generalize (bytes s). intros l. revert h.
  induction l as [|c l IH]; intros h Hh; simpl; [done|]. apply IH, fnv_step_range.
Qed.

Lemma fnv1a_app h s t : fnv1a h (s +:+ t) = fnv1a (fnv1a h s) t.
Proof. unfold fnv1a. autorewrite with go. apply foldl_app. Qed.

(** ** Go channel operations *)

(** A step of one goroutine: it completes, waits for another goroutine, or panics. *)
Inductive outcome (A : Type) : Type :=
| Done (a : A)
| Blocks
| Panics.
Arguments Done {A} a.
Arguments Blocks {A}.
Arguments Panics {A}.

#[export] Instance outcome_ret : MRet outcome := λ A a, Done a.
#[export] Instance outcome_bind : MBind outcome :=
  λ A B f m, match m with Done a => f a | Blocks => Blocks | Panics => Panics end.

Lemma outcome_bind_Done {A B} (m : outcome A) (f : A → outcome B) b :
  m ≫= f = Done b ↔ ∃ a, m = Done a ∧ f a = Done b.
Proof.
  destruct m as [a| |]; cbn; split; try done.
  - by exists a.
  - by intros (? & [= ->] & ?).
  - by intros (? & ? & ?).
  - by intros (? & ? & ?).
Qed.

(** The length of a slice or channel, as Go's [len]. *)
Definition len {A} (l : list A) : Z := Z.of_nat (length l).

Lemma len_app {A} (l k : list A) : len (l ++ k) = len l + len k.
Proof. unfold len. rewrite length_app. lia. Qed.
Lemma len_nonneg {A} (l : list A) : 0 ≤ len l.
Proof. unfold len. lia. Qed.
#[export] Hint Resolve len_nonneg : go.
#[export] Hint Rewrite @len_app : go.

(** Counting a list by classes: each element is counted once, in the class it belongs to. *)
Section count_classes.
Context {A B : Type} `{EqDecision B} (f : A → B).

Lemma sum_filter_cons x xs (l : list B) :
  NoDup l →
  sum_list_with (λ i, length (filter (λ y, f y = i) (x :: xs))) l
  = ((if decide (f x ∈ l) then 1 else 0) + sum_list_with (λ i, length (filter (λ y, f y = i) xs)) l)%nat.
Proof.
  induction 1 as [|i l Hi Hnd IHl]; [by rewrite decide_False by set_solver|].
  cbn [sum_list_with]. rewrite IHl, filter_cons. destruct (decide (f x = i)) as [E|E].
  - rewrite (decide_False (P := _ ∈ l)) by (by rewrite E). rewrite decide_True by set_solver. simpl. lia.
  - destruct (decide (f x ∈ l)).
    + rewrite decide_True by set_solver. lia.
    + rewrite decide_False by set_solver. lia.
Qed.

Lemma sum_filter_le xs (l : list B) :
  NoDup l → (sum_list_with (λ i, length (filter (λ y, f y = i) xs)) l ≤ length xs)%nat.
Proof.
  intros Hl. induction xs as [|x xs IH]; [clear Hl; by induction l|].
  rewrite sum_filter_cons by done. simpl. case_decide; lia.
Qed.

Lemma sum_filter_all xs (l : list B) :
  NoDup l → (∀ x, x ∈ xs → f x ∈ l) →
  sum_list_with (λ i, length (filter (λ y, f y = i) xs)) l = length xs.
Proof.
  intros Hl. induction xs as [|x xs IH]; intros Hin; [clear Hl Hin; by induction l|].
  rewrite sum_filter_cons, decide_True by (done || set_solver). rewrite IH by set_solver. done.
Qed.
End count_classes.

(** [copy(dst, src)] on slices: the shorter length bounds what is copied. *)
Definition copy_slice {A} (dst src : list A) : list A :=
  take (length dst) src ++ drop (length src) dst.

(** ** Runes *)

(** A continuation byte in a range. *)
Definition cont (lo hi b : Z) : bool := (lo <=? b) && (b <=? hi).
Definition rune_error : Z := 65533.

(** [for _, r := range s]: UTF-8 decoding, one byte at a time where it is invalid. *)
Fixpoint decode_runes (l : list Z) : list Z :=
  match l with
  | [] => []
  | b0 :: t0 =>
      if b0 <? 128 then b0 :: decode_runes t0
      else match t0 with
      | [] => [rune_error]
      | b1 :: t1 =>
          if (194 <=? b0) && (b0 <=? 223) && cont 128 191 b1
          then ((b0 - 192) * 64 + (b1 - 128)) :: decode_runes t1
          else match t1 with
          | [] => rune_error :: decode_runes t0
          | b2 :: t2 =>
              if (224 <=? b0) && (b0 <=? 239)
                 && cont (if b0 =? 224 then 160 else 128) (if b0 =? 237 then 159 else 191) b1
                 && cont 128 191 b2
              then ((b0 - 224) * 4096 + (b1 - 128) * 64 + (b2 - 128)) :: decode_runes t2
              else match t2 with
              | [] => rune_error :: decode_runes t0
              | b3 :: t3 =>
                  if (240 <=? b0) && (b0 <=? 244)
                     && cont (if b0 =? 240 then 144 else 128) (if b0 =? 244 then 143 else 191) b1
                     && cont 128 191 b2 && cont 128 191 b3
                  then ((b0 - 240) * 262144 + (b1 - 128) * 4096 + (b2 - 128) * 64 + (b3 - 128))
                         :: decode_runes t3
                  else rune_error :: decode_runes t0
              end
          end
      end
  end.
Definition runes (s : string) : list Z := decode_runes (byte_val <$> bytes s).

(** [unicode.IsLetter] and [unicode.IsLower]: the tables are left open, their ASCII part
    and the inclusion of the lower-case letters in the letters are what the code uses. *)
Class Unicode := {
  IsLetter : Z → bool;
  IsLower : Z → bool;
  IsLower_IsLetter r : IsLower r = true → IsLetter r = true;
}.

(** [strings.Split] on a one-byte separator. *)
Fixpoint split_bytes (c : ascii) (l : list ascii) : list (list ascii) :=
  match l with
  | [] => [[]]
  | d :: l =>
      if Ascii.eqb d c then [] :: split_bytes c l
      else match split_bytes c l with
           | seg :: segs => (d :: seg) :: segs
           | [] => [[d]]
           end
  end.

Lemma split_bytes_cons c d l :
  d ≠ c → split_bytes c (d :: l)
  = match split_bytes c l with seg :: segs => (d :: seg) :: segs | [] => [[d]] end.
Proof. intros H. simpl. by rewrite (proj2 (Ascii.eqb_neq d c) H). Qed.

(** A list is cut in one way at the first [c]. *)
Lemma split_first (c : ascii) l r l' r' : c ∉ l → c ∉ l' → l ++ c :: r = l' ++ c :: r' → l = l' ∧ r = r'.
Proof.
  revert l'. induction l as [|d l IH]; intros [|d' l'] Hl Hl' H; simplify_eq/=; [done|set_solver..|].
  destruct (IH l') as [-> ->]; [set_solver|set_solver|done|done].
Qed.

Lemma split_bytes_nonempty c l : split_bytes c l ≠ [].
Proof. destruct l as [|d l]; simpl; [done|]. destruct (Ascii.eqb d c); [done|]. by destruct (split_bytes c l). Qed.

(** Loops that stop at the first error. *)
Lemma foldl_Err {E A B} (f : B → A → result E A) l e : foldl (λ r x, g ← r; f x g) (Err e) l = Err e.
Proof. induction l as [|x l IH]; [done|]. exact IH. Qed.
Lemma foldl_Ok {E A B} (f : B → A → result E A) x l a :
  foldl (λ r x, g ← r; f x g) (Ok a) (x :: l) = foldl (λ r x, g ← r; f x g) (f x a) l.
Proof. done. Qed.
Lemma foldl_result_ind {E A B} (f : B → A → result E A) (P : list B → A → Prop) l a a' :
  P [] a → (∀ done x a a', P done a → f x a = Ok a' → P (done ++ [x]) a') →
  foldl (λ r x, g ← r; f x g) (Ok a) l = Ok a' → P l a'.
Proof.
  intros H0 Hs. assert (∀ pre a, P pre a → foldl (λ r x, g ← r; f x g) (Ok a) l = Ok a' → P (pre ++ l) a') as H; [|by apply (H [])].
  induction l as [|x l IH]; intros pre b Hp; [intros [= <-]; by rewrite app_nil_r|].
  rewrite foldl_Ok. destruct (f x b) as [b'|e] eqn:E1; [|by rewrite foldl_Err].
  intros H. rewrite cons_middle, app_assoc. apply (IH _ b'); [by eapply Hs|done].
Qed.
Lemma foldl_result_ok {E A B} (f : B → A → result E A) l a :
  (∀ x a, x ∈ l → is_ok (f x a)) → ∃ a', foldl (λ r x, g ← r; f x g) (Ok a) l = Ok a'.
Proof.
  revert a. induction l as [|x l IH]; intros a H; [by exists a|]. rewrite foldl_Ok.
  pose proof (H x a ltac:(set_solver)) as Hx. destruct (f x a); [|done]. apply IH. set_solver.
Qed.

(** ** Sums *)

Definition sumZ {A} (f : A → Z) (l : list A) : Z := foldr (λ x n, f x + n) 0 l.
Lemma sumZ_app {A} (f : A → Z) l k : sumZ f (l ++ k) = sumZ f l + sumZ f k.
Proof. induction l as [|x l IH]; [done|]. simpl. rewrite IH. lia. Qed.
Lemma foldl_sumZ {A} (f : A → Z) l a : foldl (λ n x, n + f x) a l = a + sumZ f l.
Proof. revert a. induction l as [|x l IH]; intros a; simpl; [lia|]. rewrite IH. lia. Qed.
Lemma sumZ_bind {A B} (f : B → Z) (g : A → list B) l : sumZ f (l ≫= g) = sumZ (λ x, sumZ f (g x)) l.
Proof. induction l as [|x l IH]; [done|]. rewrite bind_cons, sumZ_app, IH. done. Qed.
Lemma sumZ_ext {A} (f g : A → Z) l : (∀ x, x ∈ l → f x = g x) → sumZ f l = sumZ g l.
Proof.
  induction l as [|x l IH]; intros H; [done|]. simpl. rewrite (H x) by set_solver. f_equal. apply IH. set_solver.
Qed.
Lemma sumZ_len {A} (l : list A) : sumZ (λ _, 1) l = len l.
Proof. induction l as [|x l IH]; [done|]. unfold sumZ, len in *. simpl foldr. rewrite IH. simpl. lia. Qed.
Lemma sumZ_perm {A} (f : A → Z) l k : l ≡ₚ k → sumZ f l = sumZ f k.
Proof. induction 1; simpl; lia. Qed.
Lemma sumZ_nonneg {A} (f : A → Z) l : (∀ x, x ∈ l → 0 ≤ f x) → 0 ≤ sumZ f l.
Proof.
  induction l as [|x l IH]; intros H; simpl; [done|].
  pose proof (H x ltac:(set_solver)). pose proof (IH ltac:(set_solver)). lia.
Qed.
Lemma sumZ_zero {A} (f : A → Z) l : (∀ x, x ∈ l → 0 ≤ f x) → sumZ f l = 0 ↔ ∀ x, x ∈ l → f x = 0.
Proof.
  induction l as [|x l IH]; intros H; simpl; [by split; [intros _ x Hx; apply elem_of_nil in Hx|]|].
  pose proof (H x ltac:(set_solver)). pose proof (sumZ_nonneg f l ltac:(set_solver)). pose proof (IH ltac:(set_solver)) as IH'.
  split.
  - intros Hs y [->|Hy]%elem_of_cons; [lia|]. apply IH'; [lia|done].
  - intros Hz. rewrite (Hz x), (proj2 IH') by set_solver. lia.
Qed.
Lemma sumZ_filter_le {A} (f : A → Z) (P : A → Prop) `{∀ x, Decision (P x)} l :
  (∀ x, x ∈ l → 0 ≤ f x) → sumZ f (filter P l) ≤ sumZ f l.
Proof.
  induction l as [|x l IH]; intros Hf; simpl; [done|]. rewrite filter_cons.
  pose proof (Hf x ltac:(set_solver)). pose proof (IH ltac:(set_solver)). destruct (decide (P x)); simpl; lia.
Qed.
Lemma sumZ_fmap {A B} (f : B → Z) (g : A → B) l : sumZ f (g <$> l) = sumZ (λ x, f (g x)) l.
Proof. induction l as [|x l IH]; [done|]. rewrite fmap_cons. simpl. f_equal. apply IH. Qed.
(** A sum over the values of a map to which one key contributes. *)
Lemma sumZ_map_key {A} (f : A → Z) (m : gmap string A) k :
  (∀ k' x, m !! k' = Some x → k' ≠ k → f x = 0) →
  sumZ f (map_to_list m).*2 = match m !! k with Some x => f x | None => 0 end.
Proof.
  intros H. rewrite sumZ_fmap.
  assert (∀ m' : gmap string A, (∀ k' x, m' !! k' = Some x → f x = 0) → sumZ (λ kx, f kx.2) (map_to_list m') = 0) as Hz.
  { intros m' Hm'. transitivity (sumZ (λ _ : string * A, 0) (map_to_list m')); [|by induction (map_to_list m')].
    apply sumZ_ext. intros [k' x] Hin%elem_of_map_to_list. by apply (Hm' k'). }
  destruct (m !! k) as [x|] eqn:E; [|apply Hz; intros k' x Hk; apply (H k' x Hk); by intros ->; rewrite E in Hk].
  rewrite <- (insert_delete_id m k x E), (sumZ_perm _ _ _ (map_to_list_insert _ k x (lookup_delete_eq m k))). simpl.
  rewrite Hz; [lia|]. intros k' y. rewrite lookup_delete_Some. intros [Hne Hk]. by apply (H k').
Qed.
