(* ===== verification/GoText.v ===== *)
(** * Text: decimal numbers, UTF-8 and runes

    What the components use of Go's [strconv], [unicode/utf8] and [strings.Map], with the
    round trips: formatting and parsing an int64, encoding and decoding runes. *)
From Stdlib Require Import DecimalString DecimalZ DecimalFacts.
From S2P Require Import Prelude.

(** ** [strconv] *)

(** [strconv.FormatInt(z, 10)]. *)
Definition FormatInt (z : Z) : string := NilZero.string_of_int (Z.to_int z).

(** [strconv.ParseUint(s, 10, 64)] on the digits: [None] for an empty string or another byte. *)
Definition parse_digits (s : string) : option Z := Z.of_uint <$> NilZero.uint_of_string s.

(** [strconv.ParseInt(s, 10, 64)]: [None] is a syntax or a range error. *)
Definition ParseInt (s : string) : option Z :=
  let '(neg, digits) := match s with
                        | String "+" r => (false, r)
                        | String "-" r => (true, r)
                        | _ => (false, s)
                        end in
  n ← parse_digits digits;
  let z := if neg : bool then - n else n in
  if (- 2 ^ 63 <=? z) && (z <? 2 ^ 63) then Some z else None.

Lemma string_of_uint_head d c r :
  NilZero.string_of_uint d = String c r → c ≠ "+"%char ∧ c ≠ "-"%char.
Proof. destruct d; simpl; intros [= <- _]; by split. Qed.

Lemma parse_digits_uint d : d ≠ Decimal.Nil → parse_digits (NilZero.string_of_uint d) = Some (Z.of_uint d).
Proof. intros Hd. unfold parse_digits. by rewrite NilZero.usu. Qed.

Lemma Pos_to_uint_nonnil p : Pos.to_uint p ≠ Decimal.Nil.
Proof. apply DecimalPos.Unsigned.to_uint_nonnil. Qed.

Lemma ParseInt_FormatInt z : - 2 ^ 63 ≤ z < 2 ^ 63 → ParseInt (FormatInt z) = Some z.
Proof.
  intros Hz.
  assert ((- 2 ^ 63 <=? z) && (z <? 2 ^ 63) = true) as Hr.
  { apply andb_true_intro. split; [apply Z.leb_le|apply Z.ltb_lt]; lia. }
  destruct z as [|p|p]; [done| |].
  - unfold FormatInt. simpl (Z.to_int _). unfold NilZero.string_of_int, ParseInt.
    pose proof (parse_digits_uint _ (Pos_to_uint_nonnil p)) as Hp.
    assert (Z.of_uint (Pos.to_uint p) = Z.pos p) as E by (apply (DecimalZ.of_to (Z.pos p))).
    destruct (NilZero.string_of_uint (Pos.to_uint p)) as [|c r] eqn:Hs; [done|].
    destruct (string_of_uint_head _ _ _ Hs) as [H1 H2].
    assert (∀ A (x y w : A), match c with "+"%char => x | "-"%char => y | _ => w end = w) as Hc.
    { intros A x y w. destruct c as [[] [] [] [] [] [] [] []]; done. }
    rewrite Hc, Hp. cbn. rewrite E. by rewrite Hr.
  - unfold FormatInt. simpl (Z.to_int _). unfold NilZero.string_of_int, ParseInt.
    rewrite parse_digits_uint by apply Pos_to_uint_nonnil. cbn.
    assert (- Z.of_uint (Pos.to_uint p) = Z.neg p) as E by (apply (DecimalZ.of_to (Z.neg p))).
    rewrite E. by rewrite Hr.
Qed.

(** Only digits and the sign occur, and there is at least one digit. *)
Definition int_bytes : list ascii := bytes "-0123456789".

Lemma uint_string_bytes d c : c ∈ bytes (NilEmpty.string_of_uint d) → c ∈ int_bytes.
Proof.
  induction d; simpl; unfold bytes in *; simpl; [by intros []%not_elem_of_nil|..];
    (intros [->|H]%elem_of_cons; [apply (bool_decide_eq_true_1 _); reflexivity|by apply IHd]).
Qed.

Lemma FormatInt_bytes z c : c ∈ bytes (FormatInt z) → c ∈ int_bytes.
Proof.
  assert (∀ d, c ∈ bytes (NilZero.string_of_uint d) → c ∈ int_bytes) as Hu.
  { intros d. destruct d; [|apply uint_string_bytes..].
    intros ->%list_elem_of_singleton. apply (bool_decide_eq_true_1 _); reflexivity. }
  unfold FormatInt. destruct (Z.to_int z) as [d|d]; simpl; [apply Hu|].
  unfold bytes; simpl. intros [->|H]%elem_of_cons; [apply (bool_decide_eq_true_1 _); reflexivity|by apply (Hu d)].
Qed.

Lemma FormatInt_no_nul z : "000"%char ∉ bytes (FormatInt z).
Proof. intros H%FormatInt_bytes. by apply (bool_decide_eq_true_2 _) in H. Qed.

Lemma FormatInt_inj z z' : FormatInt z = FormatInt z' → z = z'.
Proof.
  intros H. apply DecimalZ.to_int_inj. unfold FormatInt in H.
  assert (∀ w, NilZero.int_of_string (NilZero.string_of_int (Z.to_int w)) = Some (Z.to_int w)) as Hw.
  { intros [|p|p]; [done|..]; apply NilZero.isi; simpl; pose proof (Pos_to_uint_nonnil p); congruence. }
  pose proof (Hw z) as Hz. rewrite H, Hw in Hz. by injection Hz.
Qed.

Lemma FormatInt_nonempty z : FormatInt z ≠ "".
Proof. unfold FormatInt. destruct (Z.to_int z) as [[]|[]]; done. Qed.

(** ** UTF-8 *)

(** [utf8.ValidRune]: not a surrogate, at most 0x10FFFF. *)
Definition ValidRune (r : Z) : bool :=
  ((0 <=? r) && (r <? 55296)) || ((57343 <? r) && (r <=? 1114111)).

(** [utf8.AppendRune]: an invalid rune is written as the error rune. *)
Definition encode_valid (r : Z) : list Z :=
  if r <? 128 then [r]
  else if r <? 2048 then [192 + r / 64; 128 + r mod 64]
  else if r <? 65536 then [224 + r / 4096; 128 + (r / 64) mod 64; 128 + r mod 64]
  else [240 + r / 262144; 128 + (r / 4096) mod 64; 128 + (r / 64) mod 64; 128 + r mod 64].
Definition encode_rune (r : Z) : list Z :=
  encode_valid (if ValidRune r then r else rune_error).

Definition byte_of (z : Z) : ascii := ascii_of_N (Z.to_N z).
(** [string(runes)]. *)
Definition string_of_runes (rs : list Z) : string := of_bytes (byte_of <$> (rs ≫= encode_rune)).

Lemma byte_of_val z : 0 ≤ z < 256 → byte_val (byte_of z) = z.
Proof. intros Hz. unfold byte_val, byte_of. rewrite N_ascii_embedding; lia. Qed.

Lemma byte_of_byte_val c : byte_of (byte_val c) = c.
Proof. unfold byte_val, byte_of. by rewrite N2Z.id, ascii_N_embedding. Qed.

Lemma leb_true a b : a ≤ b → (a <=? b) = true. Proof. apply Z.leb_le. Qed.
Lemma leb_false a b : b < a → (a <=? b) = false. Proof. apply Z.leb_gt. Qed.
Lemma ltb_true a b : a < b → (a <? b) = true. Proof. apply Z.ltb_lt. Qed.
Lemma ltb_false a b : b ≤ a → (a <? b) = false. Proof. apply Z.ltb_ge. Qed.
Lemma cont_true lo hi b : lo ≤ b ≤ hi → cont lo hi b = true.
Proof. intros Hb. unfold cont. by rewrite !leb_true by lia. Qed.

(** One step of the decoder. *)
Lemma decode_runes_cons b0 t0 :
  decode_runes (b0 :: t0) =
  if b0 <? 128 then b0 :: decode_runes t0
  else match t0 with
  | [] => [rune_error]
  | b1 :: t1 =>
      if (194 <=? b0) && (b0 <=? 223) && cont 128 191 b1
      then ((b0 - 192) * 64 + (b1 - 128)) :: decode_runes t1
      else match t1 with
      | [] => rune_error :: decode_runes t0
      | b2 :: t2 =>
          if (224 <=? b0) && (b0 <=? 239)
             && cont (if b0 =? 224 then 160 else 128) (if b0 =? 237 then 159 else 191) b1
             && cont 128 191 b2
          then ((b0 - 224) * 4096 + (b1 - 128) * 64 + (b2 - 128)) :: decode_runes t2
          else match t2 with
          | [] => rune_error :: decode_runes t0
          | b3 :: t3 =>
              if (240 <=? b0) && (b0 <=? 244)
                 && cont (if b0 =? 240 then 144 else 128) (if b0 =? 244 then 143 else 191) b1
                 && cont 128 191 b2 && cont 128 191 b3
              then ((b0 - 240) * 262144 + (b1 - 128) * 4096 + (b2 - 128) * 64 + (b3 - 128))
                     :: decode_runes t3
              else rune_error :: decode_runes t0
          end
      end
  end.
Proof. done. Qed.

Lemma decode_2 b0 b1 l :
  194 ≤ b0 ≤ 223 → 128 ≤ b1 ≤ 191 →
  decode_runes (b0 :: b1 :: l) = ((b0 - 192) * 64 + (b1 - 128)) :: decode_runes l.
Proof.
  intros H0 H1. rewrite decode_runes_cons, ltb_false by lia.
  by rewrite (leb_true 194), (leb_true b0 223), (cont_true 128 191 b1) by lia.
Qed.

Lemma decode_3 b0 b1 b2 l :
  224 ≤ b0 ≤ 239 → (if b0 =? 224 then 160 else 128) ≤ b1 ≤ (if b0 =? 237 then 159 else 191) →
  128 ≤ b2 ≤ 191 →
  decode_runes (b0 :: b1 :: b2 :: l)
  = ((b0 - 224) * 4096 + (b1 - 128) * 64 + (b2 - 128)) :: decode_runes l.
Proof.
  intros H0 H1 H2. rewrite decode_runes_cons, ltb_false by lia.
  rewrite (leb_false b0 223), andb_false_r by lia. cbn [andb].
  by rewrite (leb_true 224 b0), (leb_true b0 239), cont_true, (cont_true 128 191 b2) by lia.
Qed.

Lemma decode_4 b0 b1 b2 b3 l :
  240 ≤ b0 ≤ 244 → (if b0 =? 240 then 144 else 128) ≤ b1 ≤ (if b0 =? 244 then 143 else 191) →
  128 ≤ b2 ≤ 191 → 128 ≤ b3 ≤ 191 →
  decode_runes (b0 :: b1 :: b2 :: b3 :: l)
  = ((b0 - 240) * 262144 + (b1 - 128) * 4096 + (b2 - 128) * 64 + (b3 - 128)) :: decode_runes l.
Proof.
  intros H0 H1 H2 H3. rewrite decode_runes_cons, ltb_false by lia.
  rewrite (leb_false b0 223), andb_false_r by lia. cbn [andb].
  rewrite (leb_false b0 239), andb_false_r by lia. cbn [andb].
  by rewrite (leb_true 240 b0), (leb_true b0 244), cont_true, (cont_true 128 191 b2), (cont_true 128 191 b3) by lia.
Qed.

Lemma decode_encode_valid r l :
  ValidRune r = true → decode_runes (encode_valid r ++ l) = r :: decode_runes l.
Proof.
  intros Hv. assert (0 ≤ r < 55296 ∨ 57343 < r ≤ 1114111) as Hr.
  { unfold ValidRune in Hv. apply orb_true_iff in Hv as [[??]%andb_true_iff|[??]%andb_true_iff]; lia. }
  clear Hv. unfold encode_valid.
  assert (r mod 64 = r - 64 * (r / 64)) as E0 by (pose proof (Z.div_mod r 64); lia).
  assert ((r / 64) mod 64 = r / 64 - 64 * (r / 4096)) as E1.
  { pose proof (Z.div_mod (r / 64) 64). rewrite Z.div_div in * by lia. change (64 * 64) with 4096 in *. lia. }
  assert ((r / 4096) mod 64 = r / 4096 - 64 * (r / 262144)) as E2.
  { pose proof (Z.div_mod (r / 4096) 64). rewrite Z.div_div in * by lia. change (4096 * 64) with 262144 in *. lia. }
  pose proof (Z.mod_pos_bound r 64 ltac:(lia)) as B0.
  pose proof (Z.mod_pos_bound (r / 64) 64 ltac:(lia)) as B1.
  pose proof (Z.mod_pos_bound (r / 4096) 64 ltac:(lia)) as B2.
  rewrite E0, E1, E2 in *. clear E0 E1 E2.
  generalize dependent (r / 64). intros q1. generalize dependent (r / 4096). intros q2.
  generalize dependent (r / 262144). intros q3 B2 B1 B0.
  destruct (Z.ltb_spec r 128); [|destruct (Z.ltb_spec r 2048); [|destruct (Z.ltb_spec r 65536)]]; cbn [app].
  - by rewrite decode_runes_cons, ltb_true by lia.
  - rewrite decode_2 by lia. f_equal. lia.
  - rewrite decode_3; [f_equal; lia|lia| |lia].
    destruct (Z.eqb_spec (224 + q2) 224); destruct (Z.eqb_spec (224 + q2) 237); lia.
  - rewrite decode_4; [f_equal; lia|lia| |lia..].
    destruct (Z.eqb_spec (240 + q3) 240); destruct (Z.eqb_spec (240 + q3) 244); lia.
Qed.

Lemma ValidRune_spec r : ValidRune r = true ↔ 0 ≤ r < 55296 ∨ 57343 < r ≤ 1114111.
Proof.
  unfold ValidRune. rewrite orb_true_iff, !andb_true_iff, Z.leb_le, !Z.ltb_lt, Z.leb_le. lia.
Qed.

Lemma encode_valid_bytes r b : ValidRune r = true → b ∈ encode_valid r → 0 ≤ b < 256.
Proof.
  rewrite ValidRune_spec. intros Hr. unfold encode_valid.
  pose proof (Z.mod_pos_bound r 64 ltac:(lia)).
  pose proof (Z.mod_pos_bound (r / 64) 64 ltac:(lia)).
  pose proof (Z.mod_pos_bound (r / 4096) 64 ltac:(lia)).
  pose proof (Z.div_mod r 64 ltac:(lia)). pose proof (Z.div_mod r 4096 ltac:(lia)).
  pose proof (Z.div_mod r 262144 ltac:(lia)).
  pose proof (Z.mod_pos_bound r 4096 ltac:(lia)). pose proof (Z.mod_pos_bound r 262144 ltac:(lia)).
  repeat case_match; rewrite ?elem_of_cons, elem_of_nil; lia.
Qed.

(** What the decoder reads is a valid rune. *)
Lemma cont_spec lo hi b : cont lo hi b = true ↔ lo ≤ b ≤ hi.
Proof. unfold cont. by rewrite andb_true_iff, !Z.leb_le. Qed.

Lemma decode_runes_valid l r :
  Forall (λ b, 0 ≤ b) l → r ∈ decode_runes l → ValidRune r = true.
Proof.
  remember (length l) as n eqn:Hn. revert l Hn.
  induction n as [n IH] using lt_wf_ind. intros l -> Hl Hin.
  destruct l as [|b0 t0]; [by apply elem_of_nil in Hin|].
  apply Forall_cons in Hl as [H0 Hl].
  assert (∀ t, (length t < length (b0 :: t0))%nat → Forall (λ b, 0 ≤ b) t → r ∈ decode_runes t →
               ValidRune r = true) as IH'.
  { intros t Ht Hf. by apply (IH (length t)). }
  assert (ValidRune rune_error = true) as Herr by done.
  rewrite decode_runes_cons in Hin. destruct (Z.ltb_spec b0 128).
  { apply elem_of_cons in Hin as [-> |Hin]; [apply ValidRune_spec; lia|]. apply (IH' t0); simpl; auto. }
  destruct t0 as [|b1 t1]; [apply elem_of_cons in Hin as [-> |Hin]; [done|by apply elem_of_nil in Hin]|].
  assert (r ∈ rune_error :: decode_runes (b1 :: t1) → ValidRune r = true) as Hbad.
  { intros [-> |Hr]%elem_of_cons; [done|]. apply (IH' (b1 :: t1)); simpl; auto. }
  apply Forall_cons in Hl as [H1 Hl].
  destruct ((194 <=? b0) && (b0 <=? 223) && cont 128 191 b1) eqn:E2.
  { rewrite !andb_true_iff, !Z.leb_le, cont_spec in E2.
    apply elem_of_cons in Hin as [-> |Hin]; [apply ValidRune_spec; lia|]. apply (IH' t1); simpl; auto. }
  clear E2. destruct t1 as [|b2 t2]; [by apply Hbad|]. apply Forall_cons in Hl as [H2 Hl].
  match type of Hin with context [if ?c then _ else _] => destruct c eqn:E3 end.
  { rewrite !andb_true_iff, !Z.leb_le, !cont_spec in E3.
    apply elem_of_cons in Hin as [-> |Hin]; [|apply (IH' t2); simpl; auto].
    apply ValidRune_spec. destruct (Z.eqb_spec b0 224), (Z.eqb_spec b0 237); lia. }
  clear E3. destruct t2 as [|b3 t3]; [by apply Hbad|]. apply Forall_cons in Hl as [H3 Hl].
  match type of Hin with context [if ?c then _ else _] => destruct c eqn:E4 end; [|by apply Hbad].
  rewrite !andb_true_iff, !Z.leb_le, !cont_spec in E4.
  apply elem_of_cons in Hin as [-> |Hin]; [|apply (IH' t3); simpl; auto].
  apply ValidRune_spec. destruct (Z.eqb_spec b0 240), (Z.eqb_spec b0 244); lia.
Qed.

Lemma runes_valid s r : r ∈ runes s → ValidRune r = true.
Proof.
  apply decode_runes_valid. apply Forall_fmap, Forall_true. intros c. simpl.
  pose proof (byte_val_range c). lia.
Qed.

Lemma runes_string_of_runes rs :
  Forall (λ r, ValidRune r = true) rs → runes (string_of_runes rs) = rs.
Proof.
  intros Hrs. unfold runes, string_of_runes. rewrite bytes_of_bytes, <- list_fmap_compose.
  assert (byte_val ∘ byte_of <$> (rs ≫= encode_rune) = rs ≫= encode_valid) as ->.
  { induction Hrs as [|r rs Hr _ IH]; [done|]. rewrite !bind_cons, fmap_app, IH. f_equal.
    unfold encode_rune. rewrite Hr. rewrite <- list_fmap_id. apply list_fmap_ext. intros i b Hb.
    apply byte_of_val. eapply encode_valid_bytes; [done|]. by eapply list_elem_of_lookup_2. }
  induction Hrs as [|r rs Hr _ IH]; [done|]. rewrite bind_cons, decode_encode_valid by done. by rewrite IH.
Qed.

(** [strings.Map] with a mapping that keeps every rune. *)
Definition strings_Map (f : Z → Z) (s : string) : string := string_of_runes (f <$> runes s).

Lemma runes_strings_Map f s :
  (∀ r, ValidRune r = true → ValidRune (f r) = true) → runes (strings_Map f s) = f <$> runes s.
Proof.
  intros Hf. apply runes_string_of_runes. apply Forall_fmap. apply Forall_forall. intros r Hr.
  by apply Hf, (runes_valid s).
Qed.

(** An ASCII prefix is decoded byte by byte. *)
Lemma runes_ascii_app p s :
  Forall (λ c, byte_val c < 128) (bytes p) → runes (p +:+ s) = (byte_val <$> bytes p) ++ runes s.
Proof.
  intros Hp. unfold runes. rewrite bytes_app, fmap_app. induction Hp as [|c p' Hc _ IH]; [done|].
  cbn [fmap list_fmap app]. rewrite decode_runes_cons, ltb_true by done. f_equal. apply IH.
Qed.

(** The first bytes of an encoded text tell whether its first runes are ASCII. *)
Lemma encode_rune_ascii r : 0 ≤ r < 128 → encode_rune r = [r].
Proof.
  intros Hr. unfold encode_rune. rewrite (proj2 (ValidRune_spec r)) by lia.
  unfold encode_valid. by rewrite ltb_true by lia.
Qed.

Lemma encode_valid_head r :
  ValidRune r = true → 128 ≤ r → ∃ b l, encode_valid r = b :: l ∧ 192 ≤ b < 256.
Proof.
  rewrite ValidRune_spec. intros Hr H128. unfold encode_valid.
  pose proof (Z.div_mod r 64 ltac:(lia)). pose proof (Z.div_mod r 4096 ltac:(lia)).
  pose proof (Z.div_mod r 262144 ltac:(lia)). pose proof (Z.mod_pos_bound r 64 ltac:(lia)).
  pose proof (Z.mod_pos_bound r 4096 ltac:(lia)). pose proof (Z.mod_pos_bound r 262144 ltac:(lia)).
  destruct (Z.ltb_spec r 128); [lia|]. repeat case_match; (eexists _, _; split; [reflexivity|lia]).
Qed.

(** The first byte is the first rune when one of them is ASCII. *)
Lemma string_of_runes_cons r rs :
  ValidRune r = true →
  ∃ c, string_of_runes (r :: rs) = String c (of_bytes (byte_of <$> (tail (encode_rune r) ++ (rs ≫= encode_rune))))
       ∧ (byte_val c < 128 ∨ r < 128 → byte_val c = r ∧ tail (encode_rune r) = []).
Proof.
  intros Hv. pose proof (proj1 (ValidRune_spec r) Hv) as Hr. unfold string_of_runes. rewrite bind_cons.
  destruct (decide (r < 128)) as [Hlt|Hge].
  - rewrite (encode_rune_ascii r) by lia. exists (byte_of r). split; [done|].
    intros _. by rewrite byte_of_val by lia.
  - replace (encode_rune r) with (encode_valid r) by (unfold encode_rune; by rewrite Hv).
    destruct (encode_valid_head r Hv ltac:(lia)) as (b & l & -> & Hb). exists (byte_of b). split; [done|].
    rewrite byte_of_val by lia. lia.
Qed.

(** ** [strings] *)

(** [strings.Split] on a one-byte separator. *)
Definition Split (s : string) (sep : ascii) : list string := of_bytes <$> split_bytes sep (bytes s).

(** The white space of [unicode.IsSpace], encoded. *)
Definition space_runes : list Z :=
  [9; 10; 11; 12; 13; 32; 133; 160; 5760] ++ (Z.of_nat <$> seq 8192 11) ++ [8232; 8233; 8239; 8287; 12288].
Definition space_bytes : list (list ascii) := (λ r, byte_of <$> encode_rune r) <$> space_runes.

(** One rune of white space at the start of [l]. *)
Definition strip_space (l : list ascii) : option (list ascii) :=
  head (omap (λ sp, if decide (take (length sp) l = sp) then Some (drop (length sp) l) else None) space_bytes).
(** One rune of white space at the end of [l]. *)
Definition strip_space_end (l : list ascii) : option (list ascii) :=
  head (omap (λ sp, if decide (drop (length l - length sp) l = sp)
                    then Some (take (length l - length sp) l) else None) space_bytes).
Fixpoint trim_with (strip : list ascii → option (list ascii)) (fuel : nat) (l : list ascii) : list ascii :=
  match fuel with
  | O => l
  | S fuel => match strip l with Some l' => trim_with strip fuel l' | None => l end
  end.
(** [strings.TrimSpace]: every turn removes at least a byte. *)
Definition TrimSpace (s : string) : string :=
  let l := trim_with strip_space (length (bytes s)) (bytes s) in
  of_bytes (trim_with strip_space_end (length l) l).

Example TrimSpace_ex : TrimSpace "  prometheus, x  " = "prometheus, x".
Proof. reflexivity. Qed.

(** ** Unicode tables *)

(** [unicode.IsDigit] and the ASCII part of [unicode.IsLetter]; in Latin-1 the digits are
    the ten ASCII ones. *)
Class UnicodeTables (U : Unicode) := {
  IsDigit : Z → bool;
  IsDigit_latin1 r : 0 ≤ r < 256 → IsDigit r = cont 48 57 r;
  IsLetter_ascii r : 0 ≤ r < 128 → IsLetter r = cont 65 90 r || cont 97 122 r;
}.

(** The tables restricted to ASCII. *)
Module TestUnicode.
#[export] Program Instance test_unicode : Unicode := {|
  IsLetter r := cont 65 90 r || cont 97 122 r;
  IsLower r := cont 97 122 r;
|}.
Next Obligation. simpl. intros r ->. apply orb_true_r. Qed.
#[export] Instance test_tables : UnicodeTables test_unicode := {|
  IsDigit := cont 48 57;
  IsDigit_latin1 r _ := eq_refl;
  IsLetter_ascii r _ := eq_refl;
|}.
End TestUnicode.
