(* ===== verification/Pdata.v ===== *)
(** * The trace data model

    The OTLP structures the processors walk ([ptrace.Traces] and below), as records
    with the fields the collector reads, and the interfaces of third-party code:
    attribute values, trace-state parsing, regular expressions and the LRU cache. *)
From S2P Require Import Prelude.

(** [pcommon.Value] with its accessors, and [tracesdk.ParseTraceState]: the result is
    the [Get] method of the parsed state, [None] a parse error. *)
Class Pdata := {
  Value : Type;
  Str : Value → string;
  Int : Value → Z;
  ParseTraceState : string → option (string → string);
}.

(** [MatchString] of a compiled [regexp.Regexp], by pattern. *)
Class Regexp := { MatchString : string → string → bool }.

(** [groupcache/lru.Cache] from strings to booleans. *)
Class LRU := {
  Cache : Type;
  lru_New : Z → Cache;
  lru_Get : Cache → string → option bool * Cache;
  lru_Add : Cache → string → bool → Cache;
}.

(** What the matcher of the string filter relies on: a cache holds a subset of the
    associations that were added to it. *)
Class LRULaws (L : LRU) := {
  lru_holds : Cache → string → bool → Prop;
  lru_New_empty n k b : ¬ lru_holds (lru_New n) k b;
  lru_Get_hit c k b c' : lru_Get c k = (Some b, c') → lru_holds c k b;
  lru_Get_keeps c k o c' k' b : lru_Get c k = (o, c') → lru_holds c' k' b → lru_holds c k' b;
  lru_Add_holds c k b k' b' :
    lru_holds (lru_Add c k b) k' b' → (k' = k ∧ b' = b) ∨ lru_holds c k' b';
}.

(** [pcommon.TraceID]: 16 bytes. *)
Abbreviation TraceID := string (only parsing).

Inductive StatusCode := StatusCodeUnset | StatusCodeOk | StatusCodeError.
#[export] Instance StatusCode_eq_dec : EqDecision StatusCode.
Proof. solve_decision. Defined.

(** [ptrace.SpanKind]: an int32 with six named values. *)
Inductive SpanKind :=
| SpanKindUnspecified | SpanKindInternal | SpanKindServer | SpanKindClient
| SpanKindProducer | SpanKindConsumer | SpanKindOther (n : Z).
#[export] Instance SpanKind_eq_dec : EqDecision SpanKind.
Proof. solve_decision. Defined.

(** The text of a value and of the enumerations, and values made from strings. *)
Class PdataText (P : Pdata) := {
  AsString : Value → string;
  NewValueStr : string → Value;
  Str_NewValueStr s : Str (NewValueStr s) = s;
  AsString_NewValueStr s : AsString (NewValueStr s) = s;
  SpanKind_String : SpanKind → string;
  StatusCode_String : StatusCode → string;
}.

Section data.
Context `{Pdata}.

Record Span := {
  span_TraceID : TraceID;
  span_SpanID : string;
  span_Name : string;
  span_Kind : SpanKind;
  span_StartTimestamp : Z;
  span_EndTimestamp : Z;
  span_Attributes : gmap string Value;
  span_Status : StatusCode;
  span_TraceState : string;
}.
Record ScopeSpans := { ss_Scope : string; ss_Spans : list Span }.
Record ResourceSpans := { rs_Resource : gmap string Value; rs_ScopeSpans : list ScopeSpans }.
Definition Traces := list ResourceSpans.

(** All the spans of a batch, in order. *)
Definition rs_spans (rs : ResourceSpans) : list Span := rs_ScopeSpans rs ≫= ss_Spans.
Definition all_spans (td : Traces) : list Span := td ≫= rs_spans.
(** All the resources of a batch, in order. *)
Definition all_resources (td : Traces) : list (gmap string Value) := rs_Resource <$> td.
End data.

(** A concrete instance, used by witnesses: values are strings or integers. *)
Module TestPdata.
Inductive tvalue := VStr (s : string) | VInt (z : Z).
#[export] Instance test_pdata : Pdata := {|
  Value := tvalue;
  Str v := match v with VStr s => s | VInt _ => "" end;
  Int v := match v with VInt z => z | VStr _ => 0 end;
  ParseTraceState s := match s with
                       | EmptyString => None
                       | _ => Some (λ k, if decide (k = "k") then s else "")
                       end;
|}.
#[export] Instance test_text : PdataText test_pdata := {|
  AsString v := match v with VStr s => s | VInt z => pretty z end;
  NewValueStr := VStr;
  Str_NewValueStr s := eq_refl;
  AsString_NewValueStr s := eq_refl;
  SpanKind_String k := match k with SpanKindServer => "Server" | SpanKindClient => "Client" | _ => "" end;
  StatusCode_String c := match c with StatusCodeError => "Error" | StatusCodeOk => "Ok" | _ => "Unset" end;
|}.
#[export] Instance test_regexp : Regexp := {| MatchString p s := bool_decide (p = s) |}.

(** A cache of unbounded size. *)
#[export] Instance test_lru : LRU := {|
  Cache := gmap string bool;
  lru_New _ := ∅;
  lru_Get c k := (c !! k, c);
  lru_Add c k b := <[k:=b]> c;
|}.
#[export] Program Instance test_lru_laws : LRULaws test_lru := {|
  lru_holds c k b := c !! k = Some b;
|}.
Next Obligation. intros n k b; simpl. by rewrite lookup_empty. Qed.
Next Obligation. simpl. naive_solver. Qed.
Next Obligation. simpl. naive_solver. Qed.
Next Obligation.
  simpl. intros c k b k' b' Hl. destruct (decide (k' = k)) as [->|].
  - left. rewrite lookup_insert_eq in Hl. naive_solver.
  - right. by rewrite lookup_insert_ne in Hl.
Qed.
End TestPdata.
