(* ===== verification/Sampling.v ===== *)
(** * Sampling policies of the tail sampler

    src/processor/signoztailsampler/internal/sampling: the decision values, the trace
    record, one evaluator per policy type and the interface that dispatches to them.
    An evaluator's mutable fields are part of its value: [Evaluate] returns the
    decision, the error and the evaluator after the call. *)
From S2P Require Import Prelude Pdata.
From Stdlib Require Import SpecFloat.

(** ** Decisions and trace data (policy.go) *)

Inductive Decision :=
| Unspecified | Pending | Sampled | NotSampled | Dropped | Error
| InvertSampled | InvertNotSampled | NoResult.
#[export] Instance Decision_eq_dec : EqDecision Decision.
Proof. solve_decision. Defined.

Section sampling.
Context `{PD : Pdata} `{RX : Regexp} `{L : LRU}.

(** [SpanCount] is an [atomic.Int64]; [ArrivalTime], [DecisionTime] are instants. *)
Record TraceData := {
  Decisions : list Decision;
  ArrivalTime : Z;
  DecisionTime : Z;
  SpanCount : Z;
  ReceivedBatches : Traces;
  FinalDecision : Decision;
}.

(** ** Walking the spans (util.go) *)

(** The callbacks of the walks may be closures over mutable variables: they take and
    return a state, and the walk stops at the first span that decides. *)
Section walks.
Context {S : Type}.
Implicit Types (checkSpan : Span → S → bool * S).
Implicit Types (checkResource : gmap string Value → S → bool * S).

(** The inner loop over the spans of one scope. *)
Fixpoint any_span (spans : list Span) checkSpan (s : S) : bool * S :=
  match spans with
  | [] => (false, s)
  | sp :: rest => let '(b, s) := checkSpan sp s in
                  if b then (true, s) else any_span rest checkSpan s
  end.

Fixpoint hasInstrumentationLibrarySpanWithCondition
    (ilss : list ScopeSpans) checkSpan (s : S) : bool * S :=
  match ilss with
  | [] => (false, s)
  | ils :: rest => let '(b, s) := any_span (ss_Spans ils) checkSpan s in
                   if b then (true, s)
                   else hasInstrumentationLibrarySpanWithCondition rest checkSpan s
  end.

Fixpoint all_span (spans : list Span) checkSpan (s : S) : bool * S :=
  match spans with
  | [] => (true, s)
  | sp :: rest => let '(b, s) := checkSpan sp s in
                  if negb b then (false, s) else all_span rest checkSpan s
  end.

Fixpoint invertHasInstrumentationLibrarySpanWithCondition
    (ilss : list ScopeSpans) checkSpan (s : S) : bool * S :=
  match ilss with
  | [] => (true, s)
  | ils :: rest => let '(b, s) := all_span (ss_Spans ils) checkSpan s in
                   if negb b then (false, s)
                   else invertHasInstrumentationLibrarySpanWithCondition rest checkSpan s
  end.

Fixpoint hasResourceOrSpanWithCondition
    (td : Traces) checkResource checkSpan (s : S) : Decision * S :=
  match td with
  | [] => (NotSampled, s)
  | rs :: rest =>
      let '(b, s) := checkResource (rs_Resource rs) s in
      if b then (Sampled, s)
      else let '(b, s) := hasInstrumentationLibrarySpanWithCondition
                            (rs_ScopeSpans rs) checkSpan s in
           if b then (Sampled, s)
           else hasResourceOrSpanWithCondition rest checkResource checkSpan s
  end.

Fixpoint invertHasResourceOrSpanWithCondition
    (td : Traces) checkResource checkSpan (s : S) : Decision * S :=
  match td with
  | [] => (InvertSampled, s)
  | rs :: rest =>
      let '(b, s) := checkResource (rs_Resource rs) s in
      if negb b then (InvertNotSampled, s)
      else let '(b, s) := invertHasInstrumentationLibrarySpanWithCondition
                            (rs_ScopeSpans rs) checkSpan s in
           if negb b then (InvertNotSampled, s)
           else invertHasResourceOrSpanWithCondition rest checkResource checkSpan s
  end.

Fixpoint hasSpanWithCondition (td : Traces) checkSpan (s : S) : Decision * S :=
  match td with
  | [] => (NotSampled, s)
  | rs :: rest =>
      let '(b, s) := hasInstrumentationLibrarySpanWithCondition
                       (rs_ScopeSpans rs) checkSpan s in
      if b then (Sampled, s) else hasSpanWithCondition rest checkSpan s
  end.
End walks.

(** A callback without state. *)
Definition pure {A} (p : A → bool) : A → unit → bool * unit := λ a u, (p a, u).

(** ** The evaluators' own state and decisions *)

(** numeric_tag_filter.go: the attribute of a span in a closed range. *)
Definition numericAttributeFilter_check (key : string) (minValue maxValue : Z) (sp : Span) : bool :=
  match span_Attributes sp !! key with
  | Some v => (minValue <=? Int v) && (Int v <=? maxValue)
  | None => false
  end.
Definition numericAttributeFilter_Evaluate (key : string) (minValue maxValue : Z)
    (td : TraceData) : Decision :=
  fst (hasSpanWithCondition (ReceivedBatches td)
         (pure (numericAttributeFilter_check key minValue maxValue)) tt).

(** probabilistic.go. [NewProbabilisticSampler] replaces an empty salt and turns the
    percentage into a threshold on 64-bit hashes. *)
Definition defaultHashSalt : string := "default-hash-seed".

(** A Go float64. *)
Definition float64 := spec_float.
Definition float64_of_int (z : Z) : float64 := binary_normalize 53 1024 z 0 false.
(** [int(x)]; a float that is no int64 becomes the least one. *)
Definition int_of_float (x : float64) : Z :=
  match x with
  | S754_finite s m e =>
      let z := if 0 <=? e then Z.pos m * 2 ^ e else Z.pos m / 2 ^ (- e) in
      let z := if s then - z else z in
      if (- 2 ^ 63 <=? z) && (z <? 2 ^ 63) then z else - 2 ^ 63
  | S754_zero _ => 0
  | _ => - 2 ^ 63
  end.
Definition float64_div (a b : float64) : float64 := SFdiv 53 1024 a b.

(** [big.Float.Uint64]: truncation, saturating at both ends. *)
Definition bigfloat_Uint64 (x : spec_float) : Z :=
  match x with
  | S754_zero _ | S754_nan => 0
  | S754_infinity neg => if neg then 0 else two64 - 1
  | S754_finite neg m e =>
      if neg then 0
      else Z.min (two64 - 1) (if 0 <=? e then Zpos m * 2 ^ e else Zpos m / 2 ^ (- e))
  end.

(** The product is rounded to the 64 bits of [boundary]'s precision; [big.NewFloat]
    panics on NaN, modelled as [None]. *)
Definition calculateThreshold (ratio : float64) : option Z :=
  match ratio with
  | S754_nan => None
  | _ => Some (bigfloat_Uint64
                 (SFmul 64 (2 ^ 31) (S754_finite false 18446744073709551615 0) ratio))
  end.

Definition hashTraceID (salt : string) (b : string) : Z := fnv1a (fnv1a fnv_offset64 salt) b.

Definition probabilisticSampler_Evaluate (threshold : Z) (hashSalt : string)
    (traceID : TraceID) : Decision :=
  if hashTraceID hashSalt traceID <=? threshold then Sampled else NotSampled.

(** string_tag_filter.go. The matcher is a closure: the set of exact values, or the
    list of patterns with the LRU cache of results. *)
Inductive Matcher :=
| exactMatcher (valuesMap : gset string)
| regexMatcher (filterList : list string) (matchedAttrs : Cache).

Definition run_matcher (toMatch : string) (m : Matcher) : bool * Matcher :=
  match m with
  | exactMatcher vs => (bool_decide (toMatch ∈ vs), m)
  | regexMatcher fl c =>
      match lru_Get c toMatch with
      | (Some b, c) => (b, regexMatcher fl c)
      | (None, c) =>
          let b := existsb (λ r, MatchString r toMatch) fl in
          (b, regexMatcher fl (lru_Add c toMatch b))
      end
  end.

Definition defaultCacheSize : Z := 128.

Definition NewStringAttributeFilter_matcher (values : list string) (regexMatchEnabled : bool)
    (evictSize : Z) : Matcher :=
  if regexMatchEnabled then
    regexMatcher values (lru_New (if evictSize <=? 0 then defaultCacheSize else evictSize))
  else exactMatcher (list_to_set (filter (λ v, v ≠ "") values)).

(** The four closures of [Evaluate]: resources are matched on any value, spans only on
    non-empty ones; in the inverted walk a match answers [false]. *)
Definition saf_resource (key : string) (r : gmap string Value) (m : Matcher) : bool * Matcher :=
  match r !! key with Some v => run_matcher (Str v) m | None => (false, m) end.
Definition saf_span (key : string) (sp : Span) (m : Matcher) : bool * Matcher :=
  match span_Attributes sp !! key with
  | Some v => match Str v with EmptyString => (false, m) | s => run_matcher s m end
  | None => (false, m)
  end.
Definition inverted {A S} (f : A → S → bool * S) : A → S → bool * S :=
  λ a s, let '(b, s) := f a s in (negb b, s).

Definition stringAttributeFilter_Evaluate (key : string) (invertMatch : bool) (m : Matcher)
    (td : TraceData) : Decision * Matcher :=
  if invertMatch then
    invertHasResourceOrSpanWithCondition (ReceivedBatches td)
      (inverted (saf_resource key)) (inverted (saf_span key)) m
  else hasResourceOrSpanWithCondition (ReceivedBatches td) (saf_resource key) (saf_span key) m.

(** latency.go: the closure keeps the earliest start and latest end seen so far; 0
    means unset. [AsTime] reads the timestamp as an int64 of nanoseconds, [Sub]
    saturates and [Milliseconds] truncates. *)
Definition time_Sub (t u : Z) : Z :=
  Z.max (- 2 ^ 63) (Z.min (2 ^ 63 - 1) (i64 t - i64 u)).
Definition latency_check (thresholdMs : Z) (sp : Span) (st : Z * Z) : bool * (Z * Z) :=
  let '(minTime, maxTime) := st in
  let minTime := if (minTime =? 0) || (span_StartTimestamp sp <? minTime)
                 then span_StartTimestamp sp else minTime in
  let maxTime := if (maxTime =? 0) || (maxTime <? span_EndTimestamp sp)
                 then span_EndTimestamp sp else maxTime in
  (thresholdMs <=? Z.quot (time_Sub maxTime minTime) 1000000, (minTime, maxTime)).
Definition latency_Evaluate (thresholdMs : Z) (td : TraceData) : Decision :=
  fst (hasSpanWithCondition (ReceivedBatches td) (latency_check thresholdMs) (0, 0)).

(** rate_limiting.go; [currSecond] is [time.Now().Unix()]. *)
Record rateLimiting := {
  rl_currentSecond : Z;
  rl_spansInCurrentSecond : Z;
  rl_spansPerSecond : Z;
}.
Definition NewRateLimiting (spansPerSecond : Z) : rateLimiting :=
  {| rl_currentSecond := 0; rl_spansInCurrentSecond := 0; rl_spansPerSecond := spansPerSecond |}.
Definition rateLimiting_Evaluate (r : rateLimiting) (currSecond : Z) (td : TraceData) :
    Decision * rateLimiting :=
  let used := if rl_currentSecond r =? currSecond then rl_spansInCurrentSecond r else 0 in
  let spansInSecondIfSampled := i64 (used + SpanCount td) in
  if spansInSecondIfSampled <? rl_spansPerSecond r then
    (Sampled, {| rl_currentSecond := currSecond;
                 rl_spansInCurrentSecond := spansInSecondIfSampled;
                 rl_spansPerSecond := rl_spansPerSecond r |})
  else
    (NotSampled, {| rl_currentSecond := currSecond;
                    rl_spansInCurrentSecond := used;
                    rl_spansPerSecond := rl_spansPerSecond r |}).

(** span_count_sampler.go. *)
Definition spanCount_Evaluate (minSpans : Z) (td : TraceData) : Decision :=
  if minSpans <=? SpanCount td then Sampled else NotSampled.

(** status_code.go: the constructor parses the codes and rejects unknown ones. *)
Definition parse_status_code (s : string) : result string StatusCode :=
  if decide (s = "OK") then Ok StatusCodeOk
  else if decide (s = "ERROR") then Ok StatusCodeError
  else if decide (s = "UNSET") then Ok StatusCodeUnset
  else Err ("unknown status code " +:+ s).
Fixpoint parse_status_codes (l : list string) : result string (list StatusCode) :=
  match l with
  | [] => Ok []
  | s :: l' => c ← parse_status_code s; cs ← parse_status_codes l'; Ok (c :: cs)
  end.
Definition NewStatusCodeFilter (statusCodeString : list string) :
    result string (list StatusCode) :=
  match statusCodeString with
  | [] => Err "expected at least one status code to filter on"
  | l => parse_status_codes l
  end.
Definition statusCodeFilter_check (statusCodes : list StatusCode) (sp : Span) : bool :=
  existsb (λ c, bool_decide (span_Status sp = c)) statusCodes.
Definition statusCodeFilter_Evaluate (statusCodes : list StatusCode) (td : TraceData) : Decision :=
  fst (hasSpanWithCondition (ReceivedBatches td) (pure (statusCodeFilter_check statusCodes)) tt).

(** trace_state_filter.go: values too long for a trace-state entry are ignored. *)
Definition NewTraceStateFilter_values (key : string) (values : list string) : gset string :=
  list_to_set (filter (λ v, v ≠ "" ∧
    (length (bytes key) + length (bytes v) < 256)%nat) values).
Definition traceStateFilter_check (key : string) (valuesMap : gset string) (sp : Span) : bool :=
  match ParseTraceState (span_TraceState sp) with
  | None => false
  | Some get => bool_decide (get key ∈ valuesMap)
  end.
Definition traceStateFilter_Evaluate (key : string) (valuesMap : gset string)
    (td : TraceData) : Decision :=
  fst (hasSpanWithCondition (ReceivedBatches td) (pure (traceStateFilter_check key valuesMap)) tt).
End sampling.

(** ** The walks against the flat list of spans *)

(** [implements I p check]: on states satisfying [I] the callback [check] answers [p]
    and keeps [I]. A stateless callback implements its predicate with [I] trivial. *)
Definition implements {A S} (I : S → Prop) (p : A → bool) (check : A → S → bool * S) : Prop :=
  ∀ a s, I s → (check a s).1 = p a ∧ I (check a s).2.

Lemma implements_pure {A} (p : A → bool) : implements (λ _, True) p (pure p).
Proof. done. Qed.

Lemma implements_inverted {A S} (I : S → Prop) (p : A → bool) check :
  implements I p check → implements I (λ a, negb (p a)) (inverted check).
Proof.
  intros H a s Hs. destruct (H a s Hs) as [H1 H2]. unfold inverted.
  destruct (check a s); simpl in *. by subst.
Qed.

Section walk_lemmas.
Context `{PD : Pdata} {S : Type} (I : S → Prop).
Context (p : Span → bool) (check : Span → S → bool * S) (Hp : implements I p check).
Context (pr : gmap string Value → bool) (checkR : gmap string Value → S → bool * S)
        (Hpr : implements I pr checkR).

Ltac step H :=
  let E1 := fresh "E" in let E2 := fresh "I" in
  match goal with Hs : I ?s |- context [?f ?a ?s] =>
    destruct (H a s Hs) as [E1 E2]; destruct (f a s); simpl in E1, E2 |- *; subst end.

Lemma any_span_spec spans s :
  I s → (any_span spans check s).1 = existsb p spans ∧ I (any_span spans check s).2.
Proof using Hp.
  revert s. induction spans as [|sp spans IH]; intros s Hs; simpl; [done|].
  step Hp. destruct (p sp); simpl; [done|]. by apply IH.
Qed.

Lemma all_span_spec spans s :
  I s → (all_span spans check s).1 = forallb p spans ∧ I (all_span spans check s).2.
Proof using Hp.
  revert s. induction spans as [|sp spans IH]; intros s Hs; simpl; [done|].
  step Hp. destruct (p sp); simpl; [|done]. by apply IH.
Qed.

Lemma hasILS_spec ilss s :
  I s → (hasInstrumentationLibrarySpanWithCondition ilss check s).1
        = existsb p (ilss ≫= ss_Spans)
        ∧ I (hasInstrumentationLibrarySpanWithCondition ilss check s).2.
Proof using Hp.
  revert s. induction ilss as [|ils ilss IH]; intros s Hs; simpl; [done|].
  rewrite existsb_app. destruct (any_span_spec (ss_Spans ils) s Hs) as [E Hi].
  destruct (any_span _ check s); simpl in *; subst.
  destruct (existsb p (ss_Spans ils)); simpl; [done|]. by apply IH.
Qed.

Lemma invertILS_spec ilss s :
  I s → (invertHasInstrumentationLibrarySpanWithCondition ilss check s).1
        = forallb p (ilss ≫= ss_Spans)
        ∧ I (invertHasInstrumentationLibrarySpanWithCondition ilss check s).2.
Proof using Hp.
  revert s. induction ilss as [|ils ilss IH]; intros s Hs; simpl; [done|].
  rewrite forallb_app. destruct (all_span_spec (ss_Spans ils) s Hs) as [E Hi].
  destruct (all_span _ check s); simpl in *; subst.
  destruct (forallb p (ss_Spans ils)); simpl; [|done]. by apply IH.
Qed.

(** Some span satisfies the condition. *)
Lemma hasSpanWithCondition_spec td s :
  I s → (hasSpanWithCondition td check s).1
        = (if existsb p (all_spans td) then Sampled else NotSampled)
        ∧ I (hasSpanWithCondition td check s).2.
Proof using Hp.
  unfold all_spans. revert s. induction td as [|rs td IH]; intros s Hs; simpl; [done|].
  rewrite existsb_app. unfold rs_spans at 1.
  destruct (hasILS_spec (rs_ScopeSpans rs) s Hs) as [E Hi].
  destruct (hasInstrumentationLibrarySpanWithCondition _ check s); simpl in *; subst.
  destruct (existsb p (rs_ScopeSpans rs ≫= ss_Spans)); simpl; [done|]. by apply IH.
Qed.

(** A resource group matches by its resource or by one of its spans. *)
Definition rs_matches (rs : ResourceSpans) : bool :=
  pr (rs_Resource rs) || existsb p (rs_spans rs).
Definition rs_all_match (rs : ResourceSpans) : bool :=
  pr (rs_Resource rs) && forallb p (rs_spans rs).

Lemma hasResourceOrSpanWithCondition_spec td s :
  I s → (hasResourceOrSpanWithCondition td checkR check s).1
        = (if existsb rs_matches td then Sampled else NotSampled)
        ∧ I (hasResourceOrSpanWithCondition td checkR check s).2.
Proof using Hp Hpr.
  revert s. induction td as [|rs td IH]; intros s Hs; simpl; [done|].
  unfold rs_matches at 1. step Hpr. destruct (pr _); simpl; [done|].
  unfold rs_spans at 1. match goal with Hs : I ?s' |- context [_ _ check ?s'] => destruct (hasILS_spec (rs_ScopeSpans rs) s' Hs) as [E Hi] end.
  destruct (hasInstrumentationLibrarySpanWithCondition _ check _); simpl in *; subst.
  destruct (existsb p (rs_ScopeSpans rs ≫= ss_Spans)); simpl; [done|]. by apply IH.
Qed.

Lemma invertHasResourceOrSpanWithCondition_spec td s :
  I s → (invertHasResourceOrSpanWithCondition td checkR check s).1
        = (if forallb rs_all_match td then InvertSampled else InvertNotSampled)
        ∧ I (invertHasResourceOrSpanWithCondition td checkR check s).2.
Proof using Hp Hpr.
  revert s. induction td as [|rs td IH]; intros s Hs; simpl; [done|].
  unfold rs_all_match at 1. step Hpr. destruct (pr _); simpl; [|done].
  unfold rs_spans at 1. match goal with Hs : I ?s' |- context [_ _ check ?s'] =>
    destruct (invertILS_spec (rs_ScopeSpans rs) s' Hs) as [E Hi] end.
  destruct (invertHasInstrumentationLibrarySpanWithCondition _ check _); simpl in *; subst.
  destruct (forallb p (rs_ScopeSpans rs ≫= ss_Spans)); simpl; [|done]. by apply IH.
Qed.
End walk_lemmas.

Lemma forallb_negb_existsb {A} (p : A → bool) l :
  forallb (λ a, negb (p a)) l = negb (existsb p l).
Proof. induction l as [|a l IH]; simpl; [done|]. rewrite IH. by destruct (p a). Qed.

(** ** The filters against their specifications *)
Section filter_lemmas.
Context `{PD : Pdata} `{RX : Regexp} `{L : LRU} `{LL : !LRULaws L}.

(** What a string filter accepts: an exact non-empty value, or a pattern's match. *)
Definition accepts (values : list string) (regexMatchEnabled : bool) (x : string) : bool :=
  if regexMatchEnabled then existsb (λ r, MatchString r x) values
  else bool_decide (x ≠ "" ∧ x ∈ values).

(** A matcher decides [p]; for a regex matcher the cached results agree with it. *)
Definition matcher_ok (p : string → bool) (m : Matcher) : Prop :=
  match m with
  | exactMatcher vs => ∀ x, p x = bool_decide (x ∈ vs)
  | regexMatcher fl c =>
      (∀ x, p x = existsb (λ r, MatchString r x) fl) ∧ ∀ k b, lru_holds c k b → b = p k
  end.

Lemma NewStringAttributeFilter_matcher_ok values re n :
  matcher_ok (accepts values re) (NewStringAttributeFilter_matcher values re n).
Proof using LL.
  destruct re; simpl.
  - split; [done|]. intros k b Hh. by apply lru_New_empty in Hh.
  - intros x. unfold accepts. apply bool_decide_ext.
    rewrite elem_of_list_to_set, list_elem_of_filter. done.
Qed.

Lemma run_matcher_ok p : implements (matcher_ok p) p run_matcher.
Proof using LL.
  intros x [vs|fl c] Hm; simpl in Hm |- *; [done|]. destruct Hm as [Hp Hc].
  destruct (lru_Get c x) as [[b|] c'] eqn:Hg; simpl.
  - split; [by apply lru_Get_hit, Hc in Hg|]. split; [done|].
    intros k b' Hh. apply Hc. by eapply lru_Get_keeps.
  - split; [by rewrite Hp|]. split; [done|].
    intros k b' Hh. apply lru_Add_holds in Hh as [[-> ->]|Hh]; [by rewrite Hp|].
    apply Hc. by eapply lru_Get_keeps.
Qed.

Definition resource_matches (key : string) (p : string → bool) (r : gmap string Value) : bool :=
  match r !! key with Some v => p (Str v) | None => false end.
Definition span_matches (key : string) (p : string → bool) (sp : Span) : bool :=
  match span_Attributes sp !! key with
  | Some v => bool_decide (Str v ≠ "") && p (Str v)
  | None => false
  end.

Lemma saf_resource_ok key p :
  implements (matcher_ok p) (resource_matches key p) (saf_resource key).
Proof using LL.
  intros r m Hm. unfold saf_resource, resource_matches.
  destruct (r !! key); [by apply run_matcher_ok|done].
Qed.

Lemma saf_span_ok key p : implements (matcher_ok p) (span_matches key p) (saf_span key).
Proof using LL.
  intros sp m Hm. unfold saf_span, span_matches.
  destruct (span_Attributes sp !! key) as [v|]; [|done].
  destruct (Str v) as [|c s] eqn:E; [done|].
  rewrite bool_decide_eq_true_2 by done. simpl. by apply run_matcher_ok.
Qed.

(** The trace has a resource or a span that the filter accepts. *)
Definition trace_matches (key : string) (p : string → bool) (td : Traces) : bool :=
  existsb (rs_matches (span_matches key p) (resource_matches key p)) td.

Lemma trace_mismatches key p td :
  forallb (rs_all_match (λ sp, negb (span_matches key p sp))
                        (λ r, negb (resource_matches key p r))) td
  = negb (trace_matches key p td).
Proof.
  unfold trace_matches. rewrite <- forallb_negb_existsb.
  induction td as [|rs td IH]; simpl; [done|]. rewrite IH. f_equal.
  unfold rs_all_match, rs_matches. by rewrite forallb_negb_existsb, negb_orb.
Qed.

(** The string filter returns what the uncached reference says, from any matcher whose
    cache is coherent, and its matcher stays coherent. *)
Lemma stringAttributeFilter_Evaluate_spec key p inv m tr :
  matcher_ok p m →
  (stringAttributeFilter_Evaluate key inv m tr).1
    = (if inv then
         if trace_matches key p (ReceivedBatches tr) then InvertNotSampled else InvertSampled
       else if trace_matches key p (ReceivedBatches tr) then Sampled else NotSampled)
  ∧ matcher_ok p (stringAttributeFilter_Evaluate key inv m tr).2.
Proof using LL.
  intros Hm. unfold stringAttributeFilter_Evaluate. destruct inv.
  - destruct (invertHasResourceOrSpanWithCondition_spec _ _ _
      (implements_inverted _ _ _ (saf_span_ok key p)) _ _
      (implements_inverted _ _ _ (saf_resource_ok key p)) (ReceivedBatches tr) m Hm) as [E Hi].
    split; [|done]. rewrite E, trace_mismatches. by destruct (trace_matches key p _).
  - by apply hasResourceOrSpanWithCondition_spec;
      [apply saf_span_ok|apply saf_resource_ok|].
Qed.

Lemma numericAttributeFilter_Evaluate_spec key lo hi tr :
  numericAttributeFilter_Evaluate key lo hi tr
  = if existsb (numericAttributeFilter_check key lo hi) (all_spans (ReceivedBatches tr))
    then Sampled else NotSampled.
Proof.
  unfold numericAttributeFilter_Evaluate.
  by rewrite (proj1 (hasSpanWithCondition_spec _ _ _ (implements_pure _) _ tt I)).
Qed.

Lemma statusCodeFilter_Evaluate_spec cs tr :
  statusCodeFilter_Evaluate cs tr
  = if existsb (statusCodeFilter_check cs) (all_spans (ReceivedBatches tr))
    then Sampled else NotSampled.
Proof.
  unfold statusCodeFilter_Evaluate.
  by rewrite (proj1 (hasSpanWithCondition_spec _ _ _ (implements_pure _) _ tt I)).
Qed.
End filter_lemmas.

(** ** Rate limiting over a second *)
Section rate_lemmas.
Context `{PD : Pdata}.

(** The traces of one second, one after the other: the number of spans sampled. *)
Fixpoint rate_run (r : rateLimiting) (now : Z) (trs : list TraceData) : Z * rateLimiting :=
  match trs with
  | [] => (0, r)
  | tr :: trs =>
      let '(d, r) := rateLimiting_Evaluate r now tr in
      let '(n, r) := rate_run r now trs in
      ((if decide (d = Sampled) then SpanCount tr else 0) + n, r)
  end.

Definition rl_used (r : rateLimiting) (now : Z) : Z :=
  if rl_currentSecond r =? now then rl_spansInCurrentSecond r else 0.

Lemma rate_run_bound trs r now lim :
  rl_spansPerSecond r = lim → lim ≤ 2 ^ 62 → 0 ≤ rl_used r now < lim →
  Forall (λ tr, 0 ≤ SpanCount tr ≤ 2 ^ 62) trs →
  0 ≤ (rate_run r now trs).1 ∧ rl_used r now + (rate_run r now trs).1 < lim.
Proof.
  intros Hl Hlim. revert r Hl. induction trs as [|tr trs IH]; intros r Hl Hu Hf; simpl; [lia|].
  inversion Hf as [|? ? Hc Hf']; subst.
  assert (Hw : i64 (rl_used r now + SpanCount tr) = rl_used r now + SpanCount tr)
    by (apply i64_small; lia).
  unfold rateLimiting_Evaluate. fold (rl_used r now). rewrite Hw.
  destruct (Z.ltb_spec (rl_used r now + SpanCount tr) (rl_spansPerSecond r)).
  - match goal with |- context [rate_run ?r' now trs] =>
      specialize (IH r' eq_refl); assert (Hu' : rl_used r' now = rl_used r now + SpanCount tr)
        by (unfold rl_used at 1; simpl; by rewrite Z.eqb_refl);
      rewrite Hu' in IH; destruct (rate_run r' now trs) as [n r''] end.
    simpl in *. specialize (IH ltac:(lia) Hf'). lia.
  - match goal with |- context [rate_run ?r' now trs] =>
      specialize (IH r' eq_refl); assert (Hu' : rl_used r' now = rl_used r now)
        by (unfold rl_used at 1; simpl; by rewrite Z.eqb_refl);
      rewrite Hu' in IH; destruct (rate_run r' now trs) as [n r''] end.
    simpl in *. specialize (IH ltac:(lia) Hf'). lia.
Qed.
End rate_lemmas.
