(* ===== verification/Evaluator.v ===== *)
(** * Policy evaluators and their configuration

    The [PolicyEvaluator] interface as one inductive type with the evaluators of
    internal/sampling and the [defaultEvaluator] of evaluator.go, the dispatch
    [Evaluate], and the constructors that build evaluators from the configuration of
    config.go. *)
From S2P Require Import Prelude Pdata Sampling.
From Stdlib Require Import SpecFloat.

Section evaluators.
Context `{PD : Pdata} `{RX : Regexp} `{L : LRU}.

(** An evaluator with its fields; a [Composite] sub-policy is its evaluator with
    [allocatedSPS] and [sampledSPS]. *)
Inductive Evaluator :=
| alwaysSample
| neverSample
| numericAttributeFilter (key : string) (minValue maxValue : Z)
| probabilisticSampler (threshold : Z) (hashSalt : string)
| stringAttributeFilter (key : string) (matcher : Matcher) (invertMatch : bool)
| latency (thresholdMs : Z)
| rateLimitingSampler (r : rateLimiting)
| spanCount (minSpans : Z)
| statusCodeFilter (statusCodes : list StatusCode)
| traceStateFilter (key : string) (valuesMap : gset string)
| And (subpolicies : list Evaluator)
| Composite (subpolicies : list (Evaluator * (Z * Z))) (maxTotalSPS currentSecond : Z)
| defaultEvaluator (name samplingMethod filterOperator : string) (sampler : Evaluator)
    (filters subEvaluators : list Evaluator).

(** [(Decision, error)]. *)
Definition EvalResult : Type := Decision * option string.

(** The loops of the evaluators that own others; [ev] is [Evaluate] at the trace. *)
Section loops.
Context (ev : Evaluator → EvalResult * Evaluator).

(** and.go, [Evaluate]. *)
Definition And_Evaluate : list Evaluator → EvalResult * list Evaluator :=
  fix go subs :=
    match subs with
    | [] => ((Sampled, None), [])
    | sub :: rest =>
        let '((d, e), sub) := ev sub in
        match e with
        | Some _ => ((Unspecified, e), sub :: rest)
        | None =>
            if bool_decide (d = NotSampled) || bool_decide (d = InvertNotSampled)
            then ((NotSampled, None), sub :: rest)
            else let '(r, rest) := go rest in (r, sub :: rest)
        end
    end.

(** composite.go, [Evaluate]. In a new second every counter is reset before the loop;
    [fresh] says so, and the reset is applied as the loop reaches each sub-policy and
    to the ones it does not reach. *)
Definition reset_sps (fresh : bool) (sampledSPS : Z) : Z := if fresh then 0 else sampledSPS.
Definition reset_sub (fresh : bool) (s : Evaluator * (Z * Z)) : Evaluator * (Z * Z) :=
  let '(sub, (allocatedSPS, sampledSPS)) := s in
  (sub, (allocatedSPS, reset_sps fresh sampledSPS)).
Definition Composite_Evaluate (spanCount maxTotalSPS : Z) (fresh : bool) :
    list (Evaluator * (Z * Z)) → EvalResult * list (Evaluator * (Z * Z)) :=
  fix go subs :=
    match subs with
    | [] => ((NotSampled, None), [])
    | (sub, (allocatedSPS, sampledSPS0)) :: rest =>
        let sampledSPS := reset_sps fresh sampledSPS0 in
        let '((d, e), sub) := ev sub in
        match e with
        | Some _ => ((Unspecified, e),
                     (sub, (allocatedSPS, sampledSPS)) :: (reset_sub fresh <$> rest))
        | None =>
            if bool_decide (d = Sampled) || bool_decide (d = InvertSampled) then
              let spansInSecondIfSampled := i64 (sampledSPS + spanCount) in
              if (spansInSecondIfSampled <=? allocatedSPS)
                 && (spansInSecondIfSampled <=? maxTotalSPS)
              then ((Sampled, None), (sub, (allocatedSPS, spansInSecondIfSampled))
                                       :: (reset_sub fresh <$> rest))
              else ((NotSampled, None), (sub, (allocatedSPS, sampledSPS))
                                          :: (reset_sub fresh <$> rest))
            else let '(r, rest) := go rest in (r, (sub, (allocatedSPS, sampledSPS)) :: rest)
        end
    end.

(** evaluator.go, the filter loop: [inl d] is an early return of [d], [inr m] the
    value of [filterMatched] at its end. *)
Definition filters_loop (filterOperator : string) :
    bool → list Evaluator → (Decision + bool) * list Evaluator :=
  fix go filterMatched fs :=
    match fs with
    | [] => (inr filterMatched, [])
    | fe :: rest =>
        let '((filterResult, err), fe) := ev fe in
        match err with
        | Some _ => (inl Error, fe :: rest)
        | None =>
            if bool_decide (filterResult = NotSampled)
               && bool_decide (to_lower filterOperator = "and")
            then (inl NoResult, fe :: rest)
            else let '(r, rest) :=
                   go (bool_decide (filterResult = Sampled) || filterMatched) rest in
                 (r, fe :: rest)
        end
    end.

(** evaluator.go, the sub-policy loop: the first result that is not [NoResult]. *)
Definition subs_loop : list Evaluator → option Decision * list Evaluator :=
  fix go subs :=
    match subs with
    | [] => (None, [])
    | sp :: rest =>
        let '((decision, err), sp) := ev sp in
        match err with
        | None =>
            if bool_decide (decision = NoResult)
            then let '(r, rest) := go rest in (r, sp :: rest)
            else (Some decision, sp :: rest)
        | Some _ => let '(r, rest) := go rest in (r, sp :: rest)
        end
    end.
End loops.

(** [Evaluate] of every evaluator; [now] is the Unix second of the clock. *)
Fixpoint Evaluate (now : Z) (traceID : TraceID) (trace : TraceData) (e : Evaluator)
    {struct e} : EvalResult * Evaluator :=
  let ok d := ((d, None), e) in
  match e with
  | alwaysSample => ok Sampled
  | neverSample => ok NotSampled
  | numericAttributeFilter k lo hi => ok (numericAttributeFilter_Evaluate k lo hi trace)
  | probabilisticSampler t salt => ok (probabilisticSampler_Evaluate t salt traceID)
  | stringAttributeFilter k m inv =>
      let '(d, m) := stringAttributeFilter_Evaluate k inv m trace in
      ((d, None), stringAttributeFilter k m inv)
  | latency t => ok (latency_Evaluate t trace)
  | rateLimitingSampler r =>
      let '(d, r) := rateLimiting_Evaluate r now trace in ((d, None), rateLimitingSampler r)
  | spanCount n => ok (spanCount_Evaluate n trace)
  | statusCodeFilter cs => ok (statusCodeFilter_Evaluate cs trace)
  | traceStateFilter k vs => ok (traceStateFilter_Evaluate k vs trace)
  | And subs =>
      let '(r, subs) := And_Evaluate (Evaluate now traceID trace) subs in (r, And subs)
  | Composite subs maxTotalSPS currentSecond =>
      let '(r, subs) := Composite_Evaluate (Evaluate now traceID trace) (SpanCount trace)
                          maxTotalSPS (negb (currentSecond =? now)) subs in
      (r, Composite subs maxTotalSPS now)
  | defaultEvaluator name meth op sampler filters subs =>
      let '(fr, filters) := filters_loop (Evaluate now traceID trace) op false filters in
      match fr with
      | inl d => ((d, None), defaultEvaluator name meth op sampler filters subs)
      | inr true =>
          let '(sr, subs) := subs_loop (Evaluate now traceID trace) subs in
          match sr with
          | Some d => ((d, None), defaultEvaluator name meth op sampler filters subs)
          | None =>
              let '(r, sampler) := Evaluate now traceID trace sampler in
              (r, defaultEvaluator name meth op sampler filters subs)
          end
      | inr false => ((NoResult, None), defaultEvaluator name meth op sampler filters subs)
      end
  end.

(** ** Configuration (config.go) and construction (evaluator.go) *)

Record NumericAttributeCfg := { n_Key : string; n_MinValue : Z; n_MaxValue : Z }.
Record StringAttributeCfg := {
  s_Key : string;
  s_Values : list string;
  s_EnabledRegexMatching : bool;
  s_CacheMaxSize : Z;
  s_InvertMatch : bool;
}.
Record PolicyFilterCfg := {
  FilterOp : string;
  StringAttributeCfgs : list StringAttributeCfg;
  NumericAttributeCfgs : list NumericAttributeCfg;
}.
(** [BasePolicy] with the fields of the two structs it embeds; the hash salt of the
    configuration is not read by the constructors. *)
Record BasePolicy := {
  b_Name : string;
  b_Type : string;
  b_Priority : Z;
  b_HashSalt : string;
  b_SamplingPercentage : float64;
  b_PolicyFilterCfg : PolicyFilterCfg;
}.
Record PolicyGroupCfg := { g_BasePolicy : BasePolicy; g_SubPolicies : list BasePolicy }.

Definition prepareFilterEvaluators (c : PolicyFilterCfg) : list Evaluator :=
  ((λ s, stringAttributeFilter (s_Key s)
           (NewStringAttributeFilter_matcher (s_Values s) (s_EnabledRegexMatching s)
              (s_CacheMaxSize s)) (s_InvertMatch s)) <$> StringAttributeCfgs c) ++
  ((λ n, numericAttributeFilter (n_Key n) (n_MinValue n) (n_MaxValue n))
     <$> NumericAttributeCfgs c).

(** composite.go: every sub-policy starts with nothing sampled. *)
Definition NewComposite (maxTotalSpansPerSecond : Z) (subPolicyParams : list (Evaluator * Z)) :
    Evaluator :=
  Composite ((λ p, (p.1, (p.2, 0))) <$> subPolicyParams) maxTotalSpansPerSecond 0.

(** probabilistic.go, [NewProbabilisticSampler]. *)
Definition NewProbabilisticSampler (hashSalt : string) (samplingPercentage : float64) :
    option Evaluator :=
  t ← calculateThreshold (float64_div samplingPercentage (float64_of_int 100));
  Some (probabilisticSampler t (if decide (hashSalt = "") then defaultHashSalt else hashSalt)).

(** The sampler of a policy, by its percentage. *)
Definition policy_sampler (p : BasePolicy) : option (string * Evaluator) :=
  if SFeqb (b_SamplingPercentage p) (float64_of_int 0) then Some ("exclude_all", neverSample)
  else if SFeqb (b_SamplingPercentage p) (float64_of_int 100)
  then Some ("include_all", alwaysSample)
  else s ← NewProbabilisticSampler "" (b_SamplingPercentage p); Some ("probabilistic", s).

Definition policy_evaluator (p : BasePolicy) (subEvaluators : list Evaluator) : option Evaluator :=
  '(meth, sampler) ← policy_sampler p;
  Some (defaultEvaluator (b_Name p) meth (FilterOp (b_PolicyFilterCfg p)) sampler
          (prepareFilterEvaluators (b_PolicyFilterCfg p)) subEvaluators).

(** [less] of the [sort.Slice] calls on policies. *)
Definition priority_less (a b : BasePolicy) : bool := b_Priority a <? b_Priority b.

(** The recursive call is on a sub-policy with no sub-policies of its own. *)
Definition NewDefaultEvaluator (p : BasePolicy) (subpolicies : list BasePolicy) :
    option Evaluator :=
  subEvaluators ← mapM (λ subRule, policy_evaluator subRule []) (sort_slice priority_less subpolicies);
  policy_evaluator p subEvaluators.
End evaluators.

(** ** Evaluate *)
Section evaluate_lemmas.
Context `{PD : Pdata} `{RX : Regexp} `{L : LRU}.

(** Induction on evaluators, with the hypothesis on every owned evaluator. *)
Definition owned (e : Evaluator) : list Evaluator :=
  match e with
  | And subs => subs
  | Composite subs _ _ => subs.*1
  | defaultEvaluator _ _ _ sampler filters subs => sampler :: filters ++ subs
  | _ => []
  end.

Lemma Evaluator_owned_ind (P : Evaluator → Prop) :
  (∀ e, Forall P (owned e) → P e) → ∀ e, P e.
Proof.
  intros Hstep. fix IH 1. intros e. apply Hstep. destruct e; simpl; try constructor.
  - induction subpolicies; constructor; auto.
  - induction subpolicies as [|[e z] ? ?]; constructor; auto.
  - apply IH.
  - apply Forall_app. split; [induction filters|induction subEvaluators]; constructor; auto.
Qed.

Section loop_lemmas.
Context (ev : Evaluator → EvalResult * Evaluator).
Definition no_error (e : Evaluator) : Prop := (ev e).1.2 = None.
Definition decision (e : Evaluator) : Decision := (ev e).1.1.
Definition is_d (d d' : Decision) : bool := bool_decide (d' = d).

Ltac run :=
  match goal with H : no_error ?e |- _ =>
    unfold no_error in H; unfold decision; destruct (ev e) as [[? ?] ?]; simpl in H |- *; subst
  end.

Lemma And_Evaluate_spec subs :
  Forall no_error subs →
  (And_Evaluate ev subs).1 =
    (if existsb (λ d, is_d NotSampled d || is_d InvertNotSampled d) (decision <$> subs)
     then NotSampled else Sampled, None).
Proof.
  induction 1 as [|e subs He _ IH]; simpl; [done|]. unfold is_d at 1 2. run.
  destruct (_ || _); simpl; [done|]. by destruct (And_Evaluate ev subs).
Qed.

Lemma Composite_Evaluate_no_error n max fresh subs :
  Forall no_error subs.*1 → (Composite_Evaluate ev n max fresh subs).1.2 = None.
Proof.
  induction subs as [|[e [a sp]] subs IH]; simpl; [done|]. intros [He Hs]%Forall_cons. run.
  destruct (_ || _); simpl; [by destruct (_ && _)|].
  specialize (IH Hs). by destruct (Composite_Evaluate ev n max fresh subs).
Qed.

Lemma filters_loop_spec op m fs :
  Forall no_error fs →
  (filters_loop ev op m fs).1 =
    if bool_decide (to_lower op = "and") && existsb (is_d NotSampled) (decision <$> fs)
    then inl NoResult else inr (m || existsb (is_d Sampled) (decision <$> fs)).
Proof.
  intros Hfs. revert m. induction Hfs as [|e fs He _ IH]; intros m; simpl.
  { by rewrite andb_false_r, orb_false_r. }
  unfold is_d at 1 3. run. rewrite (andb_comm (bool_decide (_ = NotSampled))).
  destruct (bool_decide (to_lower op = "and")) eqn:Eop; simpl in *;
    repeat case_bool_decide; subst; simpl; try done;
    match goal with |- context [filters_loop ev op ?b fs] =>
      specialize (IH b); destruct (filters_loop ev op b fs); simpl in *; subst end;
    by rewrite ?orb_true_r.
Qed.

Lemma subs_loop_spec subs :
  Forall no_error subs →
  (subs_loop ev subs).1 = head (filter (λ d, d ≠ NoResult) (decision <$> subs)).
Proof.
  induction 1 as [|e subs He _ IH]; simpl; [done|]. rewrite filter_cons. run.
  case_bool_decide; case_decide; subst; simpl; try done. by destruct (subs_loop ev subs).
Qed.
End loop_lemmas.

(** No evaluator of the package returns an error, so the error branches of the callers
    are never taken. *)
Lemma Evaluate_no_error now id tr e : no_error (Evaluate now id tr) e.
Proof.
  induction e as [e IH] using Evaluator_owned_ind. unfold no_error.
  destruct e; simpl in *; try done.
  - by destruct (stringAttributeFilter_Evaluate _ _ _ _).
  - by destruct (rateLimiting_Evaluate _ _ _).
  - pose proof (And_Evaluate_spec _ _ IH) as E. destruct (And_Evaluate _ _).
    by simpl in *; subst.
  - pose proof (Composite_Evaluate_no_error _ (SpanCount tr) maxTotalSPS
      (negb (currentSecond =? now)) _ IH) as E.
    by destruct (Composite_Evaluate _ _ _ _).
  - apply Forall_cons in IH as [Hs [Hf Hu]%Forall_app].
    destruct (filters_loop _ _ _ _) as [[d|[]] fs]; [done| |done].
    destruct (subs_loop _ _) as [[d|] us]; [done|].
    unfold no_error in Hs. by destruct (Evaluate now id tr e).
Qed.

Lemma Evaluate_no_errors now id tr es : Forall (no_error (Evaluate now id tr)) es.
Proof. apply Forall_forall. intros e _. apply Evaluate_no_error. Qed.

(** An evaluator reads the spans and the span count of the trace, nothing else. *)
Section trace_ext.
Context (f g : Evaluator → EvalResult * Evaluator).
Lemma And_Evaluate_ext es : Forall (λ e, f e = g e) es → And_Evaluate f es = And_Evaluate g es.
Proof using. induction 1 as [|e es He _ IH]; simpl; [done|]. by rewrite He, IH. Qed.
Lemma Composite_Evaluate_ext n max fr es :
  Forall (λ e, f e = g e) es.*1 → Composite_Evaluate f n max fr es = Composite_Evaluate g n max fr es.
Proof using.
  induction es as [|[e [a z]] es IH]; simpl; [done|]. intros [He Hes]%Forall_cons. simpl in He.
  by rewrite He, IH.
Qed.
Lemma filters_loop_ext op m es :
  Forall (λ e, f e = g e) es → filters_loop f op m es = filters_loop g op m es.
Proof using.
  intros Hes. revert m. induction Hes as [|e es He _ IH]; intros m; simpl; [done|].
  rewrite He. destruct (g e) as [[d [err|]] e']; [done|]. by rewrite IH.
Qed.
Lemma subs_loop_ext es : Forall (λ e, f e = g e) es → subs_loop f es = subs_loop g es.
Proof using. induction 1 as [|e es He _ IH]; simpl; [done|]. by rewrite He, IH. Qed.
End trace_ext.

Lemma Evaluate_ext now id tr tr' e :
  SpanCount tr' = SpanCount tr → ReceivedBatches tr' = ReceivedBatches tr →
  Evaluate now id tr' e = Evaluate now id tr e.
Proof.
  intros Hs Hr. induction e as [e IH] using Evaluator_owned_ind. destruct e; simpl in *;
    unfold numericAttributeFilter_Evaluate, stringAttributeFilter_Evaluate, latency_Evaluate,
      rateLimiting_Evaluate, spanCount_Evaluate, statusCodeFilter_Evaluate,
      traceStateFilter_Evaluate; rewrite ?Hs, ?Hr; try done.
  - by rewrite (And_Evaluate_ext _ _ _ IH).
  - by rewrite (Composite_Evaluate_ext _ _ _ _ _ _ IH).
  - apply Forall_cons in IH as [He [Hf Hu]%Forall_app].
    by rewrite He, (filters_loop_ext _ _ _ _ _ Hf), (subs_loop_ext _ _ _ Hu).
Qed.

(** ** The decision of a policy *)

(** A policy applies when one of its filters samples and, under the AND operator, none
    rejects. *)
Definition filters_apply (op : string) (ds : list Decision) : bool :=
  negb (bool_decide (to_lower op = "and") && existsb (is_d NotSampled) ds)
  && existsb (is_d Sampled) ds.

(** The specification of a policy: nothing when it does not apply, else the first
    sub-policy with an opinion, else its own sampler. *)
Definition policy_decision (op : string) (filters subs : list Decision) (own : Decision) :
    Decision :=
  if filters_apply op filters then default own (head (filter (λ d, d ≠ NoResult) subs))
  else NoResult.

Lemma defaultEvaluator_decision now id tr n meth op s fs us :
  (Evaluate now id tr (defaultEvaluator n meth op s fs us)).1 =
    (policy_decision op (decision (Evaluate now id tr) <$> fs)
       (decision (Evaluate now id tr) <$> us) (decision (Evaluate now id tr) s), None).
Proof.
  simpl. pose proof (filters_loop_spec (Evaluate now id tr) op false fs
    (Evaluate_no_errors now id tr fs)) as Ef.
  pose proof (subs_loop_spec (Evaluate now id tr) us (Evaluate_no_errors now id tr us)) as Eu.
  pose proof (Evaluate_no_error now id tr s) as Es.
  unfold policy_decision, filters_apply. destruct (filters_loop _ _ _ _) as [fr fs'].
  simpl in Ef. subst fr. destruct (_ && existsb (is_d NotSampled) _); simpl; [done|].
  destruct (existsb (is_d Sampled) _); simpl; [|done].
  destruct (subs_loop _ _) as [sr us']. simpl in Eu. subst sr.
  destruct (head _); simpl; [done|]. unfold no_error, decision in *.
  destruct (Evaluate now id tr s) as [[d e] s']. by simpl in *; subst.
Qed.
End evaluate_lemmas.

(** ** Properties of policies *)
Section policies.
Context `{PD : Pdata} `{RX : Regexp} `{L : LRU}.

(** The decision of a sub-policy taken alone; [None] when it cannot be built. *)
Definition sub_decision (now : Z) (id : TraceID) (tr : TraceData) (s : BasePolicy) :
    option Decision :=
  decision (Evaluate now id tr) <$> policy_evaluator s [].

(** Whether the filters of a policy select the trace. *)
Definition policy_applies (now : Z) (id : TraceID) (tr : TraceData) (p : BasePolicy) : bool :=
  filters_apply (FilterOp (b_PolicyFilterCfg p))
    (decision (Evaluate now id tr) <$> prepareFilterEvaluators (b_PolicyFilterCfg p)).

Lemma priority_sorted l :
  StronglySorted (λ a b, b_Priority a ≤ b_Priority b) (sort_slice priority_less l).
Proof.
  apply Sorted_StronglySorted; [intros a b c; lia|].
  eapply Sorted_ind; [constructor| |apply (sort_slice_sorted priority_less)].
  - intros a l' _ IH Hh. constructor; [done|].
    destruct Hh; constructor. unfold priority_less in *. lia.
  - unfold priority_less. intros x y. lia.
Qed.

(** In a list sorted by priority, the first opinion is that of the only element with an
    opinion among those of no later priority. *)
Lemma first_opinion (f : BasePolicy → Decision) (l : list BasePolicy) (s : BasePolicy) :
  StronglySorted (λ a b, b_Priority a ≤ b_Priority b) l → s ∈ l → f s ≠ NoResult →
  (∀ s', s' ∈ l → s' ≠ s → b_Priority s' ≤ b_Priority s → f s' = NoResult) →
  head (filter (λ d, d ≠ NoResult) (f <$> l)) = Some (f s).
Proof.
  intros Hs. induction Hs as [|x l Hl IH Hx]; intros Hin Hf Hothers; [by apply not_elem_of_nil in Hin|].
  rewrite fmap_cons, filter_cons. case_decide as Hd.
  - simpl. f_equal. apply elem_of_cons in Hin as [->|Hin]; [done|].
    rewrite Forall_forall in Hx. specialize (Hx s Hin).
    destruct (decide (f x = f s)) as [|Hne]; [done|]. exfalso. apply Hd.
    apply Hothers; [by left| |done]. by intros ->.
  - apply elem_of_cons in Hin as [->|Hin]; [done|]. apply IH; [done..|].
    intros s' Hs' Hne Hp. apply Hothers; [by right|done..].
Qed.

Lemma mapM_sub_decisions now id tr l es :
  mapM (λ s, policy_evaluator s []) l = Some es →
  decision (Evaluate now id tr) <$> es
  = (λ s, default NoResult (sub_decision now id tr s)) <$> l.
Proof.
  intros Hm. apply mapM_Some in Hm. induction Hm as [|s e l es He _ IH]; [done|].
  cbn -[sub_decision]. f_equal; [|exact IH]. unfold sub_decision. by rewrite He.
Qed.

(** Sub-policies are tried by priority: when the filters of a policy select the
    trace, the sub-policy with an opinion whose priority number is smaller than that of
    every other sub-policy with an opinion gives the final decision, whatever the order
    the sub-policies are configured in. *)
Theorem subpolicy_priority now id tr p subs e s d
    (Hbuild : NewDefaultEvaluator p subs = Some e)
    (Happlies : policy_applies now id tr p = true)
    (Hin : s ∈ subs) (Hs : sub_decision now id tr s = Some d) (Hd : d ≠ NoResult)
    (Hothers : ∀ s' d', s' ∈ subs → s' ≠ s → b_Priority s' ≤ b_Priority s →
                        sub_decision now id tr s' = Some d' → d' = NoResult) :
  (Evaluate now id tr e).1 = (d, None).
Proof.
  unfold NewDefaultEvaluator in Hbuild.
  apply bind_Some in Hbuild as (es & Hes & Hbuild).
  unfold policy_evaluator in Hbuild.
  apply bind_Some in Hbuild as ([meth sampler] & Hsampler & [= <-]).
  rewrite defaultEvaluator_decision. unfold policy_decision.
  unfold policy_applies in Happlies. rewrite Happlies.
  rewrite (mapM_sub_decisions _ _ _ _ _ Hes).
  rewrite (first_opinion _ _ s); simpl.
  - by rewrite Hs.
  - apply priority_sorted.
  - by rewrite sort_slice_perm.
  - by rewrite Hs.
  - intros s' Hs' Hne Hp. rewrite sort_slice_perm in Hs'.
    destruct (sub_decision now id tr s') as [d'|] eqn:E; [|done]. simpl.
    by eapply Hothers.
Qed.

(** An evaluator that is a string filter with [invert_match]. *)
Definition is_inverted (e : Evaluator) : bool :=
  match e with stringAttributeFilter _ _ inv => inv | _ => false end.

Lemma inverted_decision now id tr e :
  is_inverted e = true →
  decision (Evaluate now id tr) e = InvertSampled ∨ decision (Evaluate now id tr) e = InvertNotSampled.
Proof.
  destruct e; try done. simpl. intros ->. unfold decision. simpl.
  unfold stringAttributeFilter_Evaluate.
  assert (∀ td m, (invertHasResourceOrSpanWithCondition td (inverted (saf_resource key))
            (inverted (saf_span key)) m).1 = InvertSampled ∨
          (invertHasResourceOrSpanWithCondition td (inverted (saf_resource key))
            (inverted (saf_span key)) m).1 = InvertNotSampled) as H.
  { induction td as [|rs td IH]; intros m; simpl; [by left|].
    destruct (inverted _ _ m) as [[] m1]; simpl; [|by right].
    destruct (invertHasInstrumentationLibrarySpanWithCondition _ _ m1) as [[] m2]; simpl;
      [apply IH|by right]. }
  specialize (H (ReceivedBatches tr) matcher).
  by destruct (invertHasResourceOrSpanWithCondition _ _ _ _).
Qed.

(** A string filter with [invert_match] never influences a policy: dropping all such
    filters from a policy changes no decision, under either operator. In particular a
    policy with only inverted filters applies to no trace, although the configuration
    documents that such a filter samples every trace without the listed values. *)
Theorem inverted_filters_have_no_effect now id tr n meth op s fs us :
  (Evaluate now id tr (defaultEvaluator n meth op s fs us)).1 =
  (Evaluate now id tr
     (defaultEvaluator n meth op s (filter (λ e, is_inverted e = false) fs) us)).1.
Proof.
  rewrite !defaultEvaluator_decision. unfold policy_decision.
  assert (∀ d, d = Sampled ∨ d = NotSampled →
    existsb (is_d d) (decision (Evaluate now id tr) <$> filter (λ e, is_inverted e = false) fs)
    = existsb (is_d d) (decision (Evaluate now id tr) <$> fs)) as H.
  { intros d Hd. induction fs as [|e fs IH]; [done|]. rewrite filter_cons.
    case_decide as Hi; rewrite !fmap_cons; cbn [existsb]; [by rewrite IH|]. rewrite IH.
    apply not_false_iff_true in Hi. destruct (inverted_decision now id tr e Hi) as [->| ->];
      unfold is_d; destruct Hd as [->| ->]; done. }
  unfold filters_apply. rewrite <- (H Sampled), <- (H NotSampled) by auto. done.
Qed.

(** *** Composite *)

(** Every counter is within its allocation and within the total. *)
Definition sps_ok (maxTotalSPS : Z) (s : Evaluator * (Z * Z)) : Prop :=
  s.2.2 ≤ s.2.1 ∧ s.2.2 ≤ maxTotalSPS.

Lemma reset_sub_ok max fresh s :
  0 ≤ max → 0 ≤ s.2.1 → (fresh = false → sps_ok max s) → sps_ok max (reset_sub fresh s).
Proof. destruct s as [e [a z]], fresh; unfold sps_ok; simpl; naive_solver lia. Qed.

Lemma reset_subs_ok max fresh subs :
  0 ≤ max → Forall (λ s, 0 ≤ s.2.1) subs → (fresh = false → Forall (sps_ok max) subs) →
  Forall (sps_ok max) (reset_sub fresh <$> subs).
Proof.
  intros Hm Ha Hs. apply Forall_fmap, Forall_forall. intros s Hin.
  rewrite Forall_forall in Ha. apply reset_sub_ok; [done|by apply Ha|].
  intros Hf. specialize (Hs Hf). rewrite Forall_forall in Hs. by apply Hs.
Qed.

Lemma Composite_Evaluate_ok ev n max fresh subs :
  0 ≤ max → Forall (λ s, 0 ≤ s.2.1) subs → (fresh = false → Forall (sps_ok max) subs) →
  Forall (sps_ok max) (Composite_Evaluate ev n max fresh subs).2.
Proof.
  intros Hm Ha. revert subs Ha.
  induction subs as [|[e [a z]] subs IH]; intros Ha Hs; simpl; [constructor|].
  apply Forall_cons in Ha as [Ha0 Ha]. simpl in Ha0.
  assert (Hz : sps_ok max (e, (a, reset_sps fresh z))).
  { apply (reset_sub_ok max fresh (e, (a, z))); [done..|].
    intros Hf. by apply Hs, Forall_inv in Hf. }
  assert (Hrest : fresh = false → Forall (sps_ok max) subs)
    by (intros Hf; by apply Hs, Forall_inv_tail in Hf).
  unfold sps_ok in Hz at 1. simpl in Hz. destruct (ev e) as [[d [err|]] e']; simpl.
  { constructor; [done|]. by apply reset_subs_ok. }
  destruct (_ || _).
  - destruct (_ && _) eqn:E; simpl; (constructor; [|by apply reset_subs_ok]); [|done].
    unfold sps_ok; simpl. lia.
  - specialize (IH Ha Hrest). destruct (Composite_Evaluate ev n max fresh subs). simpl.
    by constructor.
Qed.
End policies.

(** *** Sequences of traces *)
Section runs.
Context `{PD : Pdata} `{RX : Regexp} `{L : LRU}.

(** One evaluator on a sequence of traces, each with the second it is evaluated in. *)
Fixpoint Evaluate_all (trs : list (Z * TraceID * TraceData)) (e : Evaluator) :
    list EvalResult * Evaluator :=
  match trs with
  | [] => ([], e)
  | (now, id, tr) :: trs =>
      let '(r, e) := Evaluate now id tr e in
      let '(rs, e) := Evaluate_all trs e in (r :: rs, e)
  end.

Definition composite_ok (e : Evaluator) : Prop :=
  match e with
  | Composite subs max _ => 0 ≤ max ∧ Forall (λ s, 0 ≤ s.2.1) subs ∧ Forall (sps_ok max) subs
  | _ => False
  end.

Lemma Composite_Evaluate_allocs ev n max fresh subs :
  Forall (λ s : Evaluator * (Z * Z), 0 ≤ s.2.1) subs →
  Forall (λ s, 0 ≤ s.2.1) (Composite_Evaluate ev n max fresh subs).2.
Proof.
  assert (∀ l, Forall (λ s : Evaluator * (Z * Z), 0 ≤ s.2.1) l →
               Forall (λ s, 0 ≤ s.2.1) (reset_sub fresh <$> l)) as Hr.
  { intros l Hl. apply Forall_fmap. eapply Forall_impl; [exact Hl|]. by intros [? [? ?]]. }
  induction 1 as [|[e [a z]] subs Ha Hs IH]; simpl in *; [constructor|].
  destruct (ev e) as [[d [err|]] e']; simpl; [by constructor; [|apply Hr]|].
  destruct (_ || _); [destruct (_ && _); simpl; by constructor; [|apply Hr]|].
  destruct (Composite_Evaluate ev n max fresh subs). by constructor.
Qed.

Lemma Composite_step_ok now id tr e :
  composite_ok e → composite_ok (Evaluate now id tr e).2.
Proof.
  destruct e; try done. intros (Hm & Ha & Hs). simpl.
  pose proof (Composite_Evaluate_ok (Evaluate now id tr) (SpanCount tr) maxTotalSPS
    (negb (currentSecond =? now)) subpolicies Hm Ha (λ _, Hs)) as H1.
  pose proof (Composite_Evaluate_allocs (Evaluate now id tr) (SpanCount tr) maxTotalSPS
    (negb (currentSecond =? now)) subpolicies Ha) as H2.
  by destruct (Composite_Evaluate _ _ _ _ _).
Qed.

(** Whatever the traces and the passing of time, each sub-policy of a composite has
    sampled in the current second no more spans than its allocation, and no more than the
    composite's maximum. *)
Theorem composite_counters_bounded params max trs
    (Hmax : 0 ≤ max) (Halloc : Forall (λ p : Evaluator * Z, 0 ≤ p.2) params) :
  match (Evaluate_all trs (NewComposite max params)).2 with
  | Composite subs' max' _ =>
      Forall (λ s : Evaluator * (Z * Z), s.2.2 ≤ s.2.1 ∧ s.2.2 ≤ max') subs'
  | _ => False
  end.
Proof.
  assert (composite_ok (NewComposite max params)) as H.
  { split; [done|]. split; apply Forall_fmap; (eapply Forall_impl; [exact Halloc|]);
      intros [e a]; unfold sps_ok; simpl; lia. }
  assert (composite_ok (Evaluate_all trs (NewComposite max params)).2) as H'.
  { revert H. generalize (NewComposite max params). induction trs as [|[[now id] tr] trs IH];
      intros e He; simpl; [done|]. specialize (IH _ (Composite_step_ok now id tr e He)).
    destruct (Evaluate now id tr e). simpl in IH. by destruct (Evaluate_all trs _). }
  destruct (Evaluate_all trs _).2; try done. by destruct H' as (_ & _ & ?).
Qed.

(** The spans of the sampled traces of a run. *)
Fixpoint sampled_spans (trs : list (Z * TraceID * TraceData)) (rs : list EvalResult) : Z :=
  match trs, rs with
  | (_, _, tr) :: trs, (d, _) :: rs =>
      (if decide (d = Sampled) then SpanCount tr else 0) + sampled_spans trs rs
  | _, _ => 0
  end.

(** A rate limiter started at the beginning of a second samples strictly fewer spans
    than its limit in that second, whatever the traces offered. *)
Theorem rate_limit_bound lim now r trs
    (Hlim : 0 < lim ≤ 2 ^ 62) (Hr : rl_spansPerSecond r = lim) (Hcur : rl_currentSecond r ≠ now)
    (Htrs : Forall (λ t, t.1.1 = now ∧ 0 ≤ SpanCount t.2 ≤ 2 ^ 62) trs) :
  0 ≤ sampled_spans trs (Evaluate_all trs (rateLimitingSampler r)).1 < lim.
Proof.
  assert (rl_used r now = 0) as Hu.
  { unfold rl_used. by rewrite (proj2 (Z.eqb_neq _ _) Hcur). }
  assert (sampled_spans trs (Evaluate_all trs (rateLimitingSampler r)).1
          = (rate_run r now trs.*2).1) as ->.
  { clear Hcur Hr Hu Hlim. revert r. induction Htrs as [|[[now' id] tr] trs [Hn _] Htrs IH];
      intros r; [done|]. simpl in Hn. subst now'. rewrite fmap_cons. cbn.
    destruct (rateLimiting_Evaluate r now tr) as [d r'] eqn:E. specialize (IH r').
    destruct (Evaluate_all trs _), (rate_run r' now trs.*2). cbn in *. by rewrite IH. }
  pose proof (rate_run_bound trs.*2 r now lim Hr ltac:(lia)) as H. rewrite Hu in H.
  apply H; [lia|]. apply Forall_fmap. eapply Forall_impl; [exact Htrs|]. by intros x [_ ?].
Qed.

(** The cached, short-circuiting string filter computes the uncached reference: from
    the moment it is built, on every trace of any sequence, its decision says whether a
    resource attribute, or a non-empty span attribute, has an accepted value. *)
Theorem string_filter_correct `{!LRULaws L} key values re n inv trs :
  (Evaluate_all trs (stringAttributeFilter key (NewStringAttributeFilter_matcher values re n) inv)).1
  = (λ t : Z * TraceID * TraceData,
       let m := trace_matches key (accepts values re) (ReceivedBatches t.2) in
       (if inv then if m then InvertNotSampled else InvertSampled
        else if m then Sampled else NotSampled, None)) <$> trs.
Proof.
  pose proof (NewStringAttributeFilter_matcher_ok values re n) as Hm. revert Hm.
  generalize (NewStringAttributeFilter_matcher values re n).
  induction trs as [|[[now id] tr] trs IH]; intros m Hm; [done|].
  rewrite fmap_cons. cbn [Evaluate_all Evaluate].
  destruct (stringAttributeFilter_Evaluate_spec key (accepts values re) inv m tr Hm) as [E Hm'].
  destruct (stringAttributeFilter_Evaluate key inv m tr) as [d m']. cbn [fst snd] in *.
  specialize (IH m' Hm'). destruct (Evaluate_all trs _). cbn [fst] in *. by subst.
Qed.
End runs.

(** *** Witnesses *)
Section witnesses.
Import TestPdata.

Definition w_span (key : string) (v : tvalue) : Span :=
  {| span_TraceID := "t"; span_SpanID := "s"; span_Name := "op"; span_Kind := SpanKindServer; span_StartTimestamp := 0; span_EndTimestamp := 0;
     span_Attributes := {[ key := v ]}; span_Status := StatusCodeOk; span_TraceState := "" |}.
Definition w_trace (n : Z) (spans : list Span) : TraceData :=
  {| Decisions := []; ArrivalTime := 0; DecisionTime := 0; SpanCount := n;
     ReceivedBatches := [{| rs_Resource := ∅;
       rs_ScopeSpans := [{| ss_Scope := ""; ss_Spans := spans |}] |}];
     FinalDecision := Pending |}.
Definition w_filter (inv : bool) (key : string) : PolicyFilterCfg :=
  {| FilterOp := "AND"; NumericAttributeCfgs := [];
     StringAttributeCfgs := [{| s_Key := key; s_Values := ["v"]; s_EnabledRegexMatching := false;
                                s_CacheMaxSize := 0; s_InvertMatch := inv |}] |}.
Definition w_policy (name key : string) (prio percent : Z) : BasePolicy :=
  {| b_Name := name; b_Type := "policy_group"; b_Priority := prio; b_HashSalt := "";
     b_SamplingPercentage := float64_of_int percent; b_PolicyFilterCfg := w_filter false key |}.

Definition w_root : BasePolicy := w_policy "root" "k" 1 100.
Definition w_keep : BasePolicy := w_policy "keep" "k" 1 100.
Definition w_drop : BasePolicy := w_policy "drop" "k" 2 0.

Lemma subpolicy_priority_witness :
  match NewDefaultEvaluator w_root [w_drop; w_keep] with
  | Some e => (Evaluate 0 "t" (w_trace 1 [w_span "k" (VStr "v")]) e).1 = (Sampled, None)
  | None => False
  end.
Proof.
  destruct (NewDefaultEvaluator w_root [w_drop; w_keep]) as [e|] eqn:E.
  2: { assert (bool_decide (is_Some (NewDefaultEvaluator w_root [w_drop; w_keep])) = true) as H
         by (vm_compute; reflexivity). rewrite E in H. discriminate H. }
  apply (subpolicy_priority 0 "t" (w_trace 1 [w_span "k" (VStr "v")]) w_root
           [w_drop; w_keep] e w_keep Sampled).
  - exact E.
  - vm_compute; reflexivity.
  - right; left.
  - vm_compute; reflexivity.
  - discriminate.
  - intros s' d' Hin Hne Hp. apply elem_of_cons in Hin as [->|Hin].
    + exfalso. vm_compute in Hp. by apply Hp.
    + apply elem_of_cons in Hin as [->|Hin]; [done|by apply not_elem_of_nil in Hin].
Defined.

(** Two sub-policies of 10 spans per second under a maximum of 10. *)
Definition w_composite : Evaluator :=
  NewComposite 10 [(numericAttributeFilter "a" 0 9, 10); (numericAttributeFilter "b" 0 9, 10)].

Lemma composite_counters_bounded_witness :
  match (Evaluate_all [(1, "t", w_trace 7 [w_span "a" (VInt 1)]);
                       (1, "u", w_trace 7 [w_span "a" (VInt 1)])] w_composite).2 with
  | Composite subs' max' _ =>
      Forall (λ s : Evaluator * (Z * Z), s.2.2 ≤ s.2.1 ∧ s.2.2 ≤ max') subs'
  | _ => False
  end.
Proof.
  apply composite_counters_bounded; [lia|]. repeat constructor; simpl; lia.
Defined.

(** The maximum of a composite is not a maximum of the total: the counters are
    compared with it one at a time, so two sub-policies sample twice the maximum in one
    second. *)
Theorem composite_total_exceeds_max :
  let trs := [(1, "t", w_trace 10 [w_span "a" (VInt 1)]);
              (1, "u", w_trace 10 [w_span "b" (VInt 1)])] in
  sampled_spans trs (Evaluate_all trs w_composite).1 = 20.
Proof. vm_compute. reflexivity. Qed.

Lemma rate_limit_bound_witness :
  0 ≤ sampled_spans [(1, "t", w_trace 6 []); (1, "u", w_trace 6 []); (1, "v", w_trace 3 [])]
        (Evaluate_all [(1, "t", w_trace 6 []); (1, "u", w_trace 6 []); (1, "v", w_trace 3 [])]
           (rateLimitingSampler (NewRateLimiting 10))).1 < 10.
Proof.
  apply (rate_limit_bound 10 1); [lia|done|done|]. repeat constructor; simpl; lia.
Defined.
End witnesses.
