(* ===== verification/Batcher.v ===== *)
(** * The batcher of trace ids

    src/processor/signoztailsampler/internal/idbatcher/id_batcher.go: the pipeline of
    batches between [ConsumeTraces] and the decision tick. The goroutine that fills the
    current batch is the step [drain]; every interleaving of it with the operations is a
    list of steps. *)
From S2P Require Import Prelude.

Section batcher.
Context {ID : Type}.

Definition Batch : Type := list ID.

(** [pendingIds] and [batches] are the contents of the channels, [stopped] says that
    [Stop] has closed them. *)
Record batcher := {
  pendingIds : list ID;
  pendingIds_cap : Z;
  batches : list Batch;
  batches_cap : Z;
  currentBatch : Batch;
  stopped : bool;
}.

Inductive new_error := ErrInvalidNumBatches | ErrInvalidBatchChannelSize.

Definition New (numBatches newBatchesInitialCapacity batchChannelSize : Z) :
    result new_error batcher :=
  if numBatches <? 1 then Err ErrInvalidNumBatches
  else if batchChannelSize <? 1 then Err ErrInvalidBatchChannelSize
  else Ok {| pendingIds := []; pendingIds_cap := batchChannelSize;
             batches := replicate (Z.to_nat numBatches) []; batches_cap := numBatches;
             currentBatch := []; stopped := false |}.

(** One iteration of the goroutine: [None] when it waits for an id. *)
Definition drain (b : batcher) : option batcher :=
  match pendingIds b with
  | [] => None
  | id :: rest => Some {| pendingIds := rest; pendingIds_cap := pendingIds_cap b;
                          batches := batches b; batches_cap := batches_cap b;
                          currentBatch := currentBatch b ++ [id]; stopped := stopped b |}
  end.

(** A send on the closed channel panics. *)
Definition AddToCurrentBatch (b : batcher) (id : ID) : outcome batcher :=
  if stopped b then Panics
  else if len (pendingIds b) <? pendingIds_cap b then
    Done {| pendingIds := pendingIds b ++ [id]; pendingIds_cap := pendingIds_cap b;
            batches := batches b; batches_cap := batches_cap b;
            currentBatch := currentBatch b; stopped := stopped b |}
  else Blocks.

(** A receive on the closed, empty channel answers [ok = false]. *)
Definition CloseCurrentAndTakeFirstBatch (b : batcher) : outcome (Batch * bool * batcher) :=
  match batches b with
  | readBatch :: rest =>
      if stopped b then
        Done (readBatch, true,
              {| pendingIds := pendingIds b; pendingIds_cap := pendingIds_cap b;
                 batches := rest; batches_cap := batches_cap b;
                 currentBatch := currentBatch b; stopped := stopped b |})
      else if len rest <? batches_cap b then
        Done (readBatch, true,
              {| pendingIds := pendingIds b; pendingIds_cap := pendingIds_cap b;
                 batches := rest ++ [currentBatch b]; batches_cap := batches_cap b;
                 currentBatch := []; stopped := stopped b |})
      else Blocks
  | [] =>
      if stopped b then
        Done (currentBatch b, false,
              {| pendingIds := pendingIds b; pendingIds_cap := pendingIds_cap b;
                 batches := []; batches_cap := batches_cap b;
                 currentBatch := []; stopped := stopped b |})
      else Blocks
  end.

(** [Stop] waits for the goroutine, which drains the closed channel; closing a closed
    channel panics. *)
Definition Stop (b : batcher) : outcome batcher :=
  if stopped b then Panics
  else Done {| pendingIds := []; pendingIds_cap := pendingIds_cap b;
               batches := batches b; batches_cap := batches_cap b;
               currentBatch := currentBatch b ++ pendingIds b; stopped := true |}.

(** The ids held, in the order they will be returned. *)
Definition held (b : batcher) : list ID := concat (batches b) ++ currentBatch b ++ pendingIds b.

(** The pipe is full between operations while the batcher runs. *)
Definition running (b : batcher) : Prop :=
  stopped b = false ∧ 1 ≤ batches_cap b ∧ 1 ≤ pendingIds_cap b ∧ len (batches b) = batches_cap b
  ∧ len (pendingIds b) ≤ pendingIds_cap b.

Lemma New_running n c k b : New n c k = Ok b → running b ∧ held b = [] ∧ batches_cap b = n.
Proof.
  unfold New. destruct (Z.ltb_spec n 1); [done|]. destruct (Z.ltb_spec k 1); [done|].
  intros [= <-]. split; [|split; [|done]].
  - repeat split; simpl; [lia..| |unfold len; simpl; lia]. unfold len. rewrite length_replicate.
    lia.
  - unfold held. simpl. rewrite app_nil_r. by induction (Z.to_nat n).
Qed.

Lemma drain_held b b' : drain b = Some b' → held b' = held b.
Proof.
  unfold drain, held. destruct (pendingIds b) as [|id rest] eqn:E; [done|].
  intros [= <-]. simpl. by rewrite <- !(assoc_L (++)).
Qed.
Lemma drain_running b b' : drain b = Some b' → running b → running b'.
Proof.
  unfold drain, running. destruct (pendingIds b) as [|id rest]; [done|].
  intros [= <-] (? & ? & ? & ? & Hl). repeat split; try done. unfold len in *. simpl in *. lia.
Qed.

Lemma Add_held b id b' : AddToCurrentBatch b id = Done b' → held b' = held b ++ [id].
Proof.
  unfold AddToCurrentBatch, held. destruct (stopped b); [done|]. destruct (_ <? _); [|done].
  intros [= <-]. simpl. by rewrite !(assoc_L (++)).
Qed.
Lemma Add_running b id b' : AddToCurrentBatch b id = Done b' → running b → running b'.
Proof.
  unfold AddToCurrentBatch. destruct (stopped b) eqn:E; [done|].
  destruct (Z.ltb_spec (len (pendingIds b)) (pendingIds_cap b)); [|done].
  intros [= <-] (_ & ? & ? & ? & ?). repeat split; try done. simpl. rewrite len_app.
  unfold len in *. simpl. lia.
Qed.

(** While the batcher runs, closing a batch never blocks. *)
Lemma Close_running b :
  running b → ∃ batch b', CloseCurrentAndTakeFirstBatch b = Done (batch, true, b')
    ∧ running b' ∧ batches b = batch :: take (pred (length (batches b))) (batches b')
    ∧ batches b' = drop 1 (batches b) ++ [currentBatch b]
    ∧ currentBatch b' = [] ∧ pendingIds b' = pendingIds b.
Proof.
  intros (Hs & Hc & Hp & Hl & Hpl). unfold CloseCurrentAndTakeFirstBatch. rewrite Hs.
  destruct (batches b) as [|batch rest] eqn:Eb; [unfold len in Hl; simpl in Hl; lia|].
  assert (len (batch :: rest) = len rest + 1) as Hlen by (unfold len; simpl; lia).
  destruct (Z.ltb_spec (len rest) (batches_cap b)); [|lia].
  eexists batch, _. split; [done|]. split; [|split; [|done]].
  - repeat split; simpl; [done..| |done]. rewrite len_app. unfold len at 2. simpl. lia.
  - simpl. f_equal. by rewrite take_app_length.
Qed.

Lemma Close_held b batch ok b' :
  CloseCurrentAndTakeFirstBatch b = Done (batch, ok, b') →
  (ok = false → pendingIds b = []) → held b = batch ++ held b'.
Proof.
  unfold CloseCurrentAndTakeFirstBatch, held. intros H Hok.
  destruct (batches b) as [|b0 rest] eqn:E, (stopped b) eqn:Es; simplify_eq/=.
  - done.
  - by rewrite <- !(assoc_L (++)).
  - destruct (_ <? _); simplify_eq/=. rewrite concat_app. simpl.
    by rewrite app_nil_r, <- !(assoc_L (++)).
Qed.

(** ** Sequences of steps *)

(** The steps of the senders, the goroutine and the ticker. *)
Inductive op := OpAdd (id : ID) | OpDrain | OpClose.

(** A [drain] with no pending id is the goroutine still waiting. *)
Fixpoint run (ops : list op) (b : batcher) : outcome (list Batch * batcher) :=
  match ops with
  | [] => Done ([], b)
  | OpAdd id :: ops => b ← AddToCurrentBatch b id; run ops b
  | OpDrain :: ops => run ops (default b (drain b))
  | OpClose :: ops =>
      '(batch, _, b) ← CloseCurrentAndTakeFirstBatch b;
      '(out, b) ← run ops b;
      Done (batch :: out, b)
  end.

Definition added (ops : list op) : list ID :=
  ops ≫= λ o, match o with OpAdd id => [id] | _ => [] end.

(** The batches as they are closed, without the pipe. *)
Fixpoint closed_batches (pend cur : list ID) (ops : list op) : list Batch :=
  match ops with
  | [] => []
  | OpAdd id :: ops => closed_batches (pend ++ [id]) cur ops
  | OpDrain :: ops =>
      match pend with
      | [] => closed_batches pend cur ops
      | id :: pend => closed_batches pend (cur ++ [id]) ops
      end
  | OpClose :: ops => cur :: closed_batches pend [] ops
  end.

Lemma run_held ops b outs b' :
  running b → run ops b = Done (outs, b') → concat outs ++ held b' = held b ++ added ops.
Proof.
  revert b outs. induction ops as [|[id| |] ops IH]; intros b outs Hb H; cbn in H.
  - simplify_eq. by rewrite app_nil_r.
  - apply outcome_bind_Done in H as (b1 & Ha & H).
    rewrite (IH b1) by (done || by eapply Add_running). rewrite (Add_held _ _ _ Ha).
    by rewrite <- (assoc_L (++)).
  - destruct (drain b) as [b1|] eqn:E; cbn in H; [|by apply IH].
    rewrite (IH b1) by (done || by eapply drain_running). by rewrite (drain_held _ _ E).
  - destruct (Close_running b Hb) as (batch & b1 & Hc & Hb1 & _). rewrite Hc in H. cbn in H.
    apply outcome_bind_Done in H as ([out b2] & H & [= <- <-]).
    cbn [concat]. rewrite <- (assoc_L (++)), (IH _ _ Hb1 H).
    rewrite (Close_held _ _ _ _ Hc) by done. by rewrite <- (assoc_L (++)).
Qed.

Lemma run_batches ops b outs b' :
  running b → run ops b = Done (outs, b') →
  outs = take (length outs) (batches b ++ closed_batches (pendingIds b) (currentBatch b) ops)
  ∧ length outs = length (closed_batches (pendingIds b) (currentBatch b) ops).
Proof.
  revert b outs. induction ops as [|[id| |] ops IH]; intros b outs Hb H; cbn in H.
  - by simplify_eq.
  - apply outcome_bind_Done in H as (b1 & Ha & H). cbn [closed_batches].
    specialize (IH b1 outs (Add_running _ _ _ Ha Hb) H).
    unfold AddToCurrentBatch in Ha. destruct (stopped b); [done|].
    destruct (_ <? _); [|done]. by simplify_eq/=.
  - cbn [closed_batches]. destruct (drain b) as [b1|] eqn:E.
    + specialize (IH b1 outs (drain_running _ _ E Hb) H). unfold drain in E.
      destruct (pendingIds b); by simplify_eq/=.
    + specialize (IH b outs Hb H). unfold drain in E. by destruct (pendingIds b).
  - destruct (Close_running b Hb) as (batch & b1 & Hc & Hb1 & E1 & E2 & E3 & E4).
    rewrite Hc in H. cbn in H. apply outcome_bind_Done in H as ([out b2] & H & [= <- <-]).
    specialize (IH _ _ Hb1 H). rewrite E2, E3, E4 in IH. cbn [closed_batches length].
    destruct (batches b) as [|b0 rest] eqn:Eb; [done|]. simpl in E1, IH |- *.
    rewrite drop_0, <- (assoc_L (++)) in IH. destruct IH as [IH1 IH2].
    rewrite <- IH2. split; [|done]. injection E1 as -> _. by f_equal.
Qed.
End batcher.
Arguments batcher : clear implicits.
Arguments op : clear implicits.

Section properties.
Context {ID : Type}.
Implicit Types (b : batcher ID).

(** No id is lost, duplicated or reordered: after any interleaving of additions,
    goroutine steps and closes of a new batcher, the batches returned followed by the ids
    still held are the ids added, in the order they were added. *)
Theorem batcher_conserves_ids n c k b ops outs b'
    (Hnew : New n c k = Ok b) (Hrun : run ops b = Done (outs, b')) :
  concat outs ++ held b' = added ops.
Proof.
  destruct (New_running _ _ _ _ Hnew) as (Hb & Hh & _).
  by rewrite (run_held ops b outs b' Hb Hrun), Hh.
Qed.

(** The pipe is a delay of exactly [numBatches] closes: the first [numBatches] closes
    return empty batches, and the batch closed by the i-th close is returned, whole, by
    close i + [numBatches]. *)
Theorem batcher_delays n c k b ops outs b'
    (Hnew : New n c k = Ok b) (Hrun : run ops b = Done (outs, b')) :
  outs = take (length (closed_batches [] [] ops))
           (replicate (Z.to_nat n) [] ++ closed_batches [] [] ops).
Proof.
  destruct (New_running _ _ _ _ Hnew) as (Hb & _ & _).
  destruct (run_batches ops b outs b' Hb Hrun) as [H1 H2].
  unfold New in Hnew. destruct (n <? 1); [done|]. destruct (k <? 1); [done|]. simplify_eq/=.
  by rewrite <- H2.
Qed.

(** Closes of a stopped batcher. *)
Fixpoint take_all (n : nat) b : outcome (list (Batch * bool) * batcher ID) :=
  match n with
  | O => Done ([], b)
  | S n => '(batch, ok, b) ← CloseCurrentAndTakeFirstBatch b;
           '(out, b) ← take_all n b; Done ((batch, ok) :: out, b)
  end.

Lemma take_all_stopped b m :
  stopped b = true → batches b = [] → currentBatch b = [] →
  ∃ b', take_all m b = Done (replicate m ([], false), b').
Proof.
  revert b. induction m as [|m IH]; intros b Hs Hb Hc; cbn; [by eexists|].
  unfold CloseCurrentAndTakeFirstBatch. rewrite Hb, Hs. cbn.
  destruct (IH {| pendingIds := pendingIds b; pendingIds_cap := pendingIds_cap b; batches := [];
    batches_cap := batches_cap b; currentBatch := []; stopped := true |}) as [b' E]; [done..|].
  eexists. rewrite E. cbn. by rewrite Hc.
Qed.

(** After [Stop] every id is still delivered: the closes that follow return the
    batches of the pipe, then all the remaining ids with [false], then nothing; an
    addition after [Stop] panics. *)
Theorem batcher_stop_flushes b m (Hrun : running b) :
  ∃ b1 b2, Stop b = Done b1
    ∧ take_all (length (batches b) + S m) b1
      = Done (((λ batch, (batch, true)) <$> batches b)
                ++ (currentBatch b ++ pendingIds b, false) :: replicate m ([], false), b2)
    ∧ ∀ id, AddToCurrentBatch b1 id = Panics.
Proof.
  destruct Hrun as (Hs & _). unfold Stop. rewrite Hs. eexists.
  enough (∀ l c, ∃ b2, take_all (length l + S m)
    {| pendingIds := []; pendingIds_cap := pendingIds_cap b; batches := l;
       batches_cap := batches_cap b; currentBatch := c; stopped := true |}
    = Done (((λ batch, (batch, true)) <$> l) ++ (c, false) :: replicate m ([], false), b2)) as H.
  { destruct (H (batches b) (currentBatch b ++ pendingIds b)) as [b2 E]. by exists b2. }
  intros l c. induction l as [|x l [b2 IH]]; cbn.
  - destruct (take_all_stopped {| pendingIds := []; pendingIds_cap := pendingIds_cap b;
      batches := []; batches_cap := batches_cap b; currentBatch := []; stopped := true |} m)
      as [b2 E]; [done..|]. exists b2. by rewrite E.
  - exists b2. by rewrite IH.
Qed.
End properties.

(** ** Witnesses *)
Definition w_ops : list (op nat) :=
  [OpAdd 1%nat; OpAdd 2%nat; OpDrain; OpClose; OpDrain; OpClose; OpClose; OpAdd 3%nat].

Definition w_batcher : batcher nat :=
  {| pendingIds := [7%nat]; pendingIds_cap := 2; batches := [[1%nat]; [2%nat; 3%nat]];
     batches_cap := 2; currentBatch := [5%nat]; stopped := false |}.

Definition w_new : batcher nat :=
  {| pendingIds := []; pendingIds_cap := 4; batches := [[]; []]; batches_cap := 2;
     currentBatch := []; stopped := false |}.
Definition w_end : batcher nat :=
  {| pendingIds := [3%nat]; pendingIds_cap := 4; batches := [[2%nat]; []]; batches_cap := 2;
     currentBatch := []; stopped := false |}.

Lemma batcher_conserves_ids_witness : concat [[]; []; [1%nat]] ++ held w_end = added w_ops.
Proof.
  refine (batcher_conserves_ids 2 10 4 w_new w_ops [[]; []; [1%nat]] w_end _ _);
    vm_compute; reflexivity.
Defined.

Lemma batcher_delays_witness :
  [[]; []; [1%nat]] = take (length (closed_batches [] [] w_ops))
        (replicate (Z.to_nat 2) [] ++ closed_batches [] [] w_ops).
Proof.
  refine (batcher_delays 2 10 4 w_new w_ops [[]; []; [1%nat]] w_end _ _);
    vm_compute; reflexivity.
Defined.

Lemma batcher_stop_flushes_witness :
  running w_batcher ∧ ∃ b1 b2, Stop w_batcher = Done b1
    ∧ take_all (2 + 1) b1
      = Done ([([1%nat], true); ([2%nat; 3%nat], true); ([5%nat; 7%nat], false)], b2)
    ∧ ∀ id, AddToCurrentBatch b1 id = Panics.
Proof.
  assert (running w_batcher) as H by (repeat split; unfold len; simpl; lia).
  split; [exact H|]. exact (batcher_stop_flushes w_batcher 0 H).
Defined.
