(* ===== verification/TailSampler.v ===== *)
(** * The tail sampling processor

    src/processor/signoztailsampler: the configuration check of config.go and the
    processor of processor.go. The processor's state is the record [TSP]; the calls of the
    next consumer are its log [consumed]. One iteration of the loop of [processTraces],
    one step of the batcher's goroutine and one tick are the atomic steps of [tsp_step]:
    the theorems hold for all their interleavings. *)
From S2P Require Import Prelude Pdata Sampling Evaluator Batcher.
From Stdlib Require Import SpecFloat.

(** The order in which [for id, spans := range idToSpans] visits a map. *)
Class MapRange := {
  range {V} : gmap string V → list (string * V);
  range_perm {V} (m : gmap string V) : range m ≡ₚ map_to_list m;
}.

(** [tag.New] of opencensus: whether a policy name is a legal tag value. *)
Class Tags := { tag_New : string → bool }.

Section tail_sampler.
Context `{PD : Pdata} `{RX : Regexp} `{L : LRU}.

(** ** Configuration *)

(** Durations and instants are in nanoseconds. *)
Record Config := {
  DecisionWait : Z;
  NumTraces : Z;
  ExpectedNewTracesPerSec : Z;
  PolicyCfgs : list PolicyGroupCfg;
  Version : Z;
}.

(** [Validate]: the errors collected, none when the configuration is accepted. *)
Definition Validate (c : Config) : list string :=
  PolicyCfgs c ≫= λ p,
    if b_Priority (g_BasePolicy p) =? 0
    then [b_Name (g_BasePolicy p) +:+ ": priority must be greater than 1"] else [].

(** ** State *)

Record policy := { p_name : string; p_evaluator : Evaluator }.

(** The context of a call: [None] for the processor's own, the policy tag otherwise. *)
Definition context : Type := option string.

Record TSP := {
  maxNumTraces : Z;
  policies : list policy;
  idToTrace : gmap TraceID TraceData;
  decisionBatcher : batcher TraceID;
  deleteChan : list TraceID;
  numTracesOnMap : Z;
  consumed : list (context * Traces);
}.

Record policyMetrics := {
  idNotFoundOnMapCount : Z;
  evaluateErrorCount : Z;
  decisionSampled : Z;
  decisionNotSampled : Z;
}.

(** Assignments to a field. *)
Definition set_policies ps t := {| maxNumTraces := maxNumTraces t; policies := ps;
  idToTrace := idToTrace t; decisionBatcher := decisionBatcher t; deleteChan := deleteChan t;
  numTracesOnMap := numTracesOnMap t; consumed := consumed t |}.
Definition set_idToTrace m t := {| maxNumTraces := maxNumTraces t; policies := policies t;
  idToTrace := m; decisionBatcher := decisionBatcher t; deleteChan := deleteChan t;
  numTracesOnMap := numTracesOnMap t; consumed := consumed t |}.
Definition set_decisionBatcher b t := {| maxNumTraces := maxNumTraces t; policies := policies t;
  idToTrace := idToTrace t; decisionBatcher := b; deleteChan := deleteChan t;
  numTracesOnMap := numTracesOnMap t; consumed := consumed t |}.
Definition set_deleteChan l t := {| maxNumTraces := maxNumTraces t; policies := policies t;
  idToTrace := idToTrace t; decisionBatcher := decisionBatcher t; deleteChan := l;
  numTracesOnMap := numTracesOnMap t; consumed := consumed t |}.
Definition set_numTracesOnMap n t := {| maxNumTraces := maxNumTraces t; policies := policies t;
  idToTrace := idToTrace t; decisionBatcher := decisionBatcher t; deleteChan := deleteChan t;
  numTracesOnMap := n; consumed := consumed t |}.
(** [nextConsumer.ConsumeTraces]; its error is ignored or logged. *)
Definition forward ctx td t := {| maxNumTraces := maxNumTraces t; policies := policies t;
  idToTrace := idToTrace t; decisionBatcher := decisionBatcher t; deleteChan := deleteChan t;
  numTracesOnMap := numTracesOnMap t; consumed := consumed t ++ [(ctx, td)] |}.

Definition set_Decisions ds tr := {| Decisions := ds; ArrivalTime := ArrivalTime tr;
  DecisionTime := DecisionTime tr; SpanCount := SpanCount tr;
  ReceivedBatches := ReceivedBatches tr; FinalDecision := FinalDecision tr |}.
Definition set_DecisionTime now tr := {| Decisions := Decisions tr; ArrivalTime := ArrivalTime tr;
  DecisionTime := now; SpanCount := SpanCount tr;
  ReceivedBatches := ReceivedBatches tr; FinalDecision := FinalDecision tr |}.
Definition add_SpanCount n tr := {| Decisions := Decisions tr; ArrivalTime := ArrivalTime tr;
  DecisionTime := DecisionTime tr; SpanCount := i64 (SpanCount tr + n);
  ReceivedBatches := ReceivedBatches tr; FinalDecision := FinalDecision tr |}.
Definition set_ReceivedBatches td tr := {| Decisions := Decisions tr; ArrivalTime := ArrivalTime tr;
  DecisionTime := DecisionTime tr; SpanCount := SpanCount tr;
  ReceivedBatches := td; FinalDecision := FinalDecision tr |}.
Definition set_FinalDecision d tr := {| Decisions := Decisions tr; ArrivalTime := ArrivalTime tr;
  DecisionTime := DecisionTime tr; SpanCount := SpanCount tr;
  ReceivedBatches := ReceivedBatches tr; FinalDecision := d |}.

(** ** Construction *)

(** [Duration.Seconds]: the whole seconds plus the nanoseconds over 1e9, in float64. *)
Definition duration_Seconds (d : Z) : float64 :=
  SFadd 53 1024 (float64_of_int (Z.quot d 1000000000))
    (float64_div (float64_of_int (Z.rem d 1000000000)) (float64_of_int 1000000000)).

(** [uint64(f)] truncates; the language leaves the other cases to the implementation. *)
Definition uint64_of_float64 (f : float64) : option Z :=
  match f with
  | S754_zero _ => Some 0
  | S754_finite false m e =>
      let z := if 0 <=? e then Zpos m * 2 ^ e else Zpos m / 2 ^ (- e) in
      if z <? two64 then Some z else None
  | _ => None
  end.

Inductive processor_error :=
| ConfigInvalid (errs : list string)
| BatcherError (e : new_error)
| TagError.

Definition group_less (a b : PolicyGroupCfg) : bool :=
  b_Priority (g_BasePolicy a) <? b_Priority (g_BasePolicy b).

(** The loop over the policy groups; building an evaluator may panic. *)
Fixpoint load_policies `{TG : !Tags} (policyGroups : list PolicyGroupCfg) :
    outcome (result processor_error (list policy)) :=
  match policyGroups with
  | [] => Done (Ok [])
  | policyCfg :: rest =>
      if tag_New (b_Name (g_BasePolicy policyCfg)) then
        match NewDefaultEvaluator (g_BasePolicy policyCfg) (g_SubPolicies policyCfg) with
        | None => Panics
        | Some eval =>
            r ← load_policies rest;
            Done (ps ← r;
                  Ok ({| p_name := b_Name (g_BasePolicy policyCfg); p_evaluator := eval |} :: ps))
        end
      else Done (Err TagError)
  end.

(** [policyGroups] is made empty and the configured groups are copied into it. The
    conversion of a negative [DecisionWait] is left to the implementation: [Panics]. *)
Definition newTracesProcessor `{TG : !Tags} (numCPU : Z) (cfg : Config) :
    outcome (result processor_error TSP) :=
  match Validate cfg with
  | [] =>
      match uint64_of_float64 (duration_Seconds (DecisionWait cfg)) with
      | None => Panics
      | Some numDecisionBatches =>
          match New numDecisionBatches (ExpectedNewTracesPerSec cfg) (2 * numCPU) with
          | Err e => Done (Err (BatcherError e))
          | Ok inBatcher =>
              let policyGroups := copy_slice [] (PolicyCfgs cfg) in
              r ← load_policies (sort_slice group_less policyGroups);
              Done (ps ← r;
                    Ok {| maxNumTraces := NumTraces cfg; policies := ps; idToTrace := ∅;
                          decisionBatcher := inBatcher; deleteChan := [];
                          numTracesOnMap := 0; consumed := [] |})
          end
      end
  | errs => Done (Err (ConfigInvalid errs))
  end.

(** ** The decision *)

Definition is_final (d : Decision) : bool :=
  bool_decide (d = Sampled) || bool_decide (d = NotSampled).

(** The loop of [makeDecision] over the policies from index [i]: the policy that decided,
    the policies and the trace after the evaluations, and the number of errors. *)
Fixpoint policies_loop (now : Z) (id : TraceID) (trace : TraceData) (i : nat)
    (ps : list policy) (errors : Z) :
    option (Decision * string) * list policy * TraceData * Z :=
  match ps with
  | [] => (None, [], trace, errors)
  | p :: rest =>
      let '((decision, err), ev) := Evaluate (now / 1000000000) id trace (p_evaluator p) in
      let p := {| p_name := p_name p; p_evaluator := ev |} in
      let trace := set_Decisions (<[i:=decision]> (Decisions trace)) trace in
      let errors := match err with Some _ => errors + 1 | None => errors end in
      if is_final decision then (Some (decision, p_name p), p :: rest, trace, errors)
      else let '(r, rest, trace, errors) := policies_loop now id trace (S i) rest errors in
           (r, p :: rest, trace, errors)
  end.

Definition makeDecision (now : Z) (id : TraceID) (trace : TraceData) (ps : list policy)
    (metrics : policyMetrics) :
    Decision * context * list policy * TraceData * policyMetrics :=
  let '(r, ps, trace, errors) :=
    policies_loop now id trace 0 ps (evaluateErrorCount metrics) in
  let '(finalDecision, ctx) :=
    match r with
    | Some (d, name) => (d, Some name)
    | None => (Sampled, None)
    end in
  (finalDecision, ctx, ps, trace,
   {| idNotFoundOnMapCount := idNotFoundOnMapCount metrics;
      evaluateErrorCount := errors;
      decisionSampled := decisionSampled metrics +
        (if decide (finalDecision = Sampled) then 1 else 0);
      decisionNotSampled := decisionNotSampled metrics +
        (if decide (finalDecision = NotSampled) then 1 else 0) |}).

(** ** The tick *)

(** The body of the loop over the batch. *)
Definition tick_id (now : Z) (st : TSP * policyMetrics) (id : TraceID) : TSP * policyMetrics :=
  let '(t, metrics) := st in
  match idToTrace t !! id with
  | None =>
      (t, {| idNotFoundOnMapCount := idNotFoundOnMapCount metrics + 1;
             evaluateErrorCount := evaluateErrorCount metrics;
             decisionSampled := decisionSampled metrics;
             decisionNotSampled := decisionNotSampled metrics |})
  | Some trace =>
      let '(decision, ctx, ps, trace, metrics) :=
        makeDecision now id (set_DecisionTime now trace) (policies t) metrics in
      let allSpans := ReceivedBatches trace in
      let t := set_policies ps
                 (set_idToTrace (<[id := set_FinalDecision decision trace]> (idToTrace t)) t) in
      (if decide (decision = Sampled) then forward ctx allSpans t else t, metrics)
  end.

Definition no_metrics : policyMetrics :=
  {| idNotFoundOnMapCount := 0; evaluateErrorCount := 0;
     decisionSampled := 0; decisionNotSampled := 0 |}.

Definition samplingPolicyOnTick (now : Z) (t : TSP) : outcome (TSP * policyMetrics) :=
  '(batch, _, b) ← CloseCurrentAndTakeFirstBatch (decisionBatcher t);
  Done (foldl (tick_id now) (set_decisionBatcher b t, no_metrics) batch).

(** ** Consuming traces *)

Definition groupSpansByTraceKey (rs : ResourceSpans) : gmap TraceID (list Span) :=
  foldl (λ idToSpans span,
           <[span_TraceID span := default [] (idToSpans !! span_TraceID span) ++ [span]]> idToSpans)
    ∅ (rs_ScopeSpans rs ≫= ss_Spans).

(** The copy keeps the resource; the spans go to one scope without its description. *)
Definition appendToTraces (dest : Traces) (rss : ResourceSpans) (spans : list Span) : Traces :=
  dest ++ [{| rs_Resource := rs_Resource rss;
              rs_ScopeSpans := [{| ss_Scope := ""; ss_Spans := spans |}] |}].

(** The counter is decremented by adding the complement of zero. *)
Definition dropTrace (id : TraceID) (t : TSP) : TSP :=
  match idToTrace t !! id with
  | Some _ => set_numTracesOnMap (u64 (numTracesOnMap t + (two64 - 1)))
                (set_idToTrace (delete id (idToTrace t)) t)
  | None => t
  end.

(** The [select] loop: send when there is room, else receive and drop. With no capacity
    at all the receive waits for ever. *)
Fixpoint post_deletion (chan : list TraceID) (id : TraceID) (t : TSP) : outcome TSP :=
  if len chan <? maxNumTraces t then Done (set_deleteChan (chan ++ [id]) t)
  else match chan with
       | [] => Blocks
       | traceKeyToDrop :: chan =>
           post_deletion chan id (dropTrace traceKeyToDrop (set_deleteChan chan t))
       end.

(** The trace data stored for a new id. *)
Definition newTraceData (now lenSpans : Z) (lenPolicies : nat) : TraceData :=
  {| Decisions := replicate lenPolicies Pending; ArrivalTime := now; DecisionTime := 0;
     SpanCount := i64 lenSpans; ReceivedBatches := []; FinalDecision := Unspecified |}.

(** [LoadOrStore] and what follows for a new trace. *)
Definition load_or_store (now : Z) (id : TraceID) (lenSpans : Z) (t : TSP) : outcome TSP :=
  match idToTrace t !! id with
  | Some actualData => Done (set_idToTrace (<[id := add_SpanCount lenSpans actualData]> (idToTrace t)) t)
  | None =>
      let trace := newTraceData now lenSpans (length (policies t)) in
      let t := set_idToTrace (<[id := trace]> (idToTrace t)) t in
      b ← AddToCurrentBatch (decisionBatcher t) id;
      let t := set_numTracesOnMap (u64 (numTracesOnMap t + 1)) (set_decisionBatcher b t) in
      post_deletion (deleteChan t) id t
  end.

(** One iteration of the loop of [processTraces]. *)
Definition processTrace (now : Z) (rs : ResourceSpans) (id : TraceID) (spans : list Span)
    (t : TSP) : outcome TSP :=
  t ← load_or_store now id (len spans) t;
  match idToTrace t !! id with
  | None => Done t
  | Some actualData =>
      match FinalDecision actualData with
      | Unspecified =>
          Done (set_idToTrace
            (<[id := set_ReceivedBatches (appendToTraces (ReceivedBatches actualData) rs spans)
                       actualData]> (idToTrace t)) t)
      | Sampled => Done (forward None (appendToTraces [] rs spans) t)
      | _ => Done t
      end
  end.

(** The goroutine of the batcher runs at least when a sender waits for it. *)
Definition goroutine (t : TSP) : TSP :=
  let b := decisionBatcher t in
  if len (pendingIds b) <? pendingIds_cap b then t
  else set_decisionBatcher (default b (drain b)) t.

Fixpoint process_groups (now : Z) (rs : ResourceSpans) (groups : list (TraceID * list Span))
    (t : TSP) : outcome TSP :=
  match groups with
  | [] => Done t
  | (id, spans) :: groups =>
      t ← processTrace now rs id spans (goroutine t); process_groups now rs groups t
  end.

Definition processTraces `{MR : !MapRange} (now : Z) (rs : ResourceSpans) (t : TSP) : outcome TSP :=
  process_groups now rs (range (groupSpansByTraceKey rs)) t.

Fixpoint ConsumeTraces `{MR : !MapRange} (now : Z) (td : Traces) (t : TSP) : outcome TSP :=
  match td with
  | [] => Done t
  | rs :: td => t ← processTraces now rs t; ConsumeTraces now td t
  end.

Definition Shutdown (t : TSP) : outcome TSP :=
  b ← Stop (decisionBatcher t); Done (set_decisionBatcher b t).
End tail_sampler.

(** ** Steps and their interleavings *)
Section steps.
Context `{PD : Pdata} `{RX : Regexp} `{L : LRU}.

(** What a step received: the spans of one trace, or nothing. *)
Inductive label := LConsume (id : TraceID) (spans : list Span) | LDrain | LTick.

Definition of_trace (id : TraceID) (sp : Span) : Prop := span_TraceID sp = id.
#[global] Instance of_trace_dec id sp : base.Decision (of_trace id sp).
Proof. unfold of_trace. apply _. Defined.

Inductive tsp_step (t : TSP) : label → TSP → Prop :=
| step_consume now rs id spans t' :
    Forall (of_trace id) spans → processTrace now rs id spans t = Done t' →
    tsp_step t (LConsume id spans) t'
| step_drain b :
    drain (decisionBatcher t) = Some b → tsp_step t LDrain (set_decisionBatcher b t)
| step_tick now t' m :
    samplingPolicyOnTick now t = Done (t', m) → tsp_step t LTick t'.

Inductive tsp_steps (t : TSP) : list label → TSP → Prop :=
| steps_nil : tsp_steps t [] t
| steps_snoc ls l t1 t2 : tsp_steps t ls t1 → tsp_step t1 l t2 → tsp_steps t (ls ++ [l]) t2.

Lemma tsp_steps_app t ls t1 ls' t2 :
  tsp_steps t ls t1 → tsp_steps t1 ls' t2 → tsp_steps t (ls ++ ls') t2.
Proof.
  intros H. induction 1; [by rewrite app_nil_r|]. rewrite (assoc_L (++)). by eapply steps_snoc.
Qed.

Lemma tsp_steps_one t l t1 : tsp_step t l t1 → tsp_steps t [l] t1.
Proof. intros H. apply (steps_snoc t [] l t t1); [constructor|done]. Qed.

(** *** The table of traces *)

(** The delete channel lists the keys of the table, and the counter is their number. *)
Record table_ok (t : TSP) : Prop := {
  tb_cap : 1 ≤ maxNumTraces t < two64;
  tb_nodup : NoDup (deleteChan t);
  tb_keys id : id ∈ deleteChan t ↔ is_Some (idToTrace t !! id);
  tb_len : len (deleteChan t) ≤ maxNumTraces t;
  tb_count : numTracesOnMap t = len (deleteChan t);
  tb_final id tr : idToTrace t !! id = Some tr →
    FinalDecision tr = Unspecified ∨ is_final (FinalDecision tr) = true;
}.

Lemma table_dom t : table_ok t → dom (idToTrace t) =@{gset _} list_to_set (deleteChan t).
Proof. intros Ht. apply set_eq. intros id. by rewrite elem_of_dom, elem_of_list_to_set, tb_keys. Qed.

Lemma table_size t : table_ok t → Z.of_nat (size (idToTrace t)) = len (deleteChan t).
Proof.
  intros Ht. unfold len. rewrite <- size_dom, table_dom by done.
  by rewrite size_list_to_set by apply Ht.
Qed.

(** Replacing the value of a key that is present. *)
Lemma table_update t id tr tr' :
  table_ok t → idToTrace t !! id = Some tr →
  FinalDecision tr' = Unspecified ∨ is_final (FinalDecision tr') = true →
  table_ok (set_idToTrace (<[id := tr']> (idToTrace t)) t).
Proof.
  intros [] Hid Hd. split; simpl; [done..| |done|done|].
  - intros k. rewrite tb_keys0, lookup_insert_is_Some. destruct (decide (id = k)); naive_solver.
  - intros k tr0. rewrite lookup_insert_Some. naive_solver.
Qed.

Lemma dropTrace_head t k chan :
  table_ok t → deleteChan t = k :: chan →
  table_ok (dropTrace k (set_deleteChan chan t))
  ∧ deleteChan (dropTrace k (set_deleteChan chan t)) = chan.
Proof.
  intros [] E. rewrite E in *. unfold dropTrace. simpl.
  destruct (idToTrace t !! k) as [tr|] eqn:Ek.
  2: { exfalso. assert (is_Some (idToTrace t !! k)) as [? ?] by (apply tb_keys0; by left).
       congruence. }
  apply NoDup_cons in tb_nodup0 as [Hk Hnd].
  assert (len (k :: chan) = len chan + 1) as Hl by (unfold len; simpl; lia).
  split; [|done]. split; simpl; [done..| |lia| |].
  - intros id. specialize (tb_keys0 id). rewrite elem_of_cons in tb_keys0.
    rewrite lookup_delete_is_Some. split.
    + intros Hin. split; [by intros ->|]. apply tb_keys0. by right.
    + intros [Hne Hs]. apply tb_keys0 in Hs as [->|]; done.
  - rewrite tb_count0, Hl. pose proof (len_nonneg chan). unfold u64, two64 in *.
    replace (len chan + 1 + (2 ^ 64 - 1)) with (len chan + 1 * 2 ^ 64) by lia.
    rewrite Z.mod_add by lia. apply Z.mod_small. lia.
  - intros id tr'. rewrite lookup_delete_Some. naive_solver.
Qed.

(** The state between [LoadOrStore] of a new id and its entry in the delete channel. *)
Definition pending_new (id : TraceID) (t : TSP) : Prop :=
  ∃ t0 tr, table_ok t0 ∧ idToTrace t0 !! id = None ∧ FinalDecision tr = Unspecified
    ∧ maxNumTraces t = maxNumTraces t0 ∧ deleteChan t = deleteChan t0
    ∧ idToTrace t = <[id := tr]> (idToTrace t0)
    ∧ numTracesOnMap t = u64 (numTracesOnMap t0 + 1).

Lemma pending_new_done id t :
  pending_new id t → len (deleteChan t) < maxNumTraces t →
  table_ok (set_deleteChan (deleteChan t ++ [id]) t).
Proof.
  intros (t0 & tr & [] & Hid & Hf & Em & Ed & Ei & En). rewrite Em, Ed. intros Hl.
  pose proof (len_nonneg (deleteChan t0)).
  assert (id ∉ deleteChan t0) as Hnin.
  { rewrite tb_keys0, Hid. by intros []. }
  split; simpl; rewrite ?Em, ?Ed, ?Ei.
  - done.
  - apply NoDup_app. split; [done|]. split; [|by apply NoDup_singleton].
    intros x Hx Hin. apply list_elem_of_singleton in Hin as ->. done.
  - intros k. rewrite elem_of_app, list_elem_of_singleton, tb_keys0, lookup_insert_is_Some'.
    naive_solver.
  - rewrite len_app. unfold len at 2. simpl. lia.
  - rewrite En, tb_count0, len_app. unfold len at 3. simpl. apply u64_small. unfold two64 in *. lia.
  - intros k tr'. rewrite lookup_insert_Some. naive_solver.
Qed.

Lemma pending_new_drop id t k chan :
  pending_new id t → deleteChan t = k :: chan →
  pending_new id (dropTrace k (set_deleteChan chan t))
  ∧ deleteChan (dropTrace k (set_deleteChan chan t)) = chan.
Proof.
  intros (t0 & tr & H0 & Hid & Hf & Em & Ed & Ei & En) E. rewrite Ed in E.
  destruct (dropTrace_head t0 k chan H0 E) as [Hok Hch].
  assert (is_Some (idToTrace t0 !! k)) as [trk Hk] by (apply (tb_keys t0 H0); rewrite E; by left).
  assert (id ≠ k) as Hne by congruence.
  unfold dropTrace in *. simpl in *. rewrite Ei, lookup_insert_ne, Hk by done.
  rewrite Hk in Hok, Hch. split; [|done]. do 2 eexists.
  split; [exact Hok|]. split; [simpl; by rewrite lookup_delete_ne|].
  split; [exact Hf|]. simpl. split; [done|]. split; [done|]. split.
  - by rewrite <- delete_insert_ne by done.
  - rewrite En. unfold u64, two64. rewrite !Zplus_mod_idemp_l. f_equal. lia.
Qed.

(** The [select] loop ends, after at most one eviction per element of the channel. *)
Lemma post_deletion_ok id t chan :
  pending_new id t → deleteChan t = chan → 1 ≤ maxNumTraces t →
  ∃ t', post_deletion chan id t = Done t' ∧ table_ok t'
    ∧ policies t' = policies t ∧ decisionBatcher t' = decisionBatcher t
    ∧ consumed t' = consumed t ∧ maxNumTraces t' = maxNumTraces t
    ∧ (len chan < maxNumTraces t → t' = set_deleteChan (chan ++ [id]) t).
Proof.
  revert t. induction chan as [|k chan IH]; intros t Hp Hc Hcap; cbn.
  - destruct (Z.ltb_spec (len (@nil TraceID)) (maxNumTraces t)); [|unfold len in *; simpl in *; lia].
    eexists. split; [done|]. split; [|done].
    pose proof (pending_new_done id t Hp) as Hd. rewrite Hc in Hd. by apply Hd.
  - destruct (Z.ltb_spec (len (k :: chan)) (maxNumTraces t)).
    + eexists. split; [done|]. split; [|done].
      pose proof (pending_new_done id t Hp) as Hd. rewrite Hc in Hd. by apply Hd.
    + destruct (pending_new_drop _ _ _ _ Hp Hc) as [Hp' Hc'].
      assert (maxNumTraces (dropTrace k (set_deleteChan chan t)) = maxNumTraces t
        ∧ policies (dropTrace k (set_deleteChan chan t)) = policies t
        ∧ decisionBatcher (dropTrace k (set_deleteChan chan t)) = decisionBatcher t
        ∧ consumed (dropTrace k (set_deleteChan chan t)) = consumed t) as (E1 & E2 & E3 & E4).
      { unfold dropTrace. by destruct (_ !! k). }
      destruct (IH _ Hp' Hc') as (t' & H1 & H2 & H3 & H4 & H5 & H6 & _); [lia|].
      exists t'. split; [done|]. rewrite H3, H4, H5, H6, E1, E2, E3, E4.
      repeat split; try done; try apply H2. lia.
Qed.
(** *** The steps keep the invariant *)

Definition tsp_ok (t : TSP) : Prop := table_ok t ∧ running (decisionBatcher t).

Lemma load_or_store_ok now id n t t' :
  tsp_ok t → load_or_store now id n t = Done t' →
  tsp_ok t' ∧ policies t' = policies t ∧ consumed t' = consumed t
  ∧ maxNumTraces t' = maxNumTraces t
  ∧ match idToTrace t !! id with
    | Some tr => idToTrace t' = <[id := add_SpanCount n tr]> (idToTrace t)
                 ∧ held (decisionBatcher t') = held (decisionBatcher t)
                 ∧ deleteChan t' = deleteChan t
    | None => held (decisionBatcher t') = held (decisionBatcher t) ++ [id]
              ∧ (len (deleteChan t) < maxNumTraces t →
                 idToTrace t' = <[id := newTraceData now n (length (policies t))]> (idToTrace t)
                 ∧ deleteChan t' = deleteChan t ++ [id])
    end.
Proof.
  intros [Ht Hb] H. unfold load_or_store in H.
  destruct (idToTrace t !! id) as [tr|] eqn:Hid.
  - injection H as <-. split; [|done]. split; [|done].
    eapply table_update; [done..|]. exact (tb_final t Ht id tr Hid).
  - apply outcome_bind_Done in H as (b & Ha & H). simpl in Ha, H.
    edestruct (post_deletion_ok id) as (t1 & E1 & E2 & E3 & E4 & E5 & E6 & E7);
      [| | |rewrite E1 in H; injection H as <-]; [|done|apply Ht|].
    + exists t, (newTraceData now n (length (policies t))). split; [exact Ht|]. done.
    + simpl in *. unfold tsp_ok. rewrite E3, E4, E5, E6.
      repeat split; try done; try apply E2; try apply Hb.
      all: try by apply (Add_running _ _ _ Ha Hb).
      * by apply (Add_held _ _ _ Ha).
      * by rewrite E7.
      * by rewrite E7.
Qed.
(** *** What is received and what is forwarded *)

Definition received (id : TraceID) (ls : list label) : list Span :=
  ls ≫= λ l, match l with
             | LConsume id' spans => if decide (id' = id) then spans else []
             | _ => []
             end.
Definition forwarded (id : TraceID) (t : TSP) : list Span :=
  filter (of_trace id) (consumed t ≫= λ c, all_spans c.2).

Lemma filter_of_trace id id' l :
  Forall (of_trace id) l → filter (of_trace id') l = if decide (id = id') then l else [].
Proof.
  induction 1 as [|sp l Hsp _ IH]; [by case_decide|]. rewrite filter_cons, IH.
  unfold of_trace in Hsp |- *. subst id. by repeat case_decide; subst.
Qed.

Lemma forwarded_forward id ctx td t :
  forwarded id (forward ctx td t) = forwarded id t ++ filter (of_trace id) (all_spans td).
Proof.
  unfold forwarded. simpl. rewrite bind_app, filter_app. cbn. by rewrite app_nil_r.
Qed.

Lemma all_spans_append td rs spans :
  all_spans (appendToTraces td rs spans) = all_spans td ++ spans.
Proof.
  unfold all_spans, appendToTraces. rewrite bind_app. f_equal. cbn.
  by rewrite !app_nil_r.
Qed.

(** The trace of one id, [pend] being the ids that wait for a decision: undecided, its
    spans are buffered and nothing is forwarded; decided, it waits no more and either
    every span received has been forwarded or none. *)
Definition trace_ok (ls : list label) (pend : list TraceID) (t : TSP) (id : TraceID) : Prop :=
  match idToTrace t !! id with
  | None => received id ls = [] ∧ forwarded id t = [] ∧ id ∉ pend
  | Some tr =>
      if decide (FinalDecision tr = Unspecified)
      then all_spans (ReceivedBatches tr) = received id ls ∧ forwarded id t = [] ∧ id ∈ pend
      else id ∉ pend
           ∧ forwarded id t = if decide (FinalDecision tr = Sampled) then received id ls else []
  end.

Record hist_ok (ls : list label) (pend : list TraceID) (t : TSP) : Prop := {
  ho_pend : NoDup pend;
  ho_spans id : Forall (of_trace id) (received id ls);
  ho_ids id : is_Some (idToTrace t !! id) → ∃ spans, LConsume id spans ∈ ls;
  ho_trace id : trace_ok ls pend t id;
}.

Lemma received_snoc id ls l :
  received id (ls ++ [l]) = received id ls ++ received id [l].
Proof. unfold received. by rewrite bind_app. Qed.

Lemma received_silent id ls l :
  (match l with LConsume _ _ => False | _ => True end) → received id (ls ++ [l]) = received id ls.
Proof. intros Hl. rewrite received_snoc. destruct l; [done| |]; cbn; by rewrite app_nil_r. Qed.

(** *** Decisions *)

Lemma policies_loop_trace now id tr i ps n r ps' tr' n' :
  policies_loop now id tr i ps n = (r, ps', tr', n') →
  (∀ d name, r = Some (d, name) → is_final d = true)
  ∧ ReceivedBatches tr' = ReceivedBatches tr ∧ length ps' = length ps.
Proof.
  revert tr i n r ps' tr' n'. induction ps as [|p ps IH]; intros tr i n r ps' tr' n' H; simpl in H.
  - by simplify_eq.
  - destruct (Evaluate _ _ _ _) as [[d err] ev]. destruct (is_final d) eqn:Ed.
    + simplify_eq/=. split; [|done]. intros d0 name [= <- _]. done.
    + destruct (policies_loop _ _ _ _ _ _) as [[[r0 ps0] tr0] n0] eqn:E. simplify_eq/=.
      destruct (IH _ _ _ _ _ _ _ E) as (? & ? & ->). done.
Qed.

Lemma makeDecision_ok now id tr ps m d ctx ps' tr' m' :
  makeDecision now id tr ps m = (d, ctx, ps', tr', m') →
  is_final d = true ∧ ReceivedBatches tr' = ReceivedBatches tr.
Proof.
  unfold makeDecision. destruct (policies_loop _ _ _ _ _ _) as [[[r ps0] tr0] n] eqn:E.
  apply policies_loop_trace in E as (Hd & Hr & _). destruct r as [[d0 name]|]; intros [= <- _ _ <- _].
  - split; [by eapply Hd|done].
  - done.
Qed.

(** *** One id of a tick *)

Lemma tick_id_present now t m id tr :
  idToTrace t !! id = Some tr →
  ∃ d ctx ps tr' m',
    is_final d = true ∧ FinalDecision tr' = d ∧ ReceivedBatches tr' = ReceivedBatches tr ∧
    let t' := set_policies ps (set_idToTrace (<[id := tr']> (idToTrace t)) t) in
    tick_id now (t, m) id
    = (if decide (d = Sampled) then forward ctx (ReceivedBatches tr) t' else t', m').
Proof.
  intros Hid. unfold tick_id. rewrite Hid.
  destruct (makeDecision now id _ (policies t) m) as [[[[d ctx] ps] tr1] m1] eqn:E.
  apply makeDecision_ok in E as [Hd Hr]. simpl in Hr.
  exists d, ctx, ps, (set_FinalDecision d tr1), m1. rewrite <- Hr. done.
Qed.

Lemma tick_id_ok now t m id : tsp_ok t → tsp_ok (tick_id now (t, m) id).1
  ∧ decisionBatcher (tick_id now (t, m) id).1 = decisionBatcher t
  ∧ deleteChan (tick_id now (t, m) id).1 = deleteChan t
  ∧ maxNumTraces (tick_id now (t, m) id).1 = maxNumTraces t.
Proof.
  intros [Ht Hb]. destruct (idToTrace t !! id) as [tr|] eqn:Hid.
  - destruct (tick_id_present now t m id tr Hid) as (d & ctx & ps & tr' & m' & Hd & Hf & _ & ->).
    assert (table_ok (set_idToTrace (<[id := tr']> (idToTrace t)) t)) as [].
    { eapply table_update; [done..|]. right. by rewrite Hf. }
    by case_decide; (split; [split; [by split|done]|done]).
  - unfold tick_id. by rewrite Hid.
Qed.

Lemma is_final_spec d : is_final d = true → d = Sampled ∨ d = NotSampled.
Proof. unfold is_final. repeat case_bool_decide; auto; done. Qed.

(** Whatever is done to the spans of another trace, a trace stays as it is. *)
Lemma trace_ok_frame ls ls' pend pend' t t' id :
  trace_ok ls pend t id → idToTrace t' !! id = idToTrace t !! id →
  received id ls' = received id ls → forwarded id t' = forwarded id t →
  (id ∈ pend' ↔ id ∈ pend) → trace_ok ls' pend' t' id.
Proof.
  unfold trace_ok. intros H -> -> -> Hp. destruct (idToTrace t !! id); [case_decide|]; naive_solver.
Qed.

Lemma tick_id_hist ls pend now t m id :
  hist_ok ls (id :: pend) t → hist_ok ls pend (tick_id now (t, m) id).1.
Proof.
  intros [Hp Hs Hi Ht]. apply NoDup_cons in Hp as [Hnin Hp].
  pose proof (Ht id) as Hid. unfold trace_ok in Hid.
  destruct (idToTrace t !! id) as [tr|] eqn:Etr.
  2: { exfalso. destruct Hid as (_ & _ & Hid). apply Hid. by left. }
  case_decide as Hun; [|exfalso; destruct Hid as [Hid _]; apply Hid; by left].
  destruct Hid as (Hrec & Hfw & _).
  destruct (tick_id_present now t m id tr Etr) as (d & ctx & ps & tr' & m' & Hd & Hf & Hr & ->).
  assert (∀ k, filter (of_trace k) (all_spans (ReceivedBatches tr))
               = if decide (id = k) then received id ls else []) as Hk.
  { intros k. rewrite Hrec. apply filter_of_trace, Hs. }
  split; [done|done| |].
  - intros k Hk'. apply Hi. revert Hk'. case_decide; simpl; rewrite lookup_insert_is_Some';
      intros [<-|?]; rewrite ?Etr; eauto.
  - intros k. destruct (decide (id = k)) as [<-|Hne].
    + unfold trace_ok. assert (is_Some (Some tr')) as _ by eauto.
      apply is_final_spec in Hd. case_decide as Hsam; subst d; simpl;
        rewrite lookup_insert_eq; (rewrite decide_False by naive_solver congruence).
      * split; [done|]. rewrite decide_True by done. rewrite forwarded_forward.
        change (forwarded id _) with (forwarded id t) at 1. by rewrite Hfw, Hk, decide_True.
      * split; [done|]. rewrite decide_False by done. done.
    + eapply trace_ok_frame; [apply (Ht k)| |done| |].
      * case_decide; simpl; by rewrite lookup_insert_ne.
      * cbn [fst]. case_decide; [|done]. rewrite forwarded_forward, Hk, decide_False, app_nil_r by done. done.
      * rewrite elem_of_cons. naive_solver.
Qed.
(** *** A whole tick *)

Lemma ticks_ok now batch t m :
  tsp_ok t →
  tsp_ok (foldl (tick_id now) (t, m) batch).1
  ∧ decisionBatcher (foldl (tick_id now) (t, m) batch).1 = decisionBatcher t
  ∧ deleteChan (foldl (tick_id now) (t, m) batch).1 = deleteChan t
  ∧ maxNumTraces (foldl (tick_id now) (t, m) batch).1 = maxNumTraces t.
Proof.
  revert t m. induction batch as [|id batch IH]; intros t m Ht; [done|]. cbn [foldl].
  destruct (tick_id_ok now t m id Ht) as (H1 & H2 & H3 & H4).
  destruct (tick_id now (t, m) id) as [t1 m1]. cbn [fst] in *.
  destruct (IH t1 m1 H1) as (? & -> & -> & ->). done.
Qed.

Lemma ticks_hist ls now batch pend t m :
  hist_ok ls (batch ++ pend) t → hist_ok ls pend (foldl (tick_id now) (t, m) batch).1.
Proof.
  revert t m. induction batch as [|id batch IH]; intros t m Ht; [done|]. cbn [foldl].
  apply (tick_id_hist _ _ now t m) in Ht. destruct (tick_id now (t, m) id) as [t1 m1].
  by apply IH.
Qed.

Lemma tick_ok now t t' m :
  tsp_ok t → samplingPolicyOnTick now t = Done (t', m) →
  tsp_ok t' ∧ maxNumTraces t' = maxNumTraces t ∧ deleteChan t' = deleteChan t
  ∧ ∃ batch, held (decisionBatcher t) = batch ++ held (decisionBatcher t')
    ∧ ∀ ls, hist_ok ls (held (decisionBatcher t)) t → hist_ok ls (held (decisionBatcher t')) t'.
Proof.
  intros [Ht Hb] H. unfold samplingPolicyOnTick in H.
  destruct (Close_running _ Hb) as (batch & b' & Hc & Hb' & _). rewrite Hc in H. cbn in H.
  pose proof (Close_held _ _ _ _ Hc ltac:(done)) as Hh.
  assert (tsp_ok (set_decisionBatcher b' t)) as Ht' by (split; [by destruct Ht|done]).
  destruct (ticks_ok now batch _ no_metrics Ht') as (H1 & H2 & H3 & H4).
  pose proof (λ ls, ticks_hist ls now batch (held b') (set_decisionBatcher b' t) no_metrics) as H5.
  destruct (foldl _ _ _) as [t1 m1]. injection H as <- <-. cbn [fst] in *. rewrite H2, H3, H4.
  simpl. split; [done|]. split; [done|]. split; [done|]. exists batch. split; [done|]. intros ls Hl. apply H5.
  rewrite <- Hh. destruct Hl as [h1 h2 h3 h4]. split; [exact h1|exact h2|exact h3|exact h4].
Qed.

(** *** One iteration of [processTraces] *)

Lemma processTrace_ok now rs id spans t t' :
  tsp_ok t → processTrace now rs id spans t = Done t' →
  tsp_ok t' ∧ maxNumTraces t' = maxNumTraces t.
Proof.
  intros Ht H. unfold processTrace in H. apply outcome_bind_Done in H as (t1 & Hl & H).
  destruct (load_or_store_ok _ _ _ _ _ Ht Hl) as (Hok & _ & _ & Hm & _).
  destruct (idToTrace t1 !! id) as [tr|] eqn:E; [|by simplify_eq].
  destruct Hok as [Ht1 Hb1]. pose proof (tb_final t1 Ht1 id tr E) as Hf.
  destruct (FinalDecision tr) eqn:Ef; simplify_eq/=; try done.
  - split; [|done]. split; [|done]. eapply table_update; [done..|]. simpl. by rewrite Ef; left.
  - split; [|done]. split; [|done]. by destruct Ht1.
Qed.

Lemma tsp_step_ok t l t' : tsp_ok t → tsp_step t l t' → tsp_ok t' ∧ maxNumTraces t' = maxNumTraces t.
Proof.
  intros Ht [now rs id spans t1 Hs H|b H|now t1 m H].
  - by eapply processTrace_ok.
  - split; [|done]. destruct Ht as [[] Hb]. split; [done|]. by eapply drain_running.
  - by destruct (tick_ok _ _ _ _ Ht H) as (? & ? & _).
Qed.

(** When the new trace has room, only its own entry changes. *)
Lemma processTrace_hist ls now rs id spans t t' :
  tsp_ok t → processTrace now rs id spans t = Done t' →
  (idToTrace t !! id = None → len (deleteChan t) < maxNumTraces t) →
  Forall (of_trace id) spans →
  hist_ok ls (held (decisionBatcher t)) t →
  hist_ok (ls ++ [LConsume id spans]) (held (decisionBatcher t')) t'.
Proof.
  intros Ht H Hroom Hsp [Hp Hs Hi Htr]. unfold processTrace in H.
  apply outcome_bind_Done in H as (t1 & Hl & H).
  destruct (load_or_store_ok _ _ _ _ _ Ht Hl) as (Hok & _ & Hc & _ & Hm).
  assert (∀ k, received k (ls ++ [LConsume id spans])
               = received k ls ++ if decide (id = k) then spans else []) as Hrec.
  { intros k. rewrite received_snoc. cbn. by rewrite app_nil_r. }
  assert (∀ k, forwarded k t1 = forwarded k t) as Hfw by (intros k; unfold forwarded; by rewrite Hc).
  assert (∀ k m, forwarded k (set_idToTrace m t1) = forwarded k t) as Hfm by exact (λ k _, Hfw k).
  assert (∃ tr1, idToTrace t1 = <[id := tr1]> (idToTrace t)
    ∧ NoDup (held (decisionBatcher t1))
    ∧ (∀ k, k ≠ id → k ∈ held (decisionBatcher t1) ↔ k ∈ held (decisionBatcher t))
    ∧ if decide (FinalDecision tr1 = Unspecified)
      then all_spans (ReceivedBatches tr1) = received id ls ∧ forwarded id t = []
           ∧ id ∈ held (decisionBatcher t1)
      else id ∉ held (decisionBatcher t1) ∧ forwarded id t
             = if decide (FinalDecision tr1 = Sampled) then received id ls else [])
    as (tr1 & Em & Hnd & Hk & Hid).
  { specialize (Htr id). unfold trace_ok in Htr. destruct (idToTrace t !! id) as [tr|].
    - destruct Hm as (Em & Eh & _). rewrite Eh. by exists (add_SpanCount (len spans) tr).
    - destruct Hm as (Eh & Em). destruct (Em (Hroom eq_refl)) as [Em' _].
      destruct Htr as (Hr & Hf & Hn). eexists. split; [done|]. rewrite Eh. simpl. split; [|split].
      + apply NoDup_app. split; [done|]. split; [|apply NoDup_singleton].
        intros x Hx Hin. by apply list_elem_of_singleton in Hin as ->.
      + intros k Hk. rewrite elem_of_app, list_elem_of_singleton. naive_solver.
      + rewrite Hr. split; [done|]. split; [done|]. apply elem_of_app. right. by left. }
  rewrite Em, lookup_insert_eq in H.
  assert (decisionBatcher t' = decisionBatcher t1 ∧ (∀ k, k ≠ id → idToTrace t' !! k = idToTrace t !! k
          ∧ forwarded k t' = forwarded k t)
          ∧ trace_ok (ls ++ [LConsume id spans]) (held (decisionBatcher t1)) t' id)
    as (Eb & Hother & Hthis).
  { unfold trace_ok. rewrite Hrec, decide_True by done.
    destruct (FinalDecision tr1) eqn:Ef; simplify_eq/=; (split; [done|]);
      rewrite ?Em, ?lookup_insert_eq; simpl; rewrite ?Ef, ?lookup_insert_eq; simpl; rewrite ?Ef; simpl.
    all: repeat (rewrite decide_True in * by done) || (rewrite decide_False in * by done).
    all: try (split; [intros k Hne; rewrite ?lookup_insert_ne by done; by rewrite Hfw|]).
    all: try (destruct Hid as [? Hid]; by rewrite Hfw).
    - destruct Hid as (E1 & E2 & E3). rewrite all_spans_append, E1, Hfm.
      split; [|done]. intros k Hne. by rewrite Hfm, !lookup_insert_ne.
    - split.
      + intros k Hne. rewrite lookup_insert_ne by done. split; [done|].
        rewrite forwarded_forward, Hfw, all_spans_append, (filter_of_trace id) by done.
        by rewrite decide_False, app_nil_r.
      + destruct Hid as [E1 E2]. split; [done|].
        rewrite forwarded_forward, Hfw, all_spans_append, (filter_of_trace id), E2 by done.
        by rewrite decide_True. }
  rewrite Eb. split; [done| | |].
  - intros k. rewrite Hrec. apply Forall_app. split; [done|]. destruct (decide (id = k)) as [<-|]; [done|constructor].
  - intros k Hsome. destruct (decide (k = id)) as [->|Hne].
    + exists spans. apply elem_of_app. right. by left.
    + rewrite (proj1 (Hother k Hne)) in Hsome. destruct (Hi k Hsome) as [sp' ?].
      exists sp'. apply elem_of_app. by left.
  - intros k. destruct (decide (k = id)) as [->|Hne]; [done|].
    destruct (Hother k Hne). eapply trace_ok_frame; [apply (Htr k)|done| |done|by apply Hk].
    rewrite Hrec, decide_False, app_nil_r; done.
Qed.
(** *** [ConsumeTraces] as steps *)

Lemma goroutine_steps t :
  tsp_ok t → ∃ ls, tsp_steps t ls (goroutine t) ∧ tsp_ok (goroutine t)
    ∧ (∀ id, received id ls = [])
    ∧ len (pendingIds (decisionBatcher (goroutine t))) < pendingIds_cap (decisionBatcher (goroutine t)).
Proof.
  intros Ht. unfold goroutine.
  destruct (Z.ltb_spec (len (pendingIds (decisionBatcher t))) (pendingIds_cap (decisionBatcher t))).
  { exists []. split; [constructor|done]. }
  destruct Ht as [Htb Hb]. pose proof Hb as (_ & _ & H1 & _ & H2).
  destruct (drain (decisionBatcher t)) as [b|] eqn:E.
  2: { unfold drain in E. destruct (pendingIds _); [|done]. unfold len in *. simpl in *. lia. }
  assert (tsp_step t LDrain (set_decisionBatcher b t)) as Hst by by constructor.
  exists [LDrain]. split; [by apply tsp_steps_one|].
  split; [apply (tsp_step_ok t _ _ (conj Htb Hb) Hst)|]. split; [done|].
  unfold drain in E. destruct (pendingIds _); simplify_eq/=. unfold len in *. simpl in *. lia.
Qed.

Lemma processTrace_total now rs id spans t :
  tsp_ok t → len (pendingIds (decisionBatcher t)) < pendingIds_cap (decisionBatcher t) →
  ∃ t', processTrace now rs id spans t = Done t'.
Proof.
  intros [Ht Hb] Hroom. unfold processTrace.
  assert (∃ t1, load_or_store now id (len spans) t = Done t1) as [t1 ->].
  { unfold load_or_store. destruct (idToTrace t !! id) eqn:Hid; [by eexists|].
    pose proof Hb as (Hs & _). unfold AddToCurrentBatch. simpl. rewrite Hs.
    destruct (Z.ltb_spec (len (pendingIds (decisionBatcher t))) (pendingIds_cap (decisionBatcher t)));
      [|lia].
    cbn. match goal with |- context [post_deletion ?c id ?t0] =>
      destruct (post_deletion_ok id t0 c) as (t1 & -> & _) end; [|done|apply Ht|by eexists].
    exists t, (newTraceData now (len spans) (length (policies t))). done. }
  cbn. destruct (idToTrace t1 !! id) as [tr|]; [|by eexists].
  destruct (FinalDecision tr); by eexists.
Qed.

Lemma received_app id ls ls' : received id (ls ++ ls') = received id ls ++ received id ls'.
Proof. apply bind_app. Qed.

Lemma process_groups_steps now rs groups t :
  tsp_ok t → Forall (λ g, Forall (of_trace g.1) g.2) groups →
  ∃ ls t', process_groups now rs groups t = Done t' ∧ tsp_steps t ls t' ∧ tsp_ok t'
    ∧ ∀ id, received id ls = groups ≫= λ g, if decide (g.1 = id) then g.2 else [].
Proof.
  intros Ht Hg. revert t Ht. induction Hg as [|[k spans] groups Hk _ IH]; intros t Ht; cbn [process_groups].
  - exists [], t. split; [done|]. split; [constructor|done].
  - destruct (goroutine_steps t Ht) as (ls1 & Hs1 & Ht1 & Hr1 & Hroom).
    destruct (processTrace_total now rs k spans _ Ht1 Hroom) as [t2 E2].
    assert (tsp_step (goroutine t) (LConsume k spans) t2) as Hs2 by by eapply step_consume.
    destruct (tsp_step_ok _ _ _ Ht1 Hs2) as [Ht2 _].
    destruct (IH t2 Ht2) as (ls3 & t3 & E3 & Hs3 & Ht3 & Hr3).
    exists (ls1 ++ [LConsume k spans] ++ ls3), t3. rewrite E2. cbn. split; [done|].
    split; [|split; [done|]].
    + eapply tsp_steps_app; [done|]. change (LConsume k spans :: ls3) with ([LConsume k spans] ++ ls3).
      eapply tsp_steps_app; [|done]. by apply tsp_steps_one.
    + intros id. change (LConsume k spans :: ls3) with ([LConsume k spans] ++ ls3).
      rewrite !received_app, Hr1, Hr3. cbn. by rewrite app_nil_r.
Qed.

Lemma group_foldl l (m : gmap TraceID (list Span)) id :
  default [] (foldl (λ idToSpans span,
     <[span_TraceID span := default [] (idToSpans !! span_TraceID span) ++ [span]]> idToSpans) m l !! id)
  = default [] (m !! id) ++ filter (of_trace id) l.
Proof.
  revert m. induction l as [|sp l IH]; intros m; cbn [foldl]; [by rewrite filter_nil, app_nil_r|].
  rewrite IH, filter_cons. unfold of_trace at 2. case_decide as Hd.
  - subst id. rewrite lookup_insert_eq. simpl. by rewrite <- (assoc_L (++)).
  - by rewrite lookup_insert_ne.
Qed.

Lemma groups_lookup rs id :
  default [] (groupSpansByTraceKey rs !! id) = filter (of_trace id) (rs_spans rs).
Proof. unfold groupSpansByTraceKey. by rewrite group_foldl, lookup_empty. Qed.

Lemma groups_flatten (m : gmap TraceID (list Span)) l id :
  l ≡ₚ map_to_list m → (l ≫= λ g, if decide (g.1 = id) then g.2 else []) = default [] (m !! id).
Proof.
  intros Hl. assert (NoDup l.*1) as Hnd by (rewrite Hl; apply NoDup_fst_map_to_list).
  assert (∀ k v, (k, v) ∈ l ↔ m !! k = Some v) as Hm.
  { intros k v. by rewrite Hl, elem_of_map_to_list. }
  assert (∀ l', id ∉ l'.*1 → (l' ≫= λ g : string * list Span, if decide (g.1 = id) then g.2 else []) = [])
    as Hnone.
  { induction l' as [|[k v] l' IH]; [done|]. rewrite fmap_cons, not_elem_of_cons. intros [Hne Hn].
    cbn. simpl in Hne. rewrite decide_False by done. by apply IH. }
  destruct (m !! id) as [v|] eqn:E; simpl.
  - apply Hm in E. apply list_elem_of_split in E as (l1 & l2 & ->).
    rewrite fmap_app, fmap_cons in Hnd. apply NoDup_app in Hnd as (_ & Hd & Hnd).
    apply NoDup_cons in Hnd as [Hn2 _]. rewrite bind_app. cbn.
    rewrite decide_True by done. rewrite (Hnone l2) by done. rewrite (Hnone l1); [by rewrite app_nil_r|].
    intros Hin. apply (Hd id Hin). by left.
  - apply Hnone. intros Hin. apply list_elem_of_fmap in Hin as ([k v] & -> & Hin).
    apply Hm in Hin. simpl in E. congruence.
Qed.

Lemma processTraces_steps `{MR : !MapRange} now rs t :
  tsp_ok t →
  ∃ ls t', processTraces now rs t = Done t' ∧ tsp_steps t ls t' ∧ tsp_ok t'
    ∧ ∀ id, received id ls = filter (of_trace id) (rs_spans rs).
Proof.
  intros Ht. unfold processTraces.
  pose proof (range_perm (groupSpansByTraceKey rs)) as Hp.
  destruct (process_groups_steps now rs (range (groupSpansByTraceKey rs)) t Ht)
    as (ls & t' & E & Hs & Ht' & Hr).
  { apply Forall_forall. intros [k v] Hin. rewrite Hp, elem_of_map_to_list in Hin. simpl.
    pose proof (groups_lookup rs k) as Hk. rewrite Hin in Hk. simpl in Hk. subst v.
    apply Forall_forall. intros sp Hsp. by apply list_elem_of_filter in Hsp as [? _]. }
  exists ls, t'. split; [done|]. split; [done|]. split; [done|]. intros id.
  by rewrite Hr, (groups_flatten _ _ _ Hp), groups_lookup.
Qed.

Lemma ConsumeTraces_steps `{MR : !MapRange} now td t :
  tsp_ok t →
  ∃ ls t', ConsumeTraces now td t = Done t' ∧ tsp_steps t ls t' ∧ tsp_ok t'
    ∧ ∀ id, received id ls = filter (of_trace id) (all_spans td).
Proof.
  revert t. induction td as [|rs td IH]; intros t Ht; cbn [ConsumeTraces].
  - exists [], t. split; [done|]. split; [constructor|done].
  - destruct (processTraces_steps now rs t Ht) as (ls & t1 & -> & Hs & Ht1 & Hr).
    destruct (IH t1 Ht1) as (ls' & t2 & E & Hs' & Ht2 & Hr').
    exists (ls ++ ls'), t2. split; [done|]. split; [by eapply tsp_steps_app|]. split; [done|].
    intros id. rewrite received_app, Hr, Hr'. unfold all_spans. cbn. by rewrite filter_app.
Qed.
End steps.

(** ** Properties *)
Section properties.
Context `{PD : Pdata} `{RX : Regexp} `{L : LRU}.

(** A processor before its first span: an empty table and a running batcher. *)
Record fresh (t : TSP) : Prop := {
  fr_cap : 1 ≤ maxNumTraces t < two64;
  fr_table : idToTrace t = ∅;
  fr_delete : deleteChan t = [];
  fr_count : numTracesOnMap t = 0;
  fr_consumed : consumed t = [];
  fr_batcher : running (decisionBatcher t);
  fr_held : held (decisionBatcher t) = [];
}.

Lemma fresh_ok t : fresh t → tsp_ok t ∧ hist_ok [] (held (decisionBatcher t)) t.
Proof.
  intros [Hc Ht Hd Hn Ho Hb Hh]. split; [split; [|done]|].
  - split; rewrite ?Ht, ?Hd, ?Hn; [done|constructor| |unfold len; simpl; lia|done|].
    + intros id. rewrite lookup_empty. split; [by intros ?%not_elem_of_nil|by intros []].
    + intros id tr. by rewrite lookup_empty.
  - rewrite Hh. split; [constructor|intros id; constructor| |].
    + intros id. rewrite Ht, lookup_empty. by intros [].
    + intros id. unfold trace_ok. rewrite Ht, lookup_empty. unfold forwarded. rewrite Ho.
      split; [done|]. split; [done|]. apply not_elem_of_nil.
Qed.

Lemma newTracesProcessor_fresh `{TG : !Tags} n cfg t :
  newTracesProcessor n cfg = Done (Ok t) → 1 ≤ NumTraces cfg < two64 → fresh t.
Proof.
  unfold newTracesProcessor. destruct (Validate cfg); [|done].
  destruct (uint64_of_float64 _) as [nb|]; [|done].
  destruct (New nb _ _) as [b|] eqn:Eb; [|done]. intros Hn Hc.
  apply outcome_bind_Done in Hn as (r & _ & H). destruct r as [ps|]; [|done]. cbn in H. simplify_eq.
  destruct (New_running _ _ _ _ Eb) as (? & ? & _). by split.
Qed.

Lemma tsp_steps_ok t ls t' : tsp_ok t → tsp_steps t ls t' → tsp_ok t' ∧ maxNumTraces t' = maxNumTraces t.
Proof.
  intros Ht. induction 1 as [|ls l t1 t2 _ [IH1 IH2] Hs]; [done|].
  destruct (tsp_step_ok _ _ _ IH1 Hs) as [? ->]. done.
Qed.

(** The ids of the history fit in the table. *)
Definition fits (ids : list TraceID) (ls : list label) (t : TSP) : Prop :=
  len ids ≤ maxNumTraces t ∧ ∀ id spans, LConsume id spans ∈ ls → id ∈ ids.

Lemma fits_room ids ls l id spans t0 t :
  fits ids (ls ++ [l]) t0 → l = LConsume id spans → maxNumTraces t = maxNumTraces t0 →
  table_ok t → (∀ k, is_Some (idToTrace t !! k) → ∃ sp, LConsume k sp ∈ ls) →
  idToTrace t !! id = None → len (deleteChan t) < maxNumTraces t.
Proof.
  intros [Hl Hin] -> Hm Ht Hi Hid. rewrite Hm.
  enough (len (id :: deleteChan t) ≤ len ids) by (unfold len in *; simpl in *; lia).
  unfold len. apply inj_le, submseteq_length, NoDup_submseteq.
  - constructor; [|apply Ht]. intros H. apply (tb_keys t Ht) in H. rewrite Hid in H. by destruct H.
  - intros k [->|Hk]%elem_of_cons.
    + apply (Hin _ spans), elem_of_app. right. by left.
    + apply (tb_keys t Ht), Hi in Hk as [sp Hk]. apply (Hin k sp), elem_of_app. by left.
Qed.

Lemma steps_hist ids t0 ls t :
  fresh t0 → tsp_steps t0 ls t → fits ids ls t0 →
  tsp_ok t ∧ hist_ok ls (held (decisionBatcher t)) t.
Proof.
  intros Hf. destruct (fresh_ok t0 Hf) as [Hok Hh0]. induction 1 as [|ls l t1 t2 Hss IH Hs]; [done|].
  intros Hfit. destruct IH as [Hok1 Hh1].
  { destruct Hfit as [? Hin]. split; [done|]. intros id spans Hl. eapply Hin, elem_of_app. by left. }
  destruct (tsp_steps_ok _ _ _ Hok Hss) as [_ Hm1].
  destruct (tsp_step_ok _ _ _ Hok1 Hs) as [Hok2 _]. split; [done|].
  destruct Hs as [now rs id spans t2 Hsp H|b H|now t2 m H].
  - apply (processTrace_hist ls now rs id spans t1 t2 Hok1 H); [|done|done].
    intros Hid. eapply fits_room; [done|done|done|apply Hok1|apply Hh1|done].
  - destruct Hh1 as [h1 h2 h3 h4]. simpl. rewrite (drain_held _ _ H). split; [done| | |].
    + intros k. by rewrite received_silent.
    + intros k Hk. destruct (h3 k Hk) as [sp ?]. exists sp. apply elem_of_app. by left.
    + intros k. eapply trace_ok_frame; [apply (h4 k)|done|by rewrite received_silent|done|done].
  - destruct (tick_ok _ _ _ _ Hok1 H) as (_ & _ & _ & batch & _ & Ht). apply Ht in Hh1 as [h1 h2 h3 h4].
    split; [done| | |].
    + intros k. by rewrite received_silent.
    + intros k Hk. destruct (h3 k Hk) as [sp ?]. exists sp. apply elem_of_app. by left.
    + intros k. eapply trace_ok_frame; [apply (h4 k)|done|by rewrite received_silent|done|done].
Qed.

(** C9. Exactly once: as long as the distinct trace ids fit in [num_traces], after any
    interleaving of arrivals, goroutine steps and ticks, a trace that is undecided has all
    its spans buffered in order and waits for a tick, a sampled trace has had every span
    forwarded exactly once in order of arrival, late ones included, and a trace that is not
    sampled has had none forwarded. *)
Theorem forwarded_exactly_once t0 ls t ids id
    (Hfresh : fresh t0) (Hsteps : tsp_steps t0 ls t) (Hfits : fits ids ls t0) :
  match idToTrace t !! id with
  | None => received id ls = [] ∧ forwarded id t = []
  | Some tr =>
      match FinalDecision tr with
      | Unspecified => all_spans (ReceivedBatches tr) = received id ls
                       ∧ forwarded id t = [] ∧ id ∈ held (decisionBatcher t)
      | Sampled => forwarded id t = received id ls
      | NotSampled => forwarded id t = []
      | _ => False
      end
  end.
Proof.
  destruct (steps_hist _ _ _ _ Hfresh Hsteps Hfits) as [[Ht _] [_ _ _ H]]. specialize (H id).
  unfold trace_ok in H. destruct (idToTrace t !! id) as [tr|] eqn:E; [|by destruct H as (? & ? & _)].
  pose proof (tb_final t Ht id tr E) as Hf.
  destruct (FinalDecision tr) eqn:Ef; destruct Hf as [Hf|Hf]; try done; by destruct H.
Qed.

(** The memory bound: in every reachable state the table holds at most [num_traces]
    traces, the counter is exactly their number, and the delete channel lists their ids
    without repetition, so no eviction ever misses the table. *)
Theorem table_bounded t0 ls t (Hfresh : fresh t0) (Hsteps : tsp_steps t0 ls t) :
  Z.of_nat (size (idToTrace t)) = numTracesOnMap t
  ∧ numTracesOnMap t ≤ maxNumTraces t0
  ∧ NoDup (deleteChan t) ∧ ∀ id, id ∈ deleteChan t ↔ is_Some (idToTrace t !! id).
Proof.
  destruct (fresh_ok t0 Hfresh) as [Hok _].
  destruct (tsp_steps_ok _ _ _ Hok Hsteps) as [[Ht _] <-].
  rewrite (table_size t Ht), (tb_count t Ht). split; [done|].
  split; [apply Ht|]. split; apply Ht.
Qed.

(** C17. [ConsumeTraces] always returns: from every reachable state it neither waits for
    ever nor panics, whatever the order in which the map of groups is visited, and its effect
    is a sequence of the steps that hands every trace exactly the spans the batch has for it,
    in order. *)
Theorem ConsumeTraces_total `{MR : !MapRange} t0 ls t now td
    (Hfresh : fresh t0) (Hsteps : tsp_steps t0 ls t) :
  ∃ ls' t', ConsumeTraces now td t = Done t' ∧ tsp_steps t0 (ls ++ ls') t'
    ∧ ∀ id, received id (ls ++ ls') = received id ls ++ filter (of_trace id) (all_spans td).
Proof.
  destruct (fresh_ok t0 Hfresh) as [Hok _]. destruct (tsp_steps_ok _ _ _ Hok Hsteps) as [Ht _].
  destruct (ConsumeTraces_steps now td t Ht) as (ls' & t' & E & Hs & _ & Hr).
  exists ls', t'. split; [done|]. split; [by eapply tsp_steps_app|].
  intros id. by rewrite received_app, Hr.
Qed.

(** With [num_traces] zero, which [Validate] accepts, the first span of a new trace
    blocks its sender for ever. *)
Theorem zero_capacity_blocks now rs id spans t
    (Hcap : maxNumTraces t = 0) (Hnew : idToTrace t !! id = None) (Hempty : deleteChan t = [])
    (Hb : running (decisionBatcher t)) :
  processTrace now rs id spans t = Blocks.
Proof.
  unfold processTrace, load_or_store. rewrite Hnew. unfold AddToCurrentBatch. simpl.
  rewrite (proj1 Hb), Hempty. by destruct (_ <? pendingIds_cap _); cbn; rewrite ?Hcap.
Qed.

(** *** Decisions *)

(** The decisions the policies would give, in order. *)
Definition opinions (now : Z) (id : TraceID) (tr : TraceData) (ps : list policy) : list Decision :=
  (λ p, decision (Evaluate (now / 1000000000) id tr) (p_evaluator p)) <$> ps.

Lemma policies_loop_spec now id tr i ps n :
  (policies_loop now id tr i ps n).1.1.1
  = List.find (λ dp, is_final dp.1) (zip (opinions now id tr ps) (p_name <$> ps))
  ∧ (policies_loop now id tr i ps n).2 = n.
Proof.
  assert (∀ tr', SpanCount tr' = SpanCount tr → ReceivedBatches tr' = ReceivedBatches tr →
    (policies_loop now id tr' i ps n).1.1.1
    = List.find (λ dp, is_final dp.1) (zip (opinions now id tr ps) (p_name <$> ps))
    ∧ (policies_loop now id tr' i ps n).2 = n) as H; [|by apply H].
  revert i. induction ps as [|p ps IH]; intros i tr' Hs Hr; [done|].
  unfold opinions. rewrite !fmap_cons. cbn [policies_loop zip zip_with].
  cbn [List.find fst]. rewrite (Evaluate_ext _ _ tr tr') by done. unfold decision at 1 2.
  pose proof (Evaluate_no_error (now / 1000000000) id tr (p_evaluator p)) as He. unfold no_error in He.
  destruct (Evaluate _ _ tr (p_evaluator p)) as [[d err] ev]. cbn [fst snd] in *. subst err.
  destruct (is_final d) eqn:Ed.
  - done.
  - destruct (IH (S i) (set_Decisions (<[i:=d]> (Decisions tr')) tr'))
      as [E1 E2]; [done|done|]. unfold opinions in E1.
    by destruct (policies_loop _ _ _ _ ps n) as [[[r' ps'] tr''] n'].
Qed.

(** The decision on a trace is that of the first policy, in the order of the list,
    that says Sampled or NotSampled; when none does the trace is sampled under the
    processor's own context. Evaluation errors never occur. *)
Theorem makeDecision_first_opinion now id tr ps m :
  let '(d, ctx, _, _, m') := makeDecision now id tr ps m in
  match List.find (λ dp, is_final dp.1) (zip (opinions now id tr ps) (p_name <$> ps)) with
  | Some (d', name) => d = d' ∧ ctx = Some name
  | None => d = Sampled ∧ ctx = None
  end
  ∧ evaluateErrorCount m' = evaluateErrorCount m
  ∧ decisionSampled m' + decisionNotSampled m' = decisionSampled m + decisionNotSampled m + 1.
Proof.
  unfold makeDecision.
  destruct (policies_loop_spec now id tr 0 ps (evaluateErrorCount m)) as [E1 E2].
  destruct (policies_loop _ _ _ _ _ _) as [[[r ps'] tr'] n] eqn:El. cbn [fst snd] in *. subst n.
  apply policies_loop_trace in El as [Hd _]. rewrite <- E1.
  destruct r as [[d name]|]; simpl.
  - destruct (is_final_spec d) as [->| ->]; [by eapply Hd| |]; simpl; split; (done || split; lia || done).
  - split; [done|]. split; lia || done.
Qed.

(** The configured policies are never used: [newTracesProcessor] copies them into an
    empty slice, which copies nothing, so every processor it returns has no policy and
    decides to sample every trace. *)
Theorem configured_policies_ignored `{TG : !Tags} n cfg t now id tr m
    (Hnew : newTracesProcessor n cfg = Done (Ok t)) :
  policies t = [] ∧ (makeDecision now id tr (policies t) m).1.1.1.1 = Sampled.
Proof.
  assert (policies t = []) as Hp.
  { unfold newTracesProcessor in Hnew. destruct (Validate cfg); [|done].
    destruct (uint64_of_float64 _) as [nb|]; [|done].
    destruct (New nb _ _) as [b|]; [|done].
    unfold copy_slice in Hnew. rewrite drop_ge in Hnew by (simpl; lia). cbn in Hnew.
    by simplify_eq/=. }
  split; [done|]. by rewrite Hp.
Qed.

(** [Validate] accepts a configuration exactly when no policy group has priority 0,
    and reports one error per group that has it. *)
Theorem Validate_spec c :
  (Validate c = [] ↔ ∀ p, p ∈ PolicyCfgs c → b_Priority (g_BasePolicy p) ≠ 0)
  ∧ length (Validate c)
    = length (filter (λ p, b_Priority (g_BasePolicy p) = 0) (PolicyCfgs c)).
Proof.
  assert (length (Validate c)
    = length (filter (λ p, b_Priority (g_BasePolicy p) = 0) (PolicyCfgs c))) as Hl.
  { unfold Validate. induction (PolicyCfgs c) as [|p ps IH]; [done|].
    rewrite bind_cons, length_app, IH, filter_cons. case_decide as Hd.
    - by rewrite (proj2 (Z.eqb_eq _ _) Hd).
    - by rewrite (proj2 (Z.eqb_neq _ _) Hd). }
  split; [|done]. rewrite <- length_zero_iff_nil, Hl, length_zero_iff_nil.
  split.
  - intros Hf p Hp H0. apply (not_elem_of_nil p). rewrite <- Hf. by apply list_elem_of_filter.
  - intros Hall. destruct (filter _ _) as [|p ps] eqn:E; [done|]. exfalso.
    assert (p ∈ p :: ps) as Hin by by left. rewrite <- E in Hin.
    apply list_elem_of_filter in Hin as [H0 Hin]. by apply (Hall p).
Qed.

(** *** Every trace is decided *)

(** [n] ticks, with nothing arriving in between. *)
Fixpoint ticks (n : nat) (now : Z) (t : TSP) : outcome TSP :=
  match n with
  | O => Done t
  | S n => '(t, _) ← samplingPolicyOnTick now t; ticks n now t
  end.

Lemma tick_batcher now t :
  tsp_ok t → ∃ t' m, samplingPolicyOnTick now t = Done (t', m)
    ∧ batches (decisionBatcher t') = drop 1 (batches (decisionBatcher t)) ++ [currentBatch (decisionBatcher t)]
    ∧ currentBatch (decisionBatcher t') = [] ∧ pendingIds (decisionBatcher t') = pendingIds (decisionBatcher t).
Proof.
  intros [Ht Hb]. destruct (Close_running _ Hb) as (batch & b' & Hc & Hb' & _ & E1 & E2 & E3).
  unfold samplingPolicyOnTick. rewrite Hc. cbn.
  assert (tsp_ok (set_decisionBatcher b' t)) as Ht' by (split; [by destruct Ht|done]).
  destruct (ticks_ok now batch _ no_metrics Ht') as (_ & H2 & _ & _).
  destruct (foldl _ _ _) as [t1 m1]. cbn [fst] in H2. exists t1, m1. rewrite H2. simpl. by rewrite E1, E2, E3.
Qed.

Lemma ticks_flush now l n t :
  tsp_ok t → batches (decisionBatcher t) = l ++ replicate n [] →
  currentBatch (decisionBatcher t) = [] → pendingIds (decisionBatcher t) = [] →
  ∃ t' ls, ticks (length l) now t = Done t' ∧ tsp_steps t ls t' ∧ held (decisionBatcher t') = []
    ∧ ∀ x, x ∈ ls → x = LTick.
Proof.
  revert n t. induction l as [|x l IH]; intros n t Ht Hb Hc Hp; cbn [length ticks].
  - exists t, []. split; [done|]. split; [constructor|]. split; [|by intros x ?%not_elem_of_nil].
    unfold held. rewrite Hb, Hc, Hp. simpl. rewrite app_nil_r. clear. by induction n.
  - destruct (tick_batcher now t Ht) as (t1 & m & E & E1 & E2 & E3). rewrite E. cbn.
    assert (tsp_step t LTick t1) as Hs by by eapply step_tick.
    destruct (IH (S n) t1) as (t' & ls & Ht' & Hss & Hh & Hl).
    + apply (tsp_step_ok _ _ _ Ht Hs).
    + rewrite E1, Hb, Hc. simpl. rewrite drop_0, <- (assoc_L (++)).
      f_equal. clear. induction n as [|n IH]; [done|]. simpl. by rewrite IH.
    + done.
    + by rewrite E3.
    + exists t', ([LTick] ++ ls). split; [done|]. split.
      { eapply tsp_steps_app; [by apply tsp_steps_one|done]. }
      split; [done|]. intros y [->|Hy]%elem_of_cons; [done|by apply Hl].
Qed.

(** C10. Every trace in the table gets decided, from a state reached by any interleaving in which
    the distinct trace ids seen fit in [num_traces] and all of them have reached the current batch
    of the batcher: after as many ticks as the batcher has batches, plus one, without anything
    between these ticks, every trace in the table has its final decision. *)
Theorem every_trace_decided t0 ls t ids now
    (Hfresh : fresh t0) (Hsteps : tsp_steps t0 ls t) (Hfits : fits ids ls t0)
    (Hdrained : pendingIds (decisionBatcher t) = []) :
  ∃ t', ticks (S (length (batches (decisionBatcher t)))) now t = Done t'
    ∧ ∀ id tr, idToTrace t' !! id = Some tr → is_final (FinalDecision tr) = true.
Proof.
  destruct (steps_hist _ _ _ _ Hfresh Hsteps Hfits) as [Ht _].
  destruct (tick_batcher now t Ht) as (t1 & m & E & E1 & E2 & E3). cbn [ticks]. rewrite E. cbn.
  assert (tsp_step t LTick t1) as Hs by by eapply step_tick.
  destruct (tsp_step_ok _ _ _ Ht Hs) as [Ht1 _].
  destruct (ticks_flush now (batches (decisionBatcher t1)) 0 t1 Ht1) as (t' & ls' & E' & Hss & Hh & Hl).
  - by rewrite app_nil_r.
  - done.
  - by rewrite E3.
  - exists t'. split.
    { rewrite <- E', E1. f_equal. rewrite length_app, length_drop. simpl.
      destruct Ht as [_ (_ & H1 & _ & H2 & _)]. unfold len in H2. lia. }
    assert (tsp_steps t0 (ls ++ [LTick] ++ ls') t') as Hall.
    { eapply tsp_steps_app; [done|]. eapply tsp_steps_app; [by apply tsp_steps_one|done]. }
    destruct (steps_hist ids t0 _ t' Hfresh Hall) as [[Hok _] [_ _ _ Htr]].
    { destruct Hfits as [Hlen Hin]. split; [done|]. intros k sp.
      rewrite !elem_of_app, list_elem_of_singleton. intros [?|[?|Hk]]; [by eapply Hin|done|].
      by apply Hl in Hk. }
    intros id tr Hid. specialize (Htr id). unfold trace_ok in Htr. rewrite Hid, Hh in Htr.
    destruct (tb_final t' Hok id tr Hid) as [Hf|Hf]; [|done].
    rewrite decide_True in Htr by done. destruct Htr as (_ & _ & []%not_elem_of_nil).
Qed.
End properties.

(** ** Witnesses *)
Section witnesses.
Import TestPdata.

#[local] Program Instance w_range : MapRange := {| range V := map_to_list |}.
Next Obligation. done. Qed.
#[local] Instance w_tags : Tags := {| tag_New _ := true |}.

Definition w_batcher2 : batcher TraceID :=
  {| pendingIds := []; pendingIds_cap := 4; batches := [[]; []]; batches_cap := 2;
     currentBatch := []; stopped := false |}.
Definition w_tsp (cap : Z) : TSP :=
  {| maxNumTraces := cap; policies := []; idToTrace := ∅; decisionBatcher := w_batcher2;
     deleteChan := []; numTracesOnMap := 0; consumed := [] |}.
Definition w_sp (id sid : string) : Span :=
  {| span_TraceID := id; span_SpanID := sid; span_Name := "op"; span_Kind := SpanKindServer; span_StartTimestamp := 0; span_EndTimestamp := 0;
     span_Attributes := ∅; span_Status := StatusCodeOk; span_TraceState := "" |}.
Definition w_rs (spans : list Span) : ResourceSpans :=
  {| rs_Resource := ∅; rs_ScopeSpans := [{| ss_Scope := "lib"; ss_Spans := spans |}] |}.

Lemma w_tsp_fresh : fresh (w_tsp 10).
Proof. repeat split; simpl; unfold len; simpl; lia. Qed.

Definition w_label : label := LConsume "a" [w_sp "a" "1"; w_sp "a" "2"].

Lemma w_tsp_steps : ∃ t, tsp_steps (w_tsp 10) [w_label] t.
Proof.
  destruct (fresh_ok _ w_tsp_fresh) as [Hok _].
  destruct (processTrace_total 0 (w_rs []) "a" [w_sp "a" "1"; w_sp "a" "2"] (w_tsp 10) Hok)
    as [t E]; [done|].
  exists t. apply tsp_steps_one. eapply step_consume; [by repeat constructor|exact E].
Qed.

Lemma w_fits : fits ["a"] [w_label] (w_tsp 10).
Proof.
  split; [done|]. intros id spans [[= -> ->]|[]%not_elem_of_nil]%elem_of_cons. by left.
Qed.

Lemma forwarded_exactly_once_witness :
  ∃ t, tsp_steps (w_tsp 10) [w_label] t ∧
  match idToTrace t !! "a" with
  | None => received "a" [w_label] = [] ∧ forwarded "a" t = []
  | Some tr =>
      match FinalDecision tr with
      | Unspecified => all_spans (ReceivedBatches tr) = received "a" [w_label]
                       ∧ forwarded "a" t = [] ∧ "a" ∈ held (decisionBatcher t)
      | Sampled => forwarded "a" t = received "a" [w_label]
      | NotSampled => forwarded "a" t = []
      | _ => False
      end
  end.
Proof.
  destruct w_tsp_steps as [t Ht]. exists t. split; [exact Ht|].
  exact (forwarded_exactly_once (w_tsp 10) [w_label] t ["a"] "a" w_tsp_fresh Ht w_fits).
Defined.

Lemma table_bounded_witness :
  ∃ t, tsp_steps (w_tsp 10) [w_label] t ∧
  Z.of_nat (size (idToTrace t)) = numTracesOnMap t
  ∧ numTracesOnMap t ≤ maxNumTraces (w_tsp 10)
  ∧ NoDup (deleteChan t) ∧ ∀ id, id ∈ deleteChan t ↔ is_Some (idToTrace t !! id).
Proof.
  destruct w_tsp_steps as [t Ht]. exists t. split; [exact Ht|].
  exact (table_bounded (w_tsp 10) [w_label] t w_tsp_fresh Ht).
Defined.

Lemma ConsumeTraces_total_witness :
  ∃ t, tsp_steps (w_tsp 10) [w_label] t ∧
  ∃ ls' t', ConsumeTraces 5 [w_rs [w_sp "b" "3"]] t = Done t'
    ∧ tsp_steps (w_tsp 10) ([w_label] ++ ls') t'
    ∧ ∀ id, received id ([w_label] ++ ls')
            = received id [w_label] ++ filter (of_trace id) (all_spans [w_rs [w_sp "b" "3"]]).
Proof.
  destruct w_tsp_steps as [t Ht]. exists t. split; [exact Ht|].
  exact (ConsumeTraces_total (w_tsp 10) [w_label] t 5 [w_rs [w_sp "b" "3"]] w_tsp_fresh Ht).
Defined.

Lemma zero_capacity_blocks_witness :
  processTrace 0 (w_rs []) "a" [w_sp "a" "1"] (w_tsp 0) = Blocks.
Proof. apply zero_capacity_blocks; try reflexivity. apply w_tsp_fresh. Defined.

Definition w_config : Config :=
  {| DecisionWait := 2500000000; NumTraces := 10; ExpectedNewTracesPerSec := 10;
     PolicyCfgs := [{| g_BasePolicy := w_drop; g_SubPolicies := [] |}]; Version := 1 |}.

Lemma configured_policies_ignored_witness :
  match newTracesProcessor 2 w_config with
  | Done (Ok t) => policies t = []
      ∧ (makeDecision 0 "t" (w_trace 1 [w_span "k" (VStr "v")]) (policies t) no_metrics).1.1.1.1
        = Sampled
  | _ => False
  end.
Proof.
  assert (match newTracesProcessor 2 w_config with Done (Ok _) => true | _ => false end = true)
    as Hok by (vm_compute; reflexivity).
  destruct (newTracesProcessor 2 w_config) as [[t|e]| |] eqn:E; [|discriminate Hok..].
  exact (configured_policies_ignored 2 w_config t 0 "t" (w_trace 1 [w_span "k" (VStr "v")])
           no_metrics E).
Defined.

Definition w_drain (t : TSP) : TSP :=
  set_decisionBatcher (default (decisionBatcher t) (drain (decisionBatcher t))) t.

(** A trace that was evicted and comes back is forwarded twice: the batcher still
    holds its first entry, and a tick decides again on a trace that has its decision. With
    room for one trace, spans 1, 2, 3 of the traces a, b, a: span 3 is forwarded by two
    ticks. *)
Theorem evicted_trace_forwarded_twice :
  match (t ← ConsumeTraces 0 [w_rs [w_sp "a" "1"]] (w_tsp 1);
         t ← ConsumeTraces 0 [w_rs [w_sp "b" "2"]] (w_drain t);
         '(t, _) ← samplingPolicyOnTick 0 (w_drain t);
         t ← ConsumeTraces 0 [w_rs [w_sp "a" "3"]] t;
         ticks 4 0 (w_drain t)) with
  | Done t => span_SpanID <$> forwarded "a" t = ["3"; "3"]
  | _ => False
  end.
Proof. vm_compute. reflexivity. Qed.

Lemma every_trace_decided_witness :
  ∃ t, tsp_steps (w_tsp 10) [w_label; LDrain] t ∧
  ∃ t', ticks (S (length (batches (decisionBatcher t)))) 7 t = Done t'
    ∧ ∀ id tr, idToTrace t' !! id = Some tr → is_final (FinalDecision tr) = true.
Proof.
  destruct (fresh_ok _ w_tsp_fresh) as [Hok _].
  assert (match processTrace 0 (w_rs []) "a" [w_sp "a" "1"; w_sp "a" "2"] (w_tsp 10) with
          | Done t => pendingIds (decisionBatcher t) | _ => [] end = ["a"])
    as Hp by (vm_compute; reflexivity).
  destruct (processTrace 0 (w_rs []) "a" [w_sp "a" "1"; w_sp "a" "2"] (w_tsp 10)) as [t1| |] eqn:E;
    [|discriminate Hp..].
  assert (drain (decisionBatcher t1) = Some (default (decisionBatcher t1) (drain (decisionBatcher t1))))
    as Ed by (unfold drain; rewrite Hp; reflexivity).
  assert (tsp_steps (w_tsp 10) [w_label; LDrain] (w_drain t1)) as Ht.
  { apply (steps_snoc (w_tsp 10) [w_label] LDrain t1).
    - apply tsp_steps_one. eapply step_consume; [repeat constructor|exact E].
    - apply step_drain. exact Ed. }
  exists (w_drain t1). split; [exact Ht|].
  refine (every_trace_decided (w_tsp 10) [w_label; LDrain] (w_drain t1) ["a"] 7 w_tsp_fresh Ht _ _).
  - split; [done|]. intros id spans Hin.
    apply elem_of_cons in Hin as [[= -> ->]|Hin]; [by left|].
    apply elem_of_cons in Hin as [?|Hin]; [done|by apply not_elem_of_nil in Hin].
  - unfold w_drain, drain. rewrite Hp. reflexivity.
Defined.
End witnesses.
