(* ===== verification/Keycheck.v ===== *)
(** * Attribute keys

    src/pkg/keycheck: keycheck.go decides whether a key looks randomly generated,
    cardinality.go whether it may have unbounded cardinality. The regular expressions are
    written out as the byte patterns they are. *)
From S2P Require Import Prelude.

Section keycheck.
Context `{UC : Unicode}.

Definition MaxKeyLength : Z := 256.
Definition ShortKeyLength : Z := 15.
Definition MediumKeyLength : Z := 25.

Definition in_range (lo hi : Z) (c : ascii) : bool := cont lo hi (byte_val c).
Definition is_digit (c : ascii) : bool := in_range 48 57 c.
Definition is_upper (c : ascii) : bool := in_range 65 90 c.
Definition is_lower (c : ascii) : bool := in_range 97 122 c.
Definition is_hex (c : ascii) : bool := is_digit c || in_range 97 102 c || in_range 65 70 c.
Definition is_base64 (c : ascii) : bool :=
  is_digit c || is_upper c || is_lower c || Ascii.eqb c "+" || Ascii.eqb c "/".

(** A fixed-length pattern, one class per byte. *)
Fixpoint matches_bytes (ps : list (ascii → bool)) (l : list ascii) : bool :=
  match ps, l with
  | [], [] => true
  | p :: ps, c :: l => p c && matches_bytes ps l
  | _, _ => false
  end.

(** uuidRegex: [(?i)^h{8}-h{4}-[1-5]h{3}-[89ab]h{3}-h{12}$]. *)
Definition uuid_pattern : list (ascii → bool) :=
  replicate 8 is_hex ++ [Ascii.eqb "-"] ++ replicate 4 is_hex ++ [Ascii.eqb "-"]
  ++ [in_range 49 53] ++ replicate 3 is_hex ++ [Ascii.eqb "-"]
  ++ [λ c, Ascii.eqb c "8" || Ascii.eqb c "9" || Ascii.eqb c "a" || Ascii.eqb c "b"
           || Ascii.eqb c "A" || Ascii.eqb c "B"] ++ replicate 3 is_hex ++ [Ascii.eqb "-"]
  ++ replicate 12 is_hex.
Definition uuidRegex (l : list ascii) : bool := matches_bytes uuid_pattern l.
Definition hexRegex (l : list ascii) : bool := (16 <=? len l) && forallb is_hex l.
(** [^[A-Za-z0-9+/]{16,}={0,2}$]: drop up to two final equal signs, then only the alphabet. *)
Definition base64Regex (l : list ascii) : bool :=
  existsb (λ k, bool_decide (drop (length l - k) l = replicate k "="%char)
                && (16 <=? len (take (length l - k) l))
                && forallb is_base64 (take (length l - k) l)) [0; 1; 2]%nat.
Definition timestampRegex (l : list ascii) : bool := matches_bytes (replicate 13 is_digit) l.

Definition containsNonAlpha (s : string) : bool := existsb (λ r, negb (IsLetter r)) (runes s).

Definition isBase64String (l : list ascii) : bool :=
  if containsNonAlpha (of_bytes l) then base64Regex l else false.

(** A byte outside ASCII is part of a rune outside the two ranges. *)
Definition isULID (l : list ascii) : bool :=
  (len l =? 26)
  && forallb (λ c, (is_upper c || is_digit c)
                   && negb (Ascii.eqb c "I" || Ascii.eqb c "L" || Ascii.eqb c "O" || Ascii.eqb c "U")) l.

Definition isRandomSegment (l : list ascii) : bool :=
  if MaxKeyLength <? len l then true
  else if uuidRegex l then true
  else if hexRegex l then true
  else if isBase64String l then true
  else if timestampRegex l then true
  else if isULID l then true
  else false.

(** The loop of [processKeySegments] from index [i], with [n] indices left before
    [len(key)]. *)
Fixpoint segments_loop (key : list ascii) (start i n : nat) : bool :=
  let boundary :=
    match n with O => true | S _ => bool_decide (key !! i = Some "."%char) end in
  if boundary then
    let segment := drop start (take i key) in
    match segment with
    | [] => match n with O => false | S n => segments_loop key (S i) (S i) n end
    | _ => if isRandomSegment segment then true
           else match n with O => false | S n => segments_loop key (S i) (S i) n end
    end
  else match n with O => false | S n => segments_loop key start (S i) n end.
Definition processKeySegments (key : string) : bool :=
  segments_loop (bytes key) 0 0 (length (bytes key)).

Definition isAlphaLower (s : string) : bool :=
  forallb (λ r, negb (negb (IsLower r) && negb (IsLetter r))) (runes s).

(** [float64(count)/float64(len(s)) > 0.7]. For the lengths it is called on, at most
    [MediumKeyLength], the quotient rounds to 0.7 only when it is 7/10, so the comparison
    is exact; with [s] empty the quotient is NaN. *)
Definition isMostlyLetters (s : string) : bool :=
  7 * len (bytes s) <? 10 * len (filter (λ r, IsLetter r = true) (runes s)).

Definition contains_any (chars : list ascii) (s : string) : bool :=
  existsb (λ c, contains_byte c s) chars.

Definition IsRandomKey (key : string) : bool :=
  let length := len (bytes key) in
  if MaxKeyLength <? length then true
  else if (length <=? ShortKeyLength) && isAlphaLower key then false
  else if (length <=? MediumKeyLength) && contains_any ["_"; "-"]%char key && isMostlyLetters key
  then false
  else processKeySegments key.

(** ** Cardinality (cardinality.go) *)

Definition JSONKeyAllowedSymbols : list Z := byte_val <$> ["_"; "."; ":"; "@"; "-"]%char.
Definition BacktickRequiredSymbols : list ascii := [":"; "@"; "-"]%char.

Definition containsDigits (s : string) : bool := existsb (cont 48 57) (runes s).
Definition hasNonAllowedSymbols (s : string) : bool :=
  existsb (λ r, negb (cont 97 122 r || cont 65 90 r || cont 48 57 r
                      || bool_decide (r ∈ JSONKeyAllowedSymbols))) (runes s).
Definition IsCardinal (key : string) : bool :=
  if containsDigits key then true
  else if hasNonAllowedSymbols key then true
  else processKeySegments key.

Definition IsBacktickRequired (key : string) : bool := contains_any BacktickRequiredSymbols key.
Definition CleanBackticks (key : string) : string :=
  of_bytes (filter (λ c, c ≠ "`"%char) (bytes key)).

(** ** Segments *)

Lemma isRandomSegment_nil : isRandomSegment [] = false.
Proof. reflexivity. Qed.

(** Splitting puts a prefix without separator in front of the first segment. *)
Lemma split_bytes_prefix c pre l :
  c ∉ pre → split_bytes c (pre ++ l)
  = match split_bytes c l with seg :: segs => (pre ++ seg) :: segs | [] => [pre] end.
Proof.
  induction pre as [|d pre IH]; intros Hc; simpl.
  - pose proof (split_bytes_nonempty c l). by destruct (split_bytes c l).
  - apply not_elem_of_cons in Hc as [Hd Hc]. rewrite (proj2 (Ascii.eqb_neq d c)) by congruence.
    rewrite IH by done. by destruct (split_bytes c l).
Qed.

Lemma segments_loop_spec key n : ∀ start i,
  (start ≤ i)%nat → (i + n = length key)%nat → "."%char ∉ drop start (take i key) →
  segments_loop key start i n = existsb isRandomSegment (split_bytes "." (drop start key)).
Proof.
  induction n as [|n IH]; intros start i Hsi Hn Hdot.
  - cbn. replace i with (length key) in * by lia. rewrite firstn_all in *.
    rewrite <- (app_nil_r (drop start key)) at 2. rewrite split_bytes_prefix by done.
    cbn. rewrite app_nil_r, orb_false_r. destruct (drop start key) eqn:E; [done|].
    by destruct (isRandomSegment _).
  - destruct (lookup_lt_is_Some_2 key i ltac:(lia)) as [c Hc].
    assert (drop start key = drop start (take i key) ++ c :: drop (S i) key) as Hsplit.
    { rewrite <- (take_drop_middle key i c Hc) at 1. rewrite drop_app_le; [done|].
      rewrite length_take. lia. }
    assert (drop start (take (S i) key) = drop start (take i key) ++ [c]) as Hnext.
    { rewrite (take_S_r _ _ _ Hc), drop_app_le; [done|]. rewrite length_take. lia. }
    cbn [segments_loop]. rewrite Hc. case_bool_decide as Hd.
    + injection Hd as ->. rewrite Hsplit, split_bytes_prefix by done. cbn [split_bytes].
      rewrite Ascii.eqb_refl, app_nil_r. cbn [existsb].
      assert (segments_loop key (S i) (S i) n
              = existsb isRandomSegment (split_bytes "." (drop (S i) key))) as Hrec.
      { apply IH; [done|lia|]. rewrite drop_ge by (rewrite length_take; lia).
        apply not_elem_of_nil. }
      rewrite Hrec. destruct (drop start (take i key)) eqn:E; [by rewrite isRandomSegment_nil|].
      by destruct (isRandomSegment _).
    + apply IH; [lia|lia|]. rewrite Hnext, not_elem_of_app. split; [done|].
      rewrite list_elem_of_singleton. congruence.
Qed.

(** The index loop of [processKeySegments] is the test of every dot-separated
    segment. *)
Theorem processKeySegments_split key :
  processKeySegments key = existsb isRandomSegment (split_bytes "." (bytes key)).
Proof.
  unfold processKeySegments. rewrite (segments_loop_spec _ _ 0 0); [done|lia|lia|].
  apply not_elem_of_nil.
Qed.
End keycheck.
