(* ===== verification/ColumnTypes.v ===== *)
(** * Column types of the schema migrator

    src/cmd/siginsightschemamigrator/schema_migrator/column.go: the [ColumnType]
    interface with its implementations, the [Column] record and their SQL text. A type
    may be a nil interface: calling a method of nil panics, which is [None]; [fmt] prints
    nil, and a panic of a [String] method, as text. *)
From S2P Require Import Prelude.

Inductive ColumnProperty :=
| ColumnPropertyTTL | ColumnPropertyDefault | ColumnPropertyAlias | ColumnPropertyMaterialized
| ColumnPropertyCodec | ColumnPropertyComment | ColumnPropertySettings.

Definition ColumnProperty_string (p : ColumnProperty) : string :=
  match p with
  | ColumnPropertyTTL => "TTL"
  | ColumnPropertyDefault => "DEFAULT"
  | ColumnPropertyAlias => "ALIAS"
  | ColumnPropertyMaterialized => "MATERIALIZED"
  | ColumnPropertyCodec => "CODEC"
  | ColumnPropertyComment => "COMMENT"
  | ColumnPropertySettings => "SETTINGS"
  end.

Inductive ColumnTypeEnum :=
| ColumnTypeEnumString
| ColumnTypeEnumInt8 | ColumnTypeEnumInt16 | ColumnTypeEnumInt32 | ColumnTypeEnumInt64
| ColumnTypeEnumInt128 | ColumnTypeEnumInt256
| ColumnTypeEnumUInt8 | ColumnTypeEnumUInt16 | ColumnTypeEnumUInt32 | ColumnTypeEnumUInt64
| ColumnTypeEnumUInt128 | ColumnTypeEnumUInt256
| ColumnTypeEnumFloat32 | ColumnTypeEnumFloat64
| ColumnTypeEnumBool
| ColumnTypeEnumDate | ColumnTypeEnumDate32
| ColumnTypeEnumUUID
| ColumnTypeEnumIPv4 | ColumnTypeEnumIPv6
| ColumnTypeEnumLowCardinality | ColumnTypeEnumNullable
| ColumnTypeEnumSimpleAggregateFunction | ColumnTypeEnumAggregateFunction
| ColumnTypeEnumJSON | ColumnTypeEnumFixedString
| ColumnTypeEnumDateTime | ColumnTypeEnumDateTime64
| ColumnTypeEnumArray | ColumnTypeEnumMap | ColumnTypeEnumTuple | ColumnTypeEnumEnumeration.

Record ColumnSetting := { cs_Name : string; cs_Value : string }.

Definition ColumnSetting_String (c : ColumnSetting) : string :=
  cs_Name c +:+ " = " +:+ cs_Value c.

(** [ColumnSettings] is a slice: nil and empty differ where the code compares with nil. *)
Definition ColumnSettings : Type := option (list ColumnSetting).

Definition ColumnSettings_Names (c : ColumnSettings) : list string := cs_Name <$> default [] c.
Definition ColumnSettings_String (c : ColumnSettings) : string :=
  join ", " (ColumnSetting_String <$> default [] c).

(** A column, [T] being the interface of its type: the two are defined together. *)
Record Column_of (T : Type) := {
  Name : string;
  Type_ : T;
  Codec : string;
  Alias : string;
  Default : string;
  Materialized : string;
  TTL : string;
  Settings : ColumnSettings;
  Comment : string;
}.
Arguments Name {T}.
Arguments Type_ {T}.
Arguments Codec {T}.
Arguments Alias {T}.
Arguments Default {T}.
Arguments Materialized {T}.
Arguments TTL {T}.
Arguments Settings {T}.
Arguments Comment {T}.

(** The implementations of [ColumnType]; a field of interface type is an option. *)
Inductive ColumnType :=
| PrimitiveColumnType (Type_ : string) (Enum : ColumnTypeEnum)
| JSONColumnType (MaxDynamicPaths MaxDynamicTypes : option Z)
    (Columns : list (Column_of (option ColumnType)))
| FixedStringColumnType (Length : Z)
| DateTimeColumnType (Timezone : string)
| DateTime64ColumnType (Precision : Z) (Timezone : string)
| ArrayColumnType (ElementType : option ColumnType)
| MapColumnType (KeyType ValueType : option ColumnType)
| TupleColumnType (ElementTypes : list (option ColumnType))
| LowCardinalityColumnType (ElementType : option ColumnType)
| EnumerationColumnType (Values : list string) (Size : Z)
| NullableColumnType (ElementType : option ColumnType)
| SimpleAggregateFunction (FunctionName : string) (Arguments : list (option ColumnType))
| AggregateFunction (FunctionName : string) (Arguments : list (option ColumnType)).

Definition Column : Type := Column_of (option ColumnType).

Definition GetType (t : ColumnType) : ColumnTypeEnum :=
  match t with
  | PrimitiveColumnType _ e => e
  | JSONColumnType _ _ _ => ColumnTypeEnumJSON
  | FixedStringColumnType _ => ColumnTypeEnumFixedString
  | DateTimeColumnType _ => ColumnTypeEnumDateTime
  | DateTime64ColumnType _ _ => ColumnTypeEnumDateTime64
  | ArrayColumnType _ => ColumnTypeEnumArray
  | MapColumnType _ _ => ColumnTypeEnumMap
  | TupleColumnType _ => ColumnTypeEnumTuple
  | LowCardinalityColumnType _ => ColumnTypeEnumLowCardinality
  | EnumerationColumnType _ _ => ColumnTypeEnumEnumeration
  | NullableColumnType _ => ColumnTypeEnumNullable
  | SimpleAggregateFunction _ _ => ColumnTypeEnumSimpleAggregateFunction
  | AggregateFunction _ _ => ColumnTypeEnumAggregateFunction
  end.

Definition ColumnTypeString := PrimitiveColumnType "String" ColumnTypeEnumString.
Definition ColumnTypeInt8 := PrimitiveColumnType "Int8" ColumnTypeEnumInt8.
Definition ColumnTypeInt16 := PrimitiveColumnType "Int16" ColumnTypeEnumInt16.
Definition ColumnTypeInt32 := PrimitiveColumnType "Int32" ColumnTypeEnumInt32.
Definition ColumnTypeInt64 := PrimitiveColumnType "Int64" ColumnTypeEnumInt64.
Definition ColumnTypeInt128 := PrimitiveColumnType "Int128" ColumnTypeEnumInt128.
Definition ColumnTypeInt256 := PrimitiveColumnType "Int256" ColumnTypeEnumInt256.
Definition ColumnTypeUInt8 := PrimitiveColumnType "UInt8" ColumnTypeEnumUInt8.
Definition ColumnTypeUInt16 := PrimitiveColumnType "UInt16" ColumnTypeEnumUInt16.
Definition ColumnTypeUInt32 := PrimitiveColumnType "UInt32" ColumnTypeEnumUInt32.
Definition ColumnTypeUInt64 := PrimitiveColumnType "UInt64" ColumnTypeEnumUInt64.
Definition ColumnTypeUInt128 := PrimitiveColumnType "UInt128" ColumnTypeEnumUInt128.
Definition ColumnTypeUInt256 := PrimitiveColumnType "UInt256" ColumnTypeEnumUInt256.
Definition ColumnTypeFloat32 := PrimitiveColumnType "Float32" ColumnTypeEnumFloat32.
Definition ColumnTypeFloat64 := PrimitiveColumnType "Float64" ColumnTypeEnumFloat64.
Definition ColumnTypeBool := PrimitiveColumnType "Bool" ColumnTypeEnumBool.
Definition ColumnTypeDate := PrimitiveColumnType "Date" ColumnTypeEnumDate.
Definition ColumnTypeDate32 := PrimitiveColumnType "Date32" ColumnTypeEnumDate32.
Definition ColumnTypeUUID := PrimitiveColumnType "UUID" ColumnTypeEnumUUID.
Definition ColumnTypeIPv4 := PrimitiveColumnType "IPv4" ColumnTypeEnumIPv4.
Definition ColumnTypeIPv6 := PrimitiveColumnType "IPv6" ColumnTypeEnumIPv6.

(** [fmt] with the verb [%s] on a value with a [String] method, [s] its result: a panic
    of the method is printed. *)
Definition fmt_nil : string := "%!s(<nil>)".
Definition fmt_panic : string :=
  "%!s(PANIC=String method: runtime error: invalid memory address or nil pointer dereference)".

Section rendering.
Context (str : ColumnType → option string).

(** [t.String()] on an interface value, and [Sprintf] of one. *)
Definition call_String (t : option ColumnType) : option string :=
  match t with Some t => str t | None => None end.
Definition fmt_String (t : option ColumnType) : string :=
  match t with
  | Some t => match str t with Some s => s | None => fmt_panic end
  | None => fmt_nil
  end.

(** The loops that call [String] on every element. *)
Definition elements_String : list (option ColumnType) → option (list string) :=
  fix go ts :=
    match ts with
    | [] => Some []
    | t :: ts => match call_String t, go ts with
                 | Some s, Some ss => Some (s :: ss)
                 | _, _ => None
                 end
    end.
Definition columns_String : list Column → option (list string) :=
  fix go cs :=
    match cs with
    | [] => Some []
    | c :: cs => match call_String (Type_ c), go cs with
                 | Some s, Some ss => Some ((Name c +:+ " " +:+ s) :: ss)
                 | _, _ => None
                 end
    end.
End rendering.

Definition pointer_param (name : string) (p : option Z) : list string :=
  match p with Some n => [name +:+ "=" +:+ pretty n] | None => [] end.

Fixpoint ColumnType_String (t : ColumnType) : option string :=
  match t with
  | PrimitiveColumnType s _ => Some s
  | JSONColumnType paths types columns =>
      cs ← columns_String ColumnType_String columns;
      Some ("JSON(" +:+ join ", " (pointer_param "max_dynamic_paths" paths
                          ++ pointer_param "max_dynamic_types" types ++ cs) +:+ ")")
  | FixedStringColumnType n => Some ("FixedString(" +:+ pretty n +:+ ")")
  | DateTimeColumnType tz =>
      Some (match tz with EmptyString => "DateTime" | _ => "DateTime(" +:+ tz +:+ ")" end)
  | DateTime64ColumnType p tz =>
      Some (match tz with
            | EmptyString => "DateTime64(" +:+ pretty p +:+ ")"
            | _ => "DateTime64(" +:+ pretty p +:+ ", " +:+ tz +:+ ")"
            end)
  | ArrayColumnType e => Some ("Array(" +:+ fmt_String ColumnType_String e +:+ ")")
  | MapColumnType k v =>
      Some ("Map(" +:+ fmt_String ColumnType_String k +:+ ", "
              +:+ fmt_String ColumnType_String v +:+ ")")
  | TupleColumnType es =>
      ss ← elements_String ColumnType_String es; Some ("Tuple(" +:+ join ", " ss +:+ ")")
  | LowCardinalityColumnType e =>
      Some ("LowCardinality(" +:+ fmt_String ColumnType_String e +:+ ")")
  | EnumerationColumnType vs n => Some ("Enum" +:+ pretty n +:+ "(" +:+ join ", " vs +:+ ")")
  | NullableColumnType e => Some ("Nullable(" +:+ fmt_String ColumnType_String e +:+ ")")
  | SimpleAggregateFunction f args =>
      ss ← elements_String ColumnType_String args;
      Some ("SimpleAggregateFunction(" +:+ f +:+ ", " +:+ join ", " ss +:+ ")")
  | AggregateFunction f args =>
      ss ← elements_String ColumnType_String args;
      Some ("AggregateFunction(" +:+ f +:+ ", " +:+ join ", " ss +:+ ")")
  end.

(** The text [pre x post] when the field is set. *)
Definition clause (pre x post : string) : string :=
  match x with EmptyString => "" | _ => pre +:+ x +:+ post end.

Definition settings_clause (s : ColumnSettings) : string :=
  match s with Some _ => " SETTINGS " +:+ ColumnSettings_String s | None => "" end.

Definition Column_ToSQL (c : Column) : option string :=
  t ← call_String ColumnType_String (Type_ c);
  Some (Name c +:+ " " +:+ t +:+ clause " ALIAS " (Alias c) "" +:+ clause " DEFAULT " (Default c) ""
          +:+ clause " MATERIALIZED " (Materialized c) "" +:+ clause " CODEC(" (Codec c) ")"
          +:+ clause " TTL " (TTL c) "" +:+ settings_clause (Settings c)
          +:+ clause " COMMENT " (Comment c) "").
