(* ===== verification/Operations.v ===== *)
(** * Schema operations

    src/cmd/siginsightschemamigrator/schema_migrator: op.go, column_operations.go,
    table.go, table_operations.go, index_operations.go, projection_operations.go,
    data_operations.go and static_ddl_operation.go. The interface [Operation] of op.go is
    the class [OperationMethods], with one instance per struct; [Operation] is the sum of
    the structs, for the code that holds and type-asserts interface values. *)
From S2P Require Import Prelude ColumnTypes.

(** The interface of op.go. [ToSQL] is [None] when it panics. *)
Class OperationMethods (A : Type) := {
  ToSQL : A → option string;
  IsMutation : A → bool;
  IsIdempotent : A → bool;
  IsLightweight : A → bool;
  ForceMigrate : A → bool;
}.

(** The start of every statement that alters a table. *)
Definition alter_table (database table : string) : string :=
  "ALTER TABLE " +:+ database +:+ "." +:+ table.

(** ** Columns (column_operations.go) *)

Record AlterTableAddColumn := {
  ac_Database : string; ac_Table : string; ac_Column : Column; ac_After : option Column;
}.
Definition AlterTableAddColumn_ToSQL (a : AlterTableAddColumn) : option string :=
  c ← Column_ToSQL (ac_Column a);
  Some (alter_table (ac_Database a) (ac_Table a) +:+ " ADD COLUMN IF NOT EXISTS " +:+ c
          +:+ match ac_After a with Some c => " AFTER " +:+ Name c | None => "" end).
#[export] Instance AlterTableAddColumn_methods : OperationMethods AlterTableAddColumn := {|
  ToSQL := AlterTableAddColumn_ToSQL;
  ForceMigrate _ := false;
  IsMutation _ := false;
  IsIdempotent _ := true;
  IsLightweight _ := true;
|}.

Record AlterTableDropColumn := { dc_Database : string; dc_Table : string; dc_Column : Column }.
Definition AlterTableDropColumn_ToSQL (a : AlterTableDropColumn) : option string :=
  Some (alter_table (dc_Database a) (dc_Table a) +:+ " DROP COLUMN IF EXISTS "
          +:+ Name (dc_Column a)).
#[export] Instance AlterTableDropColumn_methods : OperationMethods AlterTableDropColumn := {|
  ToSQL := AlterTableDropColumn_ToSQL;
  IsMutation _ := true;
  IsIdempotent _ := true;
  IsLightweight _ := true;
  ForceMigrate _ := false;
|}.

Record AlterTableModifyColumn := { mc_Database : string; mc_Table : string; mc_Column : Column }.
(** [a.Column.Type != nil || a.Column.TTL != ""]. *)
Definition rewrites_data (c : Column) : bool :=
  bool_decide (is_Some (Type_ c)) || negb (bool_decide (TTL c = "")).
Definition AlterTableModifyColumn_ToSQL (a : AlterTableModifyColumn) : option string :=
  let c := mc_Column a in
  t ← match Type_ c with
      | Some t => s ← ColumnType_String t; Some (" " +:+ s)
      | None => Some ""
      end;
  Some (alter_table (mc_Database a) (mc_Table a) +:+ " MODIFY COLUMN IF EXISTS " +:+ Name c
          +:+ t +:+ clause " DEFAULT " (Default c) "" +:+ clause " CODEC(" (Codec c) ")"
          +:+ clause " TTL " (TTL c) "" +:+ settings_clause (Settings c)).
#[export] Instance AlterTableModifyColumn_methods : OperationMethods AlterTableModifyColumn := {|
  ToSQL := AlterTableModifyColumn_ToSQL;
  IsMutation a := rewrites_data (mc_Column a);
  IsIdempotent _ := true;
  IsLightweight a := rewrites_data (mc_Column a);
  ForceMigrate _ := false;
|}.

Record AlterTableModifyColumnRemove := {
  mr_Database : string; mr_Table : string; mr_Column : Column; mr_Property : ColumnProperty;
}.
Definition AlterTableModifyColumnRemove_ToSQL (a : AlterTableModifyColumnRemove) : option string :=
  Some (alter_table (mr_Database a) (mr_Table a) +:+ " MODIFY COLUMN IF EXISTS "
          +:+ Name (mr_Column a) +:+ " REMOVE " +:+ ColumnProperty_string (mr_Property a)).
#[export] Instance AlterTableModifyColumnRemove_methods :
  OperationMethods AlterTableModifyColumnRemove := {|
  ToSQL := AlterTableModifyColumnRemove_ToSQL;
  ForceMigrate _ := false;
  IsMutation _ := false;
  IsIdempotent _ := false;
  IsLightweight _ := true;
|}.

Record AlterTableModifyColumnModifySettings := {
  ms_Database : string; ms_Table : string; ms_Column : Column; ms_Settings : ColumnSettings;
}.
Definition AlterTableModifyColumnModifySettings_ToSQL
    (a : AlterTableModifyColumnModifySettings) : option string :=
  Some (alter_table (ms_Database a) (ms_Table a) +:+ " MODIFY COLUMN IF EXISTS "
          +:+ Name (ms_Column a) +:+ " MODIFY SETTING " +:+ ColumnSettings_String (ms_Settings a)).
#[export] Instance AlterTableModifyColumnModifySettings_methods :
  OperationMethods AlterTableModifyColumnModifySettings := {|
  ToSQL := AlterTableModifyColumnModifySettings_ToSQL;
  IsMutation _ := false;
  IsIdempotent _ := true;
  IsLightweight _ := true;
  ForceMigrate _ := false;
|}.

Record AlterTableModifyColumnResetSettings := {
  rs_Database : string; rs_Table : string; rs_Column : Column; rs_Settings : ColumnSettings;
}.
Definition AlterTableModifyColumnResetSettings_ToSQL
    (a : AlterTableModifyColumnResetSettings) : option string :=
  Some (alter_table (rs_Database a) (rs_Table a) +:+ " MODIFY COLUMN IF EXISTS "
          +:+ Name (rs_Column a) +:+ " RESET SETTING "
          +:+ join ", " (ColumnSettings_Names (rs_Settings a))).
#[export] Instance AlterTableModifyColumnResetSettings_methods :
  OperationMethods AlterTableModifyColumnResetSettings := {|
  ToSQL := AlterTableModifyColumnResetSettings_ToSQL;
  IsMutation _ := false;
  IsIdempotent _ := true;
  IsLightweight _ := true;
  ForceMigrate _ := false;
|}.

(** The clause [IN PARTITION] of the first non-empty name. *)
Definition in_partition (partition partitionID : string) : string :=
  match partition with
  | EmptyString => clause " IN PARTITION " partitionID ""
  | _ => " IN PARTITION " +:+ partition
  end.

Record AlterTableMaterializeColumn := {
  mt_Database : string; mt_Table : string; mt_Column : Column;
  mt_Partition : string; mt_PartitionID : string;
}.
Definition AlterTableMaterializeColumn_ToSQL (a : AlterTableMaterializeColumn) : option string :=
  Some (alter_table (mt_Database a) (mt_Table a) +:+ " MATERIALIZE COLUMN "
          +:+ Name (mt_Column a) +:+ in_partition (mt_Partition a) (mt_PartitionID a)).
#[export] Instance AlterTableMaterializeColumn_methods :
  OperationMethods AlterTableMaterializeColumn := {|
  ToSQL := AlterTableMaterializeColumn_ToSQL;
  IsMutation _ := true;
  IsIdempotent _ := true;
  IsLightweight _ := false;
  ForceMigrate _ := false;
|}.

(** ** Table engines (table.go) *)

Record TableSetting := { ts_Name : string; ts_Value : string }.
Definition TableSetting_ToSQL (t : TableSetting) : string := ts_Name t +:+ " = " +:+ ts_Value t.
Definition TableSettings : Type := list TableSetting.
Definition TableSettings_ToSQL (t : TableSettings) : string := join ", " (TableSetting_ToSQL <$> t).

Record MergeTree := {
  OrderBy : string; PrimaryKey : string; PartitionBy : string; SampleBy : string;
  mt_TTL : string; mt_Settings : TableSettings;
}.
Definition EngineParams (m : MergeTree) : string :=
  clause " PRIMARY KEY " (PrimaryKey m) "" +:+ clause " ORDER BY " (OrderBy m) ""
  +:+ clause " PARTITION BY " (PartitionBy m) "" +:+ clause " SAMPLE BY " (SampleBy m) ""
  +:+ clause " TTL " (mt_TTL m) ""
  +:+ match mt_Settings m with [] => "" | s => " SETTINGS " +:+ TableSettings_ToSQL s end.

(** The implementations of [TableEngine], each embedding a [MergeTree]. *)
Inductive TableEngine :=
| MergeTreeEngine (m : MergeTree)
| ReplacingMergeTree (m : MergeTree)
| AggregatingMergeTree (m : MergeTree)
| SummingMergeTree (m : MergeTree).

Definition EngineType (e : TableEngine) : string :=
  match e with
  | MergeTreeEngine _ => "MergeTree"
  | ReplacingMergeTree _ => "ReplacingMergeTree"
  | AggregatingMergeTree _ => "AggregatingMergeTree"
  | SummingMergeTree _ => "SummingMergeTree"
  end.
Definition engine_tree (e : TableEngine) : MergeTree :=
  match e with
  | MergeTreeEngine m | ReplacingMergeTree m | AggregatingMergeTree m | SummingMergeTree m => m
  end.
Definition TableEngine_ToSQL (e : TableEngine) : string :=
  EngineType e +:+ EngineParams (engine_tree e).

(** ** Indexes (index_operations.go) *)

Record Index := {
  i_Name : string; i_Expression : string; i_Type : string; i_Granularity : Z;
}.
Definition Index_ToSQL (i : Index) : string :=
  "INDEX " +:+ i_Name i +:+ " " +:+ i_Expression i +:+ " TYPE " +:+ i_Type i
  +:+ " GRANULARITY " +:+ pretty (i_Granularity i).

Record AlterTableAddIndex := { ai_Database : string; ai_Table : string; ai_Index : Index }.
Definition AlterTableAddIndex_ToSQL (a : AlterTableAddIndex) : option string :=
  let i := ai_Index a in
  Some (alter_table (ai_Database a) (ai_Table a) +:+ " ADD INDEX IF NOT EXISTS " +:+ i_Name i
          +:+ " " +:+ i_Expression i +:+ " TYPE " +:+ i_Type i
          +:+ " GRANULARITY " +:+ pretty (i_Granularity i)).
#[export] Instance AlterTableAddIndex_methods : OperationMethods AlterTableAddIndex := {|
  ToSQL := AlterTableAddIndex_ToSQL;
  IsMutation _ := false;
  IsIdempotent _ := true;
  IsLightweight _ := true;
  ForceMigrate _ := false;
|}.

Record AlterTableDropIndex := { di_Database : string; di_Table : string; di_Index : Index }.
Definition AlterTableDropIndex_ToSQL (a : AlterTableDropIndex) : option string :=
  Some (alter_table (di_Database a) (di_Table a) +:+ " DROP INDEX IF EXISTS "
          +:+ i_Name (di_Index a)).
#[export] Instance AlterTableDropIndex_methods : OperationMethods AlterTableDropIndex := {|
  ToSQL := AlterTableDropIndex_ToSQL;
  IsMutation _ := true;
  IsIdempotent _ := true;
  IsLightweight _ := true;
  ForceMigrate _ := false;
|}.

Record AlterTableMaterializeIndex := {
  mi_Database : string; mi_Table : string; mi_Index : Index; mi_Partition : string;
}.
Definition AlterTableMaterializeIndex_ToSQL (a : AlterTableMaterializeIndex) : option string :=
  Some (alter_table (mi_Database a) (mi_Table a) +:+ " MATERIALIZE INDEX IF EXISTS "
          +:+ i_Name (mi_Index a) +:+ clause " IN PARTITION " (mi_Partition a) "").
#[export] Instance AlterTableMaterializeIndex_methods :
  OperationMethods AlterTableMaterializeIndex := {|
  ToSQL := AlterTableMaterializeIndex_ToSQL;
  IsMutation _ := true;
  IsIdempotent _ := true;
  IsLightweight _ := false;
  ForceMigrate _ := false;
|}.

Record AlterTableClearIndex := {
  ci_Database : string; ci_Table : string; ci_Index : Index; ci_Partition : string;
}.
Definition AlterTableClearIndex_ToSQL (a : AlterTableClearIndex) : option string :=
  Some (alter_table (ci_Database a) (ci_Table a) +:+ " CLEAR INDEX IF EXISTS "
          +:+ i_Name (ci_Index a) +:+ clause " IN PARTITION " (ci_Partition a) "").
#[export] Instance AlterTableClearIndex_methods : OperationMethods AlterTableClearIndex := {|
  ToSQL := AlterTableClearIndex_ToSQL;
  IsMutation _ := true;
  IsIdempotent _ := true;
  IsLightweight _ := false;
  ForceMigrate _ := false;
|}.

(** ** Tables, views and projections (table_operations.go, projection_operations.go) *)

Record Projection := { pr_Name : string; pr_Query : string }.
Definition Projection_ToSQL (p : Projection) : string :=
  "PROJECTION " +:+ pr_Name p +:+ " (" +:+ pr_Query p +:+ ")".

Record CreateTableOperation := {
  ct_Database : string; ct_Table : string; ct_Columns : list Column; ct_Indexes : list Index;
  ct_Projections : list Projection; ct_Engine : option TableEngine;
}.
(** The loops that append each element after a comma. *)
Definition appended (l : list string) : string := foldr (λ s acc, ", " +:+ s +:+ acc) "" l.
Definition CreateTableOperation_ToSQL (c : CreateTableOperation) : option string :=
  columnParts ← mapM Column_ToSQL (ct_Columns c);
  engine ← ct_Engine c;
  Some ("CREATE TABLE IF NOT EXISTS " +:+ ct_Database c +:+ "." +:+ ct_Table c +:+ " ("
          +:+ join ", " columnParts +:+ appended (Index_ToSQL <$> ct_Indexes c)
          +:+ appended (Projection_ToSQL <$> ct_Projections c) +:+ ")" +:+ " ENGINE = "
          +:+ TableEngine_ToSQL engine).
#[export] Instance CreateTableOperation_methods : OperationMethods CreateTableOperation := {|
  ToSQL := CreateTableOperation_ToSQL;
  IsMutation _ := false;
  IsIdempotent _ := true;
  IsLightweight _ := true;
  ForceMigrate _ := false;
|}.

Record DropTableOperation := {
  dt_Database : string; dt_Table : string; dt_Settings : TableSettings;
}.
Definition DropTableOperation_ToSQL (d : DropTableOperation) : option string :=
  Some ("DROP TABLE IF EXISTS " +:+ dt_Database d +:+ "." +:+ dt_Table d
          +:+ match dt_Settings d with [] => "" | s => " SETTINGS " +:+ TableSettings_ToSQL s end).
#[export] Instance DropTableOperation_methods : OperationMethods DropTableOperation := {|
  ToSQL := DropTableOperation_ToSQL;
  IsMutation _ := true;
  IsIdempotent _ := true;
  IsLightweight _ := true;
  ForceMigrate _ := false;
|}.

Record CreateMaterializedViewOperation := {
  cv_Database : string; cv_ViewName : string; cv_DestTable : string;
  cv_Columns : list Column; cv_Query : string;
}.
Definition CreateMaterializedViewOperation_ToSQL (c : CreateMaterializedViewOperation) :
    option string :=
  columns ← match cv_Columns c with
            | [] => Some ""
            | cs => parts ← mapM Column_ToSQL cs; Some (" (" +:+ join ", " parts +:+ ")")
            end;
  Some ("CREATE MATERIALIZED VIEW IF NOT EXISTS " +:+ cv_Database c +:+ "." +:+ cv_ViewName c
          +:+ " TO " +:+ cv_Database c +:+ "." +:+ cv_DestTable c +:+ columns
          +:+ " AS " +:+ cv_Query c).
#[export] Instance CreateMaterializedViewOperation_methods :
  OperationMethods CreateMaterializedViewOperation := {|
  ToSQL := CreateMaterializedViewOperation_ToSQL;
  IsMutation _ := false;
  IsIdempotent _ := true;
  IsLightweight _ := true;
  ForceMigrate _ := false;
|}.

Record ModifyQueryMaterializedViewOperation := {
  mq_Database : string; mq_ViewName : string; mq_Query : string;
}.
Definition ModifyQueryMaterializedViewOperation_ToSQL
    (c : ModifyQueryMaterializedViewOperation) : option string :=
  Some (alter_table (mq_Database c) (mq_ViewName c) +:+ " MODIFY QUERY " +:+ mq_Query c).
#[export] Instance ModifyQueryMaterializedViewOperation_methods :
  OperationMethods ModifyQueryMaterializedViewOperation := {|
  ToSQL := ModifyQueryMaterializedViewOperation_ToSQL;
  IsMutation _ := false;
  IsIdempotent _ := true;
  IsLightweight _ := true;
  ForceMigrate _ := false;
|}.

Record TruncateTableOperation := { tt_Database : string; tt_Table : string }.
Definition TruncateTableOperation_ToSQL (d : TruncateTableOperation) : option string :=
  Some ("TRUNCATE TABLE IF EXISTS " +:+ tt_Database d +:+ "." +:+ tt_Table d).
#[export] Instance TruncateTableOperation_methods : OperationMethods TruncateTableOperation := {|
  ToSQL := TruncateTableOperation_ToSQL;
  IsMutation _ := true;
  IsIdempotent _ := true;
  IsLightweight _ := false;
  ForceMigrate _ := false;
|}.

Record ModifyTTLSettings := { MaterializeTTLAfterModify : bool }.
Record AlterTableModifyTTL := {
  mtt_Database : string; mtt_Table : string; mtt_TTL : string; mtt_Settings : ModifyTTLSettings;
}.
Definition AlterTableModifyTTL_ToSQL (a : AlterTableModifyTTL) : option string :=
  Some (alter_table (mtt_Database a) (mtt_Table a) +:+ " MODIFY TTL " +:+ mtt_TTL a
          +:+ if MaterializeTTLAfterModify (mtt_Settings a) then ""
              else " SETTINGS materialize_ttl_after_modify = 0").
#[export] Instance AlterTableModifyTTL_methods : OperationMethods AlterTableModifyTTL := {|
  ToSQL := AlterTableModifyTTL_ToSQL;
  IsMutation a := MaterializeTTLAfterModify (mtt_Settings a);
  IsIdempotent _ := true;
  IsLightweight a := negb (MaterializeTTLAfterModify (mtt_Settings a));
  ForceMigrate _ := false;
|}.

Record AlterTableDropTTL := { dtt_Database : string; dtt_Table : string }.
Definition AlterTableDropTTL_ToSQL (a : AlterTableDropTTL) : option string :=
  Some (alter_table (dtt_Database a) (dtt_Table a) +:+ " REMOVE TTL").
#[export] Instance AlterTableDropTTL_methods : OperationMethods AlterTableDropTTL := {|
  ToSQL := AlterTableDropTTL_ToSQL;
  IsMutation _ := false;
  IsIdempotent _ := true;
  IsLightweight _ := true;
  ForceMigrate _ := false;
|}.

Record AlterTableModifySettings := {
  mse_Database : string; mse_Table : string; mse_Settings : TableSettings;
}.
Definition AlterTableModifySettings_ToSQL (a : AlterTableModifySettings) : option string :=
  Some (alter_table (mse_Database a) (mse_Table a) +:+ " MODIFY SETTING "
          +:+ TableSettings_ToSQL (mse_Settings a)).
#[export] Instance AlterTableModifySettings_methods :
  OperationMethods AlterTableModifySettings := {|
  ToSQL := AlterTableModifySettings_ToSQL;
  IsMutation _ := false;
  IsIdempotent _ := true;
  IsLightweight _ := true;
  ForceMigrate _ := false;
|}.

Record CreateProjectionOperation := {
  cp_Database : string; cp_Table : string; cp_Projection : Projection;
}.
Definition CreateProjectionOperation_ToSQL (c : CreateProjectionOperation) : option string :=
  Some (alter_table (cp_Database c) (cp_Table c) +:+ " ADD PROJECTION IF NOT EXISTS "
          +:+ pr_Name (cp_Projection c) +:+ " (" +:+ pr_Query (cp_Projection c) +:+ ")").
#[export] Instance CreateProjectionOperation_methods :
  OperationMethods CreateProjectionOperation := {|
  ToSQL := CreateProjectionOperation_ToSQL;
  IsMutation _ := false;
  IsIdempotent _ := true;
  IsLightweight _ := true;
  ForceMigrate _ := false;
|}.

Record DropProjectionOperation := {
  dp_Database : string; dp_Table : string; dp_Projection : Projection;
}.
Definition DropProjectionOperation_ToSQL (d : DropProjectionOperation) : option string :=
  Some (alter_table (dp_Database d) (dp_Table d) +:+ " DROP PROJECTION IF EXISTS "
          +:+ pr_Name (dp_Projection d)).
#[export] Instance DropProjectionOperation_methods : OperationMethods DropProjectionOperation := {|
  ToSQL := DropProjectionOperation_ToSQL;
  IsMutation _ := false;
  IsIdempotent _ := true;
  IsLightweight _ := true;
  ForceMigrate _ := false;
|}.

(** ** Data and static DDL (data_operations.go, static_ddl_operation.go) *)

Record InsertIntoTable := {
  it_Database : string; it_Table : string; it_Columns : list string;
  it_LightWeight : bool; it_Synchronous : bool; it_Values : string;
}.
Definition InsertIntoTable_ToSQL (i : InsertIntoTable) : option string :=
  Some ("INSERT INTO " +:+ it_Database i +:+ "." +:+ it_Table i
          +:+ match it_Columns i with [] => "" | cs => " (" +:+ join ", " cs +:+ ")" end
          +:+ " VALUES " +:+ it_Values i).
#[export] Instance InsertIntoTable_methods : OperationMethods InsertIntoTable := {|
  ToSQL := InsertIntoTable_ToSQL;
  IsMutation _ := false;
  IsIdempotent _ := false;
  IsLightweight i := it_LightWeight i;
  ForceMigrate i := it_Synchronous i;
|}.

Record StaticDDLOperation := { sd_Database : string; sd_Table : string; sd_Query : string }.
#[export] Instance StaticDDLOperation_methods : OperationMethods StaticDDLOperation := {|
  ToSQL s := Some (sd_Query s);
  IsMutation _ := false;
  IsIdempotent _ := true;
  IsLightweight _ := true;
  ForceMigrate _ := false;
|}.

(** ** Interface values *)

Inductive Operation :=
| OpAddColumn (a : AlterTableAddColumn)
| OpDropColumn (a : AlterTableDropColumn)
| OpModifyColumn (a : AlterTableModifyColumn)
| OpModifyColumnRemove (a : AlterTableModifyColumnRemove)
| OpModifyColumnModifySettings (a : AlterTableModifyColumnModifySettings)
| OpModifyColumnResetSettings (a : AlterTableModifyColumnResetSettings)
| OpMaterializeColumn (a : AlterTableMaterializeColumn)
| OpAddIndex (a : AlterTableAddIndex)
| OpDropIndex (a : AlterTableDropIndex)
| OpMaterializeIndex (a : AlterTableMaterializeIndex)
| OpClearIndex (a : AlterTableClearIndex)
| OpCreateTable (a : CreateTableOperation)
| OpDropTable (a : DropTableOperation)
| OpCreateMaterializedView (a : CreateMaterializedViewOperation)
| OpModifyQueryMaterializedView (a : ModifyQueryMaterializedViewOperation)
| OpTruncateTable (a : TruncateTableOperation)
| OpModifyTTL (a : AlterTableModifyTTL)
| OpDropTTL (a : AlterTableDropTTL)
| OpModifySettings (a : AlterTableModifySettings)
| OpCreateProjection (a : CreateProjectionOperation)
| OpDropProjection (a : DropProjectionOperation)
| OpInsertIntoTable (a : InsertIntoTable)
| OpStaticDDL (a : StaticDDLOperation).

(** Dynamic dispatch: the methods of the struct an interface value holds. *)
Definition dispatch {R} (f : ∀ A, OperationMethods A → A → R) (o : Operation) : R :=
  match o with
  | OpAddColumn a => f _ _ a
  | OpDropColumn a => f _ _ a
  | OpModifyColumn a => f _ _ a
  | OpModifyColumnRemove a => f _ _ a
  | OpModifyColumnModifySettings a => f _ _ a
  | OpModifyColumnResetSettings a => f _ _ a
  | OpMaterializeColumn a => f _ _ a
  | OpAddIndex a => f _ _ a
  | OpDropIndex a => f _ _ a
  | OpMaterializeIndex a => f _ _ a
  | OpClearIndex a => f _ _ a
  | OpCreateTable a => f _ _ a
  | OpDropTable a => f _ _ a
  | OpCreateMaterializedView a => f _ _ a
  | OpModifyQueryMaterializedView a => f _ _ a
  | OpTruncateTable a => f _ _ a
  | OpModifyTTL a => f _ _ a
  | OpDropTTL a => f _ _ a
  | OpModifySettings a => f _ _ a
  | OpCreateProjection a => f _ _ a
  | OpDropProjection a => f _ _ a
  | OpInsertIntoTable a => f _ _ a
  | OpStaticDDL a => f _ _ a
  end.

#[export] Instance Operation_methods : OperationMethods Operation := {|
  ToSQL := dispatch (λ A _, ToSQL);
  IsMutation := dispatch (λ A _, IsMutation);
  IsIdempotent := dispatch (λ A _, IsIdempotent);
  IsLightweight := dispatch (λ A _, IsLightweight);
  ForceMigrate := dispatch (λ A _, ForceMigrate);
|}.

(** ** Phases (post_baseline_migrations.go, manager.go) *)

Definition isSyncOperation (o : Operation) : bool :=
  ForceMigrate o || (negb (IsMutation o) && IsIdempotent o && IsLightweight o).

Definition IsAsyncOperation (o : Operation) : bool :=
  if ForceMigrate o then false
  else if negb (IsMutation o) && IsIdempotent o && IsLightweight o then false
  else true.

Lemma IsAsyncOperation_spec o : IsAsyncOperation o = negb (isSyncOperation o).
Proof. unfold IsAsyncOperation, isSyncOperation. by destruct (ForceMigrate o), (_ && _). Qed.

(** ** What runs before the collector starts *)

(** The phase of an operation: the sync phase takes the additive changes of metadata,
    a TTL change that does not rewrite the data, and the inserts marked synchronous. Every
    change of a column's definition is left to the async phase, whether it rewrites data
    or not, because [IsLightweight] of it repeats [IsMutation]. *)
Theorem sync_operations o :
  IsAsyncOperation o = negb (isSyncOperation o)
  ∧ isSyncOperation o =
    match o with
    | OpAddColumn _ | OpModifyColumnModifySettings _ | OpModifyColumnResetSettings _
    | OpAddIndex _ | OpCreateTable _ | OpCreateMaterializedView _
    | OpModifyQueryMaterializedView _ | OpDropTTL _ | OpModifySettings _
    | OpCreateProjection _ | OpDropProjection _ | OpStaticDDL _ => true
    | OpModifyTTL a => negb (MaterializeTTLAfterModify (mtt_Settings a))
    | OpInsertIntoTable i => it_Synchronous i
    | OpDropColumn _ | OpModifyColumn _ | OpModifyColumnRemove _ | OpMaterializeColumn _
    | OpDropIndex _ | OpMaterializeIndex _ | OpClearIndex _ | OpDropTable _
    | OpTruncateTable _ => false
    end.
Proof.
  split; [apply IsAsyncOperation_spec|].
  destruct o as [| |a| | | | | | | | | | | | | |a| | | | |i|]; try reflexivity;
    unfold isSyncOperation; cbn.
  - by destruct (rewrites_data (mc_Column a)).
  - by destruct (MaterializeTTLAfterModify (mtt_Settings a)).
  - by destruct (it_Synchronous i).
Qed.
