(* ===== verification/JsonIndex.v ===== *)
(** * Index expressions on JSON sub-columns

    src/cmd/siginsightschemamigrator/schema_migrator/index_operations.go: the expression
    of an index on a JSON path and its inverse. The two regular expressions of the inverse
    are a literal, the shortest sub-expression, and a tail anchored at the end of the text;
    they are written out as that search. *)
From S2P Require Import Prelude Keycheck.

Definition IndexTypeTokenBF : string := "tokenbf_v1".
Definition IndexTypeNGramBF : string := "ngrambf_v1".
Definition IndexTypeMinMax : string := "minmax".

Definition backtick : ascii := "`".
Definition quote : ascii := "'".
Definition newline : ascii := ascii_of_nat 10.

Definition JSONSubColumnIndexName (column path typeColumn index : string) : string :=
  "`" +:+ (column +:+ "." +:+ path) +:+ "_" +:+ typeColumn +:+ "_" +:+ index +:+ "`".

(** [strings.Trim(part, "`")]. *)
Fixpoint trim_left (c : ascii) (l : list ascii) : list ascii :=
  match l with [] => [] | d :: l' => if Ascii.eqb d c then trim_left c l' else l end.
Definition trim (c : ascii) (l : list ascii) : list ascii :=
  reverse (trim_left c (reverse (trim_left c l))).

Definition quote_part (part : list ascii) : list ascii :=
  if IsBacktickRequired (of_bytes part) then [backtick] ++ trim backtick part ++ [backtick]
  else part.

Fixpoint join_bytes (c : ascii) (l : list (list ascii)) : list ascii :=
  match l with
  | [] => []
  | [s] => s
  | s :: l => s ++ c :: join_bytes c l
  end.

(** The quoted parts of the path, joined again. *)
Definition format_parts (expr : string) : string :=
  of_bytes (join_bytes "." (quote_part <$> split_bytes "." (bytes expr))).

Definition jsonSubColumnIndexExprFormat (expr typeColumn : string) : string :=
  if bool_decide (typeColumn = "String")
  then "lower(assumeNotNull(dynamicElement(" +:+ format_parts expr +:+ ", '" +:+ typeColumn +:+ "')))"
  else "assumeNotNull(dynamicElement(" +:+ format_parts expr +:+ ", '" +:+ typeColumn +:+ "'))".

Definition JSONSubColumnIndexExpr (column path typeColumn : string) : string :=
  jsonSubColumnIndexExprFormat (column +:+ "." +:+ path) typeColumn.

Definition JSONPathsIndexExpr (column : string) : string := "JSONAllPaths(" +:+ column +:+ ")".
Definition JSONFullTextIndexExpr (column : string) : string :=
  "lower(toString(" +:+ column +:+ "))".

(** ** The inverse *)

(** [\s*] of RE2: tab, newline, form feed, carriage return and space. *)
Definition is_space (c : ascii) : bool :=
  bool_decide (byte_val c ∈ [9; 10; 12; 13; 32]).
Fixpoint skip_spaces (l : list ascii) : list ascii :=
  match l with [] => [] | c :: l' => if is_space c then skip_spaces l' else l end.

(** [[^']+] and what follows it. *)
Fixpoint until_quote (l : list ascii) : list ascii * list ascii :=
  match l with
  | [] => ([], [])
  | c :: l' => if Ascii.eqb c quote then ([], l)
               else let '(t, r) := until_quote l' in (c :: t, r)
  end.

(** The end of both patterns: a comma, spaces, the quoted type, three parentheses. *)
Definition closing : list ascii := bytes "')))".
Definition match_tail (l : list ascii) : option (list ascii) :=
  match l with
  | c :: l =>
      if Ascii.eqb c "," then
        match skip_spaces l with
        | q :: l =>
            if Ascii.eqb q quote then
              match until_quote l with
              | (c :: t, r) => if bool_decide (r = closing) then Some (c :: t) else None
              | _ => None
              end
            else None
        | [] => None
        end
      else None
  | [] => None
  end.

(** [.+?] followed by the tail: the shortest expression, which has no newline. *)
Fixpoint shortest (expr l : list ascii) : option (list ascii * list ascii) :=
  match l with
  | [] => None
  | c :: l =>
      if Ascii.eqb c newline then None
      else match match_tail l with
           | Some t => Some (expr ++ [c], t)
           | None => shortest (expr ++ [c]) l
           end
  end.

Fixpoint strip (pre l : list ascii) : option (list ascii) :=
  match pre, l with
  | [], _ => Some l
  | p :: pre, c :: l => if Ascii.eqb p c then strip pre l else None
  | _, [] => None
  end.

(** The leftmost match of a literal followed by the expression and the tail. *)
Fixpoint search (pre l : list ascii) : option (list ascii * list ascii) :=
  match rest ← strip pre l; shortest [] rest with
  | Some m => Some m
  | None => match l with [] => None | _ :: l => search pre l end
  end.

Definition jsonStringSubColumnIndexExprRe : list ascii → option (list ascii * list ascii) :=
  search (bytes "lower(assumeNotNull(dynamicElement(").
Definition jsonNumberSubColumnIndexExprRe : list ascii → option (list ascii * list ascii) :=
  search (bytes "assumeNotNull(dynamicElement(").

Definition UnfoldJSONSubColumnIndexExpr (expr : string) : result string (string * string) :=
  match jsonStringSubColumnIndexExprRe (bytes expr) with
  | Some (e, t) => Ok (of_bytes e, of_bytes t)
  | None =>
      match jsonNumberSubColumnIndexExprRe (bytes expr) with
      | Some (e, t) => Ok (of_bytes e, of_bytes t)
      | None => Err ("invalid expression: " +:+ expr)
      end
  end.

(** ** Lemmas *)

Lemma strip_app pre l : strip pre (pre ++ l) = Some l.
Proof. induction pre as [|c pre IH]; simpl; [done|]. by rewrite Ascii.eqb_refl. Qed.

Lemma strip_Some pre l r : strip pre l = Some r → l = pre ++ r.
Proof.
  revert l. induction pre as [|p pre IH]; intros [|c l] H; simplify_eq/=; try done.
  destruct (Ascii.eqb p c) eqn:E; [|done]. apply Ascii.eqb_eq in E as ->. by rewrite (IH l).
Qed.

Lemma skip_spaces_suffix l : ∃ k, l = k ++ skip_spaces l.
Proof.
  induction l as [|c l [k IH]]; [by exists []|]. simpl. destruct (is_space c); [|by exists []].
  exists (c :: k). by rewrite IH at 1.
Qed.

Lemma until_quote_app l : l = (until_quote l).1 ++ (until_quote l).2.
Proof.
  induction l as [|c l IH]; [done|]. simpl. destruct (Ascii.eqb c quote); [done|].
  destruct (until_quote l). simpl in *. by rewrite IH.
Qed.

(** What the tail matches ends with the quote and three parentheses. *)
Lemma match_tail_suffix l t : match_tail l = Some t → ∃ k, l = k ++ closing.
Proof.
  unfold match_tail. destruct l as [|c l]; [done|]. destruct (Ascii.eqb c ","); [|done].
  destruct (skip_spaces_suffix l) as [k Hk]. destruct (skip_spaces l) as [|q l']; [done|].
  destruct (Ascii.eqb q quote); [|done]. pose proof (until_quote_app l') as Hu.
  destruct (until_quote l') as [[|c' t'] r]; [done|]. case_bool_decide; [|done]. subst r.
  intros _. exists (c :: k ++ q :: c' :: t'). rewrite Hk, Hu. simpl. by rewrite <- (assoc_L (++)).
Qed.

Lemma shortest_suffix e l m : shortest e l = Some m → ∃ k, l = k ++ closing.
Proof.
  revert e. induction l as [|c l IH]; intros e H; simplify_eq/=.
  destruct (Ascii.eqb c newline); [done|]. destruct (match_tail l) eqn:E.
  - apply match_tail_suffix in E as [k ->]. by exists (c :: k).
  - apply IH in H as [k ->]. by exists (c :: k).
Qed.

Lemma search_suffix pre l m : search pre l = Some m → ∃ k, l = k ++ closing.
Proof.
  induction l as [|c l IH]; cbn [search].
  - destruct (strip pre []) eqn:E; cbn; [|done]. destruct (shortest [] l) eqn:E'; [|done].
    intros _. apply strip_Some in E. apply shortest_suffix in E' as [k ->]. exists (pre ++ k).
    by rewrite <- (assoc_L (++)).
  - destruct (strip pre (c :: l)) eqn:E; cbn.
    + destruct (shortest [] l0) eqn:E'.
      * intros _. apply strip_Some in E. apply shortest_suffix in E' as [k ->]. exists (pre ++ k).
        by rewrite E, (assoc_L (++)).
      * intros H. apply IH in H as [k ->]. by exists (c :: k).
    + intros H. apply IH in H as [k ->]. by exists (c :: k).
Qed.

(** An expression that stops short of the real tail is never matched. *)
Lemma match_tail_early rest t :
  rest ≠ [] → match_tail (rest ++ bytes ", '" ++ t ++ closing) = None.
Proof.
  intros Hne. unfold match_tail. destruct rest as [|c rest]; [done|]. simpl.
  destruct (Ascii.eqb c ","); [|done]. clear Hne c.
  induction rest as [|c rest IH]; [done|]. simpl. destruct (is_space c); [done|].
  clear IH. destruct (Ascii.eqb c quote) eqn:Eq; [|done].
  assert (∀ r, (until_quote (r ++ bytes ", '" ++ t ++ closing)).2 ≠ closing) as H.
  { induction r as [|d r IH]; simpl.
    - intros Hc. apply (f_equal length) in Hc. cbn in Hc. rewrite length_app in Hc.
      cbn in Hc. lia.
    - destruct (Ascii.eqb d quote) eqn:Ed.
      + simpl. intros Hc. apply (f_equal length) in Hc. simpl in Hc.
        rewrite length_app in Hc. cbn in Hc. rewrite length_app in Hc. cbn in Hc. lia.
      + by destruct (until_quote (r ++ _)). }
  specialize (H rest). destruct (until_quote (rest ++ _)) as [[|x u] r]; [done|].
  by rewrite bool_decide_eq_false_2.
Qed.

Lemma match_tail_real t :
  t ≠ [] → quote ∉ t → match_tail (bytes ", '" ++ t ++ closing) = Some t.
Proof.
  intros Hne Ht. unfold match_tail. simpl.
  assert (until_quote (t ++ closing) = (t, closing)) as ->.
  { clear Hne. induction t as [|c t IH]; [done|]. apply not_elem_of_cons in Ht as [Hc Ht].
    simpl. rewrite (proj2 (Ascii.eqb_neq c quote)) by congruence. by rewrite IH. }
  destruct t; [done|]. by rewrite bool_decide_eq_true_2.
Qed.

Lemma shortest_real e t acc :
  e ≠ [] → newline ∉ e → t ≠ [] → quote ∉ t →
  shortest acc (e ++ bytes ", '" ++ t ++ closing) = Some (acc ++ e, t).
Proof.
  intros He Hn Ht Hq. revert acc He Hn. induction e as [|c e IH]; intros acc He Hn; [done|].
  apply not_elem_of_cons in Hn as [Hc Hn]. cbn [app shortest].
  rewrite (proj2 (Ascii.eqb_neq c newline)) by congruence.
  destruct e as [|d e].
  - cbn [app]. by rewrite match_tail_real.
  - rewrite match_tail_early by done. rewrite IH by done. by rewrite <- (assoc_L (++)).
Qed.

Lemma search_here pre l m :
  (rest ← strip pre l; shortest [] rest) = Some m → search pre l = Some m.
Proof. destruct l; cbn [search]; by intros ->. Qed.

(** Quoting the parts of a path adds backticks and nothing else. *)
Lemma join_split c l : join_bytes c (split_bytes c l) = l.
Proof.
  induction l as [|d l IH]; [done|]. simpl. pose proof (split_bytes_nonempty c l).
  destruct (Ascii.eqb d c) eqn:E.
  - apply Ascii.eqb_eq in E as ->. destruct (split_bytes c l); [done|]. by rewrite <- IH.
  - destruct (split_bytes c l) as [|s [|s' ss]]; [done|..]; simpl in *; by rewrite IH.
Qed.

Lemma elem_of_join x c segs :
  x ∈ join_bytes c segs → x = c ∨ ∃ s, s ∈ segs ∧ x ∈ s.
Proof.
  induction segs as [|s segs IH]; [by intros ?%not_elem_of_nil|]. destruct segs as [|s' segs].
  - intros Hx. right. exists s. split; [by left|done].
  - intros [Hx|[->|Hx]%elem_of_cons]%elem_of_app; [right; exists s; split; [by left|done]|by left|].
    destruct (IH Hx) as [->|(s0 & Hs & H0)]; [by left|]. right. exists s0. split; [by right|done].
Qed.

Lemma elem_of_segment x c l s : s ∈ split_bytes c l → x ∈ s → x ∈ l.
Proof.
  revert s. induction l as [|d l IH]; intros s Hs Hx; simpl in Hs.
  - apply list_elem_of_singleton in Hs as ->. by apply not_elem_of_nil in Hx.
  - destruct (Ascii.eqb d c).
    + apply elem_of_cons in Hs as [->|Hs]; [by apply not_elem_of_nil in Hx|]. right. by eapply IH.
    + destruct (split_bytes c l) as [|s0 ss] eqn:E.
      * by apply list_elem_of_singleton in Hs as ->; apply list_elem_of_singleton in Hx as ->; left.
      * apply elem_of_cons in Hs as [->|Hs].
        -- apply elem_of_cons in Hx as [->|Hx]; [by left|]. right. eapply IH; [by left|done].
        -- right. eapply IH; [by right|done].
Qed.

Lemma elem_of_trim_left x c l : x ∈ trim_left c l → x ∈ l.
Proof.
  induction l as [|d l IH]; [done|]. simpl. destruct (Ascii.eqb d c); [|done].
  intros Hx. right. by apply IH.
Qed.

Lemma format_parts_no_newline expr :
  newline ∉ bytes expr → newline ∉ bytes (format_parts expr).
Proof.
  intros Hn Hx. apply Hn. unfold format_parts in Hx. rewrite bytes_of_bytes in Hx.
  apply elem_of_join in Hx as [Hx|(s & Hs & Hx)]; [done|].
  apply list_elem_of_fmap in Hs as (part & -> & Hp). apply (elem_of_segment _ "." _ part Hp).
  unfold quote_part in Hx. destruct (IsBacktickRequired _); [|done].
  rewrite !elem_of_app, !list_elem_of_singleton in Hx. destruct Hx as [?|[Hx|?]]; [done| |done].
  unfold trim in Hx. apply elem_of_reverse, elem_of_trim_left, elem_of_reverse, elem_of_trim_left in Hx.
  done.
Qed.

(** ** Properties *)

(** Round trip of string paths: for a column and a path without newline, unfolding the
    index expression of a String sub-column gives back the quoted path and the type. *)
Theorem unfold_string_index column path
    (Hcol : newline ∉ bytes column) (Hpath : newline ∉ bytes path) :
  UnfoldJSONSubColumnIndexExpr (JSONSubColumnIndexExpr column path "String")
  = Ok (format_parts (column +:+ "." +:+ path), "String").
Proof.
  set (f := format_parts (column +:+ "." +:+ path)).
  assert (newline ∉ bytes f) as Hn.
  { apply format_parts_no_newline. rewrite !bytes_app, !not_elem_of_app. split; [done|].
    split; [|done]. intros Hx. by apply list_elem_of_singleton in Hx. }
  assert (bytes f ≠ []) as Hne.
  { subst f. unfold format_parts. rewrite bytes_of_bytes, bytes_app. intros H0.
    assert (∃ s1 s2 ss, split_bytes "." (bytes column ++ bytes ("." +:+ path)) = s1 :: s2 :: ss) as
      (s1 & s2 & ss & E).
    { rewrite bytes_app. cbn. clear Hcol Hn H0. induction (bytes column) as [|c l IH]; cbn.
      - pose proof (split_bytes_nonempty "." (bytes path)).
        destruct (split_bytes "." (bytes path)); [done|eauto].
      - destruct IH as (s1 & s2 & ss & ->). destruct (Ascii.eqb c "."); eauto. }
    rewrite E in H0. cbn in H0. by destruct (quote_part s1). }
  unfold JSONSubColumnIndexExpr, jsonSubColumnIndexExprFormat, UnfoldJSONSubColumnIndexExpr.
  rewrite bool_decide_eq_true_2 by done. fold f. unfold jsonStringSubColumnIndexExprRe.
  rewrite (search_here _ _ (bytes f, bytes "String")); [by rewrite !of_bytes_bytes|].
  rewrite !bytes_app, strip_app. cbn [mbind option_bind].
  apply (shortest_real (bytes f) (bytes "String") []); [done|done|done|].
  intros Hq. vm_compute in Hq. set_solver.
Qed.

(** No index expression of any other type can be unfolded: both patterns end with three
    parentheses and these expressions end with two. *)
Theorem unfold_other_index_fails column path typeColumn (Htype : typeColumn ≠ "String") :
  UnfoldJSONSubColumnIndexExpr (JSONSubColumnIndexExpr column path typeColumn)
  = Err ("invalid expression: " +:+ JSONSubColumnIndexExpr column path typeColumn).
Proof.
  assert (∀ k, bytes (JSONSubColumnIndexExpr column path typeColumn) ≠ k ++ closing) as Hend.
  { intros k Hk. unfold JSONSubColumnIndexExpr, jsonSubColumnIndexExprFormat in Hk.
    rewrite bool_decide_eq_false_2, !bytes_app, !(assoc_L (++)) in Hk by done.
    apply (f_equal reverse) in Hk. rewrite !reverse_app in Hk. by cbn in Hk. }
  unfold UnfoldJSONSubColumnIndexExpr, jsonStringSubColumnIndexExprRe, jsonNumberSubColumnIndexExprRe.
  destruct (search _ _) as [m|] eqn:E; [by apply search_suffix in E as [k ?%Hend]|].
  destruct (search (bytes "assumeNotNull(dynamicElement(") _) as [m|] eqn:E'; [|done].
  by apply search_suffix in E' as [k ?%Hend].
Qed.

Lemma unfold_string_index_witness :
  UnfoldJSONSubColumnIndexExpr (JSONSubColumnIndexExpr "body" "order-id.x" "String")
  = Ok ("body.`order-id`.x", "String").
Proof. apply (unfold_string_index "body" "order-id.x"); vm_compute; set_solver. Defined.

Lemma unfold_other_index_fails_witness :
  UnfoldJSONSubColumnIndexExpr (JSONSubColumnIndexExpr "body" "x" "Int64")
  = Err "invalid expression: assumeNotNull(dynamicElement(body.x, 'Int64'))".
Proof. apply (unfold_other_index_fails "body" "x" "Int64"). discriminate. Defined.
