(* ===== verification/Registry.v ===== *)
(** * Migration registry and baseline states

    src/cmd/siginsightschemamigrator/schema_migrator: the registry of post-baseline
    migrations and its validation (post_baseline_migrations.go), the baseline
    specifications (canonical_baseline.go), and the classification of what is found in a
    database (baseline.go, baseline_report.go). The registries are package variables: they
    are fields of the class [Registry], and the theorems hold for any content. *)
From S2P Require Import Prelude ColumnTypes Operations.

(** ** Migrations (manager.go) *)

Definition SigInsightLogsDB : string := "siginsight_logs".
Definition SigInsightMetricsDB : string := "siginsight_metrics".
Definition SigInsightTracesDB : string := "siginsight_traces".
Definition SigInsightMetadataDB : string := "siginsight_metadata".
Definition SigInsightAnalyticsDB : string := "siginsight_analytics".
Definition SigInsightMeterDB : string := "siginsight_meter".
Definition Databases : list string :=
  [SigInsightTracesDB; SigInsightMetricsDB; SigInsightLogsDB; SigInsightMetadataDB;
   SigInsightAnalyticsDB; SigInsightMeterDB].

Definition InProgressStatus : string := "in-progress".
Definition FinishedStatus : string := "finished".
Definition FailedStatus : string := "failed".

(** An element of [UpItems] is an interface value, [None] when nil. *)
Record SchemaMigrationRecord := {
  MigrationID : Z;
  UpItems : list (option Operation);
  DownItems : list (option Operation);
}.

Record PostBaselineMigration := {
  pb_Database : string;
  pb_Migration : SchemaMigrationRecord;
}.
Definition pb_id (m : PostBaselineMigration) : Z := MigrationID (pb_Migration m).

Class Registry := {
  PostBaselineSyncMigrations : list PostBaselineMigration;
  PostBaselineAsyncMigrations : list PostBaselineMigration;
  canonicalBaselineDDLOperations : gmap string (list (option Operation));
}.

Definition isKnownDatabase (database : string) : bool := bool_decide (database ∈ Databases).

(** A method call on a nil element panics. *)
Fixpoint IsSync_items (items : list (option Operation)) : option bool :=
  match items with
  | [] => Some false
  | None :: _ => None
  | Some item :: items => if isSyncOperation item then Some true else IsSync_items items
  end.
Definition IsSync (m : SchemaMigrationRecord) : option bool := IsSync_items (UpItems m).
Fixpoint IsAsync_items (items : list (option Operation)) : option bool :=
  match items with
  | [] => Some false
  | None :: _ => None
  | Some item :: items => if IsAsyncOperation item then Some true else IsAsync_items items
  end.
Definition IsAsync (m : SchemaMigrationRecord) : option bool := IsAsync_items (UpItems m).

(** ** Validation (post_baseline_migrations.go) *)

Definition PostBaselineMigrationIDStart : Z := 2000.

Inductive phase := sync_phase | async_phase.
#[export] Instance phase_eq_dec : EqDecision phase.
Proof. solve_decision. Defined.

Inductive registry_error :=
| UnknownDatabase (p : phase) (id : Z) (db : string)
| IDTooSmall (p : phase) (db : string) (id : Z)
| NoOperations (p : phase) (db : string) (id : Z)
| HasDownOperations (p : phase) (db : string) (id : Z)
| NotIncreasing (p : phase) (db : string) (index : Z)
| DuplicateID (db : string) (id : Z)
| NilOperation (p : phase) (db : string) (id : Z) (operationIndex : Z)
| OtherPhase (p : phase) (db : string) (id : Z) (operationIndex : Z).

(** The maps [seen] and [last] of the closure; a missing key reads as nil, or 0. *)
Definition seen_in (seen : gmap string (gset Z)) (db : string) : gset Z := default ∅ (seen !! db).
Definition last_in (last : gmap string Z) (db : string) : Z := default 0 (last !! db).

Fixpoint validate_operations (p : phase) (db : string) (id i : Z) (ops : list (option Operation)) :
    result registry_error unit :=
  match ops with
  | [] => Ok tt
  | None :: _ => Err (NilOperation p db id i)
  | Some o :: ops =>
      if Bool.eqb (bool_decide (p = sync_phase)) (isSyncOperation o)
      then validate_operations p db id (i + 1) ops
      else Err (OtherPhase p db id i)
  end.

Fixpoint validate (p : phase) (index : Z) (items : list PostBaselineMigration)
    (seen : gmap string (gset Z)) (last : gmap string Z) :
    result registry_error (gmap string (gset Z)) :=
  match items with
  | [] => Ok seen
  | item :: items =>
      let db := pb_Database item in
      let migration := pb_Migration item in
      let id := MigrationID migration in
      if negb (isKnownDatabase db) then Err (UnknownDatabase p id db)
      else if id <? PostBaselineMigrationIDStart then Err (IDTooSmall p db id)
      else if bool_decide (UpItems migration = []) then Err (NoOperations p db id)
      else if negb (bool_decide (DownItems migration = [])) then Err (HasDownOperations p db id)
      else
        let previous := last_in last db in
        if negb (previous =? 0) && (id <=? previous) then Err (NotIncreasing p db index)
        else
          let last := <[db := id]> last in
          if bool_decide (id ∈ seen_in seen db) then Err (DuplicateID db id)
          else
            let seen := <[db := {[ id ]} ∪ seen_in seen db]> seen in
            _ ← validate_operations p db id 0 (UpItems migration);
            validate p (index + 1) items seen last
  end.

Definition validatePostBaselineMigrations (syncMigrations asyncMigrations : list PostBaselineMigration) :
    result registry_error unit :=
  seen ← validate sync_phase 0 syncMigrations ∅ ∅;
  _ ← validate async_phase 0 asyncMigrations seen ∅;
  Ok tt.

Definition ValidatePostBaselineMigrations `{Registry} : result registry_error unit :=
  validatePostBaselineMigrations PostBaselineSyncMigrations PostBaselineAsyncMigrations.

(** [slices.Index]. *)
Fixpoint index_of (l : list string) (s : string) : Z :=
  match l with
  | [] => -1
  | x :: l => if bool_decide (x = s) then 0
              else let i := index_of l s in if i =? -1 then -1 else i + 1
  end.

(** The comparison of the sort, negative when [a] comes first. *)
Definition migration_cmp (a b : PostBaselineMigration) : Z :=
  if negb (bool_decide (pb_Database a = pb_Database b))
  then index_of Databases (pb_Database a) - index_of Databases (pb_Database b)
  else if pb_id a <? pb_id b then -1
  else if pb_id b <? pb_id a then 1
  else 0.

Definition allPostBaselineMigrations `{Registry} : list PostBaselineMigration :=
  sort_slice (λ a b, migration_cmp a b <? 0)
    (PostBaselineSyncMigrations ++ PostBaselineAsyncMigrations).

Definition postBaselineMigrationIDs `{Registry} (database : string) : list Z :=
  pb_id <$> filter (λ m, pb_Database m = database) allPostBaselineMigrations.

(** ** Baselines (canonical_baseline.go, baseline.go) *)

Definition CanonicalBaselineMigrationID : Z := 999.

Record BaselineSpec := {
  bs_Database : string;
  AllowedMigrationIDs : list Z;
  BaselineMigration : SchemaMigrationRecord;
}.

Definition CanonicalBaselineSpecs `{Registry} : list BaselineSpec :=
  (λ database,
     {| bs_Database := database;
        AllowedMigrationIDs := postBaselineMigrationIDs database;
        BaselineMigration :=
          {| MigrationID := CanonicalBaselineMigrationID;
             UpItems := default [] (canonicalBaselineDDLOperations !! database);
             DownItems := [] |} |}) <$> Databases.

Inductive BaselineState := BaselineStateEmpty | BaselineStateComplete | BaselineStateIncompatible.
#[export] Instance BaselineState_eq_dec : EqDecision BaselineState.
Proof. solve_decision. Defined.

Record BaselineSnapshot := {
  DomainTableCount : Z;
  LegacyTrackingTableCount : Z;
  TrackingTableCount : Z;
  MigrationStatuses : gmap Z string;
}.

Record BaselineInspection := {
  bi_Database : string;
  State : BaselineState;
  bi_DomainTableCount : Z;
  bi_LegacyTrackingTableCount : Z;
  bi_TrackingTableCount : Z;
  MissingBaselineMarker : bool;
  NonFinishedMigrationIDs : list Z;
  UnexpectedMigrationIDs : list Z;
}.

Definition migrationIDSet (migrations : list Z) : gset Z := list_to_set migrations.

(** The loop over the statuses, whose order does not matter after the sorts. *)
Definition unexpected_ids (allowed : gset Z) (statuses : list (Z * string)) : list Z :=
  (filter (λ s : Z * string, s.1 ∉ allowed) statuses).*1.
Definition non_finished_ids (allowed : gset Z) (statuses : list (Z * string)) : list Z :=
  (filter (λ s : Z * string, s.1 ∈ allowed ∧ s.2 ≠ FinishedStatus) statuses).*1.

Definition ClassifyBaselineState (spec : BaselineSpec) (snapshot : BaselineSnapshot) :
    BaselineInspection :=
  let inspection state missing nonFinished unexpected :=
    {| bi_Database := bs_Database spec; State := state;
       bi_DomainTableCount := DomainTableCount snapshot;
       bi_LegacyTrackingTableCount := LegacyTrackingTableCount snapshot;
       bi_TrackingTableCount := TrackingTableCount snapshot;
       MissingBaselineMarker := missing; NonFinishedMigrationIDs := nonFinished;
       UnexpectedMigrationIDs := unexpected |} in
  if (DomainTableCount snapshot =? 0) && (LegacyTrackingTableCount snapshot =? 0)
     && bool_decide (MigrationStatuses snapshot = ∅)
  then inspection BaselineStateEmpty false [] []
  else
    let baseline := MigrationID (BaselineMigration spec) in
    let allowed := {[ baseline ]} ∪ migrationIDSet (AllowedMigrationIDs spec) in
    let statuses := map_to_list (MigrationStatuses snapshot) in
    let missing := negb (bool_decide
                           (default "" (MigrationStatuses snapshot !! baseline) = FinishedStatus)) in
    let nonFinished := sort_slice Z.ltb (non_finished_ids allowed statuses) in
    let unexpected := sort_slice Z.ltb (unexpected_ids allowed statuses) in
    if (LegacyTrackingTableCount snapshot =? 0) && (TrackingTableCount snapshot =? 1)
       && negb missing && bool_decide (nonFinished = []) && bool_decide (unexpected = [])
    then inspection BaselineStateComplete missing nonFinished unexpected
    else inspection BaselineStateIncompatible missing nonFinished unexpected.

Record BaselineReport := { br_State : BaselineState; br_Databases : list BaselineInspection }.

Definition CombineBaselineInspections (inspections : list BaselineInspection) : BaselineReport :=
  let report state := {| br_State := state; br_Databases := inspections |} in
  match inspections with
  | [] => report BaselineStateIncompatible
  | _ =>
      if forallb (λ i, bool_decide (State i = BaselineStateEmpty)) inspections
      then report BaselineStateEmpty
      else if forallb (λ i, bool_decide (State i = BaselineStateComplete)) inspections
      then report BaselineStateComplete
      else report BaselineStateIncompatible
  end.

(** ** The validated registries *)

Definition same_db (a b : PostBaselineMigration) : Prop := pb_Database a = pb_Database b.

(** One item in its phase. *)
Record item_ok (p : phase) (m : PostBaselineMigration) : Prop := {
  io_db : pb_Database m ∈ Databases;
  io_id : PostBaselineMigrationIDStart ≤ pb_id m;
  io_up : UpItems (pb_Migration m) ≠ [];
  io_down : DownItems (pb_Migration m) = [];
  io_ops o : o ∈ UpItems (pb_Migration m) →
    ∃ op, o = Some op ∧ isSyncOperation op = bool_decide (p = sync_phase);
}.

(** Ids increase along the items of one database. *)
Definition increasing : list PostBaselineMigration → Prop :=
  StronglySorted (λ a b, same_db a b → pb_id a < pb_id b).

(** What the validation promises of both registries. *)
Record registry_ok (syncs asyncs : list PostBaselineMigration) : Prop := {
  ro_sync : Forall (item_ok sync_phase) syncs;
  ro_async : Forall (item_ok async_phase) asyncs;
  ro_sync_inc : increasing syncs;
  ro_async_inc : increasing asyncs;
  ro_disjoint a b : a ∈ syncs → b ∈ asyncs → same_db a b → pb_id a ≠ pb_id b;
}.

Lemma validate_operations_ok p db id i ops :
  validate_operations p db id i ops = Ok tt ↔
  ∀ o, o ∈ ops → ∃ op, o = Some op ∧ isSyncOperation op = bool_decide (p = sync_phase).
Proof.
  revert i. induction ops as [|[o|] ops IH]; intros i; simpl.
  - split; [intros _ o ?%not_elem_of_nil; done|done].
  - destruct (Bool.eqb _ _) eqn:E.
    + apply eqb_prop in E. rewrite IH. split.
      * intros H o' [->|Ho]%elem_of_cons; [by exists o|by apply H].
      * intros H o' Ho. apply H. by right.
    + split; [done|]. intros H. destruct (H (Some o)) as (op & [= <-] & Ho); [by left|].
      rewrite Ho in E. by rewrite eqb_reflx in E.
  - split; [done|]. intros H. destruct (H None) as (op & ? & _); [by left|done].
Qed.

Lemma seen_in_insert seen db id db' :
  seen_in (<[db := {[ id ]} ∪ seen_in seen db]> seen) db'
  = if decide (db' = db) then {[ id ]} ∪ seen_in seen db else seen_in seen db'.
Proof.
  unfold seen_in at 1. case_decide as Hd; [subst; by rewrite lookup_insert_eq|].
  by rewrite lookup_insert_ne.
Qed.
Lemma last_in_insert last db id db' :
  last_in (<[db := id]> last) db' = if decide (db' = db) then id else last_in last db'.
Proof.
  unfold last_in at 1. case_decide as Hd; [subst; by rewrite lookup_insert_eq|].
  by rewrite lookup_insert_ne.
Qed.

(** The conditions the loop checks on one item. *)
Definition item_new (seen : gmap string (gset Z)) (last : gmap string Z)
    (m : PostBaselineMigration) : Prop :=
  last_in last (pb_Database m) < pb_id m ∧ pb_id m ∉ seen_in seen (pb_Database m).

Lemma validate_step p index m ms seen last :
  (∀ db, 0 ≤ last_in last db) →
  is_ok (validate p index (m :: ms) seen last) = true ↔
  item_ok p m ∧ item_new seen last m
  ∧ is_ok (validate p (index + 1) ms
             (<[pb_Database m := {[ pb_id m ]} ∪ seen_in seen (pb_Database m)]> seen)
             (<[pb_Database m := pb_id m]> last)) = true.
Proof.
  intros Hlast. cbn [validate]. unfold isKnownDatabase, item_new, pb_id.
  specialize (Hlast (pb_Database m)).
  destruct m as [db [id up down]]. simpl in *.
  case_bool_decide as Hdb; simpl; [|split; [done|by intros [[] _]]].
  destruct (Z.ltb_spec id PostBaselineMigrationIDStart) as [Hid|Hid].
  { split; [done|]. intros [[] _]. unfold pb_id in *. simpl in *. lia. }
  case_bool_decide as Hup; [split; [done|by intros [[] _]]|].
  case_bool_decide as Hdown; simpl; [|split; [done|by intros [[] _]]].
  assert (negb (last_in last db =? 0) && (id <=? last_in last db)
          = negb (bool_decide (last_in last db < id))) as ->.
  { unfold PostBaselineMigrationIDStart in Hid. case_bool_decide;
      destruct (Z.eqb_spec (last_in last db) 0), (Z.leb_spec id (last_in last db)); simpl; lia. }
  case_bool_decide as Hlt; simpl; [|split; [done|by intros (_ & [? _] & _)]].
  case_bool_decide as Hseen; [split; [done|by intros (_ & [_ ?] & _)]|].
  destruct (validate_operations p db id 0 up) as [[]|e] eqn:Eops; cbn.
  - pose proof (proj1 (validate_operations_ok p db id 0 up) Eops) as Hops. split; [|by intros (_ & _ & ?)].
    intros Hr. split; [by split|done].
  - split; [done|]. intros ([_ _ _ _ Ho] & _). simpl in Ho.
    pose proof (proj2 (validate_operations_ok p db id 0 up) Ho). congruence.
Qed.

(** The loop accepts exactly the well-formed items that are new with respect to its maps,
    and returns the ids seen. *)
Lemma validate_ok p index ms seen last :
  (∀ db, 0 ≤ last_in last db) →
  is_ok (validate p index ms seen last) = true ↔
  Forall (item_ok p) ms ∧ increasing ms ∧ Forall (item_new seen last) ms.
Proof.
  revert index seen last. induction ms as [|m ms IH]; intros index seen last Hlast.
  { split; [|done]. intros _. repeat constructor. }
  rewrite validate_step by done.
  rewrite !Forall_cons. unfold increasing. split.
  - intros (Hm & Hn & Hr). rewrite IH in Hr.
    2: { intros db. rewrite last_in_insert. case_decide; [|done].
         destruct Hm. unfold PostBaselineMigrationIDStart in *. lia. }
    destruct Hr as (Hms & Hi & Hnew). split; [done|]. split.
    + constructor; [done|]. eapply Forall_impl; [exact Hnew|]. intros m' [Hl _] Hs.
      rewrite last_in_insert in Hl. by rewrite decide_True in Hl.
    + split; [done|]. apply Forall_forall. intros m' Hin. rewrite Forall_forall in Hnew.
      destruct (Hnew m' Hin) as [Hl Hs]. rewrite last_in_insert in Hl. rewrite seen_in_insert in Hs.
      destruct Hn as [Hn1 Hn2]. case_decide as Hd; [|done]. split; [rewrite Hd; lia|].
      rewrite Hd. set_solver.
  - intros ([Hm Hms] & Hi & Hn & Hnew). apply StronglySorted_inv in Hi as [Hi Hlt].
    split; [done|]. split; [done|]. apply IH.
    { intros db. rewrite last_in_insert. case_decide; [|done].
      destruct Hm. unfold PostBaselineMigrationIDStart in *. lia. }
    split; [done|]. split; [done|]. apply Forall_forall. intros m' Hin.
    rewrite Forall_forall in Hnew, Hlt. specialize (Hlt m' Hin). destruct (Hnew m' Hin) as [Hl Hs].
    unfold item_new. rewrite last_in_insert, seen_in_insert. case_decide as Hd; [|done].
    unfold same_db in Hlt. rewrite <- Hd in *. specialize (Hlt eq_refl).
    split; [lia|]. rewrite elem_of_union, elem_of_singleton. intros [?|?]; [lia|done].
Qed.

Lemma validate_seen p index ms seen last seen' :
  validate p index ms seen last = Ok seen' →
  ∀ db id, id ∈ seen_in seen' db ↔
    id ∈ seen_in seen db ∨ ∃ m, m ∈ ms ∧ pb_Database m = db ∧ pb_id m = id.
Proof.
  revert index seen last. induction ms as [|m ms IH]; intros index seen last H db id.
  { simpl in H. simplify_eq. set_solver. }
  cbn [validate] in H. destruct (negb _); [done|]. destruct (_ <? _); [done|].
  destruct (bool_decide (UpItems _ = [])); [done|]. destruct (negb _); [done|].
  destruct (_ && _); [done|]. destruct (bool_decide _); [done|].
  apply result_bind_Ok in H as (_ & _ & H). rewrite (IH _ _ _ H), seen_in_insert.
  fold (pb_id m). case_decide as Hd.
  - subst db. rewrite elem_of_union, elem_of_singleton. split.
    + intros [[->|?]|(m' & ? & ? & ?)]; [right; exists m; split; [by left|done]|by left|].
      right. exists m'. split; [by right|done].
    + intros [?|(m' & [->|?]%elem_of_cons & ? & <-)]; [left; by right|left; by left|right; by exists m'].
  - split.
    + intros [?|(m' & ? & ? & ?)]; [by left|]. right. exists m'. split; [by right|done].
    + intros [?|(m' & [->|?]%elem_of_cons & ? & <-)]; [by left|congruence|right; by exists m'].
Qed.

Lemma item_new_empty p m : item_ok p m → item_new ∅ ∅ m.
Proof.
  intros []. unfold item_new, last_in, seen_in. rewrite !lookup_empty. simpl.
  unfold PostBaselineMigrationIDStart in *. set_solver by lia.
Qed.

(** The validation accepts exactly the well-formed registries: known databases, ids
    from 2000 on and increasing per database within each phase, no id used twice for a
    database across the phases, operations present, non-nil and of the phase they are
    registered in, and no rollback. *)
Theorem validation_spec syncs asyncs :
  validatePostBaselineMigrations syncs asyncs = Ok tt ↔ registry_ok syncs asyncs.
Proof.
  unfold validatePostBaselineMigrations.
  assert (∀ last : gmap string Z, last = ∅ → ∀ db, 0 ≤ last_in last db) as Hl.
  { intros ? -> db. unfold last_in. by rewrite lookup_empty. }
  pose proof (validate_ok sync_phase 0 syncs ∅ ∅ (Hl ∅ eq_refl)) as Hs.
  destruct (validate sync_phase 0 syncs ∅ ∅) as [seen|e] eqn:Es; cbn in Hs |- *.
  - pose proof (validate_ok async_phase 0 asyncs seen ∅ (Hl ∅ eq_refl)) as Ha.
    pose proof (validate_seen _ _ _ _ _ _ Es) as Hseen.
    apply proj1 in Hs. destruct (Hs eq_refl) as (Hs1 & Hs2 & _).
    assert (Forall (item_new seen ∅) asyncs ↔ Forall (λ b, 0 < pb_id b) asyncs ∧
      ∀ a b, a ∈ syncs → b ∈ asyncs → same_db a b → pb_id a ≠ pb_id b) as Hnew.
    { rewrite !Forall_forall. unfold item_new, last_in. split.
      - intros H. split; [intros b Hb; by destruct (H b Hb) as [? _]|].
        intros a b Hin Hb Hsame Heq. destruct (H b Hb) as [_ Hb']. apply Hb', Hseen. right.
        by exists a.
      - intros [H1 H2] b Hb. split; [by apply H1|]. intros [Hin|(a & Hin & Hsame & Heq)]%Hseen.
        + unfold seen_in in Hin. rewrite lookup_empty in Hin. by apply not_elem_of_empty in Hin.
        + by apply (H2 a b Hin Hb). }
    destruct (validate async_phase 0 asyncs seen ∅) as [seen'|e]; cbn.
    + split; [|done]. intros _. destruct (proj1 Ha eq_refl) as (Ha1 & Ha2 & Ha3).
      apply Hnew in Ha3 as [_ Ha3]. by split.
    + split; [done|]. intros [_ Ha1 _ Ha2 Hd].
      assert (is_ok (@Err registry_error (gmap string (gset Z)) e) = true); [|done].
      apply Ha. split; [done|]. split; [done|].
      apply Hnew. split; [|done]. eapply Forall_impl; [exact Ha1|]. intros b [].
      unfold PostBaselineMigrationIDStart in *. lia.
  - split; [done|]. intros [H1 _ H2 _ _].
    assert (is_ok (@Err registry_error (gmap string (gset Z)) e) = true); [|done].
    apply Hs. split; [done|]. split; [done|].
    eapply Forall_impl; [exact H1|]. intros m. apply item_new_empty.
Qed.

(** ** Baseline states *)

Lemma sort_slice_nil {A} (less : A → A → bool) l : sort_slice less l = [] ↔ l = [].
Proof.
  split; [|by intros ->]. intros H. apply Permutation_nil. by rewrite <- (sort_slice_perm less l), H.
Qed.

Lemma elem_of_sort {A} (less : A → A → bool) l x : x ∈ sort_slice less l ↔ x ∈ l.
Proof. by rewrite (sort_slice_perm less l). Qed.

Lemma elem_of_ids (P : Z * string → Prop) `{∀ s, Decision (P s)} (m : gmap Z string) id :
  id ∈ (filter P (map_to_list m)).*1 ↔ ∃ st, m !! id = Some st ∧ P (id, st).
Proof.
  rewrite list_elem_of_fmap. split.
  - intros ([id' st] & -> & [Hp Hin]%list_elem_of_filter). apply elem_of_map_to_list in Hin.
    by exists st.
  - intros (st & Hm & Hp). exists (id, st). split; [done|]. apply list_elem_of_filter.
    by rewrite elem_of_map_to_list.
Qed.

Lemma nil_no_elem {A} (l : list A) : l = [] ↔ ∀ x, x ∉ l.
Proof.
  split; [intros -> x; apply not_elem_of_nil|]. destruct l as [|x l]; [done|].
  intros H. exfalso. apply (H x). by left.
Qed.

Definition allowed_id (spec : BaselineSpec) (id : Z) : Prop :=
  id = MigrationID (BaselineMigration spec) ∨ id ∈ AllowedMigrationIDs spec.

(** A database is empty exactly when it has no domain table, no legacy tracking table and
    no migration record. It is complete exactly when there is no legacy tracking, exactly one
    tracking table, the baseline is marked finished, and every recorded migration is finished
    and is the baseline or an allowed one. Outside the empty state the report lists exactly
    the unexpected and the unfinished migrations. *)
Lemma classify_states spec snapshot :
  let i := ClassifyBaselineState spec snapshot in
  let statuses := MigrationStatuses snapshot in
  (State i = BaselineStateEmpty ↔
     DomainTableCount snapshot = 0 ∧ LegacyTrackingTableCount snapshot = 0 ∧ statuses = ∅)
  ∧ (State i = BaselineStateComplete ↔
       LegacyTrackingTableCount snapshot = 0 ∧ TrackingTableCount snapshot = 1
       ∧ statuses !! MigrationID (BaselineMigration spec) = Some FinishedStatus
       ∧ ∀ id st, statuses !! id = Some st → st = FinishedStatus ∧ allowed_id spec id)
  ∧ (State i ≠ BaselineStateEmpty →
       (∀ id, id ∈ UnexpectedMigrationIDs i ↔ ∃ st, statuses !! id = Some st ∧ ¬ allowed_id spec id)
       ∧ (∀ id, id ∈ NonFinishedMigrationIDs i ↔
            ∃ st, statuses !! id = Some st ∧ allowed_id spec id ∧ st ≠ FinishedStatus)).
Proof.
  destruct snapshot as [dom leg trk m]. cbn zeta. unfold ClassifyBaselineState. cbn.
  set (allowed := {[ MigrationID (BaselineMigration spec) ]} ∪ migrationIDSet (AllowedMigrationIDs spec)).
  assert (∀ id, id ∈ allowed ↔ allowed_id spec id) as Hal.
  { intros id. subst allowed. unfold allowed_id, migrationIDSet. set_solver. }
  assert (∀ id, id ∈ sort_slice Z.ltb (unexpected_ids allowed (map_to_list m)) ↔
          ∃ st, m !! id = Some st ∧ ¬ allowed_id spec id) as Hu.
  { intros id. rewrite elem_of_sort. unfold unexpected_ids. rewrite elem_of_ids. cbn.
    by setoid_rewrite Hal. }
  assert (∀ id, id ∈ sort_slice Z.ltb (non_finished_ids allowed (map_to_list m)) ↔
          ∃ st, m !! id = Some st ∧ allowed_id spec id ∧ st ≠ FinishedStatus) as Hn.
  { intros id. rewrite elem_of_sort. unfold non_finished_ids. rewrite elem_of_ids. cbn.
    by setoid_rewrite Hal. }
  destruct ((dom =? 0) && (leg =? 0) && bool_decide (m = ∅)) eqn:Ee.
  - rewrite !andb_true_iff, !Z.eqb_eq, bool_decide_eq_true in Ee. destruct Ee as [[-> ->] ->].
    split; [done|]. split; [|done]. split; [done|]. intros (_ & _ & H & _). by rewrite lookup_empty in H.
  - assert (¬ (dom = 0 ∧ leg = 0 ∧ m = ∅)) as Hne.
    { intros (-> & -> & ->). by rewrite bool_decide_eq_true_2 in Ee. }
    match goal with |- context [if ?b then _ else _] => destruct b eqn:Ec end; cbn.
    + split; [by split; [|intros ?]|]. split; [|done]. split; [intros _|done].
      rewrite !andb_true_iff, !Z.eqb_eq, negb_involutive, !bool_decide_eq_true in Ec.
      destruct Ec as [[[[-> ->] Hm] Hnf] Hun]. split; [done|]. split; [done|]. split.
      * by destruct (m !! MigrationID (BaselineMigration spec)); simpl in Hm; simplify_eq.
      * intros id st Hid. rewrite nil_no_elem in Hnf, Hun.
        assert (allowed_id spec id) as Ha.
        { apply Hal. destruct (decide (id ∈ allowed)) as [|Hx]; [done|]. exfalso.
          apply (Hun id), Hu. exists st. by rewrite <- Hal. }
        split; [|done]. destruct (decide (st = FinishedStatus)); [done|]. exfalso.
        apply (Hnf id), Hn. by exists st.
    + split; [by split; [|intros ?]|]. split; [|done]. split; [done|].
      intros (-> & -> & Hm & Hall). exfalso.
      rewrite Hm in Ec. cbn in Ec.
      rewrite (bool_decide_eq_true_2 (FinishedStatus = FinishedStatus)) in Ec by done.
      rewrite (bool_decide_eq_true_2 (sort_slice Z.ltb (non_finished_ids _ _) = [])) in Ec.
      2: { apply nil_no_elem. intros id (st & Hid & _ & Hst)%Hn. by destruct (Hall id st Hid). }
      rewrite bool_decide_eq_true_2 in Ec; [done|].
      apply nil_no_elem. intros id (st & Hid & Hna)%Hu. by destruct (Hall id st Hid).
Qed.

(** The report of all databases is empty (complete) exactly when there is at least one
    database and every one of them is empty (complete). *)
Lemma combine_states l :
  (br_State (CombineBaselineInspections l) = BaselineStateEmpty ↔
     l ≠ [] ∧ ∀ i, i ∈ l → State i = BaselineStateEmpty)
  ∧ (br_State (CombineBaselineInspections l) = BaselineStateComplete ↔
       l ≠ [] ∧ ∀ i, i ∈ l → State i = BaselineStateComplete)
  ∧ br_Databases (CombineBaselineInspections l) = l.
Proof.
  assert (∀ s, forallb (λ i, bool_decide (State i = s)) l = true ↔ ∀ i, i ∈ l → State i = s) as Hf.
  { intros s. rewrite forallb_forall. split; intros H i Hi.
    - by eapply bool_decide_eq_true, H, list_elem_of_In.
    - by apply bool_decide_eq_true, H, list_elem_of_In. }
  unfold CombineBaselineInspections. destruct l as [|i l]; [naive_solver|].
  assert (i ∈ i :: l) as Hi by by left.
  assert (∀ s s', s ≠ s' → (∀ j, j ∈ i :: l → State j = s) → ¬ ∀ j, j ∈ i :: l → State j = s') as Hx.
  { intros s s' Hne H1 H2. apply Hne. by rewrite <- (H1 i Hi), (H2 i Hi). }
  destruct (forallb (λ j, bool_decide (State j = BaselineStateEmpty)) (i :: l)) eqn:Ee.
  { pose proof (proj1 (Hf BaselineStateEmpty) Ee) as He.
    pose proof (Hx BaselineStateEmpty BaselineStateComplete ltac:(done) He). cbn. naive_solver. }
  assert (¬ ∀ j, j ∈ i :: l → State j = BaselineStateEmpty) as He.
  { intros H%(Hf BaselineStateEmpty). congruence. }
  destruct (forallb (λ j, bool_decide (State j = BaselineStateComplete)) (i :: l)) eqn:Ec.
  { pose proof (proj1 (Hf BaselineStateComplete) Ec). cbn. naive_solver. }
  assert (¬ ∀ j, j ∈ i :: l → State j = BaselineStateComplete) as Hc.
  { intros H%(Hf BaselineStateComplete). congruence. }
  cbn. naive_solver.
Qed.

(** ** What a report says *)

Definition empty_database (snapshot : BaselineSnapshot) : Prop :=
  DomainTableCount snapshot = 0 ∧ LegacyTrackingTableCount snapshot = 0
  ∧ MigrationStatuses snapshot = ∅.
Definition complete_database (spec : BaselineSpec) (snapshot : BaselineSnapshot) : Prop :=
  LegacyTrackingTableCount snapshot = 0 ∧ TrackingTableCount snapshot = 1
  ∧ MigrationStatuses snapshot !! MigrationID (BaselineMigration spec) = Some FinishedStatus
  ∧ ∀ id st, MigrationStatuses snapshot !! id = Some st → st = FinishedStatus ∧ allowed_id spec id.

(** The report of the inspected databases is empty exactly when there is one and all
    are empty: no domain table, no legacy tracking table, no migration record. It is
    complete exactly when there is one and in all of them there is no legacy tracking, one
    tracking table, a finished baseline, and only finished migrations that are known. The
    entry of a database that is not empty lists exactly its unknown and its unfinished
    migrations. *)
Theorem report_states (l : list (BaselineSpec * BaselineSnapshot)) :
  let inspections := (λ d, ClassifyBaselineState d.1 d.2) <$> l in
  let report := CombineBaselineInspections inspections in
  (br_State report = BaselineStateEmpty ↔ l ≠ [] ∧ ∀ d, d ∈ l → empty_database d.2)
  ∧ (br_State report = BaselineStateComplete ↔ l ≠ [] ∧ ∀ d, d ∈ l → complete_database d.1 d.2)
  ∧ br_Databases report = inspections
  ∧ ∀ spec snapshot id, (spec, snapshot) ∈ l → ¬ empty_database snapshot →
      let i := ClassifyBaselineState spec snapshot in
      (id ∈ UnexpectedMigrationIDs i ↔
         is_Some (MigrationStatuses snapshot !! id) ∧ ¬ allowed_id spec id)
      ∧ (id ∈ NonFinishedMigrationIDs i ↔
           ∃ st, MigrationStatuses snapshot !! id = Some st ∧ allowed_id spec id ∧ st ≠ FinishedStatus).
Proof.
  cbn zeta. destruct (combine_states ((λ d, ClassifyBaselineState d.1 d.2) <$> l)) as (He & Hc & Hd).
  assert (∀ s, (((λ d, ClassifyBaselineState d.1 d.2) <$> l) ≠ []
      ∧ ∀ i, i ∈ (λ d, ClassifyBaselineState d.1 d.2) <$> l → State i = s) ↔
    l ≠ [] ∧ ∀ d, d ∈ l → State (ClassifyBaselineState d.1 d.2) = s) as Hl.
  { intros s. setoid_rewrite list_elem_of_fmap. destruct l; [naive_solver|]. naive_solver. }
  rewrite He, Hc, Hd, !Hl. split; [|split; [|split; [done|]]].
  - apply and_iff_compat_l. split; intros H d Hin; apply (classify_states d.1 d.2); by apply H.
  - apply and_iff_compat_l. split; intros H d Hin; apply (classify_states d.1 d.2); by apply H.
  - intros spec snapshot id _ Hne. destruct (classify_states spec snapshot) as (H1 & _ & H3).
    destruct H3 as [Hu Hn]; [by rewrite H1|]. rewrite Hu, Hn. split; [|done].
    unfold is_Some. naive_solver.
Qed.

(** The specifications are those of the six databases, and an id is allowed when it is
    the baseline's or is registered for the database. *)
Lemma allowed_registered `{Registry} spec id :
  spec ∈ CanonicalBaselineSpecs →
  allowed_id spec id ↔ id = CanonicalBaselineMigrationID
    ∨ ∃ m, m ∈ PostBaselineSyncMigrations ++ PostBaselineAsyncMigrations
        ∧ pb_Database m = bs_Database spec ∧ pb_id m = id.
Proof.
  intros (db & -> & _)%list_elem_of_fmap. unfold allowed_id. cbn.
  unfold postBaselineMigrationIDs, allPostBaselineMigrations. rewrite list_elem_of_fmap.
  setoid_rewrite list_elem_of_filter. setoid_rewrite elem_of_sort. naive_solver.
Qed.
