(* ===== verification/Prog.v ===== *)
(** * Programs that call their environment

    Code whose results depend on a service (the database, the clock, the back-off policy)
    is a [prog]: a tree of calls whose branches are the answers. A theorem about every
    run of a program holds whatever the service answers. *)
From S2P Require Import Prelude.

Section prog.
Context {Er Call : Type} {Resp : Call → Type}.

(** [Throw] is the early return of an error, [Crash] a panic. *)
Inductive prog (A : Type) : Type :=
| Ret (a : A)
| Throw (e : Er)
| Crash
| Vis (c : Call) (k : Resp c → prog A).
#[global] Arguments Ret {A} a.
#[global] Arguments Throw {A} e.
#[global] Arguments Crash {A}.
#[global] Arguments Vis {A} c k.

Fixpoint prog_bind {A B} (f : A → prog B) (p : prog A) : prog B :=
  match p with
  | Ret a => f a
  | Throw e => Throw e
  | Crash => Crash
  | Vis c k => Vis c (λ r, prog_bind f (k r))
  end.
#[global] Instance prog_mret : MRet prog := λ A a, Ret a.
#[global] Instance prog_mbind : MBind prog := λ A B f p, prog_bind f p.

Definition call (c : Call) : prog (Resp c) := Vis c Ret.

(** The error as a value, for the code that looks at it. *)
Fixpoint try {A} (p : prog A) : prog (result Er A) :=
  match p with
  | Ret a => Ret (Ok a)
  | Throw e => Ret (Err e)
  | Crash => Crash
  | Vis c k => Vis c (λ r, try (k r))
  end.

(** [for ... range] with early return. *)
Fixpoint for_each {X} (f : X → prog unit) (l : list X) : prog unit :=
  match l with
  | [] => Ret tt
  | x :: l => _ ← f x; for_each f l
  end.

(** ** Runs *)

Inductive event := Ev (c : Call) (r : Resp c).

Inductive final (A : Type) : Type :=
| Returned (a : A)
| Failed (e : Er)
| Crashed.
#[global] Arguments Returned {A} a.
#[global] Arguments Failed {A} e.
#[global] Arguments Crashed {A}.

Inductive runs {A} : prog A → list event → final A → Prop :=
| runs_ret a : runs (Ret a) [] (Returned a)
| runs_throw e : runs (Throw e) [] (Failed e)
| runs_crash : runs Crash [] Crashed
| runs_vis c k r tr o : runs (k r) tr o → runs (Vis c k) (Ev c r :: tr) o.

Lemma runs_ret_inv {A} (a : A) tr o : runs (Ret a) tr o → tr = [] ∧ o = Returned a.
Proof. by inversion 1. Qed.
Lemma runs_throw_inv {A} e tr (o : final A) : runs (Throw e) tr o → tr = [] ∧ o = Failed e.
Proof. by inversion 1. Qed.
Lemma runs_crash_inv {A} tr (o : final A) : runs Crash tr o → tr = [] ∧ o = Crashed.
Proof. by inversion 1. Qed.

Lemma runs_vis_inv {A} c (k : Resp c → prog A) tr o :
  runs (Vis c k) tr o → ∃ r tr', tr = Ev c r :: tr' ∧ runs (k r) tr' o.
Proof.
  intros H. remember (Vis c k) as p eqn:E. destruct H as [| | |c' k' r tr o H]; try done.
  enough (∃ r', Ev c' r = Ev c r' ∧ runs (k r') tr o) as (r' & -> & ?) by (exists r', tr; done).
  revert r H. refine (match E in _ = q return
    match q with
    | Vis c k => ∀ r, runs (k' r) tr o → ∃ r', Ev c' r = Ev c r' ∧ runs (k r') tr o
    | _ => True
    end with eq_refl => _ end).
  intros r H. by exists r.
Qed.

Lemma runs_bind {A B} (p : prog A) (f : A → prog B) tr o :
  runs (p ≫= f) tr o →
  (∃ a tr1 tr2, tr = tr1 ++ tr2 ∧ runs p tr1 (Returned a) ∧ runs (f a) tr2 o)
  ∨ (∃ e, runs p tr (Failed e) ∧ o = Failed e) ∨ (runs p tr Crashed ∧ o = Crashed).
Proof.
  revert tr. induction p as [a|e| |c k IH]; intros tr H; cbn in H.
  - left. exists a, [], tr. split; [done|]. split; [constructor|done].
  - apply runs_throw_inv in H as [-> ->]. right. left. exists e. split; [constructor|done].
  - apply runs_crash_inv in H as [-> ->]. right. right. split; [constructor|done].
  - apply runs_vis_inv in H as (r & tr' & -> & H).
    destruct (IH r tr' H) as [(a & tr1 & tr2 & -> & H1 & H2)|[(e & H1 & ->)|[H1 ->]]].
    + left. exists a, (Ev c r :: tr1), tr2. split; [done|]. split; [by constructor|done].
    + right. left. exists e. split; [by constructor|done].
    + right. right. split; [by constructor|done].
Qed.

Lemma runs_bind_returned {A B} (p : prog A) (f : A → prog B) tr b :
  runs (p ≫= f) tr (Returned b) →
  ∃ a tr1 tr2, tr = tr1 ++ tr2 ∧ runs p tr1 (Returned a) ∧ runs (f a) tr2 (Returned b).
Proof. intros [?|[(e & _ & ?)|[_ ?]]]%runs_bind; done. Qed.

Lemma runs_call c tr o :
  runs (call c) tr o → ∃ r, tr = [Ev c r] ∧ o = Returned r.
Proof.
  intros (r & tr' & -> & [-> ->]%runs_ret_inv)%runs_vis_inv. by exists r.
Qed.

Lemma runs_call_bind {A} c (f : Resp c → prog A) tr o :
  runs (call c ≫= f) tr o → ∃ r tr', tr = Ev c r :: tr' ∧ runs (f r) tr' o.
Proof. by intros (r & tr' & -> & H)%runs_vis_inv; eauto. Qed.

Lemma runs_try {A} (p : prog A) tr o :
  runs (try p) tr o →
  (∃ a, runs p tr (Returned a) ∧ o = Returned (Ok a))
  ∨ (∃ e, runs p tr (Failed e) ∧ o = Returned (Err e)) ∨ (runs p tr Crashed ∧ o = Crashed).
Proof.
  revert tr. induction p as [a|e| |c k IH]; intros tr H; cbn in H.
  - apply runs_ret_inv in H as [-> ->]. left. exists a. split; [constructor|done].
  - apply runs_ret_inv in H as [-> ->]. right. left. exists e. split; [constructor|done].
  - apply runs_crash_inv in H as [-> ->]. right. right. split; [constructor|done].
  - apply runs_vis_inv in H as (r & tr' & -> & H).
    destruct (IH r tr' H) as [(a & H1 & ->)|[(e & H1 & ->)|[H1 ->]]].
    + left. exists a. split; [by constructor|done].
    + right. left. exists e. split; [by constructor|done].
    + right. right. split; [by constructor|done].
Qed.

Lemma runs_for_each {X} (f : X → prog unit) l tr :
  runs (for_each f l) tr (Returned tt) →
  ∃ trs, tr = concat trs ∧ Forall2 (λ x t, runs (f x) t (Returned tt)) l trs.
Proof.
  revert tr. induction l as [|x l IH]; intros tr H; cbn [for_each] in H.
  - apply runs_ret_inv in H as [-> _]. by exists [].
  - apply runs_bind_returned in H as ([] & tr1 & tr2 & -> & H1 & H2).
    destruct (IH tr2 H2) as (trs & -> & Hf). exists (tr1 :: trs). split; [done|]. by constructor.
Qed.

(** A loop that does not return stops at one element: the iterations before it returned. *)
Lemma runs_for_each_stop {X} (f : X → prog unit) l tr o :
  runs (for_each f l) tr o → o ≠ Returned tt →
  ∃ l1 x l2 trs tr', l = l1 ++ x :: l2 ∧ tr = concat trs ++ tr'
    ∧ Forall2 (λ x t, runs (f x) t (Returned tt)) l1 trs ∧ runs (f x) tr' o.
Proof.
  revert tr. induction l as [|x l IH]; intros tr H Ho; cbn [for_each] in H.
  - by apply runs_ret_inv in H as [_ ->].
  - apply runs_bind in H as [([] & tr1 & tr2 & -> & H1 & H2)|[(e & H1 & ->)|[H1 ->]]].
    + destruct (IH tr2 H2 Ho) as (l1 & y & l2 & trs & tr' & -> & -> & Hf & Hy).
      exists (x :: l1), y, l2, (tr1 :: trs), tr'. split; [done|]. split; [cbn; by rewrite (assoc_L (++))|].
      split; [by constructor|done].
    + exists [], x, l, [], tr. done.
    + exists [], x, l, [], tr. done.
Qed.

(** ** Programs that only use some calls *)

(** Every event of every run satisfies [P]. *)
Definition only {A} (P : event → Prop) (p : prog A) : Prop :=
  ∀ tr o, runs p tr o → Forall P tr.

Section only.
Context (P : event → Prop).
Lemma only_ret {A} (a : A) : only P (Ret a).
Proof. intros tr o [-> _]%runs_ret_inv. constructor. Qed.
Lemma only_throw {A} e : only P (A := A) (Throw e).
Proof. intros tr o [-> _]%runs_throw_inv. constructor. Qed.
Lemma only_crash {A} : only P (A := A) Crash.
Proof. intros tr o [-> _]%runs_crash_inv. constructor. Qed.
Lemma only_call c : (∀ r, P (Ev c r)) → only P (call c).
Proof. intros H tr o (r & -> & _)%runs_call. by repeat constructor. Qed.
Lemma only_bind {A B} (p : prog A) (f : A → prog B) :
  only P p → (∀ a, only P (f a)) → only P (p ≫= f).
Proof.
  intros Hp Hf tr o [(a & tr1 & tr2 & -> & H1 & H2)|[(e & H1 & ->)|[H1 ->]]]%runs_bind.
  - apply Forall_app. split; [by eapply Hp|by eapply Hf].
  - by eapply Hp.
  - by eapply Hp.
Qed.
Lemma only_try {A} (p : prog A) : only P p → only P (try p).
Proof.
  intros Hp tr o [(a & H1 & ->)|[(e & H1 & ->)|[H1 ->]]]%runs_try; by eapply Hp.
Qed.
Lemma only_for_each {X} (f : X → prog unit) l : (∀ x, only P (f x)) → only P (for_each f l).
Proof.
  intros Hf. induction l as [|x l IH]; cbn [for_each]; [apply only_ret|by apply only_bind].
Qed.
End only.

(** ** Execution against a service *)
Context {W : Type} (handle : ∀ c, W → Resp c * W).

Fixpoint exec {A} (p : prog A) (w : W) : final A * list event * W :=
  match p with
  | Ret a => (Returned a, [], w)
  | Throw e => (Failed e, [], w)
  | Crash => (Crashed, [], w)
  | Vis c k =>
      let '(r, w) := handle c w in
      let '(o, tr, w) := exec (k r) w in (o, Ev c r :: tr, w)
  end.

Lemma exec_runs {A} (p : prog A) w : runs p (exec p w).1.2 (exec p w).1.1.
Proof.
  revert w. induction p as [a|e| |c k IH]; intros w; cbn; try constructor.
  destruct (handle c w) as [r w1]. specialize (IH r w1).
  destruct (exec (k r) w1) as [[o tr] w2]. by constructor.
Qed.
End prog.

#[global] Arguments prog Er Call Resp A : clear implicits.
#[global] Arguments event Call Resp : clear implicits.
#[global] Arguments final Er A : clear implicits.

Create HintDb prog.
#[export] Hint Resolve only_ret only_throw only_crash only_call only_bind only_try only_for_each : prog.
