(* ===== verification/Migrate.v ===== *)
(** * The migration manager and the migrate commands

    src/cmd/siginsightschemamigrator/schema_migrator/manager.go, the inspections of
    baseline.go, baseline_report.go and schema_fingerprint.go, and the commands of
    src/cmd/siginsightotelcollector/migrate. The database connection, the clock and the
    back-off policy are the environment: the code is a program of [Prog] over the calls
    below. *)
From S2P Require Import Prelude ColumnTypes Operations Registry Prog.

(** ** Calls and errors *)

(** One row of [rows.Next]/[rows.Scan]; the rows end with [rows.Err]. *)
Definition rows (A : Type) : Type := list (result string A) * option string.

Inductive status_row := StatusRow (status : string) | NoRows | RowError (e : string).

Inductive call_ :=
| CExec (query : string) (args : list string)
| CQueryCounts3 (query : string) (args : list string)
| CQueryCounts2 (query : string) (args : list string)
| CQueryCount (query : string) (args : list string)
| CQueryMigrations (query : string)
| CQueryNames (query : string)
| CQueryStatus (query : string)
| CNow
| CPing
| CNextBackOff
| CSleep (d : Z).

Definition Resp (c : call_) : Type :=
  match c with
  | CExec _ _ | CPing => result string unit
  | CQueryCounts3 _ _ => result string (Z * Z * Z)
  | CQueryCounts2 _ _ => result string (Z * Z)
  | CQueryCount _ _ => result string Z
  | CQueryMigrations _ => result string (rows (Z * string))
  | CQueryNames _ => result string (rows string)
  | CQueryStatus _ => status_row
  | CNow => string
  | CNextBackOff => option Z
  | CSleep _ => unit
  end.

(** Errors of the driver, formatted errors with what they wrap ([%w] stays in the text),
    the sentinel of the fingerprints, and the [base] of errors.go. *)
Inductive error :=
| ErrConn (e : string)
| ErrMsg (text : string) (wrapped : list error)
| ErrRegistry (e : registry_error)
| ErrCanonicalSchemaMismatch
| Base (isRetryable : bool) (e : error)
| OutOfFuel.

(** [errors.Is(err, ErrCanonicalSchemaMismatch)]. *)
Fixpoint is_mismatch (e : error) : bool :=
  match e with
  | ErrCanonicalSchemaMismatch => true
  | ErrMsg _ es => existsb is_mismatch es
  | Base _ e => is_mismatch e
  | _ => false
  end.

Definition New (e : error) : error := Base false e.
Definition NewRetryableError (e : error) : error := Base true e.
Definition Unwrapb (e : error) : bool * error :=
  match e with Base r e => (r, e) | e => (false, e) end.
Definition IsRetryable (e : error) : bool := (Unwrapb e).1.

Definition M : Type → Type := prog error call_ Resp.

(** A call whose error is returned. *)
Definition conn {A} (wrap : error → error) (p : M (result string A)) : M A :=
  r ← p;
  match r with Ok a => Ret a | Err e => Throw (wrap (ErrConn e)) end.
Definition plain (e : error) : error := e.

(** [if err := p; err != nil { return f(err) }]. *)
Definition wrapping {A} (f : error → error) (p : M A) : M A :=
  r ← try p;
  match r with Ok a => Ret a | Err e => Throw (f e) end.

Definition Exec (query : string) (args : list string) : M unit := conn plain (call (CExec query args)).

(** [errors.Join]: the non-nil errors. *)
Definition Join (e : error) (r : result error unit) : error :=
  ErrMsg "join" (e :: match r with Ok _ => [] | Err e' => [e'] end).

(** ** Migration manager (manager.go) *)

Definition insertMigrationEntry (db : string) (migrationID : Z) (status : string) : M unit :=
  now ← call CNow;
  Exec ("INSERT INTO " +:+ db +:+ ".schema_migrations_v2 (migration_id, status, created_at) VALUES ("
          +:+ pretty migrationID +:+ ", '" +:+ status +:+ "', '" +:+ now +:+ "')") [].

(** The exported copy has the same body. *)
Definition InsertMigrationEntry (db : string) (migrationID : Z) (status : string) : M unit :=
  now ← call CNow;
  Exec ("INSERT INTO " +:+ db +:+ ".schema_migrations_v2 (migration_id, status, created_at) VALUES ("
          +:+ pretty migrationID +:+ ", '" +:+ status +:+ "', '" +:+ now +:+ "')") [].

Definition updateMigrationEntry (db : string) (migrationID : Z) (status err : string) : M unit :=
  now ← call CNow;
  Exec ("ALTER TABLE " +:+ db +:+ ".schema_migrations_v2 UPDATE status = $1, error = $2, updated_at = $3 WHERE migration_id = $4 SETTINGS mutations_sync = 1")
    [status; err; now; pretty migrationID].

(** [operation.ToSQL()]: a nil operation panics. *)
Definition operation_SQL (operation : option Operation) : M string :=
  match operation with
  | Some o => match ToSQL o with Some sql => Ret sql | None => Crash end
  | None => Crash
  end.

Definition RunOperation (operation : option Operation) (migrationID : Z) (database : string)
    (skipStatusUpdate : bool) : M unit :=
  _ ← (if skipStatusUpdate then Ret tt
       else insertMigrationEntry database migrationID InProgressStatus);
  sql ← operation_SQL operation;
  r ← call (CExec sql []);
  match r with
  | Err e =>
      if skipStatusUpdate then Throw (ErrConn e)
      else
        u ← try (updateMigrationEntry database migrationID FailedStatus e);
        match u with
        | Err _ => Throw (Join (ErrConn e) u)
        | Ok _ => Throw (ErrConn e)
        end
  | Ok _ => if skipStatusUpdate then Ret tt
            else updateMigrationEntry database migrationID FinishedStatus ""
  end.

Definition RunOperationWithoutUpdate (operation : option Operation) : M unit :=
  sql ← operation_SQL operation; Exec sql [].

(** The status of a migration, [None] when it has no record. *)
Definition MigrationStatus (db : string) (migrationID : Z) : M (option string) :=
  r ← call (CQueryStatus ("SELECT * FROM " +:+ db +:+ ".schema_migrations_v2 WHERE migration_id = "
                            +:+ pretty migrationID +:+ " SETTINGS final = 1;"));
  match r with
  | StatusRow status => Ret (Some status)
  | NoRows => Ret None
  | RowError e => Throw (ErrConn e)
  end.

Definition CheckMigrationStatus (db : string) (migrationID : Z) (status : string) : M bool :=
  actual ← MigrationStatus db migrationID;
  Ret (bool_decide (actual = Some status)).

(** ** Inspections (baseline.go, baseline_report.go) *)

Definition baselineInventoryQuery : string :=
  "SELECT
	countIf(name NOT IN ('schema_migrations', 'schema_migrations_v2')),
	countIf(name = 'schema_migrations'),
	countIf(name = 'schema_migrations_v2')
FROM system.tables
WHERE database = $1".

Definition baselineMigrationsQuery (database : string) : string :=
  "SELECT migration_id, status FROM " +:+ database +:+ ".schema_migrations_v2 SETTINGS final = 1".

(** The loop over the rows: later rows of an id replace earlier ones. *)
Fixpoint scan_migrations (l : list (result string (Z * string))) (m : gmap Z string) :
    result string (gmap Z string) :=
  match l with
  | [] => Ok m
  | Ok (id, status) :: l => scan_migrations l (<[id := status]> m)
  | Err e :: _ => Err e
  end.

Definition InspectBaselineState (spec : BaselineSpec) : M BaselineInspection :=
  let db := bs_Database spec in
  if negb (isKnownDatabase db) then Throw (ErrMsg ("unknown baseline database " +:+ db) [])
  else
    '(domain, legacy, tracking) ←
      conn (λ e, ErrMsg ("inspect tables for database " +:+ db +:+ ": %w") [e])
        (call (CQueryCounts3 baselineInventoryQuery [db]));
    statuses ←
      (if tracking =? 1 then
         '(l, rows_err) ← conn (λ e, ErrMsg ("inspect migrations for database " +:+ db +:+ ": %w") [e])
                  (call (CQueryMigrations (baselineMigrationsQuery db)));
         match scan_migrations l ∅ with
         | Err e => Throw (ErrMsg ("scan migrations for database " +:+ db +:+ ": %w") [ErrConn e])
         | Ok m =>
             match rows_err with
             | Some e => Throw (ErrMsg ("read migrations for database " +:+ db +:+ ": %w") [ErrConn e])
             | None => Ret m
             end
         end
       else Ret ∅ : M (gmap Z string));
    Ret (ClassifyBaselineState spec
           {| DomainTableCount := domain; LegacyTrackingTableCount := legacy;
              TrackingTableCount := tracking; MigrationStatuses := statuses |}).

Fixpoint inspect_all (specs : list BaselineSpec) : M (list BaselineInspection) :=
  match specs with
  | [] => Ret []
  | spec :: specs =>
      inspection ← InspectBaselineState spec;
      inspections ← inspect_all specs;
      Ret (inspection :: inspections)
  end.

Definition InspectCanonicalBaselineState `{Registry} : M BaselineReport :=
  inspections ← inspect_all CanonicalBaselineSpecs;
  Ret (CombineBaselineInspections inspections).

(** ** Schema fingerprints (schema_fingerprint.go) *)

Record CanonicalSchemaFingerprint := {
  TableCount : Z; TableHash : Z; ColumnCount : Z; ColumnHash : Z; IndexCount : Z; IndexHash : Z;
}.
#[export] Instance fingerprint_eq_dec : EqDecision CanonicalSchemaFingerprint.
Proof. solve_decision. Defined.

Definition emptyFingerprintHash : Z := 11160318154034397263.

Definition fingerprint (tc th cc ch ic ih : Z) : CanonicalSchemaFingerprint :=
  {| TableCount := tc; TableHash := th; ColumnCount := cc; ColumnHash := ch;
     IndexCount := ic; IndexHash := ih |}.

Definition canonicalSchemaFingerprints : gmap string CanonicalSchemaFingerprint :=
  list_to_map
    [(SigInsightAnalyticsDB, fingerprint 1 11591339041108278501 11 3278462431271298120
                               0 emptyFingerprintHash);
     (SigInsightLogsDB, fingerprint 6 11909639802394019030 43 6345803967174251801
                          18 4705711304205954561);
     (SigInsightMetadataDB, fingerprint 0 emptyFingerprintHash 0 emptyFingerprintHash
                              0 emptyFingerprintHash);
     (SigInsightMeterDB, fingerprint 3 14168883310890703930 38 16828873058290010379
                           0 emptyFingerprintHash);
     (SigInsightMetricsDB, fingerprint 15 3541604166905384461 174 8325196865590917439
                             0 emptyFingerprintHash);
     (SigInsightTracesDB, fingerprint 15 6154575477337266297 131 14213257424511927958
                            28 813116833925738708)].

Definition canonicalTableFingerprintQuery : string :=
  "SELECT
	count(),
	cityHash64(arrayStringConcat(arraySort(groupArray(concat(
		name, '|', engine, '|', partition_key, '|', sorting_key, '|',
		primary_key, '|', sampling_key, '|',
		if(engine = 'MaterializedView', create_table_query, '')
	))), '\n'))
FROM system.tables
WHERE database = $1
	AND name NOT IN ('schema_migrations', 'schema_migrations_v2')".
Definition canonicalColumnFingerprintQuery : string :=
  "SELECT
	count(),
	cityHash64(arrayStringConcat(arraySort(groupArray(concat(
		table, '|', toString(position), '|', name, '|', type, '|',
		default_kind, '|',
		if(name IN ('_retention_days', '_retention_days_cold'), '', default_expression), '|',
		compression_codec
	))), '\n'))
FROM system.columns
WHERE database = $1
	AND table NOT IN ('schema_migrations', 'schema_migrations_v2')".
Definition canonicalIndexFingerprintQuery : string :=
  "SELECT
	count(),
	cityHash64(arrayStringConcat(arraySort(groupArray(concat(
		table, '|', name, '|', type_full, '|', expr, '|', toString(granularity)
	))), '\n'))
FROM system.data_skipping_indices
WHERE database = $1".

Definition InspectCanonicalSchemaFingerprint (database : string) : M CanonicalSchemaFingerprint :=
  if negb (isKnownDatabase database) then Throw (ErrMsg ("unknown schema database " +:+ database) [])
  else
    exists_ ← conn (λ e, ErrMsg ("check canonical database " +:+ database +:+ ": %w") [e])
                (call (CQueryCount "SELECT count() FROM system.databases WHERE name = $1" [database]));
    if negb (exists_ =? 1)
    then Throw (ErrMsg ("%w: database " +:+ database +:+ " does not exist") [ErrCanonicalSchemaMismatch])
    else
      '(tc, th) ← conn (λ e, ErrMsg ("fingerprint canonical tables for database " +:+ database +:+ ": %w") [e])
                    (call (CQueryCounts2 canonicalTableFingerprintQuery [database]));
      '(cc, ch) ← conn (λ e, ErrMsg ("fingerprint canonical columns for database " +:+ database +:+ ": %w") [e])
                    (call (CQueryCounts2 canonicalColumnFingerprintQuery [database]));
      '(ic, ih) ← conn (λ e, ErrMsg ("fingerprint canonical indexes for database " +:+ database +:+ ": %w") [e])
                    (call (CQueryCounts2 canonicalIndexFingerprintQuery [database]));
      Ret (fingerprint tc th cc ch ic ih).

Definition fingerprint_text (f : CanonicalSchemaFingerprint) : string :=
  "tables=" +:+ pretty (TableCount f) +:+ "/" +:+ pretty (TableHash f)
  +:+ " columns=" +:+ pretty (ColumnCount f) +:+ "/" +:+ pretty (ColumnHash f)
  +:+ " indexes=" +:+ pretty (IndexCount f) +:+ "/" +:+ pretty (IndexHash f).

Definition VerifyCanonicalSchema (database : string) : M unit :=
  match canonicalSchemaFingerprints !! database with
  | None => Throw (ErrMsg ("%w: fingerprint is not defined for database " +:+ database)
                     [ErrCanonicalSchemaMismatch])
  | Some expected =>
      actual ← InspectCanonicalSchemaFingerprint database;
      if bool_decide (actual = expected) then Ret tt
      else Throw (ErrMsg ("%w for " +:+ database +:+ ": got " +:+ fingerprint_text actual
                            +:+ ", want " +:+ fingerprint_text expected) [ErrCanonicalSchemaMismatch])
  end.

(** ** Baseline commands (migrate/baseline.go) *)

Definition BaselineState_string (s : BaselineState) : string :=
  match s with
  | BaselineStateEmpty => "empty"
  | BaselineStateComplete => "complete"
  | BaselineStateIncompatible => "incompatible"
  end.
Definition fmt_ids (l : list Z) : string := "[" +:+ join " " (pretty <$> l) +:+ "]".
Definition fmt_bool (b : bool) : string := if b then "true" else "false".

Definition formatBaselineStateError (report : BaselineReport) : error :=
  let details :=
    (λ d, bi_Database d +:+ "=" +:+ BaselineState_string (State d)
            +:+ " domain_tables=" +:+ pretty (bi_DomainTableCount d)
            +:+ " legacy_tracking=" +:+ pretty (bi_LegacyTrackingTableCount d)
            +:+ " tracking=" +:+ pretty (bi_TrackingTableCount d)
            +:+ " missing_marker=" +:+ fmt_bool (MissingBaselineMarker d)
            +:+ " non_finished=" +:+ fmt_ids (NonFinishedMigrationIDs d)
            +:+ " unexpected=" +:+ fmt_ids (UnexpectedMigrationIDs d))
    <$> filter (λ d, State d ≠ BaselineStateComplete) (br_Databases report) in
  ErrMsg ("canonical baseline is " +:+ BaselineState_string (br_State report)
          +:+ "; automatic migration recovery is disabled. "
          +:+ "This collector installs a destructive canonical schema and cannot adopt an existing telemetry schema. "
          +:+ "Use a new ClickHouse data directory or explicitly discard the siginsight_* telemetry databases before retrying; "
          +:+ "a ClickHouse-only reset does not remove SQL-store data: " +:+ join "; " details) [].

Section commands.
Context `{Registry}.

(** The validation at the start of every command. *)
Definition require_valid_registry : M unit :=
  match ValidatePostBaselineMigrations with
  | Ok _ => Ret tt
  | Err e => Throw (New (ErrRegistry e))
  end.

Definition verifyCanonicalSchemas (specs : list BaselineSpec) : M unit :=
  for_each (λ spec,
    wrapping (λ e, if is_mismatch e then New e else NewRetryableError e)
      (VerifyCanonicalSchema (bs_Database spec))) specs.

(** One DDL operation of the baseline; when it fails a failed marker is inserted. *)
Definition run_marked (db : string) (id : Z) (operation : option Operation) : M unit :=
  r ← try (RunOperationWithoutUpdate operation);
  match r with
  | Ok _ => Ret tt
  | Err e =>
      m ← try (InsertMigrationEntry db id FailedStatus);
      Throw (New (Join e m))
  end.

Definition create_baseline (spec : BaselineSpec) : M unit :=
  for_each (run_marked (bs_Database spec) (MigrationID (BaselineMigration spec)))
    (UpItems (BaselineMigration spec)).

(** The marker of a database, unless it is there already. *)
Definition mark_finished (spec : BaselineSpec) : M unit :=
  let id := MigrationID (BaselineMigration spec) in
  finished ← wrapping NewRetryableError
               (CheckMigrationStatus (bs_Database spec) id FinishedStatus);
  if finished : bool then Ret tt
  else wrapping NewRetryableError (InsertMigrationEntry (bs_Database spec) id FinishedStatus).

Definition ensureCanonicalBaseline : M unit :=
  _ ← require_valid_registry;
  report ← wrapping NewRetryableError InspectCanonicalBaselineState;
  match br_State report with
  | BaselineStateEmpty =>
      _ ← for_each create_baseline CanonicalBaselineSpecs;
      _ ← verifyCanonicalSchemas CanonicalBaselineSpecs;
      for_each mark_finished CanonicalBaselineSpecs
  | BaselineStateComplete => Ret tt
  | BaselineStateIncompatible => Throw (New (formatBaselineStateError report))
  end.

Definition requireCanonicalBaseline : M unit :=
  _ ← require_valid_registry;
  report ← wrapping NewRetryableError InspectCanonicalBaselineState;
  if bool_decide (br_State report = BaselineStateComplete) then Ret tt
  else Throw (New (formatBaselineStateError report)).

(** ** Post-baseline migrations (migrate/post_baseline.go) *)

Definition postBaselineMigrations (p : phase) : list PostBaselineMigration :=
  match p with
  | sync_phase => PostBaselineSyncMigrations
  | async_phase => PostBaselineAsyncMigrations
  end.

Definition item_name (m : PostBaselineMigration) : string :=
  pb_Database m +:+ "/" +:+ pretty (pb_id m).

Definition status_error (m : PostBaselineMigration) (status : string) : error :=
  ErrMsg ("post-baseline migration " +:+ item_name m +:+ " has status " +:+ dquote +:+ status
          +:+ dquote +:+ "; automatic recovery is disabled") [].

Definition prerequisitePostBaselineMigrations (current : PostBaselineMigration) (p : phase) :
    list PostBaselineMigration :=
  let all := PostBaselineSyncMigrations
             ++ match p with async_phase => PostBaselineAsyncMigrations | sync_phase => [] end in
  filter (λ earlier, ¬ (pb_Database earlier ≠ pb_Database current ∨ pb_id current ≤ pb_id earlier)) all.

Definition requireEarlierPostBaselineMigrations (current : PostBaselineMigration) (p : phase) :
    M unit :=
  for_each (λ earlier,
    status ← wrapping NewRetryableError (MigrationStatus (pb_Database earlier) (pb_id earlier));
    match status with
    | None => Throw (New (ErrMsg ("post-baseline migration " +:+ item_name earlier
                                  +:+ " must finish before " +:+ item_name current) []))
    | Some status =>
        if bool_decide (status = FinishedStatus) then Ret tt
        else Throw (New (status_error earlier status))
    end) (prerequisitePostBaselineMigrations current p).

(** The body of the loop of [runPostBaselineMigrations]. *)
Definition run_migration (p : phase) (item : PostBaselineMigration) : M unit :=
  let db := pb_Database item in
  let id := pb_id item in
  _ ← requireEarlierPostBaselineMigrations item p;
  status ← wrapping NewRetryableError (MigrationStatus db id);
  match status with
  | Some status =>
      if bool_decide (status = FinishedStatus) then Ret tt
      else Throw (New (status_error item status))
  | None =>
      _ ← wrapping NewRetryableError (InsertMigrationEntry db id InProgressStatus);
      _ ← for_each (run_marked db id) (UpItems (pb_Migration item));
      wrapping New (InsertMigrationEntry db id FinishedStatus)
  end.

Definition runPostBaselineMigrations (p : phase) : M unit :=
  _ ← require_valid_registry;
  _ ← requireCanonicalBaseline;
  for_each (run_migration p) (postBaselineMigrations p).

Definition check_migration (p : phase) (item : PostBaselineMigration) : M unit :=
  _ ← requireEarlierPostBaselineMigrations item p;
  status ← wrapping NewRetryableError (MigrationStatus (pb_Database item) (pb_id item));
  match status with
  | None => Throw (NewRetryableError (ErrMsg ("post-baseline migration " +:+ item_name item
                                              +:+ " has not been completed") []))
  | Some status =>
      if bool_decide (status = FinishedStatus) then Ret tt
      else Throw (New (status_error item status))
  end.

Definition checkPostBaselineMigrations (p : phase) : M unit :=
  _ ← require_valid_registry;
  _ ← requireCanonicalBaseline;
  for_each (check_migration p) (postBaselineMigrations p).

(** ** Commands (sync_up.go, async_up.go, sync_check.go, async_check.go) *)

Definition SyncUp : M unit :=
  _ ← ensureCanonicalBaseline; runPostBaselineMigrations sync_phase.
Definition AsyncUp : M unit := runPostBaselineMigrations async_phase.
Definition SyncCheck : M unit :=
  _ ← requireCanonicalBaseline;
  _ ← checkPostBaselineMigrations sync_phase;
  verifyCanonicalSchemas CanonicalBaselineSpecs.
Definition AsyncCheck : M unit := checkPostBaselineMigrations async_phase.
Definition Ready : M unit := conn NewRetryableError (call CPing).
End commands.

(** ** Bootstrap (bootstrap.go, schema_migrations_v2_tables.go) *)

Definition plain_column (name : string) (t : ColumnType) : Column :=
  {| Name := name; Type_ := Some t; Codec := ""; Alias := ""; Default := ""; Materialized := "";
     TTL := ""; Settings := None; Comment := "" |}.

Definition migrationTableMigration (id : Z) (database : string) : SchemaMigrationRecord :=
  {| MigrationID := id;
     UpItems :=
       [Some (OpCreateTable
          {| ct_Database := database;
             ct_Table := "schema_migrations_v2";
             ct_Columns :=
               [plain_column "migration_id" ColumnTypeUInt64;
                plain_column "status" ColumnTypeString;
                plain_column "error" ColumnTypeString;
                plain_column "created_at" (DateTime64ColumnType 9 "");
                plain_column "updated_at" (DateTime64ColumnType 9 "")];
             ct_Indexes := [];
             ct_Projections := [];
             ct_Engine := Some (ReplacingMergeTree
               {| OrderBy := "migration_id"; PrimaryKey := "migration_id"; PartitionBy := "";
                  SampleBy := ""; mt_TTL := ""; mt_Settings := [] |}) |})];
     DownItems := [] |}.

Definition V2MigrationTablesLogs := [migrationTableMigration 1 SigInsightLogsDB].
Definition V2MigrationTablesTraces := [migrationTableMigration 2 SigInsightTracesDB].
Definition V2MigrationTablesMetrics := [migrationTableMigration 3 SigInsightMetricsDB].
Definition V2MigrationTablesMetadata := [migrationTableMigration 4 SigInsightMetadataDB].
Definition V2MigrationTablesAnalytics := [migrationTableMigration 5 SigInsightAnalyticsDB].
Definition V2MigrationTablesMeter := [migrationTableMigration 6 SigInsightMeterDB].

(** The scan errors of the rows are returned; the error of the iteration is not read. *)
Fixpoint scan_names (l : list (result string string)) (names : gset string) :
    result string (gset string) :=
  match l with
  | [] => Ok names
  | Ok name :: l => scan_names l ({[ name ]} ∪ names)
  | Err e :: _ => Err e
  end.

Definition CreateDatabases : M unit :=
  '(l, _) ← conn NewRetryableError (call (CQueryNames "SELECT name FROM system.databases"));
  match scan_names l ∅ with
  | Err e => Throw (ErrConn e)
  | Ok databases =>
      for_each (λ database,
        if bool_decide (database ∈ databases) then Ret tt
        else Exec ("CREATE DATABASE " +:+ database) []) Databases
  end.

Definition ShouldRunOperation (operation : option Operation) : M bool :=
  match operation with
  | Some (OpCreateTable tableOp) =>
      count ← conn NewRetryableError
        (call (CQueryCount ("SELECT count() FROM system.tables WHERE database = '"
                            +:+ ct_Database tableOp +:+ "' AND name = '" +:+ ct_Table tableOp +:+ "'") []));
      Ret (negb (0 <? count))
  | _ => Ret true
  end.

(** The six loops differ in the list and the database only. *)
Definition create_migration_tables (l : list SchemaMigrationRecord) (database : string) : M unit :=
  for_each (λ migration,
    for_each (λ operation,
      shouldRun ← ShouldRunOperation operation;
      if shouldRun : bool then RunOperation operation (MigrationID migration) database true else Ret tt)
      (UpItems migration)) l.

Definition CreateMigrationTables : M unit :=
  _ ← create_migration_tables V2MigrationTablesLogs SigInsightLogsDB;
  _ ← create_migration_tables V2MigrationTablesMetrics SigInsightMetricsDB;
  _ ← create_migration_tables V2MigrationTablesTraces SigInsightTracesDB;
  _ ← create_migration_tables V2MigrationTablesMetadata SigInsightMetadataDB;
  _ ← create_migration_tables V2MigrationTablesAnalytics SigInsightAnalyticsDB;
  create_migration_tables V2MigrationTablesMeter SigInsightMeterDB.

Definition Bootstrap : M unit := _ ← CreateDatabases; CreateMigrationTables.

(** ** The retry loop of every command ([Run]) *)

(** [fail] and [timeout] are the errors the command returns; [fuel] bounds the attempts. *)
Fixpoint Run (fail : error → error) (timeout : error) (attempt : M unit) (fuel : nat) : M unit :=
  match fuel with
  | O => Throw OutOfFuel
  | S fuel =>
      r ← try attempt;
      match r with
      | Ok _ => Ret tt
      | Err e =>
          if negb (IsRetryable e) then Throw (fail e)
          else
            nextBackOff ← call CNextBackOff;
            match nextBackOff with
            | None => Throw timeout
            | Some d => _ ← call (CSleep d); Run fail timeout attempt fuel
            end
      end
  end.

Definition fails (text : string) (e : error) : error := ErrMsg (text +:+ ": %w") [e].
Definition ReadyRun (timeout : string) : nat → M unit :=
  Run (fails "store not ready due to non-retryable error")
    (ErrMsg ("timed out waiting for store readiness checks to pass within the configured timeout of "
             +:+ timeout) []) Ready.
Definition BootstrapRun (timeout : string) : nat → M unit :=
  Run (fails "failed to bootstrap store for migrations")
    (ErrMsg ("failed to bootstrap store for migrations within the configured timeout of "
             +:+ timeout) []) Bootstrap.
Definition SyncUpRun `{Registry} (timeout : string) : nat → M unit :=
  Run (fails "failed to run migrations up sync")
    (ErrMsg ("timed out waiting for sync up to complete within the configured timeout of "
             +:+ timeout) []) SyncUp.
Definition AsyncUpRun `{Registry} (timeout : string) : nat → M unit :=
  Run (fails "failed to run migrations")
    (ErrMsg ("timed out waiting for migration to complete within the configured timeout of "
             +:+ timeout) []) AsyncUp.
Definition SyncCheckRun `{Registry} : nat → M unit :=
  Run (fails "failed to check sync migrations")
    (ErrMsg "timed out waiting for sync migrations to complete within the configured timeout" [])
    SyncCheck.
Definition AsyncCheckRun `{Registry} : nat → M unit :=
  Run (fails "failed to check async migrations")
    (ErrMsg "timed out waiting for async migrations to complete within the configured timeout" [])
    AsyncCheck.
