(* ===== verification/MigrateProps.v ===== *)
(** * Properties of the migrate commands

    The theorems quantify over the runs of the programs of [Migrate]: over every sequence
    of answers of the database, the clock and the back-off policy. *)
From S2P Require Import Prelude ColumnTypes Operations Registry Prog Migrate.

Abbreviation trace := (list (event call_ Resp)).

(** The statements a run executes, in order. *)
Definition statement (e : event call_ Resp) : list string :=
  match e with Ev (CExec query _) _ => [query] | _ => [] end.
Definition execs (tr : trace) : list string := tr ≫= statement.

Lemma execs_app tr1 tr2 : execs (tr1 ++ tr2) = execs tr1 ++ execs tr2.
Proof. apply bind_app. Qed.

Lemma execs_concat trs : execs (concat trs) = concat (execs <$> trs).
Proof. induction trs as [|tr trs IH]; [done|]. cbn. by rewrite execs_app, IH. Qed.

(** Events other than the execution of a statement, and other than a status query. *)
Definition is_read (e : event call_ Resp) : Prop :=
  match e with Ev (CExec _ _) _ => False | _ => True end.
Definition not_status (e : event call_ Resp) : Prop :=
  match e with Ev (CQueryStatus _) _ => False | _ => True end.

Lemma reads_no_exec tr : Forall is_read tr → execs tr = [].
Proof. induction 1 as [|[c r] tr He _ IH]; [done|]. unfold execs in *. cbn. rewrite IH. by destruct c. Qed.

(** Decomposes a program; leaves what the [only] lemmas do not close. *)
Ltac only_step :=
  match goal with
  | |- only _ (_ ≫= _) => apply only_bind; [|intros]
  | |- only _ (try _) => apply only_try
  | |- only _ (for_each _ _) => apply only_for_each; intros
  | |- only ?P (call ?c) => refine (only_call P c _); intros; exact I
  | |- only _ (Ret _) => apply only_ret
  | |- only _ (Throw _) => apply only_throw
  | |- only _ Crash => apply only_crash
  | |- only _ (mret _) => apply only_ret
  | |- only _ (match ?x with _ => _ end) => destruct x
  end.
Ltac call_auto :=
  match goal with |- only ?P (call ?c) => refine (only_call P c _); auto end.
Ltac only_auto := repeat only_step; auto with prog.

Section frame.
Context (P : event call_ Resp → Prop).

Lemma only_conn {A} wrap (p : M (result string A)) : only P p → only P (conn wrap p).
Proof. intros H. unfold conn. only_auto. Qed.
Lemma only_wrapping {A} f (p : M A) : only P p → only P (wrapping f p).
Proof. intros H. unfold wrapping. only_auto. Qed.
Lemma only_operation_SQL o : only P (operation_SQL o).
Proof. unfold operation_SQL. only_auto. Qed.
End frame.
#[export] Hint Resolve only_conn only_wrapping only_operation_SQL : prog.

Lemma only_MigrationStatus db id : only is_read (MigrationStatus db id).
Proof. unfold MigrationStatus. only_auto. Qed.

Lemma only_InspectBaselineState (P : event call_ Resp → Prop) spec :
  (∀ q a r, P (Ev (CQueryCounts3 q a) r)) → (∀ q r, P (Ev (CQueryMigrations q) r)) →
  only P (InspectBaselineState spec).
Proof.
  intros H1 H2. unfold InspectBaselineState.
  repeat first [only_step|apply only_conn|call_auto].
Qed.

Lemma only_inspect_all (P : event call_ Resp → Prop) specs :
  (∀ q a r, P (Ev (CQueryCounts3 q a) r)) → (∀ q r, P (Ev (CQueryMigrations q) r)) →
  only P (inspect_all specs).
Proof.
  intros H1 H2. induction specs as [|spec specs IH]; cbn [inspect_all]; only_auto.
  by apply only_InspectBaselineState.
Qed.

Lemma only_InspectCanonicalBaselineState `{Registry} (P : event call_ Resp → Prop) :
  (∀ q a r, P (Ev (CQueryCounts3 q a) r)) → (∀ q r, P (Ev (CQueryMigrations q) r)) →
  only P InspectCanonicalBaselineState.
Proof. intros H1 H2. unfold InspectCanonicalBaselineState. only_auto. by apply only_inspect_all. Qed.

Lemma only_VerifyCanonicalSchema (P : event call_ Resp → Prop) db :
  (∀ q a r, P (Ev (CQueryCount q a) r)) → (∀ q a r, P (Ev (CQueryCounts2 q a) r)) →
  only P (VerifyCanonicalSchema db).
Proof.
  intros H1 H2. unfold VerifyCanonicalSchema, InspectCanonicalSchemaFingerprint.
  repeat first [only_step|apply only_conn|call_auto].
Qed.

Lemma only_verifyCanonicalSchemas `{Registry} (P : event call_ Resp → Prop) specs :
  (∀ q a r, P (Ev (CQueryCount q a) r)) → (∀ q a r, P (Ev (CQueryCounts2 q a) r)) →
  only P (verifyCanonicalSchemas specs).
Proof.
  intros H1 H2. unfold verifyCanonicalSchemas. apply only_for_each. intros spec.
  by apply only_wrapping, only_VerifyCanonicalSchema.
Qed.

Lemma only_require_valid_registry `{Registry} (P : event call_ Resp → Prop) :
  only P require_valid_registry.
Proof. unfold require_valid_registry. only_auto. Qed.

Lemma only_requireCanonicalBaseline `{Registry} (P : event call_ Resp → Prop) :
  (∀ q a r, P (Ev (CQueryCounts3 q a) r)) → (∀ q r, P (Ev (CQueryMigrations q) r)) →
  only P requireCanonicalBaseline.
Proof.
  intros H1 H2. unfold requireCanonicalBaseline. apply only_bind; [apply only_require_valid_registry|].
  intros _. apply only_bind; [by apply only_wrapping, only_InspectCanonicalBaselineState|].
  intros r. only_auto.
Qed.

Lemma only_requireEarlier `{Registry} m p : only is_read (requireEarlierPostBaselineMigrations m p).
Proof.
  unfold requireEarlierPostBaselineMigrations. only_auto. apply only_wrapping, only_MigrationStatus.
Qed.

Lemma only_checkPostBaselineMigrations `{Registry} p : only is_read (checkPostBaselineMigrations p).
Proof.
  unfold checkPostBaselineMigrations, check_migration.
  apply only_bind; [apply only_require_valid_registry|intros _].
  apply only_bind; [by apply only_requireCanonicalBaseline|intros _].
  apply only_for_each. intros m. apply only_bind; [apply only_requireEarlier|intros _].
  apply only_bind; [apply only_wrapping, only_MigrationStatus|intros r]. only_auto.
Qed.

Lemma only_Run (P : event call_ Resp → Prop) fail timeout attempt fuel :
  (∀ r, P (Ev CNextBackOff r)) → (∀ d r, P (Ev (CSleep d) r)) → only P attempt →
  only P (Run fail timeout attempt fuel).
Proof.
  intros H1 H2 Ha. induction fuel as [|fuel IH]; cbn [Run]; [apply only_throw|].
  apply only_bind; [by apply only_try|]. intros [u|e]; [apply only_ret|].
  destruct (negb _); [apply only_throw|]. apply only_bind; [call_auto|].
  intros [d|]; [|apply only_throw]. apply only_bind; [call_auto|]. by intros _.
Qed.

(** ** Runs of the building blocks *)

Lemma runs_wrapping {A} f (p : M A) tr o :
  runs (wrapping f p) tr o →
  (∃ a, runs p tr (Returned a) ∧ o = Returned a)
  ∨ (∃ e, runs p tr (Failed e) ∧ o = Failed (f e)) ∨ (runs p tr Crashed ∧ o = Crashed).
Proof.
  unfold wrapping. intros [(r & tr1 & tr2 & -> & H1 & H2)|[(e & H1 & ->)|[H1 ->]]]%runs_bind.
  - apply runs_try in H1 as [(a & H1 & [= ->])|[(e & H1 & [= ->])|[_ [=]]]].
    + apply runs_ret_inv in H2 as [-> ->]. rewrite app_nil_r. left. by exists a.
    + apply runs_throw_inv in H2 as [-> ->]. rewrite app_nil_r. right. left. by exists e.
  - apply runs_try in H1 as [(a & _ & [=])|[(e' & _ & [=])|[_ [=]]]].
  - apply runs_try in H1 as [(a & _ & [=])|[(e' & _ & [=])|[H1 _]]]. by right; right.
Qed.

Lemma runs_conn {A} wrap (p : M (result string A)) tr o :
  (∀ tr o, runs p tr o → ∃ r, o = Returned r) → runs (conn wrap p) tr o →
  ∃ r : result string A, (match r with Ok a => o = Returned a | Err e => o = Failed (wrap (ErrConn e)) end)
    ∧ runs p tr (Returned r).
Proof.
  intros Hp. unfold conn. intros [(r & tr1 & tr2 & -> & H1 & H2)|[(e & H1 & ->)|[H1 ->]]]%runs_bind.
  - exists r. destruct r as [a|e]; [apply runs_ret_inv in H2 as [-> ->]|apply runs_throw_inv in H2 as [-> ->]];
      by rewrite app_nil_r.
  - by apply Hp in H1 as [? [=]].
  - by apply Hp in H1 as [? [=]].
Qed.

Lemma runs_Exec q a tr o :
  runs (Exec q a) tr o →
  ∃ r, tr = [Ev (CExec q a) r]
    ∧ o = match r with Ok _ => Returned tt | Err e => Failed (ErrConn e) end.
Proof.
  intros (r & Hr & H)%runs_conn.
  - destruct (runs_call (Er := error) (Resp := Resp) (CExec q a) _ _ H) as (r' & -> & [= ->]). exists r'. split; [done|]. by destruct r' as [[]|].
  - intros tr' o' H'.
    destruct (runs_call (Er := error) (Resp := Resp) (CExec q a) _ _ H') as (r' & _ & ->). by exists r'.
Qed.

Definition insert_query (db : string) (id : Z) (status now : string) : string :=
  "INSERT INTO " +:+ db +:+ ".schema_migrations_v2 (migration_id, status, created_at) VALUES ("
  +:+ pretty id +:+ ", '" +:+ status +:+ "', '" +:+ now +:+ "')".

Lemma runs_InsertMigrationEntry db id status tr o :
  runs (InsertMigrationEntry db id status) tr o →
  (∃ now, execs tr = [insert_query db id status now]) ∧ Forall not_status tr
  ∧ (o = Returned tt ∨ ∃ e, o = Failed (ErrConn e)).
Proof.
  unfold InsertMigrationEntry. intros (now & tr' & -> & H)%runs_call_bind.
  apply runs_Exec in H as (r & -> & ->). split; [by exists now|]. split; [by repeat constructor|].
  destruct r; [by left|right; by eexists].
Qed.

(** The statement of an operation that does not panic. *)
Definition op_sql (o : option Operation) : string := default "" (o ≫= ToSQL).

Lemma runs_RunOperationWithoutUpdate op tr o :
  runs (RunOperationWithoutUpdate op) tr o →
  (o = Crashed ∧ tr = []) ∨
  ∃ r, tr = [Ev (CExec (op_sql op) []) r]
    ∧ o = match r with Ok _ => Returned tt | Err e => Failed (ErrConn e) end.
Proof.
  unfold RunOperationWithoutUpdate, operation_SQL. destruct op as [op|].
  - change (op_sql (Some op)) with (default "" (ToSQL op)). destruct (ToSQL op) as [sql|].
    + intros H. right. by apply runs_Exec.
    + intros [-> ->]%runs_crash_inv. by left.
  - intros [-> ->]%runs_crash_inv. by left.
Qed.

Lemma runs_run_marked `{Registry} db id op tr o :
  runs (run_marked db id op) tr o →
  Forall not_status tr ∧
  ((o = Returned tt ∧ execs tr = [op_sql op]) ∨ (∃ e, o = Failed (New e)) ∨ o = Crashed).
Proof.
  unfold run_marked. intros [(r & tr1 & tr2 & -> & H1 & H2)|[(e & H1 & ->)|[H1 ->]]]%runs_bind.
  - apply runs_try in H1 as [(a & H1 & [= ->])|[(e & H1 & [= ->])|[_ [=]]]];
      apply runs_RunOperationWithoutUpdate in H1 as [[[=] _]|([[]|e'] & -> & [= ?])].
    + apply runs_ret_inv in H2 as [-> ->]. split; [by repeat constructor|by left].
    + apply runs_bind in H2 as [(m & tr3 & tr4 & -> & H3 & H4)|[(e0 & H3 & ->)|[H3 ->]]].
      * apply runs_throw_inv in H4 as [-> ->]. rewrite app_nil_r.
        split; [|right; left; by eexists]. constructor; [done|].
        apply runs_try in H3 as [(? & H3 & _)|[(? & H3 & _)|[_ [=]]]];
          by apply runs_InsertMigrationEntry in H3 as (_ & ? & _).
      * apply runs_try in H3 as [(? & _ & [=])|[(? & _ & [=])|[_ [=]]]].
      * apply runs_try in H3 as [(? & _ & [=])|[(? & _ & [=])|[H3 _]]].
        by apply runs_InsertMigrationEntry in H3 as (_ & _ & [?|[? ?]]).
  - apply runs_try in H1 as [(? & _ & [=])|[(? & _ & [=])|[_ [=]]]].
  - apply runs_try in H1 as [(? & _ & [=])|[(? & _ & [=])|[H1 _]]].
    apply runs_RunOperationWithoutUpdate in H1 as [[_ ->]|([[]|e'] & _ & [=])].
    split; [constructor|by right; right].
Qed.

(** A loop whose iterations fail only with errors in [F]. *)
Lemma for_each_returned_execs {X} (f : X → M unit) (sql : X → list string) l tr :
  (∀ x tr, runs (f x) tr (Returned tt) → execs tr = sql x) →
  runs (for_each f l) tr (Returned tt) → execs tr = l ≫= sql.
Proof.
  intros Hf (trs & -> & Hall)%runs_for_each. rewrite execs_concat.
  induction Hall as [|x t l trs Hx _ IH]; [done|]. cbn. by rewrite (Hf _ _ Hx), IH.
Qed.

Lemma for_each_outcome {X} (f : X → M unit) (F : final error unit → Prop) l tr o :
  F (Returned tt) → (∀ x tr o, runs (f x) tr o → F o) → runs (for_each f l) tr o → F o.
Proof.
  intros Hr Hf. revert tr o. induction l as [|x l IH]; intros tr o H; cbn [for_each] in H.
  - by apply runs_ret_inv in H as [_ ->].
  - apply runs_bind in H as [([] & tr1 & tr2 & -> & H1 & H2)|[(e & H1 & ->)|[H1 ->]]].
    + by eapply IH.
    + by eapply Hf.
    + by eapply Hf.
Qed.

(** ** Properties *)
Section properties.
Context `{Registry}.

(** The check commands only read: whatever the database answers, no attempt of
    [migrate sync check] and [migrate async check], nor any retry, executes a statement. *)
Theorem checks_only_read fuel tr o :
  runs (SyncCheckRun fuel) tr o ∨ runs (AsyncCheckRun fuel) tr o → execs tr = [].
Proof.
  intros Hr. apply reads_no_exec. destruct Hr as [Hr|Hr]; revert Hr; apply only_Run; try done.
  - unfold SyncCheck. apply only_bind; [by apply only_requireCanonicalBaseline|intros _].
    apply only_bind; [apply only_checkPostBaselineMigrations|intros _].
    by apply only_verifyCanonicalSchemas.
  - apply only_checkPostBaselineMigrations.
Qed.

Lemma runs_inspect_all specs tr l :
  runs (inspect_all specs) tr (Returned l) →
  Forall2 (λ spec i, ∃ snapshot, i = ClassifyBaselineState spec snapshot) specs l.
Proof.
  revert tr l. induction specs as [|spec specs IH]; intros tr l Hr; cbn [inspect_all] in Hr.
  - by apply runs_ret_inv in Hr as [_ [= ->]].
  - apply runs_bind_returned in Hr as (i & tr1 & tr2 & _ & H1 & H2).
    apply runs_bind_returned in H2 as (others & tr3 & tr4 & _ & H3 & [_ [= ->]]%runs_ret_inv).
    constructor; [|by eapply IH]. unfold InspectBaselineState in H1.
    destruct (negb _); [by apply runs_throw_inv in H1 as [_ [=]]|].
    apply runs_bind_returned in H1 as ([[d g] t] & tr5 & tr6 & _ & _ & H1).
    apply runs_bind_returned in H1 as (m & tr7 & tr8 & _ & _ & [_ [= ->]]%runs_ret_inv). by eexists.
Qed.

Lemma runs_report tr report :
  runs InspectCanonicalBaselineState tr (Returned report) →
  ∃ l, report = CombineBaselineInspections l
    ∧ Forall2 (λ spec i, ∃ snapshot, i = ClassifyBaselineState spec snapshot) CanonicalBaselineSpecs l.
Proof.
  unfold InspectCanonicalBaselineState. intros (l & tr1 & tr2 & _ & H1 & [_ [= ->]]%runs_ret_inv)%runs_bind_returned.
  exists l. split; [done|by eapply runs_inspect_all].
Qed.

(** The parts of a run of [ensureCanonicalBaseline]. *)
Lemma runs_ensure tr o :
  runs ensureCanonicalBaseline tr o →
  execs tr = []
  ∨ ∃ tr1 tr2 report, tr = tr1 ++ tr2 ∧ Forall is_read tr1
      ∧ runs InspectCanonicalBaselineState tr1 (Returned report)
      ∧ br_State report = BaselineStateEmpty
      ∧ runs (_ ← for_each create_baseline CanonicalBaselineSpecs;
              _ ← verifyCanonicalSchemas CanonicalBaselineSpecs;
              for_each mark_finished CanonicalBaselineSpecs) tr2 o.
Proof.
  assert (only is_read InspectCanonicalBaselineState) as Hread by by apply only_InspectCanonicalBaselineState.
  unfold ensureCanonicalBaseline.
  intros [([] & tr0 & tr1 & -> & H0 & H1)|[(e & H0 & ->)|[H0 ->]]]%runs_bind.
  2,3: left; apply reads_no_exec; by eapply only_require_valid_registry.
  apply only_require_valid_registry with (P := λ _, False) in H0 as H0'.
  destruct tr0; [|by apply Forall_inv in H0']. cbn [app].
  apply runs_bind in H1 as [(report & tr2 & tr3 & -> & H1 & H2)|[(e & H1 & ->)|[H1 ->]]].
  2,3: left; apply reads_no_exec; by eapply only_wrapping.
  apply runs_wrapping in H1 as [(r & H1 & [= ->])|[(e & _ & [=])|[_ [=]]]].
  destruct (br_State r) eqn:E.
  - right. exists tr2, tr3, r. split; [done|]. split; [by eapply Hread|]. done.
  - left. apply runs_ret_inv in H2 as [-> ->]. rewrite app_nil_r.
    apply reads_no_exec. by eapply Hread.
  - left. apply runs_throw_inv in H2 as [-> ->]. rewrite app_nil_r.
    apply reads_no_exec. by eapply Hread.
Qed.

(** No statement is executed on an existing schema: when a run of
    [ensureCanonicalBaseline] executes anything, it has first inspected all six databases,
    and found in none of them a domain table, a legacy tracking table or a migration. *)
Theorem baseline_created_only_when_empty tr o
    (Hrun : runs ensureCanonicalBaseline tr o) (Hexec : execs tr ≠ []) :
  ∃ tr1 tr2 report, tr = tr1 ++ tr2 ∧ execs tr1 = []
    ∧ runs InspectCanonicalBaselineState tr1 (Returned report)
    ∧ bi_Database <$> br_Databases report = Databases
    ∧ Forall (λ i, bi_DomainTableCount i = 0 ∧ bi_LegacyTrackingTableCount i = 0
                   ∧ State i = BaselineStateEmpty) (br_Databases report).
Proof.
  apply runs_ensure in Hrun as [?|(tr1 & tr2 & report & -> & Hr & Hi & He & _)]; [done|].
  exists tr1, tr2, report. split; [done|]. split; [by apply reads_no_exec|]. split; [done|].
  apply runs_report in Hi as (l & -> & Hall). destruct (combine_states l) as (Hempty & _ & ->).
  apply Hempty in He as [_ He].
  assert (∀ specs l, Forall2 (λ spec i, ∃ snapshot, i = ClassifyBaselineState spec snapshot) specs l →
    bi_Database <$> l = bs_Database <$> specs) as Hdb.
  { induction 1 as [|spec i specs l' [sn ->] _ IH]; [done|]. cbn. f_equal; [|done].
    unfold ClassifyBaselineState. by repeat case_match. }
  split; [rewrite (Hdb _ _ Hall); reflexivity|]. apply Forall_forall. intros i Hin.
  specialize (He i Hin). apply list_elem_of_lookup in Hin as [k Hk].
  destruct (Forall2_lookup_r _ _ _ _ _ Hall Hk) as (spec & _ & sn & ->).
  destruct (classify_states spec sn) as ([Hcl _] & _). destruct (Hcl He) as (H1 & H2 & _).
  split; [|split; [|done]]; unfold ClassifyBaselineState; by repeat case_match.
Qed.

(** The DDL of the six databases, in order, and the markers that follow it. *)
Definition baseline_statements : list string :=
  CanonicalBaselineSpecs ≫= λ spec, op_sql <$> UpItems (BaselineMigration spec).
Definition is_marker (q : string) : Prop :=
  ∃ db now, db ∈ Databases ∧ q = insert_query db CanonicalBaselineMigrationID FinishedStatus now.

Lemma run_marked_returned db id l tr :
  runs (for_each (run_marked db id) l) tr (Returned tt) → execs tr = op_sql <$> l.
Proof.
  intros Hr. apply (for_each_returned_execs _ (λ x, [op_sql x])) in Hr as ->.
  - induction l as [|x l IH]; [done|]. cbn. by rewrite IH.
  - intros x tr' Hx. apply runs_run_marked in Hx as [_ [[_ ?]|[[? [=]]|[=]]]]. done.
Qed.

(** An iteration with DDL fails for good or not at all. *)
Definition fatal (o : final error unit) : Prop :=
  o = Returned tt ∨ o = Crashed ∨ ∃ e, o = Failed (New e).

Lemma run_marked_fatal db id l tr o : runs (for_each (run_marked db id) l) tr o → fatal o.
Proof.
  apply for_each_outcome; [by left|]. intros x tr' o' Hx.
  apply runs_run_marked in Hx as [_ [[-> _]|[[e ->]| ->]]]; [by left|right; right; by exists e|by right; left].
Qed.

Lemma create_fatal l tr o : runs (for_each create_baseline l) tr o → fatal o.
Proof.
  refine (for_each_outcome create_baseline fatal l tr o _ _); [by left|].
  intros spec tr' o' Hr. exact (run_marked_fatal _ _ _ _ _ Hr).
Qed.

Lemma mark_finished_execs spec tr o :
  spec ∈ CanonicalBaselineSpecs → runs (mark_finished spec) tr o → Forall is_marker (execs tr).
Proof.
  intros Hspec. assert (bs_Database spec ∈ Databases
    ∧ MigrationID (BaselineMigration spec) = CanonicalBaselineMigrationID) as [Hdb Hid].
  { apply list_elem_of_fmap in Hspec as (db & -> & Hin). done. }
  unfold mark_finished, CheckMigrationStatus.
  assert (∀ tr o, runs (wrapping NewRetryableError
    (actual ← MigrationStatus (bs_Database spec) (MigrationID (BaselineMigration spec));
     Ret (bool_decide (actual = Some FinishedStatus)))) tr o → execs tr = []) as Hc.
  { intros tr' o' Hr. apply reads_no_exec. revert Hr. apply only_wrapping.
    apply only_bind; [apply only_MigrationStatus|]. intros. apply only_ret. }
  intros [(b & tr1 & tr2 & -> & H1 & H2)|[(e & H1 & ->)|[H1 ->]]]%runs_bind.
  - rewrite execs_app, (Hc _ _ H1). destruct b; cbn.
    + apply runs_ret_inv in H2 as [-> _]. constructor.
    + apply runs_wrapping in H2 as [(? & H2 & _)|[(? & H2 & _)|[H2 _]]];
        apply runs_InsertMigrationEntry in H2 as ([now ->] & _); repeat constructor;
        exists (bs_Database spec), now; by rewrite Hid.
  - by rewrite (Hc _ _ H1).
  - by rewrite (Hc _ _ H1).
Qed.

Lemma for_each_Forall {X} (f : X → M unit) (Q : string → Prop) l tr o :
  (∀ x tr o, x ∈ l → runs (f x) tr o → Forall Q (execs tr)) →
  runs (for_each f l) tr o → Forall Q (execs tr).
Proof.
  revert tr. induction l as [|x l IH]; intros tr Hf Hr; cbn [for_each] in Hr.
  - by apply runs_ret_inv in Hr as [-> _].
  - apply runs_bind in Hr as [([] & tr1 & tr2 & -> & H1 & H2)|[(e & H1 & ->)|[H1 ->]]].
    + rewrite execs_app. apply Forall_app. split; [by eapply Hf; [left|]|].
      apply IH; [|done]. intros y tr' o' Hy. apply Hf. by right.
    + by eapply Hf; [left|].
    + by eapply Hf; [left|].
Qed.

(** All or nothing: a run of [ensureCanonicalBaseline] that succeeds, or fails in a way
    that is retried, has executed nothing, or every DDL statement of the baseline in order,
    then only finished markers. In particular a partly created schema is never retried. *)
Theorem baseline_all_or_nothing tr o
    (Hrun : runs ensureCanonicalBaseline tr o)
    (Ho : o = Returned tt ∨ ∃ e, o = Failed e ∧ IsRetryable e = true) :
  execs tr = [] ∨ ∃ marks, execs tr = baseline_statements ++ marks ∧ Forall is_marker marks.
Proof.
  apply runs_ensure in Hrun as [?|(tr1 & tr2 & report & -> & Hr & _ & _ & Hrun)]; [by left|].
  rewrite execs_app, (reads_no_exec tr1 Hr). cbn [app]. right.
  assert (∀ spec tr, runs (create_baseline spec) tr (Returned tt) →
    execs tr = op_sql <$> UpItems (BaselineMigration spec)) as Hcreate.
  { intros spec tr'. exact (run_marked_returned (bs_Database spec)
      (MigrationID (BaselineMigration spec)) (UpItems (BaselineMigration spec)) tr'). }
  assert (fatal o → o = Returned tt) as Hfatal.
  { intros [?|[->|[e ->]]]; [done|destruct Ho as [[=]|(? & [=] & _)]|].
    destruct Ho as [[=]|(? & [= <-] & [=])]. }
  apply runs_bind in Hrun as [([] & tr3 & tr4 & -> & H1 & H2)|[(e & H1 & ->)|[H1 ->]]].
  2: { discriminate (Hfatal (create_fatal _ _ _ H1)). }
  2: { discriminate (Hfatal (create_fatal _ _ _ H1)). }
  rewrite execs_app, (for_each_returned_execs _ _ _ _ Hcreate H1). fold baseline_statements.
  assert (only is_read (verifyCanonicalSchemas CanonicalBaselineSpecs)) as Hv
    by by apply only_verifyCanonicalSchemas.
  apply runs_bind in H2 as [([] & tr5 & tr6 & -> & H3 & H4)|[(e & H3 & ->)|[H3 ->]]].
  - exists (execs tr6). rewrite execs_app, (reads_no_exec tr5) by by eapply Hv. split; [done|].
    eapply for_each_Forall; [|exact H4]. intros spec tr' o' Hin. by apply mark_finished_execs.
  - exists []. rewrite (reads_no_exec tr4) by by eapply Hv. done.
  - exists []. rewrite (reads_no_exec tr4) by by eapply Hv. done.
Qed.

(** ** Post-baseline migrations *)

(** What one item executes: nothing when it is recorded, else its in-progress record, its
    operations in order, and its finished record. *)
Definition item_statements (item : PostBaselineMigration) (l : list string) : Prop :=
  l = [] ∨ ∃ t1 t2, l = insert_query (pb_Database item) (pb_id item) InProgressStatus t1
      :: (op_sql <$> UpItems (pb_Migration item))
      ++ [insert_query (pb_Database item) (pb_id item) FinishedStatus t2].

Lemma run_migration_returned p item tr :
  runs (run_migration p item) tr (Returned tt) → item_statements item (execs tr).
Proof.
  unfold run_migration. intros ([] & tr1 & tr2 & -> & H1 & H2)%runs_bind_returned.
  rewrite execs_app, (reads_no_exec tr1) by by eapply only_requireEarlier.
  apply runs_bind_returned in H2 as (st & tr3 & tr4 & -> & H3 & H4).
  rewrite execs_app, (reads_no_exec tr3).
  2: { apply only_wrapping with (P := is_read) in H3; [done|apply only_MigrationStatus]. }
  cbn [app]. destruct st as [st|].
  - case_bool_decide; [|by apply runs_throw_inv in H4 as [_ [=]]].
    apply runs_ret_inv in H4 as [-> _]. by left.
  - right. apply runs_bind_returned in H4 as ([] & tr5 & tr6 & -> & H5 & H6).
    apply runs_bind_returned in H6 as ([] & tr7 & tr8 & -> & H7 & H8).
    apply runs_wrapping in H5 as [(? & H5 & _)|[(? & _ & [=])|[_ [=]]]].
    apply runs_wrapping in H8 as [(? & H8 & _)|[(? & _ & [=])|[_ [=]]]].
    apply runs_InsertMigrationEntry in H5 as ([t1 E1] & _).
    apply runs_InsertMigrationEntry in H8 as ([t2 E2] & _).
    apply run_marked_returned in H7. exists t1, t2. by rewrite !execs_app, E1, H7, E2.
Qed.

(** C18. A successful [runPostBaselineMigrations] executes the registered migrations in
    order, each one completely or not at all, between its in-progress and finished
    records. *)
Theorem migrations_run_in_order p tr
    (Hrun : runs (runPostBaselineMigrations p) tr (Returned tt)) :
  ∃ ls, execs tr = concat ls ∧ Forall2 item_statements (postBaselineMigrations p) ls.
Proof.
  unfold runPostBaselineMigrations in Hrun.
  apply runs_bind_returned in Hrun as ([] & tr1 & tr2 & -> & H1 & H2).
  apply runs_bind_returned in H2 as ([] & tr3 & tr4 & -> & H3 & H4).
  rewrite !execs_app, (reads_no_exec tr1), (reads_no_exec tr3);
    [|by eapply only_requireCanonicalBaseline; try exact H3|by eapply only_require_valid_registry].
  apply runs_for_each in H4 as (trs & -> & Hall). exists (execs <$> trs). split; [apply execs_concat|].
  apply Forall2_fmap_r. eapply Forall2_impl; [exact Hall|]. intros item t. apply run_migration_returned.
Qed.

(** *** Records that are not finished *)

(** The answer of a status query that finds a record in another state. *)
Definition bad_status (e : event call_ Resp) : Prop :=
  match e with
  | Ev c r => match c return Resp c → Prop with
              | CQueryStatus _ => λ r, match r with StatusRow st => st ≠ FinishedStatus | _ => False end
              | _ => λ _, False
              end r
  end.
Definition good (e : event call_ Resp) : Prop := ¬ bad_status e.

(** After such an answer the program makes no call and fails for good. *)
Definition stops {A} (p : M A) : Prop :=
  ∀ tr o, runs p tr o → Forall good tr ∨
    ∃ tr1 e err, tr = tr1 ++ [e] ∧ Forall good tr1 ∧ bad_status e ∧ o = Failed (New err).

Lemma stops_only {A} (p : M A) : only good p → stops p.
Proof. intros Hp tr o Hr. left. by eapply Hp. Qed.

Lemma stops_bind {A B} (p : M A) (f : A → M B) : stops p → (∀ a, stops (f a)) → stops (p ≫= f).
Proof.
  intros Hp Hf tr o [(a & tr1 & tr2 & -> & H1 & H2)|[(e & H1 & ->)|[H1 ->]]]%runs_bind.
  - destruct (Hp _ _ H1) as [Hg|(? & ? & ? & _ & _ & _ & [=])].
    destruct (Hf a _ _ H2) as [Hg'|(tr3 & e & err & -> & Hg' & Hb & Ho)].
    + left. by apply Forall_app.
    + right. exists (tr1 ++ tr3), e, err. split; [by rewrite (assoc_L (++))|]. split; [by apply Forall_app|done].
  - destruct (Hp _ _ H1) as [Hg|(tr1 & ev & err & -> & Hg & Hb & [= ->])]; [by left|]. right.
    by exists tr1, ev, err.
  - destruct (Hp _ _ H1) as [Hg|(? & ? & ? & _ & _ & _ & [=])]. by left.
Qed.

Lemma stops_for_each {X} (f : X → M unit) l : (∀ x, stops (f x)) → stops (for_each f l).
Proof.
  intros Hf. induction l as [|x l IH]; cbn [for_each]; [apply stops_only, only_ret|by apply stops_bind].
Qed.

Lemma stops_status {A} db id (f : option string → M A) :
  (∀ st, st ≠ FinishedStatus → ∃ e, f (Some st) = Throw (New e)) →
  stops (f (Some FinishedStatus)) → stops (f None) →
  stops (st ← wrapping NewRetryableError (MigrationStatus db id); f st).
Proof.
  intros Hbad Hfin Hnone.
  assert (∀ tr o, runs (wrapping NewRetryableError (MigrationStatus db id)) tr o →
    ∃ q r, tr = [Ev (CQueryStatus q) r] ∧
      match r with
      | StatusRow st => o = Returned (Some st)
      | NoRows => o = Returned None
      | RowError e => o = Failed (NewRetryableError (ErrConn e))
      end) as Hq.
  { intros tr o Hr. unfold MigrationStatus in Hr.
    apply runs_wrapping in Hr as [(a & Hr & ->)|[(e & Hr & ->)|[Hr ->]]];
      apply runs_call_bind in Hr as (r & tr' & -> & Hr); destruct r as [st| |e']; cbn in Hr;
      first [apply runs_ret_inv in Hr as [-> [= ->]]|apply runs_throw_inv in Hr as [-> [= ->]]|
             apply runs_ret_inv in Hr as [_ [=]]|apply runs_throw_inv in Hr as [_ [=]]];
      eexists _, _; (split; [reflexivity|reflexivity]). }
  intros tr o [(a & tr1 & tr2 & -> & H1 & H2)|[(e & H1 & ->)|[H1 ->]]]%runs_bind;
    destruct (Hq _ _ H1) as (q & r & -> & Hr); destruct r as [st| |e']; simplify_eq Hr.
  - intros ->. destruct (decide (st = FinishedStatus)) as [->|Hst].
    + destruct (Hfin _ _ H2) as [Hg|(tr3 & e & err & -> & Hg & Hb & Ho)].
      * left. constructor; [|done]. unfold good. cbn. congruence.
      * right. exists (Ev (CQueryStatus q) (StatusRow FinishedStatus) :: tr3), e, err.
        split; [done|]. split; [|done]. constructor; [|done]. unfold good. cbn. congruence.
    + destruct (Hbad st Hst) as [e Hf]. rewrite Hf in H2. apply runs_throw_inv in H2 as [-> ->].
      right. exists [], (Ev (CQueryStatus q) (StatusRow st)), e. done.
  - intros ->. destruct (Hnone _ _ H2) as [Hg|(tr3 & e & err & -> & Hg & Hb & Ho)].
    + left. constructor; [|done]. (unfold good; cbn; tauto).
    + right. exists (Ev (CQueryStatus q) NoRows :: tr3), e, err. split; [done|].
      split; [|done]. constructor; [(unfold good; cbn; tauto)|done].
  - intros _. left. constructor; [(unfold good; cbn; tauto)|constructor].
Qed.

Lemma not_status_good e : not_status e → good e.
Proof. destruct e as [[] r]; cbn; unfold good; cbn; tauto. Qed.

Lemma only_good {A} (p : M A) : only not_status p → only good p.
Proof. intros Hp tr o Hr. eapply Forall_impl; [by eapply Hp|]. apply not_status_good. Qed.

Lemma stops_requireEarlier m p : stops (requireEarlierPostBaselineMigrations m p).
Proof.
  apply stops_for_each. intros earlier. apply stops_status.
  - intros st Hst. rewrite bool_decide_eq_false_2 by done. by eexists.
  - rewrite bool_decide_eq_true_2 by done. apply stops_only, only_ret.
  - apply stops_only, only_throw.
Qed.

Lemma stops_run_migration p item : stops (run_migration p item).
Proof.
  unfold run_migration. apply stops_bind; [apply stops_requireEarlier|intros _]. apply stops_status.
  - intros st Hst. rewrite bool_decide_eq_false_2 by done. by eexists.
  - rewrite bool_decide_eq_true_2 by done. apply stops_only, only_ret.
  - assert (∀ db id st, only good (InsertMigrationEntry db id st)) as Hi.
    { intros db id st. apply only_good. intros tr o Hr. by apply runs_InsertMigrationEntry in Hr as (_ & ? & _). }
    apply stops_only. apply only_bind; [by apply only_wrapping|intros _].
    apply only_bind; [|intros _; by apply only_wrapping].
    apply only_for_each. intros x. apply only_good. intros tr o Hr. by apply runs_run_marked in Hr as [? _].
Qed.

(** No automatic recovery: when a run of [runPostBaselineMigrations] reads a record
    that is in progress or failed, of an item or of a prerequisite, that is its last call
    and it fails with an error that is not retried. *)
Theorem unfinished_never_retried p tr o tr1 q st tr2
    (Hrun : runs (runPostBaselineMigrations p) tr o)
    (Htr : tr = tr1 ++ Ev (CQueryStatus q) (StatusRow st) :: tr2) (Hst : st ≠ FinishedStatus) :
  tr2 = [] ∧ ∃ e, o = Failed e ∧ IsRetryable e = false.
Proof.
  assert (stops (runPostBaselineMigrations p)) as Hs.
  { unfold runPostBaselineMigrations. apply stops_bind; [|intros _; apply stops_bind; [|intros _]].
    - apply stops_only, only_require_valid_registry.
    - apply stops_only, only_good. by apply only_requireCanonicalBaseline.
    - apply stops_for_each, stops_run_migration. }
  assert (bad_status (Ev (CQueryStatus q) (StatusRow st))) as Hbad by exact Hst.
  destruct (Hs tr o Hrun) as [Hg|(tr3 & e & err & E & Hg & Hb & ->)].
  - subst tr. apply Forall_app in Hg as [_ Hg]. by apply Forall_inv in Hg.
  - split; [|by eexists]. subst tr. destruct tr2 as [|z tr2 _] using rev_ind; [done|]. exfalso.
    rewrite app_comm_cons, (assoc_L (++)) in E. apply app_inj_tail in E as [<- _].
    apply Forall_app in Hg as [_ Hg]. by apply Forall_inv in Hg.
Qed.

(** ** The retry loop *)

(** A failed attempt with the wait that follows it. *)
Definition retry_events (r : trace * error * Z) : trace :=
  r.1.1 ++ [Ev CNextBackOff (Some r.2); Ev (CSleep r.2) tt].

(** The retry loop: every attempt but the last failed with a retryable error and was
    followed by one wait of the length the back-off policy gave; the last one succeeded, or
    failed with an error that is not retryable, or the policy said stop. The bound on the
    attempts is reached only when the policy has granted that many waits. *)
Theorem retry_loop fail timeout attempt fuel tr o
    (Hrun : runs (Run fail timeout attempt fuel) tr o) :
  ∃ retries last, tr = (retries ≫= retry_events) ++ last
    ∧ Forall (λ r, runs attempt r.1.1 (Failed r.1.2) ∧ IsRetryable r.1.2 = true) retries
    ∧ ((o = Returned tt ∧ runs attempt last (Returned tt))
       ∨ (∃ e, o = Failed (fail e) ∧ runs attempt last (Failed e) ∧ IsRetryable e = false)
       ∨ (∃ e t, o = Failed timeout ∧ last = t ++ [Ev CNextBackOff None]
            ∧ runs attempt t (Failed e) ∧ IsRetryable e = true)
       ∨ (o = Crashed ∧ runs attempt last Crashed)
       ∨ (o = Failed OutOfFuel ∧ last = [] ∧ length retries = fuel)).
Proof.
  revert tr Hrun. induction fuel as [|fuel IH]; intros tr Hrun; cbn [Run] in Hrun.
  { apply runs_throw_inv in Hrun as [-> ->]. exists [], []. split; [done|]. split; [constructor|].
    by repeat right. }
  apply runs_bind in Hrun as [(r & tr1 & tr2 & -> & H1 & H2)|[(e & H1 & ->)|[H1 ->]]].
  2: { by apply runs_try in H1 as [(? & _ & [=])|[(? & _ & [=])|[_ [=]]]]. }
  2: { apply runs_try in H1 as [(? & _ & [=])|[(? & _ & [=])|[H1 _]]]. exists [], tr.
       split; [done|]. split; [constructor|]. right; right; right; left. done. }
  apply runs_try in H1 as [([] & H1 & [= ->])|[(e & H1 & [= ->])|[_ [=]]]].
  { apply runs_ret_inv in H2 as [-> ->]. rewrite app_nil_r. exists [], tr1.
    split; [done|]. split; [constructor|]. by left. }
  destruct (IsRetryable e) eqn:Er; cbn [negb] in H2.
  2: { apply runs_throw_inv in H2 as [-> ->]. rewrite app_nil_r. exists [], tr1.
       split; [done|]. split; [constructor|]. right; left. by exists e. }
  apply (runs_call_bind (Resp := Resp) CNextBackOff) in H2 as (d & tr3 & -> & H2).
  destruct d as [d|].
  - apply (runs_call_bind (Resp := Resp) (CSleep d)) in H2 as ([] & tr4 & -> & H2).
    destruct (IH tr4 H2) as (retries & last & -> & Hf & Hlast).
    exists ((tr1, e, d) :: retries), last. split.
    { cbn [mbind list_bind]. unfold retry_events at 2. cbn. by rewrite <- !(assoc_L (++)). }
    split; [by constructor|]. destruct Hlast as [?|[?|[?|[?|(? & ? & Hlen)]]]].
    + by left.
    + by right; left.
    + by right; right; left.
    + by right; right; right; left.
    + right; right; right; right. split; [done|]. split; [done|]. cbn. by rewrite Hlen.
  - apply runs_throw_inv in H2 as [-> ->]. exists [], (tr1 ++ [Ev CNextBackOff None]).
    split; [done|]. split; [constructor|]. right; right; left. by exists e, tr1.
Qed.
End properties.

(** ** Runs against a concrete service *)

(** One migration of the logs, and one statement in the baseline of the traces. *)
Definition example_migration : PostBaselineMigration :=
  {| pb_Database := SigInsightLogsDB;
     pb_Migration :=
       {| MigrationID := 2000;
          UpItems := [Some (OpStaticDDL {| sd_Database := SigInsightLogsDB; sd_Table := "a";
                                       sd_Query := "CREATE TABLE a" |})];
          DownItems := [] |} |}.
#[local] Instance example_registry : Registry :=
  {| PostBaselineSyncMigrations := [example_migration];
     PostBaselineAsyncMigrations := [];
     canonicalBaselineDDLOperations :=
       {[ SigInsightTracesDB := 
           [Some (OpStaticDDL {| sd_Database := SigInsightTracesDB; sd_Table := "t";
                                 sd_Query := "CREATE TABLE t" |})] ]} |}.

(** A server where every statement succeeds and the schema matches. [installed] says
    whether the baseline is there; [row] answers the status queries. *)
Definition fingerprint_answer (query : string) (args : list string) : Z * Z :=
  match canonicalSchemaFingerprints !! default "" (head args) with
  | Some f =>
      if bool_decide (query = canonicalTableFingerprintQuery) then (TableCount f, TableHash f)
      else if bool_decide (query = canonicalColumnFingerprintQuery) then (ColumnCount f, ColumnHash f)
      else (IndexCount f, IndexHash f)
  | None => (0, 0)
  end.
Definition server (installed : bool) (row : status_row) (c : call_) (w : unit) : Resp c * unit :=
  (match c return Resp c with
   | CExec _ _ | CPing => Ok tt
   | CQueryCounts3 _ _ => Ok (if installed then 1 else 0, 0, 1)
   | CQueryCounts2 query args => Ok (fingerprint_answer query args)
   | CQueryCount _ _ => Ok 1
   | CQueryMigrations _ => Ok (if installed then [Ok (999, FinishedStatus)] else [], None)
   | CQueryNames _ => Ok ([], None)
   | CQueryStatus _ => row
   | CNow => "now"
   | CNextBackOff => Some 1
   | CSleep _ => tt
   end, w).
Definition outcome_of {A} (installed : bool) (row : status_row) (p : M A) : final error A * trace :=
  (exec (server installed row) p tt).1.
Definition run_of {A} (installed : bool) (row : status_row) (p : M A) :
  runs p (outcome_of installed row p).2 (outcome_of installed row p).1 :=
  exec_runs (server installed row) p tt.

Definition returned {A} (o : final error A) : bool := match o with Returned _ => true | _ => false end.
Definition retryable {A} (o : final error A) : bool :=
  match o with Failed e => IsRetryable e | _ => false end.
Lemma returned_tt (o : final error unit) : returned o = true → o = Returned tt.
Proof. by destruct o as [[]| |]. Qed.

Example server_baseline :
  execs (outcome_of false NoRows ensureCanonicalBaseline).2
  = "CREATE TABLE t" :: ((λ db, insert_query db 999 FinishedStatus "now") <$> Databases).
Proof. vm_compute. reflexivity. Qed.

Lemma checks_only_read_witness :
  execs (outcome_of true (StatusRow FinishedStatus) (SyncCheckRun 3)).2 = []
  ∧ returned (outcome_of true (StatusRow FinishedStatus) (SyncCheckRun 3)).1 = true.
Proof.
  split; [|vm_compute; reflexivity].
  exact (checks_only_read 3 _ _ (or_introl (run_of true (StatusRow FinishedStatus) (SyncCheckRun 3)))).
Defined.

Lemma baseline_created_only_when_empty_witness :
  ∃ tr1 tr2 report, (outcome_of false NoRows ensureCanonicalBaseline).2 = tr1 ++ tr2 ∧ execs tr1 = []
    ∧ runs InspectCanonicalBaselineState tr1 (Returned report)
    ∧ bi_Database <$> br_Databases report = Databases
    ∧ Forall (λ i, bi_DomainTableCount i = 0 ∧ bi_LegacyTrackingTableCount i = 0
                   ∧ State i = BaselineStateEmpty) (br_Databases report).
Proof.
  apply (baseline_created_only_when_empty _ _ (run_of false NoRows ensureCanonicalBaseline)).
  assert (negb (bool_decide (execs (outcome_of false NoRows ensureCanonicalBaseline).2 = [])) = true) as E
    by (vm_compute; reflexivity).
  intros H. rewrite (bool_decide_eq_true_2 _ H) in E. discriminate E.
Defined.

Lemma baseline_all_or_nothing_witness :
  let run := outcome_of false NoRows ensureCanonicalBaseline in
  execs run.2 = [] ∨ ∃ marks, execs run.2 = baseline_statements ++ marks ∧ Forall is_marker marks.
Proof.
  refine (baseline_all_or_nothing _ _ (run_of false NoRows ensureCanonicalBaseline) (or_introl _)).
  apply returned_tt. vm_compute. reflexivity.
Defined.

Lemma migrations_run_in_order_witness :
  let run := outcome_of true NoRows (runPostBaselineMigrations sync_phase) in
  execs run.2 = [insert_query SigInsightLogsDB 2000 InProgressStatus "now"; "CREATE TABLE a";
                 insert_query SigInsightLogsDB 2000 FinishedStatus "now"]
  ∧ ∃ ls, execs run.2 = concat ls ∧ Forall2 item_statements [example_migration] ls.
Proof.
  split; [vm_compute; reflexivity|].
  assert ((outcome_of true NoRows (runPostBaselineMigrations sync_phase)).1 = Returned tt) as E
    by (apply returned_tt; vm_compute; reflexivity).
  pose proof (run_of true NoRows (runPostBaselineMigrations sync_phase)) as Hr.
  rewrite E in Hr. exact (migrations_run_in_order sync_phase _ Hr).
Defined.

Lemma unfinished_never_retried_witness :
  ∃ e, (outcome_of true (StatusRow FailedStatus) (runPostBaselineMigrations sync_phase)).1 = Failed e
    ∧ IsRetryable e = false.
Proof.
  pose (tr := (outcome_of true (StatusRow FailedStatus) (runPostBaselineMigrations sync_phase)).2).
  refine (proj2 (unfinished_never_retried sync_phase _ _ (removelast tr)
    ("SELECT * FROM siginsight_logs.schema_migrations_v2 WHERE migration_id = 2000 SETTINGS final = 1;")
    FailedStatus [] (run_of true (StatusRow FailedStatus) (runPostBaselineMigrations sync_phase)) _ _)).
  - vm_compute. reflexivity.
  - discriminate.
Defined.

(** Three attempts against a server that has no record of the migration. *)
Lemma retry_loop_witness :
  let run := outcome_of true NoRows (SyncCheckRun 3) in
  run.1 = Failed OutOfFuel
  ∧ ∃ retries last, run.2 = (retries ≫= retry_events) ++ last
    ∧ Forall (λ r, runs SyncCheck r.1.1 (Failed r.1.2) ∧ IsRetryable r.1.2 = true) retries.
Proof.
  split; [vm_compute; reflexivity|].
  destruct (retry_loop _ _ SyncCheck 3 _ _ (run_of true NoRows (SyncCheckRun 3)))
    as (retries & last & H1 & H2 & _).
  exists retries, last. exact (conj H1 H2).
Defined.
