(* ===== verification/BootstrapProps.v ===== *)
(** * Runs of the bootstrap command

    What [Migrate.Bootstrap] (src/cmd/siginsightotelcollector/migrate/bootstrap.go) does
    to the server, on the answers it gets. *)
From S2P Require Import Prelude ColumnTypes Operations Registry Prog Migrate MigrateProps.

(** The counts the server answers. *)
Definition count_answer (e : event call_ Resp) : option Z :=
  match e with
  | Ev c r =>
      match c return Resp c → option Z with
      | CQueryCount _ _ => λ r, match r with Ok n => Some n | Err _ => None end
      | _ => λ _, None
      end r
  end.
Definition count_answers (tr : trace) : list Z := omap count_answer tr.

Lemma count_answers_app tr1 tr2 : count_answers (tr1 ++ tr2) = count_answers tr1 ++ count_answers tr2.
Proof. apply omap_app. Qed.

Lemma runs_Exec_counts q a tr o : runs (Exec q a) tr o → count_answers tr = [] ∧ execs tr = [q].
Proof. by intros (r & -> & _)%runs_Exec. Qed.

Lemma runs_RunOperation_skip op id db tr :
  runs (RunOperation op id db true) tr (Returned tt) → execs tr = [op_sql op] ∧ count_answers tr = [].
Proof.
  unfold RunOperation. cbn. unfold operation_SQL. intros H. destruct op as [op|].
  2: { by apply runs_crash_inv in H as [_ [=]]. }
  change (op_sql (Some op)) with (default "" (ToSQL op)). destruct (ToSQL op) as [sql|].
  2: { by apply runs_crash_inv in H as [_ [=]]. }
  apply (runs_call_bind (Resp := Resp) (CExec sql [])) in H as (r & tr' & -> & H).
  destruct r as [[]|e]; [|by apply runs_throw_inv in H as [_ [=]]].
  by apply runs_ret_inv in H as [-> _].
Qed.

(** A statement for each migration table. *)
Definition table_statement (m : SchemaMigrationRecord) : list string := op_sql <$> UpItems m.

Lemma runs_create_table m t db tr :
  UpItems m = [Some (OpCreateTable t)] →
  runs (create_migration_tables [m] db) tr (Returned tt) →
  ∃ n, count_answers tr = [n] ∧ execs tr = if 0 <? n then [] else table_statement m.
Proof.
  intros Hm Hr. unfold create_migration_tables, table_statement in *. cbn [for_each] in Hr.
  rewrite Hm in *. cbn [for_each] in Hr.
  apply runs_bind_returned in Hr as ([] & tr1 & tr2 & -> & H1 & [-> _]%runs_ret_inv).
  apply runs_bind_returned in H1 as ([] & tr3 & tr4 & -> & H3 & [-> _]%runs_ret_inv).
  rewrite !app_nil_r. apply runs_bind_returned in H3 as (b & tr5 & tr6 & -> & H5 & H6).
  cbn [ShouldRunOperation] in H5.
  apply runs_bind_returned in H5 as (n & tr7 & tr8 & -> & H7 & [-> [= ->]]%runs_ret_inv).
  unfold conn in H7.
  apply (runs_call_bind (Resp := Resp) (CQueryCount _ _)) in H7 as (r & tr9 & -> & H9).
  destruct r as [n'|e]; [|by apply runs_throw_inv in H9 as [_ [=]]].
  apply runs_ret_inv in H9 as [-> [= ->]]. exists n'. destruct (0 <? n'); cbn [negb] in H6.
  - apply runs_ret_inv in H6 as [-> _]. done.
  - apply runs_RunOperation_skip in H6 as [He Hc]. rewrite count_answers_app, execs_app, Hc, He. done.
Qed.

Definition migration_tables : list SchemaMigrationRecord :=
  V2MigrationTablesLogs ++ V2MigrationTablesMetrics ++ V2MigrationTablesTraces
  ++ V2MigrationTablesMetadata ++ V2MigrationTablesAnalytics ++ V2MigrationTablesMeter.

(** The statements for the tables whose count is not positive. *)
Fixpoint missing_tables (counts : list Z) (ms : list SchemaMigrationRecord) : list string :=
  match counts, ms with
  | n :: counts, m :: ms => (if 0 <? n then [] else table_statement m) ++ missing_tables counts ms
  | _, _ => []
  end.

Lemma runs_CreateMigrationTables tr :
  runs CreateMigrationTables tr (Returned tt) →
  length (count_answers tr) = 6%nat ∧ execs tr = missing_tables (count_answers tr) migration_tables.
Proof.
  unfold CreateMigrationTables. intros H.
  assert (∀ m db (p : M unit) tr, (∃ t, UpItems m = [Some (OpCreateTable t)]) →
    runs (_ ← create_migration_tables [m] db; p) tr (Returned tt) →
    ∃ n tr', runs p tr' (Returned tt) ∧ count_answers tr = n :: count_answers tr'
      ∧ execs tr = (if 0 <? n then [] else table_statement m) ++ execs tr') as Hstep.
  { clear. intros m db p tr [t Hm] ([] & tr1 & tr2 & -> & H1 & H2)%runs_bind_returned.
    destruct (runs_create_table m t db tr1 Hm H1) as (n & Hc & He). exists n, tr2.
    rewrite count_answers_app, execs_app, Hc, He. done. }
  apply Hstep in H as (n1 & tr1 & H & -> & ->); [|by eexists].
  apply Hstep in H as (n2 & tr2 & H & -> & ->); [|by eexists].
  apply Hstep in H as (n3 & tr3 & H & -> & ->); [|by eexists].
  apply Hstep in H as (n4 & tr4 & H & -> & ->); [|by eexists].
  apply Hstep in H as (n5 & tr5 & H & -> & ->); [|by eexists].
  destruct (runs_create_table (migrationTableMigration 6 SigInsightMeterDB) _ _ _ eq_refl H) as (n6 & -> & ->).
  split; [done|].
  change migration_tables with [migrationTableMigration 1 SigInsightLogsDB;
    migrationTableMigration 3 SigInsightMetricsDB; migrationTableMigration 2 SigInsightTracesDB;
    migrationTableMigration 4 SigInsightMetadataDB; migrationTableMigration 5 SigInsightAnalyticsDB;
    migrationTableMigration 6 SigInsightMeterDB].
  cbn [missing_tables]. by rewrite app_nil_r.
Qed.

Lemma scan_names_spec l names s :
  scan_names l names = Ok s →
  ∃ read, l = Ok <$> read ∧ ∀ db, db ∈ s ↔ db ∈ names ∨ db ∈ read.
Proof.
  revert names. induction l as [|[name|e] l IH]; intros names; cbn; [|intros H|done].
  - intros [= <-]. exists []. split; [done|]. intros db. rewrite elem_of_nil. tauto.
  - destruct (IH _ H) as (read & -> & Hs). exists (name :: read). split; [done|].
    intros db. rewrite Hs, elem_of_union, elem_of_singleton, elem_of_cons. tauto.
Qed.

Definition create_database (db : string) : string := "CREATE DATABASE " +:+ db.

Lemma runs_create_databases (databases : gset string) l tr :
  runs (for_each (λ database,
        if bool_decide (database ∈ databases) then Ret tt
        else Exec ("CREATE DATABASE " +:+ database) []) l) tr (Returned tt) →
  execs tr = create_database <$> filter (λ db, db ∉ databases) l ∧ count_answers tr = [].
Proof.
  revert tr. induction l as [|db l IH]; intros tr H; cbn [for_each] in H.
  - by apply runs_ret_inv in H as [-> _].
  - apply runs_bind_returned in H as ([] & tr1 & tr2 & -> & H1 & H2).
    destruct (IH _ H2) as [He Hc]. rewrite execs_app, count_answers_app, He, Hc, filter_cons.
    case_bool_decide as Hdb.
    + apply runs_ret_inv in H1 as [-> _]. rewrite decide_False by tauto. done.
    + apply runs_Exec_counts in H1 as [-> ->]. rewrite decide_True by done. done.
Qed.

(** A successful bootstrap creates exactly what is missing, in order: the databases
    the server did not list, then the migration tables of which it counted none. *)
Theorem bootstrap_creates_missing tr (Hrun : runs Bootstrap tr (Returned tt)) :
  ∃ names rows_err tr', tr = Ev (CQueryNames "SELECT name FROM system.databases")
                              (Ok (Ok <$> names, rows_err)) :: tr'
    ∧ length (count_answers tr) = 6%nat
    ∧ execs tr = (create_database <$> filter (λ db, db ∉ names) Databases)
                 ++ missing_tables (count_answers tr) migration_tables.
Proof.
  unfold Bootstrap in Hrun. apply runs_bind_returned in Hrun as ([] & tr1 & tr2 & -> & H1 & H2).
  apply runs_CreateMigrationTables in H2 as [Hlen H2]. unfold CreateDatabases, conn in H1.
  apply runs_bind_returned in H1 as ([l rows_err] & tr3 & tr4 & -> & H3 & H4).
  apply (runs_call_bind (Resp := Resp) (CQueryNames _)) in H3 as (r & tr5 & -> & H3).
  destruct r as [[l' re]|e]; [|by apply runs_throw_inv in H3 as [_ [=]]].
  apply runs_ret_inv in H3 as [-> [= -> ->]].
  destruct (scan_names l' ∅) as [databases|e] eqn:Es; [|by apply runs_throw_inv in H4 as [_ [=]]].
  apply scan_names_spec in Es as (names & -> & Hs).
  apply runs_create_databases in H4 as [He Hc].
  exists names, re, (tr4 ++ tr2). split; [done|].
  assert (count_answers (([Ev (CQueryNames "SELECT name FROM system.databases")
     (Ok (Ok <$> names, re))] ++ tr4) ++ tr2) = count_answers tr2) as Hca
    by by rewrite !count_answers_app, Hc.
  split; [by etrans; [apply (f_equal length Hca)|]|].
  etrans; [|apply (f_equal (λ c, _ ++ missing_tables c migration_tables) (eq_sym Hca))].
  assert (filter (λ db, db ∉ databases) Databases = filter (λ db, db ∉ names) Databases) as <-.
  { apply list_filter_iff. intros db. rewrite Hs. set_solver. }
  rewrite !execs_app, He, H2. reflexivity.
Qed.

(** A server that lists the database of the traces and has no tables. *)
Definition fresh_server (c : call_) (w : unit) : Resp c * unit :=
  (match c return Resp c with
   | CExec _ _ | CPing => Ok tt
   | CQueryCounts3 _ _ => Ok (0, 0, 0)
   | CQueryCounts2 _ _ => Ok (0, 0)
   | CQueryCount _ _ => Ok 0
   | CQueryMigrations _ => Ok ([], None)
   | CQueryNames _ => Ok ([Ok SigInsightTracesDB], None)
   | CQueryStatus _ => NoRows
   | CNow => "now"
   | CNextBackOff => None
   | CSleep _ => tt
   end, w).

Lemma bootstrap_creates_missing_witness :
  let tr := (exec fresh_server Bootstrap tt).1.2 in
  length (execs tr) = 11%nat
  ∧ ∃ names rows_err tr', tr = Ev (CQueryNames "SELECT name FROM system.databases")
                              (Ok (Ok <$> names, rows_err)) :: tr'
    ∧ length (count_answers tr) = 6%nat
    ∧ execs tr = (create_database <$> filter (λ db, db ∉ names) Databases)
                 ++ missing_tables (count_answers tr) migration_tables.
Proof.
  split; [vm_compute; reflexivity|].
  assert ((exec fresh_server Bootstrap tt).1.1 = Returned tt) as E
    by (apply returned_tt; vm_compute; reflexivity).
  pose proof (exec_runs fresh_server Bootstrap tt) as Hr. rewrite E in Hr.
  exact (bootstrap_creates_missing _ Hr).
Defined.
