(* ===== verification/StanzaField.v ===== *)
(** * Fields of a log entry

    src/processor/signozlogspipelineprocessor/stanza/entry: field.go and body_field.go.
    A field is a path, read from JSON dot notation. A [map[string]any] is a reference, so
    entries live in a store of maps; a panic (a write to a nil map) is [None]. The entry
    package of stanza and the JSON decoder are parameters. *)
From S2P Require Import Prelude.

(** ** JSON dot notation (field.go) *)

Definition dot : ascii := ".".
Definition left_bracket : ascii := "[".
Definition right_bracket : ascii := "]".
Definition single_quote : ascii := "'".
Definition double_quote : ascii := ascii_of_nat 34.

Inductive splitState := Begin | InBracket | InQuote | OutQuote | OutBracket | InUnbracketedToken.

(** The end of the loop: the state it ends in, and the fields; [tok] is
    [s[tokenStart:]], [fields] the fields so far. *)
Definition split_end (state : splitState) (quoteChar : ascii) (tok : list ascii)
    (fields : list (list ascii)) : result string (list (list ascii)) :=
  let finish fields :=
    match fields with [] => Err "fields size is 0" | _ => Ok fields end in
  match state with
  | InBracket | OutQuote => Err "found unclosed left bracket"
  | InQuote => Err (if Ascii.eqb quoteChar double_quote then "found unclosed double quote"
                    else "found unclosed single quote")
  | InUnbracketedToken => finish (fields ++ [tok])
  | Begin | OutBracket => finish fields
  end.

(** The loop. The characters it looks for are ASCII, so it is the same over the bytes as
    over the runes. [tok] is [s[tokenStart:i]]. *)
Fixpoint split_loop (state : splitState) (quoteChar : ascii) (tok : list ascii)
    (fields : list (list ascii)) (s : list ascii) : result string (list (list ascii)) :=
  match s with
  | [] => split_end state quoteChar tok fields
  | c :: s =>
      match state with
      | Begin =>
          if Ascii.eqb c left_bracket then split_loop InBracket quoteChar tok fields s
          else split_loop InUnbracketedToken quoteChar [c] fields s
      | InBracket =>
          if negb (Ascii.eqb c single_quote || Ascii.eqb c double_quote)
          then Err "strings in brackets must be surrounded by quotes"
          else split_loop InQuote c [] fields s
      | InQuote =>
          if Ascii.eqb c quoteChar then split_loop OutQuote quoteChar [] (fields ++ [tok]) s
          else split_loop InQuote quoteChar (tok ++ [c]) fields s
      | OutQuote =>
          if negb (Ascii.eqb c right_bracket)
          then Err "found characters between closed quote and closing bracket"
          else split_loop OutBracket quoteChar [] fields s
      | OutBracket =>
          if Ascii.eqb c dot then split_loop InUnbracketedToken quoteChar [] fields s
          else if Ascii.eqb c left_bracket then split_loop InBracket quoteChar [] fields s
          else Err "bracketed access must be followed by a dot or another bracketed access"
      | InUnbracketedToken =>
          if Ascii.eqb c dot then split_loop InUnbracketedToken quoteChar [] (fields ++ [tok]) s
          else if Ascii.eqb c left_bracket
          then split_loop InBracket quoteChar [] (fields ++ [tok]) s
          else split_loop InUnbracketedToken quoteChar (tok ++ [c]) fields s
      end
  end.

Definition fromJSONDot (s : string) : result string (list string) :=
  match split_loop Begin "000" [] [] (bytes s) with
  | Ok fields => Ok (of_bytes <$> fields)
  | Err e => Err e
  end.

(** [containsDots]: some key has a dot. *)
Definition containsDots (keys : list string) : bool := existsb (contains_byte dot) keys.
Definition bracketed (key : string) : string := "['" +:+ key +:+ "']".
Definition toJSONDot (prefix : string) (keys : list string) : string :=
  match keys with
  | [] => prefix
  | _ => prefix +:+ if containsDots keys then join "" (bracketed <$> keys)
                    else "." +:+ join "." keys
  end.

(** The constants of the entry package. *)
Class EntryPrefixes := {
  AttributesPrefix : string;
  ResourcePrefix : string;
  BodyPrefix : string;
}.

(** The interface value of a field: a field of the body, or one of the entry package's
    attribute and resource fields. *)
Inductive Field :=
| AttributeField (keys : list string)
| ResourceField (keys : list string)
| BodyField (keys : list string).

Definition newField `{EntryPrefixes} (s : string) (rootable : bool) : result string Field :=
  match fromJSONDot s with
  | Err e => Err ("splitting field: " +:+ e)
  | Ok [] => Err "unrecognized prefix"
  | Ok (key :: keys) =>
      if bool_decide (key = AttributesPrefix) then
        if negb rootable && bool_decide (keys = [])
        then Err "attributes cannot be referenced without subfield"
        else Ok (AttributeField keys)
      else if bool_decide (key = ResourcePrefix) then
        if negb rootable && bool_decide (keys = [])
        then Err "resource cannot be referenced without subfield"
        else Ok (ResourceField keys)
      else if bool_decide (key = BodyPrefix) then Ok (BodyField keys)
      else Err "unrecognized prefix"
  end.
Definition NewField `{EntryPrefixes} (s : string) : result string Field := newField s false.

(** [BodyField.UnmarshalText]: the keys of the receiver after the call. *)
Definition BodyField_UnmarshalText `{EntryPrefixes} (text : string) : result string (list string) :=
  match fromJSONDot text with
  | Err e => Err e
  | Ok (key :: keys) =>
      if bool_decide (key = BodyPrefix) then Ok keys
      else Err ("must start with 'body': " +:+ text)
  | Ok [] => Err ("must start with 'body': " +:+ text)
  end.

(** ** Body fields (body_field.go) *)

Definition NewBodyField (keys : list string) : Field := BodyField keys.
Definition isRoot (keys : list string) : bool := bool_decide (keys = []).
Definition Parent (keys : list string) : list string :=
  if isRoot keys then keys else take (length keys - 1) keys.
Definition Child (keys : list string) (key : string) : list string := keys ++ [key].
Definition BodyField_String `{EntryPrefixes} (keys : list string) : string :=
  toJSONDot BodyPrefix keys.

Example dot_plain : fromJSONDot "body.a.b" = Ok ["body"; "a"; "b"].
Proof. reflexivity. Qed.
Example dot_brackets : fromJSONDot (toJSONDot "body" ["a.b"; "c"]) = Ok ["body"; "a.b"; "c"].
Proof. reflexivity. Qed.
Example dot_unclosed : fromJSONDot "body['a" = Err "found unclosed single quote".
Proof. reflexivity. Qed.

(** ** Reading back what is printed *)

Lemma split_token q tok fields seg rest :
  dot ∉ seg → left_bracket ∉ seg →
  split_loop InUnbracketedToken q tok fields (seg ++ rest)
  = split_loop InUnbracketedToken q (tok ++ seg) fields rest.
Proof.
  revert tok. induction seg as [|c seg IH]; intros tok Hd Hb; [by rewrite app_nil_r|].
  apply not_elem_of_cons in Hd as [Hd Hd']. apply not_elem_of_cons in Hb as [Hb Hb'].
  cbn [app split_loop].
  rewrite (proj2 (Ascii.eqb_neq c dot)), (proj2 (Ascii.eqb_neq c left_bracket)) by congruence.
  rewrite IH by done. by rewrite <- (assoc_L (++)).
Qed.

Lemma split_quoted q fields tok seg rest :
  q ∉ seg →
  split_loop InQuote q tok fields (seg ++ q :: rest)
  = split_loop OutQuote q [] (fields ++ [tok ++ seg]) rest.
Proof.
  revert tok. induction seg as [|c seg IH]; intros tok Hq; cbn [app split_loop].
  - by rewrite Ascii.eqb_refl, app_nil_r.
  - apply not_elem_of_cons in Hq as [Hq Hq'].
    rewrite (proj2 (Ascii.eqb_neq c q)) by congruence. rewrite IH by done.
    by rewrite <- (assoc_L (++)).
Qed.

Lemma split_joined q keys fields :
  keys ≠ [] → Forall (λ key, dot ∉ bytes key ∧ left_bracket ∉ bytes key) keys →
  split_loop InUnbracketedToken q [] fields (bytes (join "." keys)) = Ok (fields ++ (bytes <$> keys)).
Proof.
  revert fields. induction keys as [|key keys IH]; intros fields Hne Hk; [done|].
  inversion_clear Hk as [|? ? [Hd Hb] Hk']. destruct keys as [|key' keys].
  - cbn [join]. rewrite <- (app_nil_r (bytes key)), split_token by done. cbn. by destruct fields.
  - change (join "." (key :: key' :: keys)) with (key +:+ "." +:+ join "." (key' :: keys)).
    rewrite !bytes_app, split_token by done.
    change (bytes "." ++ ?l) with (dot :: l). cbn [split_loop app].
    rewrite Ascii.eqb_refl, IH by done. cbn. by rewrite <- (assoc_L (++)).
Qed.

Lemma bytes_join_empty l : bytes (join "" l) = concat (bytes <$> l).
Proof.
  induction l as [|s l IH]; [done|]. destruct l as [|s' l].
  - cbn. by rewrite app_nil_r.
  - change (join "" (s :: s' :: l)) with (s +:+ "" +:+ join "" (s' :: l)).
    rewrite !bytes_app, IH. done.
Qed.

Lemma split_brackets q keys fields :
  fields ≠ [] → Forall (λ key, single_quote ∉ bytes key) keys →
  split_loop OutBracket q [] fields (bytes (join "" (bracketed <$> keys)))
  = Ok (fields ++ (bytes <$> keys)).
Proof.
  rewrite bytes_join_empty. revert q fields.
  induction keys as [|key keys IH]; intros q fields Hne Hk.
  - cbn. rewrite app_nil_r. by destruct fields.
  - inversion_clear Hk as [|? ? Hq Hk']. cbn [fmap list_fmap concat]. unfold bracketed at 1.
    rewrite !bytes_app. change (bytes "['") with [left_bracket; single_quote].
    change (bytes "']") with [single_quote; right_bracket]. rewrite <- !(assoc_L (++)).
    cbn [app split_loop Ascii.eqb Bool.eqb negb orb dot left_bracket single_quote].
    change (split_loop InQuote single_quote [] fields (bytes key ++ single_quote :: right_bracket
      :: concat (bytes <$> (bracketed <$> keys))) = Ok (fields ++ bytes key :: (bytes <$> keys))).
    rewrite split_quoted by done. cbn [app split_loop Ascii.eqb Bool.eqb negb right_bracket].
    change (split_loop OutBracket single_quote [] (fields ++ [bytes key])
      (concat (bytes <$> (bracketed <$> keys))) = Ok (fields ++ bytes key :: (bytes <$> keys))).
    rewrite IH; [by rewrite <- (assoc_L (++))|by destruct fields|done].
Qed.

(** A name that is one token: the prefix of a field. *)
Definition token (s : string) : Prop := s ≠ "" ∧ dot ∉ bytes s ∧ left_bracket ∉ bytes s.

(** The keys toJSONDot can print: without brackets they have no bracket, between single
    quotes they have no single quote. *)
Definition printable_keys (keys : list string) : Prop :=
  if containsDots keys then Forall (λ key, single_quote ∉ bytes key) keys
  else Forall (λ key, left_bracket ∉ bytes key) keys.

Lemma contains_byte_spec c s : contains_byte c s = false ↔ c ∉ bytes s.
Proof.
  induction s as [|d s IH]; cbn; [split; [intros _; apply not_elem_of_nil|done]|].
  rewrite orb_false_iff, not_elem_of_cons, IH, Ascii.eqb_neq. done.
Qed.

Lemma containsDots_spec keys : containsDots keys = false ↔ Forall (λ key, dot ∉ bytes key) keys.
Proof.
  induction keys as [|key keys IH]; [by split; [constructor|]|]. cbn.
  rewrite orb_false_iff, Forall_cons, contains_byte_spec, IH. done.
Qed.

Lemma fromJSONDot_toJSONDot prefix keys :
  token prefix → printable_keys keys → fromJSONDot (toJSONDot prefix keys) = Ok (prefix :: keys).
Proof.
  intros (Hne & Hd & Hb) Hk. unfold fromJSONDot.
  assert (∀ rest, split_loop Begin "000" [] [] (bytes prefix ++ rest)
                  = split_loop InUnbracketedToken "000" (bytes prefix) [] rest) as Hstart.
  { intros rest. destruct prefix as [|c prefix]; [done|].
    apply not_elem_of_cons in Hb as [Hb Hb']. apply not_elem_of_cons in Hd as [Hd Hd'].
    change (bytes (String c prefix)) with (c :: bytes prefix).
    cbn [app split_loop]. rewrite (proj2 (Ascii.eqb_neq c left_bracket)) by congruence.
    rewrite split_token by done. done. }
  assert (split_loop Begin "000" [] [] (bytes (toJSONDot prefix keys)) = Ok (bytes <$> prefix :: keys)) as ->.
  2: { f_equal. induction (prefix :: keys) as [|s l IH]; [done|]. cbn. by rewrite of_bytes_bytes, IH. }
  unfold printable_keys in Hk. unfold toJSONDot. destruct keys as [|key keys].
  { rewrite <- (app_nil_r (bytes prefix)) at 1. by rewrite Hstart. }
  rewrite bytes_app, Hstart. destruct (containsDots (key :: keys)) eqn:Hdots.
  - etrans; [|exact (split_brackets "000" (key :: keys) [bytes prefix] ltac:(done) Hk)].
    rewrite bytes_join_empty. reflexivity.
  - rewrite bytes_app. change (bytes "." ++ ?l) with (dot :: l). cbn [split_loop].
    rewrite Ascii.eqb_refl. rewrite split_joined; [done|done|].
    apply containsDots_spec in Hdots. apply Forall_and. by split.
Qed.

(** What the entry package documents of its prefixes. *)
Record prefixes_ok `{EntryPrefixes} : Prop := {
  po_token : token BodyPrefix;
  po_attributes : BodyPrefix ≠ AttributesPrefix;
  po_resource : BodyPrefix ≠ ResourcePrefix;
}.

(** A body field is read back from what it is printed as, when its keys have no
    bracket, or have a dot somewhere and no single quote. *)
Theorem BodyField_roundtrip `{EntryPrefixes} keys
    (Hp : prefixes_ok) (Hk : printable_keys keys) :
  NewField (BodyField_String keys) = Ok (BodyField keys)
  ∧ BodyField_UnmarshalText (BodyField_String keys) = Ok keys.
Proof.
  destruct Hp as [Ht Ha Hr]. unfold NewField, newField, BodyField_UnmarshalText, BodyField_String.
  rewrite fromJSONDot_toJSONDot by done.
  rewrite (bool_decide_eq_false_2 _ Ha), (bool_decide_eq_false_2 _ Hr), bool_decide_eq_true_2; done.
Qed.

#[local] Instance example_prefixes : EntryPrefixes :=
  {| AttributesPrefix := "attributes"; ResourcePrefix := "resource"; BodyPrefix := "body" |}.

Lemma BodyField_roundtrip_witness :
  NewField (BodyField_String ["a.b"; "c[0]"]) = Ok (BodyField ["a.b"; "c[0]"])
  ∧ BodyField_UnmarshalText (BodyField_String ["a.b"; "c[0]"]) = Ok ["a.b"; "c[0]"].
Proof.
  apply BodyField_roundtrip.
  - by repeat split; try apply contains_byte_spec.
  - change (Forall (λ key, single_quote ∉ bytes key) ["a.b"; "c[0]"]).
    repeat constructor; by apply contains_byte_spec.
Defined.

(** A key with a dot and a quote is not read back. *)
Example quote_not_read_back :
  NewField (BodyField_String ["it's.a"])
  = Err "splitting field: found characters between closed quote and closing bracket".
Proof. reflexivity. Qed.

(** ** Entries *)

Section body.
(** Other values of type [any]. *)
Context {other : Type}.

(** A value of type [any]; a map is a reference, [None] when nil. *)
Inductive value :=
| VNil
| VString (s : string)
| VBytes (s : string)
| VMap (m : option nat)
| VOther (o : other).

Definition is_map (v : value) : bool := match v with VMap _ => true | _ => false end.

(** The maps of the heap; [next] is the reference of the next one. *)
Record store := { maps : gmap nat (gmap string value); next : nat }.

Record Entry := { Body : value; Attributes : option nat }.

Definition new_map (h : store) : nat * store :=
  (next h, {| maps := <[next h := ∅]> (maps h); next := S (next h) |}).

(** [m[key]]; a nil map is empty. *)
Definition read_map (h : store) (m : option nat) (key : string) : option value :=
  l ← m; mm ← maps h !! l; mm !! key.
(** [m[key] = v]; a panic on a nil map. *)
Definition write_map (h : store) (m : option nat) (key : string) (v : value) : option store :=
  l ← m; mm ← maps h !! l;
  Some {| maps := <[l := <[key := v]> mm]> (maps h); next := next h |}.
(** [delete(m, key)]. *)
Definition delete_map (h : store) (m : option nat) (key : string) : store :=
  match m with
  | Some l => {| maps := alter (delete key) l (maps h); next := next h |}
  | None => h
  end.

(** [getNestedMap]: the map for the key; another value is replaced, and a key that is not
    there gets a map twice. *)
Definition getNestedMap (h : store) (currentMap : option nat) (key : string) :
    option (option nat * store) :=
  let currentValue := read_map h currentMap key in
  h ← match currentValue with
      | Some _ => Some h
      | None => let '(l, h) := new_map h in write_map h currentMap key (VMap (Some l))
      end;
  match currentValue with
  | Some (VMap nextMap) => Some (nextMap, h)
  | _ =>
      let '(l, h) := new_map h in
      h ← write_map h currentMap key (VMap (Some l));
      Some (Some l, h)
  end.

(** The decoder gives a tree; [alloc] puts its maps on the heap. *)
Inductive json :=
| JLeaf (v : other + string)
| JNull
| JObject (members : list (string * json)).

Fixpoint alloc (j : json) (h : store) : value * store :=
  match j with
  | JLeaf (inl o) => (VOther o, h)
  | JLeaf (inr s) => (VString s, h)
  | JNull => (VNil, h)
  | JObject members =>
      let '(mm, h) :=
        (fix go members h :=
           match members with
           | [] => (∅, h)
           | (key, j) :: members =>
               let '(v, h) := alloc j h in
               let '(mm, h) := go members h in
               (match mm !! key with Some _ => mm | None => <[key := v]> mm end, h)
           end) members h in
      (VMap (Some (next h)), {| maps := <[next h := mm]> (maps h); next := S (next h) |})
  end.

(** [json.Unmarshal] into a map: an error, a nil map for [null], or an object. *)
Context (Unmarshal : string → option (option (list (string * json)))).

Definition cachedBodyJsonKey : string := "__signozlogspipelineprocessor_internal__parsedBodyJson".

(** [ParseBodyJson]: the map, the heap and the entry; [None] when the cached value is not
    a map, where the assertion panics. *)
Definition ParseBodyJson (h : store) (e : Entry) : option (option nat * store * Entry) :=
  match Body e with
  | VMap m => Some (m, h, e)
  | body =>
      let '(attributes, h) :=
        match Attributes e with
        | Some a => (a, h)
        | None => new_map h
        end in
      let e := {| Body := body; Attributes := Some attributes |} in
      match read_map h (Some attributes) cachedBodyJsonKey with
      | Some (VMap m) => Some (m, h, e)
      | Some _ => None
      | None =>
          match body with
          | VString s | VBytes s =>
              match Unmarshal s with
              | Some parsed =>
                  let '(parsedBody, h) :=
                    match parsed with
                    | Some members => alloc (JObject members) h
                    | None => (VMap None, h)
                    end in
                  h ← write_map h (Some attributes) cachedBodyJsonKey parsedBody;
                  Some (match parsedBody with VMap m => m | _ => None end, h, e)
              | None => Some (None, h, e)
              end
          | _ => Some (None, h, e)
          end
      end
  end.

(** The loop of [Get] over the keys. *)
Fixpoint walk (h : store) (currentValue : value) (keys : list string) : option value :=
  match keys with
  | [] => Some currentValue
  | key :: keys =>
      match currentValue with
      | VMap m => v ← read_map h m key; walk h v keys
      | _ => None
      end
  end.

(** [BodyField.Get]: the value, when the field is there, and the heap and the entry. *)
Definition Get (keys : list string) (h : store) (e : Entry) : option (option value * store * Entry) :=
  match keys with
  | [] => Some (Some (Body e), h, e)
  | _ =>
      '(bodyJson, h, e) ← ParseBodyJson h e;
      let currentValue := match bodyJson with Some m => VMap (Some m) | None => Body e end in
      Some (walk h currentValue keys, h, e)
  end.

(** [entry.Body.(map[string]any)], or a new map that becomes the body. *)
Definition body_map (h : store) (e : Entry) : option nat * store * Entry :=
  match Body e with
  | VMap m => (m, h, e)
  | _ => let '(l, h) := new_map h in
         (Some l, h, {| Body := VMap (Some l); Attributes := Attributes e |})
  end.

(** The loop of [Merge] over its keys. *)
Fixpoint nested (h : store) (currentMap : option nat) (keys : list string) :
    option (option nat * store) :=
  match keys with
  | [] => Some (currentMap, h)
  | key :: keys => '(m, h) ← getNestedMap h currentMap key; nested h m keys
  end.
(** The loop of [Merge] over the values, whose order does not matter. *)
Definition merge_values (h : store) (currentMap : option nat) (mapValues : gmap string value) :
    option store :=
  foldl (λ h '(key, v), h ← h; write_map h currentMap key v) (Some h) (map_to_list mapValues).

Definition map_contents (h : store) (m : option nat) : gmap string value :=
  default ∅ (l ← m; maps h !! l).

(** The map to merge is read when its loop starts, after the nested maps are there. *)
Definition Merge (keys : list string) (h : store) (e : Entry) (mapValues : option nat) :
    option (store * Entry) :=
  let '(currentMap, h, e) := body_map h e in
  '(currentMap, h) ← nested h currentMap keys;
  h ← merge_values h currentMap (map_contents h mapValues);
  Some (h, e).

(** The loop of [Set]. *)
Fixpoint set_loop (h : store) (currentMap : option nat) (keys : list string) (v : value) :
    option store :=
  match keys with
  | [] => Some h
  | [key] => write_map h currentMap key v
  | key :: keys => '(m, h) ← getNestedMap h currentMap key; set_loop h m keys v
  end.

Definition Set_ (keys : list string) (h : store) (e : Entry) (v : value) : option (store * Entry) :=
  match v with
  | VMap m => Merge keys h e m
  | _ =>
      if isRoot keys then Some (h, {| Body := v; Attributes := Attributes e |})
      else
        let '(currentMap, h, e) := body_map h e in
        h ← set_loop h currentMap keys v;
        Some (h, e)
  end.

(** The loop of [Delete]: the deleted value, when the field is there. *)
Fixpoint delete_loop (h : store) (currentValue : value) (keys : list string) :
    option value * store :=
  match keys with
  | [] => (None, h)
  | key :: keys =>
      match currentValue with
      | VMap m =>
          match read_map h m key with
          | None => (None, h)
          | Some v => match keys with
                      | [] => (Some v, delete_map h m key)
                      | _ => delete_loop h v keys
                      end
          end
      | _ => (None, h)
      end
  end.

Definition Delete (keys : list string) (h : store) (e : Entry) : option value * store * Entry :=
  if isRoot keys then (Some (Body e), h, {| Body := VNil; Attributes := Attributes e |})
  else let '(v, h) := delete_loop h (Body e) keys in (v, h, e).
End body.

(** ** Tree-shaped bodies *)

Section tree.
Context {other : Type}.
Notation value := (@value other).
Notation store := (@store other).
Implicit Types (h : store) (v : value) (p q : list string).

(** The key [k] of the map [a] holds the map [l]. *)
Definition refers h (l a : nat) (k : string) : Prop :=
  ∃ mm, maps h !! a = Some mm ∧ mm !! k = Some (VMap (Some l)).

(** No map is reachable twice below [v], no reference dangles, and no map below [v] is
    nil: the shape of what a decoder builds. *)
Record tree h v : Prop := {
  tr_fresh l : is_Some (maps h !! l) → (l < next h)%nat;
  tr_refs l a k : refers h l a k → is_Some (maps h !! l);
  tr_unique l a k a' k' : refers h l a k → refers h l a' k' → a = a' ∧ k = k';
  tr_root l : v = VMap (Some l) → is_Some (maps h !! l) ∧ ∀ a k, ¬ refers h l a k;
  tr_nil p : walk h v p ≠ Some (VMap None);
}.

Lemma walk_snoc h v p k :
  walk h v (p ++ [k])
  = match walk h v p with Some (VMap m) => read_map h m k | _ => None end.
Proof.
  revert v. induction p as [|k' p IH]; intros v.
  - cbn [app walk]. destruct v; try done. by destruct (read_map h m k).
  - cbn [app walk]. destruct v; try done. destruct (read_map h m k') as [v'|]; [apply IH|done].
Qed.

Lemma walk_app h v p q : walk h v (p ++ q) = x ← walk h v p; walk h x q.
Proof.
  revert v. induction p as [|k p IH]; intros v; [done|]. cbn [app walk]. destruct v; try done.
  destruct (read_map h m k) as [v'|]; [apply IH|done].
Qed.

Lemma read_refers h m k l :
  read_map h m k = Some (VMap (Some l)) → ∃ a, m = Some a ∧ refers h l a k.
Proof.
  unfold read_map. intros H. destruct m as [a|]; [|done]. cbn in H.
  destruct (maps h !! a) as [mm|] eqn:E; [|done]. exists a. split; [done|]. by exists mm.
Qed.

Lemma walk_parent h v p l :
  walk h v p = Some (VMap (Some l)) →
  (p = [] ∧ v = VMap (Some l))
  ∨ ∃ p' k a, p = p' ++ [k] ∧ walk h v p' = Some (VMap (Some a)) ∧ refers h l a k.
Proof.
  destruct p as [|k p _] using rev_ind; [intros [= ->]; by left|]. rewrite walk_snoc. intros H.
  right. destruct (walk h v p) as [[| | |m|]|] eqn:E; try done.
  apply read_refers in H as (a & -> & Hr). by exists p, k, a.
Qed.

Lemma walk_defined h v p m :
  tree h v → walk h v p = Some (VMap m) → ∃ l, m = Some l ∧ is_Some (maps h !! l).
Proof.
  intros Ht Hw. destruct m as [l|]; [|by apply (tr_nil _ _ Ht) in Hw]. exists l. split; [done|].
  apply walk_parent in Hw as [[_ ->]|(p' & k & a & _ & _ & Hr)].
  - by apply (tr_root _ _ Ht).
  - by eapply tr_refs.
Qed.

(** A map has one path. *)
Lemma walk_unique h v p q l :
  tree h v → walk h v p = Some (VMap (Some l)) → walk h v q = Some (VMap (Some l)) → p = q.
Proof.
  intros Ht. revert q l. induction p as [|k p IH] using rev_ind; intros q l Hp Hq;
    apply walk_parent in Hp as [[E Hv]|(p' & k1 & a1 & E & Hp & Hr1)];
    apply walk_parent in Hq as [[E' Hv']|(q' & k2 & a2 & E' & Hq & Hr2)]; subst;
    try (by destruct p); try (by destruct p'); try done.
  - by apply (tr_root _ _ Ht l eq_refl) in Hr2.
  - by apply (tr_root _ _ Ht l eq_refl) in Hr1.
  - apply app_inj_tail in E as [-> ->]. destruct (tr_unique _ _ Ht _ _ _ _ _ Hr1 Hr2) as [-> ->].
    by rewrite (IH q' a2).
Qed.

(** *** Updates of one key *)

Definition update h (l : nat) (mm : gmap string value) : store :=
  {| maps := <[l := mm]> (maps h); next := next h |}.

(** What may be stored: a value that is no map, or a new empty map. *)
Definition storable h v (w : option value) : Prop :=
  match w with
  | Some (VMap m) => ∃ l, m = Some l ∧ maps h !! l = Some ∅ ∧ v ≠ VMap (Some l) ∧ ∀ a k, ¬ refers h l a k
  | _ => True
  end.

Section update.
Context h v p (l : nat) (mm : gmap string value) (k : string) (w : option value).
Context (Ht : tree h v) (Hp : walk h v p = Some (VMap (Some l))) (Hl : maps h !! l = Some mm)
  (Hw : storable h v w).
Notation h' := (update h l (partial_alter (λ _, w) k mm)).

Lemma refers_update l' a k' :
  refers h' l' a k' →
  (a = l ∧ k' = k ∧ w = Some (VMap (Some l'))) ∨ (refers h l' a k' ∧ (a, k') ≠ (l, k)).
Proof using Hl.
  intros (mm' & Ha & Hk). cbn in Ha. destruct (decide (a = l)) as [->|Hne].
  - rewrite lookup_insert_eq in Ha. injection Ha as <-. destruct (decide (k' = k)) as [->|Hk'].
    + left. rewrite lookup_partial_alter_eq in Hk. done.
    + right. rewrite lookup_partial_alter_ne in Hk by done. split; [by exists mm|congruence].
  - rewrite lookup_insert_ne in Ha by done. right. split; [by exists mm'|congruence].
Qed.

Lemma read_update m k' :
  read_map h' m k' = if decide (m = Some l ∧ k' = k) then w else read_map h m k'.
Proof using Hl.
  unfold read_map. destruct m as [a|]; cbn; [|by rewrite decide_False by naive_solver].
  destruct (decide (a = l)) as [->|Hne].
  - rewrite lookup_insert_eq, Hl. cbn. destruct (decide (k' = k)) as [->|Hk'].
    + rewrite lookup_partial_alter_eq, decide_True; done.
    + rewrite lookup_partial_alter_ne, decide_False by naive_solver. done.
  - rewrite lookup_insert_ne, decide_False by naive_solver. done.
Qed.

Lemma update_other q : ¬ (p ++ [k]) `prefix_of` q → walk h' v q = walk h v q.
Proof using Ht Hp Hl.
  induction q as [|k' q IH] using rev_ind; intros Hq; [done|].
  rewrite !walk_snoc, IH by (by intros Hq'; apply Hq, prefix_app_r).
  destruct (walk h v q) as [[| | |m|]|] eqn:E; try done. rewrite read_update.
  case_decide as Hd; [|done]. destruct Hd as [-> ->].
  by destruct Hq; rewrite (walk_unique h v p q l).
Qed.

Lemma update_at : walk h' v (p ++ [k]) = w.
Proof using Ht Hp Hl.
  rewrite walk_snoc, update_other.
  - rewrite Hp, read_update, decide_True; done.
  - intros Hpre%prefix_length. rewrite length_app in Hpre. cbn in Hpre. lia.
Qed.

Lemma fresh_not_parent l2 : w = Some (VMap (Some l2)) → maps h !! l2 = Some ∅ ∧ l2 ≠ l.
Proof using Hp Hw.
  intros ->. destruct Hw as (? & [= <-] & He & Hv & Hr). split; [done|]. intros ->.
  apply walk_parent in Hp as [[_ ?]|(? & ? & ? & _ & _ & Hr')]; [done|by apply Hr in Hr'].
Qed.

Lemma update_below r : r ≠ [] → walk h' v (p ++ [k] ++ r) = None.
Proof using Ht Hp Hl Hw.
  intros Hr. rewrite (assoc_L (++)), walk_app, update_at. pose proof fresh_not_parent as Hf.
  generalize (partial_alter (λ _, w) k mm). intros mm'. clear Hw.
  destruct w as [w'|]; [|done]. cbn. destruct r as [|k' r]; [done|].
  destruct w' as [| | |[l2|]|]; try done. cbn [walk]. destruct (Hf l2 eq_refl) as [He Hne].
  unfold read_map. cbn. rewrite lookup_insert_ne, He by done. done.
Qed.

Lemma update_tree : tree h' v.
Proof using Ht Hp Hl Hw.
  assert (∀ l', is_Some (maps h' !! l') ↔ is_Some (maps h !! l')) as Hdom.
  { intros l'. cbn. rewrite lookup_insert_is_Some. destruct (decide (l = l')) as [->|]; [|naive_solver].
    rewrite Hl. naive_solver. }
  split.
  - intros l' Hl'%Hdom. exact (tr_fresh _ _ Ht l' Hl').
  - intros l' a k' [(_ & _ & E)|[Hr _]]%refers_update; apply Hdom; [|by eapply tr_refs].
    destruct (fresh_not_parent l' E) as [-> _]. done.
  - intros l' a k1 a' k2 H1 H2.
    apply refers_update in H1 as [(-> & -> & E1)|[H1 _]];
      apply refers_update in H2 as [(-> & -> & E2)|[H2 _]]; [done| | |by eapply tr_unique].
    + rewrite E1 in Hw. destruct Hw as (? & [= <-] & _ & _ & Hr). by apply Hr in H2.
    + rewrite E2 in Hw. destruct Hw as (? & [= <-] & _ & _ & Hr). by apply Hr in H1.
  - intros l' Hv. destruct (tr_root _ _ Ht l' Hv) as [Hd Hn]. split; [by apply Hdom|].
    intros a k' [(_ & _ & E)|[Hr _]]%refers_update; [|by apply Hn in Hr].
    rewrite E in Hw. destruct Hw as (? & [= <-] & _ & Hv' & _). done.
  - intros q. destruct (decide ((p ++ [k]) `prefix_of` q)) as [[r ->]|Hq].
    + rewrite <- (assoc_L (++)). destruct (decide (r = [])) as [->|Hr].
      * rewrite app_nil_r, update_at. intros ->. by destruct Hw as (? & [=] & _).
      * by rewrite update_below.
    + rewrite update_other by done. by apply (tr_nil _ _ Ht).
Qed.
End update.

(** *** New maps *)

Section new_map.
Context h v (Ht : tree h v).
Notation h1 := (new_map h).2.

Lemma new_map_none : maps h !! next h = None.
Proof using Ht.
  apply eq_None_not_Some. intros Hs%(tr_fresh _ _ Ht). lia.
Qed.

Lemma new_map_refers l a k : refers h1 l a k ↔ refers h l a k.
Proof using Ht.
  unfold refers. cbn. destruct (decide (a = next h)) as [->|Hne].
  - rewrite lookup_insert_eq, new_map_none. split; [intros (? & [= <-] & [=])|by intros (? & [=] & _)].
  - by rewrite lookup_insert_ne.
Qed.

Lemma new_map_defined l : is_Some (maps h !! l) → maps h1 !! l = maps h !! l.
Proof using Ht.
  intros Hs. cbn. rewrite lookup_insert_ne; [done|]. intros <-. rewrite new_map_none in Hs. by destruct Hs.
Qed.

Lemma new_map_walk q : walk h1 v q = walk h v q.
Proof using Ht.
  induction q as [|k q IH] using rev_ind; [done|]. rewrite !walk_snoc, IH.
  destruct (walk h v q) as [[| | |m|]|] eqn:E; try done.
  destruct (walk_defined h v q m Ht E) as (l & -> & Hl). unfold read_map.
  cbn [mbind option_bind]. by rewrite (new_map_defined l Hl).
Qed.

(** The new map may be stored below [v], or be a root of its own. *)
Lemma new_map_tree v' : v' = v ∨ v' = VMap (Some (next h)) → tree h1 v'.
Proof using Ht.
  assert (∀ l, is_Some (maps h !! l) → is_Some (maps h1 !! l)) as Hd
    by (intros l Hl; by rewrite (new_map_defined l Hl)).
  intros Hv'. split.
  - intros l. cbn. rewrite lookup_insert_is_Some. intros [<-|[_ Hl]]; [lia|].
    pose proof (tr_fresh _ _ Ht l Hl). lia.
  - intros l a k Hr%new_map_refers. apply Hd. by eapply tr_refs.
  - intros l a k a' k' H1%new_map_refers H2%new_map_refers. by eapply tr_unique.
  - intros l E. destruct Hv' as [-> | ->].
    + destruct (tr_root _ _ Ht l E) as [Hl Hn]. split; [by apply Hd|].
      intros a k Hr%new_map_refers. by apply Hn in Hr.
    + injection E as <-. cbn. rewrite lookup_insert_eq. split; [done|].
      intros a k Hr%new_map_refers. apply (tr_refs _ _ Ht) in Hr. rewrite new_map_none in Hr.
      by destruct Hr.
  - intros q. destruct Hv' as [-> | ->]; [rewrite new_map_walk; by apply (tr_nil _ _ Ht)|].
    destruct q as [|k q]; [done|]. cbn [walk]. unfold read_map. cbn.
    rewrite lookup_insert_eq. cbn. by rewrite lookup_empty.
Qed.

Lemma new_map_storable : storable h1 v (Some (VMap (Some (next h)))).
Proof using Ht.
  exists (next h). split; [done|]. cbn. rewrite lookup_insert_eq. split; [done|]. split.
  - intros E. destruct (tr_root _ _ Ht _ E) as [Hl _]. rewrite new_map_none in Hl. by destruct Hl.
  - intros a k Hr%new_map_refers. apply (tr_refs _ _ Ht) in Hr. rewrite new_map_none in Hr.
    by destruct Hr.
Qed.
End new_map.

(** *** The operations on paths *)

(** [h'] differs from [h] below [v] at the path [f] only, and by what is below it. *)
Definition changes_at (f : list string) h h' v : Prop :=
  tree h' v ∧ ∀ q, ¬ f `prefix_of` q → walk h' v q = walk h v q.

Lemma write_spec h v p l k (w : value) :
  tree h v → walk h v p = Some (VMap (Some l)) → storable h v (Some w) →
  ∃ h', write_map h (Some l) k w = Some h' ∧ changes_at (p ++ [k]) h h' v
    ∧ walk h' v (p ++ [k]) = Some w ∧ ∀ r, r ≠ [] → walk h' v (p ++ [k] ++ r) = None.
Proof.
  intros Ht Hp Hw. destruct (walk_defined _ _ _ _ Ht Hp) as (? & [= <-] & [mm Hl]).
  exists (update h l (<[k := w]> mm)). unfold write_map. cbn. rewrite Hl. split; [done|].
  split; [split|split].
  - exact (update_tree h v p l mm k (Some w) Ht Hp Hl Hw).
  - exact (update_other h v p l mm k (Some w) Ht Hp Hl).
  - exact (update_at h v p l mm k (Some w) Ht Hp Hl).
  - exact (update_below h v p l mm k (Some w) Ht Hp Hl Hw).
Qed.

(** A new map for the key: the path leads to it and nothing is below it. *)
Lemma write_new_spec h v p l k :
  tree h v → walk h v p = Some (VMap (Some l)) →
  let '(l', h1) := new_map h in
  ∃ h', write_map h1 (Some l) k (VMap (Some l')) = Some h' ∧ changes_at (p ++ [k]) h h' v
    ∧ walk h' v (p ++ [k]) = Some (VMap (Some l')) ∧ ∀ r, r ≠ [] → walk h' v (p ++ [k] ++ r) = None.
Proof.
  intros Ht Hp. destruct (write_spec (new_map h).2 v p l k (VMap (Some (next h)))) as (h' & Hw & [Ht' Ho] & Hat & Hb).
  - apply (new_map_tree h v Ht). by left.
  - by rewrite (new_map_walk h v Ht).
  - by apply (new_map_storable h v Ht).
  - exists h'. split; [done|]. split; [|done]. split; [done|]. intros q Hq. rewrite Ho by done.
    by apply (new_map_walk h v Ht).
Qed.

Lemma nested_map_spec h v p l k :
  tree h v → walk h v p = Some (VMap (Some l)) →
  ∃ l' h', getNestedMap h (Some l) k = Some (Some l', h') ∧ tree h' v
    ∧ walk h' v (p ++ [k]) = Some (VMap (Some l'))
    ∧ ∀ q, q ≠ p ++ [k] → walk h' v q = walk h v q.
Proof.
  intros Ht Hp. unfold getNestedMap.
  assert (read_map h (Some l) k = walk h v (p ++ [k])) as Hr by by rewrite walk_snoc, Hp.
  rewrite Hr. destruct (walk h v (p ++ [k])) as [w|] eqn:E.
  - cbn [mbind option_bind]. destruct (is_map w) eqn:Em.
    + destruct w as [| | |m|]; try done.
      destruct (walk_defined _ _ _ _ Ht E) as (l' & -> & _). by exists l', h.
    + destruct (write_new_spec h v p l k Ht Hp) as (h' & Hw & [Ht' Ho] & Hat & Hb).
      exists (next h), h'. split; [destruct w; try done; cbn in *; by rewrite Hw|].
      split; [done|]. split; [done|]. intros q Hq.
      destruct (decide ((p ++ [k]) `prefix_of` q)) as [[r ->]|]; [|by apply Ho].
      rewrite <- (assoc_L (++)), Hb by (intros ->; by rewrite app_nil_r in Hq).
      rewrite (assoc_L (++)), walk_app, E. cbn. destruct r; [by rewrite app_nil_r in Hq|].
      by destruct w.
  - destruct (write_new_spec h v p l k Ht Hp) as (h1 & Hw1 & [Ht1 Ho1] & Hat1 & Hb1).
    cbn [new_map] in *. rewrite Hw1. cbn [mbind option_bind].
    assert (walk h1 v p = Some (VMap (Some l))) as Hp1.
    { rewrite Ho1; [done|]. intros Hpre%prefix_length. rewrite length_app in Hpre. cbn in Hpre. lia. }
    destruct (write_new_spec h1 v p l k Ht1 Hp1) as (h2 & Hw2 & [Ht2 Ho2] & Hat2 & Hb2).
    cbn [new_map] in *. exists (next h1), h2. rewrite Hw2. split; [done|]. split; [done|].
    split; [done|]. intros q Hq.
    destruct (decide ((p ++ [k]) `prefix_of` q)) as [[r ->]|]; [|by rewrite Ho2, Ho1].
    rewrite <- (assoc_L (++)), Hb2 by (intros ->; by rewrite app_nil_r in Hq).
    by rewrite (assoc_L (++)), walk_app, E.
Qed.

(** The paths beside [f]: neither leads to the other. *)
Definition beside (f q : list string) : Prop := ¬ f `prefix_of` q ∧ ¬ q `prefix_of` f.

Lemma set_loop_spec keys h v p l (w : value) :
  tree h v → walk h v p = Some (VMap (Some l)) → keys ≠ [] → is_map w = false →
  ∃ h', set_loop h (Some l) keys w = Some h' ∧ tree h' v ∧ walk h' v (p ++ keys) = Some w
    ∧ ∀ q, beside (p ++ keys) q → walk h' v q = walk h v q.
Proof.
  revert h p l. induction keys as [|k keys IH]; intros h p l Ht Hp Hne Hw; [done|].
  destruct keys as [|k' keys].
  - destruct (write_spec h v p l k w) as (h' & E & [Ht' Ho] & Hat & _); [done|done|by destruct w|].
    exists h'. split; [done|]. split; [done|]. split; [done|]. intros q [Hq _]. by apply Ho.
  - destruct (nested_map_spec h v p l k Ht Hp) as (l1 & h1 & E1 & Ht1 & Hp1 & Ho1).
    destruct (IH h1 (p ++ [k]) l1 Ht1 Hp1) as (h' & E & Ht' & Hat & Ho); [done|done|].
    rewrite <- (assoc_L (++)) in Hat, Ho. exists h'. split; [|split; [done|split; [done|]]].
    + change (set_loop h (Some l) (k :: k' :: keys) w)
        with ('(m, h) ← getNestedMap h (Some l) k; set_loop h m (k' :: keys) w).
      by rewrite E1.
    + intros q Hq. rewrite Ho, Ho1; [done| |done]. intros ->. destruct Hq as [_ Hq]. apply Hq.
      exists (k' :: keys). by rewrite <- (assoc_L (++)).
Qed.

Lemma delete_loop_spec keys h v p x :
  tree h v → walk h v p = Some x → keys ≠ [] →
  let '(r, h') := delete_loop h x keys in
  r = walk h v (p ++ keys) ∧ tree h' v ∧ walk h' v (p ++ keys) = None
  ∧ ∀ q, ¬ (p ++ keys) `prefix_of` q → walk h' v q = walk h v q.
Proof.
  revert p x. induction keys as [|k keys IH]; intros p x Ht Hp Hne; [done|].
  cbn [delete_loop].
  assert (walk h v (p ++ k :: keys) = walk h x (k :: keys)) as Hw by by rewrite walk_app, Hp.
  destruct x as [| | |m|];
    try (split; [done|]; split; [done|]; rewrite Hw; done).
  destruct (walk_defined _ _ _ _ Ht Hp) as (l & -> & [mm Hl]). cbn [walk] in Hw.
  destruct (read_map h (Some l) k) as [y|] eqn:Er.
  - cbn [mbind option_bind] in Hw. destruct keys as [|k' keys].
    + assert (delete_map h (Some l) k = update h l (partial_alter (λ _, None) k mm)) as ->.
      { unfold delete_map, update. f_equal. apply map_eq. intros a.
        destruct (decide (a = l)) as [->|]; [rewrite lookup_alter_eq, lookup_insert_eq, Hl; done|].
        rewrite lookup_alter_ne, lookup_insert_ne; done. }
      split; [done|]. split; [by apply (update_tree h v p)|]. split; [by apply update_at|].
      intros q Hq. by apply (update_other h v p).
    + specialize (IH (p ++ [k]) y Ht). rewrite <- (assoc_L (++)) in IH. apply IH; [|done].
      rewrite walk_snoc, Hp. exact Er.
  - rewrite Hw. done.
Qed.
End tree.

(** ** What Get, Set and Delete promise each other *)

Section laws.
Context {other : Type} (Unmarshal : string → option (option (list (string * @json other)))).
Notation value := (@value other).
Notation store := (@store other).
Notation Entry := (@Entry other).
Implicit Types (h : store) (v : value) (e : Entry).

Lemma tree_scalar h v v' : tree h v → is_map v' = false → tree h v'.
Proof.
  intros [H1 H2 H3 _ _] Hv. split; try done.
  - intros l ->. done.
  - intros [|k q]; [by destruct v'|]. by destruct v'.
Qed.

Lemma Get_map keys h e m :
  Body e = VMap m → Get Unmarshal keys h e = Some (walk h (Body e) keys, h, e).
Proof.
  intros Hb. destruct keys as [|k keys]; [done|]. unfold Get, ParseBodyJson. rewrite Hb. cbn.
  rewrite Hb. by destruct m.
Qed.

Lemma body_map_spec h e :
  tree h (Body e) →
  ∃ l h' e', body_map h e = (Some l, h', e') ∧ tree h' (Body e') ∧ Body e' = VMap (Some l)
    ∧ ∀ q, q ≠ [] → walk h' (Body e') q = if is_map (Body e) then walk h (Body e) q else None.
Proof.
  intros Ht. unfold body_map. destruct (is_map (Body e)) eqn:Em.
  - destruct (Body e) as [| | |m|] eqn:Eb; try done.
    destruct (walk_defined h (VMap m) [] m Ht eq_refl) as (l & -> & _).
    exists l, h, e. rewrite Eb. done.
  - exists (next h), (new_map h).2, {| Body := VMap (Some (next h)); Attributes := Attributes e |}.
    split; [by destruct (Body e)|].
    assert (tree (new_map h).2 (VMap (Some (next h)))) as Ht' by (by apply (new_map_tree h _ Ht); right).
    split; [done|]. split; [done|]. intros [|k q] Hq; [done|]. cbn [walk Body]. unfold read_map. cbn.
    rewrite lookup_insert_eq. cbn. by rewrite lookup_empty.
Qed.

(** C20. Setting a field to a value that is no map never panics, keeps the body a tree, and is read
    back; every field beside it reads as before when the body was a map, and is not there when it
    was not: the fields of a JSON text are lost. *)
Theorem Set_spec keys h e v (Ht : tree h (Body e)) (Hv : is_map v = false) :
  ∃ h' e', Set_ keys h e v = Some (h', e') ∧ tree h' (Body e')
    ∧ Get Unmarshal keys h' e' = Some (Some v, h', e')
    ∧ ∀ q, beside keys q →
        Get Unmarshal q h' e' = Some (if is_map (Body e) then walk h (Body e) q else None, h', e').
Proof.
  assert (Set_ keys h e v = if isRoot keys then Some (h, {| Body := v; Attributes := Attributes e |})
    else let '(currentMap, h, e) := body_map h e in h ← set_loop h currentMap keys v; Some (h, e)) as ->
    by by destruct v.
  unfold isRoot. case_bool_decide as Hk.
  - subst keys. exists h, {| Body := v; Attributes := Attributes e |}. split; [done|].
    split; [by eapply tree_scalar|]. split; [done|]. intros q [Hq _]. destruct Hq. apply prefix_nil.
  - destruct (body_map_spec h e Ht) as (l & h1 & e1 & -> & Ht1 & Hb & Hq).
    destruct (set_loop_spec keys h1 (Body e1) [] l v) as (h' & -> & Ht' & Hat & Ho);
      [done|cbn; by rewrite Hb|done|done|].
    cbn [app] in Hat, Ho. exists h', e1. split; [done|]. split; [done|].
    split; [by rewrite (Get_map _ _ _ _ Hb), Hat|]. intros q Hbeside.
    rewrite (Get_map _ _ _ _ Hb), Ho by done. rewrite Hq; [done|]. intros ->.
    destruct Hbeside as [_ Hn]. apply Hn, prefix_nil.
Qed.

(** Deleting a field of a body that is a map returns what [Get] finds there, keeps
    the body a tree, and only the paths through the field change: they are not there. *)
Theorem Delete_spec keys h e m (Ht : tree h (Body e)) (Hm : Body e = VMap m) (Hk : keys ≠ []) :
  let '(r, h', e') := Delete keys h e in
  Get Unmarshal keys h e = Some (r, h, e)
  ∧ tree h' (Body e')
  ∧ (∀ q, keys `prefix_of` q → Get Unmarshal q h' e' = Some (None, h', e'))
  ∧ ∀ q, ¬ keys `prefix_of` q → Get Unmarshal q h' e' = Some (walk h (Body e) q, h', e').
Proof.
  unfold Delete, isRoot. rewrite bool_decide_eq_false_2 by done.
  pose proof (delete_loop_spec keys h (Body e) [] (Body e) Ht eq_refl Hk) as Hd.
  destruct (delete_loop h (Body e) keys) as [r h']. cbn [app] in Hd.
  destruct Hd as (-> & Ht' & Hat & Ho).
  split; [by rewrite (Get_map _ _ _ _ Hm)|]. split; [done|]. split.
  - intros q [s ->]. rewrite (Get_map _ _ _ _ Hm), walk_app. by rewrite Hat.
  - intros q Hq. rewrite (Get_map _ _ _ _ Hm). by rewrite Ho.
Qed.

Lemma write_read h m k v h' : write_map h m k v = Some h' → read_map h' m k = Some v.
Proof.
  unfold write_map, read_map. destruct m as [l|]; [|done]. cbn.
  destruct (maps h !! l) as [mm|]; [|done]. cbn. intros [= <-]. cbn. rewrite lookup_insert_eq. cbn.
  apply lookup_insert_eq.
Qed.

(** After a successful parse the parsed body is in the attributes. *)
Lemma ParseBodyJson_caches h e l h1 e1 :
  is_map (Body e) = false → ParseBodyJson Unmarshal h e = Some (Some l, h1, e1) →
  ∃ a, Attributes e1 = Some a ∧ read_map h1 (Some a) cachedBodyJsonKey = Some (VMap (Some l)).
Proof.
  intros Hm. unfold ParseBodyJson.
  destruct (match Attributes e with Some a => (a, h) | None => new_map h end) as [a h0].
  intros Hp. exists a.
  destruct (read_map h0 (Some a) cachedBodyJsonKey) as [c|] eqn:Ec.
  - destruct (Body e), c; try done; by injection Hp as -> <- <-.
  - assert (∀ s, match Unmarshal s with
        | Some parsed =>
            let '(parsedBody, h) :=
              match parsed with Some members => alloc (JObject members) h0 | None => (VMap None, h0) end in
            h ← write_map h (Some a) cachedBodyJsonKey parsedBody;
            Some (match parsedBody with VMap m => m | _ => None end, h,
                  {| Body := Body e; Attributes := Some a |})
        | None => Some (None, h0, {| Body := Body e; Attributes := Some a |})
        end = Some (Some l, h1, e1) →
      Attributes e1 = Some a ∧ read_map h1 (Some a) cachedBodyJsonKey = Some (VMap (Some l))) as Hs.
    { intros s Hs. destruct (Unmarshal s) as [parsed|]; [|done].
      destruct (match parsed with Some members => alloc (JObject members) h0 | None => (VMap None, h0) end)
        as [pb h2].
      destruct (write_map h2 (Some a) cachedBodyJsonKey pb) as [h3|] eqn:Ew; [|done].
      cbn in Hs. injection Hs as Hpb <- <-. destruct pb; try done. subst m.
      split; [done|]. by eapply write_read. }
    destruct (Body e); try done; by eapply Hs.
Qed.

(** The parsed body outlives the body: once a field of a JSON text has been read,
    setting the body to another text leaves every field of the body reading the values of
    the first text. *)
Theorem parsed_body_is_stale h e l h1 e1 text
    (Hm : is_map (Body e) = false) (Hp : ParseBodyJson Unmarshal h e = Some (Some l, h1, e1)) :
  ∃ e2, Set_ [] h1 e1 (VString text) = Some (h1, e2) ∧ Body e2 = VString text
    ∧ ∀ keys, keys ≠ [] → Get Unmarshal keys h1 e2 = Some (walk h1 (VMap (Some l)) keys, h1, e2).
Proof.
  destruct (ParseBodyJson_caches _ _ _ _ _ Hm Hp) as (a & Ha & Hc).
  exists {| Body := VString text; Attributes := Attributes e1 |}.
  split; [done|]. split; [done|]. intros [|k keys] Hk; [done|].
  unfold Get, ParseBodyJson. cbn [Body Attributes]. rewrite Ha, Hc. done.
Qed.
End laws.

(** ** A concrete entry *)

Definition example_store : @store unit :=
  {| maps := {[ 0%nat := {[ "a" := VString "x" ]} ]}; next := 1 |}.
Definition example_entry : Entry := {| Body := VMap (other := unit) (Some 0%nat); Attributes := None |}.
(** A decoder that knows one text. *)
Definition example_Unmarshal (s : string) : option (option (list (string * @json unit))) :=
  if bool_decide (s = "{a:x}") then Some (Some [("a", JLeaf (inr "x"))]) else None.

Lemma example_no_reference l a k : ¬ refers example_store l a k.
Proof.
  intros (mm & Ha & Hk). cbn in Ha. apply lookup_singleton_Some in Ha as [<- <-].
  by apply lookup_singleton_Some in Hk as [_ [=]].
Qed.

Lemma example_read k :
  read_map example_store (Some 0%nat) k = if decide (k = "a") then Some (VString "x") else None.
Proof.
  unfold read_map. cbn [mbind option_bind maps example_store]. rewrite lookup_singleton_eq.
  cbn [mbind option_bind]. case_decide as Hk; [subst k; apply lookup_singleton_eq|].
  by apply lookup_singleton_ne.
Qed.

Lemma example_tree : tree example_store (Body example_entry).
Proof.
  split.
  - intros l [mm Hl]. cbn in Hl. apply lookup_singleton_Some in Hl as [<- _]. cbn. lia.
  - by intros l a k Hr%example_no_reference.
  - by intros l a k a' k' Hr%example_no_reference.
  - intros l [= <-]. split; [by eexists|]. intros a k. apply example_no_reference.
  - intros [|k [|k' p]]; [done| |].
    + cbn [walk Body example_entry]. rewrite example_read. by case_decide.
    + cbn [walk Body example_entry]. rewrite example_read. by case_decide.
Qed.

Lemma Set_spec_witness :
  ∃ h' e', Set_ ["b"; "c"] example_store example_entry (VString "y") = Some (h', e')
    ∧ tree h' (Body e')
    ∧ Get example_Unmarshal ["b"; "c"] h' e' = Some (Some (VString "y"), h', e')
    ∧ Get example_Unmarshal ["a"] h' e' = Some (Some (VString "x"), h', e').
Proof.
  destruct (Set_spec example_Unmarshal ["b"; "c"] example_store example_entry (VString "y")
    example_tree eq_refl) as (h' & e' & H1 & H2 & H3 & H4).
  exists h', e'. split; [exact H1|]. split; [exact H2|]. split; [exact H3|].
  refine (H4 ["a"] _). split; intros [l Hl]; discriminate Hl.
Defined.

Lemma Delete_spec_witness :
  let '(r, h', e') := Delete ["a"] example_store example_entry in
  r = Some (VString "x") ∧ Get example_Unmarshal ["a"] h' e' = Some (None, h', e').
Proof.
  pose proof (Delete_spec example_Unmarshal ["a"] example_store example_entry (Some 0%nat)
    example_tree eq_refl ltac:(discriminate)) as H.
  destruct (Delete ["a"] example_store example_entry) as [[r h'] e'] eqn:E.
  destruct H as (H1 & _ & H2 & _). split; [by injection E as <- _ _|].
  apply H2. by exists [].
Defined.

(** A record whose body is a text, and the text that replaces it. *)
Lemma parsed_body_is_stale_witness :
  ∃ l h1 e1 e2,
    ParseBodyJson example_Unmarshal {| maps := ∅; next := 0 |}
      {| Body := VString "{a:x}"; Attributes := None |} = Some (Some l, h1, e1)
    ∧ Set_ [] h1 e1 (VString "{a:y}") = Some (h1, e2)
    ∧ Get example_Unmarshal ["a"] h1 e2 = Some (Some (VString "x"), h1, e2).
Proof.
  destruct (ParseBodyJson example_Unmarshal {| maps := ∅; next := 0 |}
      {| Body := VString "{a:x}"; Attributes := None |}) as [[[[l|] h1] e1]|] eqn:E; [|done..].
  destruct (parsed_body_is_stale example_Unmarshal {| maps := ∅; next := 0 |}
      {| Body := VString "{a:x}"; Attributes := None |} l h1 e1 "{a:y}" eq_refl E)
    as (e2 & H1 & _ & H2).
  exists l, h1, e1, e2. split; [done|]. split; [exact H1|].
  rewrite (H2 ["a"]) by discriminate. by injection E as <- <- <-.
Defined.
