(* ===== verification/OpAMP.v ===== *)
(** * Remote configuration

    src/opamp: [copy] of helpers.go, config_manager.go ([UpdateCurrentHash], [Apply],
    [applyRemoteConfig], [CreateEffectiveConfigMsg]) and server_client.go ([reload],
    [onRemoteConfigHandler] and the end of [Start]). The files, the collector and the
    OpAMP client are the calls of a program; SHA-256 is a function left open. The locks
    and the flag [isReloading] are left out: one message is handled at a time. *)
From S2P Require Import Prelude Prog.

Inductive call_ :=
| CReadFile (path : string)
| CWriteFile (path contents : string)
| CRestart
| CSetRemoteConfigStatus (failure : option string)
| CUpdateEffectiveConfig.

(** An error is its text; a status without a failure is APPLIED. *)
Definition Resp (c : call_) : Type :=
  match c with
  | CReadFile _ => result string string
  | _ => result string unit
  end.

(** Errors are returned, so nothing is thrown. *)
Definition M : Type → Type := prog Empty_set call_ Resp.

(** [None] is the nil error. *)
Definition err : Type := option string.

(** The state of [remoteControlledConfig], [agentConfigManager] and [serverClient]. *)
Record client := {
  path : string;
  currentHash : string;
  initialConfigReceived : bool;
  runningNopConfig : bool;
  receivedInitialConfig : string;
}.
Definition set_currentHash (hash : string) (s : client) : client :=
  {| path := path s; currentHash := hash; initialConfigReceived := initialConfigReceived s;
     runningNopConfig := runningNopConfig s; receivedInitialConfig := receivedInitialConfig s |}.
Definition set_initialConfigReceived (s : client) : client :=
  {| path := path s; currentHash := currentHash s; initialConfigReceived := true;
     runningNopConfig := runningNopConfig s; receivedInitialConfig := receivedInitialConfig s |}.
Definition set_runningNopConfig (b : bool) (s : client) : client :=
  {| path := path s; currentHash := currentHash s;
     initialConfigReceived := initialConfigReceived s; runningNopConfig := b;
     receivedInitialConfig := receivedInitialConfig s |}.

(** ** Reload with rollback *)

Definition copy (src dest : string) : M err :=
  r ← call (CReadFile src);
  match r with
  | Err e => Ret (Some ("failed to read source file " +:+ src +:+ ": " +:+ e))
  | Ok data =>
      w ← call (CWriteFile dest data);
      match w with
      | Err e => Ret (Some ("failed to write to dest file " +:+ dest +:+ ": " +:+ e))
      | Ok _ => Ret None
      end
  end.

Definition rollbackPath (path : string) : string := path +:+ ".rollback".

Definition reload (collectorConfigPath contents : string) : M err :=
  e ← copy collectorConfigPath (rollbackPath collectorConfigPath);
  match e with
  | Some e => Ret (Some ("failed to create backup of collector config: " +:+ e))
  | None =>
      w ← call (CWriteFile collectorConfigPath contents);
      match w with
      | Err e => Ret (Some ("failed to update config file " +:+ collectorConfigPath +:+ ": " +:+ e))
      | Ok _ =>
          r ← call CRestart;
          match r with
          | Ok _ => Ret None
          | Err e =>
              _ ← copy (rollbackPath collectorConfigPath) collectorConfigPath;
              _ ← call CRestart;
              Ret (Some ("collector failed to restart: " +:+ e))
          end
      end
  end.

(** ** Configuration manager *)

(** The messages: a config map may be missing, and an entry has a body. *)
Definition collectorConfigKey : string := "collector.yaml".
Definition AgentRemoteConfig : Type := option (gmap string string).

(** SHA-256. *)
Class Hash := { fileHash : string → string }.

Section manager.
Context `{Hash}.

Definition UpdateCurrentHash (s : client) : M (err * client) :=
  r ← call (CReadFile (path s));
  match r with
  | Err e => Ret (Some ("failed to read config file " +:+ path s +:+ ": " +:+ e),
                  set_currentHash (fileHash "") s)
  | Ok contents => Ret (None, set_currentHash (fileHash contents) s)
  end.

Definition applyRemoteConfig (s : client) (newContents : string) : M (bool * err * client) :=
  if initialConfigReceived s && bool_decide (currentHash s = fileHash newContents)
  then Ret (false, None, s)
  else
    e ← reload (path s) newContents;
    match e with
    | Some e => Ret (false, Some ("failed to reload config: " +:+ path s +:+ ": " +:+ e), s)
    | None =>
        '(e, s) ← UpdateCurrentHash s;
        match e with
        | Some e => Ret (true, Some ("failed hash compute for config " +:+ path s +:+ ": " +:+ e), s)
        | None => Ret (true, None, if negb (initialConfigReceived s)
                                   then set_initialConfigReceived s else s)
        end
    end.

Definition Apply (s : client) (remoteConfig : AgentRemoteConfig) : M (bool * err * client) :=
  match remoteConfig with
  | None => Ret (false, None, s)
  | Some remoteConfigMap =>
      match remoteConfigMap !! collectorConfigKey with
      | None => Ret (false, None, s)
      | Some body => applyRemoteConfig s body
      end
  end.

(** The body of the effective config that is reported. *)
Definition CreateEffectiveConfigMsg (s : client) (override : option string) :
    M (result string string) :=
  match override with
  | Some body => Ret (Ok body)
  | None =>
      r ← call (CReadFile (path s));
      match r with
      | Err e => Ret (Err ("error reading config file " +:+ path s +:+ ": " +:+ e))
      | Ok body => Ret (Ok body)
      end
  end.
(** The callback of [Start]: the initial config stands for the no-op one. *)
Definition GetEffectiveConfig (s : client) : M (result string string) :=
  CreateEffectiveConfigMsg s (if runningNopConfig s then Some (receivedInitialConfig s) else None).

(** The part of [onRemoteConfigHandler] after [Apply]. *)
Definition report (changed : bool) (e : err) (s : client) : M (err * client) :=
  st ← call (CSetRemoteConfigStatus (Strings.String.append "failed to apply config changes: " <$> e));
  match st with
  | Err e => Ret (Some ("failed to set remote config status: " +:+ e), s)
  | Ok _ =>
      if changed then
        let s := set_runningNopConfig false s in
        u ← call CUpdateEffectiveConfig;
        match u with
        | Err e => Ret (Some ("failed to update effective config: " +:+ e), s)
        | Ok _ => Ret (None, s)
        end
      else Ret (None, s)
  end.
Definition onRemoteConfigHandler (s : client) (remoteConfig : AgentRemoteConfig) : M (err * client) :=
  '(changed, e, s) ← Apply s remoteConfig;
  report changed e s.

(** The end of [Start]: the collector starts with the no-op config. *)
Definition start_noop (s : client) (noopConfig : string) : M (err * client) :=
  let s := set_runningNopConfig true s in
  e ← reload (path s) noopConfig;
  match e with
  | Some e => Ret (Some ("failed to start with noop config: " +:+ e), s)
  | None => Ret (None, s)
  end.
End manager.

(** ** Runs on a file system *)

Notation trace := (list (event call_ Resp)).
Notation files := (gmap string string).

(** What a call does to the files: a read that succeeds returns the contents, a write that
    succeeds stores them, and one that fails may leave anything in that file. *)
Definition file_step (e : event call_ Resp) (fs fs' : files) : Prop :=
  match e with
  | Ev c r =>
      match c return Resp c → Prop with
      | CReadFile p => λ r, fs' = fs ∧ match r with Ok d => fs !! p = Some d | Err _ => True end
      | CWriteFile p d => λ r, match r with
                               | Ok _ => fs' = <[p := d]> fs
                               | Err _ => delete p fs' = delete p fs
                               end
      | _ => λ _, fs' = fs
      end r
  end.
Fixpoint file_run (tr : trace) (fs fs' : files) : Prop :=
  match tr with
  | [] => fs' = fs
  | e :: tr => ∃ fs1, file_step e fs fs1 ∧ file_run tr fs1 fs'
  end.

(** The file calls of a run succeed. *)
Definition file_ok (e : event call_ Resp) : bool :=
  match e with
  | Ev c r =>
      match c return Resp c → bool with
      | CReadFile _ => is_ok
      | CWriteFile _ _ => is_ok
      | _ => λ _, true
      end r
  end.
Definition restarts (tr : trace) : nat :=
  length (List.filter (λ e, match e with Ev CRestart _ => true | _ => false end) tr).
(** The statuses sent to the server. *)
Definition statuses (tr : trace) : list (option string) :=
  omap (λ e, match e with Ev (CSetRemoteConfigStatus m) _ => Some m | _ => None end) tr.

Lemma file_run_app tr1 tr2 fs fs' :
  file_run (tr1 ++ tr2) fs fs' ↔ ∃ fs1, file_run tr1 fs fs1 ∧ file_run tr2 fs1 fs'.
Proof.
  revert fs. induction tr1 as [|e tr1 IH]; intros fs; cbn.
  - split; [by exists fs|by intros (? & -> & ?)].
  - setoid_rewrite IH. naive_solver.
Qed.
Lemma restarts_app tr1 tr2 : restarts (tr1 ++ tr2) = (restarts tr1 + restarts tr2)%nat.
Proof. unfold restarts. by rewrite List.filter_app, length_app. Qed.
Lemma statuses_app tr1 tr2 : statuses (tr1 ++ tr2) = statuses tr1 ++ statuses tr2.
Proof. apply omap_app. Qed.

Lemma rollbackPath_ne p : rollbackPath p ≠ p.
Proof.
  intros E%(f_equal bytes). unfold rollbackPath in E. rewrite bytes_app in E.
  apply (f_equal length) in E. rewrite length_app in E. cbn in E. lia.
Qed.

Lemma runs_copy src dest tr o :
  runs (copy src dest) tr o →
  ∃ e, o = Returned e ∧ restarts tr = 0%nat ∧ statuses tr = []
    ∧ ∀ fs fs', file_run tr fs fs' →
        match e with
        | None => ∃ d, fs !! src = Some d ∧ fs' = <[dest := d]> fs
        | Some _ => existsb (λ e, negb (file_ok e)) tr = true
        end.
Proof.
  intros (r & tr1 & -> & Hr)%(runs_call_bind (Resp := Resp) (CReadFile src)). destruct r as [d|e].
  - apply (runs_call_bind (Resp := Resp) (CWriteFile dest d)) in Hr as (w & tr2 & -> & Hr).
    destruct w as [[]|e]; apply runs_ret_inv in Hr as [-> ->].
    + exists None. do 3 (split; [done|]). intros fs fs' (fs1 & [-> Hd] & (fs2 & -> & ->)). by exists d.
    + eexists. done.
  - apply runs_ret_inv in Hr as [-> ->]. by eexists.
Qed.

Lemma runs_copy_bind {A} src dest (f : err → M A) tr o :
  runs (copy src dest ≫= f) tr o →
  ∃ e tr1 tr2, tr = tr1 ++ tr2 ∧ runs (copy src dest) tr1 (Returned e) ∧ runs (f e) tr2 o.
Proof.
  intros [(e & tr1 & tr2 & -> & H1 & H2)|[([] & _)|[H1 _]]]%runs_bind.
  - by exists e, tr1, tr2.
  - apply runs_copy in H1 as (? & [=] & _).
Qed.

Lemma file_ok_no_failure tr :
  Forall (λ e, file_ok e = true) tr → existsb (λ e, negb (file_ok e)) tr = false.
Proof. induction 1 as [|e tr He _ IH]; [done|]. cbn. by rewrite He, IH. Qed.

(** What [reload] does to the file at [p] and its backup. *)
Definition reloaded (p contents : string) (tr : trace) (e : err) (fs fs' : files) : Prop :=
  match e with
  | None => is_Some (fs !! p) ∧ fs' !! p = Some contents ∧ fs' !! rollbackPath p = fs !! p
            ∧ restarts tr = 1%nat
  | Some _ => Forall (λ e, file_ok e = true) tr →
              is_Some (fs !! p) ∧ fs' !! p = fs !! p ∧ restarts tr = 2%nat
  end.

Lemma reloaded_failure p contents tr e fs fs' :
  existsb (λ e, negb (file_ok e)) tr = true → reloaded p contents tr (Some e) fs fs'.
Proof. intros He Hok. by rewrite file_ok_no_failure in He. Qed.

Lemma reload_rolled_back p tr3 tr4 (e : string) fs fs' d :
  runs (_ ← copy (rollbackPath p) p; _ ← call CRestart; Ret (Some e) : M err) tr4 (Returned (Some e)) →
  file_run tr4 fs fs' → fs !! rollbackPath p = Some d → restarts tr3 = 1%nat →
  Forall (λ e, file_ok e = true) tr4 →
  fs' !! p = Some d ∧ restarts (tr3 ++ tr4) = 2%nat.
Proof.
  intros Hr Hf Hd H3 Hok. apply runs_copy_bind in Hr as (e' & tr5 & tr6 & -> & H5 & H6).
  apply (runs_call_bind (Resp := Resp) CRestart) in H6 as (r & tr7 & -> & [-> _]%runs_ret_inv).
  apply runs_copy in H5 as (? & [= <-] & Hn & _ & Hc).
  apply file_run_app in Hf as (fs1 & Hf1 & (fs2 & -> & ->)). specialize (Hc _ _ Hf1).
  apply Forall_app in Hok as [Hok _]. destruct e' as [e'|].
  - by rewrite file_ok_no_failure in Hc.
  - destruct Hc as (d' & Hd' & ->). rewrite lookup_insert_eq, !restarts_app, H3, Hn.
    split; [congruence|done].
Qed.

Lemma runs_reload p contents tr o :
  runs (reload p contents) tr o →
  ∃ e, o = Returned e ∧ statuses tr = []
    ∧ ∀ fs fs', file_run tr fs fs' → reloaded p contents tr e fs fs'.
Proof.
  intros (e & tr1 & tr2 & -> & H1 & H2)%runs_copy_bind.
  apply runs_copy in H1 as (? & [= <-] & Hn1 & Hs1 & Hc1).
  destruct e as [e|].
  { apply runs_ret_inv in H2 as [-> ->]. rewrite app_nil_r. eexists. split; [done|]. split; [done|].
    intros fs fs' Hf. apply reloaded_failure. by eapply Hc1. }
  apply (runs_call_bind (Resp := Resp) (CWriteFile p contents)) in H2 as (w & tr3 & -> & H2).
  destruct w as [[]|e].
  2: { apply runs_ret_inv in H2 as [-> ->]. eexists. split; [done|].
       split; [by rewrite statuses_app, Hs1|]. intros fs fs' _. apply reloaded_failure.
       rewrite existsb_app. cbn. apply orb_true_r. }
  apply (runs_call_bind (Resp := Resp) CRestart) in H2 as (r & tr4 & -> & H2).
  destruct r as [[]|e].
  { apply runs_ret_inv in H2 as [-> ->]. exists None. split; [done|].
    split; [by rewrite statuses_app, Hs1|]. intros fs fs' Hf.
    apply file_run_app in Hf as (fs1 & Hf1 & (fs2 & -> & (fs3 & -> & ->))).
    destruct (Hc1 _ _ Hf1) as (d & Hd & ->). split; [by rewrite Hd|].
    split; [apply lookup_insert_eq|].
    rewrite lookup_insert_ne by (intros E; by apply (rollbackPath_ne p)).
    rewrite lookup_insert_eq, restarts_app, Hn1. done. }
  assert (o = Returned (Some ("collector failed to restart: " +:+ e)) ∧ statuses tr4 = []) as [-> Hs4].
  { apply runs_copy_bind in H2 as (e' & tr5 & tr6 & -> & H5 & H6).
    apply (runs_call_bind (Resp := Resp) CRestart) in H6 as (r & tr7 & -> & [-> ->]%runs_ret_inv).
    apply runs_copy in H5 as (_ & _ & _ & Hs & _). by rewrite statuses_app, Hs. }
  eexists. split; [done|]. split; [by rewrite statuses_app, Hs1|]. intros fs fs' Hf Hok.
  apply file_run_app in Hf as (fs1 & Hf1 & (fs2 & -> & (fs3 & -> & Hf))).
  destruct (Hc1 _ _ Hf1) as (d & Hd & ->). split; [by rewrite Hd|].
  apply Forall_app in Hok as [_ Hok]. inversion_clear Hok as [|? ? _ Hok2].
  inversion_clear Hok2 as [|? ? _ Hok4].
  destruct (reload_rolled_back p
    (tr1 ++ [Ev (CWriteFile p contents) (Ok tt); Ev CRestart (Err e)]) tr4
    ("collector failed to restart: " +:+ e) _ fs' d H2 Hf) as [H3 H4]; [| |done|].
  - rewrite lookup_insert_ne by (intros E; by apply (rollbackPath_ne p)). apply lookup_insert_eq.
  - by rewrite restarts_app, Hn1.
  - rewrite <- (assoc_L (++)) in H4. by rewrite Hd.
Qed.

(** Reload with rollback: a successful reload leaves the new contents in the file and
    the old ones in the backup; a failed one, where no file operation failed, leaves the
    old contents in the file and has restarted the collector with them. *)
Theorem reload_spec p contents tr o fs fs'
    (Hrun : runs (reload p contents) tr o) (Hfs : file_run tr fs fs') :
  ∃ e, o = Returned e ∧ reloaded p contents tr e fs fs'.
Proof. apply runs_reload in Hrun as (e & -> & _ & H). exists e. split; [done|]. by apply H. Qed.

(** There is no rollback of a write that failed: the reload can end with anything in
    the file, the backup intact and the collector not restarted. *)
Theorem failed_write_is_not_rolled_back p contents rest e fs old
    (Hold : fs !! p = Some old) :
  ∃ tr fs', runs (reload p contents) tr
      (Returned (Some ("failed to update config file " +:+ p +:+ ": " +:+ e)))
    ∧ file_run tr fs fs' ∧ fs' !! p = Some rest ∧ fs' !! rollbackPath p = Some old
    ∧ restarts tr = 0%nat.
Proof.
  exists [Ev (CReadFile p) (Ok old); Ev (CWriteFile (rollbackPath p) old) (Ok tt);
          Ev (CWriteFile p contents) (Err e)], (<[p := rest]> (<[rollbackPath p := old]> fs)).
  split; [|split; [|split; [apply lookup_insert_eq|split; [|done]]]].
  - unfold reload, copy. do 3 (apply (runs_vis (Resp := Resp)); cbn). constructor.
  - exists fs. split; [by split|]. eexists. split; [done|]. eexists. split; [|done].
    cbn. by rewrite delete_insert_eq.
  - rewrite lookup_insert_ne by (intros E; by apply (rollbackPath_ne p)). apply lookup_insert_eq.
Qed.

(** ** What the server is told *)

Section handler.
Context `{Hash}.

(** Once a config was received, the current hash is that of the file. *)
Definition tracks (s : client) (fs : files) : Prop :=
  initialConfigReceived s = true → ∃ d, fs !! path s = Some d ∧ currentHash s = fileHash d.

(** Every call on a file in the trace succeeded. *)
Definition files_ok (tr : trace) : Prop := Forall (λ e, file_ok e = true) tr.

(** The outcome of applying [body]. *)
Record applied (s : client) (body : string) (tr : trace) (e : err) (s' : client) (fs fs' : files) :
    Prop := {
  ap_tracks : e = None ∨ files_ok tr → tracks s' fs';
  ap_file : match e with
            | None => ∃ d, fs' !! path s = Some d ∧ fileHash d = fileHash body
            | Some _ => files_ok tr → fs' !! path s = fs !! path s
            end;
  ap_skip : initialConfigReceived s = true → currentHash s = fileHash body → restarts tr = 0%nat;
}.

Lemma tracks_set_running b s fs : tracks s fs → tracks (set_runningNopConfig b s) fs.
Proof. done. Qed.

Lemma runs_applyRemoteConfig s body tr o :
  runs (applyRemoteConfig s body) tr o →
  ∃ changed e s', o = Returned (changed, e, s') ∧ statuses tr = []
    ∧ ∀ fs fs', file_run tr fs fs' → tracks s fs →
        applied s body tr e s' fs fs'.
Proof.
  unfold applyRemoteConfig.
  destruct (initialConfigReceived s && bool_decide (currentHash s = fileHash body)) eqn:Eskip.
  { apply andb_true_iff in Eskip as [Ei Eh%bool_decide_eq_true].
    intros [-> ->]%runs_ret_inv. exists false, None, s. split; [done|]. split; [done|].
    intros fs fs' Hf Ht. cbn in Hf. subst fs'. split; [done| |done].
    destruct (Ht Ei) as (d & Hd & Hh). exists d. split; [done|congruence]. }
  assert (initialConfigReceived s = true → currentHash s ≠ fileHash body) as Hnew.
  { intros Ei Eh. by rewrite Ei, bool_decide_eq_true_2 in Eskip. }
  intros [(e & tr1 & tr2 & -> & H1 & H2)|[([] & _)|[H1 _]]]%runs_bind.
  2: { apply runs_reload in H1 as (? & [=] & _). }
  apply runs_reload in H1 as (? & [= <-] & Hs1 & Hr1). destruct e as [e|].
  - apply runs_ret_inv in H2 as [-> ->]. rewrite app_nil_r. eexists _, _, _. split; [done|].
    split; [done|]. intros fs fs' Hf Ht. specialize (Hr1 _ _ Hf). split; [|by intros (_ & Hd & _)%Hr1|by intros ? ?%Hnew].
    intros [?|(_ & Hd & _)%Hr1]; [done|]. intros Ei. rewrite Hd. by apply Ht.
  - unfold UpdateCurrentHash in H2.
    apply (runs_bind (Resp := Resp)) in H2
      as [([e s1] & tr3 & tr4 & -> & H2 & H3)|[([] & _)|[H2 _]]];
      apply (runs_call_bind (Resp := Resp) (CReadFile (path s))) in H2 as (r & tr5 & -> & H2);
      destruct r as [d|e']; apply runs_ret_inv in H2 as [-> Ho]; try done;
      injection Ho as -> ->; apply runs_ret_inv in H3 as [-> ->];
      (eexists _, _, _; split; [done|]; split; [by rewrite statuses_app, Hs1|]);
      intros fs fs' Hf Ht.
    + apply file_run_app in Hf as (fs1 & Hf1 & (fs2 & [-> Hd] & ->)).
      destruct (Hr1 _ _ Hf1) as (_ & Hb & _). assert (d = body) as -> by congruence.
      split; [|by exists body|by intros ? ?%Hnew]. intros _ _. exists body.
      cbn. by destruct (initialConfigReceived s).
    + assert (¬ files_ok (tr1 ++ [Ev (CReadFile (path s)) (Err e')])) as Hnot.
      { intros [_ Hok]%Forall_app. by inversion_clear Hok. }
      split; [by intros [?|?]|done|by intros ? ?%Hnew].
Qed.

(** The body a message carries for this collector. *)
Definition config_body (remoteConfig : AgentRemoteConfig) : option string :=
  m ← remoteConfig; m !! collectorConfigKey.

Lemma runs_Apply s remoteConfig tr o :
  runs (Apply s remoteConfig) tr o →
  ∃ changed e s', o = Returned (changed, e, s') ∧ statuses tr = []
    ∧ ∀ fs fs', file_run tr fs fs' → tracks s fs →
        match config_body remoteConfig with
        | None => e = None ∧ s' = s ∧ tr = [] ∧ fs' = fs
        | Some body => applied s body tr e s' fs fs'
        end.
Proof.
  unfold Apply, config_body. destruct remoteConfig as [m|]; cbn [mbind option_bind].
  - destruct (m !! collectorConfigKey) as [body|]; [apply runs_applyRemoteConfig|].
    intros [-> ->]%runs_ret_inv. by exists false, None, s.
  - intros [-> ->]%runs_ret_inv. by exists false, None, s.
Qed.

Lemma runs_report_status changed e s tr o :
  runs (report changed e s) tr o →
  ∃ e' s', o = Returned (e', s')
    ∧ statuses tr = [Strings.String.append "failed to apply config changes: " <$> e]
    ∧ restarts tr = 0%nat ∧ (∀ fs fs', file_run tr fs fs' → fs' = fs)
    ∧ (s' = s ∨ s' = set_runningNopConfig false s).
Proof.
  unfold report. intros (st & tr1 & -> & Hr)%(runs_call_bind (Resp := Resp) (CSetRemoteConfigStatus _)).
  destruct st as [[]|e'].
  2: { apply runs_ret_inv in Hr as [-> ->]. eexists _, _. split; [done|]. do 2 (split; [done|]).
       split; [by intros fs fs' (? & -> & ->)|by left]. }
  destruct changed.
  - apply (runs_call_bind (Resp := Resp) CUpdateEffectiveConfig) in Hr as (u & tr2 & -> & Hr).
    destruct u as [[]|e']; apply runs_ret_inv in Hr as [-> ->]; (eexists _, _; split; [done|];
      do 2 (split; [done|]); split; [by intros fs fs' (? & -> & (? & -> & ->))|by right]).
  - apply runs_ret_inv in Hr as [-> ->]. eexists _, _. split; [done|]. do 2 (split; [done|]).
    split; [by intros fs fs' (? & -> & ->)|by left].
Qed.

(** C19. A handled message sends one status. When it is APPLIED, the file then has the body of
    the message, up to its hash; when it is FAILED and every call on a file succeeded, the file is
    as before. In both cases the current hash stays that of the file. A body that is the current
    config restarts nothing, and a message without a body for the collector is APPLIED and
    changes nothing. After a FAILED for which a call on a file failed the file can be anything:
    see [failed_write_is_not_rolled_back]. *)
Theorem status_is_true s remoteConfig tr o fs fs'
    (Hrun : runs (onRemoteConfigHandler s remoteConfig) tr o) (Hfs : file_run tr fs fs') (Ht : tracks s fs) :
  ∃ e s' failure, o = Returned (e, s') ∧ statuses tr = [failure]
    ∧ (failure = None ∨ files_ok tr → tracks s' fs')
    ∧ match config_body remoteConfig with
      | None => failure = None ∧ fs' = fs ∧ restarts tr = 0%nat
      | Some body =>
          match failure with
          | None => ∃ d, fs' !! path s = Some d ∧ fileHash d = fileHash body
          | Some _ => files_ok tr → fs' !! path s = fs !! path s
          end
          ∧ (initialConfigReceived s = true → currentHash s = fileHash body → restarts tr = 0%nat)
      end.
Proof.
  apply runs_bind in Hrun as [([[changed e] s1] & tr1 & tr2 & -> & H1 & H2)|[([] & _)|[H1 _]]].
  2: { apply runs_Apply in H1 as (? & ? & ? & [=] & _). }
  apply runs_Apply in H1 as (? & ? & ? & [= <- <- <-] & Hs1 & Hr1).
  apply runs_report_status in H2 as (e' & s' & -> & Hs2 & Hn2 & Hf2 & Hs').
  apply file_run_app in Hfs as (fs1 & Hf1 & Hfs). apply Hf2 in Hfs as ->.
  specialize (Hr1 _ _ Hf1 Ht). assert (files_ok (tr1 ++ tr2) → files_ok tr1) as Hok by (by intros [? _]%Forall_app).
  exists e', s'. eexists. split; [done|]. rewrite statuses_app, Hs1, Hs2, restarts_app, Hn2, Nat.add_0_r. split; [done|].
  assert (tracks s1 fs1 → tracks s' fs1) as Hts by (by destruct Hs' as [-> | ->]).
  destruct (config_body remoteConfig) as [body|].
  - destruct Hr1 as [Ht1 Hfile Hskip]. destruct e as [e|]; cbn [fmap option_fmap option_map].
    + split; [intros [?|?]; [done|]; apply Hts, Ht1; right; by apply Hok|]. split; [intros; by apply Hfile, Hok|done].
    + split; [intros _; apply Hts, Ht1; by left|by split].
  - destruct Hr1 as (-> & -> & -> & ->). split; [by intros _; apply Hts|done].
Qed.
End handler.

(** ** A concrete disk *)

(** A collector that does not start with the config "bad". *)
Definition disk (c : call_) (fs : files) : Resp c * files :=
  match c return Resp c * files with
  | CReadFile p => (match fs !! p with Some d => Ok d | None => Err "no such file" end, fs)
  | CWriteFile p d => (Ok tt, <[p := d]> fs)
  | CRestart => (if bool_decide (fs !! "c.yaml" = Some "bad") then Err "bad config" else Ok tt, fs)
  | _ => (Ok tt, fs)
  end.

Lemma disk_file_run {A} (p : M A) fs : file_run (exec disk p fs).1.2 fs (exec disk p fs).2.
Proof.
  revert fs. induction p as [a|[]| |c k IH]; intros fs; [done|done|].
  cbn [exec]. destruct (disk c fs) as [r fs1] eqn:Ed. specialize (IH r fs1).
  destruct (exec disk (k r) fs1) as [[o tr] fs2]. exists fs1. split; [|done].
  destruct c; cbn in Ed; injection Ed as <- <-; try done. cbn. split; [done|]. by destruct (fs !! _).
Qed.

Lemma all_file_ok tr : forallb file_ok tr = true → Forall (λ e, file_ok e = true) tr.
Proof. induction tr as [|e tr IH]; [constructor|]. cbn. intros [? ?]%andb_true_iff. constructor; auto. Qed.

Definition old_files : files := {[ "c.yaml" := "old" ]}.

Lemma reload_spec_witness :
  ∃ e, (exec disk (reload "c.yaml" "bad") old_files).1.1 = Returned e
    ∧ reloaded "c.yaml" "bad" (exec disk (reload "c.yaml" "bad") old_files).1.2 e old_files
        (exec disk (reload "c.yaml" "bad") old_files).2.
Proof.
  exact (reload_spec "c.yaml" "bad" _ _ _ _
    (exec_runs disk (reload "c.yaml" "bad") old_files) (disk_file_run _ old_files)).
Defined.

Lemma failed_write_is_not_rolled_back_witness :
  ∃ tr fs', runs (reload "c.yaml" "new") tr
      (Returned (Some ("failed to update config file c.yaml: disk full")))
    ∧ file_run tr old_files fs' ∧ fs' !! "c.yaml" = Some "" ∧ fs' !! "c.yaml.rollback" = Some "old"
    ∧ restarts tr = 0%nat.
Proof.
  refine (failed_write_is_not_rolled_back "c.yaml" "new" "" "disk full" old_files "old" _).
  reflexivity.
Defined.

Section witness.
#[local] Instance identity_hash : Hash := {| fileHash := λ s, s |}.
Definition example_client : client :=
  {| path := "c.yaml"; currentHash := "old"; initialConfigReceived := true;
     runningNopConfig := false; receivedInitialConfig := "" |}.
Definition bad_message : AgentRemoteConfig := Some {[ collectorConfigKey := "bad" ]}.
Notation run := (exec disk (onRemoteConfigHandler example_client bad_message) old_files).

Lemma status_is_true_witness :
  ∃ e s' failure, run.1.1 = Returned (e, s') ∧ tracks s' run.2 ∧ statuses run.1.2 = [failure]
    ∧ match failure with
      | None => ∃ d, run.2 !! "c.yaml" = Some d ∧ fileHash d = fileHash "bad"
      | Some _ => run.2 !! "c.yaml" = Some "old"
      end.
Proof.
  assert (files_ok run.1.2) as Hok by (apply all_file_ok; vm_compute; reflexivity).
  destruct (status_is_true example_client bad_message run.1.2 run.1.1 old_files run.2)
    as (e & s' & failure & H1 & H2 & H3 & H4).
  - apply exec_runs.
  - apply disk_file_run.
  - intros _. exists "old". done.
  - exists e, s', failure. split; [exact H1|]. split; [exact (H3 (or_intror Hok))|]. split; [exact H2|].
    destruct H4 as [H4 _]. destruct failure; [exact (H4 Hok)|exact H4].
Defined.
End witness.
