(* ===== verification/RegexCache.v ===== *)
(** * The cache of the regex parser

    src/processor/signozlogspipelineprocessor/stanza/operator/operators/regex: cache.go
    and [match] of parser.go (src/pkg/parser/grok/cache.go has the same cache). The mutex
    makes [add] one step; the goroutine of the limiter is the step [tick]. *)
From S2P Require Import Prelude.

(** ** Limiter *)

(** The conversion of a negative float64 to uint64, which Go leaves to the implementation. *)
Class FloatConversion := { uint64_of_negative : Z → Z }.

Record atomicLimiter := { count : Z; max : Z }.

Definition newStartedAtomicLimiter (max : Z) : atomicLimiter := {| count := 0; max := max |}.
Definition throttled (l : atomicLimiter) : bool := max l <=? count l.
Definition increment (l : atomicLimiter) : atomicLimiter :=
  if count l =? max l then l else {| count := u64 (count l + 1); max := max l |}.

(** [-math.Round(-0.10 * float64(l.max))]. The float64 next to 0.1 is above it by less
    than 2^-53 of it, so for the limits of a cache, at most 65536, the product is a half
    only where it is one exactly, and rounds away from zero. *)
Definition tenth (max : Z) : Z := (max + 5) / 10.
(** The body of the loop of [init]: [l.count.Add(^uint64(x))] when the count is positive. *)
Definition tick_limiter `{FloatConversion} (l : atomicLimiter) : atomicLimiter :=
  if 0 <? count l
  then {| count := u64 (count l + (two64 - 1 - (if tenth (max l) =? 0 then 0
                                                else uint64_of_negative (- tenth (max l)))));
          max := max l |}
  else l.

(** ** Memory cache *)

Section cache.
Context {A : Type}.

(** [cap(keys)] is the size of the cache. *)
Record memoryCache := {
  cache : gmap string A;
  keys : list string;
  keys_cap : Z;
  limiter : atomicLimiter;
}.

Definition newMemoryCache (maxSize : Z) : memoryCache :=
  {| cache := ∅; keys := []; keys_cap := maxSize; limiter := newStartedAtomicLimiter (maxSize + 1) |}.

Definition get (m : memoryCache) (key : string) : option A := cache m !! key.

(** A full channel gives its oldest key; the channel of a cache of size zero has none and
    blocks. *)
Definition add (m : memoryCache) (key : string) (data : A) : outcome (bool * memoryCache) :=
  if throttled (limiter m) then Done (false, m)
  else if len (keys m) =? keys_cap m then
    match keys m with
    | [] => Blocks
    | oldest :: rest =>
        Done (true, {| cache := <[key := data]> (delete oldest (cache m)); keys := rest ++ [key];
                       keys_cap := keys_cap m; limiter := increment (limiter m) |})
    end
  else
    Done (true, {| cache := <[key := data]> (cache m); keys := keys m ++ [key];
                   keys_cap := keys_cap m; limiter := limiter m |}).

Definition tick `{FloatConversion} (m : memoryCache) : memoryCache :=
  {| cache := cache m; keys := keys m; keys_cap := keys_cap m; limiter := tick_limiter (limiter m) |}.

(** ** The parser *)

(** [helper.MatchValues] on the regular expression of the parser. *)
Context (MatchValues : string → result string A).

(** [Parser.match] of one goroutine; other goroutines may run between [get] and [add]. *)
Definition match_ (m : option memoryCache) (value : string) :
    outcome (result string A * option memoryCache) :=
  match m with
  | None => Done (MatchValues value, None)
  | Some c =>
      match get c value with
      | Some x => Done (Ok x, Some c)
      | None =>
          match MatchValues value with
          | Err e => Done (Err e, Some c)
          | Ok parsedValues =>
              '(_, c) ← add c value parsedValues;
              Done (Ok parsedValues, Some c)
          end
      end
  end.

(** What the goroutines do to the cache: parsers add what they parsed, even a key that
    another one has added meanwhile, and the limiter ticks. *)
Inductive cache_step `{FloatConversion} : memoryCache → memoryCache → Prop :=
| step_add m key data b m' :
    MatchValues key = Ok data → add m key data = Done (b, m') → cache_step m m'
| step_tick m : cache_step m (tick m).

Record cache_ok (m : memoryCache) : Prop := {
  co_value key data : cache m !! key = Some data → MatchValues key = Ok data;
  co_key key : is_Some (cache m !! key) → key ∈ keys m;
  co_len : len (keys m) ≤ keys_cap m;
}.

Lemma cache_ok_new maxSize : 0 ≤ maxSize → cache_ok (newMemoryCache maxSize).
Proof.
  intros Hm. split; cbn.
  - intros key data. by rewrite lookup_empty.
  - intros key. rewrite lookup_empty. by intros [].
  - done.
Qed.

Lemma add_ok m key data b m' :
  MatchValues key = Ok data → add m key data = Done (b, m') → cache_ok m →
  cache_ok m' ∧ keys_cap m' = keys_cap m.
Proof.
  intros Hd Ha Hm. pose proof (co_len _ Hm) as Hl. unfold add in Ha.
  destruct (throttled (limiter m)); [by injection Ha as <- <-|].
  assert (∀ c ks l, (∀ k, is_Some (c !! k) → is_Some (cache m !! k) ∧ (k ∈ keys m → k ∈ ks)) →
    (∀ k d, c !! k = Some d → cache m !! k = Some d) → len ks + 1 ≤ keys_cap m →
    cache_ok {| cache := <[key := data]> c; keys := ks ++ [key]; keys_cap := keys_cap m; limiter := l |})
    as Hins.
  { intros c ks l Hks Hc Hlen. split; cbn.
    - intros k d. rewrite lookup_insert_Some. intros [[<- <-]|[_ Hk]]; [done|].
      by apply (co_value _ Hm), Hc.
    - intros k. rewrite lookup_insert_is_Some, elem_of_app, list_elem_of_singleton.
      intros [->|[_ Hk]]; [by right|]. left. destruct (Hks k Hk) as [H1 H2].
      by apply H2, (co_key _ Hm).
    - rewrite len_app. done. }
  destruct (Z.eqb_spec (len (keys m)) (keys_cap m)) as [Hfull|Hfull].
  - destruct (keys m) as [|oldest rest] eqn:Ek; [done|]. injection Ha as <- <-. split; [|done].
    apply Hins.
    + intros k [d Hk]. apply lookup_delete_Some in Hk as [Hne Hk]. split; [by exists d|].
      by intros [<-|?]%elem_of_cons.
    + by intros k d [_ Hk]%lookup_delete_Some.
    + unfold len in *. cbn in *. lia.
  - injection Ha as <- <-. split; [|done]. apply Hins; [done|done|]. lia.
Qed.

Lemma cache_steps_ok `{FloatConversion} m m' :
  rtc cache_step m m' → cache_ok m → cache_ok m' ∧ keys_cap m' = keys_cap m.
Proof.
  induction 1 as [m|m m1 m' Hs _ IH]; [done|]. intros Hm. destruct Hs as [m key data b m1 Hd Ha|m].
  - destruct (add_ok _ _ _ _ _ Hd Ha Hm) as [H1 <-]. by apply IH.
  - apply IH. by destruct Hm.
Qed.

Lemma size_bound m : cache_ok m → Z.of_nat (size (cache m)) ≤ keys_cap m.
Proof.
  intros Hm. etrans; [|exact (co_len _ Hm)]. unfold len. apply inj_le.
  rewrite <- size_dom. trans (size (list_to_set (remove_dups (keys m)) : gset string)).
  - apply subseteq_size. intros k Hk. apply elem_of_list_to_set, elem_of_remove_dups, (co_key _ Hm).
    by apply elem_of_dom.
  - rewrite size_list_to_set by apply NoDup_remove_dups.
    clear Hm. induction (keys m) as [|k ks IH]; cbn; [done|]. case_decide; cbn; lia.
Qed.

(** The cache is transparent: in every state the goroutines reach, [match] returns
    what the regular expression gives, and does not block; the cache holds at most as many
    values as its size. *)
Theorem cache_transparent `{FloatConversion} maxSize m value
    (Hsize : 0 < maxSize) (Hm : rtc cache_step (newMemoryCache maxSize) m) :
  (∃ m', match_ (Some m) value = Done (MatchValues value, Some m') ∧ (m' = m ∨ cache_step m m'))
  ∧ Z.of_nat (size (cache m)) ≤ maxSize.
Proof.
  destruct (cache_steps_ok _ _ Hm) as [Hok Hcap]; [apply cache_ok_new; lia|]. cbn in Hcap.
  split; [|rewrite <- Hcap; by apply size_bound]. unfold match_, get.
  destruct (cache m !! value) as [x|] eqn:Ex.
  { exists m. rewrite (co_value _ Hok _ _ Ex). split; [done|by left]. }
  destruct (MatchValues value) as [data|e] eqn:Ev; [|by exists m; split; [|left]].
  destruct (add m value data) as [[b m']| |] eqn:Ea.
  - exists m'. split; [done|]. right. by apply (step_add m value data b).
  - exfalso. unfold add in Ea. destruct (throttled (limiter m)); [done|].
    destruct (Z.eqb_spec (len (keys m)) (keys_cap m)) as [Hfull|]; [|done].
    destruct (keys m); [|done]. unfold len in Hfull. cbn in Hfull. lia.
  - exfalso. unfold add in Ea. destruct (throttled (limiter m)); [done|].
    destruct (len (keys m) =? keys_cap m); [|done]. by destruct (keys m).
Qed.

(** The conversion of the compilers for amd64: the low 64 bits of the truncated value. *)
Definition wraps `{FloatConversion} : Prop :=
  ∀ k, 0 < k < two64 → uint64_of_negative (- k) = two64 - k.

Lemma tick_adds `{FloatConversion} l :
  wraps → 5 ≤ max l ≤ 65536 → 0 < count l →
  tick_limiter l = {| count := u64 (count l + (tenth (max l) - 1)); max := max l |}.
Proof.
  intros Hw Hm Hc. unfold tick_limiter. rewrite (proj2 (Z.ltb_lt _ _) Hc).
  assert (0 < tenth (max l) ≤ 65536) as Ht.
  { unfold tenth. split; [apply Z.div_str_pos; lia|apply Z.div_le_upper_bound; lia]. }
  rewrite (proj2 (Z.eqb_neq _ _)) by lia. rewrite Hw by (unfold two64; lia). f_equal. f_equal. lia.
Qed.

(** A throttled cache stays throttled. The ticks are meant to lower the count by a
    tenth of its limit; where the conversion wraps they raise it, so a cache of size 4 or
    more that has reached its limit adds nothing any more, until the count overflows. *)
Theorem throttled_for_ever `{FloatConversion} n (m : memoryCache) key data
    (Hw : wraps) (Hm : 5 ≤ max (limiter m) ≤ 65536) (Ht : throttled (limiter m) = true)
    (Hn : count (limiter m) + Z.of_nat n * 65536 < two64) :
  add (Nat.iter n tick m) key data = Done (false, Nat.iter n tick m).
Proof.
  assert (∀ n, count (limiter m) + Z.of_nat n * 65536 < two64 →
    max (limiter (Nat.iter n tick m)) = max (limiter m)
    ∧ max (limiter m) ≤ count (limiter (Nat.iter n tick m))
      ≤ count (limiter m) + Z.of_nat n * 65536) as Hinv.
  { clear n Hn. apply Z.leb_le in Ht. intros n. induction n as [|n IH]; intros Hn.
    - cbn. lia.
    - destruct IH as (H1 & H2 & H3); [lia|]. 
      change (limiter (Nat.iter (S n) tick m)) with (tick_limiter (limiter (Nat.iter n tick m))).
      rewrite tick_adds; [|done|lia|lia]. cbn. rewrite H1. split; [done|].
      assert (1 ≤ tenth (max (limiter m)) ≤ 65536) as Hk.
      { unfold tenth. split; [apply Z.div_le_lower_bound; lia|apply Z.div_le_upper_bound; lia]. }
      rewrite u64_small; lia. }
  destruct (Hinv n Hn) as (H1 & H2 & _). unfold add, throttled. rewrite H1.
  by rewrite (proj2 (Z.leb_le _ _) H2).
Qed.
End cache.

(** ** Concrete caches *)

Section witness.
#[local] Instance wrapping : FloatConversion := {| uint64_of_negative := λ z, u64 z |}.

(** The expression matches everything. *)
Definition match_all (s : string) : result string string := Ok s.

Lemma cache_transparent_witness :
  let m := newMemoryCache 2 in
  (∃ m', match_ match_all (Some m) "line" = Done (Ok "line", Some m')
         ∧ (m' = m ∨ cache_step match_all m m'))
  ∧ Z.of_nat (size (cache m)) ≤ 2.
Proof.
  intros m. refine (cache_transparent match_all 2 m "line" _ _); [lia|]. apply rtc_refl.
Defined.

(** A cache of 99 values whose limiter is at its limit, a day of ticks later. *)
Definition full_cache : memoryCache (A := string) :=
  {| cache := ∅; keys := []; keys_cap := 99; limiter := {| count := 100; max := 100 |} |}.
Lemma throttled_for_ever_witness :
  add (Nat.iter 17280 tick full_cache) "line" "line" = Done (false, Nat.iter 17280 tick full_cache).
Proof.
  refine (throttled_for_ever 17280 full_cache "line" "line" _ _ _ _).
  - intros k Hk. cbn. unfold u64. rewrite <- (Z.mod_add _ 1) by done. rewrite Z.mod_small; lia.
  - cbn. lia.
  - reflexivity.
  - cbn. unfold two64. lia.
Defined.
End witness.
