(* ===== verification/Flatten.v ===== *)
(** * Attribute values and flattening

    The Go values of type [any] that [pcommon.Map.AsRaw] gives, the accessors of
    [pcommon.Value] the exporters use, and [FlattenJSON] (src/utils/flatten/flatten.go):
    nested maps and slices become one map whose keys are paths. *)
From S2P Require Import Prelude GoText Pdata Sampling.

(** A map is the list of its entries in the order of an iteration. *)
Inductive any :=
| ANil
| AStr (s : string)
| AInt (z : Z)
| AFloat (x : float64)
| ABool (b : bool)
| ABytes (s : string)
| AMap (entries : list (string * any))
| ASlice (items : list any).

Inductive ValueType :=
| ValueTypeEmpty | ValueTypeStr | ValueTypeInt | ValueTypeDouble | ValueTypeBool
| ValueTypeMap | ValueTypeSlice | ValueTypeBytes.
#[export] Instance ValueType_eq_dec : EqDecision ValueType.
Proof. solve_decision. Defined.

(** The accessors of a value; [MapEntries] is [Map().AsRaw()]. *)
Class PdataValues (P : Pdata) := {
  Type_of : Value → ValueType;
  Double : Value → float64;
  Bool : Value → bool;
  BytesAsRaw : Value → string;
  MapEntries : Value → list (string * any);
}.

(** [fmt.Sprintf("%v", v)]. *)
Class FormatAny := { Sprint : any → string }.

Section flatten.
Context `{FA : FormatAny}.

Definition full_key (prefix key : string) : string :=
  if decide (prefix = "") then key else prefix +:+ "." +:+ key.

(** What a value under a key contributes; an entry wins over an earlier one. *)
Fixpoint flatten_value (fullKey : string) (value : any) : gmap string any :=
  match value with
  | AMap entries => foldl (λ result '(key, v), flatten_value (full_key fullKey key) v ∪ result) ∅ entries
  | ASlice items =>
      (fix go (i : Z) (result : gmap string any) (items : list any) : gmap string any :=
         match items with
         | [] => result
         | v :: rest => go (i + 1) (flatten_value (full_key fullKey (FormatInt i)) v ∪ result) rest
         end) 0 ∅ items
  | AInt z => {[ fullKey := AFloat (float64_of_int z) ]}
  | AFloat _ | ABool _ => {[ fullKey := value ]}
  | ANil | AStr _ | ABytes _ => {[ fullKey := AStr (Sprint value) ]}
  end.
Definition FlattenJSON (data : list (string * any)) (prefix : string) : gmap string any :=
  foldl (λ result '(key, v), flatten_value (full_key prefix key) v ∪ result) ∅ data.

(** ** The leaves of a value *)

Definition leaf (value : any) : any :=
  match value with
  | AInt z => AFloat (float64_of_int z)
  | AFloat _ | ABool _ => value
  | _ => AStr (Sprint value)
  end.
Fixpoint leaves (fullKey : string) (value : any) : list (string * any) :=
  match value with
  | AMap entries => entries ≫= λ '(key, v), leaves (full_key fullKey key) v
  | ASlice items =>
      (fix go (i : Z) (items : list any) : list (string * any) :=
         match items with
         | [] => []
         | v :: rest => leaves (full_key fullKey (FormatInt i)) v ++ go (i + 1) rest
         end) 0 items
  | _ => [(fullKey, leaf value)]
  end.
Definition all_leaves (data : list (string * any)) (prefix : string) : list (string * any) :=
  data ≫= λ '(key, v), leaves (full_key prefix key) v.

(** The map of a list in which later entries win. *)
Definition last_wins (l : list (string * any)) : gmap string any := list_to_map (reverse l).

Lemma last_wins_app l k : last_wins (l ++ k) = last_wins k ∪ last_wins l.
Proof. unfold last_wins. by rewrite reverse_app, list_to_map_app. Qed.
Lemma last_wins_nil : last_wins [] = ∅.
Proof. done. Qed.

Lemma any_ind' (P : any → Prop) :
  P ANil → (∀ s, P (AStr s)) → (∀ z, P (AInt z)) → (∀ x, P (AFloat x)) → (∀ b, P (ABool b)) →
  (∀ s, P (ABytes s)) → (∀ entries, Forall (λ kv, P kv.2) entries → P (AMap entries)) →
  (∀ items, Forall P items → P (ASlice items)) → ∀ v, P v.
Proof.
  intros Hn Hs Hi Hf Hb Hy Hm Hl. fix IH 1. intros [|s|z|x|b|s|entries|items];
    [exact Hn|apply Hs|apply Hi|apply Hf|apply Hb|apply Hy|apply Hm|apply Hl].
  - induction entries as [|[k v] entries IHe]; constructor; [apply IH|apply IHe].
  - induction items as [|v items IHi]; constructor; [apply IH|apply IHi].
Qed.

Lemma foldl_union {A} (f : A → gmap string any) (g : A → list (string * any)) l m0 l0 :
  Forall (λ x, f x = last_wins (g x)) l → m0 = last_wins l0 →
  foldl (λ m x, f x ∪ m) m0 l = last_wins (l0 ++ (l ≫= g)).
Proof.
  intros Hl. revert m0 l0. induction Hl as [|x l Hx Hl IH]; intros m0 l0 ->; [by rewrite app_nil_r|].
  rewrite bind_cons, app_assoc. simpl. apply IH. by rewrite last_wins_app, Hx.
Qed.

Lemma foldl_ext_fn {A B} (f g : A → B → A) a l : (∀ a b, f a b = g a b) → foldl f a l = foldl g a l.
Proof. intros H. revert a. induction l as [|b l IH]; intros a; [done|]. simpl. by rewrite H. Qed.

Lemma flatten_value_leaves v : ∀ key, flatten_value key v = last_wins (leaves key v).
Proof.
  induction v as [| | | | | |entries IH|items IH] using any_ind'; intros key; try done.
  - simpl. erewrite foldl_ext_fn with (g := λ m kv, flatten_value (full_key key kv.1) kv.2 ∪ m); [|by intros ? []].
    rewrite (foldl_union _ (λ kv, leaves (full_key key kv.1) kv.2) entries ∅ []); [|by eapply Forall_impl; [exact IH|]|done].
    f_equal. apply list_bind_ext; [by intros []|done].
  - assert (∀ i m0 l0, m0 = last_wins l0 →
      (fix go (i : Z) (result : gmap string any) (items : list any) : gmap string any :=
         match items with
         | [] => result
         | v :: rest => go (i + 1) (flatten_value (full_key key (FormatInt i)) v ∪ result) rest
         end) i m0 items
      = last_wins (l0 ++ (fix go (i : Z) (items : list any) : list (string * any) :=
         match items with
         | [] => []
         | v :: rest => leaves (full_key key (FormatInt i)) v ++ go (i + 1) rest
         end) i items)) as Hgo.
    { induction IH as [|v items Hv _ IHi]; intros i m0 l0 ->; [by rewrite app_nil_r|].
      rewrite app_assoc. apply IHi. by rewrite Hv, last_wins_app. }
    exact (Hgo 0 ∅ [] eq_refl).
Qed.

Lemma FlattenJSON_leaves data prefix : FlattenJSON data prefix = last_wins (all_leaves data prefix).
Proof.
  unfold FlattenJSON, all_leaves.
  erewrite foldl_ext_fn with (g := λ m kv, flatten_value (full_key prefix kv.1) kv.2 ∪ m); [|by intros ? []].
  rewrite (foldl_union _ (λ kv, leaves (full_key prefix kv.1) kv.2) data ∅ []);
    [|by apply Forall_true; intros; apply flatten_value_leaves|done].
  f_equal. apply list_bind_ext; [by intros []|done].
Qed.

(** When no two leaves have one path the flat map holds exactly the leaves, in whatever order
    the entries are visited; a path is lost otherwise. *)
Theorem FlattenJSON_spec data data' prefix :
  NoDup (all_leaves data prefix).*1 → all_leaves data' prefix ≡ₚ all_leaves data prefix →
  FlattenJSON data' prefix = FlattenJSON data prefix
  ∧ ∀ path v, FlattenJSON data prefix !! path = Some v ↔ (path, v) ∈ all_leaves data prefix.
Proof.
  intros Hnd Hp. assert (∀ l : list (string * any), NoDup l.*1 → NoDup (reverse l).*1) as Hr.
  { intros l H. rewrite reverse_Permutation. done. }
  assert (∀ l l' : list (string * any), NoDup l.*1 → l' ≡ₚ l → last_wins l' = last_wins l) as Hperm.
  { intros l l' H Hl. unfold last_wins. apply list_to_map_proper.
    - rewrite reverse_Permutation. by rewrite Hl.
    - by rewrite !reverse_Permutation, Hl. }
  split; [rewrite !FlattenJSON_leaves; by apply Hperm|].
  intros path v. rewrite FlattenJSON_leaves. unfold last_wins. rewrite <- elem_of_list_to_map by (by apply Hr).
  apply elem_of_reverse.
Qed.

(** The order of an iteration shows when two leaves have one path. *)
Theorem FlattenJSON_order_matters :
  ∃ data data' prefix, data' ≡ₚ data ∧ NoDup data.*1 ∧ FlattenJSON data' prefix ≠ FlattenJSON data prefix.
Proof.
  exists [("a.b", ABool true); ("a", AMap [("b", ABool false)])],
         [("a", AMap [("b", ABool false)]); ("a.b", ABool true)], "".
  split; [apply Permutation_swap|]. split; [by apply (bool_decide_eq_true_1 _); vm_compute|].
  intros H. apply (f_equal (lookup "a.b")) in H. vm_compute in H. done.
Qed.
End flatten.
