(* ===== verification/Utils.v ===== *)
(** * Helpers of the exporters

    src/utils/utils.go and what the exporters for logs and traces define alike: ids in hex,
    the kinds of attributes, the keys of the caches, buckets of time. *)
From S2P Require Import Prelude GoText Pdata Sampling Flatten.
From Stdlib Require Import SpecFloat.

(** [hex.EncodeToString]. *)
Definition hex_digit (n : Z) : ascii := byte_of (if n <? 10 then 48 + n else 87 + n).
Definition EncodeToString (id : string) : string :=
  of_bytes (bytes id ≫= λ c, [hex_digit (byte_val c / 16); hex_digit (byte_val c mod 16)]).

Definition fromHexChar (c : ascii) : option Z :=
  let b := byte_val c in
  if (48 <=? b) && (b <=? 57) then Some (b - 48)
  else if (97 <=? b) && (b <=? 102) then Some (b - 87)
  else if (65 <=? b) && (b <=? 70) then Some (b - 55)
  else None.
(** [hex.DecodeString]. *)
Fixpoint hex_decode (l : list ascii) : result string (list ascii) :=
  match l with
  | [] => Ok []
  | [c] => match fromHexChar c with Some _ => Err "odd length hex string" | None => Err "invalid byte" end
  | c :: d :: rest =>
      match fromHexChar c, fromHexChar d with
      | Some x, Some y => bs ← hex_decode rest; Ok (ascii_of_N (Z.to_N (16 * x + y)) :: bs)
      | _, _ => Err "invalid byte"
      end
  end.

(** [TraceID.IsEmpty] and [SpanID.IsEmpty]: all bytes are zero. *)
Definition IsEmpty (id : string) : bool := forallb (λ c, byte_val c =? 0) (bytes id).
Definition TraceIDToHexOrEmptyString (id : string) : string := if IsEmpty id then "" else EncodeToString id.
Definition SpanIDToHexOrEmptyString (id : string) : string := if IsEmpty id then "" else EncodeToString id.

Definition IsValidFloat (x : float64) : bool :=
  match x with S754_nan | S754_infinity _ => false | _ => true end.

Inductive TagType := TagTypeAttribute | TagTypeScope | TagTypeResource | TagTypeSpanField | TagTypeLogField.
#[export] Instance TagType_eq_dec : EqDecision TagType.
Proof. solve_decision. Defined.
Definition TagType_String (t : TagType) : string :=
  match t with
  | TagTypeAttribute => "tag" | TagTypeScope => "scope" | TagTypeResource => "resource"
  | TagTypeSpanField => "spanfield" | TagTypeLogField => "logfield"
  end.
Inductive TagDataType := TagDataTypeString | TagDataTypeBool | TagDataTypeNumber.
#[export] Instance TagDataType_eq_dec : EqDecision TagDataType.
Proof. solve_decision. Defined.
Definition TagDataType_String (t : TagDataType) : string :=
  match t with TagDataTypeString => "string" | TagDataTypeBool => "bool" | TagDataTypeNumber => "float64" end.

Definition MakeKeyForRFCache (bucketTs : Z) (fingerprint : string) : string :=
  FormatInt bucketTs +:+ ":" +:+ fingerprint.
Definition MakeKeyForAttributeKeys (tagKey : string) (tagType : TagType) (tagDataType : TagDataType) : string :=
  tagKey +:+ ":" +:+ TagType_String tagType +:+ ":" +:+ TagDataType_String tagDataType.

(** [ts / bucketSize * bucketSize]: Go truncates towards zero. *)
Definition tsBucket (ts bucketSize : Z) : Z := Z.quot ts bucketSize * bucketSize.

Definition MaxAttributeValueLength : Z := 256.

(** [json.Marshal] of github.com/goccy/go-json, at the types it is used for. *)
Class JSON := {
  Marshal_strings : gmap string string → result string string;
  Marshal_numbers : gmap string float64 → result string string;
  Marshal_bools : gmap string bool → result string string;
  Marshal_any : gmap string any → result string string;
}.

(** [strconv.FormatFloat(x, 'f', -1, 64)]. *)
Class FloatDecimal := { FormatFloat_f : float64 → string }.

(** ** The keys are injective *)

Lemma length_of_bytes l : Strings.String.length (of_bytes l) = length l.
Proof. induction l as [|c l IH]; [done|]. simpl. by rewrite <- IH. Qed.
Lemma length_bytes s : length (bytes s) = Strings.String.length s.
Proof. by rewrite <- length_of_bytes, of_bytes_bytes. Qed.

Lemma length_EncodeToString id : Strings.String.length (EncodeToString id) = (2 * Strings.String.length id)%nat.
Proof.
  unfold EncodeToString. rewrite length_of_bytes, <- length_bytes.
  induction (bytes id) as [|c l IH]; [done|]. rewrite bind_cons, length_app, IH. simpl. lia.
Qed.

Lemma fromHexChar_digit n : 0 ≤ n < 16 → fromHexChar (hex_digit n) = Some n.
Proof.
  intros H. assert (forallb (λ i, bool_decide (fromHexChar (hex_digit (Z.of_nat i)) = Some (Z.of_nat i))) (seq 0 16) = true) as Hall
    by (vm_compute; reflexivity).
  rewrite forallb_forall in Hall. specialize (Hall (Z.to_nat n)). rewrite Z2Nat.id in Hall by lia.
  apply bool_decide_eq_true in Hall; [done|]. apply in_seq. lia.
Qed.
Lemma hex_decode_encode id : hex_decode (bytes (EncodeToString id)) = Ok (bytes id).
Proof.
  unfold EncodeToString. rewrite bytes_of_bytes. induction (bytes id) as [|c l IH]; [done|]. rewrite bind_cons. simpl.
  pose proof (byte_val_range c) as Hc. pose proof (Z.mod_pos_bound (byte_val c) 16).
  assert (0 ≤ byte_val c / 16 < 16) by (split; [apply Z.div_pos; lia|apply Z.div_lt_upper_bound; lia]).
  rewrite !fromHexChar_digit by lia. rewrite IH. cbn [mbind result_bind]. do 2 f_equal.
  rewrite <-Z.div_mod by lia. unfold byte_val. by rewrite N2Z.id, ascii_N_embedding.
Qed.

Lemma MakeKeyForRFCache_inj b fp b' fp' :
  MakeKeyForRFCache b fp = MakeKeyForRFCache b' fp' → b = b' ∧ fp = fp'.
Proof.
  assert (∀ z, ":"%char ∉ bytes (FormatInt z)) as Hc.
  { intros z Hz%FormatInt_bytes. by apply (bool_decide_eq_true_2 _) in Hz. }
  unfold MakeKeyForRFCache. intros H%(f_equal bytes). rewrite !bytes_app in H.
  apply split_first in H as [H1%(f_equal of_bytes) H2%(f_equal of_bytes)]; [|apply Hc..].
  rewrite !of_bytes_bytes in H1, H2. by apply FormatInt_inj in H1 as ->.
Qed.

(** Neither the type nor the data type has a colon, so the key can be any string. *)
Lemma MakeKeyForAttributeKeys_inj k t d k' t' d' :
  MakeKeyForAttributeKeys k t d = MakeKeyForAttributeKeys k' t' d' → k = k' ∧ t = t' ∧ d = d'.
Proof.
  unfold MakeKeyForAttributeKeys. intros H%(f_equal (λ s, reverse (bytes s))).
  rewrite !bytes_app, !reverse_app in H. simpl in H. rewrite <- !app_assoc in H.
  assert (∀ t, ":"%char ∉ reverse (bytes (TagType_String t))) as Ht
    by (intros x; apply (bool_decide_eq_true_1 _); by destruct x).
  assert (∀ d, ":"%char ∉ reverse (bytes (TagDataType_String d))) as Hd
    by (intros x; apply (bool_decide_eq_true_1 _); by destruct x).
  apply split_first in H as [Hd' H]; [|apply Hd..].
  apply split_first in H as [Ht' H]; [|apply Ht..].
  apply (f_equal (λ l, of_bytes (reverse l))) in H. rewrite !reverse_involutive, !of_bytes_bytes in H.
  split_and!; [done|by destruct t, t'|by destruct d, d'].
Qed.
