(* ===== verification/Fingerprint.v ===== *)
(** * Fingerprints of attribute sets

    src/internal/common/fingerprint (attribute.go, fingerprint.go, hash.go, label.go), used
    by the metrics exporter, and src/utils/fingerprint (fingerprint.go, hash.go), used by the
    exporters of logs and traces: the bytes that are hashed determine the attributes, and the
    labels written as JSON are read back. *)
From S2P Require Import Prelude GoText Pdata.

(** [pcommon.Value.Type]; the type of strings. *)
Class PdataTypes (P : Pdata) := { TypeOf : Value → Z; ValueTypeStr : Z }.

(** ** Hashing (hash.go of both packages) *)

Definition InitialOffset : Z := fnv_offset64.
Definition separatorByte : ascii := "255".
Definition hashAdd (h : Z) (s : string) : Z := fnv1a h s.
Definition hashAddByte (h : Z) (b : ascii) : Z := fnv_step h b.

(** [sort.Strings] on the keys of a map: bytewise order. *)
Definition sorted_keys {A} (m : gmap string A) : list string :=
  sort_slice Strings.String.ltb (map_to_list m).*1.

Definition hash_pair (hash : Z) (k v : string) : Z :=
  hashAddByte (hashAdd (hashAddByte (hashAdd hash k) separatorByte) v) separatorByte.
Definition hash_attributes {A} (val : A → string) (offset : Z) (m : gmap string A) : Z :=
  foldl (λ hash k, match m !! k with Some v => hash_pair hash k (val v) | None => hash end)
    offset (sorted_keys m).

(** ** Fingerprints (attribute.go, fingerprint.go) *)

Record FValue := { DataType : Z; Val : string }.
Abbreviation Attributes := (gmap string FValue).
Inductive FingerprintType := ResourceFingerprintType | ScopeFingerprintType | PointFingerprintType.
#[export] Instance FingerprintType_eq_dec : EqDecision FingerprintType.
Proof. solve_decision. Defined.
Definition FingerprintType_String (t : FingerprintType) : string :=
  match t with
  | ResourceFingerprintType => "resource"
  | ScopeFingerprintType => "scope"
  | PointFingerprintType => "point"
  end.

Record Fingerprint := { attributes : Attributes; hash : Z; typ : FingerprintType }.

Section fingerprint.
Context `{PD : Pdata} `{PT : !PdataText PD} `{TY : !PdataTypes PD}.

Definition NewAttributesFromPcommonMap (attrs : gmap string Value) : Attributes :=
  (λ v, {| DataType := TypeOf v; Val := AsString v |}) <$> attrs.

Definition NewFingerprint (typ : FingerprintType) (offset : Z) (attrs : gmap string Value)
    (extras : gmap string string) : Fingerprint :=
  let attributes := ((λ v, {| DataType := ValueTypeStr; Val := v |}) <$> extras)
                    ∪ NewAttributesFromPcommonMap attrs in
  {| attributes := attributes; hash := hash_attributes Val offset attributes; typ := typ |}.
End fingerprint.

Definition AttributesAsMap (f : Fingerprint) : gmap string string := Val <$> attributes f.
Definition HashWithName (f : Fingerprint) (name : string) : Z :=
  hashAdd (hashAddByte (hashAdd (hash f) "__name__") separatorByte) name.

(** ** Labels as JSON (label.go) *)

Definition quote : ascii := "034".
Definition backslash : ascii := "\".
Definition escape_byte (c : ascii) : list ascii :=
  if decide (c = backslash ∨ c = quote) then [backslash; c]
  else if decide (c = "010"%char) then [backslash; "n"%char]
  else if decide (c = "013"%char) then [backslash; "r"%char]
  else if decide (c = "009"%char) then [backslash; "t"%char]
  else [c].
Definition marshal_label (name value : string) : list ascii :=
  quote :: bytes name ++ [quote; ":"%char; quote] ++ (bytes value ≫= escape_byte) ++ [quote; ","%char].
(** The last comma becomes the closing brace. *)
Definition marshalLabels (attrs : gmap string string) : string :=
  match sorted_keys attrs with
  | [] => "{}"
  | keys =>
      let b := "{"%char :: (keys ≫= λ name, marshal_label name (default "" (attrs !! name))) in
      of_bytes (removelast b ++ ["}"%char])
  end.

(** A later map wins over an earlier one. *)
Definition NewLabelsAsJSONString (name : string) (ms : list (gmap string string)) : string :=
  marshalLabels (<["__name__" := name]> (foldl (λ attrs m, m ∪ attrs) ∅ ms)).

(** ** Identifiers in the hierarchy of resources (utils/fingerprint) *)

Inductive DimensionHierarchyNode := Node (labels : list string) (subHierarchies : list DimensionHierarchyNode).

Section hierarchy.
Context {V : Type}.

Definition first_label (labels : list string) (attrs : gmap string V) : list (string * V) :=
  match list_find (λ l, is_Some (attrs !! l)) labels with
  | Some (_, l) => match attrs !! l with Some v => [(l, v)] | None => [] end
  | None => []
  end.

Fixpoint Identifier (attrs : gmap string V) (node : DimensionHierarchyNode) : list (string * V) :=
  let 'Node labels subs := node in
  first_label labels attrs ++
  (fix go (subs : list DimensionHierarchyNode) : list (string * V) :=
     match subs with
     | [] => []
     | s :: rest => match Identifier attrs s with [] => go rest | subLabels => subLabels end
     end) subs.
End hierarchy.

(** The receiver may be nil. *)
Fixpoint synonyms_of (attribute : string) (node : DimensionHierarchyNode) : list string :=
  let 'Node labels subs := node in
  if decide (attribute ∈ labels) then labels
  else
    (fix go (subs : list DimensionHierarchyNode) : list string :=
       match subs with
       | [] => []
       | h :: rest => match synonyms_of attribute h with [] => go rest | synonyms => synonyms end
       end) subs.
Definition Synonyms (node : option DimensionHierarchyNode) (attribute : string) : list string :=
  match node with None => [] | Some n => synonyms_of attribute n end.

Definition container_node : DimensionHierarchyNode :=
  Node ["k8s.container.name"; "container.name"; "container_name"] [Node ["component"] []].
Definition instance_node : DimensionHierarchyNode :=
  Node ["service.instance.id"; "k8s.pod.name"; "k8s.pod.uid"; "aws.ecs.task.id"; "aws.ecs.task.arn";
        "cloudwatch.log.stream"; "cloud.resource_id"; "faas.instance"; "host.id"; "host.name"; "host.ip"; "host"]
    [container_node].
Definition service_node : DimensionHierarchyNode :=
  Node ["service.name"; "cloudwatch.log.group.name"; "k8s.deployment.name"; "k8s.deployment.uid";
        "k8s.statefulset.name"; "k8s.statefulset.uid"; "k8s.daemonset.name"; "k8s.daemonset.uid";
        "k8s.job.name"; "k8s.job.uid"; "k8s.cronjob.name"; "k8s.cronjob.uid"; "faas.name"; "ec2.tag.service"]
    [Node ["deployment.environment"; "ec2.tag.env-short"; "ec2.tag.env"; "env"] [instance_node]].
Definition machine_node : DimensionHierarchyNode :=
  Node ["cloud.availability_zone"]
    [Node ["k8s.node.name"; "k8s.node.uid"; "host.id"; "host.name"; "host.ip"; "host"]
      [Node ["k8s.pod.name"; "k8s.pod.uid"; "aws.ecs.task.id"; "aws.ecs.task.arn"]
        [Node ["k8s.container.name"; "container.name"] []]]].
Definition ResourceHierarchy : DimensionHierarchyNode :=
  Node ["cloud.provider"]
    [Node ["cloud.account.id"]
      [Node ["gcp.project"]
        [Node ["cloud.region"; "aws.region"]
          [Node ["cloud.platform"; "source_type"]
            [Node ["k8s.cluster.name"; "k8s.cluster.uid"; "aws.ecs.cluster.arn"]
              [Node ["service.namespace"; "k8s.namespace.name"; "ec2.tag.service-group"] [service_node];
               machine_node]]]]]].

(** [fmt.Sprintf] of a value of any type with [%s] and with [%v]. *)
Class Format (V : Type) := { format_s : V → string; format_v : V → string }.

Section calculate.
Context {V : Type} `{FM : Format V}.

Definition FingerprintHash (attribs : gmap string V) : Z :=
  if decide (attribs = ∅) then fnv_offset64 else hash_attributes format_v fnv_offset64 attribs.

Definition CalculateFingerprint (attrs : gmap string V) (hierarchy : DimensionHierarchyNode) : string :=
  let id := Identifier attrs hierarchy in
  let parts := (λ lv, lv.1 +:+ "=" +:+ format_s lv.2) <$> id in
  join ";" (parts ++ ["hash=" +:+ FormatInt (FingerprintHash attrs)]).
End calculate.

(** ** Properties *)

Lemma sorted_keys_perm {A} (m : gmap string A) : sorted_keys m ≡ₚ (map_to_list m).*1.
Proof. apply sort_slice_perm. Qed.

Lemma sorted_keys_elem {A} (m : gmap string A) k : k ∈ sorted_keys m ↔ is_Some (m !! k).
Proof.
  rewrite sorted_keys_perm, list_elem_of_fmap. split.
  - intros ([k' v] & -> & Hkv%elem_of_map_to_list). by eexists.
  - intros [v Hv]. exists (k, v). split; [done|]. by apply elem_of_map_to_list.
Qed.

Lemma sorted_keys_nodup {A} (m : gmap string A) : NoDup (sorted_keys m).
Proof. rewrite sorted_keys_perm. apply NoDup_fst_map_to_list. Qed.

(** A map is given back by the list of its keys with their values. *)
Lemma keys_to_map {A} (m : gmap string A) (l : list (string * A)) :
  l.*1 ≡ₚ (map_to_list m).*1 → (∀ k v, (k, v) ∈ l → m !! k = Some v) → list_to_map l = m.
Proof.
  intros Hp Hl. assert (NoDup l.*1) as Hnd by (rewrite Hp; apply NoDup_fst_map_to_list).
  apply map_eq. intros k. destruct (m !! k) as [v|] eqn:Hk.
  - assert (k ∈ l.*1) as ([k' v'] & -> & Hin)%list_elem_of_fmap.
    { rewrite Hp. apply list_elem_of_fmap. exists (k, v). split; [done|]. by apply elem_of_map_to_list. }
    simpl in *. pose proof (Hl _ _ Hin). simplify_eq. by apply elem_of_list_to_map_1.
  - apply not_elem_of_list_to_map_1. rewrite Hp. intros ([k' v'] & -> & Hin%elem_of_map_to_list)%list_elem_of_fmap.
    simpl in *. congruence.
Qed.

(** *** The bytes that are hashed *)

Definition pair_bytes (k v : string) : list ascii := bytes k ++ separatorByte :: bytes v ++ [separatorByte].
Definition attribute_bytes {A} (val : A → string) (m : gmap string A) : list ascii :=
  sorted_keys m ≫= λ k, match m !! k with Some v => pair_bytes k (val v) | None => [] end.

(** Keys and values in turn, up to the end after the last separator. *)
Fixpoint pair_up (l : list (list ascii)) : option (list (string * string)) :=
  match l with
  | [[]] => Some []
  | k :: v :: l => rest ← pair_up l; Some ((of_bytes k, of_bytes v) :: rest)
  | _ => None
  end.
Definition decode_attributes (l : list ascii) : option (gmap string string) :=
  list_to_map <$> pair_up (split_bytes separatorByte l).

Definition no_separator (s : string) : Prop := separatorByte ∉ bytes s.

Lemma hash_pair_bytes h k v : hash_pair h k v = fnv1a h (of_bytes (pair_bytes k v)).
Proof.
  unfold hash_pair, hashAdd, hashAddByte, pair_bytes, fnv1a. rewrite bytes_of_bytes.
  rewrite foldl_app. simpl. by rewrite foldl_app.
Qed.

Lemma fnv1a_of_bytes_app h l k : fnv1a h (of_bytes (l ++ k)) = fnv1a (fnv1a h (of_bytes l)) (of_bytes k).
Proof. unfold fnv1a. rewrite !bytes_of_bytes. apply foldl_app. Qed.

Lemma hash_attributes_bytes {A} (val : A → string) offset m :
  hash_attributes val offset m = fnv1a offset (of_bytes (attribute_bytes val m)).
Proof.
  unfold hash_attributes, attribute_bytes. revert offset. induction (sorted_keys m) as [|k l IH]; intros h; [done|].
  rewrite bind_cons, fnv1a_of_bytes_app. simpl. rewrite IH. f_equal.
  destruct (m !! k); [apply hash_pair_bytes|done].
Qed.

Lemma split_bytes_app c l r : c ∉ l → split_bytes c (l ++ c :: r) = l :: split_bytes c r.
Proof.
  induction l as [|d l IH]; intros Hn; simpl; [by rewrite Ascii.eqb_refl|].
  apply not_elem_of_cons in Hn as [Hd Hn]. rewrite (proj2 (Ascii.eqb_neq d c)) by done.
  by rewrite IH.
Qed.

Lemma pair_up_bytes k v l :
  no_separator k → no_separator v →
  pair_up (split_bytes separatorByte (pair_bytes k v ++ l)) = cons (k, v) <$> pair_up (split_bytes separatorByte l).
Proof.
  intros Hk Hv. unfold pair_bytes. rewrite <- app_assoc. cbn [app]. rewrite <- app_assoc.
  rewrite split_bytes_app by done. cbn [app]. rewrite split_bytes_app by done. cbn [pair_up]. rewrite !of_bytes_bytes.
  by destruct (bytes k), (pair_up _).
Qed.

Lemma decode_attribute_bytes {A} (val : A → string) m :
  (∀ k v, m !! k = Some v → no_separator k ∧ no_separator (val v)) →
  decode_attributes (attribute_bytes val m) = Some (val <$> m).
Proof.
  intros Hm. unfold decode_attributes.
  assert (∀ l, (∀ k, k ∈ l → is_Some (m !! k)) →
    pair_up (split_bytes separatorByte (l ≫= λ k, match m !! k with Some v => pair_bytes k (val v) | None => [] end))
    = Some (omap (λ k, (λ v, (k, val v)) <$> m !! k) l)) as Hl.
  { induction l as [|k l IH]; intros Hin; [done|]. rewrite bind_cons. destruct (Hin k ltac:(set_solver)) as [v Hv].
    simpl. rewrite Hv. simpl. destruct (Hm k v Hv). rewrite pair_up_bytes by done. rewrite IH by set_solver. done. }
  unfold attribute_bytes. rewrite Hl by (intros k; apply sorted_keys_elem). cbn [fmap option_fmap option_map]. f_equal.
  apply keys_to_map.
  - trans (sorted_keys m).
    + assert (∀ l, (∀ k, k ∈ l → is_Some (m !! k)) → (omap (λ k, (λ v, (k, val v)) <$> m !! k) l).*1 = l) as Hfst.
      { induction l as [|k l IH]; intros Hin; [done|]. destruct (Hin k ltac:(set_solver)) as [v Hv]. simpl.
        rewrite Hv. simpl. f_equal. apply IH. set_solver. }
      rewrite Hfst; [done|]. intros k. apply sorted_keys_elem.
    + rewrite sorted_keys_perm. rewrite map_to_list_fmap, <- list_fmap_compose. by apply reflexive_eq, list_fmap_ext.
  - intros k v (k' & _ & Hk)%list_elem_of_omap. rewrite lookup_fmap.
    destruct (m !! k') as [w|] eqn:E; simpl in Hk; simplify_eq. by rewrite E.
Qed.

(** C16. A fingerprint is the FNV-1a hash of exactly these bytes: each key with its value, in the
    order of the keys, with a separator after each. As long as no key or value has the separator
    byte, which UTF-8 never uses, the attributes are read back from the bytes, so that two sets of
    attributes share a fingerprint only if FNV-1a maps two different byte strings to it. *)
Theorem fingerprint_bytes_roundtrip {PD : Pdata} {PT : PdataText PD} {TY : PdataTypes PD}
    typ offset (attrs : gmap string Value) (extras : gmap string string) :
  (∀ k v, attrs !! k = Some v → no_separator k ∧ no_separator (AsString v)) →
  (∀ k v, extras !! k = Some v → no_separator k ∧ no_separator v) →
  let f := NewFingerprint typ offset attrs extras in
  hash f = fnv1a offset (of_bytes (attribute_bytes Val (attributes f)))
  ∧ decode_attributes (attribute_bytes Val (attributes f)) = Some (AttributesAsMap f)
  ∧ AttributesAsMap f = extras ∪ (AsString <$> attrs).
Proof.
  intros Ha He f. split_and!.
  - apply hash_attributes_bytes.
  - apply decode_attribute_bytes. intros k v Hk. simpl in Hk. rewrite lookup_union, !lookup_fmap in Hk.
    unfold NewAttributesFromPcommonMap in Hk. rewrite lookup_fmap in Hk.
    destruct (extras !! k) as [e|] eqn:Ek, (attrs !! k) as [w|] eqn:Ew;
      unfold union, option_union in Hk; simpl in Hk; simplify_eq; cbn [Val];
      [by apply He|by apply He|by apply Ha].
  - unfold AttributesAsMap. simpl. unfold NewAttributesFromPcommonMap. rewrite map_fmap_union, <- !map_fmap_compose.
    f_equal. rewrite <- (map_fmap_id extras) at 2. by apply map_fmap_ext.
Qed.

(** *** The labels *)

(** A reader of the labels: a string up to the next quote, with escapes. *)
Fixpoint read_value (l : list ascii) : option (list ascii * list ascii) :=
  match l with
  | [] => None
  | c :: l =>
      if decide (c = quote) then Some ([], l)
      else if decide (c = backslash) then
        match l with
        | [] => None
        | d :: l =>
            let d := if decide (d = "n"%char) then "010"%char
                     else if decide (d = "r"%char) then "013"%char
                     else if decide (d = "t"%char) then "009"%char else d in
            '(v, r) ← read_value l; Some (d :: v, r)
        end
      else '(v, r) ← read_value l; Some (c :: v, r)
  end.
Fixpoint read_key (l : list ascii) : option (list ascii * list ascii) :=
  match l with
  | [] => None
  | c :: l => if decide (c = quote) then Some ([], l) else '(k, r) ← read_key l; Some (c :: k, r)
  end.
Fixpoint read_pairs (fuel : nat) (l : list ascii) : option (list (string * string)) :=
  match fuel, l with
  | S fuel, q :: l =>
      if decide (q = quote) then
        '(k, l) ← read_key l;
        match l with
        | c :: q :: l =>
            if decide (c = ":"%char ∧ q = quote) then
              '(v, l) ← read_value l;
              match l with
              | d :: l =>
                  if decide (d = "}"%char) then Some [(of_bytes k, of_bytes v)]
                  else if decide (d = ","%char) then
                    rest ← read_pairs fuel l; Some ((of_bytes k, of_bytes v) :: rest)
                  else None
              | [] => None
              end
            else None
        | _ => None
        end
      else None
  | _, _ => None
  end.
Definition read_labels (s : string) : option (gmap string string) :=
  match bytes s with
  | c :: l =>
      if decide (c = "{"%char) then
        if decide (l = ["}"%char]) then Some ∅ else list_to_map <$> read_pairs (length l) l
      else None
  | [] => None
  end.

Lemma read_value_escaped v r : read_value ((v ≫= escape_byte) ++ quote :: r) = Some (v, r).
Proof.
  induction v as [|c v IH]; [done|]. rewrite bind_cons, <- app_assoc. unfold escape_byte at 1.
  destruct (decide (c = backslash ∨ c = quote)) as [Hc|Hc]; [|destruct (decide (c = "010"%char)) as [->|];
    [|destruct (decide (c = "013"%char)) as [->|]; [|destruct (decide (c = "009"%char)) as [->|]]]];
    cbn [app read_value]; rewrite ?decide_False by done; cbn [app read_value].
  - rewrite decide_True by done. rewrite !decide_False by (by destruct Hc as [-> | ->]). by rewrite IH.
  - rewrite decide_True by done. by rewrite IH.
  - rewrite decide_True by done. by rewrite IH.
  - rewrite decide_True by done. by rewrite IH.
  - rewrite !decide_False by tauto. by rewrite IH.
Qed.

Lemma read_key_bytes k r : quote ∉ k → read_key (k ++ quote :: r) = Some (k, r).
Proof.
  induction k as [|c k IH]; intros Hk; cbn [app read_key]; [by rewrite decide_True|].
  apply not_elem_of_cons in Hk as [Hc Hk]. rewrite decide_False by done. by rewrite IH.
Qed.

(** One label up to its closing quote, followed by [d]. *)
Definition label_body (name value : string) : list ascii :=
  quote :: bytes name ++ quote :: ":"%char :: quote :: (bytes value ≫= escape_byte) ++ [quote].

Lemma marshal_label_body k v : marshal_label k v = label_body k v ++ [","%char].
Proof. unfold marshal_label, label_body. cbn [app]. by rewrite <- !app_assoc; cbn [app]; rewrite <- app_assoc. Qed.

Lemma read_label fuel k v d r :
  quote ∉ bytes k →
  read_pairs (S fuel) (label_body k v ++ d :: r)
  = if decide (d = "}"%char) then Some [(k, v)]
    else if decide (d = ","%char) then rest ← read_pairs fuel r; Some ((k, v) :: rest)
    else None.
Proof.
  intros Hk. unfold label_body. cbn [app read_pairs]. rewrite decide_True by done.
  rewrite <- app_assoc. cbn [app]. rewrite read_key_bytes by done. cbn [mbind option_bind].
  rewrite decide_True by done. rewrite <- app_assoc. cbn [app]. rewrite read_value_escaped.
  cbn [mbind option_bind]. by rewrite !of_bytes_bytes.
Qed.

Lemma read_all_labels (val : string → string) k ks fuel :
  (∀ x, x ∈ k :: ks → quote ∉ bytes x) → (length ks < fuel)%nat →
  read_pairs fuel (removelast ((k :: ks) ≫= λ x, marshal_label x (val x)) ++ ["}"%char])
  = Some ((λ x, (x, val x)) <$> k :: ks).
Proof.
  revert k fuel. induction ks as [|k' ks IH]; intros k fuel Hq Hf; (destruct fuel as [|fuel]; [simpl in Hf; lia|]).
  - rewrite bind_cons; cbn [mbind list_bind]; rewrite app_nil_r, marshal_label_body, removelast_last, read_label by (apply Hq; set_solver).
    done.
  - rewrite bind_cons, removelast_app.
    2: { rewrite bind_cons. unfold marshal_label. done. }
    rewrite marshal_label_body, <- !app_assoc. cbn [app]. rewrite read_label by (apply Hq; set_solver).
    rewrite decide_False by done. rewrite decide_True by done.
    rewrite IH; [done|intros x Hx; apply Hq; set_solver|simpl in Hf; lia].
Qed.

Lemma marshal_length (val : string → string) ks :
  (length ks ≤ length (ks ≫= λ x, marshal_label x (val x)))%nat.
Proof.
  induction ks as [|k ks IH]; [simpl; lia|]. rewrite bind_cons, length_app. unfold marshal_label at 1. simpl in *. lia.
Qed.

(** The labels written for a set of attributes are read back, whatever bytes the values
    hold, when no name has a quote. *)
Theorem labels_roundtrip attrs :
  (∀ k v, attrs !! k = Some v → quote ∉ bytes k) → read_labels (marshalLabels attrs) = Some attrs.
Proof.
  intros Hq. unfold marshalLabels, read_labels.
  pose proof (sorted_keys_elem attrs) as Hk. pose proof (sorted_keys_perm attrs) as Hp.
  destruct (sorted_keys attrs) as [|k ks].
  { assert (attrs = ∅) as ->; [|by vm_compute]. apply map_eq. intros i. rewrite lookup_empty.
    destruct (attrs !! i) eqn:E; [|done]. assert (i ∈ @nil string) as Hi by (apply Hk; by eexists).
    by apply not_elem_of_nil in Hi. }
  rewrite bytes_of_bytes. set (val := λ x, default "" (attrs !! x)).
  change (λ name, marshal_label name (default "" (attrs !! name))) with (λ x, marshal_label x (val x)).
  set (labs := (k :: ks) ≫= λ x, marshal_label x (val x)).
  assert (labs ≠ []) as Hne by (unfold labs; rewrite bind_cons; unfold marshal_label; done).
  assert (removelast ("{"%char :: labs) = "{"%char :: removelast labs) as -> by (destruct labs; done).
  cbn [app]. rewrite decide_True by done.
  assert (read_pairs (length (removelast labs ++ ["}"%char])) (removelast labs ++ ["}"%char])
          = Some ((λ x, (x, val x)) <$> k :: ks)) as Hr.
  { apply read_all_labels.
    - intros x [v Hv]%Hk. by eapply Hq.
    - pose proof (marshal_length val (k :: ks)) as Hl. fold labs in Hl.
      pose proof (app_removelast_last "000"%char Hne) as Hlast. rewrite Hlast, length_app in Hl. simpl in *.
      rewrite length_app. simpl. lia. }
  rewrite decide_False.
  - rewrite Hr. trans (Some (list_to_map ((λ x, (x, val x)) <$> k :: ks) : gmap string string)); [done|].
    f_equal. apply keys_to_map.
    + rewrite <- list_fmap_compose. rewrite list_fmap_id. done.
    + intros x v (y & [= -> ->] & [w Hw]%Hk)%list_elem_of_fmap. unfold val. by rewrite Hw.
  - intros E. rewrite E in Hr. by vm_compute in Hr.
Qed.

(** Names are not escaped: with quotes in a name two different sets of labels are written alike. *)
Theorem quoted_names_collide :
  let q := String quote "" in
  marshalLabels {[ "a" := "1"; "b" := "2" ]} = marshalLabels {[ "a" +:+ q +:+ ":" +:+ q +:+ "1" +:+ q +:+ "," +:+ q +:+ "b" := "2" ]}.
Proof. vm_compute. reflexivity. Qed.

(** *** The hierarchy *)

Fixpoint all_labels (node : DimensionHierarchyNode) : list string :=
  let 'Node labels subs := node in
  labels ++ (fix go (subs : list DimensionHierarchyNode) : list string :=
               match subs with [] => [] | s :: rest => all_labels s ++ go rest end) subs.

Lemma node_ind' (P : DimensionHierarchyNode → Prop) :
  (∀ labels subs, Forall P subs → P (Node labels subs)) → ∀ n, P n.
Proof.
  intros H. fix IH 1. intros [labels subs]. apply H. induction subs as [|s subs IHs]; constructor; [apply IH|done].
Qed.

Lemma first_label_nil {V} labels (attrs : gmap string V) :
  first_label labels attrs = [] ↔ ∀ l, l ∈ labels → attrs !! l = None.
Proof.
  unfold first_label. destruct (list_find _ labels) as [[i l]|] eqn:Hf.
  - apply list_find_Some in Hf as (Hl & [v Hv] & _). rewrite Hv. split; [done|].
    intros H. rewrite (H l) in Hv by (by eapply list_elem_of_lookup_2). done.
  - apply list_find_None in Hf. split; [|done]. intros _ l Hl. rewrite Forall_forall in Hf.
    by apply eq_None_not_Some, Hf.
Qed.

Lemma first_label_sound {V} labels (attrs : gmap string V) lv :
  lv ∈ first_label labels attrs → lv.1 ∈ labels ∧ attrs !! lv.1 = Some lv.2.
Proof.
  unfold first_label. destruct (list_find _ labels) as [[i l]|] eqn:Hf; [|by intros ?%elem_of_nil].
  apply list_find_Some in Hf as (Hl & [v Hv] & _). rewrite Hv. intros ->%list_elem_of_singleton.
  split; [by eapply list_elem_of_lookup_2|done].
Qed.

(** An identifier is made of labels of the hierarchy with the values the attributes give
    them, at most one per level, and it is empty only if no label of the hierarchy is among
    the attributes. *)
Theorem Identifier_spec {V} (attrs : gmap string V) node :
  (∀ lv, lv ∈ Identifier attrs node → lv.1 ∈ all_labels node ∧ attrs !! lv.1 = Some lv.2)
  ∧ (Identifier attrs node = [] ↔ ∀ l, l ∈ all_labels node → attrs !! l = None).
Proof.
  induction node as [labels subs IH] using node_ind'. cbn [Identifier all_labels].
  match goal with |- context [first_label labels attrs ++ ?g subs] => set (go := g) end.
  match goal with |- context [labels ++ ?g subs] => set (all := g) end.
  assert ((∀ lv, lv ∈ go subs → lv.1 ∈ all subs ∧ attrs !! lv.1 = Some lv.2)
          ∧ (go subs = [] ↔ ∀ l, l ∈ all subs → attrs !! l = None)) as [Hs Hn].
  { induction IH as [|s subs [H1 H2] _ [IH1 IH2]]; [split; [by intros ? ?%elem_of_nil|set_solver]|].
    cbn. fold go all. destruct (Identifier attrs s) as [|lv lvs] eqn:E.
    - split.
      + intros lv Hlv. destruct (IH1 lv Hlv). split; [set_solver|done].
      + rewrite IH2. setoid_rewrite elem_of_app. naive_solver.
    - split.
      + intros lv' Hlv. destruct (H1 lv' Hlv). split; [set_solver|done].
      + split; [done|]. intros H. destruct H2 as [_ H2]. rewrite H2; [done|]. set_solver. }
  split.
  - intros lv [Hlv|Hlv]%elem_of_app.
    + apply first_label_sound in Hlv as [? ?]. split; [set_solver|done].
    + destruct (Hs lv Hlv). split; [set_solver|done].
  - rewrite app_nil, first_label_nil, Hn. setoid_rewrite elem_of_app. naive_solver.
Qed.

(** The synonyms of a label are the labels of one node that has it; there are none only if
    no node has it. *)
Theorem Synonyms_spec node attribute :
  (Synonyms (Some node) attribute ≠ [] → attribute ∈ Synonyms (Some node) attribute)
  ∧ (Synonyms (Some node) attribute = [] ↔ attribute ∉ all_labels node).
Proof.
  simpl. induction node as [labels subs IH] using node_ind'. cbn [synonyms_of all_labels].
  match goal with |- context [labels ++ ?g subs] => set (all := g) end.
  destruct (decide (attribute ∈ labels)) as [Hin|Hin].
  { split; [done|]. split; [intros ->; set_solver|set_solver]. }
  match goal with |- context [?g subs = []] => set (go := g) end.
  assert ((go subs ≠ [] → attribute ∈ go subs) ∧ (go subs = [] ↔ attribute ∉ all subs)) as [H1 H2].
  { induction IH as [|s subs [H1 H2] _ [IH1 IH2]]; [set_solver|].
    cbn. fold go all. destruct (synonyms_of attribute s) as [|l ls] eqn:E.
    - split; [done|]. rewrite IH2. set_solver.
    - split; [by intros _; apply H1|]. set_solver. }
  split; [done|]. rewrite H2. set_solver.
Qed.

(** ** Witnesses *)
Section witnesses.
Import TestPdata.
#[local] Instance w_types : PdataTypes test_pdata :=
  {| TypeOf v := match v with VStr _ => 1 | VInt _ => 2 end; ValueTypeStr := 1 |}.

Lemma fingerprint_bytes_roundtrip_witness :
  let f := NewFingerprint PointFingerprintType 0 {[ "k" := VInt 3 ]} {[ "le" := "+Inf" ]} in
  hash f = fnv1a 0 (of_bytes (attribute_bytes Val (attributes f)))
  ∧ of_bytes (attribute_bytes Val (attributes f)) = of_bytes (pair_bytes "k" "3" ++ pair_bytes "le" "+Inf")
  ∧ decode_attributes (attribute_bytes Val (attributes f)) = Some {[ "le" := "+Inf"; "k" := "3" ]}.
Proof.
  destruct (fingerprint_bytes_roundtrip PointFingerprintType 0 {[ "k" := VInt 3 ]} {[ "le" := "+Inf" ]})
    as (H1 & H2 & H3).
  - intros k v [<- <-]%lookup_singleton_Some. split; apply (bool_decide_eq_true_1 _); vm_compute; reflexivity.
  - intros k v [<- <-]%lookup_singleton_Some. split; apply (bool_decide_eq_true_1 _); vm_compute; reflexivity.
  - split; [exact H1|]. split; [vm_compute; reflexivity|]. rewrite H2, H3. apply (bool_decide_eq_true_1 _). vm_compute. reflexivity.
Defined.

Lemma labels_roundtrip_witness :
  read_labels (marshalLabels {[ "a" := String quote "x" ]}) = Some {[ "a" := String quote "x" ]}.
Proof.
  apply labels_roundtrip. intros k v [<- <-]%lookup_singleton_Some.
  apply (bool_decide_eq_true_1 _). vm_compute. reflexivity.
Defined.
End witnesses.
