(* ===== verification/Pmetric.v ===== *)
(** * The metric data model

    The OTLP structures of [pmetric] the metrics exporter walks, as records with the fields
    it reads; a point's optional fields are options. *)
From S2P Require Import Prelude Pdata Sampling.
From Stdlib Require Import SpecFloat.

(** [math.IsNaN]. *)
Definition IsNaN (x : float64) : bool := match x with S754_nan => true | _ => false end.

Inductive AggregationTemporality := TemporalityUnspecified | TemporalityDelta | TemporalityCumulative.
#[export] Instance AggregationTemporality_eq_dec : EqDecision AggregationTemporality.
Proof. solve_decision. Defined.

Inductive MetricType :=
| MetricTypeEmpty | MetricTypeGauge | MetricTypeSum | MetricTypeHistogram
| MetricTypeExponentialHistogram | MetricTypeSummary.
#[export] Instance MetricType_eq_dec : EqDecision MetricType.
Proof. solve_decision. Defined.

(** The text of the enumerations. *)
Class PmetricText := {
  Temporality_String : AggregationTemporality → string;
  MetricType_String : MetricType → string;
}.

Inductive NumberValue := NumberEmpty | NumberInt (z : Z) | NumberDouble (x : float64).

Section data.
Context `{PD : Pdata}.
Abbreviation Map := (gmap string Value).

Record NumberDataPoint := {
  n_Attributes : Map; n_Timestamp : Z; n_Value : NumberValue; n_Flags : Z }.
Record HistogramDataPoint := {
  h_Attributes : Map; h_Timestamp : Z; h_Count : Z;
  h_Sum : option float64; h_Min : option float64; h_Max : option float64;
  h_BucketCounts : list Z; h_ExplicitBounds : list float64; h_Flags : Z }.
(** A quantile and its value. *)
Record SummaryDataPoint := {
  s_Attributes : Map; s_Timestamp : Z; s_Count : Z; s_Sum : float64;
  s_QuantileValues : list (float64 * float64); s_Flags : Z }.
(** Buckets are an offset and counts. *)
Record ExponentialHistogramDataPoint := {
  e_Attributes : Map; e_Timestamp : Z; e_Count : Z;
  e_Sum : option float64; e_Min : option float64; e_Max : option float64;
  e_Scale : Z; e_ZeroCount : Z; e_Positive : Z * list Z; e_Negative : Z * list Z; e_Flags : Z }.

Inductive MetricData :=
| Empty
| Gauge (points : list NumberDataPoint)
| Sum (temporality : AggregationTemporality) (isMonotonic : bool) (points : list NumberDataPoint)
| Histogram (temporality : AggregationTemporality) (points : list HistogramDataPoint)
| ExponentialHistogram (temporality : AggregationTemporality) (points : list ExponentialHistogramDataPoint)
| Summary (points : list SummaryDataPoint).

Record Metric := { m_Name : string; m_Description : string; m_Unit : string; m_Data : MetricData }.
Definition Type_ (m : Metric) : MetricType :=
  match m_Data m with
  | Empty => MetricTypeEmpty
  | Gauge _ => MetricTypeGauge
  | Sum _ _ _ => MetricTypeSum
  | Histogram _ _ => MetricTypeHistogram
  | ExponentialHistogram _ _ => MetricTypeExponentialHistogram
  | Summary _ => MetricTypeSummary
  end.

Record ScopeMetrics := {
  sm_Attributes : Map; sm_Name : string; sm_Version : string; sm_SchemaUrl : string; sm_Metrics : list Metric }.
Record ResourceMetrics := { rm_Attributes : Map; rm_ScopeMetrics : list ScopeMetrics }.
Definition Metrics := list ResourceMetrics.
End data.
