(* ===== verification/ClickHouse.v ===== *)
(** * The database driver and the caches of the exporters

    What the three exporters share of the code they call: a prepared statement that answers
    to every call, and a cache whose items expire. *)
From S2P Require Import Prelude Utils.

(** [jellydator/ttlcache] with a time to live and without touching on a hit; times are in
    milliseconds. *)
Class TTLCache := {
  ttl_cache : Type;
  ttl_New : ttl_cache;
  ttl_Get : ttl_cache → Z → string → option bool;
  ttl_Set : ttl_cache → Z → string → bool → ttl_cache;
}.

(** An item is found until its time to live [ttl] is over, and a set leaves the other keys
    alone. The caches of exporter/clickhouselogsexporter/factory.go have a capacity, and may drop
    an item before: these are the laws while it is not reached, and [TTLCacheSound] those of any
    such cache. *)
Class TTLCacheLaws (T : TTLCache) (ttl : Z) := {
  ttl_Get_New t k : ttl_Get ttl_New t k = None;
  ttl_Get_Set c t k b t' : t ≤ t' < t + ttl → ttl_Get (ttl_Set c t k b) t' k = Some b;
  ttl_Get_Set_ne c t k b t' k' : k' ≠ k → ttl_Get (ttl_Set c t k b) t' k' = ttl_Get c t' k';
}.

(** A cache that may also drop items, as one with a capacity: a set makes no other key
    appear. *)
Class TTLCacheSound (T : TTLCache) := {
  ttl_hit_Set_ne c t k b t' k' v : k' ≠ k → ttl_Get (ttl_Set c t k b) t' k' = Some v → ttl_Get c t' k' = Some v;
}.
#[export] Instance TTLCacheLaws_sound T ttl : TTLCacheLaws T ttl → TTLCacheSound T.
Proof. intros L. split. intros c t k b t' k' v Hk. by rewrite ttl_Get_Set_ne. Qed.

(** What the driver answers: to [PrepareBatch], to the appends, counted from zero, and to
    [Send]; [None] is success. *)
Record statement := { prepare_err : option string; append_err : nat → option string; send_err : option string }.

(** Rows appended one after the other, and sent: the error, and what reached the table. *)
Fixpoint append_all {R : Type} (st : statement) (n : nat) (rows : list R) : option string :=
  match rows with
  | [] => None
  | _ :: rest => match append_err st n with Some e => Some e | None => append_all st (S n) rest end
  end.
Definition write_rows {R : Type} (st : statement) (rows : list R) : option string * list R :=
  match rows with
  | [] => (None, [])
  | _ =>
      match prepare_err st with
      | Some e => (Some e, [])
      | None =>
          match append_all st O rows with
          | Some e => (Some e, [])
          | None => match send_err st with Some e => (Some e, []) | None => (None, rows) end
          end
      end
  end.

(** A row that is refused is left out where the error is ignored. *)
Definition append_ignoring {R} (st : statement) (rows : list R) (row : R) : list R :=
  match append_err st (length rows) with Some _ => rows | None => rows ++ [row] end.

(** A statement that accepts every row. *)
Definition accepts (st : statement) : Prop := prepare_err st = None ∧ ∀ n, append_err st n = None.

Lemma write_rows_accepts {R} st (rows : list R) :
  accepts st → send_err st = None → write_rows st rows = (None, rows).
Proof.
  intros [Hp Ha] Hs. assert (∀ n, append_all st n rows = None) as Happ.
  { induction rows as [|s l IH]; intros n; [done|]. simpl. by rewrite Ha. }
  unfold write_rows. rewrite Hp, Happ, Hs. by destruct rows.
Qed.

(** ** References to resources *)

(** A row may refer to a resource that the table has: its row was appended, or the cache says
    that it was there before. *)
Definition covered `{TC : TTLCache} (now : Z) (rfCache : ttl_cache) (rows : list (string * string * Z)) (bucket : Z)
    (fp : string) : Prop :=
  is_Some (ttl_Get rfCache now (MakeKeyForRFCache bucket fp)) ∨ ∃ labels, (labels, fp, bucket) ∈ rows.

(** What is appended and cached together covers nothing else. *)
Lemma covered_extend `{TC : TTLCache} `{!TTLCacheSound TC} now rf0 rows0 rf rows l b fp :
  (∀ b' fp', covered now rf rows b' fp' → covered now rf0 rows0 b' fp') →
  ∀ b' fp', covered now (ttl_Set rf now (MakeKeyForRFCache b fp) true) (rows ++ [(l, fp, b)]) b' fp' →
            covered now rf0 (rows0 ++ [(l, fp, b)]) b' fp'.
Proof.
  intros Hc b' fp' [[v Hv]|[lab Hl]].
  - destruct (decide (MakeKeyForRFCache b' fp' = MakeKeyForRFCache b fp)) as [Ek|Ek].
    + apply MakeKeyForRFCache_inj in Ek as [-> ->]. right. exists l. set_solver.
    + apply ttl_hit_Set_ne in Hv; [|done]. destruct (Hc b' fp') as [Hs|[lab Hs]];
        [left; by eexists|by left|right; exists lab; set_solver].
  - apply elem_of_app in Hl as [Hl|Hl].
    + destruct (Hc b' fp') as [Hs|[lab' Hs]]; [right; by exists lab|by left|right; exists lab'; set_solver].
    + apply list_elem_of_singleton in Hl as [= -> -> ->]. right. exists l. set_solver.
Qed.

(** The cache tells only of rows that the table of resources has, whatever the time. *)
Definition cache_true `{TC : TTLCache} (rfCache : ttl_cache) (table : list (string * string * Z)) : Prop :=
  ∀ t bucket fp, is_Some (ttl_Get rfCache t (MakeKeyForRFCache bucket fp)) → ∃ labels, (labels, fp, bucket) ∈ table.

Lemma cache_true_extend `{TC : TTLCache} `{!TTLCacheSound TC} now rf table l b fp :
  cache_true rf table → cache_true (ttl_Set rf now (MakeKeyForRFCache b fp) true) (table ++ [(l, fp, b)]).
Proof.
  intros Hc t b' fp' [v Hv]. destruct (decide (MakeKeyForRFCache b' fp' = MakeKeyForRFCache b fp)) as [Ek|Ek].
  - apply MakeKeyForRFCache_inj in Ek as [-> ->]. exists l. set_solver.
  - apply ttl_hit_Set_ne in Hv; [|done]. destruct (Hc t b' fp') as [lab Hl]; [by eexists|]. exists lab. set_solver.
Qed.

(** With such a cache, a covered reference is one to a row. *)
Lemma covered_in_table `{TC : TTLCache} now rf table rows b fp :
  cache_true rf table → covered now rf rows b fp → ∃ labels, (labels, fp, b) ∈ table ++ rows.
Proof. intros Hc [Hs|[l Hl]]; [destruct (Hc _ _ _ Hs) as [l Hl]|]; exists l; set_solver. Qed.

(** A cache of keys with the time they expire. *)
Module TestTTL.
Section cache.
Context (ttl : Z).
Instance test_cache : TTLCache := {|
  ttl_cache := gmap string (bool * Z);
  ttl_New := ∅;
  ttl_Get c now k := match c !! k with Some (b, e) => if now <? e then Some b else None | None => None end;
  ttl_Set c now k b := <[k := (b, now + ttl)]> c;
|}.
Instance test_cache_laws : TTLCacheLaws test_cache ttl.
Proof.
  split; simpl.
  - intros t k. by rewrite lookup_empty.
  - intros c t k b t' Ht. rewrite lookup_insert_eq. by rewrite (proj2 (Z.ltb_lt _ _)) by lia.
  - intros c t k b t' k' Hk. by rewrite lookup_insert_ne.
Qed.
End cache.
End TestTTL.
