(* ===== verification/MetricsExporter.v ===== *)
(** * The metrics exporter

    src/exporter/signozclickhousemetrics: batch.go and exporter.go. A batch of metrics is
    turned into rows of four tables, which [writeBatch] inserts. The ClickHouse driver and the
    TTL cache are interfaces; what the driver answers to a statement is an argument. *)
From S2P Require Import Prelude GoText Pdata Sampling ClickHouse Pmetric Fingerprint.
From Stdlib Require Import SpecFloat.

(** [strconv.FormatFloat(x, 'f', -1, 64)], and [math.Pow(2, math.Pow(2, float64(-scale)))]. *)
Class FloatText := { FormatFloat : float64 → string; gamma_of_scale : Z → float64 }.

(** int32 conversion. *)
Definition i32 (z : Z) : Z := (z + 2 ^ 31) mod 2 ^ 32 - 2 ^ 31.

Section exporter.
Context `{PD : Pdata} `{PT : !PdataText PD} `{TY : !PdataTypes PD} `{MT : PmetricText} `{FT : FloatText}.
Abbreviation Map := (gmap string Value).

(** ** Rows *)

Record sample := {
  s_env : string; s_temporality : AggregationTemporality; s_metricName : string;
  s_fingerprint : Z; s_unixMilli : Z; s_value : float64; s_flags : Z }.

(** [chproto.DD]. *)
Record sketch := {
  gamma : float64; positive : Z * list float64; negative : Z * list float64; zeroCount : float64 }.
Record exponentialHistogramSample := {
  x_env : string; x_temporality : AggregationTemporality; x_metricName : string;
  x_fingerprint : Z; x_unixMilli : Z; x_sketch : sketch;
  x_count : float64; x_sum : float64; x_min : float64; x_max : float64; x_flags : Z }.

Record ts := {
  t_env : string; t_temporality : AggregationTemporality; t_metricName : string;
  t_description : string; t_unit : string; t_typ : MetricType; t_isMonotonic : bool;
  t_fingerprint : Z; t_unixMilli : Z; t_labels : string;
  t_attrs : gmap string string; t_scopeAttrs : gmap string string; t_resourceAttrs : gmap string string }.

Record metadata := {
  d_metricName : string; d_temporality : AggregationTemporality; d_description : string; d_unit : string;
  d_typ : MetricType; d_isMonotonic : bool; d_attrName : string; d_attrType : string;
  d_attrDatatype : Z; d_attrStringValue : string;
  d_firstReportedUnixMilli : Z; d_lastReportedUnixMilli : Z }.

(** ** [batch] (batch.go) *)

Record batch := {
  b_samples : list sample; b_expHist : list exponentialHistogramSample;
  b_ts : list ts; b_metadata : list metadata }.
Definition newBatch : batch := {| b_samples := []; b_expHist := []; b_ts := []; b_metadata := [] |}.
Definition addSample (b : batch) (s : sample) : batch :=
  {| b_samples := b_samples b ++ [s]; b_expHist := b_expHist b; b_ts := b_ts b; b_metadata := b_metadata b |}.
Definition addTs (b : batch) (t : ts) : batch :=
  {| b_samples := b_samples b; b_expHist := b_expHist b; b_ts := b_ts b ++ [t]; b_metadata := b_metadata b |}.
Definition addExpHist (b : batch) (x : exponentialHistogramSample) : batch :=
  {| b_samples := b_samples b; b_expHist := b_expHist b ++ [x]; b_ts := b_ts b; b_metadata := b_metadata b |}.

(** What the rows of a metric share. *)
Record series_info := {
  i_env : string; i_temporality : AggregationTemporality; i_name : string;
  i_desc : string; i_unit : string; i_typ : MetricType; i_isMonotonic : bool }.

Definition MaxInt64 : Z := 2 ^ 63 - 1.

(** One row per attribute, in the order of a map; [now] is the clock, in milliseconds. *)
Definition addMetadata (now : Z) (b : batch) (i : series_info) (fingerprint : Fingerprint)
    (firstSeenUnixMilli lastSeenUnixMilli : Z) : batch :=
  let '(first, last) := if firstSeenUnixMilli =? MaxInt64 then (now, now)
                        else (firstSeenUnixMilli, lastSeenUnixMilli) in
  {| b_samples := b_samples b; b_expHist := b_expHist b; b_ts := b_ts b;
     b_metadata := b_metadata b ++
       ((λ kv, {| d_metricName := i_name i; d_temporality := i_temporality i; d_description := i_desc i;
                  d_unit := i_unit i; d_typ := i_typ i; d_isMonotonic := i_isMonotonic i;
                  d_attrName := kv.1; d_attrType := FingerprintType_String (Fingerprint.typ fingerprint);
                  d_attrDatatype := DataType kv.2; d_attrStringValue := Val kv.2;
                  d_firstReportedUnixMilli := first; d_lastReportedUnixMilli := last |})
          <$> map_to_list (attributes fingerprint)) |}.

(** ** Data points *)

(** The fingerprints of the resource and the scope of a metric, and their attributes. *)
Record scope_info := { resourceFingerprint : Fingerprint; scopeFingerprint : Fingerprint }.

Definition UnixMilli (timestamp : Z) : Z := i64 timestamp / 10 ^ 6.

(** [NewFingerprint] of the attributes of a point. *)
Definition point_fingerprint (sc : scope_info) (attrs : Map) (extras : gmap string string) : Fingerprint :=
  NewFingerprint PointFingerprintType (hash (scopeFingerprint sc)) attrs extras.

Definition mk_sample (i : series_info) (fp : Fingerprint) (unixMilli : Z) (value : float64) (flags : Z) : sample :=
  {| s_env := i_env i; s_temporality := i_temporality i; s_metricName := i_name i;
     s_fingerprint := HashWithName fp (i_name i); s_unixMilli := unixMilli; s_value := value; s_flags := flags |}.
Definition mk_ts (sc : scope_info) (i : series_info) (fp : Fingerprint) (unixMilli : Z) : ts :=
  {| t_env := i_env i; t_temporality := i_temporality i; t_metricName := i_name i;
     t_description := i_desc i; t_unit := i_unit i; t_typ := i_typ i; t_isMonotonic := i_isMonotonic i;
     t_fingerprint := HashWithName fp (i_name i); t_unixMilli := unixMilli;
     t_labels := NewLabelsAsJSONString (i_name i)
       [AttributesAsMap fp; AttributesAsMap (scopeFingerprint sc); AttributesAsMap (resourceFingerprint sc)];
     t_attrs := AttributesAsMap fp; t_scopeAttrs := AttributesAsMap (scopeFingerprint sc);
     t_resourceAttrs := AttributesAsMap (resourceFingerprint sc) |}.

(** The three rows every value gets. *)
Definition add_value (now : Z) (sc : scope_info) (b : batch) (i : series_info) (fp : Fingerprint)
    (unixMilli : Z) (value : float64) (flags : Z) : batch :=
  let b := addSample b (mk_sample i fp unixMilli value flags) in
  let b := addMetadata now b i fp unixMilli unixMilli in
  addTs b (mk_ts sc i fp unixMilli).

(** The first and last times of the points of a metric. *)
Definition seen : Type := Z * Z.
Definition seen_none : seen := (MaxInt64, 0).
Definition see (s : seen) (unixMilli : Z) : seen := (Z.min s.1 unixMilli, Z.max s.2 unixMilli).

(** The rows of the resource and of the scope, after the points. *)
Definition add_scope_metadata (now : Z) (sc : scope_info) (s : seen) (b : batch) (i : series_info) : batch :=
  let b := addMetadata now b i (resourceFingerprint sc) s.1 s.2 in
  addMetadata now b i (scopeFingerprint sc) s.1 s.2.

Definition temporality_extra (t : AggregationTemporality) : gmap string string :=
  {[ "__temporality__" := Temporality_String t ]}.

(** *** Gauges and sums *)

Definition number_value (v : NumberValue) : float64 :=
  match v with
  | NumberInt z => float64_of_int z
  | NumberDouble x => x
  | NumberEmpty => S754_zero false
  end.

(** The loop of [processGauge] and [processSum]. *)
Fixpoint number_points (now : Z) (sc : scope_info) (i : series_info) (s : seen) (b : batch)
    (points : list NumberDataPoint) : seen * batch :=
  match points with
  | [] => (s, b)
  | dp :: rest =>
      let unixMilli := UnixMilli (n_Timestamp dp) in
      let s := see s unixMilli in
      let value := number_value (n_Value dp) in
      if IsNaN value then number_points now sc i s b rest
      else
        let fp := point_fingerprint sc (n_Attributes dp) (temporality_extra (i_temporality i)) in
        number_points now sc i s (add_value now sc b i fp unixMilli value (n_Flags dp)) rest
  end.

Definition processGauge (now : Z) (sc : scope_info) (env : string) (b : batch) (m : Metric)
    (points : list NumberDataPoint) : batch :=
  let i := {| i_env := env; i_temporality := TemporalityUnspecified; i_name := m_Name m; i_desc := m_Description m;
              i_unit := m_Unit m; i_typ := Type_ m; i_isMonotonic := false |} in
  let '(s, b) := number_points now sc i seen_none b points in
  add_scope_metadata now sc s b i.

Definition processSum (now : Z) (sc : scope_info) (env : string) (b : batch) (m : Metric)
    (temporality : AggregationTemporality) (isMonotonic : bool) (points : list NumberDataPoint) : batch :=
  let i := {| i_env := env; i_temporality := temporality; i_name := m_Name m; i_desc := m_Description m;
              i_unit := m_Unit m; i_typ := Type_ m; i_isMonotonic := isMonotonic |} in
  let '(s, b) := number_points now sc i seen_none b points in
  add_scope_metadata now sc s b i.

(** *** Histograms *)

Inductive Suffix := countSuffix | sumSuffix | minSuffix | maxSuffix | bucketSuffix | quantilesSuffix.
Definition suffix (s : Suffix) : string :=
  match s with
  | countSuffix => ".count" | sumSuffix => ".sum" | minSuffix => ".min" | maxSuffix => ".max"
  | bucketSuffix => ".bucket" | quantilesSuffix => ".quantile"
  end.

Definition with_suffix (i : series_info) (s : Suffix) (typ : MetricType) (temporality : AggregationTemporality)
  : series_info :=
  {| i_env := i_env i; i_temporality := temporality; i_name := i_name i +:+ suffix s; i_desc := i_desc i;
     i_unit := i_unit i; i_typ := typ; i_isMonotonic := i_isMonotonic i |}.

(** The switch on the suffix: the minimum and the maximum are gauges. *)
Definition suffix_info (i : series_info) (s : Suffix) : series_info :=
  match s with
  | countSuffix | sumSuffix => with_suffix i s MetricTypeSum (i_temporality i)
  | minSuffix | maxSuffix => with_suffix i s MetricTypeGauge TemporalityUnspecified
  | bucketSuffix | quantilesSuffix => with_suffix i s (i_typ i) (i_temporality i)
  end.

(** An unset optional field reads as zero. *)
Definition unset_zero (x : option float64) : float64 := default (S754_zero false) x.

Definition hist_value (dp : HistogramDataPoint) (s : Suffix) : float64 :=
  match s with
  | countSuffix => float64_of_int (h_Count dp)
  | sumSuffix => unset_zero (h_Sum dp)
  | minSuffix => unset_zero (h_Min dp)
  | maxSuffix => unset_zero (h_Max dp)
  | _ => S754_zero false
  end.
Definition hist_addSample (now : Z) (sc : scope_info) (i : series_info) (b : batch) (dp : HistogramDataPoint)
    (s : Suffix) : batch :=
  let i := suffix_info i s in
  add_value now sc b i (point_fingerprint sc (h_Attributes dp) (temporality_extra (i_temporality i)))
    (UnixMilli (h_Timestamp dp)) (hist_value dp s) (h_Flags dp).

Definition le_extra (bound : string) (t : AggregationTemporality) : gmap string string :=
  <["le" := bound]> (temporality_extra t).

(** The loop over the bounds and the counts, whichever ends first; the counts add up. *)
Fixpoint bucket_loop (now : Z) (sc : scope_info) (i : series_info) (dp : HistogramDataPoint)
    (cumulativeCount : Z) (b : batch) (bounds : list float64) (counts : list Z) : batch :=
  match bounds, counts with
  | bound :: bounds, n :: counts =>
      let cumulativeCount := u64 (cumulativeCount + n) in
      let fp := point_fingerprint sc (h_Attributes dp) (le_extra (FormatFloat bound) (i_temporality i)) in
      let b := add_value now sc b i fp (UnixMilli (h_Timestamp dp)) (float64_of_int cumulativeCount) (h_Flags dp) in
      bucket_loop now sc i dp cumulativeCount b bounds counts
  | _, _ => b
  end.
Definition addBucketSample (now : Z) (sc : scope_info) (i : series_info) (b : batch) (dp : HistogramDataPoint)
  : batch :=
  let i := suffix_info i bucketSuffix in
  let b := bucket_loop now sc i dp 0 b (h_ExplicitBounds dp) (h_BucketCounts dp) in
  let fp := point_fingerprint sc (h_Attributes dp) (le_extra "+Inf" (i_temporality i)) in
  add_value now sc b i fp (UnixMilli (h_Timestamp dp)) (float64_of_int (h_Count dp)) (h_Flags dp).

Definition hist_nan (dp : HistogramDataPoint) : bool :=
  IsNaN (unset_zero (h_Sum dp)) || IsNaN (unset_zero (h_Min dp)) || IsNaN (unset_zero (h_Max dp)).
Definition hist_point (now : Z) (sc : scope_info) (i : series_info) (b : batch) (dp : HistogramDataPoint) : batch :=
  let b := hist_addSample now sc i b dp countSuffix in
  let b := if h_Sum dp then hist_addSample now sc i b dp sumSuffix else b in
  let b := if h_Min dp then hist_addSample now sc i b dp minSuffix else b in
  let b := if h_Max dp then hist_addSample now sc i b dp maxSuffix else b in
  addBucketSample now sc i b dp.

(** The loop over the points of a kind that has [time], may be skipped by [nan] and is
    written by [add]. *)
Fixpoint point_loop {P : Type} (time : P → Z) (nan : P → bool) (add : batch → P → batch)
    (s : seen) (b : batch) (points : list P) : seen * batch :=
  match points with
  | [] => (s, b)
  | dp :: rest =>
      let s := see s (UnixMilli (time dp)) in
      point_loop time nan add s (if nan dp then b else add b dp) rest
  end.

Definition processHistogram (now : Z) (sc : scope_info) (env : string) (b : batch) (m : Metric)
    (temporality : AggregationTemporality) (points : list HistogramDataPoint) : batch :=
  let i := {| i_env := env; i_temporality := temporality; i_name := m_Name m; i_desc := m_Description m;
              i_unit := m_Unit m; i_typ := Type_ m; i_isMonotonic := true |} in
  let '(s, b) := point_loop h_Timestamp hist_nan (hist_point now sc i) seen_none b points in
  foldl (λ b sfx, add_scope_metadata now sc s b (suffix_info i sfx)) b
    [countSuffix; sumSuffix; minSuffix; maxSuffix; bucketSuffix].

(** *** Summaries *)

Definition sum_value (dp : SummaryDataPoint) (s : Suffix) : float64 :=
  match s with
  | countSuffix => float64_of_int (s_Count dp)
  | sumSuffix => s_Sum dp
  | _ => S754_zero false
  end.
Definition sum_addSample (now : Z) (sc : scope_info) (i : series_info) (b : batch) (dp : SummaryDataPoint)
    (s : Suffix) : batch :=
  let i := suffix_info i s in
  add_value now sc b i (point_fingerprint sc (s_Attributes dp) (temporality_extra (i_temporality i)))
    (UnixMilli (s_Timestamp dp)) (sum_value dp s) (s_Flags dp).
Definition addQuantileSample (now : Z) (sc : scope_info) (i : series_info) (b : batch) (dp : SummaryDataPoint)
  : batch :=
  let i := suffix_info i quantilesSuffix in
  foldl (λ b q,
    let fp := point_fingerprint sc (s_Attributes dp)
                (<["quantile" := FormatFloat q.1]> (temporality_extra (i_temporality i))) in
    add_value now sc b i fp (UnixMilli (s_Timestamp dp)) q.2 (s_Flags dp)) b (s_QuantileValues dp).

Definition sum_nan (dp : SummaryDataPoint) : bool :=
  IsNaN (s_Sum dp) || existsb (λ q, IsNaN q.2) (s_QuantileValues dp).
Definition sum_point (now : Z) (sc : scope_info) (i : series_info) (b : batch) (dp : SummaryDataPoint) : batch :=
  let b := sum_addSample now sc i b dp countSuffix in
  let b := sum_addSample now sc i b dp sumSuffix in
  addQuantileSample now sc i b dp.

Definition processSummary (now : Z) (sc : scope_info) (env : string) (b : batch) (m : Metric)
    (points : list SummaryDataPoint) : batch :=
  let i := {| i_env := env; i_temporality := TemporalityCumulative; i_name := m_Name m; i_desc := m_Description m;
              i_unit := m_Unit m; i_typ := Type_ m; i_isMonotonic := true |} in
  let '(s, b) := point_loop s_Timestamp sum_nan (sum_point now sc i) seen_none b points in
  foldl (λ b sfx, add_scope_metadata now sc s b (suffix_info i sfx)) b
    [countSuffix; sumSuffix; quantilesSuffix].

(** *** Exponential histograms *)

Definition exp_value (dp : ExponentialHistogramDataPoint) (s : Suffix) : float64 :=
  match s with
  | countSuffix => float64_of_int (e_Count dp)
  | sumSuffix => unset_zero (e_Sum dp)
  | minSuffix => unset_zero (e_Min dp)
  | maxSuffix => unset_zero (e_Max dp)
  | _ => S754_zero false
  end.
(** The fingerprint has the temporality of the metric also where the sample has none. *)
Definition exp_addSample (now : Z) (sc : scope_info) (i : series_info) (b : batch)
    (dp : ExponentialHistogramDataPoint) (s : Suffix) : batch :=
  let fp := point_fingerprint sc (e_Attributes dp) (temporality_extra (i_temporality i)) in
  add_value now sc b (suffix_info i s) fp (UnixMilli (e_Timestamp dp)) (exp_value dp s) (e_Flags dp).

Definition toStore (buckets : Z * list Z) : Z * list float64 :=
  (i32 buckets.1, float64_of_int <$> buckets.2).
Definition addDDSketchSample (now : Z) (sc : scope_info) (i : series_info) (b : batch)
    (dp : ExponentialHistogramDataPoint) : batch :=
  let unixMilli := UnixMilli (e_Timestamp dp) in
  let dd := {| gamma := gamma_of_scale (e_Scale dp); positive := toStore (e_Positive dp);
               negative := toStore (e_Negative dp); zeroCount := float64_of_int (e_ZeroCount dp) |} in
  let fp := point_fingerprint sc (e_Attributes dp) (temporality_extra (i_temporality i)) in
  let b := addExpHist b {|
    x_env := i_env i; x_temporality := i_temporality i; x_metricName := i_name i;
    x_fingerprint := HashWithName fp (i_name i); x_unixMilli := unixMilli; x_sketch := dd;
    x_count := float64_of_int (e_Count dp); x_sum := unset_zero (e_Sum dp); x_min := unset_zero (e_Min dp);
    x_max := unset_zero (e_Max dp); x_flags := e_Flags dp |} in
  let b := addMetadata now b i fp unixMilli unixMilli in
  addTs b (mk_ts sc i fp unixMilli).

Definition exp_nan (dp : ExponentialHistogramDataPoint) : bool :=
  IsNaN (unset_zero (e_Sum dp)) || IsNaN (unset_zero (e_Min dp)) || IsNaN (unset_zero (e_Max dp)).
Definition exp_point (now : Z) (sc : scope_info) (i : series_info) (b : batch)
    (dp : ExponentialHistogramDataPoint) : batch :=
  let b := exp_addSample now sc i b dp countSuffix in
  let b := if e_Sum dp then exp_addSample now sc i b dp sumSuffix else b in
  let b := if e_Min dp then exp_addSample now sc i b dp minSuffix else b in
  let b := if e_Max dp then exp_addSample now sc i b dp maxSuffix else b in
  addDDSketchSample now sc i b dp.

Definition processExponentialHistogram (enableExpHist : bool) (now : Z) (sc : scope_info) (env : string)
    (b : batch) (m : Metric) (temporality : AggregationTemporality)
    (points : list ExponentialHistogramDataPoint) : batch :=
  if negb enableExpHist then b
  else if decide (temporality = TemporalityDelta) then
    let i := {| i_env := env; i_temporality := temporality; i_name := m_Name m; i_desc := m_Description m;
                i_unit := m_Unit m; i_typ := Type_ m; i_isMonotonic := true |} in
    let '(s, b) := point_loop e_Timestamp exp_nan (exp_point now sc i) seen_none b points in
    foldl (λ b sfx, add_scope_metadata now sc s b (suffix_info i sfx)) b
      [countSuffix; sumSuffix; minSuffix; maxSuffix]
  else b.

(** ** [prepareBatch] *)

Definition process_metric (enableExpHist : bool) (now : Z) (sc : scope_info) (env : string) (b : batch) (m : Metric)
  : batch :=
  match m_Data m with
  | Gauge points => processGauge now sc env b m points
  | Sum temporality isMonotonic points => processSum now sc env b m temporality isMonotonic points
  | Histogram temporality points => processHistogram now sc env b m temporality points
  | Summary points => processSummary now sc env b m points
  | ExponentialHistogram temporality points =>
      processExponentialHistogram enableExpHist now sc env b m temporality points
  | Empty => b
  end.

Definition resource_fingerprint (rm : ResourceMetrics) : Fingerprint :=
  NewFingerprint ResourceFingerprintType InitialOffset (rm_Attributes rm) ∅.
Definition scope_fingerprint (res : Fingerprint) (sm : ScopeMetrics) : Fingerprint :=
  NewFingerprint ScopeFingerprintType (hash res) (sm_Attributes sm)
    (<["__scope.name__" := sm_Name sm]> (<["__scope.version__" := sm_Version sm]>
      {[ "__scope.schema_url__" := sm_SchemaUrl sm ]})).
Definition deployment_env (rm : ResourceMetrics) : string :=
  match rm_Attributes rm !! "deployment.environment" with Some de => AsString de | None => "" end.

Definition process_scope (enableExpHist : bool) (now : Z) (rm : ResourceMetrics) (b : batch) (sm : ScopeMetrics)
  : batch :=
  let res := resource_fingerprint rm in
  let sc := {| resourceFingerprint := res; scopeFingerprint := scope_fingerprint res sm |} in
  foldl (process_metric enableExpHist now sc (deployment_env rm)) b (sm_Metrics sm).
Definition prepareBatch (enableExpHist : bool) (now : Z) (md : Metrics) : batch :=
  foldl (λ b rm, foldl (process_scope enableExpHist now rm) b (rm_ScopeMetrics rm)) newBatch md.
End exporter.

(** ** Writing a batch *)

(** The time to live of the cache of series, in milliseconds. *)
Definition cache_ttl : Z := 45 * 60 * 1000.

Definition makeCacheKey (a b : Z) : string := FormatInt a +:+ ":" +:+ FormatInt b.

Section write.
Context `{PD : Pdata} `{TC : TTLCache}.

(** [ts.unixMilli / 3600000 * 3600000]: Go truncates towards zero. *)
Definition roundedUnixMilli (t : ts) : Z := Z.quot (t_unixMilli t) 3600000 * 3600000.
Definition ts_cache_key (t : ts) : string := makeCacheKey (t_fingerprint t) (u64 (roundedUnixMilli t)).

(** The row that is appended has the rounded time. *)
Definition ts_row (t : ts) : ts :=
  {| t_env := t_env t; t_temporality := t_temporality t; t_metricName := t_metricName t;
     t_description := t_description t; t_unit := t_unit t; t_typ := t_typ t; t_isMonotonic := t_isMonotonic t;
     t_fingerprint := t_fingerprint t; t_unixMilli := roundedUnixMilli t; t_labels := t_labels t;
     t_attrs := t_attrs t; t_scopeAttrs := t_scopeAttrs t; t_resourceAttrs := t_resourceAttrs t |}.

(** The loop of [writeTimeSeries]: the rows appended, the error, and the cache. *)
Fixpoint append_ts (now : Z) (st : statement) (c : ttl_cache) (rows : list ts) (timeSeries : list ts)
  : option string * list ts * ttl_cache :=
  match timeSeries with
  | [] => (None, rows, c)
  | t :: rest =>
      match ttl_Get c now (ts_cache_key t) with
      | Some true => append_ts now st c rows rest
      | _ =>
          match append_err st (length rows) with
          | Some e => (Some e, rows, c)
          | None => append_ts now st (ttl_Set c now (ts_cache_key t) true) (rows ++ [ts_row t]) rest
          end
      end
  end.

(** The error, the rows that reached the table, and the cache. *)
Definition writeTimeSeries (now : Z) (st : statement) (c : ttl_cache) (timeSeries : list ts)
  : option string * list ts * ttl_cache :=
  match timeSeries with
  | [] => (None, [], c)
  | _ =>
      match prepare_err st with
      | Some e => (Some e, [], c)
      | None =>
          match append_ts now st c [] timeSeries with
          | (Some e, _, c) => (Some e, [], c)
          | (None, rows, c) =>
              match send_err st with
              | Some e => (Some e, [], c)
              | None => (None, rows, c)
              end
          end
      end
  end.

Definition writeSamples (st : statement) (samples : list sample) := write_rows st samples.
Definition writeExpHist (st : statement) (expHist : list exponentialHistogramSample) := write_rows st expHist.
Definition writeMetadata (st : statement) (metadata : list metadata) := write_rows st metadata.

(** The samples that count as usage. *)
Definition collectUsage (s : sample) : bool :=
  negb (has_prefix (s_metricName s) "signoz" || has_prefix (s_metricName s) "chi" || has_prefix (s_metricName s) "otelcol").

(** The statements of the four goroutines; they share no state but the connection. *)
Record statements := { st_ts : statement; st_samples : statement; st_expHist : statement; st_metadata : statement }.
Record tables := {
  w_ts : list ts; w_samples : list sample; w_expHist : list exponentialHistogramSample; w_metadata : list metadata }.

(** The errors joined, in some order; an error of the metadata is only logged. *)
Definition writeBatch (now : Z) (sts : statements) (c : ttl_cache) (b : batch)
  : list string * tables * ttl_cache :=
  let '(e1, ts, c) := writeTimeSeries now (st_ts sts) c (b_ts b) in
  let '(e2, samples) := writeSamples (st_samples sts) (b_samples b) in
  let '(e3, expHist) := writeExpHist (st_expHist sts) (b_expHist b) in
  let '(_, metadata) := writeMetadata (st_metadata sts) (b_metadata b) in
  (option_list e1 ++ option_list e2 ++ option_list e3,
   {| w_ts := ts; w_samples := samples; w_expHist := expHist; w_metadata := metadata |}, c).
End write.

(** ** The exporter *)

Section lifecycle.
Context `{PD : Pdata} `{PT : !PdataText PD} `{TY : !PdataTypes PD} `{MT : PmetricText} `{FT : FloatText} `{TC : TTLCache}.

Record clickhouseMetricsExporter := {
  cache : ttl_cache; cacheRunning : bool; enableExpHist : bool; closed : bool; usageCollector : bool }.

(** [closed] tells that [closeChan] is. *)
Definition NewClickHouseExporter (enable withUsage : bool) : clickhouseMetricsExporter :=
  {| cache := ttl_New; cacheRunning := false; enableExpHist := enable; closed := false; usageCollector := withUsage |}.
Definition Start (c : clickhouseMetricsExporter) : clickhouseMetricsExporter :=
  {| cache := cache c; cacheRunning := true; enableExpHist := enableExpHist c; closed := closed c;
     usageCollector := usageCollector c |}.
(** Closing [closeChan] a second time panics. *)
Definition Shutdown (c : clickhouseMetricsExporter) : outcome clickhouseMetricsExporter :=
  if closed c then Panics
  else Done {| cache := cache c; cacheRunning := cacheRunning c; enableExpHist := enableExpHist c; closed := true;
               usageCollector := usageCollector c |}.

(** The errors, what was written, and the exporter. *)
Definition PushMetrics (c : clickhouseMetricsExporter) (now : Z) (sts : statements) (md : Metrics)
  : list string * tables * clickhouseMetricsExporter :=
  if closed c then (["shutdown has been called"], {| w_ts := []; w_samples := []; w_expHist := []; w_metadata := [] |}, c)
  else
    let '(errs, written, cache') := writeBatch now sts (cache c) (prepareBatch (enableExpHist c) now md) in
    (errs, written, {| cache := cache'; cacheRunning := cacheRunning c; enableExpHist := enableExpHist c;
                       closed := closed c; usageCollector := usageCollector c |}).
End lifecycle.
