(* ===== verification/MetricsExporterProps.v ===== *)
(** * The metrics exporter's correctness

    What the rows of a batch are, point by point; that samples and time series match; that a
    series is written once an hour; and what a failed statement leaves behind. *)
From S2P Require Import Prelude GoText Pdata Sampling ClickHouse Pmetric Fingerprint MetricsExporter.
From Stdlib Require Import SpecFloat.

(** ** Integers as floats are numbers *)

Lemma shr_1_nonneg mrs : 0 ≤ shr_m mrs → 0 ≤ shr_m (shr_1 mrs).
Proof. destruct mrs as [[|[p|p|]|p] r s]; simpl; lia. Qed.

Lemma iter_pos_nonneg p mrs : 0 ≤ shr_m mrs → 0 ≤ shr_m (iter_pos shr_1 p mrs).
Proof.
  revert mrs. induction p as [p IH|p IH|]; intros mrs H; simpl;
    [by apply IH, IH, shr_1_nonneg|by apply IH, IH|by apply shr_1_nonneg].
Qed.

Lemma shr_nonneg mrs e n : 0 ≤ shr_m mrs → 0 ≤ shr_m (fst (shr mrs e n)).
Proof. destruct n; simpl; [done|by apply iter_pos_nonneg|done]. Qed.

Lemma shr_record_nonneg m l : 0 ≤ m → 0 ≤ shr_m (shr_record_of_loc m l).
Proof. destruct l as [|[]]; done. Qed.

Lemma round_nonneg m l : 0 ≤ m → 0 ≤ round_nearest_even m l.
Proof. destruct l as [|[]]; simpl; [done|destruct (Z.even m); lia|lia|lia]. Qed.

Lemma binary_round_aux_number prec emax sx mx ex lx :
  0 ≤ mx → IsNaN (binary_round_aux prec emax sx mx ex lx) = false.
Proof.
  intros Hm. unfold binary_round_aux, shr_fexp.
  destruct (shr (shr_record_of_loc mx lx) _ _) as [mrs1 e1] eqn:E1.
  assert (0 ≤ shr_m mrs1) as H1.
  { replace mrs1 with (fst (mrs1, e1)) by done. rewrite <- E1. by apply shr_nonneg, shr_record_nonneg. }
  destruct (shr (shr_record_of_loc _ loc_Exact) _ _) as [mrs2 e2] eqn:E2.
  assert (0 ≤ shr_m mrs2) as H2.
  { replace mrs2 with (fst (mrs2, e2)) by done. rewrite <- E2. by apply shr_nonneg, shr_record_nonneg, round_nonneg. }
  destruct (shr_m mrs2); [done| |lia]. by destruct (_ <=? _).
Qed.

Lemma float64_of_int_number z : IsNaN (float64_of_int z) = false.
Proof.
  unfold float64_of_int, binary_normalize. destruct z as [|p|p]; [done| |];
    unfold binary_round; destruct (shl_align _ _ _); by apply binary_round_aux_number.
Qed.

Section batches.
Context `{PD : Pdata} `{PT : !PdataText PD} `{TY : !PdataTypes PD} `{MT : PmetricText} `{FT : FloatText}.

(** Metadata only adds rows of its own. *)
Lemma addMetadata_rows now b i fp f l :
  let b' := addMetadata now b i fp f l in
  b_samples b' = b_samples b ∧ b_expHist b' = b_expHist b ∧ b_ts b' = b_ts b.
Proof. unfold addMetadata. by destruct (if _ =? MaxInt64 then _ else _). Qed.

(** The rows of a value. *)
Lemma add_value_rows now sc b i fp ms v flags :
  let b' := add_value now sc b i fp ms v flags in
  b_samples b' = b_samples b ++ [mk_sample i fp ms v flags] ∧ b_expHist b' = b_expHist b
  ∧ b_ts b' = b_ts b ++ [mk_ts sc i fp ms].
Proof.
  destruct (addMetadata_rows now (addSample b (mk_sample i fp ms v flags)) i fp ms ms) as (H1 & H2 & H3).
  cbn in *. unfold add_value, addTs. cbn. by rewrite H1, H2, H3.
Qed.

Definition sketch_row (sc : scope_info) (i : series_info) (dp : ExponentialHistogramDataPoint) :=
  {| x_env := i_env i; x_temporality := i_temporality i; x_metricName := i_name i;
     x_fingerprint := HashWithName (point_fingerprint sc (e_Attributes dp) (temporality_extra (i_temporality i))) (i_name i);
     x_unixMilli := UnixMilli (e_Timestamp dp);
     x_sketch := {| gamma := gamma_of_scale (e_Scale dp); positive := toStore (e_Positive dp);
                    negative := toStore (e_Negative dp); zeroCount := float64_of_int (e_ZeroCount dp) |};
     x_count := float64_of_int (e_Count dp); x_sum := unset_zero (e_Sum dp); x_min := unset_zero (e_Min dp);
     x_max := unset_zero (e_Max dp); x_flags := e_Flags dp |}.
Lemma sketch_rows now sc b i dp :
  let fp := point_fingerprint sc (e_Attributes dp) (temporality_extra (i_temporality i)) in
  let b' := addDDSketchSample now sc i b dp in
  b_samples b' = b_samples b ∧ b_expHist b' = b_expHist b ++ [sketch_row sc i dp]
  ∧ b_ts b' = b_ts b ++ [mk_ts sc i fp (UnixMilli (e_Timestamp dp))].
Proof.
  cbv zeta. unfold addDDSketchSample, addMetadata. cbv zeta.
  by destruct (if UnixMilli (e_Timestamp dp) =? MaxInt64 then _ else _).
Qed.

(** ** A principle for properties of batches *)

Definition scope_of (rm : ResourceMetrics) (sm : ScopeMetrics) : scope_info :=
  {| resourceFingerprint := resource_fingerprint rm;
     scopeFingerprint := scope_fingerprint (resource_fingerprint rm) sm |}.

(** What every row of the point attributes, of a sketch and of the metadata preserves holds
    of the whole batch. *)
Section principle.
Context (P : batch → Prop).
Hypothesis P_metadata : ∀ now b i fp f l, P b → P (addMetadata now b i fp f l).
Hypothesis P_value_scope : ∀ now rm sm b i attrs extras ms v flags, IsNaN v = false → P b →
  P (add_value now (scope_of rm sm) b i (point_fingerprint (scope_of rm sm) attrs extras) ms v flags).
Hypothesis P_sketch_scope : ∀ now rm sm i b dp, P b → P (addDDSketchSample now (scope_of rm sm) i b dp).

Section scope.
Context (rm : ResourceMetrics) (sm : ScopeMetrics).
Abbreviation sc := (scope_of rm sm).

Lemma P_value now b i attrs extras ms v flags :
  IsNaN v = false → P b → P (add_value now sc b i (point_fingerprint sc attrs extras) ms v flags).
Proof. apply P_value_scope. Qed.
Lemma P_sketch now i b dp : P b → P (addDDSketchSample now sc i b dp).
Proof. apply P_sketch_scope. Qed.

Lemma P_foldl {A} (f : batch → A → batch) l b : (∀ b x, P b → P (f b x)) → P b → P (foldl f b l).
Proof. intros Hf. revert b. induction l as [|x l IH]; intros b Hb; [done|]. by apply IH, Hf. Qed.

Lemma P_scope_metadata now s b i : P b → P (add_scope_metadata now sc s b i).
Proof. intros H. by apply P_metadata, P_metadata. Qed.

Lemma P_number_points now i s b points : P b → P (snd (number_points now sc i s b points)).
Proof.
  revert s b. induction points as [|dp points IH]; intros s b Hb; [done|]. simpl.
  destruct (IsNaN _) eqn:E; apply IH; [done|by apply P_value].
Qed.

Lemma P_point_loop {Q} time nan add s b (points : list Q) :
  (∀ b dp, nan dp = false → P b → P (add b dp)) → P b → P (snd (point_loop time nan add s b points)).
Proof.
  intros Ha. revert s b. induction points as [|dp points IH]; intros s b Hb; [done|]. simpl.
  apply IH. destruct (nan dp) eqn:E; [done|by apply Ha].
Qed.

Lemma P_bucket_loop now i dp cum b bounds counts : P b → P (bucket_loop now sc i dp cum b bounds counts).
Proof.
  revert cum b counts. induction bounds as [|x bounds IH]; intros cum b [|n counts] Hb; [done..|].
  simpl. apply IH, P_value; [apply float64_of_int_number|done].
Qed.

Lemma P_hist_point now i b dp : hist_nan dp = false → P b → P (hist_point now sc i b dp).
Proof.
  unfold hist_nan. rewrite !orb_false_iff. intros [[Hs Hm] HM] Hb. unfold hist_point, addBucketSample.
  apply P_value; [apply float64_of_int_number|]. apply P_bucket_loop.
  assert (P (hist_addSample now sc i b dp countSuffix)) as H1 by (apply P_value; [apply float64_of_int_number|done]).
  revert H1. generalize (hist_addSample now sc i b dp countSuffix). intros b1 H1.
  assert (∀ b (o : option float64) sfx, hist_value dp sfx = unset_zero o → IsNaN (unset_zero o) = false →
    P b → P (if o then hist_addSample now sc i b dp sfx else b)) as Ho.
  { intros b' [x|] sfx E N H; [|done]. apply P_value; [by rewrite E|done]. }
  by apply Ho, Ho, Ho.
Qed.

Lemma P_sum_point now i b dp : sum_nan dp = false → P b → P (sum_point now sc i b dp).
Proof.
  unfold sum_nan. rewrite orb_false_iff. intros [Hs Hq] Hb. unfold sum_point, addQuantileSample.
  assert (P (sum_addSample now sc i (sum_addSample now sc i b dp countSuffix) dp sumSuffix)) as H1.
  { apply P_value; [done|]. apply P_value; [apply float64_of_int_number|done]. }
  revert H1. generalize (sum_addSample now sc i (sum_addSample now sc i b dp countSuffix) dp sumSuffix).
  revert Hq. induction (s_QuantileValues dp) as [|q qs IH]; intros Hq b' H'; [done|].
  simpl in *. apply orb_false_iff in Hq as [Hq1 Hq2]. by apply IH, P_value.
Qed.

Lemma P_exp_point now i b dp : exp_nan dp = false → P b → P (exp_point now sc i b dp).
Proof.
  unfold exp_nan. rewrite !orb_false_iff. intros [[Hs Hm] HM] Hb. unfold exp_point. apply P_sketch.
  assert (P (exp_addSample now sc i b dp countSuffix)) as H1 by (apply P_value; [apply float64_of_int_number|done]).
  revert H1. generalize (exp_addSample now sc i b dp countSuffix). intros b1 H1.
  assert (∀ b (o : option float64) sfx, exp_value dp sfx = unset_zero o → IsNaN (unset_zero o) = false →
    P b → P (if o then exp_addSample now sc i b dp sfx else b)) as Ho.
  { intros b' [x|] sfx E N H; [|done]. apply P_value; [by rewrite E|done]. }
  by apply Ho, Ho, Ho.
Qed.

Lemma P_process_metric enable now env b m : P b → P (process_metric enable now sc env b m).
Proof.
  intros Hb. unfold process_metric. destruct (m_Data m) as [|points|t mono points|t points|t points|points]; [done|..].
  - unfold processGauge. destruct (number_points _ _ _ _ _ _) as [s b'] eqn:E. apply P_scope_metadata.
    replace b' with (snd (s, b')) by done. rewrite <- E. by apply P_number_points.
  - unfold processSum. destruct (number_points _ _ _ _ _ _) as [s b'] eqn:E. apply P_scope_metadata.
    replace b' with (snd (s, b')) by done. rewrite <- E. by apply P_number_points.
  - unfold processHistogram. destruct (point_loop _ _ _ _ _ _) as [s b'] eqn:E.
    apply P_foldl; [intros; by apply P_scope_metadata|].
    replace b' with (snd (s, b')) by done. rewrite <- E. apply P_point_loop; [intros; by apply P_hist_point|done].
  - unfold processExponentialHistogram. destruct (negb enable); [done|]. destruct (decide _); [|done].
    destruct (point_loop _ _ _ _ _ _) as [s b'] eqn:E. apply P_foldl; [intros; by apply P_scope_metadata|].
    replace b' with (snd (s, b')) by done. rewrite <- E. apply P_point_loop; [intros; by apply P_exp_point|done].
  - unfold processSummary. destruct (point_loop _ _ _ _ _ _) as [s b'] eqn:E.
    apply P_foldl; [intros; by apply P_scope_metadata|].
    replace b' with (snd (s, b')) by done. rewrite <- E. apply P_point_loop; [intros; by apply P_sum_point|done].
Qed.

End scope.

Lemma prepareBatch_ind enable now md : P newBatch → P (prepareBatch enable now md).
Proof.
  intros H. apply P_foldl; [|done]. intros b rm Hb. apply P_foldl; [|done]. intros b' sm Hb'.
  apply P_foldl; [|done]. intros b'' m Hb''. by apply (P_process_metric rm sm).
Qed.
End principle.

(** ** Samples and time series match *)

Definition sample_key (s : sample) := (s_env s, s_temporality s, s_metricName s, s_fingerprint s, s_unixMilli s).
Definition expHist_key (x : exponentialHistogramSample) :=
  (x_env x, x_temporality x, x_metricName x, x_fingerprint x, x_unixMilli x).
Definition ts_key (t : ts) := (t_env t, t_temporality t, t_metricName t, t_fingerprint t, t_unixMilli t).

(** C14. A batch has exactly one time series row for every sample and every sketch, with the same
    environment, temporality, name, fingerprint and time: no value is written that the
    series table cannot resolve, and no series without a value. *)
Theorem batch_rows_match enable now md :
  let b := prepareBatch enable now md in
  ts_key <$> b_ts b ≡ₚ (sample_key <$> b_samples b) ++ (expHist_key <$> b_expHist b).
Proof.
  intros b. unfold b. clear b.
  apply (prepareBatch_ind (λ b, ts_key <$> b_ts b ≡ₚ (sample_key <$> b_samples b) ++ (expHist_key <$> b_expHist b))).
  - intros now' b i fp f l H. by destruct (addMetadata_rows now' b i fp f l) as (-> & -> & ->).
  - intros now' rm sm b i attrs extras ms v flags _ H.
    destruct (add_value_rows now' (scope_of rm sm) b i (point_fingerprint (scope_of rm sm) attrs extras) ms v flags) as (-> & -> & ->).
    rewrite !fmap_app, H. solve_Permutation.
  - intros now' rm sm i b dp H. destruct (sketch_rows now' (scope_of rm sm) b i dp) as (-> & -> & ->).
    rewrite !fmap_app, H. by rewrite <- app_assoc.
  - done.
Qed.

(** No value of a sample is NaN: the points that have one are left out. *)
Theorem samples_are_numbers enable now md s :
  s ∈ b_samples (prepareBatch enable now md) → IsNaN (s_value s) = false.
Proof.
  revert s. apply (prepareBatch_ind (λ b, ∀ s, s ∈ b_samples b → IsNaN (s_value s) = false)).
  - intros now' b i fp f l H. by destruct (addMetadata_rows now' b i fp f l) as (-> & _).
  - intros now' rm sm b i attrs extras ms v flags Hv H s.
    destruct (add_value_rows now' (scope_of rm sm) b i (point_fingerprint (scope_of rm sm) attrs extras) ms v flags) as (-> & _).
    intros [Hs| ->%list_elem_of_singleton]%elem_of_app; [by apply H|done].
  - intros now' rm sm i b dp H. by destruct (sketch_rows now' (scope_of rm sm) b i dp) as (-> & _).
  - intros s []%not_elem_of_nil.
Qed.

(** ** The fingerprint of a row *)

Lemma sorted_keys_fmap {A B} (f : A → B) (m : gmap string A) : sorted_keys (f <$> m) = sorted_keys m.
Proof.
  unfold sorted_keys. rewrite map_to_list_fmap. f_equal. rewrite <- list_fmap_compose.
  by apply list_fmap_ext.
Qed.

Lemma hash_attributes_fmap {A} (val : A → string) offset (m : gmap string A) :
  hash_attributes val offset m = hash_attributes id offset (val <$> m).
Proof.
  unfold hash_attributes. rewrite sorted_keys_fmap. revert offset.
  induction (sorted_keys m) as [|k l IH]; intros h; [done|]. simpl. rewrite IH, lookup_fmap. by destruct (m !! k).
Qed.

(** The hash of a series, from the columns of its row. *)
Definition series_hash (resource scope point : gmap string string) (name : string) : Z :=
  hashAdd (hashAddByte (hashAdd
    (hash_attributes id (hash_attributes id (hash_attributes id InitialOffset resource) scope) point)
    "__name__") separatorByte) name.

(** A time series row is self-contained: its fingerprint is the hash of the name and the
    three attribute sets of the same row, and its labels are those three sets, so two rows
    that agree on them have the same fingerprint whatever collector wrote them. *)
Theorem ts_self_contained enable now md t :
  t ∈ b_ts (prepareBatch enable now md) →
  t_fingerprint t = series_hash (t_resourceAttrs t) (t_scopeAttrs t) (t_attrs t) (t_metricName t)
  ∧ t_labels t = NewLabelsAsJSONString (t_metricName t) [t_attrs t; t_scopeAttrs t; t_resourceAttrs t].
Proof.
  assert (∀ rm sm i attrs extras ms t,
    t = mk_ts (scope_of rm sm) i (point_fingerprint (scope_of rm sm) attrs extras) ms →
    t_fingerprint t = series_hash (t_resourceAttrs t) (t_scopeAttrs t) (t_attrs t) (t_metricName t)
    ∧ t_labels t = NewLabelsAsJSONString (t_metricName t) [t_attrs t; t_scopeAttrs t; t_resourceAttrs t]) as Hrow.
  { intros rm sm i attrs extras ms ? ->. split; [|done]. unfold series_hash, mk_ts, HashWithName, AttributesAsMap.
    cbn [t_fingerprint t_resourceAttrs t_scopeAttrs t_attrs t_metricName]. rewrite <- !hash_attributes_fmap.
    reflexivity. }
  revert t. apply (prepareBatch_ind (λ b, ∀ t, t ∈ b_ts b →
    t_fingerprint t = series_hash (t_resourceAttrs t) (t_scopeAttrs t) (t_attrs t) (t_metricName t)
    ∧ t_labels t = NewLabelsAsJSONString (t_metricName t) [t_attrs t; t_scopeAttrs t; t_resourceAttrs t])).
  - intros now' b i fp f l H. by destruct (addMetadata_rows now' b i fp f l) as (_ & _ & ->).
  - intros now' rm sm b i attrs extras ms v flags _ H t.
    destruct (add_value_rows now' (scope_of rm sm) b i (point_fingerprint (scope_of rm sm) attrs extras) ms v flags)
      as (_ & _ & ->).
    intros [Ht|Ht%list_elem_of_singleton]%elem_of_app; [by apply H|by eapply Hrow].
  - intros now' rm sm i b dp H t. destruct (sketch_rows now' (scope_of rm sm) b i dp) as (_ & _ & ->).
    intros [Ht|Ht%list_elem_of_singleton]%elem_of_app; [by apply H|by eapply Hrow].
  - intros t []%not_elem_of_nil.
Qed.

(** ** The samples of a batch *)

(** The specification: the samples of every point, in order, without the batch. *)
Section spec.
Context (sc : scope_info).

Definition spec_sample (i : series_info) (attrs : gmap string Value) (extras : gmap string string) (ts : Z) (v : float64) (flags : Z) :=
  mk_sample i (point_fingerprint sc attrs extras) (UnixMilli ts) v flags.

Definition number_samples (i : series_info) (dp : NumberDataPoint) : list sample :=
  if IsNaN (number_value (n_Value dp)) then []
  else [spec_sample i (n_Attributes dp) (temporality_extra (i_temporality i)) (n_Timestamp dp)
          (number_value (n_Value dp)) (n_Flags dp)].

(** The running totals of the bucket counts, as uint64. *)
Definition running_totals (counts : list Z) : list Z :=
  (λ k, u64 (foldr Z.add 0 (take (S k) counts))) <$> seq 0 (length counts).
Definition bucket_values (dp : HistogramDataPoint) : list (string * Z) :=
  zip (FormatFloat <$> h_ExplicitBounds dp) (running_totals (h_BucketCounts dp)) ++ [("+Inf", h_Count dp)].

Definition hist_samples (i : series_info) (dp : HistogramDataPoint) : list sample :=
  let one sfx v :=
    let i := suffix_info i sfx in
    spec_sample i (h_Attributes dp) (temporality_extra (i_temporality i)) (h_Timestamp dp) v (h_Flags dp) in
  if hist_nan dp then []
  else one countSuffix (float64_of_int (h_Count dp))
       :: (one sumSuffix <$> option_list (h_Sum dp)) ++ (one minSuffix <$> option_list (h_Min dp))
       ++ (one maxSuffix <$> option_list (h_Max dp))
       ++ ((λ bv, let i := suffix_info i bucketSuffix in
                  spec_sample i (h_Attributes dp) (le_extra bv.1 (i_temporality i)) (h_Timestamp dp)
                    (float64_of_int bv.2) (h_Flags dp)) <$> bucket_values dp).

Definition summary_samples (i : series_info) (dp : SummaryDataPoint) : list sample :=
  let one sfx v :=
    let i := suffix_info i sfx in
    spec_sample i (s_Attributes dp) (temporality_extra (i_temporality i)) (s_Timestamp dp) v (s_Flags dp) in
  if sum_nan dp then []
  else one countSuffix (float64_of_int (s_Count dp)) :: one sumSuffix (s_Sum dp)
       :: ((λ q, let i := suffix_info i quantilesSuffix in
                 spec_sample i (s_Attributes dp) (<["quantile" := FormatFloat q.1]> (temporality_extra (i_temporality i)))
                   (s_Timestamp dp) q.2 (s_Flags dp)) <$> s_QuantileValues dp).

(** The fingerprint has the temporality of the metric for every suffix. *)
Definition exp_samples (i : series_info) (dp : ExponentialHistogramDataPoint) : list sample :=
  let one sfx v :=
    spec_sample (suffix_info i sfx) (e_Attributes dp) (temporality_extra (i_temporality i)) (e_Timestamp dp) v (e_Flags dp) in
  if exp_nan dp then []
  else one countSuffix (float64_of_int (e_Count dp))
       :: (one sumSuffix <$> option_list (e_Sum dp)) ++ (one minSuffix <$> option_list (e_Min dp))
       ++ (one maxSuffix <$> option_list (e_Max dp)).

Definition metric_samples (enable : bool) (env : string) (m : Metric) : list sample :=
  let i t mono := {| i_env := env; i_temporality := t; i_name := m_Name m; i_desc := m_Description m;
                     i_unit := m_Unit m; i_typ := Type_ m; i_isMonotonic := mono |} in
  match m_Data m with
  | Gauge points => points ≫= number_samples (i TemporalityUnspecified false)
  | Sum t mono points => points ≫= number_samples (i t mono)
  | Histogram t points => points ≫= hist_samples (i t true)
  | Summary points => points ≫= summary_samples (i TemporalityCumulative true)
  | ExponentialHistogram TemporalityDelta points =>
      if enable then points ≫= exp_samples (i TemporalityDelta true) else []
  | ExponentialHistogram _ _ | Empty => []
  end.
End spec.

Section refinement.
Context (now : Z) (sc : scope_info).

Lemma samples_add_value b i fp ms v flags :
  b_samples (add_value now sc b i fp ms v flags) = b_samples b ++ [mk_sample i fp ms v flags].
Proof. apply add_value_rows. Qed.
Lemma samples_sketch i b dp : b_samples (addDDSketchSample now sc i b dp) = b_samples b.
Proof. apply sketch_rows. Qed.
Lemma samples_scope_metadata s b i : b_samples (add_scope_metadata now sc s b i) = b_samples b.
Proof. unfold add_scope_metadata. by rewrite !(proj1 (addMetadata_rows _ _ _ _ _ _)). Qed.
Lemma samples_suffix_metadata s b i sfxs :
  b_samples (foldl (λ b sfx, add_scope_metadata now sc s b (suffix_info i sfx)) b sfxs) = b_samples b.
Proof. revert b. induction sfxs as [|x l IH]; intros b; [done|]. simpl. by rewrite IH, samples_scope_metadata. Qed.

Lemma samples_number_points i s b points :
  b_samples (snd (number_points now sc i s b points)) = b_samples b ++ (points ≫= number_samples sc i).
Proof.
  revert s b. induction points as [|dp points IH]; intros s b; [by rewrite app_nil_r|].
  rewrite bind_cons. simpl. unfold number_samples at 1. destruct (IsNaN _); rewrite IH; [done|].
  by rewrite samples_add_value, <- app_assoc.
Qed.

Lemma samples_point_loop {Q} time nan (add : batch → Q → batch) (out : Q → list sample) s b points :
  (∀ b dp, nan dp = false → b_samples (add b dp) = b_samples b ++ out dp) → (∀ dp, nan dp = true → out dp = []) →
  b_samples (snd (point_loop time nan add s b points)) = b_samples b ++ (points ≫= out).
Proof.
  intros Ha Hn. revert s b. induction points as [|dp points IH]; intros s b; [by rewrite app_nil_r|].
  rewrite bind_cons. simpl. rewrite IH. destruct (nan dp) eqn:E; [by rewrite Hn|].
  by rewrite Ha, <- app_assoc.
Qed.

Lemma running_totals_from c counts :
  (λ k, u64 (u64 c + foldr Z.add 0 (take (S k) counts))) <$> seq 0 (length counts)
  = (λ k, u64 (c + foldr Z.add 0 (take (S k) counts))) <$> seq 0 (length counts).
Proof. apply list_fmap_ext. intros _ k _. unfold u64. by rewrite Zplus_mod_idemp_l. Qed.

Lemma running_totals_cons c n counts :
  (λ k, u64 (c + foldr Z.add 0 (take (S k) (n :: counts)))) <$> seq 0 (length (n :: counts))
  = u64 (c + n) :: ((λ k, u64 (u64 (c + n) + foldr Z.add 0 (take (S k) counts))) <$> seq 0 (length counts)).
Proof.
  rewrite running_totals_from. cbn [length seq]. rewrite fmap_cons. f_equal; [simpl; f_equal; lia|].
  rewrite <- fmap_S_seq, <- list_fmap_compose. apply list_fmap_ext. intros _ k _. simpl. f_equal. lia.
Qed.

Definition bucket_sample (i : series_info) (dp : HistogramDataPoint) (bv : string * Z) : sample :=
  spec_sample sc i (h_Attributes dp) (le_extra bv.1 (i_temporality i)) (h_Timestamp dp) (float64_of_int bv.2) (h_Flags dp).

Lemma samples_bucket_loop i dp cum b bounds counts :
  b_samples (bucket_loop now sc i dp cum b bounds counts)
  = b_samples b ++ (bucket_sample i dp <$>
      zip (FormatFloat <$> bounds) ((λ k, u64 (cum + foldr Z.add 0 (take (S k) counts))) <$> seq 0 (length counts))).
Proof.
  revert cum b counts. induction bounds as [|x bounds IH]; intros cum b [|n counts];
    [by rewrite app_nil_r..|]. cbn [bucket_loop]. rewrite IH, samples_add_value, running_totals_cons, <- app_assoc.
  done.
Qed.

(** An optional sample. *)
Lemma samples_option {A} (o : option float64) (b b1 : batch) (f : A → float64 → sample) (a : A) :
  (∀ x, o = Some x → b_samples b1 = b_samples b ++ [f a x]) →
  b_samples (if o then b1 else b) = b_samples b ++ (f a <$> option_list o).
Proof. intros H. destruct o as [x|]; [by apply H|by rewrite app_nil_r]. Qed.

Lemma samples_hist_point i b dp :
  hist_nan dp = false → b_samples (hist_point now sc i b dp) = b_samples b ++ hist_samples sc i dp.
Proof.
  intros Hn. unfold hist_samples. rewrite Hn. cbv zeta.
  set (one := λ sfx v, spec_sample sc (suffix_info i sfx) (h_Attributes dp)
    (temporality_extra (i_temporality (suffix_info i sfx))) (h_Timestamp dp) v (h_Flags dp)).
  assert (∀ b sfx (o : option float64), hist_value dp sfx = unset_zero o →
    b_samples (if o then hist_addSample now sc i b dp sfx else b) = b_samples b ++ (one sfx <$> option_list o)) as Ho.
  { intros b' sfx o E. apply samples_option. intros x ->. unfold hist_addSample. by rewrite samples_add_value, E. }
  unfold hist_point, addBucketSample. rewrite samples_add_value, samples_bucket_loop.
  rewrite (Ho _ maxSuffix (h_Max dp)), (Ho _ minSuffix (h_Min dp)), (Ho _ sumSuffix (h_Sum dp)) by done.
  unfold hist_addSample. rewrite samples_add_value. unfold bucket_values. rewrite fmap_app.
  rewrite <- !app_assoc. done.
Qed.

Lemma samples_sum_point i b dp :
  sum_nan dp = false → b_samples (sum_point now sc i b dp) = b_samples b ++ summary_samples sc i dp.
Proof.
  intros Hn. unfold summary_samples. rewrite Hn. unfold sum_point, addQuantileSample.
  assert (∀ qs b, b_samples (foldl (λ b q,
      add_value now sc b (suffix_info i quantilesSuffix) (point_fingerprint sc (s_Attributes dp)
        (<["quantile" := FormatFloat q.1]> (temporality_extra (i_temporality (suffix_info i quantilesSuffix)))))
        (UnixMilli (s_Timestamp dp)) q.2 (s_Flags dp)) b qs)
    = b_samples b ++ ((λ q : float64 * float64, spec_sample sc (suffix_info i quantilesSuffix) (s_Attributes dp)
        (<["quantile" := FormatFloat q.1]> (temporality_extra (i_temporality (suffix_info i quantilesSuffix))))
        (s_Timestamp dp) q.2 (s_Flags dp)) <$> qs)) as Hq.
  { induction qs as [|q qs IH]; intros b'; [by rewrite app_nil_r|]. simpl. by rewrite IH, samples_add_value, <- app_assoc. }
  rewrite Hq. unfold sum_addSample. rewrite !samples_add_value, <- !app_assoc. done.
Qed.

Lemma samples_exp_point i b dp :
  exp_nan dp = false → b_samples (exp_point now sc i b dp) = b_samples b ++ exp_samples sc i dp.
Proof.
  intros Hn. unfold exp_samples. rewrite Hn. cbv zeta.
  set (one := λ sfx v, spec_sample sc (suffix_info i sfx) (e_Attributes dp)
    (temporality_extra (i_temporality i)) (e_Timestamp dp) v (e_Flags dp)).
  assert (∀ b sfx (o : option float64), exp_value dp sfx = unset_zero o →
    b_samples (if o then exp_addSample now sc i b dp sfx else b) = b_samples b ++ (one sfx <$> option_list o)) as Ho.
  { intros b' sfx o E. apply samples_option. intros x ->. unfold exp_addSample. by rewrite samples_add_value, E. }
  unfold exp_point. rewrite samples_sketch.
  rewrite (Ho _ maxSuffix (e_Max dp)), (Ho _ minSuffix (e_Min dp)), (Ho _ sumSuffix (e_Sum dp)) by done.
  unfold exp_addSample. rewrite samples_add_value, <- !app_assoc. done.
Qed.

Lemma samples_metric enable env b m :
  b_samples (process_metric enable now sc env b m) = b_samples b ++ metric_samples sc enable env m.
Proof.
  assert (∀ p : seen * batch, b_samples (let '(_, b) := p in b) = b_samples (snd p)) as Hp by (by intros []).
  unfold process_metric, metric_samples. destruct (m_Data m) as [|points|t mono points|t points|t points|points].
  - by rewrite app_nil_r.
  - unfold processGauge. rewrite <- (samples_number_points _ seen_none).
    destruct (number_points _ _ _ _ _ _). by rewrite samples_scope_metadata.
  - unfold processSum. rewrite <- (samples_number_points _ seen_none).
    destruct (number_points _ _ _ _ _ _). by rewrite samples_scope_metadata.
  - unfold processHistogram.
    rewrite <- (samples_point_loop h_Timestamp hist_nan (hist_point now sc _) _ seen_none b points (samples_hist_point _)).
    + destruct (point_loop _ _ _ _ _ _). by rewrite samples_suffix_metadata.
    + intros dp Hn. unfold hist_samples. by rewrite Hn.
  - unfold processExponentialHistogram. destruct enable; simpl; [|by destruct t; rewrite app_nil_r].
    destruct (decide (t = TemporalityDelta)) as [->|Ht]; [|by destruct t; rewrite ?app_nil_r].
    rewrite <- (samples_point_loop e_Timestamp exp_nan (exp_point now sc _) _ seen_none b points (samples_exp_point _)).
    + destruct (point_loop _ _ _ _ _ _). by rewrite !samples_scope_metadata.
    + intros dp Hn. unfold exp_samples. by rewrite Hn.
  - unfold processSummary.
    rewrite <- (samples_point_loop s_Timestamp sum_nan (sum_point now sc _) _ seen_none b points (samples_sum_point _)).
    + destruct (point_loop _ _ _ _ _ _). by rewrite samples_suffix_metadata.
    + intros dp Hn. unfold summary_samples. by rewrite Hn.
Qed.
End refinement.

Lemma samples_foldl {A} (f : batch → A → batch) (out : A → list sample) l b :
  (∀ b x, b_samples (f b x) = b_samples b ++ out x) → b_samples (foldl f b l) = b_samples b ++ (l ≫= out).
Proof.
  intros H. revert b. induction l as [|x l IH]; intros b; [by rewrite app_nil_r|].
  rewrite bind_cons. simpl. by rewrite IH, H, app_assoc.
Qed.

(** C13. The samples of a batch are those of its points, in order: one per number; count, sum,
    minimum and maximum where set, and cumulative buckets ending in [+Inf] per histogram
    point; count, sum and quantiles per summary point; and nothing for a point with a NaN. *)
Theorem prepareBatch_samples enable now md :
  b_samples (prepareBatch enable now md) =
  md ≫= λ rm, rm_ScopeMetrics rm ≫= λ sm,
    sm_Metrics sm ≫= metric_samples (scope_of rm sm) enable (deployment_env rm).
Proof.
  unfold prepareBatch. rewrite (samples_foldl _ (λ rm, rm_ScopeMetrics rm ≫= λ sm,
    sm_Metrics sm ≫= metric_samples (scope_of rm sm) enable (deployment_env rm))); [done|].
  intros b rm. apply samples_foldl. clear b. intros b sm. apply samples_foldl. intros b' m.
  apply samples_metric.
Qed.
End batches.

(** ** Writing a batch *)

Lemma makeCacheKey_inj a b a' b' : makeCacheKey a b = makeCacheKey a' b' → a = a' ∧ b = b'.
Proof.
  intros H%(f_equal bytes). unfold makeCacheKey in H. rewrite !bytes_app in H.
  assert (∀ z, ":"%char ∉ bytes (FormatInt z)) as Hc.
  { intros z Hz%FormatInt_bytes. by apply (bool_decide_eq_true_2 _) in Hz. }
  apply split_first in H as [H1%(f_equal of_bytes) H2%(f_equal of_bytes)]; [|apply Hc..].
  rewrite !of_bytes_bytes in H1, H2. split; by apply FormatInt_inj.
Qed.

Section writing.
Context `{PD : Pdata} `{TC : TTLCache} `{TL : !TTLCacheLaws TC cache_ttl}.

(** Two rows have one key exactly when they are the same series in the same hour: the times
    of rows fit in 63 bits. *)
Theorem cache_key_spec (t u : ts) :
  - 2 ^ 63 ≤ t_unixMilli t < 2 ^ 63 → - 2 ^ 63 ≤ t_unixMilli u < 2 ^ 63 →
  ts_cache_key t = ts_cache_key u ↔
  t_fingerprint t = t_fingerprint u ∧ Z.quot (t_unixMilli t) 3600000 = Z.quot (t_unixMilli u) 3600000.
Proof.
  intros Ht Hu. unfold ts_cache_key, roundedUnixMilli. split.
  - intros [Hf Hr]%makeCacheKey_inj. split; [done|].
    unfold u64, two64 in Hr. revert Hr. generalize (t_unixMilli t), (t_unixMilli u), Ht, Hu. intros x y Hx Hy.
    pose proof (Z.quot_rem' x 3600000). pose proof (Z.quot_rem' y 3600000).
    pose proof (Z.rem_bound_abs x 3600000 ltac:(lia)). pose proof (Z.rem_bound_abs y 3600000 ltac:(lia)).
    intros Hm. apply (f_equal (λ w, (w - Z.quot y 3600000 * 3600000) mod 2 ^ 64)) in Hm.
    rewrite !Zminus_mod_idemp_l, Z.sub_diag, Z.mod_0_l in Hm by lia.
    apply Z.mod_divide in Hm; [|lia]. destruct Hm as [q Hq].
    assert (q = 0) by lia. lia.
  - intros [-> ->]. done.
Qed.

Lemma ts_row_key t : ts_cache_key (ts_row t) = ts_cache_key t.
Proof. unfold ts_cache_key, ts_row, roundedUnixMilli; simpl. by rewrite Z.quot_mul. Qed.

(** What the loop of [writeTimeSeries] does to the cache, and what it appends. *)
Lemma append_ts_spec now st tss : ∀ c rows e rows' c',
  append_ts now st c rows tss = (e, rows', c') →
  ∃ new, rows' = rows ++ (ts_row <$> new) ∧ new ⊆ tss ∧ NoDup (ts_cache_key <$> new)
    ∧ (∀ t, t ∈ new → ttl_Get c now (ts_cache_key t) ≠ Some true)
    ∧ (∀ (k : string) t', now ≤ t' < now + cache_ttl → k ∈ ts_cache_key <$> new → ttl_Get c' t' k = Some true)
    ∧ (∀ (k : string) t', k ∉ ts_cache_key <$> new → ttl_Get c' t' k = ttl_Get c t' k)
    ∧ (e = None → ∀ t, t ∈ tss → ts_cache_key t ∈ ts_cache_key <$> new ∨ ttl_Get c now (ts_cache_key t) = Some true).
Proof.
  induction tss as [|t tss IH]; intros c rows e rows' c' H; simpl in H.
  - simplify_eq. exists []. rewrite app_nil_r. split_and!; try done; [constructor|set_solver..].
  - destruct (decide (ttl_Get c now (ts_cache_key t) = Some true)) as [Ht|Ht].
    { rewrite Ht in H. destruct (IH _ _ _ _ _ H) as (new & H1 & H2 & H3 & H4 & H5 & H6 & H7).
      exists new. split_and!; try done; [set_solver|].
      intros He u [->|Hu]%elem_of_cons; [by right|by apply H7]. }
    assert (match append_err st (length rows) with
            | Some e => (Some e, rows, c)
            | None => append_ts now st (ttl_Set c now (ts_cache_key t) true) (rows ++ [ts_row t]) tss
            end = (e, rows', c')) as H'.
    { destruct (ttl_Get c now (ts_cache_key t)) as [[]|]; [done|exact H..]. }
    clear H. destruct (append_err st (length rows)) as [e'|].
    { simplify_eq. exists []. rewrite app_nil_r. split_and!; try done; [set_solver|constructor|set_solver..]. }
    destruct (IH _ _ _ _ _ H') as (new & H1 & H2 & H3 & H4 & H5 & H6 & H7).
    assert (ttl_Get (ttl_Set c now (ts_cache_key t) true) now (ts_cache_key t) = Some true) as Hset
      by (apply ttl_Get_Set; unfold cache_ttl; lia).
    assert (ts_cache_key t ∉ ts_cache_key <$> new) as Hnew.
    { intros (u & Hu & Hin)%list_elem_of_fmap. apply (H4 u Hin). by rewrite <- Hu. }
    exists (t :: new). rewrite fmap_cons, H1, <- app_assoc. split_and!; [done|set_solver|by constructor| | | |].
    + intros u [->|Hu]%elem_of_cons; [done|]. rewrite <- (ttl_Get_Set_ne c now (ts_cache_key t) true now); [by apply H4|].
      intros E. apply Hnew. rewrite <- E. by apply list_elem_of_fmap_2.
    + intros k t' Hr. rewrite fmap_cons. intros [->|Hk]%elem_of_cons; [|by apply H5].
      rewrite H6 by done. by apply ttl_Get_Set.
    + intros k t'. rewrite fmap_cons, not_elem_of_cons. intros [Hk1 Hk2]. rewrite H6 by done. by apply ttl_Get_Set_ne.
    + intros He u [->|Hu]%elem_of_cons; [left; set_solver|].
      destruct (decide (ts_cache_key u = ts_cache_key t)) as [E|E]; [left; set_solver|].
      destruct (H7 He u Hu) as [Hk|Hk]; [left; set_solver|right].
      by rewrite ttl_Get_Set_ne in Hk.
Qed.

Lemma writeTimeSeries_rows now st c tss e rows c' :
  writeTimeSeries now st c tss = (e, rows, c') →
  (e = None → append_ts now st c [] tss = (None, rows, c')) ∧ (is_Some e → rows = []).
Proof.
  unfold writeTimeSeries. destruct tss as [|t tss]; [intros; simplify_eq; by split|].
  destruct (prepare_err st); [intros; simplify_eq; by split|].
  destruct (append_ts now st c [] (t :: tss)) as [[[e1|] r] c1]; [intros; simplify_eq; by split|].
  destruct (send_err st); intros; simplify_eq; split; done || by intros [].
Qed.

(** C15. No error, and what then is written: each series of the batch at most once an hour, none
    that the cache holds, each of the others, and none of them again until its time to live
    is over, whatever a later batch holds. *)
Theorem series_written_once now st c tss rows c' :
  writeTimeSeries now st c tss = (None, rows, c') →
  NoDup (ts_cache_key <$> rows)
  ∧ (∀ k, k ∈ ts_cache_key <$> rows ↔ k ∈ ts_cache_key <$> tss ∧ ttl_Get c now k ≠ Some true)
  ∧ (∀ t' st' tss' e rows' c'', now ≤ t' < now + cache_ttl →
       writeTimeSeries t' st' c' tss' = (e, rows', c'') →
       ∀ k, k ∈ ts_cache_key <$> rows' → k ∉ ts_cache_key <$> rows).
Proof.
  intros H. pose proof (proj1 (writeTimeSeries_rows _ _ _ _ _ _ _ H) eq_refl) as Ha.
  assert (∀ l : list ts, ts_cache_key <$> (ts_row <$> l) = ts_cache_key <$> l) as Hrow.
  { intros l. rewrite <- list_fmap_compose. apply list_fmap_ext. intros _ u _. apply ts_row_key. }
  destruct (append_ts_spec _ _ _ _ _ _ _ _ Ha) as (new & -> & H2 & H3 & H4 & H5 & H6 & H7). simpl. rewrite Hrow.
  split_and!; [done| |].
  - intros k. rewrite !list_elem_of_fmap. split.
    + intros (u & -> & Hu). split; [exists u; split; [done|by apply H2]|by apply H4].
    + intros ((u & -> & Hu) & Hn). destruct (H7 eq_refl u Hu) as [Hk|Hk]; [by apply list_elem_of_fmap|done].
  - intros t' st' tss' e rows' c'' Hr Hw k Hk Hkn.
    destruct (writeTimeSeries_rows _ _ _ _ _ _ _ Hw) as [Hnone Hsome].
    destruct e as [e|]; [rewrite Hsome in Hk by done; set_solver|]. pose proof (Hnone eq_refl) as Ha'.
    destruct (append_ts_spec _ _ _ _ _ _ _ _ Ha') as (new' & -> & _ & _ & H4' & _). simpl in Hk. rewrite Hrow in Hk.
    apply list_elem_of_fmap in Hk as (u & -> & Hu). apply (H4' u Hu). by apply H5.
Qed.

Lemma append_ts_accepts now st c rows tss :
  accepts st → ∃ rows' c', append_ts now st c rows tss = (None, rows', c').
Proof.
  intros [_ Ha]. revert c rows. induction tss as [|t tss IH]; intros c rows; simpl; [by eexists _, _|].
  rewrite Ha. destruct (ttl_Get c now (ts_cache_key t)) as [[]|]; apply IH.
Qed.

(** A statement that accepts the rows and fails to send leaves every key in the cache. *)
Lemma failed_send_caches now st c tss e e' rows c' :
  accepts st → send_err st = Some e → (∀ t, t ∈ tss → ttl_Get c now (ts_cache_key t) = None) →
  writeTimeSeries now st c tss = (e', rows, c') →
  rows = [] ∧ ∀ t t', now ≤ t' < now + cache_ttl → t ∈ tss → ttl_Get c' t' (ts_cache_key t) = Some true.
Proof.
  intros Hok Hsend Hfresh Hw. destruct (append_ts_accepts now st c [] tss Hok) as (rows' & c1 & E).
  unfold writeTimeSeries in Hw. destruct tss as [|t tss]; [simplify_eq; split; [done|set_solver]|].
  rewrite (proj1 Hok), E, Hsend in Hw. simplify_eq. split; [done|].
  destruct (append_ts_spec _ _ _ _ _ _ _ _ E) as (new & _ & _ & _ & _ & H5 & _ & H7).
  intros u t' Hr Hu. apply H5; [done|]. destruct (H7 eq_refl u Hu) as [|Hk]; [done|]. by rewrite Hfresh in Hk.
Qed.

(** Series the cache holds are not written. *)
Lemma cached_series_skipped now st c tss :
  accepts st → send_err st = None → (∀ t, t ∈ tss → ttl_Get c now (ts_cache_key t) = Some true) →
  writeTimeSeries now st c tss = (None, [], c).
Proof.
  intros [Hp _] Hs H. assert (∀ rows, append_ts now st c rows tss = (None, rows, c)) as Ha.
  { induction tss as [|t tss IH]; intros rows; [done|]. simpl. rewrite H by set_solver. apply IH. set_solver. }
  unfold writeTimeSeries. rewrite Hp, Ha, Hs. by destruct tss.
Qed.

(** The series of a batch whose Send fails are lost: they are already in the cache, so that a
    retry of the same batch within the time to live writes its samples without its series. *)
Theorem failed_send_loses_series now sts c b e :
  accepts (st_ts sts) → send_err (st_ts sts) = Some e →
  (∀ t, t ∈ b_ts b → ttl_Get c now (ts_cache_key t) = None) →
  let '(_, written, c') := writeBatch now sts c b in
  w_ts written = [] ∧
  ∀ t' sts' b', now ≤ t' < now + cache_ttl → b_ts b' = b_ts b → b_samples b' = b_samples b →
    accepts (st_ts sts') → send_err (st_ts sts') = None → accepts (st_samples sts') → send_err (st_samples sts') = None →
    let '(_, written', _) := writeBatch t' sts' c' b' in
    w_ts written' = [] ∧ w_samples written' = b_samples b.
Proof.
  intros Hok Hsend Hfresh. unfold writeBatch.
  destruct (writeTimeSeries now (st_ts sts) c (b_ts b)) as [[e1 rows] c'] eqn:Ew.
  destruct (writeSamples _ _), (writeExpHist _ _), (writeMetadata _ _).
  destruct (failed_send_caches _ _ _ _ _ _ _ _ Hok Hsend Hfresh Ew) as [-> Hc].
  split; [done|]. intros t' sts' b' Hr Hb Hs Hok' Hsend' Hoks Hsends. rewrite Hb, Hs.
  rewrite (cached_series_skipped t' _ _ _ Hok' Hsend') by (intros; by apply Hc).
  unfold writeSamples. rewrite (write_rows_accepts _ _ Hoks Hsends).
  by destruct (writeExpHist _ _), (writeMetadata _ _).
Qed.
End writing.

(** ** Witnesses *)

Section witnesses.
Import TestPdata.
#[local] Instance w_cache : TTLCache := TestTTL.test_cache cache_ttl.
#[local] Instance w_cache_laws : TTLCacheLaws w_cache cache_ttl := TestTTL.test_cache_laws cache_ttl.
#[local] Instance w_types : PdataTypes test_pdata :=
  {| TypeOf v := match v with VStr _ => 1 | VInt _ => 2 end; ValueTypeStr := 1 |}.
#[local] Instance w_pmetric : PmetricText :=
  {| Temporality_String t := match t with TemporalityUnspecified => "Unspecified" | TemporalityDelta => "Delta"
                             | TemporalityCumulative => "Cumulative" end;
     MetricType_String _ := "Gauge" |}.
#[local] Instance w_floats : FloatText :=
  {| FormatFloat x := match x with S754_finite false m _ => FormatInt (Z.pos m) | _ => "?" end;
     gamma_of_scale _ := float64_of_int 2 |}.

(** A gauge with a number and a NaN, and a histogram with two buckets. *)
Definition w_metrics : Metrics :=
  [ {| rm_Attributes := {[ "deployment.environment" := VStr "prod" ]};
       rm_ScopeMetrics := [
         {| sm_Attributes := ∅; sm_Name := "lib"; sm_Version := "1"; sm_SchemaUrl := "";
            sm_Metrics := [
              {| m_Name := "temp"; m_Description := ""; m_Unit := "C";
                 m_Data := Gauge [
                   {| n_Attributes := {[ "k" := VInt 3 ]}; n_Timestamp := 7200 * 10 ^ 9; n_Value := NumberInt 21; n_Flags := 0 |};
                   {| n_Attributes := ∅; n_Timestamp := 7201 * 10 ^ 9; n_Value := NumberDouble S754_nan; n_Flags := 0 |} ] |};
              {| m_Name := "lat"; m_Description := ""; m_Unit := "ms";
                 m_Data := Histogram TemporalityDelta [
                   {| h_Attributes := ∅; h_Timestamp := 7202 * 10 ^ 9; h_Count := 5; h_Sum := Some (float64_of_int 9);
                      h_Min := None; h_Max := None; h_BucketCounts := [2; 1; 2];
                      h_ExplicitBounds := [float64_of_int 1; float64_of_int 2]; h_Flags := 0 |} ] |} ] |} ] |} ].
Definition w_batch : batch := prepareBatch false 0 w_metrics.

(** One sample of the gauge; count, sum and three buckets of the histogram. *)
Example w_batch_samples :
  (λ s, (s_metricName s, s_value s)) <$> b_samples w_batch
  = [("temp", float64_of_int 21); ("lat.count", float64_of_int 5); ("lat.sum", float64_of_int 9);
     ("lat.bucket", float64_of_int 2); ("lat.bucket", float64_of_int 3); ("lat.bucket", float64_of_int 5)].
Proof. vm_compute. reflexivity. Qed.

Lemma samples_are_numbers_witness : ∀ s, s ∈ b_samples w_batch → IsNaN (s_value s) = false.
Proof. intros s Hs. by apply (samples_are_numbers false 0 w_metrics). Defined.

Lemma ts_self_contained_witness : ∃ t, t ∈ b_ts w_batch ∧
  t_fingerprint t = series_hash (t_resourceAttrs t) (t_scopeAttrs t) (t_attrs t) (t_metricName t).
Proof.
  destruct (b_ts w_batch) as [|t l] eqn:E.
  - exfalso. assert (length (b_ts w_batch) = 6%nat) as H by (vm_compute; reflexivity). by rewrite E in H.
  - exists t. split; [apply list_elem_of_here|]. apply (ts_self_contained false 0 w_metrics).
    fold w_batch. rewrite E. apply list_elem_of_here.
Defined.

Definition w_row (fp ms : Z) : ts :=
  {| t_env := ""; t_temporality := TemporalityDelta; t_metricName := "m"; t_description := ""; t_unit := "";
     t_typ := MetricTypeSum; t_isMonotonic := true; t_fingerprint := fp; t_unixMilli := ms; t_labels := "";
     t_attrs := ∅; t_scopeAttrs := ∅; t_resourceAttrs := ∅ |}.

Lemma cache_key_spec_witness :
  ts_cache_key (w_row 7 7200000) = ts_cache_key (w_row 7 7200001)
  ∧ ts_cache_key (w_row 7 7200000) ≠ ts_cache_key (w_row 7 7199999).
Proof.
  split.
  - apply cache_key_spec; simpl; [lia|lia|by split].
  - intros [_ H]%cache_key_spec; simpl; [by vm_compute in H|lia|lia].
Defined.

Definition w_ok : statement := {| prepare_err := None; append_err _ := None; send_err := None |}.
Definition w_down : statement := {| prepare_err := None; append_err _ := None; send_err := Some "down" |}.

Lemma series_written_once_witness :
  ∃ rows c', writeTimeSeries 0 w_ok ttl_New [w_row 7 0; w_row 7 1; w_row 8 0] = (None, rows, c')
  ∧ length rows = 2%nat ∧ NoDup (ts_cache_key <$> rows).
Proof.
  destruct (writeTimeSeries 0 w_ok ttl_New [w_row 7 0; w_row 7 1; w_row 8 0]) as [[e rows] c'] eqn:E.
  assert ((λ r : option string * list ts * ttl_cache, (fst (fst r), length (snd (fst r))))
    (writeTimeSeries 0 w_ok ttl_New [w_row 7 0; w_row 7 1; w_row 8 0]) = (None, 2%nat)) as H by (vm_compute; reflexivity).
  rewrite E in H. simpl in H. injection H as -> Hl. exists rows, c'. split; [done|]. split; [exact Hl|].
  exact (proj1 (series_written_once _ _ _ _ _ _ E)).
Defined.

(** The retry of a failed batch writes its samples and not its series. *)
Lemma failed_send_loses_series_witness :
  let sts st := {| st_ts := st; st_samples := w_ok; st_expHist := w_ok; st_metadata := w_ok |} in
  let '(_, written, c') := writeBatch 0 (sts w_down) ttl_New w_batch in
  w_ts written = []
  ∧ let '(_, written', _) := writeBatch 1000 (sts w_ok) c' w_batch in
    w_ts written' = [] ∧ w_samples written' = b_samples w_batch.
Proof.
  intros sts.
  pose proof (failed_send_loses_series 0 (sts w_down) ttl_New w_batch "down" (conj eq_refl (λ _, eq_refl)) eq_refl
    (λ t _, ttl_Get_New 0 (ts_cache_key t))) as H.
  destruct (writeBatch 0 (sts w_down) ttl_New w_batch) as [[errs written] c'].
  split; [exact (proj1 H)|]. apply (proj2 H 1000 (sts w_ok) w_batch); try exact (conj eq_refl (λ _, eq_refl)); try reflexivity.
  unfold cache_ttl. lia.
Defined.
End witnesses.
