(* ===== verification/LogsPipeline.v ===== *)
(** * The pipeline of the logs exporter

    The goroutines of [pushToClickhouse] (src/exporter/clickhouselogsexporter/exporter.go):
    the loop over the log records spawns a producer per record, at most [cap] at a time; each
    sends a record on a channel of that capacity; one consumer appends what it receives. The
    first error cancels the group. A step is one step of one goroutine. That the caller cancels
    the context of the push is left out. *)
From S2P Require Import Prelude.

(** ** Resource fingerprints ([resourcesSeenMap]) *)

(** The two maps nested in each other, by bucket and then by resource. *)
Definition resourcesSeenMap : Type := gmap (Z * string) string.
(** The fingerprint, created and stored unless there is one. *)
Definition getOrCreateFingerprint (r : resourcesSeenMap) (bucket : Z) (resourceJSON : string) (createFn : string)
  : string * resourcesSeenMap :=
  match r !! (bucket, resourceJSON) with
  | Some fp => (fp, r)
  | None => (createFn, <[(bucket, resourceJSON) := createFn]> r)
  end.

(** What a producer does with its record: the record is too old, there is no id for it, or it
    is sent with a fingerprint. *)
Inductive plan := Skip | FailJob (err : string) | Emit (bucket : Z) (resourceJSON : string) (createFn : string).

Inductive main_phase := Iterating | Waiting | Returned (err : string) | Finished (err : option string).

Section pipeline.
Context {Job : Type}.
(** The body of a producer; what the statements answer to the rows of a record, after the
    rows of others; the capacity of the limiter and of the channel. *)
Context (work : Job → plan) (append : list (Job * string) → Job * string → option string) (cap : nat).

(** A producer that runs its body, or that waits to send. *)
Inductive worker := Working (j : Job) | Sending (r : Job * string).

(** [inr] in the list of work is a resource whose attributes cannot be serialised. [workers]
    hold a slot of the limiter and are counted by [producersWG]; [ending] are goroutines that
    have given both back and are about to report an error to the group. *)
Record pipe := {
  todo : list (Job + string); ph : main_phase; workers : list worker; ending : list string;
  stream : list (Job * string); closed : bool; consuming : bool; appended : list (Job * string);
  cancelled : option string; seen : resourcesSeenMap }.

Definition start (items : list (Job + string)) : pipe :=
  {| todo := items; ph := Iterating; workers := []; ending := []; stream := []; closed := false;
     consuming := true; appended := []; cancelled := None; seen := ∅ |}.

(** Only the first error is kept. *)
Definition cancel (e : string) (c : option string) : option string :=
  match c with Some e' => Some e' | None => Some e end.

(** The loop of the main goroutine. With the group cancelled and a free slot the select takes
    either branch. A resource that cannot be serialised ends the function, whose deferred call
    closes the channel. *)
Inductive main_step : pipe → pipe → Prop :=
| step_spawn p j rest :
    ph p = Iterating → todo p = inl j :: rest → (length (workers p) < cap)%nat →
    main_step p {| todo := rest; ph := Iterating; workers := workers p ++ [Working j]; ending := ending p;
                   stream := stream p; closed := closed p; consuming := consuming p; appended := appended p;
                   cancelled := cancelled p; seen := seen p |}
| step_break p j rest e :
    ph p = Iterating → todo p = inl j :: rest → cancelled p = Some e →
    main_step p {| todo := todo p; ph := Waiting; workers := workers p; ending := ending p;
                   stream := stream p; closed := closed p; consuming := consuming p; appended := appended p;
                   cancelled := cancelled p; seen := seen p |}
| step_loop_ends p :
    ph p = Iterating → todo p = [] →
    main_step p {| todo := []; ph := Waiting; workers := workers p; ending := ending p;
                   stream := stream p; closed := closed p; consuming := consuming p; appended := appended p;
                   cancelled := cancelled p; seen := seen p |}
| step_marshal_error p e rest :
    ph p = Iterating → todo p = inr e :: rest →
    main_step p {| todo := rest; ph := Returned e; workers := workers p; ending := ending p;
                   stream := stream p; closed := true; consuming := consuming p; appended := appended p;
                   cancelled := cancelled p; seen := seen p |}
| step_group_wait p :
    ph p = Waiting → workers p = [] → ending p = [] → consuming p = false →
    main_step p {| todo := todo p; ph := Finished (cancelled p); workers := []; ending := [];
                   stream := stream p; closed := closed p; consuming := false; appended := appended p;
                   cancelled := cancelled p; seen := seen p |}.

(** The goroutine that waits for the producers and closes the channel. *)
Inductive closer_step : pipe → pipe → Prop :=
| step_close p :
    ph p = Waiting → workers p = [] → closed p = false →
    closer_step p {| todo := todo p; ph := ph p; workers := []; ending := ending p;
                     stream := stream p; closed := true; consuming := consuming p; appended := appended p;
                     cancelled := cancelled p; seen := seen p |}.

(** A producer: its body, the send, and the report of its error. *)
Inductive worker_step : pipe → pipe → Prop :=
| step_skip p ws1 j ws2 :
    workers p = ws1 ++ Working j :: ws2 → work j = Skip →
    worker_step p {| todo := todo p; ph := ph p; workers := ws1 ++ ws2; ending := ending p;
                     stream := stream p; closed := closed p; consuming := consuming p; appended := appended p;
                     cancelled := cancelled p; seen := seen p |}
| step_fail p ws1 j ws2 e :
    workers p = ws1 ++ Working j :: ws2 → work j = FailJob e →
    worker_step p {| todo := todo p; ph := ph p; workers := ws1 ++ ws2; ending := ending p ++ [e];
                     stream := stream p; closed := closed p; consuming := consuming p; appended := appended p;
                     cancelled := cancelled p; seen := seen p |}
| step_emit p ws1 j ws2 bucket json createFn fp seen' :
    workers p = ws1 ++ Working j :: ws2 → work j = Emit bucket json createFn →
    getOrCreateFingerprint (seen p) bucket json createFn = (fp, seen') →
    worker_step p {| todo := todo p; ph := ph p; workers := ws1 ++ Sending (j, fp) :: ws2; ending := ending p;
                     stream := stream p; closed := closed p; consuming := consuming p; appended := appended p;
                     cancelled := cancelled p; seen := seen' |}
| step_send p ws1 r ws2 :
    workers p = ws1 ++ Sending r :: ws2 → closed p = false → (length (stream p) < cap)%nat →
    worker_step p {| todo := todo p; ph := ph p; workers := ws1 ++ ws2; ending := ending p;
                     stream := stream p ++ [r]; closed := closed p; consuming := consuming p; appended := appended p;
                     cancelled := cancelled p; seen := seen p |}
| step_report p e rest :
    ending p = e :: rest →
    worker_step p {| todo := todo p; ph := ph p; workers := workers p; ending := rest;
                     stream := stream p; closed := closed p; consuming := consuming p; appended := appended p;
                     cancelled := cancel e (cancelled p); seen := seen p |}.

(** The consumer: a record, an error of a statement, the end of the channel, the cancellation. *)
Inductive consumer_step : pipe → pipe → Prop :=
| step_append p r rest :
    consuming p = true → stream p = r :: rest → append (appended p) r = None →
    consumer_step p {| todo := todo p; ph := ph p; workers := workers p; ending := ending p;
                       stream := rest; closed := closed p; consuming := true; appended := appended p ++ [r];
                       cancelled := cancelled p; seen := seen p |}
| step_append_fails p r rest e :
    consuming p = true → stream p = r :: rest → append (appended p) r = Some e →
    consumer_step p {| todo := todo p; ph := ph p; workers := workers p; ending := ending p;
                       stream := rest; closed := closed p; consuming := false; appended := appended p;
                       cancelled := cancel e (cancelled p); seen := seen p |}
| step_drained p :
    consuming p = true → stream p = [] → closed p = true →
    consumer_step p {| todo := todo p; ph := ph p; workers := workers p; ending := ending p;
                       stream := []; closed := true; consuming := false; appended := appended p;
                       cancelled := cancelled p; seen := seen p |}
| step_cancelled p e :
    consuming p = true → cancelled p = Some e →
    consumer_step p {| todo := todo p; ph := ph p; workers := workers p; ending := ending p;
                       stream := stream p; closed := closed p; consuming := false; appended := appended p;
                       cancelled := cancelled p; seen := seen p |}.

Inductive push_step (p p' : pipe) : Prop :=
| push_main : main_step p p' → push_step p p'
| push_closer : closer_step p p' → push_step p p'
| push_worker : worker_step p p' → push_step p p'
| push_consumer : consumer_step p p' → push_step p p'.

(** A send on a closed channel. *)
Definition panics (p : pipe) : Prop := closed p = true ∧ ∃ r, Sending r ∈ workers p.
Definition finished (p : pipe) : bool := match ph p with Finished _ => true | _ => false end.
Definition reachable (items : list (Job + string)) (p : pipe) : Prop := rtc push_step (start items) p.
End pipeline.
