(* ===== verification/LogsPipelineProps.v ===== *)
(** * The logs pipeline: what every run does

    A push that meets no error ends, in every interleaving, with every record of the window
    appended once under the fingerprint its resource was registered with; the send never
    meets a closed channel as long as the resources can be serialised. An error of the
    consumer can leave producers that wait for ever. *)
From S2P Require Import Prelude LogsPipeline.

Section runs.
Context {Job : Type} (work : Job → plan) (append : list (Job * string) → Job * string → option string) (cap : nat).
Abbreviation push_step := (push_step work append cap).
Abbreviation reachable := (reachable work append cap).
Abbreviation items := (list (Job + string)).

Ltac cases_of H :=
  destruct H as [H|H|H|H]; inversion H; subst; clear H; simpl in *; subst.

(** ** Every run ends *)

Definition worker_weight (w : worker (Job := Job)) : nat := match w with Working _ => 4 | Sending _ => 3 end.
Definition phase_weight (p : main_phase) : nat := match p with Iterating => 2 | Waiting => 1 | _ => 0 end.
(** The steps left at most. *)
Definition fuel (p : pipe (Job := Job)) : nat :=
  5 * length (todo p) + sum_list_with worker_weight (workers p) + length (ending p) + 2 * length (stream p)
  + phase_weight (ph p) + (if closed p then 0 else 1) + (if consuming p then 1 else 0).

Lemma push_step_fuel p p' : push_step p p' → (fuel p' < fuel p)%nat.
Proof.
  intros H. unfold fuel. destruct p as [td phs ws en st cl co ap ca se]. cases_of H;
    rewrite ?sum_list_with_app, ?length_app; simpl; rewrite ?sum_list_with_app; simpl; lia.
Qed.

(** No run is longer than five steps a record and four more. *)
Theorem push_terminates (l : items) p n :
  nsteps push_step n (start l) p → (n ≤ 5 * length l + 4)%nat.
Proof.
  intros H. assert (∀ p p' n, nsteps push_step n p p' → (n + fuel p' ≤ fuel p)%nat) as Hn.
  { clear. induction 1 as [p|n p p' p'' H _ IH]; [lia|]. apply push_step_fuel in H. lia. }
  apply Hn in H. unfold fuel in H at 2. simpl in H. lia.
Qed.

(** An invariant of the start that every step keeps holds in every reachable state. *)
Lemma reachable_ind' (l : items) (P : pipe → Prop) :
  P (start l) → (∀ p p', P p → push_step p p' → P p') → ∀ p, reachable l p → P p.
Proof. intros H0 Hs. apply (rtc_ind_r P); [done|]. intros p p' _ Hp IH. by apply (Hs p). Qed.

(** ** No send on a closed channel *)

Definition serialisable (l : items) : Prop := ∀ e, inr e ∉ l.

Definition closed_safe (p : pipe (Job := Job)) : Prop :=
  serialisable (todo p) ∧ (closed p = true → workers p = [] ∧ ph p ≠ Iterating).

Lemma not_nil_middle {A} (l k : list A) x : [] ≠ l ++ x :: k.
Proof. by destruct l. Qed.

Lemma closed_safe_step p p' : closed_safe p → push_step p p' → closed_safe p'.
Proof.
  unfold closed_safe, serialisable. intros [Ht Hc] H. destruct p as [td phs ws en st cl co ap ca se]. cases_of H.
  - split; [intros e He; apply (Ht e); by right|]. intros ->. by destruct (Hc eq_refl).
  - split; [done|]. intros ->. by destruct (Hc eq_refl).
  - split; [done|]. intros ->. by destruct (Hc eq_refl).
  - exfalso. apply (Ht e). by left.
  - split; [done|]. intros ->. by destruct (Hc eq_refl).
  - by split.
  - split; [done|]. intros ->. destruct (Hc eq_refl) as [E _]. by destruct (not_nil_middle ws1 ws2 (Working j)).
  - split; [done|]. intros ->. destruct (Hc eq_refl) as [E _]. by destruct (not_nil_middle ws1 ws2 (Working j)).
  - split; [done|]. intros ->. destruct (Hc eq_refl) as [E _]. by destruct (not_nil_middle ws1 ws2 (Working j)).
  - by split.
  - by split.
  - by split.
  - by split.
  - split; [done|]. intros _. by apply Hc.
  - by split.
Qed.

(** C21. As long as every resource can be serialised no producer sends on a closed channel, in any
    interleaving and whatever else fails. *)
Theorem send_never_panics (l : items) p : serialisable l → reachable l p → ¬ panics p.
Proof.
  intros Hl Hr [Hc [r Hin]]. assert (closed_safe p) as [_ Hs].
  { revert p Hr Hc Hin. intros p Hr _ _. revert p Hr. apply reachable_ind'; [by split|]. intros. by eapply closed_safe_step. }
  destruct (Hs Hc) as [E _]. rewrite E in Hin. by apply not_elem_of_nil in Hin.
Qed.

(** A resource that cannot be serialised after one that can: the deferred call closes the
    channel under a producer that is about to send. *)
Theorem marshal_error_panics j e bucket json fn :
  (0 < cap)%nat → work j = Emit bucket json fn → ∃ p, reachable [inl j; inr e] p ∧ panics p.
Proof.
  intros Hcap Hj. eexists. split.
  - unfold reachable. eapply rtc_l; [apply push_main, (step_spawn _ _ j [inr e]); [done|done|simpl; lia]|].
    eapply rtc_l; [eapply push_worker, (step_emit _ _ _ [] j []); [done|exact Hj|reflexivity]|].
    apply rtc_once, push_main. by eapply step_marshal_error.
  - split; [done|]. eexists. simpl. by left.
Qed.

(** ** What was appended *)

Definition emits (j : Job) : bool := match work j with Emit _ _ _ => true | _ => false end.
Definition emitting (l : items) : list Job := l ≫= λ x, match x with inl j => if emits j then [j] else [] | inr _ => [] end.
Definition worker_jobs (w : worker (Job := Job)) : list Job :=
  match w with Working j => if emits j then [j] else [] | Sending r => [r.1] end.
(** The records that are appended or on the way. *)
Definition live (p : pipe (Job := Job)) : list Job :=
  emitting (todo p) ++ (workers p ≫= worker_jobs) ++ (stream p).*1 ++ (appended p).*1.

Definition accounted (l : items) (p : pipe (Job := Job)) : Prop := cancelled p = None → live p ≡ₚ emitting l.

Lemma cancel_some e c : cancel e c ≠ None.
Proof. by destruct c. Qed.

Lemma accounted_step l p p' : accounted l p → push_step p p' → accounted l p'.
Proof.
  unfold accounted. intros Ha H. destruct p as [td phs ws en st cl co ap ca se].
  cases_of H; intros Hc; try (by destruct (cancel_some _ _ Hc)); rewrite <- (Ha Hc); unfold live; simpl; try done;
    rewrite ?bind_app, ?fmap_app; simpl; unfold emits in *.
  all: repeat match goal with E : work ?j = _ |- _ => rewrite E end;
    repeat change (list_bind _ _ ?f ?x) with (x ≫= f); repeat change (list_fmap _ _ ?f ?x) with (f <$> x).
  all: try destruct (work j); solve_Permutation.
Qed.

(** Why the consumer stopped, why the loop ended, and what the result is. *)
Definition consumer_settled (p : pipe (Job := Job)) : Prop :=
  consuming p = false → cancelled p ≠ None ∨ (closed p = true ∧ stream p = []).
Definition loop_settled (p : pipe (Job := Job)) : Prop := ph p ≠ Iterating → cancelled p ≠ None ∨ todo p = [].
Definition result_settled (p : pipe (Job := Job)) : Prop :=
  ∀ e, ph p = Finished e → e = cancelled p ∧ workers p = [] ∧ ending p = [] ∧ consuming p = false.

Ltac settle := intros; first [discriminate | left; by apply cancel_some | tauto | intuition congruence].

Lemma consumer_settled_step p p' : consumer_settled p → push_step p p' → consumer_settled p'.
Proof.
  unfold consumer_settled. intros Hi H. destruct p as [td phs ws en st cl co ap ca se]. cases_of H; settle.
Qed.
Lemma loop_settled_step p p' : closed_safe p → loop_settled p → push_step p p' → loop_settled p'.
Proof.
  unfold loop_settled. intros [Hser _] Hi H. destruct p as [td phs ws en st cl co ap ca se].
  cases_of H; try settle. exfalso. apply (Hser e). by left.
Qed.
Lemma result_settled_step p p' : result_settled p → push_step p p' → result_settled p'.
Proof.
  unfold result_settled. intros Hi H. destruct p as [td phs ws en st cl co ap ca se].
  cases_of H; intros x Hx; simplify_eq; try done;
    destruct (Hi _ eq_refl) as (? & ? & ? & ?); simplify_eq; first [done | by destruct ws1].
Qed.

Lemma reachable_invariants (l : items) p :
  serialisable l → reachable l p →
  closed_safe p ∧ accounted l p ∧ consumer_settled p ∧ loop_settled p ∧ result_settled p.
Proof.
  intros Hl. revert p. apply reachable_ind'.
  - split_and!; [by split|intros _; unfold live; simpl; by rewrite !app_nil_r|done|by intros []|by intros e].
  - intros p p' (H1 & H2 & H3 & H4 & H5) H.
    split_and!; [by eapply closed_safe_step|by eapply accounted_step|by eapply consumer_settled_step
                |by eapply loop_settled_step|by eapply result_settled_step].
Qed.

(** A push that ends without an error has appended every record that is not too old, once. *)
Theorem push_appends_all (l : items) p :
  serialisable l → reachable l p → ph p = Finished None → (appended p).*1 ≡ₚ emitting l.
Proof.
  intros Hl Hr Hf. destruct (reachable_invariants l p Hl Hr) as ([_ Hc] & Ha & Hs & Ht & Hres).
  destruct (Hres None Hf) as (Hcan & Hw & _ & Hco). symmetry in Hcan.
  destruct (Hs Hco) as [?|[Hclosed Hst]]; [done|].
  destruct (Ht ltac:(congruence)) as [?|Htodo]; [done|].
  rewrite <- (Ha Hcan). unfold live. by rewrite Hw, Hst, Htodo.
Qed.

Lemma finished_stuck (l : items) p :
  serialisable l → reachable l p → ph p = Finished None → nf push_step p.
Proof.
  intros Hl Hr Hf. destruct (reachable_invariants l p Hl Hr) as (_ & _ & _ & _ & Hres).
  destruct (Hres None Hf) as (_ & Hw & He & Hco). intros [p' H].
  destruct H as [H|H|H|H]; inversion H; subst; simpl in *; try congruence.
  all: match goal with E : workers _ = ?ws ++ _ |- _ => rewrite Hw in E; by apply not_nil_middle in E end.
Qed.

(** ** The fingerprints *)

(** A row has the fingerprint its resource is registered with. *)
Definition registered (m : resourcesSeenMap) (r : Job * string) : Prop :=
  ∃ bucket json fn, work r.1 = Emit bucket json fn ∧ m !! (bucket, json) = Some r.2.
Definition carried (w : worker (Job := Job)) : list (Job * string) := match w with Sending r => [r] | Working _ => [] end.
Definition rows (p : pipe (Job := Job)) : list (Job * string) := appended p ++ stream p ++ (workers p ≫= carried).

Lemma getOrCreate_cases m bucket json fn fp m' :
  getOrCreateFingerprint m bucket json fn = (fp, m') →
  (m !! (bucket, json) = Some fp ∧ m' = m) ∨ (fp = fn ∧ m' = <[(bucket, json) := fn]> m).
Proof.
  unfold getOrCreateFingerprint, resourcesSeenMap in *. destruct (m !! (bucket, json)) eqn:E; intros [= <- <-]; [by left|by right].
Qed.
Lemma getOrCreate_keeps m bucket json fn fp m' k v :
  getOrCreateFingerprint m bucket json fn = (fp, m') → m !! k = Some v → m' !! k = Some v.
Proof.
  unfold getOrCreateFingerprint, resourcesSeenMap in *. destruct (m !! (bucket, json)) eqn:E; intros [= <- <-] Hk; [done|].
  rewrite lookup_insert_ne; [done|]. intros <-. congruence.
Qed.
Lemma getOrCreate_registers m bucket json fn fp m' :
  getOrCreateFingerprint m bucket json fn = (fp, m') → m' !! (bucket, json) = Some fp.
Proof.
  unfold getOrCreateFingerprint, resourcesSeenMap in *. destruct (m !! (bucket, json)) eqn:E; intros [= <- <-]; [done|]. apply lookup_insert_eq.
Qed.

Lemma rows_step p p' :
  push_step p p' →
  (∀ r, r ∈ rows p' → r ∈ rows p ∨ registered (seen p') r)
  ∧ (∀ k v, seen p !! k = Some v → seen p' !! k = Some v).
Proof.
  intros H. unfold rows. destruct p as [td phs ws en st cl co ap ca se].
  cases_of H; rewrite ?bind_app, ?bind_cons; simpl; repeat change (list_bind _ _ ?f ?x) with (x ≫= f);
    (split; [|by intros k v; first [done | eapply getOrCreate_keeps]]); intros r0;
    rewrite ?elem_of_app, ?elem_of_cons, ?elem_of_nil, ?elem_of_app; try tauto.
  intros [Hr|[Hr|[Hr|[->|Hr]]]]; try tauto. right.
  exists bucket, json, createFn. split; [done|by eapply getOrCreate_registers].
Qed.

Theorem rows_registered (l : items) p r : reachable l p → r ∈ rows p → registered (seen p) r.
Proof.
  intros Hr. revert r. revert p Hr.
  apply (reachable_ind' l (λ p, ∀ r, r ∈ rows p → registered (seen p) r)).
  - intros r []%not_elem_of_nil.
  - intros p p' IH H r Hr. destruct (rows_step p p' H) as [H1 H2].
    destruct (H1 r Hr) as [Hin|]; [|done]. destruct (IH r Hin) as (bucket & json & fn & Hw & Hs).
    exists bucket, json, fn. split; [done|by apply H2].
Qed.

(** ** A push without errors *)

(** Every resource is serialised, every record gets an id, every statement takes its rows. *)
Record healthy (l : items) : Prop := {
  healthy_serialisable : serialisable l;
  healthy_ids : ∀ j e, inl j ∈ l → work j ≠ FailJob e;
  healthy_append : ∀ h r, append h r = None;
}.

(** The jobs still to be worked on are those of the push, and nothing was cancelled. *)
Definition undisturbed (l : items) (p : pipe (Job := Job)) : Prop :=
  cancelled p = None ∧ ending p = [] ∧ (∀ e, ph p ≠ Returned e) ∧ (∀ x, x ∈ todo p → x ∈ l) ∧ (∀ j, Working j ∈ workers p → inl j ∈ l).

Lemma undisturbed_step l p p' : healthy l → undisturbed l p → push_step p p' → undisturbed l p'.
Proof.
  intros [Hser Hid Happ] (Hc & He & Hph & Ht & Hw) H. destruct p as [td phs ws en st cl co ap ca se].
  cases_of H; simplify_eq; unfold undisturbed; cbn [cancelled ending todo workers ph];
    try (split_and!; [done|done|done|set_solver|set_solver]).
  - exfalso. apply (Hser e). apply Ht. set_solver.
  - exfalso. apply (Hid j e); [apply Hw; set_solver|done].
  - exfalso. match goal with E : append _ _ = Some _ |- _ => by rewrite Happ in E end.
Qed.

Lemma healthy_undisturbed l p : healthy l → reachable l p → undisturbed l p.
Proof.
  intros Hh. revert p. apply reachable_ind'; [split_and!; try done; set_solver|]. intros. by eapply undisturbed_step.
Qed.

Lemma healthy_result l p :
  healthy l → reachable l p → (∀ e, ph p ≠ Returned e) ∧ ∀ e, ph p = Finished e → e = None.
Proof.
  intros Hh Hr. destruct (healthy_undisturbed l p Hh Hr) as (Hc & _ & Hph & _). split; [done|].
  destruct (reachable_invariants l p (healthy_serialisable _ Hh) Hr) as (_ & _ & _ & _ & Hres).
  intros e He. destruct (Hres e He) as [-> _]. done.
Qed.

Lemma consumer_progress l p r rest :
  healthy l → consuming p = true → stream p = r :: rest → ∃ p', push_step p p'.
Proof. intros Hh H1 H2. eexists. apply push_consumer. by eapply step_append; [..|apply Hh]. Qed.

Lemma worker_progress l p :
  healthy l → (0 < cap)%nat → undisturbed l p → consumer_settled p → closed p = false → workers p ≠ [] →
  ∃ p', push_step p p'.
Proof.
  intros Hh Hcap (Hc & He & Hph & Ht & Hw) Hcs Hop Hne. destruct (workers p) as [|[j|r] ws] eqn:Ew; [done| |].
  - destruct (work j) as [|e|b js fn] eqn:Ej.
    + eexists. apply push_worker. by eapply (step_skip _ _ _ []).
    + destruct (healthy_ids _ Hh j e); [apply Hw; set_solver|done].
    + destruct (getOrCreateFingerprint (seen p) b js fn) as [fp m] eqn:Eg.
      eexists. apply push_worker. by eapply (step_emit _ _ _ []).
  - destruct (decide (length (stream p) < cap)%nat) as [Hl|Hl].
    + eexists. apply push_worker. by eapply (step_send _ _ _ []).
    + destruct (stream p) as [|x st] eqn:Es; [simpl in Hl; lia|].
      eapply consumer_progress; [done| |done].
      destruct (consuming p) eqn:Eco; [done|]. destruct (Hcs Eco) as [?|[? _]]; [done|congruence].
Qed.

Lemma healthy_progress (l : items) p :
  healthy l → (0 < cap)%nat → reachable l p → finished p = true ∨ ∃ p', push_step p p'.
Proof.
  intros Hh Hcap Hr. destruct (reachable_invariants l p (healthy_serialisable _ Hh) Hr) as ([Hser Hcl] & _ & Hcs & _ & _).
  pose proof (healthy_undisturbed l p Hh Hr) as Hu. pose proof Hu as (Hc & He & Hph & _ & _).
  assert (ph p = Iterating ∨ workers p ≠ [] → closed p = false) as Hop.
  { intros H. destruct (closed p); [|done]. destruct (Hcl eq_refl). naive_solver. }
  destruct (ph p) eqn:Eph; [right|right|by destruct (Hph err)|left; unfold finished; by rewrite Eph].
  - destruct (todo p) as [|[j|e] rest] eqn:Et.
    + eexists. apply push_main. by eapply step_loop_ends.
    + destruct (decide (length (workers p) < cap)%nat) as [Hl|Hl].
      * eexists. apply push_main. by eapply step_spawn.
      * eapply worker_progress; eauto. intros E. rewrite E in Hl. simpl in Hl. lia.
    + destruct (Hser e). by left.
  - destruct (decide (workers p = [])) as [Ew|Ew]; [|eapply worker_progress; eauto].
    destruct (closed p) eqn:Ecl; [|eexists; apply push_closer; by eapply step_close].
    destruct (consuming p) eqn:Eco; [|eexists; apply push_main; by eapply step_group_wait].
    destruct (stream p) as [|r st] eqn:Es; [|by eapply consumer_progress].
    eexists. apply push_consumer. by eapply step_drained.
Qed.

(** C5. A push without errors that can go no further has ended without an error, with the records
    that are not too old appended once each, whatever the interleaving; and it gets there,
    since no run is endless ([push_terminates]). *)
Theorem push_succeeds (l : items) p :
  healthy l → (0 < cap)%nat → reachable l p → nf push_step p →
  ph p = Finished None ∧ (appended p).*1 ≡ₚ emitting l.
Proof.
  intros Hh Hcap Hr Hnf. destruct (healthy_progress l p Hh Hcap Hr) as [Hf|Hs]; [|by destruct Hnf].
  pose proof (healthy_serialisable _ Hh) as Hser.
  assert (ph p = Finished None) as Hp; [|by split; [|apply push_appends_all]].
  unfold finished in Hf. destruct (ph p) as [| | |e] eqn:E; try done.
  by rewrite (proj2 (healthy_result l p Hh Hr) e E).
Qed.

(** From every state a push without errors can be brought to its end. *)
Lemma push_can_finish (l : items) p :
  healthy l → (0 < cap)%nat → reachable l p → ∃ p', rtc push_step p p' ∧ reachable l p' ∧ ph p' = Finished None.
Proof.
  intros Hh Hcap. remember (fuel p) as n eqn:Hn. revert p Hn.
  induction (lt_wf n) as [n _ IH]. intros p -> Hr.
  destruct (decide (finished p = true)) as [Hf|Hf].
  - exists p. split_and!; [done|done|]. unfold finished in Hf. destruct (ph p) as [| | |e] eqn:E; try done.
    by rewrite (proj2 (healthy_result l p Hh Hr) e E).
  - destruct (healthy_progress l p Hh Hcap Hr) as [?|[p1 H1]]; [done|].
    destruct (IH (fuel p1) (push_step_fuel _ _ H1) p1 eq_refl) as (p' & Hp' & Hr' & Hph); [by eapply rtc_r|].
    exists p'. split_and!; [by eapply rtc_l|done|done].
Qed.

(** ** An error of the consumer *)

(** A state in the loop with [w] producers waiting to send and [s] records in the channel. *)
Definition at_loop (td : items) (w s : nat) (co : bool) (p : pipe (Job := Job)) : Prop :=
  ph p = Iterating ∧ todo p = td ∧ closed p = false ∧ consuming p = co ∧ appended p = [] ∧ ending p = []
  ∧ length (workers p) = w ∧ (∀ x, x ∈ workers p → ∃ r, x = Sending r) ∧ length (stream p) = s.

Lemma at_loop_spawn j td w s co p :
  emits j = true → (w < cap)%nat → at_loop (inl j :: td) w s co p →
  ∃ p', rtc push_step p p' ∧ at_loop td (S w) s co p'.
Proof.
  intros Hj Hw (H1 & H2 & H3 & H4 & H5 & H6 & H7 & H8 & H9). unfold emits in Hj.
  destruct (work j) as [| |b js fn] eqn:Ej; [done..|].
  destruct (getOrCreateFingerprint (seen p) b js fn) as [fp m] eqn:Eg.
  eexists. split.
  - eapply rtc_l; [eapply push_main, step_spawn; [done|done|lia]|].
    apply rtc_once. eapply push_worker, (step_emit _ _ _ (workers p) j []); [done|exact Ej|exact Eg].
  - unfold at_loop; simpl. split_and!; try done; [rewrite length_app; simpl; lia|].
    intros x. rewrite elem_of_app, list_elem_of_singleton. intros [?| ->]; [by apply H8|by eexists].
Qed.

Lemma at_loop_send td w s co p :
  (s < cap)%nat → at_loop td (S w) s co p → ∃ p', rtc push_step p p' ∧ at_loop td w (S s) co p'.
Proof.
  intros Hs (H1 & H2 & H3 & H4 & H5 & H6 & H7 & H8 & H9).
  destruct (workers p) as [|x ws] eqn:Ew; [done|]. destruct (H8 x) as [r ->]; [by left|].
  eexists. split.
  - apply rtc_once. eapply push_worker, (step_send _ _ _ [] r ws); [done|done|lia].
  - unfold at_loop; simpl. split_and!; try done; [simpl in H7; lia|intros y Hy; apply H8; by right|].
    rewrite length_app. simpl. lia.
Qed.

Lemma at_loop_fill n : ∀ js td s co p,
  length js = n → Forall (λ j, emits j = true) js → (s + n ≤ cap)%nat → (0 < cap)%nat →
  at_loop ((inl <$> js) ++ td) 0 s co p → ∃ p', rtc push_step p p' ∧ at_loop td 0 (s + n) co p'.
Proof.
  induction n as [|n IH]; intros js td s co p Hl Hf Hs Hcap Hp.
  - destruct js; [|done]. exists p. split; [done|]. by rewrite Nat.add_0_r.
  - destruct js as [|j js]; [done|]. apply Forall_cons in Hf as [Hj Hf]. simpl in *.
    destruct (at_loop_spawn j _ _ _ _ _ Hj Hcap Hp) as (p1 & R1 & H1).
    destruct (at_loop_send _ 0 s co p1 ltac:(lia) H1) as (p2 & R2 & H2).
    destruct (IH js td (S s) co p2 ltac:(lia) Hf ltac:(lia) Hcap H2) as (p3 & R3 & H3).
    exists p3. split; [by do 2 (etrans; [eassumption|])|]. by rewrite <- Nat.add_succ_comm.
Qed.

Lemma at_loop_load n : ∀ js td w s co p,
  length js = n → Forall (λ j, emits j = true) js → (w + n ≤ cap)%nat →
  at_loop ((inl <$> js) ++ td) w s co p → ∃ p', rtc push_step p p' ∧ at_loop td (w + n) s co p'.
Proof.
  induction n as [|n IH]; intros js td w s co p Hl Hf Hw Hp.
  - destruct js; [|done]. exists p. split; [done|]. by rewrite Nat.add_0_r.
  - destruct js as [|j js]; [done|]. apply Forall_cons in Hf as [Hj Hf]. simpl in *.
    destruct (at_loop_spawn j _ w s co p Hj ltac:(lia) Hp) as (p1 & R1 & H1).
    destruct (IH js td (S w) s co p1 ltac:(lia) Hf ltac:(lia) H1) as (p2 & R2 & H2).
    exists p2. split; [by etrans|]. by rewrite <- Nat.add_succ_comm.
Qed.

(** A consumer whose first row is refused leaves, when more than twice as many records follow
    as there are slots, a push that can neither go on nor end: every producer waits to send
    on a full channel nobody reads, so that the slots of the exporter's limiter are lost. *)
Theorem append_error_hangs j js :
  (0 < cap)%nat → length js = (2 * cap)%nat → Forall (λ j, emits j = true) (j :: js) →
  (∀ r, append [] r ≠ None) →
  ∃ p, reachable (inl <$> j :: js) p ∧ nf push_step p ∧ finished p = false ∧ length (workers p) = cap.
Proof.
  intros Hcap Hl Hf Happ. apply Forall_cons in Hf as [Hj Hf].
  assert (js = take cap js ++ drop cap js) as Ejs by (by rewrite take_drop).
  rewrite Ejs in Hf. apply Forall_app in Hf as [Hf1 Hf2].
  assert (at_loop (inl <$> j :: js : items) 0 0 true (start (inl <$> j :: js))) as H0
    by (split_and!; try done; intros x []%not_elem_of_nil).
  destruct (at_loop_spawn j _ 0 0 true _ Hj Hcap H0) as (p1 & R1 & H1).
  destruct (at_loop_send _ _ _ _ _ Hcap H1) as (p2 & R2 & H2).
  assert (∃ p3, rtc push_step p2 p3 ∧ at_loop (inl <$> js : items) 0 0 false p3) as (p3 & R3 & H3).
  { destruct H2 as (G1 & G2 & G3 & G4 & G5 & G6 & G7 & G8 & G9).
    destruct (stream p2) as [|r [|]] eqn:Es; [done| |done].
    destruct (append (appended p2) r) as [e|] eqn:Ea; [|rewrite G5 in Ea; by destruct (Happ r)].
    eexists. split; [apply rtc_once, push_consumer; by eapply step_append_fails|]. by split_and!. }
  rewrite Ejs, fmap_app in H3.
  destruct (at_loop_fill cap (take cap js) (inl <$> drop cap js : items) 0 false p3) as (p4 & R4 & H4);
    [rewrite length_take; lia|done|lia|done|done|].
  rewrite <- (app_nil_r (inl <$> drop cap js : items)) in H4.
  destruct (at_loop_load cap (drop cap js) [] 0 cap false p4) as (p5 & R5 & H5); [rewrite length_drop; lia|done|lia|done|].
  destruct H5 as (G1 & G2 & G3 & G4 & G5 & G6 & G7 & G8 & G9). simpl in G7.
  eexists. split; [|split].
  - unfold reachable. do 5 (etrans; [eassumption|]). apply rtc_once. by eapply push_main, step_loop_ends.
  - intros [p' H]. assert (∀ ws1 jw ws2, workers p5 = ws1 ++ Working jw :: ws2 → False) as Hno.
    { intros ws1 jw ws2 E. destruct (G8 (Working jw)) as [r Hr]; [rewrite E; set_solver|done]. }
    destruct H as [H|H|H|H]; inversion H; subst; simpl in *; try congruence; try (by eapply Hno); try lia.
    all: match goal with E : workers _ = [] |- _ => rewrite E in *; simpl in *; lia end.
  - done.
Qed.
End runs.

(** ** Witnesses *)

Section witnesses.
Let w_work (j : nat) : plan := Emit 0 "{}" "fp".
Let w_append (l : list (nat * string)) (r : nat * string) : option string := None.
Let w_refuse (l : list (nat * string)) (r : nat * string) : option string := Some "refused".
Lemma w_healthy : healthy w_work w_append [inl 7%nat].
Proof. split; [intros e H; apply list_elem_of_singleton in H; discriminate H|done|done]. Qed.

Lemma push_terminates_witness : (1 ≤ 5 * length (@nil (nat + string)) + 4)%nat.
Proof.
  eapply (push_terminates w_work w_append 1 []). apply nsteps_once, push_main, step_loop_ends; reflexivity.
Defined.
Lemma send_never_panics_witness : ¬ panics (start (Job := nat) [inl 7%nat]).
Proof.
  apply (send_never_panics w_work w_append 1 [inl 7%nat]); [apply w_healthy|apply rtc_refl].
Defined.
Lemma push_succeeds_witness :
  ∃ p, LogsPipeline.reachable w_work w_append 1 [inl 7%nat] p ∧ ph p = Finished None ∧ (appended p).*1 ≡ₚ [7%nat].
Proof.
  destruct (push_can_finish w_work w_append 1 [inl 7%nat] _ w_healthy ltac:(lia) (rtc_refl _ _)) as (p & _ & Hr & Hf).
  exists p. split; [exact Hr|].
  apply (push_succeeds w_work w_append 1 [inl 7%nat] p w_healthy ltac:(lia) Hr). by eapply finished_stuck; [apply w_healthy|..].
Defined.
(** One slot, three records, and a statement that refuses the first. *)
Lemma append_error_hangs_witness :
  ∃ p, LogsPipeline.reachable w_work w_refuse 1 (inl <$> [1%nat; 2%nat; 3%nat]) p
    ∧ nf (LogsPipeline.push_step w_work w_refuse 1) p ∧ finished p = false ∧ length (workers p) = 1%nat.
Proof.
  apply (append_error_hangs w_work w_refuse 1 1%nat [2%nat; 3%nat]); [lia|reflexivity| |discriminate].
  repeat (constructor; [reflexivity|]). constructor.
Defined.
(** A record whose resource is serialised, and a resource that is not. *)
Lemma marshal_error_panics_witness :
  ∃ p, LogsPipeline.reachable w_work w_append 1 [inl 7%nat; inr "json"] p ∧ panics p.
Proof. apply (marshal_error_panics w_work w_append 1 7%nat "json" 0 "{}" "fp"); [lia|reflexivity]. Defined.
End witnesses.
