(* ===== verification/LogsExporter.v ===== *)
(** * The logs exporter

    src/exporter/clickhouselogsexporter/exporter.go: the rows of a log record, the tables of
    attribute keys and values, and [pushToClickhouse], whose goroutines are [LogsPipeline]. *)
From S2P Require Import Prelude GoText Pdata Sampling Flatten Utils ClickHouse Fingerprint Keycheck LogsPipeline.

(** ** Log data ([plog]) *)

Section data.
Context `{PD : Pdata}.
Abbreviation Map := (gmap string Value).

Record LogRecord := {
  lr_Timestamp : Z; lr_ObservedTimestamp : Z; lr_TraceID : string; lr_SpanID : string; lr_Flags : Z;
  lr_SeverityText : string; lr_SeverityNumber : Z; lr_Body : Value; lr_Attributes : Map }.
Record ScopeLogs := { sl_Name : string; sl_Version : string; sl_Attributes : Map; sl_LogRecords : list LogRecord }.
Record ResourceLogs := { rl_Resource : Map; rl_ScopeLogs : list ScopeLogs }.
Definition Logs := list ResourceLogs.
End data.

Section exporter.
Context `{PD : Pdata} `{PT : !PdataText PD} `{PV : !PdataValues PD} `{FV : !Format Value} `{JS : JSON} `{UC : Unicode}
  `{TC : TTLCache}.
Abbreviation Map := (gmap string Value).

(** ** Attributes *)

Record attributeMap := {
  StringData : gmap string string; NumberData : gmap string float64; BoolData : gmap string bool }.
Definition no_attributes : attributeMap := {| StringData := ∅; NumberData := ∅; BoolData := ∅ |}.
Definition set_string (k v : string) (m : attributeMap) : attributeMap :=
  {| StringData := <[k := v]> (StringData m); NumberData := NumberData m; BoolData := BoolData m |}.
Definition set_number (k : string) (v : float64) (m : attributeMap) : attributeMap :=
  {| StringData := StringData m; NumberData := <[k := v]> (NumberData m); BoolData := BoolData m |}.
Definition set_bool (k : string) (v : bool) (m : attributeMap) : attributeMap :=
  {| StringData := StringData m; NumberData := NumberData m; BoolData := <[k := v]> (BoolData m) |}.

Definition add_attribute (forceStringValues : bool) (k : string) (v : Value) (response : attributeMap) : attributeMap :=
  if forceStringValues then set_string k (AsString v) response
  else
    match Type_of v with
    | ValueTypeInt => set_number k (float64_of_int (Int v)) response
    | ValueTypeDouble => set_number k (Double v) response
    | ValueTypeBool => set_bool k (Bool v) response
    | _ => set_string k (AsString v) response
    end.
Definition attributesToMap (attributes : Map) (forceStringValues : bool) : attributeMap :=
  map_fold (add_attribute forceStringValues) no_attributes attributes.

Definition getStringifiedBody (body : Value) : string :=
  if decide (Type_of body = ValueTypeBytes) then BytesAsRaw body else AsString body.

(** ** Rows *)

Record tag_row := {
  tr_unix_milli : Z; tr_key : string; tr_type : TagType; tr_data_type : TagDataType;
  tr_string : option string; tr_number : option float64 }.
Definition key_row : Type := string * TagDataType.

Record log_row := {
  ts_bucket_start : Z; resource_fingerprint : string; timestamp : Z; observed_timestamp : Z; lg_id : string;
  trace_id : string; span_id : string; trace_flags : Z; severity_text : string; severity_number : Z; lg_body : string;
  attributes_string : gmap string string; attributes_number : gmap string float64; attributes_bool : gmap string bool;
  resources_string : gmap string string; scope_name : string; scope_version : string; scope_string : gmap string string }.

(** The statements of a push with their rows so far, the cache of keys, and the answers. *)
Record push_statements := {
  tag_stmt : statement; keys_stmt : statement; rkeys_stmt : statement; logs_stmt : statement; resources_stmt : statement }.
Record push_rows := {
  tags : list tag_row; attribute_keys : list key_row; resource_keys : list key_row; logs : list log_row;
  keysCache : ttl_cache }.
Definition set_tags (t : list tag_row) (r : push_rows) : push_rows :=
  {| tags := t; attribute_keys := attribute_keys r; resource_keys := resource_keys r; logs := logs r; keysCache := keysCache r |}.
Definition set_keys (a b : list key_row) (c : ttl_cache) (r : push_rows) : push_rows :=
  {| tags := tags r; attribute_keys := a; resource_keys := b; logs := logs r; keysCache := c |}.
Definition set_logs (l : list log_row) (r : push_rows) : push_rows :=
  {| tags := tags r; attribute_keys := attribute_keys r; resource_keys := resource_keys r; logs := l; keysCache := keysCache r |}.

Section statements.
Context (sts : push_statements) (now : Z).

Definition addAttrsToAttributeKeysStatement (key : string) (tagType : TagType) (datatype : TagDataType) (r : push_rows)
  : push_rows :=
  if IsRandomKey key then r
  else
    let cacheKey := MakeKeyForAttributeKeys key tagType datatype in
    match ttl_Get (keysCache r) now cacheKey with
    | Some _ => r
    | None =>
        let cache := ttl_Set (keysCache r) now cacheKey true in
        match tagType with
        | TagTypeResource =>
            set_keys (attribute_keys r) (append_ignoring (rkeys_stmt sts) (resource_keys r) (key, datatype)) cache r
        | TagTypeAttribute =>
            set_keys (append_ignoring (keys_stmt sts) (attribute_keys r) (key, datatype)) (resource_keys r) cache r
        | _ => set_keys (attribute_keys r) (resource_keys r) cache r
        end
    end.

(** The current hour. *)
Definition unixMilli : Z := Z.quot now 3600000 * 3600000.

(** The body of the loops: the key, and the row unless the key has too many values. *)
Definition add_tag (tagType : TagType) (shouldSkipKeys : gset string) (key : string) (datatype : TagDataType)
    (too_long : bool) (s : option string) (n : option float64) (r : push_rows) : option string * push_rows :=
  if IsRandomKey key then (None, r)
  else
    let r := addAttrsToAttributeKeysStatement key tagType datatype r in
    if too_long then (None, r)
    else if decide (MakeKeyForAttributeKeys key tagType datatype ∈ shouldSkipKeys) then (None, r)
    else
      match append_err (tag_stmt sts) (length (tags r)) with
      | Some e => (Some e, r)
      | None =>
          (None, set_tags (tags r ++ [ {| tr_unix_milli := unixMilli; tr_key := key; tr_type := tagType;
                                          tr_data_type := datatype; tr_string := s; tr_number := n |} ]) r)
      end.

(** A loop over a map: it ends at the first error. *)
Fixpoint tag_loop {A} (prefix : string) (add : string → A → push_rows → option string * push_rows)
    (attrs : list (string * A)) (r : push_rows) : option string * push_rows :=
  match attrs with
  | [] => (None, r)
  | (k, v) :: rest =>
      match add k v r with
      | (Some e, r) => (Some (prefix +:+ e), r)
      | (None, r) => tag_loop prefix add rest r
      end
  end.

Definition addAttrsToTagStatement (tagType : TagType) (attrs : attributeMap) (shouldSkipKeys : gset string) (r : push_rows)
  : option string * push_rows :=
  match tag_loop "could not append string attribute to batch, err: "
          (λ k v, add_tag tagType shouldSkipKeys k TagDataTypeString (MaxAttributeValueLength <? len (bytes v)) (Some v) None)
          (map_to_list (StringData attrs)) r with
  | (Some e, r) => (Some e, r)
  | (None, r) =>
      match tag_loop "could not append number attribute to batch, err: "
              (λ k v, add_tag tagType shouldSkipKeys k TagDataTypeNumber false None (Some v))
              (map_to_list (NumberData attrs)) r with
      | (Some e, r) => (Some e, r)
      | (None, r) =>
          tag_loop "could not append bool attribute to batch, err: "
            (λ k (_ : bool), add_tag tagType shouldSkipKeys k TagDataTypeBool false None None)
            (map_to_list (BoolData attrs)) r
      end
  end.
End statements.

(** ** Records *)

(** A log record with its resource and scope; the clock and the answer of [ksuid] when its
    producer runs are arguments. *)
Record job := {
  j_resource : Map; j_resourcesMap : attributeMap; j_resourceJson : string;
  j_scope : ScopeLogs; j_scopeMap : attributeMap; j_record : LogRecord;
  j_now : Z; j_id : result string string }.

Definition job_ots (j : job) : Z :=
  if lr_ObservedTimestamp (j_record j) =? 0 then u64 (j_now j) else lr_ObservedTimestamp (j_record j).
Definition job_ts (j : job) : Z := if lr_Timestamp (j_record j) =? 0 then job_ots j else lr_Timestamp (j_record j).

Definition logsResourceCacheSeconds : Z := 1800.
Definition job_bucket (j : job) : Z := tsBucket (i64 (job_ts j / 1000000000)) logsResourceCacheSeconds.

(** The body of a producer, up to the send. *)
Definition produce (oldestAllowedTs : Z) (j : job) : plan :=
  if job_ts j <? oldestAllowedTs then Skip
  else
    match j_id j with
    | Err e => FailJob ("IdGenError:" +:+ e)
    | Ok _ => Emit (job_bucket j) (j_resourceJson j) (CalculateFingerprint (j_resource j) ResourceHierarchy)
    end.

Definition logFields (j : job) : attributeMap :=
  {| StringData := {[ "severity_text" := lr_SeverityText (j_record j) ]};
     NumberData := {[ "severity_number" := float64_of_int (lr_SeverityNumber (j_record j)) ]}; BoolData := ∅ |}.

Definition row_of (j : job) (fp : string) : log_row :=
  let attrsMap := attributesToMap (lr_Attributes (j_record j)) false in
  {| ts_bucket_start := u64 (job_bucket j); resource_fingerprint := fp; timestamp := job_ts j;
     observed_timestamp := job_ots j; lg_id := match j_id j with Ok id => id | Err _ => "" end;
     trace_id := TraceIDToHexOrEmptyString (lr_TraceID (j_record j));
     span_id := SpanIDToHexOrEmptyString (lr_SpanID (j_record j)); trace_flags := lr_Flags (j_record j);
     severity_text := lr_SeverityText (j_record j); severity_number := lr_SeverityNumber (j_record j) mod 256;
     lg_body := getStringifiedBody (lr_Body (j_record j));
     attributes_string := StringData attrsMap; attributes_number := NumberData attrsMap;
     attributes_bool := BoolData attrsMap; resources_string := StringData (j_resourcesMap j);
     scope_name := sl_Name (j_scope j); scope_version := sl_Version (j_scope j);
     scope_string := StringData (j_scopeMap j) |}.

(** The body of the consumer for one record. *)
Definition consume (sts : push_statements) (now : Z) (shouldSkipKeys : gset string) (rec : job * string) (r : push_rows)
  : option string * push_rows :=
  let '(j, fp) := rec in
  match addAttrsToTagStatement sts now TagTypeResource (j_resourcesMap j) shouldSkipKeys r with
  | (Some e, r) => (Some e, r)
  | (None, r) =>
      match addAttrsToTagStatement sts now TagTypeScope (j_scopeMap j) shouldSkipKeys r with
      | (Some e, r) => (Some e, r)
      | (None, r) =>
          match addAttrsToTagStatement sts now TagTypeAttribute (attributesToMap (lr_Attributes (j_record j)) false)
                  shouldSkipKeys r with
          | (Some e, r) => (Some e, r)
          | (None, r) =>
              let r := (addAttrsToTagStatement sts now TagTypeLogField (logFields j) shouldSkipKeys r).2 in
              match append_err (logs_stmt sts) (length (logs r)) with
              | Some e => (Some ("StatementAppendLogsV2:" +:+ e), r)
              | None => (None, set_logs (logs r ++ [row_of j fp]) r)
              end
          end
      end
  end.

(** The rows after a list of records, and what the statements answer to the next. *)
Definition consumed (sts : push_statements) (now : Z) (shouldSkipKeys : gset string) (c : ttl_cache) (l : list (job * string))
  : push_rows :=
  foldl (λ r rec, (consume sts now shouldSkipKeys rec r).2)
    {| tags := []; attribute_keys := []; resource_keys := []; logs := []; keysCache := c |} l.
Definition append_record (sts : push_statements) (now : Z) (shouldSkipKeys : gset string) (c : ttl_cache)
    (l : list (job * string)) (rec : job * string) : option string :=
  (consume sts now shouldSkipKeys rec (consumed sts now shouldSkipKeys c l)).1.

(** The loop of the producers: the records of a resource, or the error of its attributes. The
    [clocks] are those of the producers, in the order of the records. *)
Definition clock : Type := nat → Z * result string string.
Definition log_items (clocks : clock) (n : nat) (rl : ResourceLogs) : list (job + string) * nat :=
  let resourcesMap := attributesToMap (rl_Resource rl) true in
  match Marshal_strings (StringData resourcesMap) with
  | Err e => ([inr ("couldn't serialize log resource JSON: " +:+ e)], n)
  | Ok resourceJson =>
      let records := rl_ScopeLogs rl ≫= λ sl, (λ lr, (sl, lr)) <$> sl_LogRecords sl in
      (imap (λ i '(sl, lr), inl {| j_resource := rl_Resource rl; j_resourcesMap := resourcesMap; j_resourceJson := resourceJson;
                                   j_scope := sl; j_scopeMap := attributesToMap (sl_Attributes sl) true; j_record := lr;
                                   j_now := (clocks (n + i)%nat).1; j_id := (clocks (n + i)%nat).2 |}) records,
       (n + length records)%nat)
  end.
Fixpoint push_items (clocks : clock) (n : nat) (ld : Logs) : list (job + string) :=
  match ld with
  | [] => []
  | rl :: rest => let '(items, n) := log_items clocks n rl in items ++ push_items clocks n rest
  end.

(** ** After the goroutines *)

Definition resource_row : Type := string * string * Z.

(** The loop of [rangeAll]. *)
Fixpoint resource_loop (st : statement) (now : Z) (entries : list (Z * string * string)) (rows : list resource_row)
    (rfCache : ttl_cache) : option string * list resource_row * ttl_cache :=
  match entries with
  | [] => (None, rows, rfCache)
  | (bucketTs, labels, fp) :: rest =>
      let key := MakeKeyForRFCache bucketTs fp in
      match ttl_Get rfCache now key with
      | Some _ => resource_loop st now rest rows rfCache
      | None =>
          match append_err st (length rows) with
          | Some e => (Some e, rows, rfCache)
          | None => resource_loop st now rest (rows ++ [(labels, fp, bucketTs)]) (ttl_Set rfCache now key true)
          end
      end
  end.

(** What reached the tables. *)
Record written := {
  w_logs : list log_row; w_resources : list resource_row; w_attribute_keys : list key_row;
  w_resource_keys : list key_row; w_tags : list tag_row }.
Definition nothing : written :=
  {| w_logs := []; w_resources := []; w_attribute_keys := []; w_resource_keys := []; w_tags := [] |}.
Definition sent {R} (st : statement) (rows : list R) : list R := match send_err st with Some _ => [] | None => rows end.

(** The five statements are sent, whatever becomes of the others; any error is returned. *)
Definition send_all (sts : push_statements) (r : push_rows) (resources : list resource_row) : list string * written :=
  ((λ e, "StatementSend:" +:+ e) <$>
     (option_list (send_err (logs_stmt sts)) ++ option_list (send_err (resources_stmt sts))
      ++ option_list (send_err (keys_stmt sts)) ++ option_list (send_err (rkeys_stmt sts))
      ++ option_list (send_err (tag_stmt sts))),
   {| w_logs := sent (logs_stmt sts) (logs r); w_resources := sent (resources_stmt sts) resources;
      w_attribute_keys := sent (keys_stmt sts) (attribute_keys r); w_resource_keys := sent (rkeys_stmt sts) (resource_keys r);
      w_tags := sent (tag_stmt sts) (tags r) |}).

Record exporter_state := { e_closed : bool; e_keysCache : ttl_cache; e_rfCache : ttl_cache }.

(** The end of [pushToClickhouse] after [group.Wait] returned no error. *)
Definition finish_push (sts : push_statements) (now : Z) (rfCache : ttl_cache) (seen : resourcesSeenMap) (r : push_rows)
  : list string * written * ttl_cache :=
  match prepare_err (resources_stmt sts) with
  | Some e => (["couldn't PrepareBatch for inserting resource fingerprints :" +:+ e], nothing, rfCache)
  | None =>
      match resource_loop (resources_stmt sts) now ((λ '(k, fp), (k.1, k.2, fp)) <$> map_to_list seen) [] rfCache with
      | (Some e, _, rfCache) => (["error appending resources to batch: " +:+ e], nothing, rfCache)
      | (None, resources, rfCache) => (send_all sts r resources, rfCache)
      end
  end.

(** The statements prepared before the goroutines start. *)
Definition prepare_errors (sts : push_statements) : option string :=
  match prepare_err (tag_stmt sts), prepare_err (keys_stmt sts), prepare_err (rkeys_stmt sts), prepare_err (logs_stmt sts) with
  | Some e, _, _, _ => Some ("PrepareTagBatchV2:" +:+ e)
  | None, Some e, _, _ => Some ("PrepareAttributeKeysBatch:" +:+ e)
  | None, None, Some e, _ => Some ("PrepareResourceKeysBatch:" +:+ e)
  | None, None, None, Some e => Some ("PrepareBatchV2:" +:+ e)
  | None, None, None, None => None
  end.

(** The cache of keys after a list of records, and after the record that was refused. *)
Definition cache_after (sts : push_statements) (now : Z) (shouldSkipKeys : gset string) (c : ttl_cache)
    (l : list (job * string)) (refused : option (job * string)) : ttl_cache :=
  let r := consumed sts now shouldSkipKeys c l in
  match refused with Some rec => keysCache (consume sts now shouldSkipKeys rec r).2 | None => keysCache r end.

(** What a push needs: the answers, the clock, the keys with too many values, the slots. *)
Record push_env := {
  pe_sts : push_statements; pe_now : Z; pe_oldest : Z; pe_skip : gset string; pe_cap : nat; pe_clocks : clock }.

(** [pushToClickhouse]: the errors it may return, what was written, and the state after. It
    returns after some run of the goroutines that ended; a run that does not end gives no
    result. *)
Inductive pushToClickhouse (env : push_env) (e : exporter_state) (ld : Logs)
  : list string → written → exporter_state → Prop :=
| push_closed :
    e_closed e = true → pushToClickhouse env e ld ["shutdown has been called"] nothing e
| push_not_prepared err :
    e_closed e = false → prepare_errors (pe_sts env) = Some err → pushToClickhouse env e ld [err] nothing e
| push_group_failed p err refused :
    e_closed e = false → prepare_errors (pe_sts env) = None →
    reachable (produce (pe_oldest env)) (append_record (pe_sts env) (pe_now env) (pe_skip env) (e_keysCache e))
      (pe_cap env) (push_items (pe_clocks env) 0 ld) p →
    ph p = Finished (Some err) ∨ ph p = Returned err →
    pushToClickhouse env e ld [err] nothing
      {| e_closed := false; e_rfCache := e_rfCache e;
         e_keysCache := cache_after (pe_sts env) (pe_now env) (pe_skip env) (e_keysCache e) (appended p) refused |}
| push_finished p errs w rfCache :
    e_closed e = false → prepare_errors (pe_sts env) = None →
    reachable (produce (pe_oldest env)) (append_record (pe_sts env) (pe_now env) (pe_skip env) (e_keysCache e))
      (pe_cap env) (push_items (pe_clocks env) 0 ld) p →
    ph p = Finished None →
    finish_push (pe_sts env) (pe_now env) (e_rfCache e) (seen p)
      (consumed (pe_sts env) (pe_now env) (pe_skip env) (e_keysCache e) (appended p)) = (errs, w, rfCache) →
    pushToClickhouse env e ld errs w
      {| e_closed := false; e_rfCache := rfCache;
         e_keysCache := cache_after (pe_sts env) (pe_now env) (pe_skip env) (e_keysCache e) (appended p) None |}.

(** ** Keys with too many values, and the lifecycle *)

(** A row of the query; the columns for the type are strings. *)
Record shouldSkipKey := { TagKey : string; sk_TagType : string; sk_TagDataType : string; StringCount : Z; NumberCount : Z }.
(** The keys of the map that replaces the one before; a query that fails leaves no key. *)
Definition doFetchShouldSkipKeys (Select : result string (list shouldSkipKey)) : gset string :=
  match Select with
  | Ok keys => list_to_set ((λ key, TagKey key +:+ ":" +:+ sk_TagType key +:+ ":" +:+ sk_TagDataType key) <$> keys)
  | Err _ => ∅
  end.

(** [Start] fetches the keys at once, a tick of the timer fetches them again while the channel
    is open; to close it a second time panics. *)
Inductive lifecycle := NotStarted | Running (skip : gset string) | ShutDown.
Definition Start (Select : result string (list shouldSkipKey)) (l : lifecycle) : lifecycle :=
  Running (doFetchShouldSkipKeys Select).
Definition keys_tick (Select : result string (list shouldSkipKey)) (l : lifecycle) : lifecycle :=
  match l with Running _ => Running (doFetchShouldSkipKeys Select) | _ => l end.
Definition Shutdown (l : lifecycle) : option lifecycle :=
  match l with ShutDown => None | _ => Some ShutDown end.
(** What a push finds: the state of the channel, and the keys. *)
Definition lc_closed (l : lifecycle) : bool := match l with ShutDown => true | _ => false end.

(** [pushLogsData]: the first error that arrives is returned, unless ClickHouse says that the
    batch has too many partitions. *)
Definition strings_Contains (s sub : string) : bool :=
  match Strings.String.index 0 sub s with Some _ => true | None => false end.
Definition push_result (err : string) : option string := if strings_Contains err "code: 252" then None else Some err.
Inductive pushLogsData (env : push_env) (e : exporter_state) (ld : Logs) : option string → written → exporter_state → Prop :=
| logs_pushed w e' : pushToClickhouse env e ld [] w e' → pushLogsData env e ld None w e'
| logs_failed errs err w e' :
    pushToClickhouse env e ld errs w e' → err ∈ errs → pushLogsData env e ld (push_result err) w e'.
End exporter.
