(* ===== verification/LogsExporterProps.v ===== *)
(** * The logs exporter's correctness

    The columns of a record, the rows of the tables of keys and values, the referential
    integrity of a push, and what a failed statement leaves behind. *)
From S2P Require Import Prelude GoText Pdata Sampling Flatten Utils ClickHouse Fingerprint Keycheck.
From S2P Require Import LogsPipeline LogsPipelineProps LogsExporter.

Section props.
Context `{PD : Pdata} `{PT : !PdataText PD} `{PV : !PdataValues PD} `{FV : !Format Value} `{JS : JSON} `{UC : Unicode}
  `{TC : TTLCache}.

(** ** Attributes *)

(** Each attribute is in the map of its type and in no other: nothing is lost, and a lookup in
    the column of the type finds the value. *)
Theorem attributesToMap_spec (attributes : gmap string Value) k :
  let m := attributesToMap attributes false in
  match attributes !! k with
  | None => StringData m !! k = None ∧ NumberData m !! k = None ∧ BoolData m !! k = None
  | Some v =>
      match Type_of v with
      | ValueTypeInt => NumberData m !! k = Some (float64_of_int (Int v)) ∧ StringData m !! k = None ∧ BoolData m !! k = None
      | ValueTypeDouble => NumberData m !! k = Some (Double v) ∧ StringData m !! k = None ∧ BoolData m !! k = None
      | ValueTypeBool => BoolData m !! k = Some (Bool v) ∧ StringData m !! k = None ∧ NumberData m !! k = None
      | _ => StringData m !! k = Some (AsString v) ∧ NumberData m !! k = None ∧ BoolData m !! k = None
      end
  end.
Proof.
  unfold attributesToMap. simpl. revert k. apply (map_fold_weak_ind (λ m attributes, ∀ k,
    match attributes !! k with
    | None => StringData m !! k = None ∧ NumberData m !! k = None ∧ BoolData m !! k = None
    | Some v =>
        match Type_of v with
        | ValueTypeInt => NumberData m !! k = Some (float64_of_int (Int v)) ∧ StringData m !! k = None ∧ BoolData m !! k = None
        | ValueTypeDouble => NumberData m !! k = Some (Double v) ∧ StringData m !! k = None ∧ BoolData m !! k = None
        | ValueTypeBool => BoolData m !! k = Some (Bool v) ∧ StringData m !! k = None ∧ NumberData m !! k = None
        | _ => StringData m !! k = Some (AsString v) ∧ NumberData m !! k = None ∧ BoolData m !! k = None
        end
    end)).
  - intros k. by rewrite !lookup_empty.
  - intros i v m r Hi IH k. destruct (decide (k = i)) as [->|Hk].
    + rewrite lookup_insert_eq. specialize (IH i). rewrite Hi in IH. destruct IH as (H1 & H2 & H3).
      unfold add_attribute. destruct (Type_of v); simpl; by rewrite lookup_insert_eq.
    + rewrite lookup_insert_ne by done. specialize (IH k).
      unfold add_attribute. destruct (Type_of v); simpl; by rewrite lookup_insert_ne by done.
Qed.

Lemma attributesToMap_forced (attributes : gmap string Value) :
  attributesToMap attributes true = {| StringData := AsString <$> attributes; NumberData := ∅; BoolData := ∅ |}.
Proof.
  unfold attributesToMap. apply (map_fold_weak_ind (λ m attributes,
    m = {| StringData := AsString <$> attributes; NumberData := ∅; BoolData := ∅ |})).
  - by rewrite fmap_empty.
  - intros k v m r _ ->. unfold add_attribute, set_string; simpl. by rewrite fmap_insert.
Qed.

(** ** The table of attribute values *)

Section tags.
Context (sts : push_statements) (now : Z) (skip : gset string).

(** The rows of a record's attributes, without the statements. *)
Definition tag_of (tagType : TagType) (d : TagDataType) (k : string) (s : option string) (n : option float64) : tag_row :=
  {| tr_unix_milli := unixMilli now; tr_key := k; tr_type := tagType; tr_data_type := d; tr_string := s; tr_number := n |}.
Definition listed (tagType : TagType) (d : TagDataType) (k : string) : bool :=
  negb (IsRandomKey k) && negb (bool_decide (MakeKeyForAttributeKeys k tagType d ∈ skip)).
Definition string_tags (tagType : TagType) (l : list (string * string)) : list tag_row :=
  l ≫= λ '(k, v), if listed tagType TagDataTypeString k && negb (MaxAttributeValueLength <? len (bytes v))
                  then [tag_of tagType TagDataTypeString k (Some v) None] else [].
Definition number_tags (tagType : TagType) (l : list (string * float64)) : list tag_row :=
  l ≫= λ '(k, v), if listed tagType TagDataTypeNumber k then [tag_of tagType TagDataTypeNumber k None (Some v)] else [].
Definition bool_tags (tagType : TagType) (l : list (string * bool)) : list tag_row :=
  l ≫= λ '(k, _), if listed tagType TagDataTypeBool k then [tag_of tagType TagDataTypeBool k None None] else [].
Definition attribute_tags (tagType : TagType) (m : attributeMap) : list tag_row :=
  string_tags tagType (map_to_list (StringData m)) ++ number_tags tagType (map_to_list (NumberData m))
  ++ bool_tags tagType (map_to_list (BoolData m)).

Lemma keys_statement_tags k t d r : tags (addAttrsToAttributeKeysStatement sts now k t d r) = tags r
  ∧ logs (addAttrsToAttributeKeysStatement sts now k t d r) = logs r.
Proof.
  unfold addAttrsToAttributeKeysStatement. destruct (IsRandomKey k); [done|]. destruct (ttl_Get _ _ _); [done|]. by destruct t.
Qed.

Hypothesis Hok : ∀ n, append_err (tag_stmt sts) n = None.

Lemma add_tag_rows t k d long s n r :
  ∃ r', add_tag sts now t skip k d long s n r = (None, r') ∧ logs r' = logs r
    ∧ tags r' = tags r ++ (if listed t d k && negb long then [tag_of t d k s n] else []).
Proof.
  unfold add_tag, listed. destruct (IsRandomKey k); simpl; [exists r; by rewrite app_nil_r|].
  destruct (keys_statement_tags k t d r) as [Ht Hl].
  destruct long; simpl; [eexists; split; [done|]; by rewrite andb_false_r, Ht, Hl, app_nil_r|].
  rewrite andb_true_r. destruct (decide _) as [Hin|Hin].
  - eexists. split; [done|]. rewrite bool_decide_true by done. simpl. by rewrite Ht, Hl, app_nil_r.
  - rewrite Hok. eexists. split; [done|]. rewrite bool_decide_false by done. simpl. by rewrite Ht, Hl.
Qed.

Lemma tag_loop_rows {A} prefix (add : string → A → push_rows → option string * push_rows) (out : string → A → list tag_row) l :
  (∀ k v r, ∃ r', add k v r = (None, r') ∧ logs r' = logs r ∧ tags r' = tags r ++ out k v) →
  ∀ r, ∃ r', tag_loop prefix add l r = (None, r') ∧ logs r' = logs r ∧ tags r' = tags r ++ (l ≫= λ '(k, v), out k v).
Proof.
  intros Ha. induction l as [|[k v] l IH]; intros r; [exists r; by rewrite app_nil_r|].
  destruct (Ha k v r) as (r1 & E1 & L1 & T1). destruct (IH r1) as (r2 & E2 & L2 & T2).
  exists r2. rewrite bind_cons. simpl. rewrite E1. split; [done|]. by rewrite L2, L1, T2, T1, app_assoc.
Qed.

(** A row of the value table for every attribute whose key is neither random nor has too many
    values, except strings above 256 bytes; the error is the statement's own. *)
Theorem addAttrsToTagStatement_rows tagType m r :
  ∃ r', addAttrsToTagStatement sts now tagType m skip r = (None, r')
    ∧ logs r' = logs r ∧ tags r' = tags r ++ attribute_tags tagType m.
Proof.
  unfold addAttrsToTagStatement, attribute_tags.
  edestruct (tag_loop_rows (A := string)) as (r1 & -> & L1 & T1); [intros k v r'; apply add_tag_rows|].
  edestruct (tag_loop_rows (A := float64)) as (r2 & -> & L2 & T2); [intros k v r'; apply add_tag_rows|].
  edestruct (tag_loop_rows (A := bool)) as (r3 & -> & L3 & T3); [intros k v r'; apply add_tag_rows|].
  exists r3. split; [done|]. split; [by rewrite L3, L2|]. rewrite T3, T2, T1, <- !app_assoc.
  f_equal. unfold string_tags, number_tags, bool_tags. f_equal.
  f_equal; apply list_bind_ext; try done; intros [k v]; by rewrite andb_true_r.
Qed.
End tags.

(** ** A push *)

(** Every statement is prepared, takes its rows and is sent. *)
Definition works (st : statement) : Prop := accepts st ∧ send_err st = None.
Record working (sts : push_statements) : Prop := {
  works_tags : works (tag_stmt sts); works_keys : works (keys_stmt sts); works_rkeys : works (rkeys_stmt sts);
  works_logs : works (logs_stmt sts); works_resources : works (resources_stmt sts) }.

Lemma consume_works sts now skip j fp r :
  working sts →
  ∃ r', consume sts now skip (j, fp) r = (None, r') ∧ logs r' = logs r ++ [row_of j fp]
    ∧ tags r' = tags r ++ attribute_tags now skip TagTypeResource (j_resourcesMap j)
        ++ attribute_tags now skip TagTypeScope (j_scopeMap j)
        ++ attribute_tags now skip TagTypeAttribute (attributesToMap (lr_Attributes (j_record j)) false)
        ++ attribute_tags now skip TagTypeLogField (logFields j).
Proof.
  intros Hw. pose proof (proj2 (proj1 (works_tags _ Hw))) as Ht. unfold consume.
  destruct (addAttrsToTagStatement_rows sts now skip Ht TagTypeResource (j_resourcesMap j) r) as (r1 & -> & L1 & T1).
  destruct (addAttrsToTagStatement_rows sts now skip Ht TagTypeScope (j_scopeMap j) r1) as (r2 & -> & L2 & T2).
  destruct (addAttrsToTagStatement_rows sts now skip Ht TagTypeAttribute
    (attributesToMap (lr_Attributes (j_record j)) false) r2) as (r3 & -> & L3 & T3).
  destruct (addAttrsToTagStatement_rows sts now skip Ht TagTypeLogField (logFields j) r3) as (r4 & -> & L4 & T4).
  simpl. rewrite (proj2 (proj1 (works_logs _ Hw))). eexists. split; [done|]. simpl.
  split; [by rewrite L4, L3, L2, L1|]. by rewrite T4, T3, T2, T1, <- !app_assoc.
Qed.

Lemma append_record_works sts now skip c l rec : working sts → append_record sts now skip c l rec = None.
Proof. intros Hw. unfold append_record. destruct rec as [j fp]. by destruct (consume_works sts now skip j fp (consumed sts now skip c l) Hw) as (r' & -> & _). Qed.

Lemma consumed_logs sts now skip c l :
  working sts → logs (consumed sts now skip c l) = (λ rec, row_of rec.1 rec.2) <$> l.
Proof.
  intros Hw. unfold consumed.
  assert (∀ r, logs (foldl (λ r rec, (consume sts now skip rec r).2) r l) = logs r ++ ((λ rec, row_of rec.1 rec.2) <$> l)) as H.
  { induction l as [|[j fp] l IH]; intros r; [by rewrite app_nil_r|].
    rewrite fmap_cons. cbn [foldl]. rewrite IH. destruct (consume_works sts now skip j fp r Hw) as (r' & -> & L & _).
    cbn [snd fst]. by rewrite L, <- app_assoc. }
  by rewrite H.
Qed.

(** The items of a push whose resources can be serialised are its records, in order. *)
Definition all_records (ld : Logs) : list LogRecord := ld ≫= λ rl, rl_ScopeLogs rl ≫= sl_LogRecords.
Lemma push_items_records clocks ld : ∀ n,
  (∀ rl, rl ∈ ld → is_ok (Marshal_strings (StringData (attributesToMap (rl_Resource rl) true)))) →
  ∃ jobs, push_items clocks n ld = inl <$> jobs ∧ j_record <$> jobs = all_records ld
    ∧ ∀ j, j ∈ jobs → ∃ i, j_id j = (clocks i).2.
Proof.
  induction ld as [|rl ld IH]; intros n Hm; [exists []; split_and!; [done|done|set_solver]|].
  simpl. unfold log_items. pose proof (Hm rl ltac:(set_solver)) as Hrl.
  destruct (Marshal_strings _) as [json|]; [|done].
  destruct (IH (n + length (rl_ScopeLogs rl ≫= λ sl, (λ lr, (sl, lr)) <$> sl_LogRecords sl))%nat) as (jobs & E & Er & Ei);
    [set_solver|].
  eexists (imap (λ i (x : ScopeLogs * LogRecord), {| j_resource := rl_Resource rl; j_resourcesMap := attributesToMap (rl_Resource rl) true;
     j_resourceJson := json; j_scope := x.1; j_scopeMap := attributesToMap (sl_Attributes x.1) true; j_record := x.2;
     j_now := (clocks (n + i)%nat).1; j_id := (clocks (n + i)%nat).2 |}) _ ++ jobs).
  rewrite E, !fmap_app. split_and!.
  - f_equal. rewrite fmap_imap. apply imap_ext. by intros i [sl lr].
  - unfold all_records. f_equal; [|exact Er]. rewrite fmap_imap.
    erewrite (imap_ext _ (const snd)) by done. rewrite imap_const.
    generalize (rl_ScopeLogs rl). clear. intros l. induction l as [|sl l IHl]; [done|]. rewrite !bind_cons, fmap_app, IHl.
    rewrite <- list_fmap_compose. f_equal. apply list_fmap_id.
  - intros j [Hj|Hj]%elem_of_app; [|by apply Ei]. apply elem_of_lookup_imap in Hj as (i & x & -> & _). by eexists.
Qed.

Lemma resource_loop_covers `{!TTLCacheSound TC} st now entries : ∀ (rows0 : list resource_row) rf0 (rows : list resource_row) rf,
  (∀ n, append_err st n = None) →
  (∀ b fp, covered now rf rows b fp → covered now rf0 rows0 b fp) →
  ∃ rows' rf', resource_loop st now entries rows rf = (None, rows ++ rows', rf')
    ∧ ∀ b l fp, (b, l, fp) ∈ entries → covered now rf0 (rows0 ++ rows') b fp.
Proof.
  induction entries as [|[[b l] fp] entries IH]; intros rows0 rf0 rows rf Hok Hc.
  - exists [], rf. split; [by rewrite app_nil_r|]. set_solver.
  - simpl. destruct (ttl_Get rf now (MakeKeyForRFCache b fp)) as [v|] eqn:Eg.
    + destruct (IH rows0 rf0 rows rf Hok Hc) as (rows' & rf' & -> & Hall). exists rows', rf'. split; [done|].
      intros b' l' fp' [[= -> -> ->]|Hin]%elem_of_cons; [|by eapply Hall].
      destruct (Hc b fp) as [Hs|[lab Hs]]; [left; by rewrite Eg|by left|right; exists lab; set_solver].
    + rewrite Hok. destruct (IH (rows0 ++ [(l, fp, b)]) rf0 (rows ++ [(l, fp, b)]) (ttl_Set rf now (MakeKeyForRFCache b fp) true) Hok)
        as (rows' & rf' & -> & Hall).
      { by apply covered_extend. }
      exists ((l, fp, b) :: rows'), rf'. rewrite <- app_assoc. split; [done|].
      intros b' l' fp' [[= -> -> ->]|Hin]%elem_of_cons; [right; exists l; set_solver|].
      rewrite cons_middle, app_assoc. by eapply Hall.
Qed.

(** Its cache stays one that tells only of rows of the table. *)
Lemma resource_loop_true `{!TTLCacheSound TC} st now table entries : ∀ rows rf rows' rf',
  cache_true rf (table ++ rows) → resource_loop st now entries rows rf = (None, rows', rf') → cache_true rf' (table ++ rows').
Proof.
  induction entries as [|[[b l] fp] entries IH]; intros rows rf rows' rf' Hc; simpl; [by intros [= <- <-]|].
  destruct (ttl_Get rf now _); [by apply IH|]. destruct (append_err st _); [done|]. apply IH.
  rewrite app_assoc. by apply cache_true_extend.
Qed.

(** What a push is given when nothing fails. *)
Record good_env (env : push_env) (e : exporter_state) (ld : Logs) : Prop := {
  good_open : e_closed e = false;
  good_cap : (0 < pe_cap env)%nat;
  good_statements : working (pe_sts env);
  good_resources : ∀ rl, rl ∈ ld → is_ok (Marshal_strings (StringData (attributesToMap (rl_Resource rl) true)));
  good_ids : ∀ i, is_ok (pe_clocks env i).2;
}.

(** The records that are not too old. *)
Definition in_window (env : push_env) (j : job) : bool := negb (job_ts j <? pe_oldest env).

Section good.
Context (env : push_env) (e : exporter_state) (ld : Logs) (Hgood : good_env env e ld) `{!TTLCacheSound TC}.
Abbreviation the_work := (produce (pe_oldest env)).
Abbreviation the_append := (append_record (pe_sts env) (pe_now env) (pe_skip env) (e_keysCache e)).

Lemma good_jobs :
  ∃ jobs, push_items (pe_clocks env) 0 ld = inl <$> jobs ∧ j_record <$> jobs = all_records ld ∧ ∀ j, j ∈ jobs → is_ok (j_id j).
Proof.
  destruct (push_items_records (pe_clocks env) ld 0 (good_resources _ _ _ Hgood)) as (jobs & E & Er & Ei).
  exists jobs. split_and!; [done..|]. intros j Hj. destruct (Ei j Hj) as [i ->]. apply (good_ids _ _ _ Hgood).
Qed.

Lemma good_healthy : healthy the_work the_append (push_items (pe_clocks env) 0 ld).
Proof.
  destruct good_jobs as (jobs & -> & _ & Hid). split.
  - intros x (j & Hj & _)%list_elem_of_fmap. done.
  - intros j x (j' & [= <-] & Hj)%list_elem_of_fmap. unfold produce.
    destruct (job_ts j <? _); [done|]. specialize (Hid j Hj). by destruct (j_id j).
  - intros h r. apply append_record_works, Hgood.
Qed.

Lemma good_emitting jobs :
  (∀ j, j ∈ jobs → is_ok (j_id j)) → emitting the_work (inl <$> jobs) = filter (λ j, in_window env j = true) jobs.
Proof.
  induction jobs as [|j jobs IH]; intros Hid; [done|]. rewrite fmap_cons, filter_cons. unfold emitting in *.
  rewrite bind_cons, IH by set_solver. unfold emits, produce, in_window.
  pose proof (Hid j ltac:(set_solver)) as Hj. destruct (job_ts j <? _); simpl; [done|]. by destruct (j_id j).
Qed.

Lemma good_finish p :
  reachable the_work the_append (pe_cap env) (push_items (pe_clocks env) 0 ld) p → ph p = Finished None →
  ∃ w rf, finish_push (pe_sts env) (pe_now env) (e_rfCache e) (seen p)
            (consumed (pe_sts env) (pe_now env) (pe_skip env) (e_keysCache e) (appended p)) = ([], w, rf)
    ∧ w_logs w = (λ rec, row_of rec.1 rec.2) <$> appended p
    ∧ (∀ j fp, (j, fp) ∈ appended p → covered (pe_now env) (e_rfCache e) (w_resources w) (job_bucket j) fp)
    ∧ ∀ table, cache_true (e_rfCache e) table → cache_true rf (table ++ w_resources w).
Proof.
  intros Hr Hp. pose proof (good_statements _ _ _ Hgood) as Hw. destruct (works_resources _ Hw) as [[Hpr Hap] Hse].
  unfold finish_push. rewrite Hpr.
  destruct (resource_loop_covers (resources_stmt (pe_sts env)) (pe_now env)
    ((λ '(k, fp), (k.1, k.2, fp)) <$> map_to_list (seen p)) [] (e_rfCache e) [] (e_rfCache e) Hap (λ _ _ H, H))
    as (resources & rf & Eloop & Hcov). rewrite Eloop.
  unfold send_all. rewrite Hse, (proj2 (works_logs _ Hw)), (proj2 (works_keys _ Hw)), (proj2 (works_rkeys _ Hw)),
    (proj2 (works_tags _ Hw)). simpl.
  eexists _, rf. split; [done|]. simpl. unfold sent. rewrite Hse, (proj2 (works_logs _ Hw)).
  split; [by apply consumed_logs|]. split; [|intros table Ht; eapply resource_loop_true, Eloop; by rewrite app_nil_r].
  intros j fp Hin.
  destruct (rows_registered the_work the_append (pe_cap env) _ p (j, fp) Hr) as (b & js & fn & Hwork & Hseen).
  { unfold LogsPipelineProps.rows. set_solver. }
  simpl in Hwork, Hseen. assert (job_bucket j = b) as ->.
  { unfold produce in Hwork. destruct (job_ts j <? _); [done|]. destruct (j_id j); [by injection Hwork|done]. }
  apply (Hcov b js fp). apply list_elem_of_fmap. exists ((b, js), fp). split; [done|]. by apply elem_of_map_to_list.
Qed.
End good.

(** C4. A push in which nothing fails can end, and however it ends it returns no error and has
    written one row for each record of the window and nothing else, in some order. Each row has
    a fingerprint for its bucket that the push wrote to the table of resources or found in the
    cache; when the cache told only of rows that the table has, the table has every one of these
    fingerprints after the push, and the cache still tells only of rows of the table. *)
Theorem push_writes_window `{!TTLCacheSound TC} env e ld :
  good_env env e ld →
  (∃ errs w e', pushToClickhouse env e ld errs w e')
  ∧ ∀ errs w e', pushToClickhouse env e ld errs w e' → errs = [] ∧
      ∃ jobs rows, j_record <$> jobs = all_records ld ∧ rows.*1 ≡ₚ filter (λ j, in_window env j = true) jobs
        ∧ w_logs w = (λ rec, row_of rec.1 rec.2) <$> rows
        ∧ (∀ j fp, (j, fp) ∈ rows → covered (pe_now env) (e_rfCache e) (w_resources w) (job_bucket j) fp)
        ∧ ∀ table, cache_true (e_rfCache e) table →
            (∀ j fp, (j, fp) ∈ rows → ∃ labels, (labels, fp, job_bucket j) ∈ table ++ w_resources w)
            ∧ cache_true (e_rfCache e') (table ++ w_resources w).
Proof.
  intros Hg. pose proof (good_statements _ _ _ Hg) as Hw. pose proof (good_healthy env e ld Hg) as Hh.
  assert (prepare_errors (pe_sts env) = None) as Hprep.
  { unfold prepare_errors. by rewrite (proj1 (proj1 (works_tags _ Hw))), (proj1 (proj1 (works_keys _ Hw))),
      (proj1 (proj1 (works_rkeys _ Hw))), (proj1 (proj1 (works_logs _ Hw))). }
  split.
  - destruct (push_can_finish _ _ _ _ _ Hh (good_cap _ _ _ Hg) (rtc_refl _ _)) as (p & _ & Hr & Hp).
    destruct (good_finish env e ld Hg p Hr Hp) as (w & rf & Hf & _).
    do 3 eexists. by eapply push_finished; [apply Hg|..].
  - intros errs w e' H. destruct H as [Hc|err Hc Hp|p err refused Hc Hp Hr Hph|p errs w rf Hc Hp Hr Hph Hf].
    + by rewrite (good_open _ _ _ Hg) in Hc.
    + congruence.
    + destruct (healthy_result _ _ _ _ p Hh Hr) as [Hret Hfin]. destruct Hph as [Hph|Hph]; [by apply Hfin in Hph|by destruct (Hret err)].
    + destruct (good_finish env e ld Hg p Hr Hph) as (w' & rf' & Hf' & Hl & Hc' & Ht). rewrite Hf' in Hf.
      simplify_eq. split; [done|]. destruct (good_jobs env e ld Hg) as (jobs & E & Er & Hid).
      exists jobs, (appended p). split_and!; [done| |done|done|].
      2:{ intros table Htab. split; [|by apply Ht]. intros j fp Hin. by eapply covered_in_table, Hc'. }
      rewrite (push_appends_all _ _ _ _ p (healthy_serialisable _ _ _ Hh) Hr Hph), E. by rewrite (good_emitting env e ld Hg jobs Hid).
Qed.

(** ** A failed statement *)

Lemma resource_loop_caches `{!TTLCacheLaws TC ttl} st now t' entries :
  now ≤ t' < now + ttl → (∀ n, append_err st n = None) → ∀ rows rf,
  (∀ b l fp, (b, l, fp) ∈ entries →
     ttl_Get rf now (MakeKeyForRFCache b fp) = None ∨ is_Some (ttl_Get rf t' (MakeKeyForRFCache b fp))) →
  ∃ rows' rf', resource_loop st now entries rows rf = (None, rows', rf')
    ∧ (∀ k, is_Some (ttl_Get rf t' k) → is_Some (ttl_Get rf' t' k))
    ∧ ∀ b l fp, (b, l, fp) ∈ entries → is_Some (ttl_Get rf' t' (MakeKeyForRFCache b fp)).
Proof.
  intros Ht Hok. induction entries as [|[[b l] fp] entries IH]; intros rows rf H.
  { exists rows, rf. split; [done|]. split; [done|set_solver]. }
  simpl. destruct (ttl_Get rf now (MakeKeyForRFCache b fp)) as [v|] eqn:Eg.
  - destruct (IH rows rf) as (rows' & rf' & -> & Hk & Hall); [intros b' l' fp' Hin; apply (H b' l' fp'); set_solver|].
    exists rows', rf'. split_and!; [done|done|]. intros b' l' fp' [[= -> -> ->]|Hin]%elem_of_cons; [|by eapply Hall].
    apply Hk. destruct (H b l fp ltac:(set_solver)); [congruence|done].
  - rewrite Hok. set (rf1 := ttl_Set rf now (MakeKeyForRFCache b fp) true).
    assert (is_Some (ttl_Get rf1 t' (MakeKeyForRFCache b fp))) as H1 by (unfold rf1; rewrite ttl_Get_Set by done; by eexists).
    assert (∀ k, is_Some (ttl_Get rf t' k) → is_Some (ttl_Get rf1 t' k)) as Hkeep.
    { intros k Hk. destruct (decide (k = MakeKeyForRFCache b fp)) as [->|]; [done|]. unfold rf1. by rewrite ttl_Get_Set_ne. }
    destruct (IH (rows ++ [(l, fp, b)]) rf1) as (rows' & rf' & -> & Hk & Hall).
    { intros b' l' fp' Hin. destruct (decide (MakeKeyForRFCache b' fp' = MakeKeyForRFCache b fp)) as [->|Hne]; [by right|].
      destruct (H b' l' fp' ltac:(set_solver)) as [Hn|Hs]; [left|right; by apply Hkeep].
      unfold rf1. by rewrite ttl_Get_Set_ne. }
    exists rows', rf'. split_and!; [done|intros k Hs; by apply Hk, Hkeep|].
    intros b' l' fp' [[= -> -> ->]|Hin]%elem_of_cons; [by apply Hk|by eapply Hall].
Qed.

Lemma resource_loop_skips st now entries rows rf :
  (∀ b l fp, (b, l, fp) ∈ entries → is_Some (ttl_Get rf now (MakeKeyForRFCache b fp))) →
  resource_loop st now entries rows rf = (None, rows, rf).
Proof.
  induction entries as [|[[b l] fp] entries IH]; intros H; [done|]. simpl.
  destruct (H b l fp ltac:(set_solver)) as [v ->]. apply IH. intros b' l' fp' Hin. apply (H b' l' fp'). set_solver.
Qed.

(** C22. When the Send of the resources fails their keys are in the cache already, so that a retry
    of the push within the time to live reports no error and writes its log rows without the
    resources they refer to. *)
Theorem failed_send_loses_resources `{!TTLCacheLaws TC ttl} sts sts' now t' rf seen r r' err :
  now ≤ t' < now + ttl → accepts (resources_stmt sts) → send_err (resources_stmt sts) = Some err → working sts' →
  (∀ b json fp, seen !! (b, json) = Some fp → ttl_Get rf now (MakeKeyForRFCache b fp) = None) →
  let '(errs, w, rf1) := finish_push sts now rf seen r in
  errs ≠ [] ∧ w_resources w = []
  ∧ let '(errs', w', _) := finish_push sts' t' rf1 seen r' in
    errs' = [] ∧ w_logs w' = logs r' ∧ w_resources w' = [].
Proof.
  intros Ht [Hp Ha] Hs Hw Hfresh. unfold finish_push. rewrite Hp.
  set (entries := (λ '(k, fp), (k.1, k.2, fp)) <$> map_to_list seen).
  assert (∀ b l fp, (b, l, fp) ∈ entries → seen !! (b, l) = Some fp) as Hin.
  { intros b l fp ([k fp'] & [= -> -> ->] & Hk)%list_elem_of_fmap. apply elem_of_map_to_list in Hk. by destruct k. }
  destruct (resource_loop_caches (resources_stmt sts) now t' entries Ht Ha [] rf) as (rows & rf1 & -> & _ & Hall).
  { intros b l fp He. left. apply (Hfresh b l). by apply Hin. }
  unfold send_all. rewrite Hs. split; [destruct (send_err (logs_stmt sts)); simpl; congruence|]. split; [simpl; unfold sent; by rewrite Hs|].
  destruct (works_resources _ Hw) as [[-> Ha'] Hse].
  rewrite resource_loop_skips by done. rewrite Hse, (proj2 (works_logs _ Hw)), (proj2 (works_keys _ Hw)),
    (proj2 (works_rkeys _ Hw)), (proj2 (works_tags _ Hw)).
  split; [done|]. simpl. unfold sent. by rewrite Hse, (proj2 (works_logs _ Hw)).
Qed.
End props.

(** ** Witnesses *)

Section witnesses.
Import TestPdata TestUnicode.
#[local] Instance w_cache : TTLCache := TestTTL.test_cache 60000.
#[local] Instance w_cache_laws : TTLCacheLaws w_cache 60000 := TestTTL.test_cache_laws 60000.
#[local] Instance w_values : PdataValues test_pdata := {|
  Type_of v := match v with VStr _ => Flatten.ValueTypeStr | VInt _ => ValueTypeInt end;
  Double _ := float64_of_int 0; Bool _ := false; BytesAsRaw _ := ""; MapEntries _ := [];
|}.
#[local] Instance w_format : Format tvalue := {| format_s := AsString; format_v := AsString |}.
#[local] Instance w_json : JSON := {|
  Marshal_strings _ := Ok "{}"; Marshal_numbers _ := Ok "{}"; Marshal_bools _ := Ok "{}"; Marshal_any _ := Ok "{}";
|}.

Definition w_works : statement := {| prepare_err := None; append_err _ := None; send_err := None |}.
Definition w_refused : statement := {| prepare_err := None; append_err _ := None; send_err := Some "refused" |}.
Definition w_statements (resources : statement) : push_statements :=
  {| tag_stmt := w_works; keys_stmt := w_works; rkeys_stmt := w_works; logs_stmt := w_works; resources_stmt := resources |}.
Lemma w_working : working (w_statements w_works).
Proof. by split. Qed.

Definition w_record (t : Z) : LogRecord :=
  {| lr_Timestamp := t; lr_ObservedTimestamp := 0; lr_TraceID := ""; lr_SpanID := ""; lr_Flags := 0;
     lr_SeverityText := "INFO"; lr_SeverityNumber := 9; lr_Body := VStr "started"; lr_Attributes := {[ "pid" := VInt 4 ]} |}.
Definition w_logs_data : Logs :=
  [ {| rl_Resource := {[ "service.name" := VStr "api" ]};
       rl_ScopeLogs := [ {| sl_Name := "lib"; sl_Version := "1"; sl_Attributes := ∅;
                            sl_LogRecords := [w_record 5; w_record 4000000000000] |} ] |} ].
Definition w_env (resources : statement) : push_env :=
  {| pe_sts := w_statements resources; pe_now := 4000000; pe_oldest := 1000; pe_skip := ∅; pe_cap := 1;
     pe_clocks _ := (4000000000000, Ok "id") |}.
Definition w_state : exporter_state := {| e_closed := false; e_keysCache := ttl_New; e_rfCache := ttl_New |}.

(** The first of the two records is too old. *)
Lemma push_writes_window_witness :
  (∃ errs w e', pushToClickhouse (w_env w_works) w_state w_logs_data errs w e')
  ∧ ∀ errs w e', pushToClickhouse (w_env w_works) w_state w_logs_data errs w e' → errs = [] ∧ length (w_logs w) = 1%nat
      ∧ cache_true (e_rfCache e') (w_resources w).
Proof.
  destruct (push_writes_window (w_env w_works) w_state w_logs_data) as [H1 H2].
  { split; [reflexivity|simpl; lia|exact w_working|done|done]. }
  split; [exact H1|]. intros errs w e' H. destruct (H2 errs w e' H) as (He & jobs & rows & Hj & Hr & Hl & _ & Ht).
  split; [exact He|]. split; [|apply (Ht []); intros t b fp [v Hv]; change (ttl_Get ttl_New t (MakeKeyForRFCache b fp) = Some v) in Hv; rewrite ttl_Get_New in Hv; discriminate Hv]. rewrite Hl, length_fmap, <- (length_fmap fst), Hr.
  change (all_records w_logs_data) with [w_record 5; w_record 4000000000000] in Hj.
  destruct jobs as [|j1 [|j2 [|]]]; try discriminate Hj. injection Hj as E1 E2.
  assert (in_window (w_env w_works) j1 = false) as F1 by (unfold in_window, job_ts; rewrite E1; vm_compute; reflexivity).
  assert (in_window (w_env w_works) j2 = true) as F2 by (unfold in_window, job_ts; rewrite E2; vm_compute; reflexivity).
  rewrite filter_cons_False by (rewrite F1; discriminate). by rewrite filter_cons_True.
Defined.

Lemma failed_send_loses_resources_witness :
  let '(errs, w, rf1) := finish_push (w_statements w_refused) 0 ttl_New {[ (0, "{}") := "fp" ]}
    (consumed (w_statements w_refused) 0 ∅ ttl_New []) in
  errs ≠ [] ∧ w_resources w = []
  ∧ let '(errs', w', _) := finish_push (w_statements w_works) 1000 rf1 {[ (0, "{}") := "fp" ]}
      (consumed (w_statements w_works) 1000 ∅ ttl_New []) in
    errs' = [] ∧ w_resources w' = [].
Proof.
  pose proof (failed_send_loses_resources (w_statements w_refused) (w_statements w_works) 0 1000 ttl_New
    {[ (0, "{}") := "fp" ]} (consumed (w_statements w_refused) 0 ∅ ttl_New [])
    (consumed (w_statements w_works) 1000 ∅ ttl_New []) "refused") as H.
  destruct (finish_push (w_statements w_refused) _ _ _ _) as [[errs w] rf1].
  destruct H as (H1 & H2 & H3); [lia|by split|reflexivity|exact w_working|intros b json fp _; apply ttl_Get_New|].
  split; [exact H1|]. split; [exact H2|].
  destruct (finish_push (w_statements w_works) _ _ _ _) as [[errs' w'] rf2]. exact (conj (proj1 H3) (proj2 (proj2 H3))).
Defined.

Lemma addAttrsToTagStatement_rows_witness :
  ∃ r', addAttrsToTagStatement (w_statements w_works) 0 TagTypeAttribute
          (attributesToMap {[ "pid" := VInt 4 ]} false) ∅ (consumed (w_statements w_works) 0 ∅ ttl_New []) = (None, r')
    ∧ tags r' = [tag_of 0 TagTypeAttribute TagDataTypeNumber "pid" None (Some (float64_of_int 4))].
Proof.
  destruct (addAttrsToTagStatement_rows (w_statements w_works) 0 ∅ (λ _, eq_refl) TagTypeAttribute
    (attributesToMap {[ "pid" := VInt 4 ]} false) (consumed (w_statements w_works) 0 ∅ ttl_New [])) as (r' & H1 & _ & H2).
  exists r'. split; [exact H1|]. rewrite H2. vm_compute. reflexivity.
Defined.
End witnesses.
