(* ===== verification/TracesSpan.v ===== *)
(** * Spans as rows

    src/exporter/clickhousetracesexporter/clickhouse_exporter_v3.go and schema-signoz.go: the
    conversion of a span into the columns of its row, its references, exceptions and
    attributes; src/pkg/schema/traces and src/pkg/schema/common have the same code. *)
From S2P Require Import Prelude GoText Pdata Sampling Flatten Utils Fingerprint.

(** ** Span data ([ptrace]) *)

Section data.
Context `{PD : Pdata}.

(** [pcommon.Map] in its order; a key may be there twice. *)
Definition PMap : Type := list (string * Value).
(** [Get] finds the first entry, [AsRaw] keeps the last. *)
Definition PMap_Get (m : PMap) (k : string) : option Value := (list_to_map m : gmap string Value) !! k.
Definition PMap_AsRaw (m : PMap) : gmap string Value := list_to_map (reverse m).

Record SpanLink := { ln_TraceID : string; ln_SpanID : string }.
Record SpanEvent := { ev_Name : string; ev_Timestamp : Z; ev_Attributes : PMap }.
Record OtelSpan := {
  os_TraceID : string; os_SpanID : string; os_ParentSpanID : string; os_TraceState : string; os_Flags : Z;
  os_Name : string; os_Kind : SpanKind; os_StartTimestamp : Z; os_EndTimestamp : Z; os_Attributes : PMap;
  os_Events : list SpanEvent; os_Links : list SpanLink; os_StatusCode : StatusCode; os_StatusMessage : string }.
Record OtelResourceSpans := { or_Resource : PMap; or_ScopeSpans : list (list OtelSpan) }.
End data.

Definition SpanKind_num (k : SpanKind) : Z :=
  match k with
  | SpanKindUnspecified => 0 | SpanKindInternal => 1 | SpanKindServer => 2 | SpanKindClient => 3
  | SpanKindProducer => 4 | SpanKindConsumer => 5 | SpanKindOther n => n
  end.
Definition StatusCode_num (c : StatusCode) : Z :=
  match c with StatusCodeUnset => 0 | StatusCodeOk => 1 | StatusCodeError => 2 end.
Definition i8 (z : Z) : Z := let m := z mod 256 in if m <? 128 then m else m - 256.

(** ** References ([OtelSpanRef]) *)

#[export] Instance SpanLink_eq_dec : EqDecision SpanLink.
Proof. solve_decision. Defined.

Record OtelSpanRef := { ref_TraceId : string; ref_SpanId : string; ref_RefType : string }.

(** The length of an array of eight bytes. *)
Definition parentSpanIDSet : bool := negb (8 =? 0).
Definition makeJaegerProtoReferences (links : list SpanLink) (parentSpanID traceID : string) : list OtelSpanRef :=
  if negb parentSpanIDSet && bool_decide (links = []) then []
  else
    (if parentSpanIDSet
     then [ {| ref_TraceId := TraceIDToHexOrEmptyString traceID; ref_SpanId := SpanIDToHexOrEmptyString parentSpanID;
               ref_RefType := "CHILD_OF" |} ]
     else [])
    ++ ((λ link, {| ref_TraceId := TraceIDToHexOrEmptyString (ln_TraceID link);
                    ref_SpanId := SpanIDToHexOrEmptyString (ln_SpanID link); ref_RefType := "FOLLOWS_FROM" |}) <$> links).

(** ** Events ([Event], [ErrorEvent]) *)

Record Event := { e_Name : string; TimeUnixNano : Z; AttributeMap : gmap string string; IsError : bool }.
Record ErrorEvent := { ee_Event : Event; ErrorID : string; ErrorGroupID : string }.
Definition no_event : Event := {| e_Name := ""; TimeUnixNano := 0; AttributeMap := ∅; IsError := false |}.
Definition no_error_event : ErrorEvent := {| ee_Event := no_event; ErrorID := ""; ErrorGroupID := "" |}.

(** ** Columns of a span ([SpanV3]) *)

Record SpanAttribute := {
  Key : string; sa_TagType : string; sa_DataType : string; StringValue : string; NumberValue : float64; IsColumn : bool }.
Definition zero_float : float64 := float64_of_int 0.

(** The columns that single attributes fill. *)
Record custom_columns := {
  ResponseStatusCode : string; ExternalHttpUrl : string; HttpUrl : string; ExternalHttpMethod : string;
  HttpMethod : string; HttpHost : string; DBName : string; DBOperation : string }.
Definition no_custom : custom_columns :=
  {| ResponseStatusCode := ""; ExternalHttpUrl := ""; HttpUrl := ""; ExternalHttpMethod := ""; HttpMethod := "";
     HttpHost := ""; DBName := ""; DBOperation := "" |}.

Record SpanV3 := {
  TsBucketStart : Z; FingerPrint : string; StartTimeUnixNano : Z; TraceId : string; SpanId : string; TraceState : string;
  ParentSpanId : string; Flags : Z; s_Name : string; s_Kind : Z; s_SpanKind : string; DurationNano : Z;
  s_StatusCode : Z; StatusMessage : string; StatusCodeString : string;
  AttributeString : gmap string string; AttributesNumber : gmap string float64; AttributesBool : gmap string bool;
  ResourcesString : gmap string string; BillableResourcesString : gmap string string;
  s_Events : list string; ErrorEvents : list ErrorEvent; s_ServiceName : string; s_custom : custom_columns;
  HasError : bool; IsRemote : string; Tenant : string; References : string; SpanAttributes : list SpanAttribute }.

(** Code of other packages: [json.Marshal] at the types of this file, [md5.Sum] in hex,
    [url.Parse] followed by [Hostname]. *)
Class TraceText := {
  Marshal_event : Event → result string string;
  Marshal_references : list OtelSpanRef → result string string;
  Marshal_span : SpanV3 → result string string;
  md5_hex : string → string;
  url_Hostname : string → result string string;
}.
(** The bytes when the error is dropped. *)
Definition or_empty (r : result string string) : string := match r with Ok s => s | Err _ => "" end.

Section span.
Context `{PD : Pdata} `{PT : !PdataText PD} `{PV : !PdataValues PD} `{FA : FormatAny} `{TT : TraceText}.

Definition ServiceNameForResource (resource : PMap) : string :=
  match PMap_Get resource "service.name" with Some v => Str v | None => "<nil-service-name>" end.

(** ** [populateCustomAttrsAndAttrs] *)

Definition possibleHostAttr : list string :=
  ["http.host"; "server.address"; "client.address"; "http.request.header.host"; "net.peer.name"].

(** A status code given as a number or as a text. *)
Definition status_text (v : Value) : string :=
  FormatInt (match ParseInt (Str v) with Some n => if n =? 0 then Int v else n | None => Int v end).

Definition set_status (s : string) (c : custom_columns) : custom_columns :=
  {| ResponseStatusCode := s; ExternalHttpUrl := ExternalHttpUrl c; HttpUrl := HttpUrl c;
     ExternalHttpMethod := ExternalHttpMethod c; HttpMethod := HttpMethod c; HttpHost := HttpHost c; DBName := DBName c;
     DBOperation := DBOperation c |}.
Definition set_urls (external url host : string) (c : custom_columns) : custom_columns :=
  {| ResponseStatusCode := ResponseStatusCode c; ExternalHttpUrl := external; HttpUrl := url;
     ExternalHttpMethod := ExternalHttpMethod c; HttpMethod := HttpMethod c; HttpHost := host; DBName := DBName c;
     DBOperation := DBOperation c |}.
Definition set_methods (external method : string) (c : custom_columns) : custom_columns :=
  {| ResponseStatusCode := ResponseStatusCode c; ExternalHttpUrl := ExternalHttpUrl c; HttpUrl := HttpUrl c;
     ExternalHttpMethod := external; HttpMethod := method; HttpHost := HttpHost c; DBName := DBName c;
     DBOperation := DBOperation c |}.
Definition set_db (name operation : string) (c : custom_columns) : custom_columns :=
  {| ResponseStatusCode := ResponseStatusCode c; ExternalHttpUrl := ExternalHttpUrl c; HttpUrl := HttpUrl c;
     ExternalHttpMethod := ExternalHttpMethod c; HttpMethod := HttpMethod c; HttpHost := HttpHost c; DBName := name;
     DBOperation := operation |}.

Definition is_status_key (k : string) : bool := bool_decide (k ∈ ["http.status_code"; "http.response.status_code"]).
Definition is_url_key (k : string) : bool := bool_decide (k ∈ ["http.url"; "url.full"]).
Definition is_method_key (k : string) : bool := bool_decide (k ∈ ["http.method"; "http.request.method"]).

Definition populate_attr (kind : Z) (k : string) (v : Value) (c : custom_columns) : custom_columns :=
  if is_status_key k then set_status (status_text v) c
  else if is_url_key k && (kind =? 3) then
    let value := match url_Hostname (Str v) with Ok host => host | Err _ => Str v end in
    set_urls value (Str v) (if decide (HttpHost c = "") then value else HttpHost c) c
  else if is_method_key k && (kind =? 3) then set_methods (Str v) (Str v) c
  else if is_url_key k && negb (kind =? 3) then set_urls (ExternalHttpUrl c) (Str v) (HttpHost c) c
  else if is_method_key k && negb (kind =? 3) then set_methods (ExternalHttpMethod c) (Str v) c
  else if decide (k ∈ possibleHostAttr) then set_urls (ExternalHttpUrl c) (HttpUrl c) (Str v) c
  else if bool_decide (k ∈ ["db.name"; "db.namespace"]) then set_db (Str v) (DBOperation c) c
  else if bool_decide (k ∈ ["db.operation"; "db.operation.name"]) then set_db (DBName c) (Str v) c
  else if decide (k = "rpc.grpc.status_code") then set_status (status_text v) c
  else if decide (k = "rpc.jsonrpc.error_code") then set_status (Str v) c
  else c.
Definition populateCustomAttrsAndAttrs (attributes : PMap) (kind : Z) : custom_columns :=
  foldl (λ c '(k, v), populate_attr kind k v c) no_custom attributes.

(** ** [populateEventsV3] *)

(** [newID] is the answer of [uuid.New] without its hyphens. *)
Definition new_event (serviceName : string) (lowCardinalExceptionGrouping : bool) (newID : string) (e : SpanEvent)
  : Event * ErrorEvent :=
  let attributes := AsString <$> PMap_AsRaw (ev_Attributes e) in
  let at_key k := default "" (attributes !! k) in
  let event b := {| e_Name := ev_Name e; TimeUnixNano := ev_Timestamp e; AttributeMap := attributes; IsError := b |} in
  if decide (ev_Name e = "exception") then
    let group := if lowCardinalExceptionGrouping then serviceName +:+ at_key "exception.type"
                 else serviceName +:+ at_key "exception.type" +:+ at_key "exception.message" in
    (event true, {| ee_Event := event true; ErrorID := newID; ErrorGroupID := md5_hex group |})
  else (event false, no_error_event).
Definition populateEventsV3 (events : list SpanEvent) (serviceName : string) (lowCardinalExceptionGrouping : bool)
    (newIDs : nat → string) : list string * list ErrorEvent :=
  let l := imap (λ i e, new_event serviceName lowCardinalExceptionGrouping (newIDs i) e) events in
  ((λ p, or_empty (Marshal_event p.1)) <$> l, snd <$> l).

(** ** [attributesData] *)

Record attributesData := {
  StringMap : gmap string string; NumberMap : gmap string float64; BoolMap : gmap string bool;
  d_SpanAttributes : list SpanAttribute }.
Definition no_data : attributesData := {| StringMap := ∅; NumberMap := ∅; BoolMap := ∅; d_SpanAttributes := [] |}.

Definition attribute_of (tagType key dataType : string) (s : string) (n : float64) : SpanAttribute :=
  {| Key := key; sa_TagType := tagType; sa_DataType := dataType; StringValue := s; NumberValue := n; IsColumn := false |}.
Definition with_string (k s : string) (d : attributesData) : attributesData :=
  {| StringMap := <[k := s]> (StringMap d); NumberMap := NumberMap d; BoolMap := BoolMap d;
     d_SpanAttributes := d_SpanAttributes d ++ [attribute_of "tag" k "string" s zero_float] |}.
Definition with_number (k : string) (x : float64) (d : attributesData) : attributesData :=
  {| StringMap := StringMap d; NumberMap := <[k := x]> (NumberMap d); BoolMap := BoolMap d;
     d_SpanAttributes := d_SpanAttributes d ++ [attribute_of "tag" k "float64" "" x] |}.
Definition with_bool (k : string) (b : bool) (d : attributesData) : attributesData :=
  {| StringMap := StringMap d; NumberMap := NumberMap d; BoolMap := <[k := b]> (BoolMap d);
     d_SpanAttributes := d_SpanAttributes d ++ [attribute_of "tag" k "bool" "" zero_float] |}.

(** The values of a flattened map are strings, numbers and booleans; an attribute of another
    kind would be listed without a type. *)
Definition add_flat (k : string) (v : any) (d : attributesData) : attributesData :=
  match v with
  | AStr s => with_string k s d
  | AFloat x => if IsValidFloat x then with_number k x d else d
  | ABool b => with_bool k b d
  | _ => {| StringMap := StringMap d; NumberMap := NumberMap d; BoolMap := BoolMap d;
            d_SpanAttributes := d_SpanAttributes d ++ [attribute_of "tag" k "" "" zero_float] |}
  end.

Definition data_add (key : string) (value : Value) (d : attributesData) : attributesData :=
  match Type_of value with
  | ValueTypeDouble => if IsValidFloat (Double value) then with_number key (Double value) d else d
  | ValueTypeInt => with_number key (float64_of_int (Int value)) d
  | ValueTypeBool => with_bool key (Bool value) d
  | ValueTypeMap => map_fold add_flat d (FlattenJSON (MapEntries value) key)
  | _ => with_string key (AsString value) d
  end.
Definition span_data (attributes : PMap) : attributesData :=
  foldl (λ d '(k, v), data_add k v d) no_data attributes.

(** ** Resources *)

(** [ExcludeSigNozWorkspaceResourceAttrs]: the regular expression ^signoz.workspace.* *)
Definition is_workspace_key (k : string) : bool :=
  bool_decide (take 6 (runes k) = runes "signoz")
  && (match runes k !! 6%nat with Some r => negb (r =? 10) | None => false end)
  && bool_decide (take 9 (drop 7 (runes k)) = runes "workspace").

Record resource_data := {
  resourceAttrs : gmap string string; billableResourceAttrs : gmap string string; r_SpanAttributes : list SpanAttribute }.
Definition with_resource (isBillable : bool) (k s : string) (d : resource_data) : resource_data :=
  {| resourceAttrs := <[k := s]> (resourceAttrs d);
     billableResourceAttrs := if isBillable then <[k := s]> (billableResourceAttrs d) else billableResourceAttrs d;
     r_SpanAttributes := r_SpanAttributes d ++ [attribute_of "resource" k "string" s zero_float] |}.
Definition resource_add (k : string) (v : Value) (d : resource_data) : resource_data :=
  let isBillable := negb (is_workspace_key k) in
  match Type_of v with
  | ValueTypeMap => map_fold (λ key x, with_resource isBillable key (Sprint x)) d (FlattenJSON (MapEntries v) k)
  | _ => with_resource isBillable k (AsString v) d
  end.
(** The resource attributes follow those of the span. *)
Definition span_resource (resource : PMap) (attributes : list SpanAttribute) : resource_data :=
  foldl (λ d '(k, v), resource_add k v d)
    {| resourceAttrs := ∅; billableResourceAttrs := ∅; r_SpanAttributes := attributes |} resource.

(** ** [newStructuredSpanV3] *)

Definition hasIsRemoteMask : Z := 256.
Definition isRemoteMask : Z := 512.
Definition is_remote (flags : Z) : string :=
  if Z.land flags hasIsRemoteMask =? 0 then "unknown"
  else if Z.land flags isRemoteMask =? 0 then "no" else "yes".

Definition newStructuredSpanV3 (bucketStart : Z) (fingerprint : string) (sp : OtelSpan) (serviceName : string)
    (resource : PMap) (lowCardinalExceptionGrouping : bool) (newIDs : nat → string) : SpanV3 :=
  let d := span_data (os_Attributes sp) in
  let r := span_resource resource (d_SpanAttributes d) in
  let kind := i8 (SpanKind_num (os_Kind sp)) in
  let '(events, errorEvents) := populateEventsV3 (os_Events sp) serviceName lowCardinalExceptionGrouping newIDs in
  {| TsBucketStart := bucketStart; FingerPrint := fingerprint; StartTimeUnixNano := os_StartTimestamp sp;
     TraceId := TraceIDToHexOrEmptyString (os_TraceID sp); SpanId := SpanIDToHexOrEmptyString (os_SpanID sp);
     TraceState := os_TraceState sp; ParentSpanId := SpanIDToHexOrEmptyString (os_ParentSpanID sp); Flags := os_Flags sp;
     s_Name := os_Name sp; s_Kind := kind; s_SpanKind := SpanKind_String (os_Kind sp);
     DurationNano := u64 (os_EndTimestamp sp - os_StartTimestamp sp);
     s_StatusCode := StatusCode_num (os_StatusCode sp); StatusMessage := os_StatusMessage sp;
     StatusCodeString := StatusCode_String (os_StatusCode sp);
     AttributeString := StringMap d; AttributesNumber := NumberMap d; AttributesBool := BoolMap d;
     ResourcesString := resourceAttrs r; BillableResourcesString := billableResourceAttrs r;
     s_Events := events; ErrorEvents := errorEvents; s_ServiceName := serviceName;
     s_custom := populateCustomAttrsAndAttrs (os_Attributes sp) kind;
     HasError := bool_decide (os_StatusCode sp = StatusCodeError); IsRemote := is_remote (os_Flags sp); Tenant := "default";
     References := or_empty (Marshal_references
       (makeJaegerProtoReferences (os_Links sp) (os_ParentSpanID sp) (os_TraceID sp)));
     SpanAttributes := r_SpanAttributes r |}.
End span.

(** ** src/pkg/schema *)

Section schema.
Context `{PD : Pdata} `{PT : !PdataText PD} `{TT : TraceText}.

(** [NewOtelSpanRefs]: the code of [makeJaegerProtoReferences]. *)
Definition NewOtelSpanRefs (links : list SpanLink) (parentSpanID traceID : string) : list OtelSpanRef :=
  if negb parentSpanIDSet && bool_decide (links = []) then []
  else
    (if parentSpanIDSet
     then [ {| ref_TraceId := TraceIDToHexOrEmptyString traceID; ref_SpanId := SpanIDToHexOrEmptyString parentSpanID;
               ref_RefType := "CHILD_OF" |} ]
     else [])
    ++ ((λ link, {| ref_TraceId := TraceIDToHexOrEmptyString (ln_TraceID link);
                    ref_SpanId := SpanIDToHexOrEmptyString (ln_SpanID link); ref_RefType := "FOLLOWS_FROM" |}) <$> links).

(** [NewEventsAndErrorEvents] takes the name of the service instead of the span. *)
Definition NewEventsAndErrorEvents (input : list SpanEvent) (serviceName : string) (lowCardinalExceptionGrouping : bool)
    (newIDs : nat → string) : list string * list ErrorEvent :=
  foldl (λ '(events, errorEvents) '(i, e),
      let attributes := AsString <$> PMap_AsRaw (ev_Attributes e) in
      let at_key k := default "" (attributes !! k) in
      let event := {| e_Name := ev_Name e; TimeUnixNano := ev_Timestamp e; AttributeMap := attributes;
                      IsError := bool_decide (ev_Name e = "exception") |} in
      let errorEvent :=
        if decide (ev_Name e = "exception")
        then {| ee_Event := event; ErrorID := newIDs i;
                ErrorGroupID := md5_hex (serviceName +:+ at_key "exception.type"
                  +:+ (if lowCardinalExceptionGrouping then "" else at_key "exception.message")) |}
        else no_error_event in
      (events ++ [or_empty (Marshal_event event)], errorEvents ++ [errorEvent]))
    ([], []) (imap pair input).

(** [common.ServiceName]. *)
Definition ServiceName (input : PMap) : string :=
  match PMap_Get input "service.name" with Some v => Str v | None => "<nil-service-name>" end.
End schema.
