(* ===== verification/TracesSpanProps.v ===== *)
(** * Columns of a span: what they hold

    Every attribute reaches the column of its type and the list of attributes; the columns
    filled by single attributes; references, exceptions, and the copies in src/pkg/schema. *)
From S2P Require Import Prelude GoText Pdata Sampling Flatten Utils Fingerprint TracesSpan.

Section props.
Context `{PD : Pdata} `{PT : !PdataText PD} `{PV : !PdataValues PD} `{FA : FormatAny} `{TT : TraceText}.

(** ** Attributes *)

Lemma PMap_Get_cons (m : PMap) k k' v :
  PMap_Get ((k', v) :: m) k = if decide (k = k') then Some v else PMap_Get m k.
Proof.
  unfold PMap_Get. simpl. destruct (decide (k = k')) as [->|]; [apply lookup_insert_eq|by apply lookup_insert_ne].
Qed.
Lemma PMap_Get_None (m : PMap) k : k ∉ m.*1 → PMap_Get m k = None.
Proof. intros H. by apply not_elem_of_list_to_map_1. Qed.

(** What the three columns hold under a key. *)
Definition at_key (d : attributesData) (k : string) : option string * option float64 * option bool :=
  (StringMap d !! k, NumberMap d !! k, BoolMap d !! k).
Definition column_of (v : Value) : option string * option float64 * option bool :=
  match Type_of v with
  | ValueTypeDouble => (None, if IsValidFloat (Double v) then Some (Double v) else None, None)
  | ValueTypeInt => (None, Some (float64_of_int (Int v)), None)
  | ValueTypeBool => (None, None, Some (Bool v))
  | _ => (Some (AsString v), None, None)
  end.

Lemma data_add_other k v d k' : Type_of v ≠ ValueTypeMap → k' ≠ k → at_key (data_add k v d) k' = at_key d k'.
Proof.
  intros Hm Hk. unfold data_add, at_key. destruct (Type_of v); try done; try (destruct (IsValidFloat _); [|done]);
    simpl; by rewrite lookup_insert_ne by done.
Qed.
Lemma data_add_same k v d :
  Type_of v ≠ ValueTypeMap → at_key d k = (None, None, None) → at_key (data_add k v d) k = column_of v.
Proof.
  intros Hm. unfold data_add, at_key, column_of. intros [= H1 H2 H3].
  destruct (Type_of v); try done; try (destruct (IsValidFloat _)); simpl; rewrite ?lookup_insert_eq; congruence.
Qed.

(** An attribute that is not a map is in the column of its type under its key and in no other
    column; a number that is not finite is in none. *)
Theorem span_data_spec (attributes : PMap) k :
  NoDup attributes.*1 → Forall (λ kv, Type_of kv.2 ≠ ValueTypeMap) attributes →
  at_key (span_data attributes) k = match PMap_Get attributes k with Some v => column_of v | None => (None, None, None) end.
Proof.
  intros Hd Hm. unfold span_data.
  assert (∀ d, (k ∈ attributes.*1 → at_key d k = (None, None, None)) →
    at_key (foldl (λ d '(k, v), data_add k v d) d attributes) k
    = match PMap_Get attributes k with Some v => column_of v | None => at_key d k end) as H; [|by apply H].
  induction attributes as [|[k' v] l IH]; intros d Hk; [done|].
  apply NoDup_cons in Hd as [Hn Hd]. apply Forall_cons in Hm as [Hv Hm]. simpl in *. rewrite PMap_Get_cons.
  destruct (decide (k = k')) as [->|Hne].
  - rewrite IH by done. rewrite PMap_Get_None by done. apply data_add_same; [done|]. apply Hk. set_solver.
  - rewrite IH; [|done..|].
    + by rewrite data_add_other.
    + intros Hin. rewrite data_add_other by done. apply Hk. set_solver.
Qed.

(** What a column holds is in the list of attributes, with the kind of the column. *)
Definition columns_listed (d : attributesData) : Prop :=
  (∀ k s, StringMap d !! k = Some s → attribute_of "tag" k "string" s zero_float ∈ d_SpanAttributes d)
  ∧ (∀ k x, NumberMap d !! k = Some x → attribute_of "tag" k "float64" "" x ∈ d_SpanAttributes d)
  ∧ (∀ k b, BoolMap d !! k = Some b → attribute_of "tag" k "bool" "" zero_float ∈ d_SpanAttributes d).

Lemma with_string_listed k s d : columns_listed d → columns_listed (with_string k s d).
Proof.
  intros (H1 & H2 & H3). split_and!; simpl; [|intros ?? ?%H2; set_solver|intros ?? ?%H3; set_solver].
  intros k' s' [[-> ->]|[_ H]]%lookup_insert_Some; [set_solver|]. apply H1 in H. set_solver.
Qed.
Lemma with_number_listed k x d : columns_listed d → columns_listed (with_number k x d).
Proof.
  intros (H1 & H2 & H3). split_and!; simpl; [intros ?? ?%H1; set_solver| |intros ?? ?%H3; set_solver].
  intros k' s' [[-> ->]|[_ H]]%lookup_insert_Some; [set_solver|]. apply H2 in H. set_solver.
Qed.
Lemma with_bool_listed k b d : columns_listed d → columns_listed (with_bool k b d).
Proof.
  intros (H1 & H2 & H3). split_and!; simpl; [intros ?? ?%H1; set_solver|intros ?? ?%H2; set_solver|].
  intros k' s' [[-> ->]|[_ H]]%lookup_insert_Some; [set_solver|]. apply H3 in H. set_solver.
Qed.
Hint Resolve with_string_listed with_number_listed with_bool_listed : core.

Lemma data_add_listed k v d : columns_listed d → columns_listed (data_add k v d).
Proof.
  intros H. unfold data_add. destruct (Type_of v); auto; [destruct (IsValidFloat _); auto|].
  revert H. apply (map_fold_weak_ind (λ r _, columns_listed d → columns_listed r)); [done|].
  intros i x m r _ IH Hd. unfold add_flat. specialize (IH Hd).
  destruct x; auto; try (destruct (IsValidFloat _); auto);
    destruct IH as (H1 & H2 & H3); split_and!; simpl; intros; set_solver.
Qed.

(** No column holds a value that is not in the list of attributes under the same key, even
    where keys repeat and maps are flattened. *)
Theorem span_data_listed (attributes : PMap) : columns_listed (span_data attributes).
Proof.
  unfold span_data. assert (∀ d, columns_listed d → columns_listed (foldl (λ d '(k, v), data_add k v d) d attributes)) as H.
  { induction attributes as [|[k v] l IH]; intros d Hd; [done|]. simpl. by apply IH, data_add_listed. }
  apply H. by split_and!.
Qed.

Lemma PMap_AsRaw_snoc (m : PMap) k v : PMap_AsRaw (m ++ [(k, v)]) = <[k := v]> (PMap_AsRaw m).
Proof. unfold PMap_AsRaw. by rewrite reverse_app. Qed.

(** Resource attributes that are not maps: the columns hold the text of the last value of
    each key, the billable ones those outside of the workspace, and the list has them all. *)
Theorem span_resource_spec (resource : PMap) l :
  Forall (λ kv, Type_of kv.2 ≠ ValueTypeMap) resource →
  let d := span_resource resource l in
  resourceAttrs d = AsString <$> PMap_AsRaw resource
  ∧ billableResourceAttrs d = filter (λ kv, is_workspace_key kv.1 = false) (AsString <$> PMap_AsRaw resource)
  ∧ r_SpanAttributes d = l ++ ((λ '(k, v), attribute_of "resource" k "string" (AsString v) zero_float) <$> resource).
Proof.
  unfold span_resource. induction resource as [|[k v] m IH] using rev_ind; intros Hm.
  - change (PMap_AsRaw []) with (∅ : gmap string Value). simpl. by rewrite fmap_empty, map_filter_empty, app_nil_r.
  - apply Forall_app in Hm as [Hm [Hv _]%Forall_cons]. simpl in Hv. specialize (IH Hm). cbn zeta in *. rewrite foldl_snoc.
    set (d := foldl _ _ m) in *. destruct IH as (H1 & H2 & H3).
    assert (resource_add k v d = with_resource (negb (is_workspace_key k)) k (AsString v) d) as ->
      by (unfold resource_add; by destruct (Type_of v)).
    rewrite PMap_AsRaw_snoc, fmap_insert, fmap_app. simpl. rewrite H1, H3, <- app_assoc. split; [done|]. split; [|done].
    destruct (is_workspace_key k) eqn:Ek; simpl; rewrite H2.
    + rewrite map_filter_insert_False by (simpl; congruence). symmetry. by rewrite map_filter_delete_not by (simpl; congruence).
    + by rewrite map_filter_insert_True.
Qed.

(** ** Columns of single attributes *)

(** The value the last attribute among those of a column gives it. *)
Definition last_of (column : string → Value → option string) (attributes : PMap) : string :=
  foldl (λ acc '(k, v), default acc (column k v)) "" attributes.
Definition status_column (k : string) (v : Value) : option string :=
  if bool_decide (k ∈ ["http.status_code"; "http.response.status_code"; "rpc.grpc.status_code"]) then Some (status_text v)
  else if bool_decide (k = "rpc.jsonrpc.error_code") then Some (Str v) else None.
Definition text_column (keys : list string) (k : string) (v : Value) : option string :=
  if bool_decide (k ∈ keys) then Some (Str v) else None.

Ltac key_in k l :=
  let H := fresh "H" in
  destruct (decide (k ∈ l)) as [H|H];
  [repeat (apply elem_of_cons in H as [->|H]; [|]); [..|by apply elem_of_nil in H]|].
(** The tests on a known key. *)
Ltac eval_tests :=
  repeat match goal with
  | |- context [@bool_decide ?P ?I] =>
      let b := eval vm_compute in (@bool_decide P I) in replace (@bool_decide P I) with b by (vm_compute; reflexivity)
  | |- context [@decide ?P ?I] =>
      let b := eval vm_compute in (@bool_decide P I) in
      lazymatch b with
      | true => rewrite (decide_True (P := P)) by (apply (bool_decide_eq_true_1 _); vm_compute; reflexivity)
      | false => rewrite (decide_False (P := P)) by (apply (bool_decide_eq_false_1 _); vm_compute; reflexivity)
      end
  end.

Definition method_keys : list string := ["http.method"; "http.request.method"].
Definition url_keys : list string := ["http.url"; "url.full"].

(** One attribute. *)
Lemma populate_attr_spec kind k v c :
  let c' := populate_attr kind k v c in
  ResponseStatusCode c' = default (ResponseStatusCode c) (status_column k v)
  ∧ HttpUrl c' = default (HttpUrl c) (text_column url_keys k v)
  ∧ HttpMethod c' = default (HttpMethod c) (text_column method_keys k v)
  ∧ DBName c' = default (DBName c) (text_column ["db.name"; "db.namespace"] k v)
  ∧ DBOperation c' = default (DBOperation c) (text_column ["db.operation"; "db.operation.name"] k v)
  ∧ ExternalHttpMethod c' = (if kind =? 3 then default (ExternalHttpMethod c) (text_column method_keys k v) else ExternalHttpMethod c)
  ∧ (kind =? 3 = false → ExternalHttpUrl c' = ExternalHttpUrl c ∧ HttpHost c' = default (HttpHost c) (text_column possibleHostAttr k v)).
Proof.
  cbv zeta. unfold populate_attr, is_status_key, is_url_key, is_method_key, status_column, text_column, url_keys, method_keys, possibleHostAttr.
  generalize (status_text v), (decide (HttpHost c = "")). intros status fresh.
  key_in k ["http.status_code"; "http.response.status_code"]; [eval_tests; by destruct (kind =? 3)..|].
  key_in k ["http.url"; "url.full"]; [eval_tests; by destruct (kind =? 3)..|].
  key_in k ["http.method"; "http.request.method"]; [eval_tests; by destruct (kind =? 3)..|].
  key_in k ["http.host"; "server.address"; "client.address"; "http.request.header.host"; "net.peer.name"];
    [eval_tests; by destruct (kind =? 3)..|].
  key_in k ["db.name"; "db.namespace"]; [eval_tests; by destruct (kind =? 3)..|].
  key_in k ["db.operation"; "db.operation.name"]; [eval_tests; by destruct (kind =? 3)..|].
  key_in k ["rpc.grpc.status_code"; "rpc.jsonrpc.error_code"]; [eval_tests; by destruct (kind =? 3)..|].
  rewrite !bool_decide_false by set_solver. rewrite !decide_False by set_solver.
  by destruct (kind =? 3).
Qed.

(** Each of the columns holds the value of the last attribute among those that fill it; a
    client span has its method twice, another span has no external columns. *)
Theorem custom_columns_last (attributes : PMap) kind :
  let c := populateCustomAttrsAndAttrs attributes kind in
  ResponseStatusCode c = last_of status_column attributes
  ∧ HttpUrl c = last_of (text_column url_keys) attributes
  ∧ HttpMethod c = last_of (text_column method_keys) attributes
  ∧ DBName c = last_of (text_column ["db.name"; "db.namespace"]) attributes
  ∧ DBOperation c = last_of (text_column ["db.operation"; "db.operation.name"]) attributes
  ∧ ExternalHttpMethod c = (if kind =? 3 then HttpMethod c else "")
  ∧ (kind ≠ 3 → ExternalHttpUrl c = "" ∧ HttpHost c = last_of (text_column possibleHostAttr) attributes).
Proof.
  unfold populateCustomAttrsAndAttrs, last_of. induction attributes as [|[k v] l IH] using rev_ind.
  { simpl. split_and!; try done. by destruct (kind =? 3). }
  cbn zeta in *. rewrite !foldl_snoc. set (c := foldl (λ c '(k, v), populate_attr kind k v c) no_custom l) in *.
  destruct (populate_attr_spec kind k v c) as (-> & -> & -> & -> & -> & -> & P).
  destruct IH as (<- & <- & <- & <- & <- & H1 & H2). split_and!; try done.
  - rewrite H1. by destruct (kind =? 3).
  - intros Hk. destruct (H2 Hk) as [H3 <-]. destruct P as [-> ->]; [by apply Z.eqb_neq|done].
Qed.

(** ** References *)

(** The first reference of a span always is that of its parent, even if it has none. *)
Theorem references_spec links parentSpanID traceID :
  makeJaegerProtoReferences links parentSpanID traceID
  = {| ref_TraceId := TraceIDToHexOrEmptyString traceID; ref_SpanId := SpanIDToHexOrEmptyString parentSpanID;
       ref_RefType := "CHILD_OF" |}
    :: ((λ l, {| ref_TraceId := TraceIDToHexOrEmptyString (ln_TraceID l); ref_SpanId := SpanIDToHexOrEmptyString (ln_SpanID l);
                 ref_RefType := "FOLLOWS_FROM" |}) <$> links).
Proof. done. Qed.
(** A root span without links refers to a span without id. *)
Theorem root_span_reference traceID :
  let root := of_bytes (replicate 8 "000"%char) in
  ref_SpanId <$> makeJaegerProtoReferences [] root traceID = [""].
Proof. done. Qed.

(** ** Exceptions *)

(** The copy in src/pkg/schema does the same. *)
Theorem events_agree events serviceName low newIDs :
  NewEventsAndErrorEvents events serviceName low newIDs = populateEventsV3 events serviceName low newIDs.
Proof.
  unfold NewEventsAndErrorEvents, populateEventsV3.
  set (step := λ '(events, errorEvents) '(i, e), _). set (f := λ i e, new_event _ _ _ _).
  assert (∀ l i a b, foldl step (a, b) (imap (λ j e, ((i + j)%nat, e)) l)
    = (a ++ ((λ p, or_empty (Marshal_event p.1)) <$> imap (λ j, f (i + j)%nat) l), b ++ (snd <$> imap (λ j, f (i + j)%nat) l))) as H.
  { induction l as [|e l IH]; intros i a b; [by rewrite !app_nil_r|]. rewrite !imap_cons, !fmap_cons. cbn [foldl].
    rewrite (imap_ext _ (λ j e, ((S i + j)%nat, e))) by (intros; simpl; by rewrite Nat.add_succ_r).
    rewrite (imap_ext (_ ∘ _) (λ j, f (S i + j)%nat) l) by (intros; simpl; by rewrite Nat.add_succ_r).
    assert (step (a, b) ((i + 0)%nat, e) = (a ++ [or_empty (Marshal_event (f i e).1)], b ++ [(f i e).2])) as ->.
    { rewrite Nat.add_0_r. unfold step, f, new_event. destruct (decide (ev_Name e = "exception")) as [He|He].
      - rewrite bool_decide_true by done. destruct low; [|done]. do 4 f_equal. simpl. do 2 f_equal. by rewrite string_app_nil_r.
      - by rewrite bool_decide_false. }
    rewrite IH, Nat.add_0_r, <- !app_assoc. done. }
  exact (H events 0%nat [] []).
Qed.
End props.
