(* ===== verification/TracesExporter.v ===== *)
(** * The traces exporter

    src/exporter/clickhousetracesexporter: the writer (writer.go), with the tables of spans,
    exceptions, attribute keys and values, and resources, and [pushTraceDataV3]
    (clickhouse_exporter_v3.go). *)
From S2P Require Import Prelude GoText Pdata Sampling Flatten Utils ClickHouse Fingerprint LogsPipeline TracesSpan.

(** ** Rows *)

Record index_row := {
  x_ts_bucket_start : Z; x_resource_fingerprint : string; x_timestamp : Z; x_trace_id : string; x_span_id : string;
  x_trace_state : string; x_parent_span_id : string; x_flags : Z; x_name : string; x_kind : Z; x_kind_string : string;
  x_duration_nano : Z; x_status_code : Z; x_status_message : string; x_status_code_string : string;
  x_attributes_string : gmap string string; x_attributes_number : gmap string float64;
  x_attributes_bool : gmap string bool; x_resources_string : gmap string string; x_resource : gmap string string;
  x_events : list string; x_links : string; x_custom : custom_columns; x_has_error : bool; x_is_remote : string }.
Definition index_row_of (span : SpanV3) : index_row :=
  {| x_ts_bucket_start := TsBucketStart span; x_resource_fingerprint := FingerPrint span;
     x_timestamp := i64 (StartTimeUnixNano span); x_trace_id := TraceId span; x_span_id := SpanId span;
     x_trace_state := TraceState span; x_parent_span_id := ParentSpanId span; x_flags := Flags span; x_name := s_Name span;
     x_kind := s_Kind span; x_kind_string := s_SpanKind span; x_duration_nano := DurationNano span;
     x_status_code := s_StatusCode span; x_status_message := StatusMessage span;
     x_status_code_string := StatusCodeString span; x_attributes_string := AttributeString span;
     x_attributes_number := AttributesNumber span; x_attributes_bool := AttributesBool span;
     x_resources_string := ResourcesString span; x_resource := ResourcesString span; x_events := s_Events span;
     x_links := References span; x_custom := s_custom span; x_has_error := HasError span; x_is_remote := IsRemote span |}.

Record error_row := {
  er_timestamp : Z; er_errorID : string; er_groupID : string; er_traceID : string; er_spanID : string;
  er_serviceName : string; er_type : string; er_message : string; er_stacktrace : string; er_escaped : bool;
  er_resource : gmap string string }.
(** Lower-casing a rune that is not ASCII gives none of the letters of "true". *)
Definition stringToBool (s : string) : bool := bool_decide (to_lower s = "true").
Definition error_row_of (span : SpanV3) (e : ErrorEvent) : error_row :=
  let attr k := default "" (AttributeMap (ee_Event e) !! k) in
  {| er_timestamp := i64 (TimeUnixNano (ee_Event e)); er_errorID := ErrorID e; er_groupID := ErrorGroupID e;
     er_traceID := TraceId span; er_spanID := SpanId span; er_serviceName := s_ServiceName span;
     er_type := attr "exception.type"; er_message := attr "exception.message"; er_stacktrace := attr "exception.stacktrace";
     er_escaped := stringToBool (attr "exception.escaped"); er_resource := ResourcesString span |}.
Definition error_rows (span : SpanV3) : list error_row :=
  error_row_of span <$> filter (λ e, e_Name (ee_Event e) ≠ "") (ErrorEvents span).

Record key_row := { k_tagKey : string; k_tagType : string; k_dataType : string; k_isColumn : bool }.
Record value_row := {
  v_unix_milli : Z; v_tag_key : string; v_tag_type : string; v_tag_data_type : string; v_string_value : option string;
  v_number_value : option float64 }.
Definition resource_row : Type := string * string * Z.

(** Prepared, appended row by row, sent. *)
Definition write_batch {R} (not_prepared : string) (st : statement) (rows : list R) : option string * list R :=
  match prepare_err st with
  | Some e => (Some (not_prepared +:+ e), [])
  | None =>
      match append_all st O rows with
      | Some e => (Some ("could not append span to batch: " +:+ e), [])
      | None => match send_err st with Some e => (Some e, []) | None => (None, rows) end
      end
  end.
Definition writeIndexBatchV3 (st : statement) (batchSpans : list SpanV3) : option string * list index_row :=
  write_batch "could not prepare batch for index table: " st (index_row_of <$> batchSpans).
Definition writeErrorBatchV3 (st : statement) (batchSpans : list SpanV3) : option string * list error_row :=
  write_batch "could not prepare batch for error table: " st (batchSpans ≫= error_rows).

Section exporter.
Context `{PD : Pdata} `{PT : !PdataText PD} `{PV : !PdataValues PD} `{FV : !Format Value} `{FA : FormatAny}
  `{TT : TraceText} `{FD : FloatDecimal} `{JS : JSON} `{TC : TTLCache}.

(** ** [writeTagBatchV3] *)

(** The rows so far, the three sets that avoid duplicates in the batch, and the cache. *)
Record tag_state := {
  t_keys : list key_row; t_values : list value_row;
  mapOfSpanAttributeKeys : gset string; mapOfSpanAttributeValues : gset string; mapOfSpanFields : gset string;
  t_keysCache : ttl_cache }.
Definition tag_start (c : ttl_cache) : tag_state :=
  {| t_keys := []; t_values := []; mapOfSpanAttributeKeys := ∅; mapOfSpanAttributeValues := ∅; mapOfSpanFields := ∅;
     t_keysCache := c |}.
Definition add_values (rows : list value_row) (t : tag_state) : tag_state :=
  {| t_keys := t_keys t; t_values := rows; mapOfSpanAttributeKeys := mapOfSpanAttributeKeys t;
     mapOfSpanAttributeValues := mapOfSpanAttributeValues t; mapOfSpanFields := mapOfSpanFields t;
     t_keysCache := t_keysCache t |}.
Definition see_value (k : string) (t : tag_state) : tag_state :=
  {| t_keys := t_keys t; t_values := t_values t; mapOfSpanAttributeKeys := mapOfSpanAttributeKeys t;
     mapOfSpanAttributeValues := {[ k ]} ∪ mapOfSpanAttributeValues t; mapOfSpanFields := mapOfSpanFields t;
     t_keysCache := t_keysCache t |}.
Definition see_key (k : string) (rows : list key_row) (c : ttl_cache) (t : tag_state) : tag_state :=
  {| t_keys := rows; t_values := t_values t; mapOfSpanAttributeKeys := {[ k ]} ∪ mapOfSpanAttributeKeys t;
     mapOfSpanAttributeValues := mapOfSpanAttributeValues t; mapOfSpanFields := mapOfSpanFields t; t_keysCache := c |}.
Definition see_field (k : string) (t : tag_state) : tag_state :=
  {| t_keys := t_keys t; t_values := t_values t; mapOfSpanAttributeKeys := mapOfSpanAttributeKeys t;
     mapOfSpanAttributeValues := mapOfSpanAttributeValues t; mapOfSpanFields := {[ k ]} ∪ mapOfSpanFields t;
     t_keysCache := t_keysCache t |}.

Definition FormatBool (b : bool) : string := if b then "true" else "false".
Definition mapOfSpanAttributeValueKey (a : SpanAttribute) : string :=
  Key a +:+ sa_TagType a +:+ sa_DataType a +:+ StringValue a +:+ FormatFloat_f (NumberValue a).
Definition mapOfSpanAttributeKey (a : SpanAttribute) : string :=
  Key a +:+ sa_TagType a +:+ sa_DataType a +:+ FormatBool (IsColumn a).

(** What the writer needs: the statements for keys and values, the clock, the keys with too
    many values. *)
Section tags.
Context (keys_st values_st : statement) (now : Z) (shouldSkipKeys : gset string).

(** [utils.MakeKeyForAttributeKeys] on any strings. *)
Definition v2Key (a : SpanAttribute) : string := Key a +:+ ":" +:+ sa_TagType a +:+ ":" +:+ sa_DataType a.

Definition put_value (unixMilli : Z) (key tagType dataType : string) (s : option string) (n : option float64)
    (t : tag_state) : tag_state :=
  add_values (append_ignoring values_st (t_values t)
    {| v_unix_milli := unixMilli; v_tag_key := key; v_tag_type := tagType; v_tag_data_type := dataType;
       v_string_value := s; v_number_value := n |}) t.

(** The row of a value, unless it is too long, or its key is to be skipped. *)
Definition tag_value (unixMilli : Z) (a : SpanAttribute) (t : tag_state) : tag_state :=
  if MaxAttributeValueLength <? len (bytes (StringValue a)) then t
  else if decide (v2Key a ∈ shouldSkipKeys) then t
  else if decide (sa_DataType a = "string")
       then put_value unixMilli (Key a) (sa_TagType a) (sa_DataType a) (Some (StringValue a)) None t
  else if decide (sa_DataType a = "float64")
       then put_value unixMilli (Key a) (sa_TagType a) (sa_DataType a) None (Some (NumberValue a)) t
  else if decide (sa_DataType a = "bool")
       then put_value unixMilli (Key a) (sa_TagType a) (sa_DataType a) None None t
  else t.

(** The row of a key, unless it was seen in the batch or in the cache. *)
Definition tag_key (a : SpanAttribute) (t : tag_state) : option string * tag_state :=
  let k := mapOfSpanAttributeKey a in
  if decide (k ∈ mapOfSpanAttributeKeys t) then (None, see_key k (t_keys t) (t_keysCache t) t)
  else
    match ttl_Get (t_keysCache t) now k with
    | Some _ => (None, see_key k (t_keys t) (t_keysCache t) t)
    | None =>
        match append_err keys_st (length (t_keys t)) with
        | Some e => (Some ("could not append span to tagKey Statement to batch due to error: " +:+ e), t)
        | None =>
            (None, see_key k (t_keys t ++ [ {| k_tagKey := Key a; k_tagType := sa_TagType a; k_dataType := sa_DataType a;
                                               k_isColumn := IsColumn a |} ])
                     (ttl_Set (t_keysCache t) now k true) t)
        end
    end.

Definition tag_attribute (unixMilli : Z) (a : SpanAttribute) (t : tag_state) : option string * tag_state :=
  let vk := mapOfSpanAttributeValueKey a in
  if decide (vk ∈ mapOfSpanAttributeValues t) then (None, t)
  else
    match tag_key a (see_value vk t) with
    | (Some e, t) => (Some e, t)
    | (None, t) => (None, tag_value unixMilli a t)
    end.

Fixpoint tag_attributes (unixMilli : Z) (l : list SpanAttribute) (t : tag_state) : option string * tag_state :=
  match l with
  | [] => (None, t)
  | a :: rest =>
      match tag_attribute unixMilli a t with (Some e, t) => (Some e, t) | (None, t) => tag_attributes unixMilli rest t end
  end.

(** The fields of the span itself. *)
Definition field_rows (f : string) (rows : tag_state → tag_state) (t : tag_state) : tag_state :=
  if decide (f ∈ mapOfSpanFields t) then t else rows (see_field f t).
Definition span_fields (unixMilli : Z) (span : SpanV3) (t : tag_state) : tag_state :=
  let field k d s n := put_value unixMilli k "spanfield" d s n in
  let t := field_rows (s_Name span) (field "name" "string" (Some (s_Name span)) None) t in
  let t := field_rows (s_SpanKind span)
             (λ t, field "kind" "float64" None (Some (float64_of_int (s_Kind span)))
                     (field "kind_string" "string" (Some (s_SpanKind span)) None t)) t in
  field_rows (StatusCodeString span)
    (λ t, field "status_code" "float64" None (Some (float64_of_int (s_StatusCode span)))
            (field "status_code_string" "string" (Some (StatusCodeString span)) None t)) t.

Definition span_unixMilli (span : SpanV3) : Z := Z.quot (i64 (StartTimeUnixNano span / 1000000)) 3600000 * 3600000.

Fixpoint tag_spans (batchSpans : list SpanV3) (t : tag_state) : option string * tag_state :=
  match batchSpans with
  | [] => (None, t)
  | span :: rest =>
      match tag_attributes (span_unixMilli span) (SpanAttributes span) t with
      | (Some e, t) => (Some e, t)
      | (None, t) => tag_spans rest (span_fields (span_unixMilli span) span t)
      end
  end.

(** The values are sent first; the keys only if that worked. *)
Definition writeTagBatchV3 (keysCache : ttl_cache) (batchSpans : list SpanV3)
  : option string * (list key_row * list value_row) * ttl_cache :=
  match prepare_err keys_st with
  | Some e => (Some ("could not prepare batch for span attributes key table due to error: " +:+ e), ([], []), keysCache)
  | None =>
      match prepare_err values_st with
      | Some e => (Some ("could not prepare batch for field values table due to error: " +:+ e), ([], []), keysCache)
      | None =>
          match tag_spans batchSpans (tag_start keysCache) with
          | (Some e, t) => (Some e, ([], []), t_keysCache t)
          | (None, t) =>
              match send_err values_st with
              | Some e => (Some ("could not write to field values table due to error: " +:+ e), ([], []), t_keysCache t)
              | None =>
                  match send_err keys_st with
                  | Some e => (Some ("could not write to span attributes key table due to error: " +:+ e),
                               ([], t_values t), t_keysCache t)
                  | None => (None, (t_keys t, t_values t), t_keysCache t)
                  end
              end
          end
      end
  end.
End tags.

(** ** [WriteBatchOfSpansV3], [WriteResourcesV3] *)

Record trace_statements := {
  index_st : statement; error_st : statement; tagKey_st : statement; fieldValues_st : statement; resource_st : statement }.
Record writer_state := { wr_keysCache : ttl_cache; wr_rfCache : ttl_cache }.
Record traces_written := {
  tw_index : list index_row; tw_errors : list error_row; tw_keys : list key_row; tw_values : list value_row;
  tw_resources : list resource_row }.
Definition no_traces : traces_written :=
  {| tw_index := []; tw_errors := []; tw_keys := []; tw_values := []; tw_resources := [] |}.

(** The three goroutines have their own statements; the error of the tags is only logged. The
    errors are those that may be returned. *)
Definition WriteBatchOfSpansV3 (sts : trace_statements) (now : Z) (shouldSkipKeys : gset string) (w : writer_state)
    (batch : list SpanV3) : list string * traces_written * writer_state :=
  let '(e1, index) := writeIndexBatchV3 (index_st sts) batch in
  let '(e2, errors) := writeErrorBatchV3 (error_st sts) batch in
  let '(_, (keys, values), cache) :=
    writeTagBatchV3 (tagKey_st sts) (fieldValues_st sts) now shouldSkipKeys (wr_keysCache w) batch in
  ((λ e, "TracesWriteBatchOfSpansV3:" +:+ e) <$> (option_list e1 ++ option_list e2),
   {| tw_index := index; tw_errors := errors; tw_keys := keys; tw_values := values; tw_resources := [] |},
   {| wr_keysCache := cache; wr_rfCache := wr_rfCache w |}).

(** A resource is put into the cache whether or not its row was accepted. *)
Fixpoint resources_loop (st : statement) (now : Z) (entries : list (Z * string * string)) (rows : list resource_row)
    (rfCache : ttl_cache) : list resource_row * ttl_cache :=
  match entries with
  | [] => (rows, rfCache)
  | (bucketTs, labels, fp) :: rest =>
      let key := MakeKeyForRFCache bucketTs fp in
      match ttl_Get rfCache now key with
      | Some _ => resources_loop st now rest rows rfCache
      | None => resources_loop st now rest (append_ignoring st rows (labels, fp, bucketTs)) (ttl_Set rfCache now key true)
      end
  end.
Definition seen_entries (seen : resourcesSeenMap) : list (Z * string * string) :=
  (λ '(k, fp), (k.1, k.2, fp)) <$> map_to_list seen.
Definition WriteResourcesV3 (st : statement) (now : Z) (rfCache : ttl_cache) (seen : resourcesSeenMap)
  : option string * list resource_row * ttl_cache :=
  match prepare_err st with
  | Some e => (Some ("couldn't PrepareBatch for inserting resource fingerprints :" +:+ e), [], rfCache)
  | None =>
      let '(rows, rfCache) := resources_loop st now (seen_entries seen) [] rfCache in
      match send_err st with
      | Some e => (Some ("couldn't send resource fingerprints :" +:+ e), [], rfCache)
      | None => (None, rows, rfCache)
      end
  end.

(** ** [pushTraceDataV3] *)

Definition distributedTracesResourceV2Seconds : Z := 1800.
Definition span_bucket (sp : OtelSpan) : Z :=
  tsBucket (i64 (os_StartTimestamp sp / 1000000000)) distributedTracesResourceV2Seconds.

(** What is gathered while walking the batch; the counts are for the usage statistics. *)
Record gathered := { g_seen : resourcesSeenMap; g_batch : list SpanV3; g_count : Z; g_size : Z }.

Definition gather_span (config : bool) (newIDs : nat → nat → string) (oldestAllowedTs : Z) (resource : PMap)
    (serviceName resourceJson : string) (sp : OtelSpan) (g : gathered) : result string gathered :=
  if os_StartTimestamp sp <? oldestAllowedTs then Ok g
  else
    let '(fp, seen) := getOrCreateFingerprint (g_seen g) (span_bucket sp) resourceJson
                         (CalculateFingerprint (PMap_AsRaw resource) ResourceHierarchy) in
    let s := newStructuredSpanV3 (u64 (span_bucket sp)) fp sp serviceName resource config (newIDs (length (g_batch g))) in
    match Marshal_span s with
    | Err e => Err ("failed to marshal structured span: " +:+ e)
    | Ok text => Ok {| g_seen := seen; g_batch := g_batch g ++ [s]; g_count := g_count g + 1;
                       g_size := g_size g + len (bytes text) |}
    end.
Definition gather_resource (config : bool) (newIDs : nat → nat → string) (oldestAllowedTs : Z) (rs : OtelResourceSpans)
    (g : gathered) : result string gathered :=
  match Marshal_strings (AsString <$> PMap_AsRaw (or_Resource rs)) with
  | Err e => Err ("couldn't serialize trace resource JSON: " +:+ e)
  | Ok resourceJson =>
      foldl (λ r sp, g ← r; gather_span config newIDs oldestAllowedTs (or_Resource rs)
                              (ServiceNameForResource (or_Resource rs)) resourceJson sp g)
        (Ok g) (concat (or_ScopeSpans rs))
  end.
Definition gather (config : bool) (newIDs : nat → nat → string) (oldestAllowedTs : Z) (td : list OtelResourceSpans)
  : result string gathered :=
  foldl (λ r rs, g ← r; gather_resource config newIDs oldestAllowedTs rs g)
    (Ok {| g_seen := ∅; g_batch := []; g_count := 0; g_size := 0 |}) td.

Record traces_env := {
  te_sts : trace_statements; te_now : Z; te_oldest : Z; te_skip : gset string; te_config : bool;
  te_newIDs : nat → nat → string }.
Record traces_state := { ts_closed : bool; ts_writer : writer_state }.

(** The errors that may be returned, what was written, and the state after. *)
Definition pushTraceDataV3 (env : traces_env) (s : traces_state) (td : list OtelResourceSpans)
  : list string * traces_written * traces_state :=
  if ts_closed s then (["shutdown has been called"], no_traces, s)
  else
    match gather (te_config env) (te_newIDs env) (u64 (te_oldest env)) td with
    | Err e => ([e], no_traces, s)
    | Ok g =>
        let '(errs, w, wr) := WriteBatchOfSpansV3 (te_sts env) (te_now env) (te_skip env) (ts_writer s) (g_batch g) in
        match errs with
        | _ :: _ => ((λ e, "error in writing spans to clickhouse: " +:+ e) <$> errs, w, {| ts_closed := false; ts_writer := wr |})
        | [] =>
            let '(e, resources, rf) := WriteResourcesV3 (resource_st (te_sts env)) (te_now env) (wr_rfCache wr) (g_seen g) in
            ((λ e, "error in writing resources to clickhouse: " +:+ e) <$> option_list e,
             {| tw_index := tw_index w; tw_errors := tw_errors w; tw_keys := tw_keys w; tw_values := tw_values w;
                tw_resources := resources |},
             {| ts_closed := false; ts_writer := {| wr_keysCache := wr_keysCache wr; wr_rfCache := rf |} |})
        end
    end.

(** ** Lifecycle *)

(** [pushTraceData] is [pushTraceDataV3]; closing twice panics. *)
Definition pushTraceData := pushTraceDataV3.
Definition ShutdownTraces (s : traces_state) : option traces_state :=
  if ts_closed s then None else Some {| ts_closed := true; ts_writer := ts_writer s |}.
(** [doFetchShouldSkipKeys] of the writer: the tag types and data types of the table are strings. *)
Definition fetch_skip_keys (Select : result string (list (string * string * string))) : gset string :=
  match Select with
  | Ok keys => list_to_set ((λ '(k, t, d), k +:+ ":" +:+ t +:+ ":" +:+ d) <$> keys)
  | Err _ => ∅
  end.
End exporter.
