(* ===== verification/TracesExporterProps.v ===== *)
(** * The traces exporter's correctness

    A push without errors writes the spans of the window in order, their exceptions, and
    resources that cover every reference; the table of keys has each key of the batch once;
    and what failures and keys without separators lose. *)
From S2P Require Import Prelude GoText Pdata Sampling Flatten Utils ClickHouse Fingerprint.
From S2P Require Import LogsPipeline LogsPipelineProps TracesSpan TracesSpanProps TracesExporter.

Section props.
Context `{PD : Pdata} `{PT : !PdataText PD} `{PV : !PdataValues PD} `{FV : !Format Value} `{FA : FormatAny}
  `{TT : TraceText} `{FD : FloatDecimal} `{JS : JSON} `{TC : TTLCache}.

(** ** What a push gathers *)

(** The spans that are not too old, with their resources, in order. *)
Definition in_window (oldest : Z) (rs : OtelResourceSpans) : list (PMap * OtelSpan) :=
  (λ sp, (or_Resource rs, sp)) <$> filter (λ sp, (os_StartTimestamp sp <? oldest) = false) (concat (or_ScopeSpans rs)).
Definition window (oldest : Z) (td : list OtelResourceSpans) : list (PMap * OtelSpan) := td ≫= in_window oldest.

Definition resource_text (res : PMap) : result string string := Marshal_strings (AsString <$> PMap_AsRaw res).
Definition fingerprint_of (res : PMap) : string := CalculateFingerprint (PMap_AsRaw res) ResourceHierarchy.

(** A structured span, whose fingerprint is that of a resource with the same text in its
    bucket, and is registered. *)
Definition structured (config : bool) (seen : resourcesSeenMap) (x : PMap * OtelSpan) (s : SpanV3) : Prop :=
  ∃ fp ids json res, s = newStructuredSpanV3 (u64 (span_bucket x.2)) fp x.2 (ServiceNameForResource x.1) x.1 config ids
    ∧ resource_text x.1 = Ok json ∧ resource_text res = Ok json ∧ fp = fingerprint_of res
    ∧ seen !! (span_bucket x.2, json) = Some fp.
Definition fingerprints_real (seen : resourcesSeenMap) : Prop :=
  ∀ b json fp, seen !! (b, json) = Some fp → ∃ res, resource_text res = Ok json ∧ fp = fingerprint_of res.

Record gathers (config : bool) (l : list (PMap * OtelSpan)) (g : gathered) : Prop := {
  gathers_batch : Forall2 (structured config (g_seen g)) l (g_batch g);
  gathers_count : g_count g = len (g_batch g);
  gathers_real : fingerprints_real (g_seen g);
}.

Lemma gather_span_gathers config ids oldest res json sp g g' l :
  resource_text res = Ok json → gathers config l g →
  gather_span config ids oldest res (ServiceNameForResource res) json sp g = Ok g' →
  gathers config (l ++ (if os_StartTimestamp sp <? oldest then [] else [(res, sp)])) g'.
Proof.
  intros Hj [Hb Hc Hr]. unfold gather_span.
  destruct (os_StartTimestamp sp <? oldest); [intros [= <-]; by rewrite app_nil_r|].
  destruct (getOrCreateFingerprint _ _ _ _) as [fp seen] eqn:Eg. destruct (Marshal_span _) as [text|] eqn:Em; [|done].
  intros [= <-]. pose proof (getOrCreate_registers _ _ _ _ _ _ Eg) as Hseen.
  assert (∃ res', resource_text res' = Ok json ∧ fp = fingerprint_of res') as (res' & Hres & Hfp).
  { destruct (getOrCreate_cases _ _ _ _ _ _ Eg) as [[E _]|[-> _]]; [by eapply Hr|by exists res]. }
  split; simpl.
  - apply Forall2_app; [|constructor; [|constructor]].
    + eapply Forall2_impl; [exact Hb|]. intros x s (fp0 & ids0 & json0 & res0 & ? & ? & ? & ? & ?).
      exists fp0, ids0, json0, res0. split_and!; try done. by eapply getOrCreate_keeps.
    + exists fp, (ids (length (g_batch g))), json, res'. by split_and!.
  - unfold len in *. rewrite length_app. simpl. lia.
  - intros b j f Hf. destruct (decide ((b, j) = (span_bucket sp, json))) as [[= -> ->]|Hne].
    + rewrite Hseen in Hf. injection Hf as <-. by exists res'.
    + destruct (getOrCreate_cases _ _ _ _ _ _ Eg) as [[_ ->]|[_ ->]]; [by eapply Hr|].
      unfold resourcesSeenMap in *. rewrite lookup_insert_ne in Hf by done. by eapply Hr.
Qed.

Lemma gather_resource_gathers config ids oldest rs g g' l :
  gathers config l g → gather_resource config ids oldest rs g = Ok g' → gathers config (l ++ in_window oldest rs) g'.
Proof.
  intros Hg. unfold gather_resource. destruct (Marshal_strings _) as [json|] eqn:Ej; [|done].
  unfold in_window. intros H.
  apply (foldl_result_ind _ (λ sps g, gathers config (l ++ ((λ sp, (or_Resource rs, sp)) <$>
    filter (λ sp, (os_StartTimestamp sp <? oldest) = false) sps)) g)) in H; [done|by rewrite app_nil_r|].
  intros done_ sp a a' Ha Hs. pose proof (gather_span_gathers _ _ _ _ _ _ _ _ _ Ej Ha Hs) as Hn.
  rewrite filter_app, fmap_app, app_assoc. rewrite filter_cons, filter_nil. by destruct (os_StartTimestamp sp <? oldest).
Qed.

Lemma gather_gathers config ids oldest td g :
  gather config ids oldest td = Ok g → gathers config (window oldest td) g.
Proof.
  unfold gather. intros H. apply (foldl_result_ind _ (λ td g, gathers config (window oldest td) g)) in H; [done| |].
  - split; [constructor|done|]. intros b json fp Hf. discriminate Hf.
  - intros pre rs a a' Ha Hs. unfold window. rewrite bind_app, bind_singleton. by eapply gather_resource_gathers.
Qed.

(** Nothing can stop it when texts can be made of resources and spans. *)
Lemma gather_ok config ids oldest td :
  (∀ rs, rs ∈ td → is_ok (resource_text (or_Resource rs))) → (∀ s, is_ok (Marshal_span s)) →
  ∃ g, gather config ids oldest td = Ok g.
Proof.
  intros Hr Hs. apply foldl_result_ok. intros rs g Hin. unfold gather_resource. specialize (Hr rs Hin). unfold resource_text in Hr.
  destruct (Marshal_strings _) as [json|]; [|done]. destruct (foldl_result_ok (gather_span config ids oldest (or_Resource rs)
    (ServiceNameForResource (or_Resource rs)) json) (concat (or_ScopeSpans rs)) g) as [g' Hg']; [|by rewrite Hg'].
  intros sp g0 _. unfold gather_span. destruct (_ <? _); [done|]. destruct (getOrCreateFingerprint _ _ _ _).
  match goal with |- context [Marshal_span ?s] => specialize (Hs s); by destruct (Marshal_span s) end.
Qed.

(** ** A push without errors *)

Definition st_works (st : statement) : Prop := accepts st ∧ send_err st = None.
Record good_traces (env : traces_env) (s : traces_state) (td : list OtelResourceSpans) : Prop := {
  gt_open : ts_closed s = false;
  gt_index : st_works (index_st (te_sts env));
  gt_errors : st_works (error_st (te_sts env));
  gt_resources : st_works (resource_st (te_sts env));
  gt_texts : ∀ rs, rs ∈ td → is_ok (resource_text (or_Resource rs));
  gt_spans : ∀ sp, is_ok (Marshal_span sp);
}.

Lemma write_batch_works {R} pre st (rows : list R) : st_works st → write_batch pre st rows = (None, rows).
Proof.
  intros [Hacc Hs]. pose proof (write_rows_accepts st rows Hacc Hs) as H. unfold write_batch, write_rows in *.
  rewrite (proj1 Hacc), Hs in *. destruct rows; [done|]. by destruct (append_all st 0 _).
Qed.

Lemma resources_loop_covers `{!TTLCacheSound TC} st now entries :
  (∀ n, append_err st n = None) → ∀ (rows0 : list resource_row) rf0 (rows : list resource_row) rf,
  (∀ b fp, covered now rf rows b fp → covered now rf0 rows0 b fp) →
  ∃ rows' rf', resources_loop st now entries rows rf = (rows ++ rows', rf')
    ∧ ∀ b l fp, (b, l, fp) ∈ entries → covered now rf0 (rows0 ++ rows') b fp.
Proof.
  intros Hok. induction entries as [|[[b l] fp] entries IH]; intros rows0 rf0 rows rf Hc.
  - exists [], rf. split; [by rewrite app_nil_r|]. set_solver.
  - simpl. destruct (ttl_Get rf now (MakeKeyForRFCache b fp)) as [v|] eqn:Eg.
    + destruct (IH rows0 rf0 rows rf Hc) as (rows' & rf' & -> & Hall). exists rows', rf'. split; [done|].
      intros b' l' fp' [[= -> -> ->]|Hin]%elem_of_cons; [|by eapply Hall].
      destruct (Hc b fp) as [Hs|[lab Hs]]; [left; by rewrite Eg|by left|right; exists lab; set_solver].
    + unfold append_ignoring. rewrite Hok.
      destruct (IH (rows0 ++ [(l, fp, b)]) rf0 (rows ++ [(l, fp, b)]) (ttl_Set rf now (MakeKeyForRFCache b fp) true))
        as (rows' & rf' & E & Hall); [by apply covered_extend|].
      exists ((l, fp, b) :: rows'), rf'. rewrite <- app_assoc in E. split; [exact E|].
      intros b' l' fp' [[= -> -> ->]|Hin]%elem_of_cons; [right; exists l; set_solver|].
      rewrite cons_middle, app_assoc. by eapply Hall.
Qed.

(** C6. A push without errors writes the spans of the window in order and nothing else, with
    their exceptions, and the resource of every span is in the table of resources, or was in
    the cache. The tables of keys and values may fail: they are not reported. *)
Theorem push_traces_spec `{!TTLCacheSound TC} env s td :
  good_traces env s td →
  ∃ w s' spans, pushTraceDataV3 env s td = ([], w, s')
    ∧ Forall2 (λ x sp, ∃ fp ids, sp = newStructuredSpanV3 (u64 (span_bucket x.2)) fp x.2 (ServiceNameForResource x.1) x.1
                                       (te_config env) ids
               ∧ covered (te_now env) (wr_rfCache (ts_writer s)) (tw_resources w) (span_bucket x.2) fp)
        (window (u64 (te_oldest env)) td) spans
    ∧ tw_index w = index_row_of <$> spans ∧ tw_errors w = spans ≫= error_rows.
Proof.
  intros Hgood. destruct (gather_ok (te_config env) (te_newIDs env) (u64 (te_oldest env)) td) as [g Eg]; [apply Hgood..|].
  pose proof (gather_gathers _ _ _ _ _ Eg) as [Hb _ _]. unfold pushTraceDataV3. rewrite (gt_open _ _ _ Hgood), Eg.
  unfold WriteBatchOfSpansV3, writeIndexBatchV3, writeErrorBatchV3.
  rewrite !write_batch_works by apply Hgood.
  destruct (writeTagBatchV3 _ _ _ _ _ _) as [[e [keys values]] cache]. simpl.
  destruct (gt_resources _ _ _ Hgood) as [[Hp Ha] Hs].
  unfold WriteResourcesV3. rewrite Hp, Hs.
  destruct (resources_loop_covers (resource_st (te_sts env)) (te_now env) (seen_entries (g_seen g)) Ha []
    (wr_rfCache (ts_writer s)) [] (wr_rfCache (ts_writer s)) (λ _ _ H, H)) as (rows & rf & -> & Hcov).
  simpl. eexists _, _, (g_batch g). split; [done|]. simpl. split; [|done].
  eapply Forall2_impl; [exact Hb|]. intros [res sp] row (fp & ids & json & res' & -> & _ & _ & _ & Hseen).
  exists fp, ids. split; [done|]. apply (Hcov (span_bucket sp) json fp). apply list_elem_of_fmap.
  exists ((span_bucket sp, json), fp). split; [done|]. by apply elem_of_map_to_list.
Qed.

(** ** The table of keys *)

Section tags.
Context (keys_st values_st : statement) (now : Z) (skip : gset string).
Definition key_of_row (r : key_row) : string := k_tagKey r +:+ k_tagType r +:+ k_dataType r +:+ FormatBool (k_isColumn r).
Definition row_of_key (a : SpanAttribute) : key_row :=
  {| k_tagKey := Key a; k_tagType := sa_TagType a; k_dataType := sa_DataType a; k_isColumn := IsColumn a |}.
(** The key has a row, or the cache at the start had it. *)
Definition known (c0 : ttl_cache) (rows : list key_row) (k : string) : Prop :=
  is_Some (ttl_Get c0 now k) ∨ k ∈ key_of_row <$> rows.

(** The attributes [l] were visited. *)
Record tag_inv (c0 : ttl_cache) (l : list SpanAttribute) (t : tag_state) : Prop := {
  ti_distinct : NoDup (key_of_row <$> t_keys t);
  ti_rows : ∀ r, r ∈ t_keys t → key_of_row r ∈ mapOfSpanAttributeKeys t ∧ ∃ a, a ∈ l ∧ r = row_of_key a;
  ti_keys : ∀ k, k ∈ mapOfSpanAttributeKeys t → known c0 (t_keys t) k;
  ti_cache : ∀ k, is_Some (ttl_Get (t_keysCache t) now k) → known c0 (t_keys t) k;
  ti_seen : ∀ a, a ∈ l → mapOfSpanAttributeValueKey a ∈ mapOfSpanAttributeValues t;
  ti_values : ∀ vk, vk ∈ mapOfSpanAttributeValues t →
    ∃ a, a ∈ l ∧ mapOfSpanAttributeValueKey a = vk ∧ mapOfSpanAttributeKey a ∈ mapOfSpanAttributeKeys t;
}.

(** The rows of values do not matter to the keys. *)
Definition same_keys (t t' : tag_state) : Prop :=
  t_keys t' = t_keys t ∧ mapOfSpanAttributeKeys t' = mapOfSpanAttributeKeys t
  ∧ mapOfSpanAttributeValues t' = mapOfSpanAttributeValues t ∧ t_keysCache t' = t_keysCache t.
Lemma tag_inv_same c0 l t t' : same_keys t t' → tag_inv c0 l t → tag_inv c0 l t'.
Proof. intros (E1 & E2 & E3 & E4) []. split; rewrite ?E1, ?E2, ?E3, ?E4; done. Qed.
Lemma tag_value_same u a t : same_keys t (tag_value values_st skip u a t).
Proof. unfold tag_value. by repeat case_decide || case_match. Qed.
Lemma span_fields_same u sp t : same_keys t (span_fields values_st u sp t).
Proof. unfold span_fields, field_rows. cbv zeta. by repeat case_decide. Qed.

Lemma known_snoc c0 rows r k : known c0 rows k → known c0 (rows ++ [r]) k.
Proof. intros [H|H]; [by left|right]. rewrite fmap_app. set_solver. Qed.

Lemma tag_attribute_inv `{!TTLCacheSound TC} c0 l u a t t' :
  tag_inv c0 l t → tag_attribute keys_st values_st now skip u a t = (None, t') → tag_inv c0 (l ++ [a]) t'.
Proof.
  intros [H1 H2 H3 H4 H5 H6]. unfold tag_attribute.
  destruct (decide (mapOfSpanAttributeValueKey a ∈ mapOfSpanAttributeValues t)) as [Hin|Hnew].
  { intros [= <-]. split; try done; [set_solver| |].
    - intros b [Hb| ->%list_elem_of_singleton]%elem_of_app; [by apply H5|done].
    - intros vk Hvk. destruct (H6 vk Hvk) as (b & Hb & ?). exists b. set_solver. }
  destruct (tag_key _ _ _ _) as [[e|] t1] eqn:E; [done|]. intros [= <-].
  eapply tag_inv_same; [apply tag_value_same|]. unfold tag_key in E. simpl in E.
  assert (∀ b, b ∈ l ++ [a] → mapOfSpanAttributeValueKey b ∈ {[mapOfSpanAttributeValueKey a]} ∪ mapOfSpanAttributeValues t) as Hseen.
  { intros b [Hb| ->%list_elem_of_singleton]%elem_of_app; [apply H5 in Hb|]; set_solver. }
  assert (∀ vk, vk ∈ {[mapOfSpanAttributeValueKey a]} ∪ mapOfSpanAttributeValues t →
    ∃ b, b ∈ l ++ [a] ∧ mapOfSpanAttributeValueKey b = vk
      ∧ mapOfSpanAttributeKey b ∈ {[mapOfSpanAttributeKey a]} ∪ mapOfSpanAttributeKeys t) as Hvalues.
  { intros vk [->%elem_of_singleton|Hvk]%elem_of_union;
    [exists a; set_solver|destruct (H6 vk Hvk) as (b' & ? & ? & ?); exists b'; set_solver]. }
  destruct (decide (mapOfSpanAttributeKey a ∈ mapOfSpanAttributeKeys t)) as [Hk|Hk]; [|destruct (ttl_Get _ _ _) as [b|] eqn:Eg].
  3: destruct (append_err _ _); [done|].
  all: injection E as <-; split; simpl; try done.
  all: try (intros r Hr; destruct (H2 r Hr) as (? & b' & ? & ?); split; [set_solver|exists b'; set_solver]).
  - intros k [->%elem_of_singleton|Hk']%elem_of_union; by apply H3.
  - intros k [->%elem_of_singleton|Hk']%elem_of_union; [apply H4; by eexists|by apply H3].
  - rewrite fmap_app. apply NoDup_app. split; [done|]. split; [|apply NoDup_singleton].
    intros x Hx Hx'. simpl in Hx'. apply list_elem_of_singleton in Hx' as ->.
    apply list_elem_of_fmap in Hx as (r & Hr1 & Hr2). apply H2 in Hr2 as [Hr2 _]. apply Hk. unfold mapOfSpanAttributeKey. unfold key_of_row in *. simpl in *. by rewrite Hr1.
  - intros r [Hr| ->%list_elem_of_singleton]%elem_of_app; [|split; [unfold key_of_row, mapOfSpanAttributeKey; set_solver|exists a; set_solver]].
    destruct (H2 r Hr) as (? & b' & ? & ?); split; [set_solver|exists b'; set_solver].
  - intros k [->%elem_of_singleton|Hk']%elem_of_union; [right; rewrite fmap_app; set_solver|apply known_snoc; by apply H3].
  - intros k [v Hv]. destruct (decide (k = mapOfSpanAttributeKey a)) as [->|Hne]; [right; rewrite fmap_app; set_solver|].
    apply ttl_hit_Set_ne in Hv; [|done]. apply known_snoc, H4. by eexists.
Qed.

Lemma tag_attributes_inv `{!TTLCacheSound TC} c0 u l : ∀ l0 t t',
  tag_inv c0 l0 t → tag_attributes keys_st values_st now skip u l t = (None, t') → tag_inv c0 (l0 ++ l) t'.
Proof.
  induction l as [|a l IH]; intros l0 t t' Hi; simpl; [intros [= <-]; by rewrite app_nil_r|].
  destruct (tag_attribute _ _ _ _ _ _ _) as [[e|] t1] eqn:E; [done|]. intros H.
  rewrite cons_middle, app_assoc. eapply IH; [|done]. by eapply tag_attribute_inv.
Qed.

Lemma tag_spans_inv `{!TTLCacheSound TC} c0 batch : ∀ l0 t t',
  tag_inv c0 l0 t → tag_spans keys_st values_st now skip batch t = (None, t') → tag_inv c0 (l0 ++ (batch ≫= SpanAttributes)) t'.
Proof.
  induction batch as [|sp batch IH]; intros l0 t t' Hi; [intros [= <-]; by rewrite app_nil_r|].
  rewrite bind_cons, app_assoc. cbn [tag_spans].
  destruct (tag_attributes _ _ _ _ _ _ _) as [[e|] t1] eqn:E; [done|]. intros H.
  eapply IH; [|done]. eapply tag_inv_same; [apply span_fields_same|]. by eapply tag_attributes_inv.
Qed.

(** Each key of the batch has one row unless the cache has it already, no two rows have one
    key, and every row is of an attribute of the batch, provided that no two attributes with
    different keys have their fields run together into one text. *)
Theorem tag_keys_complete `{!TTLCacheSound TC} c batch t :
  tag_spans keys_st values_st now skip batch (tag_start c) = (None, t) →
  (∀ a b, a ∈ batch ≫= SpanAttributes → b ∈ batch ≫= SpanAttributes →
     mapOfSpanAttributeValueKey a = mapOfSpanAttributeValueKey b → mapOfSpanAttributeKey a = mapOfSpanAttributeKey b) →
  NoDup (key_of_row <$> t_keys t)
  ∧ (∀ r, r ∈ t_keys t → ∃ a, a ∈ batch ≫= SpanAttributes ∧ r = row_of_key a)
  ∧ ∀ a, a ∈ batch ≫= SpanAttributes →
      is_Some (ttl_Get c now (mapOfSpanAttributeKey a)) ∨ mapOfSpanAttributeKey a ∈ key_of_row <$> t_keys t.
Proof.
  intros H Hinj. eapply (tag_spans_inv c batch []) in H as [H1 H2 H3 H4 H5 H6].
  2: { split; simpl; try set_solver; [constructor|]. intros k Hk. by left. }
  split_and!; [done|intros r Hr; by destruct (H2 r Hr) as [_ ?]|]. intros a Ha.
  destruct (H6 _ (H5 a Ha)) as (b & Hb & Hab & Hk). rewrite (Hinj a b Ha Hb) by done. by apply H3.
Qed.
End tags.

(** The texts of two attributes with different keys can be the same: the second is skipped,
    and neither its key nor its value is written. *)
Theorem attributes_run_together :
  ∃ a b, Key a ≠ Key b ∧ StringValue a ≠ StringValue b ∧ ∀ keys_st values_st now skip u t,
    tag_attributes keys_st values_st now skip u [a; b] t = tag_attributes keys_st values_st now skip u [a] t.
Proof.
  exists (attribute_of "tag" "a" "string" "tagstringb" zero_float), (attribute_of "tag" "atagstring" "string" "b" zero_float).
  split; [done|]. split; [done|]. intros. simpl.
  set (a := attribute_of _ "a" _ _ _). set (b := attribute_of _ "atagstring" _ _ _).
  assert (mapOfSpanAttributeValueKey b = mapOfSpanAttributeValueKey a) as Eab by done.
  destruct (tag_attribute keys_st values_st now skip u a t) as [[e|] t1] eqn:E; [done|].
  assert (mapOfSpanAttributeValueKey a ∈ mapOfSpanAttributeValues t1) as Hin.
  { unfold tag_attribute in E. destruct (decide _) as [Hd|_]; [by injection E as <-|].
    destruct (tag_key _ _ _ _) as [[?|] t2] eqn:E2; [done|]. injection E as <-.
    destruct (tag_value_same values_st skip u a t2) as (_ & _ & -> & _). unfold tag_key in E2.
    repeat (case_decide || case_match); simplify_eq/=; set_solver. }
  unfold tag_attribute. rewrite Eab. by rewrite decide_True.
Qed.

(** The fields of spans share one set: a span named like its kind has no row for the kind. *)
Theorem name_hides_kind values_st u sp t r :
  s_Name sp = s_SpanKind sp → r ∈ t_values (span_fields values_st u sp t) → v_tag_key r = "kind" → r ∈ t_values t.
Proof.
  intros Hn. unfold span_fields, field_rows. cbv zeta. rewrite <- Hn.
  assert (∀ k d x n t, v_tag_key r = "kind" → k ≠ "kind" →
    r ∈ t_values (put_value values_st u k "spanfield" d x n t) → r ∈ t_values t) as Hput.
  { intros k d x n t' Hr Hk. unfold put_value, append_ignoring. simpl. destruct (append_err _ _); [done|].
    intros [?| ->%list_elem_of_singleton]%elem_of_app; [done|]. by simpl in Hr. }
  intros H Hr.
  assert (∀ t' : tag_state, s_Name sp ∈ mapOfSpanFields t' →
    t_values (if decide (s_Name sp ∈ mapOfSpanFields t') then t' else put_value values_st u "kind" "spanfield" "float64" None
       (Some (float64_of_int (s_Kind sp))) (put_value values_st u "kind_string" "spanfield" "string" (Some (s_Name sp)) None
       (see_field (s_Name sp) t'))) = t_values t') as Hskip by (intros t' Ht; by rewrite decide_True).
  set (t1 := if decide (s_Name sp ∈ mapOfSpanFields t) then t else _) in H.
  assert (s_Name sp ∈ mapOfSpanFields t1) as Ht1 by (unfold t1; destruct (decide _); [done|]; simpl; set_solver).
  assert (r ∈ t_values t1) as H1.
  { rewrite <- (Hskip t1 Ht1). destruct (decide (StatusCodeString sp ∈ _)); [done|]. by do 2 apply Hput in H. }
  unfold t1 in H1. destruct (decide _); [done|]. by apply Hput in H1.
Qed.

(** ** Resources that are lost *)

Lemma resources_loop_caches `{!TTLCacheLaws TC ttl} st now t' entries : now ≤ t' < now + ttl → ∀ rows rf,
  (∀ b l fp, (b, l, fp) ∈ entries →
     ttl_Get rf now (MakeKeyForRFCache b fp) = None ∨ is_Some (ttl_Get rf t' (MakeKeyForRFCache b fp))) →
  ∀ b l fp, (b, l, fp) ∈ entries → is_Some (ttl_Get (resources_loop st now entries rows rf).2 t' (MakeKeyForRFCache b fp)).
Proof.
  intros Ht. assert (∀ entries rows rf k, is_Some (ttl_Get rf t' k) → is_Some (ttl_Get (resources_loop st now entries rows rf).2 t' k)) as Hkeep.
  { clear -Ht TTLCacheLaws0. intros entries. induction entries as [|[[b l] fp] entries IH]; intros rows rf k Hk; simpl; [done|].
    destruct (ttl_Get rf now _); [by apply IH|]. apply IH. destruct (decide (k = MakeKeyForRFCache b fp)) as [->|].
    - rewrite ttl_Get_Set by done. by eexists.
    - by rewrite ttl_Get_Set_ne. }
  induction entries as [|[[b l] fp] entries IH]; intros rows rf H b' l' fp' Hin; [by apply elem_of_nil in Hin|]. simpl.
  set (key := MakeKeyForRFCache b fp) in *.
  destruct (ttl_Get rf now key) as [v|] eqn:Eg.
  - apply elem_of_cons in Hin as [[= -> -> ->]|Hin]; [|eapply IH; [|done]; intros; apply (H _ l0); set_solver].
    apply Hkeep. destruct (H b l fp) as [Hn|?]; [set_solver| |done]. unfold key in Eg. congruence.
  - assert (is_Some (ttl_Get (ttl_Set rf now key true) t' key)) as Hset by (rewrite ttl_Get_Set by done; by eexists).
    apply elem_of_cons in Hin as [[= -> -> ->]|Hin]; [by apply Hkeep|].
    eapply IH; [|done]. intros b2 l2 fp2 Hin2. destruct (decide (MakeKeyForRFCache b2 fp2 = key)) as [->|Hne]; [by right|].
    rewrite !ttl_Get_Set_ne by done. apply (H _ l2). set_solver.
Qed.
Lemma resources_loop_skips st now entries rows rf :
  (∀ b l fp, (b, l, fp) ∈ entries → is_Some (ttl_Get rf now (MakeKeyForRFCache b fp))) →
  resources_loop st now entries rows rf = (rows, rf).
Proof.
  induction entries as [|[[b l] fp] entries IH]; intros H; [done|]. simpl.
  destruct (H b l fp ltac:(set_solver)) as [v ->]. apply IH. intros b' l' fp' Hin. apply (H b' l' fp'). set_solver.
Qed.
Lemma seen_entries_fresh rf now seen :
  (∀ b json fp, seen !! (b, json) = Some fp → ttl_Get rf now (MakeKeyForRFCache b fp) = None) →
  ∀ b l fp, (b, l, fp) ∈ seen_entries seen → ttl_Get rf now (MakeKeyForRFCache b fp) = None.
Proof.
  intros H b l fp ([k fp'] & [= -> -> ->] & Hk)%list_elem_of_fmap. apply elem_of_map_to_list in Hk. destruct k. by eapply H.
Qed.

(** Whether the table refuses the rows, of which nothing is reported, or the Send fails, the
    resources are cached: within the time to live no later push writes them. *)
Theorem refused_resources_lost `{!TTLCacheLaws TC ttl} st st' now t' rf seen :
  now ≤ t' < now + ttl → prepare_err st = None → (∀ n, append_err st n ≠ None) ∨ send_err st ≠ None → st_works st' →
  (∀ b json fp, seen !! (b, json) = Some fp → ttl_Get rf now (MakeKeyForRFCache b fp) = None) →
  let '(e, rows, rf1) := WriteResourcesV3 st now rf seen in
  rows = [] ∧ (send_err st = None → e = None)
  ∧ let '(e', rows', _) := WriteResourcesV3 st' t' rf1 seen in e' = None ∧ rows' = [].
Proof.
  intros Ht Hp Hfail [[Hp' _] Hs'] Hfresh. unfold WriteResourcesV3. rewrite Hp.
  pose proof (resources_loop_caches st now t' (seen_entries seen) Ht [] rf) as Hc.
  assert ((∀ n, append_err st n ≠ None) → ∀ entries rf, (resources_loop st now entries [] rf).1 = []) as Hnil.
  { clear. intros Ha entries. induction entries as [|[[b l] fp] entries IH]; intros rf; [done|]. simpl.
    destruct (ttl_Get _ _ _); [apply IH|]. unfold append_ignoring. specialize (Ha 0%nat). simpl. destruct (append_err st 0); [apply IH|done]. }
  destruct (resources_loop _ _ _ _ _) as [rows rf1] eqn:E. simpl in Hc.
  assert (resources_loop st' t' (seen_entries seen) [] rf1 = ([], rf1)) as Hskip.
  { apply resources_loop_skips. intros b l fp Hin. eapply Hc; [|exact Hin]. intros. left. by eapply seen_entries_fresh. }
  destruct (send_err st) as [e|] eqn:Es; rewrite Hp', Hskip, Hs'; [done|]. split; [|done].
  destruct Hfail as [Ha|]; [|done]. specialize (Hnil Ha (seen_entries seen) rf). by rewrite E in Hnil.
Qed.
End props.

(** ** Witnesses *)

Section witnesses.
Import TestPdata.
#[local] Instance w_cache : TTLCache := TestTTL.test_cache 60000.
#[local] Instance w_cache_laws : TTLCacheLaws w_cache 60000 := TestTTL.test_cache_laws 60000.
#[local] Instance w_values : PdataValues test_pdata := {|
  Type_of v := match v with VStr _ => Flatten.ValueTypeStr | VInt _ => ValueTypeInt end;
  Double _ := zero_float; Bool _ := false; BytesAsRaw _ := ""; MapEntries _ := [];
|}.
#[local] Instance w_format : Format tvalue := {| format_s := AsString; format_v := AsString |}.
#[local] Instance w_any : FormatAny := {| Sprint _ := "" |}.
#[local] Instance w_json : JSON := {|
  Marshal_strings _ := Ok "{}"; Marshal_numbers _ := Ok "{}"; Marshal_bools _ := Ok "{}"; Marshal_any _ := Ok "{}";
|}.
#[local] Instance w_text : TraceText := {|
  Marshal_event _ := Ok "{}"; Marshal_references _ := Ok "[]"; Marshal_span _ := Ok "{}"; md5_hex s := s;
  url_Hostname _ := Err "";
|}.
#[local] Instance w_float : FloatDecimal := {| FormatFloat_f _ := "0" |}.

Definition w_ok : statement := {| prepare_err := None; append_err _ := None; send_err := None |}.
Definition w_down : statement := {| prepare_err := Some "down"; append_err _ := None; send_err := None |}.
Definition w_refuses : statement := {| prepare_err := None; append_err _ := Some "refused"; send_err := None |}.
Lemma w_ok_works : st_works w_ok.
Proof. by split. Qed.

Definition w_span (t : Z) : OtelSpan :=
  {| os_TraceID := "t"; os_SpanID := "s"; os_ParentSpanID := ""; os_TraceState := ""; os_Flags := 0; os_Name := "get";
     os_Kind := SpanKindServer; os_StartTimestamp := t; os_EndTimestamp := t + 5;
     os_Attributes := [("http.method", VStr "GET"); ("n", VInt 4)]; os_Events := []; os_Links := [];
     os_StatusCode := StatusCodeOk; os_StatusMessage := "" |}.
Definition w_td : list OtelResourceSpans :=
  [ {| or_Resource := [("service.name", VStr "api")]; or_ScopeSpans := [[w_span 5; w_span 2000]; [w_span 3000]] |} ].
(** The tables of keys and values are down. *)
Definition w_env : traces_env :=
  {| te_sts := {| index_st := w_ok; error_st := w_ok; tagKey_st := w_down; fieldValues_st := w_down; resource_st := w_ok |};
     te_now := 0; te_oldest := 1000; te_skip := ∅; te_config := true; te_newIDs _ _ := "id" |}.
Definition w_state : traces_state :=
  {| ts_closed := false; ts_writer := {| wr_keysCache := ttl_New; wr_rfCache := ttl_New |} |}.

Lemma push_traces_spec_witness :
  ∃ w s', pushTraceDataV3 w_env w_state w_td = ([], w, s') ∧ length (tw_index w) = 2%nat.
Proof.
  destruct (push_traces_spec w_env w_state w_td) as (w & s' & spans & H1 & H2 & H3 & _).
  { split; [reflexivity|exact w_ok_works|exact w_ok_works|exact w_ok_works|done|done]. }
  exists w, s'. split; [exact H1|]. rewrite H3, length_fmap, <- (Forall2_length _ _ _ H2). vm_compute. reflexivity.
Defined.

Lemma span_data_spec_witness :
  at_key (span_data ([("http.method", VStr "GET"); ("n", VInt 4)] : PMap (PD := test_pdata))) "n" = (None, Some (float64_of_int 4), None).
Proof.
  rewrite (span_data_spec ([("http.method", VStr "GET"); ("n", VInt 4)] : PMap (PD := test_pdata)) "n"); [reflexivity| |].
  - apply (bool_decide_eq_true_1 _). vm_compute. reflexivity.
  - repeat (constructor; [discriminate|]). constructor.
Defined.

Definition w_row : SpanV3 :=
  newStructuredSpanV3 0 "fp" (w_span 2000) "api" [("service.name", VStr "api")] true (λ _, "id").
Lemma tag_keys_complete_witness :
  ∃ t, tag_spans w_ok w_ok 0 ∅ [w_row; w_row] (tag_start ttl_New) = (None, t) ∧ NoDup (key_of_row <$> t_keys t).
Proof.
  destruct (tag_spans w_ok w_ok 0 ∅ [w_row; w_row] (tag_start ttl_New)) as [e t] eqn:E.
  assert ((tag_spans w_ok w_ok 0 ∅ [w_row; w_row] (tag_start ttl_New)).1 = None) as He by (vm_compute; reflexivity).
  rewrite E in He. simpl in He. subst e. exists t. split; [reflexivity|].
  apply (tag_keys_complete w_ok w_ok 0 ∅ ttl_New [w_row; w_row] t E).
  assert (∀ l : list SpanAttribute, forallb (λ a, forallb (λ b,
    bool_decide (mapOfSpanAttributeValueKey a = mapOfSpanAttributeValueKey b → mapOfSpanAttributeKey a = mapOfSpanAttributeKey b)) l) l = true →
    ∀ a b, a ∈ l → b ∈ l → mapOfSpanAttributeValueKey a = mapOfSpanAttributeValueKey b → mapOfSpanAttributeKey a = mapOfSpanAttributeKey b) as H.
  { intros l Hl a b Ha Hb. rewrite forallb_forall in Hl. apply list_elem_of_In in Ha, Hb.
    specialize (Hl a Ha). rewrite forallb_forall in Hl. exact (bool_decide_eq_true_1 _ (Hl b Hb)). }
  apply H. vm_compute. reflexivity.
Defined.

(** The rows are refused and nothing is reported; the next push finds the resource cached. *)
Lemma refused_resources_lost_witness :
  let '(e, rows, rf1) := WriteResourcesV3 w_refuses 0 ttl_New {[ (0, "{}") := "fp" ]} in
  rows = [] ∧ e = None ∧ let '(e', rows', _) := WriteResourcesV3 w_ok 1000 rf1 {[ (0, "{}") := "fp" ]} in e' = None ∧ rows' = [].
Proof.
  pose proof (refused_resources_lost w_refuses w_ok 0 1000 ttl_New {[ (0, "{}") := "fp" ]}) as H.
  destruct (WriteResourcesV3 w_refuses _ _ _) as [[e rows] rf1].
  destruct H as (H1 & H2 & H3); [lia|reflexivity|by left|exact w_ok_works|intros; apply ttl_Get_New|].
  exact (conj H1 (conj (H2 eq_refl) H3)).
Defined.
End witnesses.
