(* ===== verification/Metering.v ===== *)
(** * Metering

    src/pkg/metering: the sizes of json.go ([jsonSizer]) and the meters of v1 (logs.go,
    traces.go, metrics.go), which count what is billed. Sizes are integers: a size that
    overflows is that of no data that fits in memory. *)
From S2P Require Import Prelude GoText Pdata Sampling Flatten Utils Fingerprint Pmetric Keycheck LogsPipeline ClickHouse.
From S2P Require Import LogsExporter TracesSpan.

(** [Value.AsRaw]. *)
Class PdataRaw (P : Pdata) := { Value_AsRaw : Value → any }.
(** [json.Marshal] of a string and of a slice of strings; [pmetric.JSONMarshaler]. *)
Class MeterJSON `{PD : Pdata} := {
  Marshal_string : string → result string string;
  Marshal_string_list : list string → result string string;
  MarshalMetrics : Metrics → result string string;
}.

(** ** [jsonSizer] *)

Section sizer.
Context `{PD : Pdata} `{PT : !PdataText PD} `{PV : !PdataValues PD} `{FA : FormatAny} `{TT : TraceText} `{FD : FloatDecimal}
  `{JS : JSON} `{MJ : !MeterJSON} `{RW : !PdataRaw PD}.

(** The length of the text, and zero when there is none. *)
Definition size_of (text : result string string) : Z := match text with Ok s => len (bytes s) | Err _ => 0 end.

Section exclude.
Context (ExcludePattern : option (string → bool)).
Definition excluded (k : string) : bool := match ExcludePattern with Some m => m k | None => false end.

Definition SizeOfMapStringAny (input : gmap string any) : Z :=
  size_of (Marshal_any (match ExcludePattern with
                        | Some m => filter (λ kv, m kv.1 = false) input
                        | None => input
                        end)).

Definition flat_string_add (k : string) (v : Value) (output : gmap string string) : gmap string string :=
  if excluded k then output
  else
    match Type_of v with
    | ValueTypeMap => map_fold (λ kf vf output, <[kf := Sprint vf]> output) output (FlattenJSON (MapEntries v) k)
    | _ => <[k := AsString v]> output
    end.
Definition flat_strings (input : PMap) : gmap string string :=
  foldl (λ output '(k, v), flat_string_add k v output) ∅ input.
Definition SizeOfFlatPcommonMapInMapStringString (input : PMap) : Z := size_of (Marshal_strings (flat_strings input)).
End exclude.

Record number_string_bool := { nsb_n : gmap string float64; nsb_s : gmap string string; nsb_b : gmap string bool }.
Definition nsb_number (k : string) (x : float64) (m : number_string_bool) : number_string_bool :=
  {| nsb_n := <[k := x]> (nsb_n m); nsb_s := nsb_s m; nsb_b := nsb_b m |}.
Definition nsb_string (k s : string) (m : number_string_bool) : number_string_bool :=
  {| nsb_n := nsb_n m; nsb_s := <[k := s]> (nsb_s m); nsb_b := nsb_b m |}.
Definition nsb_bool (k : string) (b : bool) (m : number_string_bool) : number_string_bool :=
  {| nsb_n := nsb_n m; nsb_s := nsb_s m; nsb_b := <[k := b]> (nsb_b m) |}.
(** Numbers of flattened maps are not checked. *)
Definition nsb_flat (kf : string) (vf : any) (m : number_string_bool) : number_string_bool :=
  match vf with AStr s => nsb_string kf s m | AFloat x => nsb_number kf x m | ABool b => nsb_bool kf b m | _ => m end.
Definition nsb_add (k : string) (v : Value) (m : number_string_bool) : number_string_bool :=
  match Type_of v with
  | ValueTypeDouble => if IsValidFloat (Double v) then nsb_number k (Double v) m else m
  | ValueTypeInt => nsb_number k (float64_of_int (Int v)) m
  | ValueTypeBool => nsb_bool k (Bool v) m
  | ValueTypeMap => map_fold nsb_flat m (FlattenJSON (MapEntries v) k)
  | _ => nsb_string k (AsString v) m
  end.
Definition nsb_of (input : PMap) : number_string_bool :=
  foldl (λ m '(k, v), nsb_add k v m) {| nsb_n := ∅; nsb_s := ∅; nsb_b := ∅ |} input.
(** The sizes of the numbers, the strings and the booleans. *)
Definition SizeOfFlatPcommonMapInNumberStringBool (input : PMap) : Z * Z * Z :=
  let m := nsb_of input in
  (size_of (Marshal_numbers (nsb_n m)), size_of (Marshal_strings (nsb_s m)), size_of (Marshal_bools (nsb_b m))).

Definition SizeOfInt (input : Z) : Z := len (bytes (FormatInt input)).
Definition SizeOfFloat64 (input : float64) : Z := len (bytes (FormatFloat_f input)).
Definition SizeOfTraceID (input : string) : Z := if IsEmpty input then 0 else 32.
Definition SizeOfSpanID (input : string) : Z := if IsEmpty input then 0 else 16.
Definition SizeOfEvents (input : list string) : Z := size_of (Marshal_string_list input).

(** [strings.Count] of the double quote. *)
Definition count_quotes (s : string) : Z := len (filter (λ c, c = ascii_of_nat 34) (bytes s)).
Definition SizeOfOtelSpanRefs (input : list OtelSpanRef) : Z :=
  match input with
  | [] => 0
  | _ => match Marshal_references input with Ok s => len (bytes s) + count_quotes s | Err _ => 0 end
  end.

Definition TotalSizeIfKeyExists (key value extra : Z) : Z := if value =? 0 then 0 else key + value + extra.
Definition TotalSizeIfKeyExistsAndValueIsMapOrSlice (key value extra : Z) : Z :=
  if value <=? 2 then 0 else key + value + extra.

(** ** Traces (v1/traces.go) *)

(** The length of a key with its quotes; a key that is not in the map would have length zero. *)
Definition KeySizes : list string :=
  ["resources_string"; "startTimeUnixNano"; "traceId"; "spanId"; "traceState"; "parentSpanId"; "flags"; "name"; "kind";
   "spanKind"; "attributes_string"; "attributes_bool"; "attributes_number"; "serviceName"; "event"; "references"].
Definition KeySize (k : string) : Z := if decide (k ∈ KeySizes) then len (bytes k) + 2 else 0.

(** One span; [res] is the size of its resource. *)
Definition span_size (resource : PMap) (res : Z) (sp : OtelSpan) : Z :=
  let refs := SizeOfOtelSpanRefs (NewOtelSpanRefs (os_Links sp) (os_ParentSpanID sp) (os_TraceID sp)) in
  let serviceName := ServiceName resource in
  let service := size_of (Marshal_string serviceName) in
  let events := SizeOfEvents (NewEventsAndErrorEvents (os_Events sp) serviceName false (λ _, "")).1 in
  let '(numbers, strings, bools) := SizeOfFlatPcommonMapInNumberStringBool (os_Attributes sp) in
  let flags := if os_Flags sp =? 0 then 0 else SizeOfInt (os_Flags sp) in
  2
  + TotalSizeIfKeyExistsAndValueIsMapOrSlice (KeySize "resources_string") res 2
  + TotalSizeIfKeyExists (KeySize "startTimeUnixNano") (SizeOfInt (i64 (os_StartTimestamp sp))) 2
  + TotalSizeIfKeyExists (KeySize "spanId") (SizeOfSpanID (os_SpanID sp)) 4
  + TotalSizeIfKeyExists (KeySize "traceId") (SizeOfTraceID (os_TraceID sp)) 4
  + TotalSizeIfKeyExists (KeySize "traceState") (len (bytes (os_TraceState sp))) 4
  + TotalSizeIfKeyExists (KeySize "parentSpanId") (SizeOfSpanID (os_ParentSpanID sp)) 4
  + TotalSizeIfKeyExists (KeySize "flags") flags 2
  + TotalSizeIfKeyExists (KeySize "name") (len (bytes (os_Name sp))) 4
  + TotalSizeIfKeyExists (KeySize "kind") (SizeOfInt (SpanKind_num (os_Kind sp))) 2
  + TotalSizeIfKeyExists (KeySize "spanKind") (len (bytes (SpanKind_String (os_Kind sp)))) 4
  + TotalSizeIfKeyExistsAndValueIsMapOrSlice (KeySize "attributes_string") strings 2
  + TotalSizeIfKeyExistsAndValueIsMapOrSlice (KeySize "attributes_bool") bools 2
  + TotalSizeIfKeyExistsAndValueIsMapOrSlice (KeySize "attributes_number") numbers 2
  + TotalSizeIfKeyExists (KeySize "serviceName") service 2
  + TotalSizeIfKeyExistsAndValueIsMapOrSlice (KeySize "event") events 2
  + TotalSizeIfKeyExistsAndValueIsMapOrSlice (KeySize "references") refs 4 - 1.

Definition Traces_SizePerResource (rtd : OtelResourceSpans) : Z :=
  let res := SizeOfFlatPcommonMapInMapStringString (Some is_workspace_key) (or_Resource rtd) in
  foldl (λ total spans, foldl (λ total sp, total + span_size (or_Resource rtd) res sp) total spans) 0 (or_ScopeSpans rtd).
Definition Traces_Size (td : list OtelResourceSpans) : Z := foldl (λ total rtd, total + Traces_SizePerResource rtd) 0 td.
Definition Traces_CountPerResource (rtd : OtelResourceSpans) : Z :=
  foldl (λ spanCount spans, spanCount + len spans) 0 (or_ScopeSpans rtd).

(** ** Logs (v1/logs.go) *)

Definition Logs_SizePerResource (rld : ResourceLogs) : Z :=
  let resourceAttributesSize := SizeOfMapStringAny (Some is_workspace_key) (Value_AsRaw <$> rl_Resource rld) in
  foldl (λ total sl, foldl (λ total lr,
      total + (resourceAttributesSize + SizeOfMapStringAny (Some is_workspace_key) (Value_AsRaw <$> lr_Attributes lr)
               + len (bytes (AsString (lr_Body lr))))) total (sl_LogRecords sl)) 0 (rl_ScopeLogs rld).
Definition Logs_Size (ld : Logs) : Z := foldl (λ total rld, total + Logs_SizePerResource rld) 0 ld.
Definition Logs_CountPerResource (rld : ResourceLogs) : Z :=
  foldl (λ logCount sl, logCount + len (sl_LogRecords sl)) 0 (rl_ScopeLogs rld).

(** ** Metrics (v1/metrics.go) *)

(** The regular expression ^(signoz|otelcol).* *)
Definition excludeRegex (name : string) : bool := has_prefix name "signoz" || has_prefix name "otelcol".

Definition Metrics_Size (md : Metrics) : Z := size_of (MarshalMetrics md).
Definition Metrics_SizePerResource (rmd : ResourceMetrics) : Z := 0.

(** One where the optional field is there. *)
Definition present {A} (x : option A) : Z := if x then 1 else 0.
Definition hist_count (dp : HistogramDataPoint) : Z :=
  len (h_BucketCounts dp) + 1 + present (h_Sum dp) + present (h_Min dp) + present (h_Max dp).
Definition summary_count (dp : SummaryDataPoint) : Z := len (s_QuantileValues dp) + 2.
Definition exp_count (dp : ExponentialHistogramDataPoint) : Z :=
  len (e_Negative dp).2 + len (e_Positive dp).2 + 1 + present (e_Sum dp) + present (e_Min dp) + present (e_Max dp).
Definition metric_count (m : Metric) : Z :=
  if excludeRegex (m_Name m) then 0
  else
    match m_Data m with
    | Gauge points => len points
    | Sum _ _ points => len points
    | Histogram _ points => foldl (λ subCount dp, subCount + hist_count dp) 0 points
    | Summary points => foldl (λ subCount dp, subCount + summary_count dp) 0 points
    | ExponentialHistogram _ points => foldl (λ subCount dp, subCount + exp_count dp) 0 points
    | Empty => 0
    end.
Definition Metrics_CountPerResource (rmd : ResourceMetrics) : Z :=
  foldl (λ count sm, foldl (λ count m, count + metric_count m) count (sm_Metrics sm)) 0 (rm_ScopeMetrics rmd).
Definition Metrics_Count (md : Metrics) : Z := foldl (λ count rm, count + Metrics_CountPerResource rm) 0 md.
End sizer.
