(* ===== verification/MeteringProps.v ===== *)
(** * What is billed

    The size of a span that the meter adds up field by field is the length of the text the
    traces exporter makes of its row; the count of metrics is the number of samples the
    metrics exporter writes. *)
From S2P Require Import Prelude GoText Pdata Sampling Flatten Utils Fingerprint Pmetric ClickHouse.
From S2P Require Import MetricsExporter MetricsExporterProps LogsPipeline LogsExporter TracesSpan TracesSpanProps TracesExporter Metering.

(** A loop over a map acts on a part of its state by itself. *)
Lemma map_fold_part {A B C} (h : B → C) (f : string → A → B → B) (g : string → A → C → C) (P : string → A → Prop)
    (m : gmap string A) (b : B) :
  (∀ k x, m !! k = Some x → P k x) → (∀ k x b, P k x → h (f k x b) = g k x (h b)) →
  h (map_fold f b m) = map_fold g (h b) m.
Proof.
  intros HP Hf. rewrite !map_fold_foldr.
  assert (∀ k x, (k, x) ∈ map_to_list m → P k x) as Hl by (intros k x Hin%elem_of_map_to_list; by apply HP).
  revert Hl. induction (map_to_list m) as [|[k x] l IH]; intros Hl; [done|]. simpl.
  rewrite Hf by (apply Hl; set_solver). f_equal. apply IH. intros. apply Hl. set_solver.
Qed.

Section maps.
Context `{PD : Pdata} `{PT : !PdataText PD} `{PV : !PdataValues PD} `{FA : FormatAny} `{TT : TraceText} `{FD : FloatDecimal}
  `{JS : JSON} `{MJ : !MeterJSON} `{RW : !PdataRaw PD}.

(** ** The meter and the exporter see the same maps *)

Lemma flat_strings_billable (resource : PMap) l :
  flat_strings (Some is_workspace_key) resource = billableResourceAttrs (span_resource resource l).
Proof.
  unfold flat_strings, span_resource.
  set (d := {| resourceAttrs := ∅; billableResourceAttrs := ∅; r_SpanAttributes := l |}).
  change (∅ : gmap string string) with (billableResourceAttrs d) at 1. generalize d. clear d.
  induction resource as [|[k v] m IH]; intros d; [done|]. simpl. rewrite <- IH. f_equal.
  unfold flat_string_add, resource_add, excluded. destruct (is_workspace_key k); simpl.
  - destruct (Type_of v); try done. symmetry.
    erewrite (map_fold_part billableResourceAttrs _ (λ _ _ m, m) (λ _ _, True)) by done.
    apply (map_fold_weak_ind (λ r _, r = billableResourceAttrs d)); [done|]. by intros ? ? ? ? _ ->.
  - destruct (Type_of v); try done. symmetry. by apply (map_fold_part billableResourceAttrs _ _ (λ _ _, True)).
Qed.

(** Every number inside the maps of the attributes is finite. *)
Definition finite_maps (attributes : PMap) : Prop :=
  ∀ k v kf x, (k, v) ∈ attributes → Type_of v = ValueTypeMap → FlattenJSON (MapEntries v) k !! kf = Some (AFloat x) →
    IsValidFloat x = true.
Definition data_maps (d : attributesData) : number_string_bool :=
  {| nsb_n := NumberMap d; nsb_s := StringMap d; nsb_b := BoolMap d |}.

Lemma nsb_of_data (attributes : PMap) : finite_maps attributes → nsb_of attributes = data_maps (span_data attributes).
Proof.
  unfold nsb_of, span_data. intros Hfin.
  change {| nsb_n := ∅; nsb_s := ∅; nsb_b := ∅ |} with (data_maps no_data). generalize no_data.
  induction attributes as [|[k v] m IH]; intros d; [done|]. simpl.
  rewrite <- IH by (intros k' v' kf x Hin; apply (Hfin k' v'); set_solver). f_equal.
  pose proof (Hfin k v) as Hk. unfold nsb_add, data_add. destruct (Type_of v) eqn:Ev; try done.
  - by destruct (IsValidFloat (Double v)).
  - symmetry. apply (map_fold_part data_maps _ _ (λ _ y, ∀ x, y = AFloat x → IsValidFloat x = true)).
    + intros kf y Hy x ->. eapply Hk; [set_solver|done|done].
    + intros kf y b Hy. unfold add_flat, nsb_flat. destruct y; try done. by rewrite Hy.
Qed.
End maps.

(** ** The text of a row *)

Definition quote : string := String (ascii_of_nat 34) "".
(** The members of an object, [omitempty] left out. *)
Definition member (key : string) (there : bool) (text : result string string) : result string (list (string * string)) :=
  if there then t ← text; Ok [(key, t)] else Ok [].
Fixpoint members (l : list (result string (list (string * string)))) : result string (list (string * string)) :=
  match l with [] => Ok [] | m :: rest => a ← m; b ← members rest; Ok (a ++ b) end.
Definition json_object (fields : list (string * string)) : string :=
  "{" +:+ join "," ((λ '(k, t), quote +:+ k +:+ quote +:+ ":" +:+ t) <$> fields) +:+ "}".
Definition nonempty (s : string) : bool := bool_decide (s ≠ "").

Section text.
Context `{PD : Pdata} `{PT : !PdataText PD} `{PV : !PdataValues PD} `{FA : FormatAny} `{TT : TraceText} `{FD : FloatDecimal}
  `{JS : JSON} `{MJ : !MeterJSON} `{RW : !PdataRaw PD}.

(** The members of [SpanV3] that have a name in JSON, in the order of the struct. *)
Definition span_members (s : SpanV3) : list (result string (list (string * string))) :=
  [ member "startTimeUnixNano" (negb (StartTimeUnixNano s =? 0)) (Ok (FormatInt (StartTimeUnixNano s)));
    member "traceId" (nonempty (TraceId s)) (Marshal_string (TraceId s));
    member "spanId" (nonempty (SpanId s)) (Marshal_string (SpanId s));
    member "traceState" (nonempty (TraceState s)) (Marshal_string (TraceState s));
    member "parentSpanId" (nonempty (ParentSpanId s)) (Marshal_string (ParentSpanId s));
    member "flags" (negb (Flags s =? 0)) (Ok (FormatInt (Flags s)));
    member "name" (nonempty (s_Name s)) (Marshal_string (s_Name s));
    member "kind" (negb (s_Kind s =? 0)) (Ok (FormatInt (s_Kind s)));
    member "spanKind" (nonempty (s_SpanKind s)) (Marshal_string (s_SpanKind s));
    member "attributes_string" (bool_decide (AttributeString s ≠ ∅)) (Marshal_strings (AttributeString s));
    member "attributes_number" (bool_decide (map_to_list (AttributesNumber s) ≠ [])) (Marshal_numbers (AttributesNumber s));
    member "attributes_bool" (bool_decide (AttributesBool s ≠ ∅)) (Marshal_bools (AttributesBool s));
    member "resources_string" (bool_decide (BillableResourcesString s ≠ ∅)) (Marshal_strings (BillableResourcesString s));
    member "event" (bool_decide (s_Events s ≠ [])) (Marshal_string_list (s_Events s));
    member "serviceName" (nonempty (s_ServiceName s)) (Marshal_string (s_ServiceName s));
    member "references" (nonempty (References s)) (Marshal_string (References s)) ].

(** Printable ASCII without the characters that [json.Marshal] escapes, apart from quotes. *)
Definition plain_byte (c : ascii) : bool :=
  let b := byte_val c in (32 <=? b) && (b <? 127) && negb (bool_decide (b ∈ [38; 60; 62; 92])).
Definition plain (s : string) : bool := forallb plain_byte (bytes s).

(** What the documentation of [json.Marshal] says of these texts: structs are objects of
    their members, strings are quoted and their quotes escaped, empty maps and slices are two
    brackets, and those that are not empty are longer. *)
Class JSONText := {
  Marshal_span_text s : Marshal_span s = (fields ← members (span_members s); Ok (json_object fields));
  Marshal_string_text s : plain s = true → ∃ t, Marshal_string s = Ok t ∧ len (bytes t) = len (bytes s) + count_quotes s + 2;
  Marshal_strings_empty m t : Marshal_strings m = Ok t → (len (bytes t) ≤ 2 ↔ m = ∅);
  Marshal_numbers_empty m t : Marshal_numbers m = Ok t → (len (bytes t) ≤ 2 ↔ map_to_list m = []);
  Marshal_bools_empty m t : Marshal_bools m = Ok t → (len (bytes t) ≤ 2 ↔ m = ∅);
  Marshal_list_empty l t : Marshal_string_list l = Ok t → (len (bytes t) ≤ 2 ↔ l = []);
}.
Context `{JT : !JSONText}.

(** ** Lengths *)

Lemma len_string_app a b : len (bytes (a +:+ b)) = len (bytes a) + len (bytes b).
Proof. rewrite bytes_app. apply len_app. Qed.

Definition member_len (f : string * string) : Z := len (bytes f.1) + len (bytes f.2) + 4.
Definition total_len (l : list (string * string)) : Z := foldr (λ f n, member_len f + n) 0 l.
Lemma total_len_app a b : total_len (a ++ b) = total_len a + total_len b.
Proof. induction a as [|f a IH]; [done|]. simpl. rewrite IH. lia. Qed.

Lemma json_object_len fields : fields ≠ [] → len (bytes (json_object fields)) = 2 + total_len fields - 1.
Proof.
  intros Hne. unfold json_object. rewrite !len_string_app. change (len (bytes "{")) with 1. change (len (bytes "}")) with 1.
  enough (len (bytes (join "," ((λ '(k, t), quote +:+ k +:+ quote +:+ ":" +:+ t) <$> fields))) = total_len fields - 1) by lia.
  induction fields as [|[k t] fields IH]; [done|].
  assert (len (bytes (quote +:+ k +:+ quote +:+ ":" +:+ t)) = member_len (k, t) - 1) as Hm.
  { rewrite !len_string_app. change (len (bytes quote)) with 1. change (len (bytes ":")) with 1. unfold member_len. simpl. lia. }
  destruct fields as [|f fields]; [simpl in *; lia|].
  change (total_len ((k, t) :: f :: fields)) with (member_len (k, t) + total_len (f :: fields)).
  rewrite fmap_cons. specialize (IH ltac:(done)). rewrite fmap_cons in *.
  change (join "," (?a :: ?b :: ?l)) with (a +:+ "," +:+ join "," (b :: l)).
  rewrite len_string_app, Hm, len_string_app, IH. change (len (bytes ",")) with 1. lia.
Qed.

(** A list of members whose texts are there adds up. *)
Definition part_len (m : result string (list (string * string))) : Z := match m with Ok a => total_len a | Err _ => 0 end.
Lemma members_len l fields : members l = Ok fields → total_len fields = foldr (λ m n, part_len m + n) 0 l.
Proof.
  revert fields. induction l as [|m l IH]; intros fields; simpl; [by intros [= <-]|].
  destruct m as [a|]; [|done]. simpl. destruct (members l) as [b|]; [|done]. intros [= <-]. by rewrite total_len_app, (IH b).
Qed.
Lemma members_nil l : members l = Ok [] → ∀ m, m ∈ l → part_len m = 0.
Proof.
  induction l as [|m l IH]; intros H x Hx; [by apply elem_of_nil in Hx|]. simpl in H.
  destruct m as [a|]; [|done]. simpl in H. destruct (members l) as [b|]; [|done]. injection H as H.
  apply app_eq_nil in H as [-> ->]. apply elem_of_cons in Hx as [->|Hx]; [done|by apply IH].
Qed.

(** ** Members *)

Lemma part_present k (there : bool) text n :
  text = Ok n → part_len (member k there text) = if there then len (bytes k) + len (bytes n) + 4 else 0.
Proof. intros ->. destruct there; simpl; [unfold member_len; simpl; lia|done]. Qed.

Lemma key_size k : k ∈ KeySizes → KeySize k = len (bytes k) + 2.
Proof. intros H. unfold KeySize. by rewrite decide_True. Qed.

(** A number. *)
Lemma part_int k z : k ∈ KeySizes → z ≠ 0 →
  part_len (member k (negb (z =? 0)) (Ok (FormatInt z))) = TotalSizeIfKeyExists (KeySize k) (SizeOfInt z) 2.
Proof.
  intros Hk Hz. rewrite (part_present _ _ _ _ eq_refl), key_size by done. rewrite (proj2 (Z.eqb_neq z 0) Hz). simpl.
  unfold TotalSizeIfKeyExists, SizeOfInt. rewrite (proj2 (Z.eqb_neq _ 0)); [lia|].
  pose proof (FormatInt_nonempty z) as H. destruct (FormatInt z); [done|]. unfold len. simpl. lia.
Qed.

(** A string that is not escaped. *)
Lemma no_quotes s : count_quotes s = 0 ↔ ascii_of_nat 34 ∉ bytes s.
Proof.
  unfold count_quotes, len. split.
  - intros H Hin. assert (filter (λ c, c = ascii_of_nat 34) (bytes s) = []) as E by (destruct (filter _ _); [done|simpl in H; lia]).
    by apply (filter_nil_not_elem_of _ _ _ E eq_refl).
  - intros H. assert (filter (λ c, c = ascii_of_nat 34) (bytes s) = []) as ->; [|done].
    induction (bytes s) as [|c l IH]; [done|]. rewrite filter_cons_False by set_solver. apply IH. set_solver.
Qed.
Lemma part_string k s : k ∈ KeySizes → plain s = true → count_quotes s = 0 →
  part_len (member k (nonempty s) (Marshal_string s)) = TotalSizeIfKeyExists (KeySize k) (len (bytes s)) 4.
Proof.
  intros Hk Hp Hq. destruct (Marshal_string_text s Hp) as (t & Et & Hl). rewrite (part_present _ _ _ _ Et), key_size by done.
  unfold nonempty, TotalSizeIfKeyExists. destruct (decide (s = "")) as [->|Hs]; [done|].
  rewrite bool_decide_true by done. rewrite (proj2 (Z.eqb_neq _ 0)); [rewrite Hq in Hl; lia|].
  destruct s; [done|]. unfold len. simpl. lia.
Qed.

(** A map or a slice: [size_of] its text, and nothing when it is empty. *)
Lemma part_sized k (there : bool) text t : k ∈ KeySizes → text = Ok t → (len (bytes t) ≤ 2 ↔ there = false) →
  part_len (member k there text) = TotalSizeIfKeyExistsAndValueIsMapOrSlice (KeySize k) (size_of text) 2.
Proof.
  intros Hk Ht Hsz. rewrite (part_present _ _ _ _ Ht), key_size by done. rewrite Ht. simpl.
  unfold TotalSizeIfKeyExistsAndValueIsMapOrSlice. destruct there.
  - destruct (Z.leb_spec (len (bytes t)) 2); [naive_solver|lia].
  - destruct (Z.leb_spec (len (bytes t)) 2); [done|]. exfalso. assert (len (bytes t) ≤ 2) by naive_solver. lia.
Qed.

Lemma hex_digit_plain n : 0 ≤ n < 16 → plain_byte (hex_digit n) = true ∧ hex_digit n ≠ ascii_of_nat 34.
Proof.
  intros H. assert (n ∈ Z.of_nat <$> seq 0 16) as Hn.
  { apply list_elem_of_fmap. exists (Z.to_nat n). split; [lia|]. apply elem_of_seq. lia. }
  revert n Hn H. assert (Forall (λ n, plain_byte (hex_digit n) = true ∧ hex_digit n ≠ ascii_of_nat 34) (Z.of_nat <$> seq 0 16)) as HF.
  { simpl. repeat (constructor; [by vm_compute|]). constructor. }
  intros n Hn _. rewrite Forall_forall in HF. by apply HF.
Qed.
Lemma hex_plain id : plain (EncodeToString id) = true ∧ count_quotes (EncodeToString id) = 0.
Proof.
  assert (∀ c, c ∈ bytes (EncodeToString id) → plain_byte c = true ∧ c ≠ ascii_of_nat 34) as H.
  { unfold EncodeToString. rewrite bytes_of_bytes. intros c (b & Hb & Hin)%list_elem_of_bind.
    pose proof (byte_val_range b). rewrite !elem_of_cons in Hb.
    destruct Hb as [->|[->|Hb]]; [| |by apply elem_of_nil in Hb]; apply hex_digit_plain.
    - split; [apply Z.div_pos; lia|apply Z.div_lt_upper_bound; lia].
    - apply Z.mod_pos_bound. lia. }
  split.
  - unfold plain. apply forallb_forall. intros c Hc. apply H. by apply list_elem_of_In.
  - apply no_quotes. intros Hc. by destruct (H _ Hc).
Qed.
(** An id of [n] bytes. *)
Lemma part_id k id n : k ∈ KeySizes → length (bytes id) = n → (0 < n)%nat →
  part_len (member k (nonempty (if IsEmpty id then "" else EncodeToString id)) (Marshal_string (if IsEmpty id then "" else EncodeToString id)))
  = TotalSizeIfKeyExists (KeySize k) (if IsEmpty id then 0 else 2 * Z.of_nat n) 4.
Proof.
  intros Hk Hn Hpos. destruct (hex_plain id) as [Hp Hq].
  assert (len (bytes (EncodeToString id)) = 2 * Z.of_nat n) as Hl.
  { unfold len. rewrite length_bytes, length_EncodeToString, <- length_bytes, Hn. lia. }
  destruct (IsEmpty id); rewrite part_string by done; [done|by rewrite Hl].
Qed.

(** ** The size of a span *)

(** A span whose texts are there and need no escapes, with ids of their width, a time, a kind
    and a service. *)
Record ordinary (resource : PMap) (sp : OtelSpan) : Prop := {
  or_start : 0 < os_StartTimestamp sp < 2 ^ 63;
  or_kind : 0 < SpanKind_num (os_Kind sp) < 128;
  or_trace_id : length (bytes (os_TraceID sp)) = 16%nat;
  or_span_id : length (bytes (os_SpanID sp)) = 8%nat;
  or_parent : length (bytes (os_ParentSpanID sp)) = 8%nat;
  or_strings : Forall (λ s, plain s = true ∧ count_quotes s = 0)
                 [os_TraceState sp; os_Name sp; SpanKind_String (os_Kind sp)];
  or_service : ServiceNameForResource resource ≠ "" ∧ is_ok (Marshal_string (ServiceNameForResource resource));
  or_service_text t : Marshal_string (ServiceNameForResource resource) = Ok t → t ≠ "";
  or_finite : finite_maps (os_Attributes sp);
  or_maps : is_ok (Marshal_strings (flat_strings (Some is_workspace_key) resource))
            ∧ (let m := nsb_of (os_Attributes sp) in
               is_ok (Marshal_numbers (nsb_n m)) ∧ is_ok (Marshal_strings (nsb_s m)) ∧ is_ok (Marshal_bools (nsb_b m)));
  or_events : is_ok (Marshal_string_list (populateEventsV3 (os_Events sp) "" false (λ _, "")).1);
  or_references : ∃ t, Marshal_references (makeJaegerProtoReferences (os_Links sp) (os_ParentSpanID sp) (os_TraceID sp)) = Ok t
                       ∧ plain t = true ∧ 2 < len (bytes t);
}.

(** The texts of events do not depend on the ids and the grouping of exceptions. *)
Lemma events_texts events s s' low low' ids ids' :
  (populateEventsV3 events s low ids).1 = (populateEventsV3 events s' low' ids').1.
Proof.
  unfold populateEventsV3. simpl. rewrite !fmap_imap. apply imap_ext. intros i e _. simpl.
  unfold new_event. by destruct (decide _).
Qed.

Lemma i8_small z : 0 < z < 128 → i8 z = z.
Proof. intros H. unfold i8. rewrite Z.mod_small by lia. by rewrite (proj2 (Z.ltb_lt z 128)) by lia. Qed.

Section span.
Context (resource : PMap) (sp : OtelSpan) (Hord : ordinary resource sp).
Context (b : Z) (fp : string) (low : bool) (ids : nat → string).
Definition row_of_span : SpanV3 := newStructuredSpanV3 b fp sp (ServiceNameForResource resource) resource low ids.
Lemma row_unfold : row_of_span = newStructuredSpanV3 b fp sp (ServiceNameForResource resource) resource low ids.
Proof. done. Qed.

Ltac known_key := by apply (bool_decide_eq_true_1 _); vm_compute.

Lemma part_start : part_len (member "startTimeUnixNano" (negb (StartTimeUnixNano row_of_span =? 0)) (Ok (FormatInt (StartTimeUnixNano row_of_span))))
  = TotalSizeIfKeyExists (KeySize "startTimeUnixNano") (SizeOfInt (i64 (os_StartTimestamp sp))) 2.
Proof.
  pose proof (or_start _ _ Hord). change (StartTimeUnixNano row_of_span) with (os_StartTimestamp sp).
  rewrite i64_small by lia. apply part_int; [known_key|lia].
Qed.
Lemma part_kind : part_len (member "kind" (negb (s_Kind row_of_span =? 0)) (Ok (FormatInt (s_Kind row_of_span))))
  = TotalSizeIfKeyExists (KeySize "kind") (SizeOfInt (SpanKind_num (os_Kind sp))) 2.
Proof.
  pose proof (or_kind _ _ Hord). change (s_Kind row_of_span) with (i8 (SpanKind_num (os_Kind sp))).
  rewrite i8_small by lia. apply part_int; [known_key|lia].
Qed.
Lemma part_flags : part_len (member "flags" (negb (Flags row_of_span =? 0)) (Ok (FormatInt (Flags row_of_span))))
  = TotalSizeIfKeyExists (KeySize "flags") (if os_Flags sp =? 0 then 0 else SizeOfInt (os_Flags sp)) 2.
Proof.
  change (Flags row_of_span) with (os_Flags sp). destruct (Z.eqb_spec (os_Flags sp) 0) as [->|H]; [done|].
  rewrite <- part_int by (first [known_key|done]). by rewrite (proj2 (Z.eqb_neq _ _) H).
Qed.
Lemma part_service : part_len (member "serviceName" (nonempty (s_ServiceName row_of_span)) (Marshal_string (s_ServiceName row_of_span)))
  = TotalSizeIfKeyExists (KeySize "serviceName") (size_of (Marshal_string (ServiceName resource))) 2.
Proof.
  change (s_ServiceName row_of_span) with (ServiceNameForResource resource). change (ServiceName resource) with (ServiceNameForResource resource).
  destruct (or_service _ _ Hord) as [Hne Hok]. destruct (Marshal_string (ServiceNameForResource resource)) as [t|] eqn:Et; [|done].
  rewrite (part_present _ _ _ _ eq_refl), key_size by known_key. unfold nonempty. rewrite bool_decide_true by done. simpl.
  pose proof (or_service_text _ _ Hord t Et) as Ht. unfold TotalSizeIfKeyExists. rewrite (proj2 (Z.eqb_neq _ 0)); [lia|].
  destruct t; [done|]. unfold len. simpl. lia.
Qed.
Lemma part_references : part_len (member "references" (nonempty (References row_of_span)) (Marshal_string (References row_of_span)))
  = TotalSizeIfKeyExistsAndValueIsMapOrSlice (KeySize "references")
      (SizeOfOtelSpanRefs (NewOtelSpanRefs (os_Links sp) (os_ParentSpanID sp) (os_TraceID sp))) 4.
Proof.
  change (References row_of_span) with (or_empty (Marshal_references (makeJaegerProtoReferences (os_Links sp) (os_ParentSpanID sp) (os_TraceID sp)))).
  change (NewOtelSpanRefs (os_Links sp) (os_ParentSpanID sp) (os_TraceID sp))
    with (makeJaegerProtoReferences (os_Links sp) (os_ParentSpanID sp) (os_TraceID sp)).
  destruct (or_references _ _ Hord) as (t & Et & Hp & Hl).
  assert (SizeOfOtelSpanRefs (makeJaegerProtoReferences (os_Links sp) (os_ParentSpanID sp) (os_TraceID sp)) = len (bytes t) + count_quotes t) as ->.
  { unfold SizeOfOtelSpanRefs. rewrite Et. done. }
  rewrite Et. simpl or_empty. destruct (Marshal_string_text t Hp) as (t' & Et' & Hl').
  rewrite (part_present _ _ _ _ Et'), key_size by known_key.
  unfold nonempty. rewrite bool_decide_true by (intros ->; unfold len in Hl; simpl in Hl; lia).
  assert (0 ≤ count_quotes t) by apply len_nonneg. unfold TotalSizeIfKeyExistsAndValueIsMapOrSlice.
  rewrite (proj2 (Z.leb_gt _ 2)) by lia. lia.
Qed.
Lemma part_events : part_len (member "event" (bool_decide (s_Events row_of_span ≠ [])) (Marshal_string_list (s_Events row_of_span)))
  = TotalSizeIfKeyExistsAndValueIsMapOrSlice (KeySize "event")
      (SizeOfEvents (NewEventsAndErrorEvents (os_Events sp) (ServiceName resource) false (λ _, "")).1) 2.
Proof.
  change (s_Events row_of_span) with (populateEventsV3 (os_Events sp) (ServiceNameForResource resource) low ids).1.
  rewrite events_agree.
  rewrite (events_texts _ (ServiceName resource) "" false false (λ _, "") (λ _, "")), (events_texts _ _ "" low false ids (λ _, "")).
  pose proof (or_events _ _ Hord) as Hok. unfold SizeOfEvents.
  destruct (Marshal_string_list _) as [t|] eqn:Et; [|done]. rewrite <- Et. eapply part_sized; [known_key|exact Et|].
  rewrite (Marshal_list_empty _ _ Et). rewrite bool_decide_eq_false. split; [by intros -> []|by intros H; apply dec_stable].
Qed.
Lemma part_resource : part_len (member "resources_string" (bool_decide (BillableResourcesString row_of_span ≠ ∅))
    (Marshal_strings (BillableResourcesString row_of_span)))
  = TotalSizeIfKeyExistsAndValueIsMapOrSlice (KeySize "resources_string")
      (SizeOfFlatPcommonMapInMapStringString (Some is_workspace_key) resource) 2.
Proof.
  destruct (or_maps _ _ Hord) as [Hok _]. unfold SizeOfFlatPcommonMapInMapStringString.
  assert (BillableResourcesString row_of_span = flat_strings (Some is_workspace_key) resource) as ->
    by (symmetry; apply flat_strings_billable).
  destruct (Marshal_strings _) as [t|] eqn:Et; [|done]. rewrite <- Et. eapply part_sized; [known_key|exact Et|].
  rewrite (Marshal_strings_empty _ _ Et), bool_decide_eq_false. split; [by intros -> []|by intros H; apply dec_stable].
Qed.
Lemma part_attributes :
  let '(numbers, strings, bools) := SizeOfFlatPcommonMapInNumberStringBool (os_Attributes sp) in
  part_len (member "attributes_string" (bool_decide (AttributeString row_of_span ≠ ∅)) (Marshal_strings (AttributeString row_of_span)))
    = TotalSizeIfKeyExistsAndValueIsMapOrSlice (KeySize "attributes_string") strings 2
  ∧ part_len (member "attributes_number" (bool_decide (map_to_list (AttributesNumber row_of_span) ≠ [])) (Marshal_numbers (AttributesNumber row_of_span)))
    = TotalSizeIfKeyExistsAndValueIsMapOrSlice (KeySize "attributes_number") numbers 2
  ∧ part_len (member "attributes_bool" (bool_decide (AttributesBool row_of_span ≠ ∅)) (Marshal_bools (AttributesBool row_of_span)))
    = TotalSizeIfKeyExistsAndValueIsMapOrSlice (KeySize "attributes_bool") bools 2.
Proof.
  destruct (or_maps _ _ Hord) as [_ (Hn & Hs & Hb)]. unfold SizeOfFlatPcommonMapInNumberStringBool.
  rewrite (nsb_of_data _ (or_finite _ _ Hord)) in *.
  change (AttributeString row_of_span) with (nsb_s (data_maps (span_data (os_Attributes sp)))).
  change (AttributesNumber row_of_span) with (nsb_n (data_maps (span_data (os_Attributes sp)))).
  change (AttributesBool row_of_span) with (nsb_b (data_maps (span_data (os_Attributes sp)))).
  destruct (Marshal_numbers _) as [tn|] eqn:En; [|done]. destruct (Marshal_strings _) as [ts|] eqn:Es; [|done].
  destruct (Marshal_bools _) as [tb|] eqn:Eb; [|done]. rewrite <- En, <- Es, <- Eb.
  split_and!; (eapply part_sized; [known_key|eassumption|]).
  - rewrite (Marshal_strings_empty _ _ Es), bool_decide_eq_false. split; [by intros -> []|by intros H; apply dec_stable].
  - rewrite (Marshal_numbers_empty _ _ En), bool_decide_eq_false. split; [by intros -> []|by intros H; apply dec_stable].
  - rewrite (Marshal_bools_empty _ _ Eb), bool_decide_eq_false. split; [by intros -> []|by intros H; apply dec_stable].
Qed.

(** The size that the meter adds up for a span is the length of the text of its row. *)
Lemma span_size_text t :
  Marshal_span row_of_span = Ok t →
  span_size resource (SizeOfFlatPcommonMapInMapStringString (Some is_workspace_key) resource) sp = len (bytes t).
Proof.
  rewrite Marshal_span_text. destruct (members (span_members row_of_span)) as [fields|] eqn:Em; [|done]. intros [= <-].
  pose proof (or_strings _ _ Hord) as [[Hs1 Hq1] [[Hs2 Hq2] [[Hs3 Hq3] _]%Forall_cons]%Forall_cons]%Forall_cons.
  pose proof (members_len _ _ Em) as Hl. pose proof part_attributes as Ha. unfold span_size.
  destruct (SizeOfFlatPcommonMapInNumberStringBool _) as [[numbers strings] bools]. destruct Ha as (Ha1 & Ha2 & Ha3).
  pose proof part_start. pose proof part_kind as Hkind. pose proof part_flags. pose proof part_service. pose proof part_references.
  pose proof part_events. pose proof part_resource.
  pose proof (part_id "traceId" (os_TraceID sp) 16 ltac:(known_key) (or_trace_id _ _ Hord) ltac:(lia)) as Htr.
  pose proof (part_id "spanId" (os_SpanID sp) 8 ltac:(known_key) (or_span_id _ _ Hord) ltac:(lia)) as Hsp.
  pose proof (part_id "parentSpanId" (os_ParentSpanID sp) 8 ltac:(known_key) (or_parent _ _ Hord) ltac:(lia)) as Hpa.
  pose proof (part_string "traceState" (os_TraceState sp) ltac:(known_key) Hs1 Hq1) as Hst.
  pose proof (part_string "name" (os_Name sp) ltac:(known_key) Hs2 Hq2) as Hna.
  pose proof (part_string "spanKind" (SpanKind_String (os_Kind sp)) ltac:(known_key) Hs3 Hq3) as Hki.
  assert (fields ≠ []) as Hne.
  { intros ->. eapply members_nil in Em; [|unfold span_members; apply list_elem_of_here]. rewrite part_start in Em.
    unfold TotalSizeIfKeyExists in Em. pose proof (or_start _ _ Hord) as Hpos.
    destruct (Z.eqb_spec (SizeOfInt (i64 (os_StartTimestamp sp))) 0) as [E|E].
    - unfold SizeOfInt in E. pose proof (FormatInt_nonempty (i64 (os_StartTimestamp sp))) as Hf.
      revert E Hf. generalize (FormatInt (i64 (os_StartTimestamp sp))). intros [|c s] E Hf; [done|]. unfold len in E. simpl in E. lia.
    - assert (0 ≤ SizeOfInt (i64 (os_StartTimestamp sp))) by apply len_nonneg.
      change (KeySize "startTimeUnixNano") with 19 in Em. lia. }
  rewrite json_object_len by done. unfold span_members in Hl. cbn [foldr] in Hl.
  change (TraceId row_of_span) with (if IsEmpty (os_TraceID sp) then "" else EncodeToString (os_TraceID sp)) in Hl.
  change (SpanId row_of_span) with (if IsEmpty (os_SpanID sp) then "" else EncodeToString (os_SpanID sp)) in Hl.
  change (ParentSpanId row_of_span) with (if IsEmpty (os_ParentSpanID sp) then "" else EncodeToString (os_ParentSpanID sp)) in Hl.
  change (TraceState row_of_span) with (os_TraceState sp) in Hl. change (s_Name row_of_span) with (os_Name sp) in Hl.
  change (s_SpanKind row_of_span) with (SpanKind_String (os_Kind sp)) in Hl.
  unfold SizeOfTraceID, SizeOfSpanID. change (2 * Z.of_nat 16) with 32 in Htr.
  change (2 * Z.of_nat 8) with 16 in Hsp, Hpa. lia.
Qed.
End span.

(** ** The size of a batch *)

Lemma foldl_nested {A B} (f : B → Z) (g : A → list B) l a :
  foldl (λ n x, foldl (λ n y, n + f y) n (g x)) a l = a + sumZ (λ x, sumZ f (g x)) l.
Proof. revert a. induction l as [|x l IH]; intros a; simpl; [lia|]. rewrite foldl_sumZ, IH. lia. Qed.

Lemma Traces_SizePerResource_sum (rs : OtelResourceSpans) :
  Traces_SizePerResource rs = sumZ (span_size (or_Resource rs)
    (SizeOfFlatPcommonMapInMapStringString (Some is_workspace_key) (or_Resource rs))) (concat (or_ScopeSpans rs)).
Proof.
  unfold Traces_SizePerResource. rewrite (foldl_nested _ (λ l, l)), Z.add_0_l.
  induction (or_ScopeSpans rs) as [|l ls IH]; [done|]. simpl. by rewrite sumZ_app, IH.
Qed.
Lemma Traces_CountPerResource_sum (rs : OtelResourceSpans) : Traces_CountPerResource rs = len (concat (or_ScopeSpans rs)).
Proof.
  unfold Traces_CountPerResource. rewrite foldl_sumZ, Z.add_0_l.
  induction (or_ScopeSpans rs) as [|l ls IH]; [done|]. simpl. by rewrite len_app, IH.
Qed.

(** C8. What the exporter counts in its usage statistics for a batch of ordinary recent spans is
    what the meter bills for it: the number of spans and the total of their sizes. *)
Theorem billed_is_exported `{FV : !Format Value} config ids oldest (td : list OtelResourceSpans) g :
  (∀ rs sp, rs ∈ td → sp ∈ concat (or_ScopeSpans rs) →
     ordinary (or_Resource rs) sp ∧ (os_StartTimestamp sp <? oldest) = false) →
  gather config ids oldest td = Ok g →
  g_size g = Traces_Size td ∧ g_count g = sumZ Traces_CountPerResource td.
Proof.
  intros Hall. unfold gather, Traces_Size. rewrite foldl_sumZ, Z.add_0_l. intros H.
  apply (foldl_result_ind _ (λ pre g, (∀ rs, rs ∈ pre → rs ∈ td) →
    g_size g = sumZ Traces_SizePerResource pre ∧ g_count g = sumZ Traces_CountPerResource pre)) in H; [done|done| |done].
  clear g H. intros pre rs g g' IH H Hin.
  destruct IH as [IHs IHc]; [intros; apply Hin; set_solver|].
  rewrite !sumZ_app. simpl. rewrite Traces_SizePerResource_sum, Traces_CountPerResource_sum, <- IHs, <- IHc, !Z.add_0_r.
  unfold gather_resource in H. destruct (Marshal_strings _) as [json|]; [|done].
  assert (∀ sp, sp ∈ concat (or_ScopeSpans rs) → ordinary (or_Resource rs) sp ∧ (os_StartTimestamp sp <? oldest) = false) as Hrs
    by (intros; apply Hall; [apply Hin; set_solver|done]).
  clear - H Hrs JT. set (res := SizeOfFlatPcommonMapInMapStringString _ _).
  apply (foldl_result_ind _ (λ sps g', (∀ sp, sp ∈ sps → sp ∈ concat (or_ScopeSpans rs)) →
    g_size g' = g_size g + sumZ (span_size (or_Resource rs) res) sps ∧ g_count g' = g_count g + len sps)) in H; [done| | |done].
  - intros _. unfold len. simpl. lia.
  - intros sps sp a a' IH Hs Hsub. destruct IH as [IHs IHc]; [intros; apply Hsub; set_solver|].
    destruct (Hrs sp) as [Hord Hrec]; [apply Hsub; set_solver|]. unfold gather_span in Hs. rewrite Hrec in Hs.
    destruct (getOrCreateFingerprint _ _ _ _) as [fp seen]. destruct (Marshal_span _) as [t|] eqn:Et; [|done].
    injection Hs as <-. simpl. rewrite sumZ_app, len_app, IHs, IHc. simpl.
    rewrite <- (span_size_text (or_Resource rs) sp Hord _ _ _ _ _ Et). fold res. unfold len. simpl. split; lia.
Qed.
End text.

(** ** Metrics *)

Section metrics.
Context `{PD : Pdata} `{PT : !PdataText PD} `{TY : !PdataTypes PD} `{MT : PmetricText} `{FT : FloatText}.

(** Metrics that are billed and written as they are: not named like the internal ones, no
    exponential histograms, no NaN, and one bucket more than bounds. *)
Definition billed_metric (m : Metric) : Prop :=
  excludeRegex (m_Name m) = false ∧
  match m_Data m with
  | Empty => True
  | Gauge points | Sum _ _ points => Forall (λ dp, IsNaN (number_value (n_Value dp)) = false) points
  | Histogram _ points =>
      Forall (λ dp, hist_nan dp = false ∧ length (h_BucketCounts dp) = S (length (h_ExplicitBounds dp))) points
  | Summary points => Forall (λ dp, sum_nan dp = false) points
  | ExponentialHistogram _ _ => False
  end.

Lemma len_bind {A B} (f : A → list B) l : len (l ≫= f) = sumZ (λ x, len (f x)) l.
Proof. induction l as [|x l IH]; [done|]. rewrite bind_cons, len_app, IH. done. Qed.
Lemma len_one {A} (l : list A) f : Forall (λ x, f x = 1) l → sumZ f l = len l.
Proof. intros H. rewrite <- sumZ_len. apply sumZ_ext. by rewrite Forall_forall in H. Qed.
Lemma len_option {A B} (f : A → B) (o : option A) : len (f <$> option_list o) = present o.
Proof. by destruct o. Qed.
Lemma len_fmap {A B} (f : A → B) l : len (f <$> l) = len l.
Proof. unfold len. by rewrite length_fmap. Qed.
Lemma len_cons {A} (x : A) l : len (x :: l) = 1 + len l.
Proof. unfold len. simpl. lia. Qed.

Lemma metric_count_samples sc enable env m :
  billed_metric m → len (metric_samples sc enable env m) = metric_count m.
Proof.
  intros [Hn Hd]. unfold metric_count. rewrite Hn. unfold metric_samples.
  destruct (m_Data m) as [|points|t mono points|t points|t points|points]; [done| | | |done|].
  1,2: rewrite len_bind; apply len_one; eapply Forall_impl; [exact Hd|]; intros dp Hdp; unfold number_samples;
    by rewrite Hdp.
  - rewrite len_bind, foldl_sumZ, Z.add_0_l. apply sumZ_ext. intros dp Hin. rewrite Forall_forall in Hd.
    destruct (Hd dp Hin) as [Hnan Hb]. unfold hist_samples. rewrite Hnan. rewrite len_cons, !len_app, !len_option.
    rewrite (len_fmap _ (bucket_values dp)). unfold hist_count.
    assert (len (bucket_values dp) = len (h_BucketCounts dp)) as ->; [|lia].
    unfold bucket_values. rewrite len_app. unfold len. rewrite length_zip_with, !length_fmap.
    assert (length (running_totals (h_BucketCounts dp)) = length (h_BucketCounts dp)) as ->
      by (unfold running_totals; by rewrite length_fmap, length_seq).
    rewrite Hb. simpl. lia.
  - rewrite len_bind, foldl_sumZ, Z.add_0_l. apply sumZ_ext. intros dp Hin. rewrite Forall_forall in Hd.
    unfold summary_samples. rewrite (Hd dp Hin). rewrite !len_cons, len_fmap. unfold summary_count. lia.
Qed.

(** The metrics that are billed are the samples that are written. *)
Theorem billed_samples_written enable now (md : Metrics) :
  (∀ rm sm m, rm ∈ md → sm ∈ rm_ScopeMetrics rm → m ∈ sm_Metrics sm → billed_metric m) →
  Metrics_Count md = len (b_samples (prepareBatch enable now md)).
Proof.
  intros Hall. unfold prepareBatch.
  rewrite (samples_foldl _ (λ rm, rm_ScopeMetrics rm ≫= λ sm,
    sm_Metrics sm ≫= metric_samples (scope_of rm sm) enable (deployment_env rm))).
  2: { intros b rm. apply samples_foldl. clear b. intros b sm. apply samples_foldl. intros b' m. apply samples_metric. }
  change (b_samples newBatch) with (@nil sample). rewrite app_nil_l, len_bind. unfold Metrics_Count. rewrite foldl_sumZ, Z.add_0_l.
  apply sumZ_ext. intros rm Hrm. rewrite len_bind. unfold Metrics_CountPerResource.
  rewrite (foldl_nested _ sm_Metrics), Z.add_0_l. apply sumZ_ext. intros sm Hsm. rewrite len_bind.
  apply sumZ_ext. intros m Hm. symmetry. apply metric_count_samples. by apply (Hall rm sm).
Qed.
End metrics.

(** ** Witnesses *)

Section witnesses.
Import TestPdata.
#[local] Instance w_values : PdataValues test_pdata := {|
  Type_of v := match v with VStr _ => Flatten.ValueTypeStr | VInt _ => ValueTypeInt end;
  Double _ := zero_float; Bool _ := false; BytesAsRaw _ := ""; MapEntries _ := [];
|}.
#[local] Instance w_format : Format tvalue := {| format_s := AsString; format_v := AsString |}.
#[local] Instance w_any : FormatAny := {| Sprint _ := "" |}.
(** Brackets, with something between them when there is. *)
Definition w_brackets (there : bool) : result string string := Ok (if there then "{...}" else "{}").
#[local] Instance w_json : JSON := {|
  Marshal_strings m := w_brackets (bool_decide (m ≠ ∅)); Marshal_numbers m := w_brackets (bool_decide (map_to_list m ≠ []));
  Marshal_bools m := w_brackets (bool_decide (m ≠ ∅)); Marshal_any _ := Ok "{}";
|}.
Fixpoint w_escape (s : string) : string :=
  match s with
  | EmptyString => EmptyString
  | String c s => if decide (c = ascii_of_nat 34) then String (ascii_of_nat 92) (String c (w_escape s)) else String c (w_escape s)
  end.
#[local] Instance w_meter : MeterJSON := {|
  Marshal_string s := Ok (quote +:+ w_escape s +:+ quote);
  Marshal_string_list l := w_brackets (bool_decide (l ≠ [])); MarshalMetrics _ := Ok "{}";
|}.
#[local] Instance w_text : TraceText := {|
  Marshal_event _ := Ok "{}"; Marshal_references _ := Ok "[{..}]"; md5_hex s := s; url_Hostname _ := Err "";
  Marshal_span s := fields ← members (span_members s); Ok (json_object fields);
|}.

Lemma w_brackets_empty there t : w_brackets there = Ok t → (len (bytes t) ≤ 2 ↔ there = false).
Proof. intros [= <-]. by destruct there. Qed.
Lemma w_escape_len s : len (bytes (w_escape s)) = len (bytes s) + count_quotes s.
Proof.
  unfold count_quotes. induction s as [|c s IH]; [done|]. simpl. rewrite filter_cons. destruct (decide (c = _)); simpl.
  - rewrite !len_cons, IH. lia.
  - rewrite !len_cons, IH. lia.
Qed.
#[local] Instance w_json_text : JSONText.
Proof.
  split.
  - done.
  - intros s _. eexists. split; [reflexivity|]. rewrite !len_string_app, w_escape_len. change (len (bytes quote)) with 1. lia.
  - intros m t ->%w_brackets_empty. rewrite bool_decide_eq_false. split; [apply dec_stable|by intros -> []].
  - intros m t ->%w_brackets_empty. rewrite bool_decide_eq_false. split; [apply dec_stable|by intros -> []].
  - intros m t ->%w_brackets_empty. rewrite bool_decide_eq_false. split; [apply dec_stable|by intros -> []].
  - intros m t ->%w_brackets_empty. rewrite bool_decide_eq_false. split; [apply dec_stable|by intros -> []].
Qed.

Definition w_span (t : Z) : OtelSpan :=
  {| os_TraceID := "0123456789abcdef"; os_SpanID := "01234567"; os_ParentSpanID := "89abcdef"; os_TraceState := "k=v";
     os_Flags := 1; os_Name := "get"; os_Kind := SpanKindServer; os_StartTimestamp := t; os_EndTimestamp := t + 5;
     os_Attributes := [("http.method", VStr "GET"); ("n", VInt 4)]; os_Events := []; os_Links := [];
     os_StatusCode := StatusCodeOk; os_StatusMessage := "" |}.
Definition w_td : list OtelResourceSpans :=
  [ {| or_Resource := [("service.name", VStr "api")]; or_ScopeSpans := [[w_span 2000]; [w_span 3000; w_span 4000]] |} ].

Lemma w_ordinary t : 0 < t < 2 ^ 63 → ordinary [("service.name", VStr "api")] (w_span t).
Proof.
  intros Ht. split; try done; try by vm_compute.
  - repeat constructor; vm_compute; reflexivity.
  - intros t' [= <-]. done.
  - exists "[{..}]". by vm_compute.
Qed.

Lemma billed_is_exported_witness :
  ∃ g, gather true (λ _ _, "id") 1000 w_td = Ok g ∧ g_size g = Traces_Size w_td ∧ g_count g = 3.
Proof.
  destruct (gather true (λ _ _, "id") 1000 w_td) as [g|e] eqn:E.
  2: { exfalso. assert (is_ok (gather true (λ _ _, "id") 1000 w_td)) as H by (vm_compute; exact I). by rewrite E in H. }
  exists g. split; [reflexivity|].
  destruct (billed_is_exported true (λ _ _, "id") 1000 w_td g) as [Hs Hc].
  - intros rs sp Hrs Hsp. apply list_elem_of_singleton in Hrs as ->.
    assert (∃ t, sp = w_span t ∧ 1000 ≤ t < 5000) as (t & -> & Ht).
    { simpl in Hsp. rewrite !elem_of_cons in Hsp. destruct Hsp as [->|[->|[->|Hsp]]]; [eexists; split; [reflexivity|lia]..|].
      by apply elem_of_nil in Hsp. }
    split; [apply w_ordinary; lia|]. apply Z.ltb_ge. simpl. lia.
  - exact E.
  - split; [exact Hs|]. rewrite Hc. vm_compute. reflexivity.
Defined.

#[local] Instance w_types : PdataTypes test_pdata :=
  {| TypeOf v := match v with VStr _ => 1 | VInt _ => 2 end; ValueTypeStr := 1 |}.
#[local] Instance w_pmetric : PmetricText := {| Temporality_String _ := ""; MetricType_String _ := "" |}.
#[local] Instance w_floats : FloatText := {| FormatFloat _ := "?"; gamma_of_scale _ := float64_of_int 2 |}.

(** A gauge and a histogram with two bounds: one sample, and count, sum and three buckets. *)
Definition w_md : Metrics :=
  [ {| rm_Attributes := ∅;
       rm_ScopeMetrics := [
         {| sm_Attributes := ∅; sm_Name := "lib"; sm_Version := "1"; sm_SchemaUrl := "";
            sm_Metrics := [
              {| m_Name := "temp"; m_Description := ""; m_Unit := "C";
                 m_Data := Gauge [ {| n_Attributes := ∅; n_Timestamp := 7; n_Value := NumberInt 21; n_Flags := 0 |} ] |};
              {| m_Name := "lat"; m_Description := ""; m_Unit := "ms";
                 m_Data := Histogram TemporalityDelta [
                   {| h_Attributes := ∅; h_Timestamp := 7; h_Count := 5; h_Sum := Some (float64_of_int 9);
                      h_Min := None; h_Max := None; h_BucketCounts := [2; 1; 2];
                      h_ExplicitBounds := [float64_of_int 1; float64_of_int 2]; h_Flags := 0 |} ] |} ] |} ] |} ].
Lemma billed_samples_written_witness : Metrics_Count w_md = 6 ∧ len (b_samples (prepareBatch false 0 w_md)) = 6.
Proof.
  assert (Metrics_Count w_md = 6) as H by (vm_compute; reflexivity). split; [exact H|]. rewrite <- H. symmetry.
  apply (billed_samples_written false 0 w_md). intros rm sm m Hrm Hsm Hm.
  apply list_elem_of_singleton in Hrm as ->. apply list_elem_of_singleton in Hsm as ->.
  apply elem_of_cons in Hm as [->|Hm]; [|apply list_elem_of_singleton in Hm as ->].
  - split; [vm_compute; reflexivity|]. constructor; [vm_compute; reflexivity|constructor].
  - split; [vm_compute; reflexivity|]. constructor; [split; vm_compute; reflexivity|constructor].
Defined.
End witnesses.
