(* ===== verification/MeterConnector.v ===== *)
(** * The meter connector

    src/connectors/signozmeterconnector: connector.go, meter_metrics.go and config.go. Counts
    and sizes are added up per set of dimensions under a lock, and taken out by a ticker and
    at shutdown; the operations under the lock are the steps. *)
From S2P Require Import Prelude GoText Pdata Sampling Flatten Utils Fingerprint Pmetric ClickHouse LogsPipeline.
From S2P Require Import LogsExporter TracesSpan Metering.

(** ** Configuration (config.go) *)

Definition metricNameSpansCount : string := "signoz.meter.span.count".
Definition metricNameSpansSize : string := "signoz.meter.span.size".
Definition metricNameMetricsDataPointsCount : string := "signoz.meter.metric.datapoint.count".
Definition metricNameMetricsDataPointsSize : string := "signoz.meter.metric.datapoint.size".
Definition metricNameLogsCount : string := "signoz.meter.log.count".
Definition metricNameLogsSize : string := "signoz.meter.log.size".

(** The dimensions are their names. *)
Fixpoint validate_meter_dimensions (labelNames : gset string) (dimensions : list string) : option string :=
  match dimensions with
  | [] => None
  | name :: rest =>
      if decide (name ∈ labelNames) then Some ("duplicate dimension name " +:+ name)
      else validate_meter_dimensions ({[ name ]} ∪ labelNames) rest
  end.
Definition MeterConfig_Validate (dimensions : list string) : option string :=
  match validate_meter_dimensions ∅ dimensions with
  | Some e => Some ("failed validating dimensions: " +:+ e)
  | None => None
  end.
Definition newDimensionsMap (cfgDims : list string) : gset string := foldl (λ m k, {[ k ]} ∪ m) ∅ cfgDims.

Section connector.
Context `{PD : Pdata} `{PT : !PdataText PD} `{PV : !PdataValues PD} `{FA : FormatAny} `{TT : TraceText}
  `{JS : JSON} `{MJ : !MeterJSON} `{RW : !PdataRaw PD}.
(** [pdatautil.MapHash]: 16 bytes. *)
Context (MapHash : gmap string Value → string).

(** ** [aggregatedMeterMetrics] (meter_metrics.go) *)

Record meterMetric := {
  spanCount : Z; spanSize : Z; metricDataPointCount : Z; metricDataPointSize : Z; logCount : Z; logSize : Z;
  attrs : gmap string Value }.
Definition new_meterMetric (d : gmap string Value) : meterMetric :=
  {| spanCount := 0; spanSize := 0; metricDataPointCount := 0; metricDataPointSize := 0; logCount := 0; logSize := 0;
     attrs := d |}.
Abbreviation aggregatedMeterMetrics := (gmap string meterMetric).
Definition entry (agm : aggregatedMeterMetrics) (d : gmap string Value) : meterMetric :=
  default (new_meterMetric d) (agm !! MapHash d).

Definition UpdateMetricDataPointsMeterMetrics (agm : aggregatedMeterMetrics) (d : gmap string Value) (count size : Z)
  : aggregatedMeterMetrics :=
  let m := entry agm d in
  <[MapHash d := {| spanCount := spanCount m; spanSize := spanSize m;
                    metricDataPointCount := i64 (metricDataPointCount m + count);
                    metricDataPointSize := i64 (metricDataPointSize m + size);
                    logCount := logCount m; logSize := logSize m; attrs := attrs m |}]> agm.
Definition UpdateSpanMeterMetrics (agm : aggregatedMeterMetrics) (d : gmap string Value) (count size : Z)
  : aggregatedMeterMetrics :=
  let m := entry agm d in
  <[MapHash d := {| spanCount := i64 (spanCount m + count); spanSize := i64 (spanSize m + size);
                    metricDataPointCount := metricDataPointCount m; metricDataPointSize := metricDataPointSize m;
                    logCount := logCount m; logSize := logSize m; attrs := attrs m |}]> agm.
Definition UpdateLogMeterMetrics (agm : aggregatedMeterMetrics) (d : gmap string Value) (count size : Z)
  : aggregatedMeterMetrics :=
  let m := entry agm d in
  <[MapHash d := {| spanCount := spanCount m; spanSize := spanSize m;
                    metricDataPointCount := metricDataPointCount m; metricDataPointSize := metricDataPointSize m;
                    logCount := i64 (logCount m + count); logSize := i64 (logSize m + size); attrs := attrs m |}]> agm.
Definition Purge (agm : aggregatedMeterMetrics) : aggregatedMeterMetrics := ∅.

(** ** What is consumed *)

(** A resource's attributes, in the order of [Range]. *)
Definition buildDimensionsMapFromResourceAttributes (dimensions : gset string) (resourceAttributes : PMap)
  : gmap string Value :=
  foldl (λ m '(k, v), if decide (k ∈ dimensions) then <[k := NewValueStr (AsString v)]> m else m) ∅ resourceAttributes.

Definition aggregateMeterMetricsFromTraces (dims : gset string) (agm : aggregatedMeterMetrics)
    (traces : list OtelResourceSpans) : aggregatedMeterMetrics :=
  foldl (λ agm rs, UpdateSpanMeterMetrics agm (buildDimensionsMapFromResourceAttributes dims (or_Resource rs))
                     (Traces_CountPerResource rs) (Traces_SizePerResource rs)) agm traces.
Definition aggregateMeterMetricsFromMetrics (dims : gset string) (agm : aggregatedMeterMetrics) (metrics : Metrics)
  : aggregatedMeterMetrics :=
  foldl (λ agm rm, UpdateMetricDataPointsMeterMetrics agm
                     (buildDimensionsMapFromResourceAttributes dims (map_to_list (rm_Attributes rm)))
                     (Metrics_CountPerResource rm) (Metrics_SizePerResource rm)) agm metrics.
Definition aggregateMeterMetricsFromLogs (dims : gset string) (agm : aggregatedMeterMetrics) (logs : Logs)
  : aggregatedMeterMetrics :=
  foldl (λ agm rl, UpdateLogMeterMetrics agm
                     (buildDimensionsMapFromResourceAttributes dims (map_to_list (rl_Resource rl)))
                     (Logs_CountPerResource rl) (Logs_SizePerResource rl)) agm logs.

(** ** What is emitted *)

Definition meter_metric (timestamp : Z) (name description : string) (value : Z) (d : gmap string Value) : Metric :=
  {| m_Name := name; m_Description := description; m_Unit := "";
     m_Data := Sum TemporalityDelta true
       [ {| n_Attributes := if decide (d = ∅) then ∅ else d; n_Timestamp := timestamp; n_Value := NumberInt value;
            n_Flags := 0 |} ] |}.
Definition collectLogMeterMetrics (timestamp : Z) (m : meterMetric) : list Metric :=
  if logCount m =? 0 then []
  else [ meter_metric timestamp metricNameLogsCount "The number of log records observed." (logCount m) (attrs m);
         meter_metric timestamp metricNameLogsSize "The size of log records observed." (logSize m) (attrs m) ].
Definition collectTraceMeterMetrics (timestamp : Z) (m : meterMetric) : list Metric :=
  if spanCount m =? 0 then []
  else [ meter_metric timestamp metricNameSpansCount "The number of spans observed." (spanCount m) (attrs m);
         meter_metric timestamp metricNameSpansSize "The size of spans observed." (spanSize m) (attrs m) ].
Definition collectMetricMeterMetrics (timestamp : Z) (m : meterMetric) : list Metric :=
  if metricDataPointCount m =? 0 then []
  else [ meter_metric timestamp metricNameMetricsDataPointsCount "The number of data points observed."
           (metricDataPointCount m) (attrs m);
         meter_metric timestamp metricNameMetricsDataPointsSize "The size of data points observed."
           (metricDataPointSize m) (attrs m) ].

(** [entries] are the values of the map in the order it is ranged over. *)
Definition buildMetrics (connector_id : string) (timestamp : Z) (entries : list meterMetric) : Metrics :=
  (λ m, {| rm_Attributes := ∅;
           rm_ScopeMetrics := [
             {| sm_Attributes := {[ "connector_id" := NewValueStr connector_id ]}; sm_Name := "signozmeterconnector";
                sm_Version := ""; sm_SchemaUrl := "";
                sm_Metrics := collectLogMeterMetrics timestamp m ++ collectTraceMeterMetrics timestamp m
                              ++ collectMetricMeterMetrics timestamp m |} ] |}) <$> entries.

(** [pmetric.Metrics.DataPointCount], [ptrace.Traces.SpanCount], [plog.Logs.LogRecordCount]. *)
Definition metric_points (m : Metric) : Z :=
  match m_Data m with
  | Gauge l => len l | Sum _ _ l => len l | Histogram _ l => len l | Summary l => len l
  | ExponentialHistogram _ l => len l | Empty => 0
  end.
Definition DataPointCount (md : Metrics) : Z :=
  sumZ (λ rm, sumZ (λ sm, sumZ metric_points (sm_Metrics sm)) (rm_ScopeMetrics rm)) md.
Definition SpanCount (td : list OtelResourceSpans) : Z := sumZ (λ rs, sumZ len (or_ScopeSpans rs)) td.
Definition LogRecordCount (ld : Logs) : Z := sumZ (λ rl, sumZ (λ sl, len (sl_LogRecords sl)) (rl_ScopeLogs rl)) ld.

(** ** The connector *)

(** What is recorded in the connector's own counters (telemetry.go). *)
Inductive connectorRoles := connectorRoleReceiver | connectorRoleExporter.
Record telemetry_record := { tr_role : connectorRoles; tr_value : Z; tr_flag : bool; tr_signal : string }.

(** [c_routines] is the number of goroutines that wait for the ticker. *)
Record meterConnector := {
  c_dimensions : gset string; c_id : string; c_agm : aggregatedMeterMetrics; c_started : bool; c_routines : nat }.
Definition newConnector (dimensions : list string) (id : string) : meterConnector :=
  {| c_dimensions := newDimensionsMap dimensions; c_id := id; c_agm := ∅; c_started := false; c_routines := 0 |}.
Definition with_agm (c : meterConnector) (agm : aggregatedMeterMetrics) : meterConnector :=
  {| c_dimensions := c_dimensions c; c_id := c_id c; c_agm := agm; c_started := c_started c; c_routines := c_routines c |}.

Definition accepted (value : Z) (signal : string) : telemetry_record :=
  {| tr_role := connectorRoleReceiver; tr_value := value; tr_flag := true; tr_signal := signal |}.
Definition ConsumeTraces (c : meterConnector) (td : list OtelResourceSpans) : meterConnector * telemetry_record :=
  (with_agm c (aggregateMeterMetricsFromTraces (c_dimensions c) (c_agm c) td), accepted (SpanCount td) "traces").
Definition ConsumeMetrics (c : meterConnector) (md : Metrics) : meterConnector * telemetry_record :=
  (with_agm c (aggregateMeterMetricsFromMetrics (c_dimensions c) (c_agm c) md), accepted (DataPointCount md) "metrics").
Definition ConsumeLogs (c : meterConnector) (ld : Logs) : meterConnector * telemetry_record :=
  (with_agm c (aggregateMeterMetricsFromLogs (c_dimensions c) (c_agm c) ld), accepted (LogRecordCount ld) "logs").

(** What an export meets: the order of the map, the clock, and the next consumer. *)
Record export_env := {
  ev_entries : list meterMetric; ev_timestamp : Z; ev_consume : Metrics → option string }.
(** The error, what the next consumer was given, what is recorded, and the connector after. *)
Definition exportMetrics (ev : export_env) (c : meterConnector)
  : option string * option Metrics * list telemetry_record * meterConnector :=
  let metrics := buildMetrics (c_id c) (ev_timestamp ev) (ev_entries ev) in
  let c := with_agm c (Purge (c_agm c)) in
  if DataPointCount metrics =? 0 then (None, None, [], c)
  else
    let sent b := {| tr_role := connectorRoleExporter; tr_value := DataPointCount metrics; tr_flag := b;
                     tr_signal := "metrics" |} in
    match ev_consume ev metrics with
    | Some err => (Some err, Some metrics, [sent false], c)
    | None => (None, Some metrics, [sent true], c)
    end.

Definition Start (c : meterConnector) : meterConnector :=
  {| c_dimensions := c_dimensions c; c_id := c_id c; c_agm := c_agm c; c_started := true; c_routines := S (c_routines c) |}.
(** One goroutine takes the message of [done]; [Shutdown] returns when none is left. *)
Definition Shutdown (ev : export_env) (c : meterConnector) : option Metrics * meterConnector :=
  if c_started c then
    let '(_, given, _, c) := exportMetrics ev c in
    (given, {| c_dimensions := c_dimensions c; c_id := c_id c; c_agm := c_agm c; c_started := false;
               c_routines := pred (c_routines c) |})
  else (None, c).

(** ** Interleavings *)

Inductive meter_signal := SpansSignal | PointsSignal | LogsSignal.
(** One call of an Update operation: the step under the lock. *)
Record update := { u_signal : meter_signal; u_dims : gmap string Value; u_count : Z; u_size : Z }.
Definition apply_update (agm : aggregatedMeterMetrics) (u : update) : aggregatedMeterMetrics :=
  match u_signal u with
  | SpansSignal => UpdateSpanMeterMetrics agm (u_dims u) (u_count u) (u_size u)
  | PointsSignal => UpdateMetricDataPointsMeterMetrics agm (u_dims u) (u_count u) (u_size u)
  | LogsSignal => UpdateLogMeterMetrics agm (u_dims u) (u_count u) (u_size u)
  end.

Inductive meter_event := Updated (u : update) | Exported (given : option Metrics) (failed : bool) | Lifecycle.
Definition failed_export (ev : export_env) (c : meterConnector) : bool :=
  let '(err, _, _, _) := exportMetrics ev c in if err then true else false.
Inductive meter_step (c : meterConnector) : meter_event → meterConnector → Prop :=
| step_update u : meter_step c (Updated u) (with_agm c (apply_update (c_agm c) u))
| step_start : meter_step c Lifecycle (Start c)
| step_tick ev err given tel c' :
    (0 < c_routines c)%nat → ev_entries ev ≡ₚ (map_to_list (c_agm c)).*2 → exportMetrics ev c = (err, given, tel, c') →
    meter_step c (Exported given (if err then true else false)) c'
| step_shutdown ev given c' :
    c_started c = true → ev_entries ev ≡ₚ (map_to_list (c_agm c)).*2 → Shutdown ev c = (given, c') →
    meter_step c (Exported given (failed_export ev c)) c'
| step_shutdown_idle : c_started c = false → meter_step c Lifecycle c.

Inductive meter_run (c0 : meterConnector) : list meter_event → meterConnector → Prop :=
| run_start : meter_run c0 [] c0
| run_step evs c e c' : meter_run c0 evs c → meter_step c e c' → meter_run c0 (evs ++ [e]) c'.
End connector.
