(* ===== verification/MeterConnectorProps.v ===== *)
(** * What the meter connector promises

    An entry is the sum of what was consumed under its key; over every interleaving of the
    steps what was consumed is what was given to the next consumer and what is still held. *)
From S2P Require Import Prelude GoText Pdata Sampling Flatten Utils Fingerprint Pmetric ClickHouse LogsPipeline.
From S2P Require Import LogsExporter TracesSpan Metering MeteringProps MeterConnector.

(** ** Configuration *)

Lemma validate_meter_dimensions_spec labels dims :
  validate_meter_dimensions labels dims = None ↔ NoDup dims ∧ ∀ k, k ∈ dims → k ∉ labels.
Proof.
  revert labels. induction dims as [|k dims IH]; intros labels; simpl; [by split; [split; [constructor|set_solver]|]|].
  destruct (decide (k ∈ labels)) as [H|H].
  - split; [done|]. intros [_ Hk]. by destruct (Hk k ltac:(set_solver)).
  - rewrite IH, NoDup_cons. set_solver.
Qed.
(** A configuration is accepted exactly when no dimension is repeated. *)
Lemma MeterConfig_Validate_spec dims : MeterConfig_Validate dims = None ↔ NoDup dims.
Proof.
  transitivity (validate_meter_dimensions ∅ dims = None); [|rewrite validate_meter_dimensions_spec; set_solver].
  unfold MeterConfig_Validate. by destruct (validate_meter_dimensions ∅ dims).
Qed.
Lemma newDimensionsMap_spec dims k : k ∈ newDimensionsMap dims ↔ k ∈ dims.
Proof.
  unfold newDimensionsMap. enough (∀ m : gset string, k ∈ foldl (λ m k, {[ k ]} ∪ m) m dims ↔ k ∈ m ∨ k ∈ dims) as H
    by (rewrite H; set_solver).
  induction dims as [|d dims IH]; intros m; simpl; [set_solver|]. rewrite IH. set_solver.
Qed.

Section connector.
Context `{PD : Pdata} `{PT : !PdataText PD} `{PV : !PdataValues PD} `{FA : FormatAny} `{TT : TraceText}
  `{JS : JSON} `{MJ : !MeterJSON} `{RW : !PdataRaw PD}.
Context (MapHash : gmap string Value → string).

(** A dimension that the resource has, with the text of its value; the attributes of a
    resource have no key twice. *)
Lemma buildDimensionsMap_spec dims (resource : PMap) k :
  NoDup resource.*1 →
  buildDimensionsMapFromResourceAttributes dims resource !! k
  = if decide (k ∈ dims) then NewValueStr ∘ AsString <$> (list_to_map resource : gmap string Value) !! k else None.
Proof.
  unfold buildDimensionsMapFromResourceAttributes. intros Hnd.
  enough (∀ m : gmap string Value, foldl (λ m '(k, v), if decide (k ∈ dims) then <[k := NewValueStr (AsString v)]> m else m) m resource !! k
    = if decide (k ∈ dims) then match (list_to_map resource : gmap string Value) !! k with
                                | Some v => Some (NewValueStr (AsString v)) | None => m !! k end else m !! k) as H.
  { rewrite H, lookup_empty. by destruct (decide _), ((list_to_map resource : gmap string Value) !! k). }
  induction resource as [|[k' v] l IH]; intros m; simpl; [by destruct (decide _)|].
  apply NoDup_cons in Hnd as [Hk Hnd]. rewrite (IH Hnd). destruct (decide (k = k')) as [->|Hne].
  - rewrite lookup_insert_eq. assert ((list_to_map l : gmap string Value) !! k' = None) as -> by (by apply not_elem_of_list_to_map_1).
    destruct (decide (k' ∈ dims)); [by rewrite lookup_insert_eq|done].
  - rewrite lookup_insert_ne by done. destruct (decide (k' ∈ dims)); [|done]. by rewrite lookup_insert_ne.
Qed.

(** ** Quantities *)

Inductive quantity := QSpanCount | QSpanSize | QPointCount | QPointSize | QLogCount | QLogSize.
#[local] Instance quantity_eq_dec : EqDecision quantity.
Proof. solve_decision. Defined.
Definition signal_of (q : quantity) : meter_signal :=
  match q with QSpanCount | QSpanSize => SpansSignal | QPointCount | QPointSize => PointsSignal | _ => LogsSignal end.
Definition quantity_name (q : quantity) : string :=
  match q with
  | QSpanCount => metricNameSpansCount | QSpanSize => metricNameSpansSize
  | QPointCount => metricNameMetricsDataPointsCount | QPointSize => metricNameMetricsDataPointsSize
  | QLogCount => metricNameLogsCount | QLogSize => metricNameLogsSize
  end.
Definition quantity_of (q : quantity) (m : meterMetric) : Z :=
  match q with
  | QSpanCount => spanCount m | QSpanSize => spanSize m | QPointCount => metricDataPointCount m
  | QPointSize => metricDataPointSize m | QLogCount => logCount m | QLogSize => logSize m
  end.
Definition is_size (q : quantity) : bool := match q with QSpanSize | QPointSize | QLogSize => true | _ => false end.
Definition update_quantity (q : quantity) (u : update) : Z :=
  match u_signal u, signal_of q with
  | SpansSignal, SpansSignal | PointsSignal, PointsSignal | LogsSignal, LogsSignal =>
      if is_size q then u_size u else u_count u
  | _, _ => 0
  end.
Abbreviation total q us := (sumZ (update_quantity q) us).

Lemma apply_update_quantity agm u :
  ∃ m, apply_update MapHash agm u = <[MapHash (u_dims u) := m]> agm
     ∧ attrs m = attrs (entry MapHash agm (u_dims u))
     ∧ ∀ q, quantity_of q m = i64 (quantity_of q (entry MapHash agm (u_dims u)) + update_quantity q u)
            ∨ quantity_of q m = quantity_of q (entry MapHash agm (u_dims u)) ∧ update_quantity q u = 0.
Proof. destruct u as [[] d n z]; eexists; (split_and!; [reflexivity..|]); intros []; simpl; auto. Qed.

(** The updates under a key. *)
Definition of_key (k : string) (us : list update) : list update := filter (λ u, MapHash (u_dims u) = k) us.

(** An entry has the dimensions of the first update under its key, and the sum of each
    quantity, wrapped. *)
Definition entry_of (us : list update) (o : option meterMetric) : Prop :=
  match us with
  | [] => o = None
  | u :: _ => ∃ m, o = Some m ∧ attrs m = u_dims u ∧ ∀ q, quantity_of q m = i64 (total q us)
  end.
Lemma aggregate_spec us k : entry_of (of_key k us) (foldl (apply_update MapHash) ∅ us !! k).
Proof.
  induction us as [|u us IH] using rev_ind; [apply lookup_empty|].
  rewrite foldl_app. simpl. unfold of_key in *. rewrite filter_app, filter_cons, filter_nil.
  set (agm := foldl (apply_update MapHash) ∅ us) in *.
  destruct (apply_update_quantity agm u) as (m & Hm & Ha & Hq).
  destruct (decide (MapHash (u_dims u) = k)) as [<-|Hk]; [|by rewrite app_nil_r, Hm, lookup_insert_ne].
  rewrite Hm, lookup_insert_eq. unfold entry in Ha, Hq.
  destruct (filter _ us) as [|u0 us0]; simpl in IH |- *.
  - rewrite IH in Ha, Hq. exists m. split_and!; [done..|]. intros q. rewrite Z.add_0_r.
    destruct (Hq q) as [->|[-> ->]]; by destruct q.
  - destruct IH as (m0 & E0 & Ha0 & Hq0). rewrite E0 in Ha, Hq. exists m. split_and!; [done|by rewrite Ha|].
    intros q. rewrite sumZ_app. simpl. rewrite Z.add_0_r. simpl in Hq. specialize (Hq q). rewrite Hq0 in Hq. simpl in Hq.
    destruct Hq as [->|[-> ->]]; [|by rewrite Z.add_0_r]. rewrite i64_add. f_equal. lia.
Qed.

(** ** What is emitted *)

(** What a metric says of a key: the points of a sum. *)
Definition point_total (k : string) (m : Metric) : Z :=
  match m_Data m with
  | Sum _ _ points =>
      sumZ (λ dp, if decide (MapHash (n_Attributes dp) = k) then match n_Value dp with NumberInt z => z | _ => 0 end else 0) points
  | _ => 0
  end.
Definition named_total (k : string) (q : quantity) (m : Metric) : Z :=
  if decide (m_Name m = quantity_name q) then point_total k m else 0.
Definition given_total (k : string) (q : quantity) (md : Metrics) : Z :=
  sumZ (λ rm, sumZ (λ sm, sumZ (named_total k q) (sm_Metrics sm)) (rm_ScopeMetrics rm)) md.

Definition count_of (q : quantity) : quantity :=
  match signal_of q with SpansSignal => QSpanCount | PointsSignal => QPointCount | LogsSignal => QLogCount end.
(** Nothing is emitted for a signal whose count is zero. *)
Definition entry_given (k : string) (q : quantity) (m : meterMetric) : Z :=
  if decide (MapHash (attrs m) = k) then if quantity_of (count_of q) m =? 0 then 0 else quantity_of q m else 0.

Lemma quantity_name_inj q q' : quantity_name q = quantity_name q' → q = q'.
Proof. by destruct q, q'. Qed.
Lemma named_total_metric k q q' ts desc z d :
  named_total k q (meter_metric ts (quantity_name q') desc z d)
  = if decide (q = q') then if decide (MapHash d = k) then z else 0 else 0.
Proof.
  unfold named_total, meter_metric, point_total. cbn [m_Name m_Data].
  assert ((if decide (d = ∅) then ∅ else d) = d) as -> by (by destruct (decide _)).
  destruct (decide (q = q')) as [->|Hq]; [|by rewrite decide_False by naive_solver eauto using quantity_name_inj].
  rewrite decide_True by done. cbn [m_Data sumZ foldr n_Attributes n_Value]. destruct (decide _); simpl; lia.
Qed.

Lemma sumZ_one {A} (f : A → Z) x : sumZ f [x] = f x.
Proof. apply Z.add_0_r. Qed.
Lemma collect_total k q ts m :
  sumZ (named_total k q) (collectLogMeterMetrics ts m ++ collectTraceMeterMetrics ts m ++ collectMetricMeterMetrics ts m)
  = entry_given k q m.
Proof.
  rewrite !sumZ_app. unfold collectLogMeterMetrics, collectTraceMeterMetrics, collectMetricMeterMetrics, entry_given.
  assert (∀ (b : bool) l, sumZ (named_total k q) (if b then [] else l) = if b then 0 else sumZ (named_total k q) l) as Hif by by intros [].
  rewrite !Hif. cbn [sumZ foldr].
  change metricNameLogsCount with (quantity_name QLogCount). change metricNameLogsSize with (quantity_name QLogSize).
  change metricNameSpansCount with (quantity_name QSpanCount). change metricNameSpansSize with (quantity_name QSpanSize).
  change metricNameMetricsDataPointsCount with (quantity_name QPointCount).
  change metricNameMetricsDataPointsSize with (quantity_name QPointSize).
  rewrite !named_total_metric.
  destruct (decide (MapHash (attrs m) = k)); destruct q; cbn [quantity_of count_of signal_of]; repeat case_decide; try congruence;
    destruct (logCount m =? 0), (spanCount m =? 0), (metricDataPointCount m =? 0); lia.
Qed.
Lemma given_build k q id ts entries : given_total k q (buildMetrics id ts entries) = sumZ (entry_given k q) entries.
Proof.
  unfold given_total, buildMetrics. rewrite sumZ_fmap. apply sumZ_ext. intros m _. cbn [rm_ScopeMetrics].
  rewrite sumZ_one. apply collect_total.
Qed.

(** Without data points nothing is said. *)
Lemma metric_points_nonneg m : 0 ≤ metric_points m.
Proof. unfold metric_points. destruct (m_Data m); try apply len_nonneg. done. Qed.
Lemma no_points_no_total k q md : DataPointCount md = 0 → given_total k q md = 0.
Proof.
  unfold DataPointCount, given_total. intros H.
  assert (∀ sm, 0 ≤ sumZ metric_points (sm_Metrics sm)) as H1 by (intros; apply sumZ_nonneg; auto using metric_points_nonneg).
  assert (∀ rm, 0 ≤ sumZ (λ sm, sumZ metric_points (sm_Metrics sm)) (rm_ScopeMetrics rm)) as H2 by (intros; by apply sumZ_nonneg).
  rewrite sumZ_zero in H by done. transitivity (sumZ (λ _, 0) md); [|by rewrite sumZ_zero]. apply sumZ_ext. intros rm Hrm.
  specialize (H rm Hrm). rewrite sumZ_zero in H by done.
  transitivity (sumZ (λ _, 0) (rm_ScopeMetrics rm)); [|by rewrite sumZ_zero]. apply sumZ_ext. intros sm Hsm.
  specialize (H sm Hsm). rewrite sumZ_zero in H by auto using metric_points_nonneg.
  transitivity (sumZ (λ _, 0) (sm_Metrics sm)); [|by rewrite sumZ_zero]. apply sumZ_ext. intros m Hm. specialize (H m Hm).
  unfold named_total, point_total. unfold metric_points in H. destruct (decide _), (m_Data m); try done.
  destruct points; [done|]. unfold len in H. simpl in H. lia.
Qed.

(** ** Conservation *)

(** What is consumed, what was given to the next consumer with and without success, what is
    held, and the updates since the last export. *)
Definition updates (evs : list meter_event) : list update := evs ≫= λ e, match e with Updated u => [u] | _ => [] end.
Definition event_given (b : bool) (k : string) (q : quantity) (e : meter_event) : Z :=
  match e with Exported (Some md) failed => if Bool.eqb failed b then given_total k q md else 0 | _ => 0 end.
Definition delivered (k : string) (q : quantity) (evs : list meter_event) : Z := sumZ (event_given false k q) evs.
Definition lost (k : string) (q : quantity) (evs : list meter_event) : Z := sumZ (event_given true k q) evs.
Definition held (k : string) (q : quantity) (c : meterConnector) : Z :=
  match c_agm c !! k with Some m => quantity_of q m | None => 0 end.
Definition pending (evs : list meter_event) : list update :=
  foldl (λ us e, match e with Updated u => us ++ [u] | Exported _ _ => [] | Lifecycle => us end) [] evs.

(** An update of a resource: without items there is nothing whose size counts. *)
Definition wf_update (u : update) : Prop := 0 ≤ u_count u ∧ 0 ≤ u_size u ∧ (u_count u = 0 → u_size u = 0).

Lemma update_quantity_nonneg q u : wf_update u → 0 ≤ update_quantity q u.
Proof. intros (H1 & H2 & _). unfold update_quantity. destruct (u_signal u), q; simpl; lia. Qed.
Lemma count_zero q u : wf_update u → update_quantity (count_of q) u = 0 → update_quantity q u = 0.
Proof. intros (_ & _ & H). unfold update_quantity. destruct (u_signal u), q; simpl; auto. Qed.

(** An entry that no sum has wrapped says what was consumed under its key. *)
Lemma entry_given_spec us k k' m q :
  Forall wf_update us → (∀ q, total q us < 2 ^ 63) → foldl (apply_update MapHash) ∅ us !! k' = Some m →
  entry_given k q m = if decide (k' = k) then total q (of_key k us) else 0.
Proof.
  intros Hwf Hb Hm. pose proof (aggregate_spec us k') as He. rewrite Hm in He. unfold entry_of in He.
  destruct (of_key k' us) as [|u us'] eqn:Ek; [done|]. destruct He as (m' & Em & Ha & Hq). injection Em as <-.
  assert (MapHash (u_dims u) = k') as Hk.
  { assert (u ∈ of_key k' us) as Hin by (rewrite Ek; apply list_elem_of_here). apply list_elem_of_filter in Hin as [Hin _]. exact Hin. }
  unfold entry_given. rewrite Ha, Hk. destruct (decide (k' = k)) as [->|]; [|done].
  assert (∀ q, quantity_of q m = total q (of_key k us)) as Hex.
  { intros p. rewrite Hq, <- Ek. rewrite Forall_forall in Hwf.
    assert (∀ u, u ∈ us → 0 ≤ update_quantity p u) as Hnn by (intros; by apply update_quantity_nonneg, Hwf).
    apply i64_small. split.
    - enough (0 ≤ total p (of_key k us)) by lia. apply sumZ_nonneg. intros x [_ Hx]%list_elem_of_filter. by apply Hnn.
    - eapply Z.le_lt_trans; [by apply (sumZ_filter_le _ _ us Hnn)|apply Hb]. }
  rewrite !Hex. destruct (Z.eqb_spec (total (count_of q) (of_key k us)) 0) as [Hz|]; [|done].
  rewrite Forall_forall in Hwf. symmetry.
  assert (∀ x, x ∈ of_key k us → wf_update x) as Hwk by (intros x [_ Hx]%list_elem_of_filter; by apply Hwf).
  rewrite sumZ_zero by (intros; by apply update_quantity_nonneg, Hwk). intros x Hx. apply count_zero; [by apply Hwk|].
  revert x Hx. by apply sumZ_zero; [intros; apply update_quantity_nonneg, Hwk|].
Qed.

(** What an export says of a key is the sum of the updates under it. *)
Lemma given_entries us k q id ts entries :
  Forall wf_update us → (∀ q, total q us < 2 ^ 63) → entries ≡ₚ (map_to_list (foldl (apply_update MapHash) ∅ us)).*2 →
  given_total k q (buildMetrics id ts entries) = total q (of_key k us).
Proof.
  intros Hwf Hb Hp. rewrite given_build, (sumZ_perm _ _ _ Hp), (sumZ_map_key _ _ k).
  - pose proof (aggregate_spec us k) as He. destruct (_ !! k) as [m|] eqn:E.
    + by rewrite (entry_given_spec us k k m q Hwf Hb E), decide_True.
    + destruct (of_key k us); [done|]. by destruct He as (m & ? & _).
  - intros k' m Hm Hk. by rewrite (entry_given_spec us k k' m q Hwf Hb Hm), decide_False.
Qed.

Lemma exportMetrics_given ev c err given tel c' k q :
  exportMetrics ev c = (err, given, tel, c') →
  c' = with_agm c ∅
  ∧ event_given false k q (Exported given (if err then true else false)) + event_given true k q (Exported given (if err then true else false))
    = given_total k q (buildMetrics (c_id c) (ev_timestamp ev) (ev_entries ev)).
Proof.
  unfold exportMetrics. destruct (Z.eqb_spec (DataPointCount (buildMetrics (c_id c) (ev_timestamp ev) (ev_entries ev))) 0) as [H|H].
  - intros E. injection E as <- <- <- <-. split; [done|]. by rewrite (no_points_no_total _ _ _ H).
  - destruct (ev_consume _ _); intros E; injection E as <- <- <- <-; (split; [done|]); simpl; lia.
Qed.

Lemma pending_snoc evs e :
  pending (evs ++ [e]) = match e with Updated u => pending evs ++ [u] | Exported _ _ => [] | Lifecycle => pending evs end.
Proof. unfold pending. by rewrite foldl_app. Qed.
Lemma updates_snoc evs e : updates (evs ++ [e]) = updates evs ++ match e with Updated u => [u] | _ => [] end.
Proof. unfold updates. rewrite bind_app, bind_cons. simpl. by rewrite app_nil_r. Qed.
Lemma pending_sublist evs : pending evs `sublist_of` updates evs.
Proof.
  induction evs as [|e evs IH] using rev_ind; [done|]. rewrite pending_snoc, updates_snoc. destruct e.
  - by apply sublist_app.
  - apply sublist_nil_l.
  - by rewrite app_nil_r.
Qed.
Lemma sumZ_sublist {A} (f : A → Z) l l' : l `sublist_of` l' → (∀ x, x ∈ l' → 0 ≤ f x) → sumZ f l ≤ sumZ f l'.
Proof.
  induction 1 as [|x l l' _ IH|x l l' _ IH]; intros H; simpl; [done| |].
  - pose proof (IH ltac:(set_solver)). lia.
  - pose proof (IH ltac:(set_solver)). pose proof (H x ltac:(set_solver)). lia.
Qed.

(** The conditions pass to the updates since the last export. *)
Definition metered (us : list update) : Prop := Forall wf_update us ∧ ∀ q, total q us < 2 ^ 63.
Lemma metered_sublist us us' : us `sublist_of` us' → metered us' → metered us.
Proof.
  intros Hs [Hwf Hb]. rewrite Forall_forall in Hwf.
  split; [apply Forall_forall; intros x Hx; by eapply Hwf, elem_of_sublist|]. intros q. eapply Z.le_lt_trans; [|apply (Hb q)].
  apply sumZ_sublist; [done|]. intros x Hx. by apply update_quantity_nonneg, Hwf.
Qed.

(** The connector holds the updates since the last export. *)
Lemma run_pending c0 evs c : c_agm c0 = ∅ → meter_run MapHash c0 evs c → c_agm c = foldl (apply_update MapHash) ∅ (pending evs).
Proof.
  intros H0. induction 1 as [|evs c e c' _ IH Hs]; [done|]. rewrite pending_snoc.
  destruct Hs as [u| |ev err given tel c' _ _ He|ev given c' Hst _ He|]; [by rewrite foldl_app, <- IH|done| | |done].
  - destruct (exportMetrics_given _ _ _ _ _ _ "" QSpanCount He) as [-> _]. done.
  - unfold Shutdown in He. rewrite Hst in He. destruct (exportMetrics ev c) as [[[err g] tel] c1] eqn:E. injection He as <- <-.
    destruct (exportMetrics_given _ _ _ _ _ _ "" QSpanCount E) as [-> _]. done.
Qed.

(** Every step that exports gives away what was pending. *)
Lemma step_given c e c' evs k q :
  metered (pending evs) → c_agm c = foldl (apply_update MapHash) ∅ (pending evs) → meter_step MapHash c e c' →
  event_given false k q e + event_given true k q e
  = match e with Exported _ _ => total q (of_key k (pending evs)) | _ => 0 end.
Proof.
  intros [Hwf Hb] Hagm Hs. destruct Hs as [u| |ev err given tel c' _ Hp He|ev given c' Hst Hp He|]; try done.
  - destruct (exportMetrics_given _ _ _ _ _ _ k q He) as [_ ->]. rewrite Hagm in Hp. by apply given_entries.
  - unfold Shutdown in He. rewrite Hst in He. unfold failed_export.
    destruct (exportMetrics ev c) as [[[err g] tel] c1] eqn:E. injection He as <- <-.
    destruct (exportMetrics_given _ _ _ _ _ _ k q E) as [_ ->]. rewrite Hagm in Hp. by apply given_entries.
Qed.

Lemma run_conserves c0 evs c k q :
  c_agm c0 = ∅ → meter_run MapHash c0 evs c → metered (updates evs) →
  total q (of_key k (updates evs)) = delivered k q evs + lost k q evs + total q (of_key k (pending evs)).
Proof.
  intros H0 Hrun. induction Hrun as [|evs c e c' Hrun IH Hs]; intros Hm; [done|].
  rewrite updates_snoc in *. specialize (IH ltac:(eapply metered_sublist; [apply sublist_inserts_r; reflexivity|exact Hm])).
  assert (metered (pending evs)) as Hpm.
  { eapply metered_sublist; [apply pending_sublist|]. eapply metered_sublist; [|exact Hm]. by apply sublist_inserts_r. }
  pose proof (step_given _ _ _ evs k q Hpm (run_pending _ _ _ H0 Hrun) Hs) as Hg.
  unfold delivered, lost in *. rewrite pending_snoc, !sumZ_app, !sumZ_one. unfold of_key in *. rewrite filter_app, sumZ_app, IH.
  destruct e as [u|given failed|]; [|rewrite filter_nil; simpl (sumZ _ []); lia..].
  rewrite filter_app, sumZ_app. simpl in Hg |- *. lia.
Qed.

(** C7. Over every interleaving of updates, ticks and shutdowns, what was consumed under a key is
    what the next consumer accepted, what it refused, and what is still held; after an export
    nothing is held. *)
Theorem meter_conservation dims id evs c k q :
  meter_run MapHash (newConnector dims id) evs c → metered (updates evs) →
  total q (of_key k (updates evs)) = delivered k q evs + lost k q evs + held k q c
  ∧ (∀ given failed, last evs = Some (Exported given failed) → held k q c = 0).
Proof.
  intros Hrun Hm. pose proof (run_pending (newConnector dims id) _ _ eq_refl Hrun) as Hagm.
  assert (held k q c = total q (of_key k (pending evs))) as ->.
  { unfold held. pose proof (metered_sublist _ _ (pending_sublist evs) Hm) as [Hwf Hb].
    pose proof (aggregate_spec (pending evs) k) as He. rewrite Hagm. unfold entry_of in He.
    destruct (of_key k (pending evs)) as [|u us] eqn:Ek; [by rewrite He|]. destruct He as (m & -> & _ & ->).
    apply i64_small. rewrite <- Ek. rewrite Forall_forall in Hwf.
    assert (∀ u, u ∈ pending evs → 0 ≤ update_quantity q u) as Hnn by (intros; by apply update_quantity_nonneg, Hwf). split.
    - enough (0 ≤ total q (of_key k (pending evs))) by lia. apply sumZ_nonneg. intros x [_ Hx]%list_elem_of_filter. by apply Hnn.
    - eapply Z.le_lt_trans; [by apply (sumZ_filter_le _ _ (pending evs) Hnn)|apply Hb]. }
  split; [by apply (run_conserves (newConnector dims id) evs c)|].
  intros given failed [evs' ->]%last_Some. by rewrite pending_snoc.
Qed.

(** ** The handlers are runs of updates *)

Definition trace_update (dims : gset string) (rs : OtelResourceSpans) : update :=
  {| u_signal := SpansSignal; u_dims := buildDimensionsMapFromResourceAttributes dims (or_Resource rs);
     u_count := Traces_CountPerResource rs; u_size := Traces_SizePerResource rs |}.
Definition metric_update (dims : gset string) (rm : ResourceMetrics) : update :=
  {| u_signal := PointsSignal; u_dims := buildDimensionsMapFromResourceAttributes dims (map_to_list (rm_Attributes rm));
     u_count := Metrics_CountPerResource rm; u_size := Metrics_SizePerResource rm |}.
Definition log_update (dims : gset string) (rl : ResourceLogs) : update :=
  {| u_signal := LogsSignal; u_dims := buildDimensionsMapFromResourceAttributes dims (map_to_list (rl_Resource rl));
     u_count := Logs_CountPerResource rl; u_size := Logs_SizePerResource rl |}.

Lemma foldl_fmap_update {A} (f : A → update) agm l :
  foldl (λ agm x, apply_update MapHash agm (f x)) agm l = foldl (apply_update MapHash) agm (f <$> l).
Proof. revert agm. induction l as [|x l IH]; intros agm; [done|]. apply IH. Qed.

Lemma with_agm_same c : with_agm c (c_agm c) = c.
Proof. by destruct c. Qed.
Lemma run_updates c0 evs c us :
  meter_run MapHash c0 evs c →
  meter_run MapHash c0 (evs ++ (Updated <$> us)) (with_agm c (foldl (apply_update MapHash) (c_agm c) us)).
Proof.
  intros Hrun. induction us as [|u us IH] using rev_ind; [by rewrite app_nil_r, with_agm_same|].
  rewrite fmap_app, app_assoc, foldl_app. eapply run_step; [exact IH|].
  apply (step_update MapHash (with_agm c (foldl (apply_update MapHash) (c_agm c) us)) u).
Qed.
(** A batch is consumed by one update for each of its resources; other steps may come between
    them. *)
Theorem consume_updates c0 evs c td md ld :
  meter_run MapHash c0 evs c →
  meter_run MapHash c0 (evs ++ (Updated <$> (trace_update (c_dimensions c) <$> td))) (ConsumeTraces MapHash c td).1
  ∧ meter_run MapHash c0 (evs ++ (Updated <$> (metric_update (c_dimensions c) <$> md))) (ConsumeMetrics MapHash c md).1
  ∧ meter_run MapHash c0 (evs ++ (Updated <$> (log_update (c_dimensions c) <$> ld))) (ConsumeLogs MapHash c ld).1.
Proof.
  intros Hrun. unfold ConsumeTraces, ConsumeMetrics, ConsumeLogs. simpl.
  split_and!; (eapply eq_ind_r with (P := λ agm, meter_run MapHash c0 _ (with_agm c agm)); [by apply run_updates|]);
    [apply (foldl_fmap_update (trace_update _) _ td)|apply (foldl_fmap_update (metric_update _) _ md)
    |apply (foldl_fmap_update (log_update _) _ ld)].
Qed.

(** No size is negative. *)
Lemma size_of_nonneg t : 0 ≤ size_of t.
Proof. destruct t; [apply len_nonneg|done]. Qed.
Lemma KeySize_nonneg k : 0 ≤ KeySize k.
Proof. unfold KeySize. destruct (decide _); [|done]. pose proof (len_nonneg (bytes k)). lia. Qed.
Lemma add_key x k value extra : 1 ≤ x → 0 ≤ value → 0 ≤ extra → 1 ≤ x + TotalSizeIfKeyExists (KeySize k) value extra.
Proof. intros. pose proof (KeySize_nonneg k). unfold TotalSizeIfKeyExists. destruct (_ =? _); lia. Qed.
Lemma add_map x k value extra :
  1 ≤ x → 0 ≤ value → 0 ≤ extra → 1 ≤ x + TotalSizeIfKeyExistsAndValueIsMapOrSlice (KeySize k) value extra.
Proof. intros. pose proof (KeySize_nonneg k). unfold TotalSizeIfKeyExistsAndValueIsMapOrSlice. destruct (_ <=? _); lia. Qed.
Lemma span_size_nonneg (resource : PMap) res sp : 0 ≤ res → 0 ≤ span_size resource res sp.
Proof.
  intros Hres. unfold span_size, SizeOfFlatPcommonMapInNumberStringBool. cbv zeta.
  assert (∀ x, 1 ≤ x → 0 ≤ x - 1) as H by lia. apply H. clear H.
  repeat first [apply add_key|apply add_map]; try lia; try apply size_of_nonneg; try apply len_nonneg.
  - unfold SizeOfSpanID. by destruct (IsEmpty _).
  - unfold SizeOfTraceID. by destruct (IsEmpty _).
  - unfold SizeOfSpanID. by destruct (IsEmpty _).
  - destruct (_ =? _); [done|apply len_nonneg].
  - unfold SizeOfOtelSpanRefs. destruct (NewOtelSpanRefs _ _ _); [done|]. destruct (Marshal_references _); [|done].
    apply Z.add_nonneg_nonneg; apply len_nonneg.
Qed.

(** The updates of the handlers meet the conditions: no count or size is negative, and a
    resource without items has no size. *)
Lemma trace_update_wf dims rs : wf_update (trace_update dims rs).
Proof.
  unfold wf_update, trace_update. cbn [u_count u_size]. rewrite Traces_CountPerResource_sum, Traces_SizePerResource_sum.
  split_and!; [apply len_nonneg|apply sumZ_nonneg; intros; apply span_size_nonneg, size_of_nonneg|].
  unfold len. by destruct (concat _).
Qed.
Lemma metric_count_nonneg m : 0 ≤ metric_count m.
Proof.
  unfold metric_count. destruct (excludeRegex _); [done|].
  assert (∀ A (o : option A), 0 ≤ present o) as Hp by (by intros ? []).
  destruct (m_Data m); try apply len_nonneg; [done| | |]; rewrite foldl_sumZ, Z.add_0_l; apply sumZ_nonneg; intros dp _.
  - unfold hist_count. pose proof (Hp _ (h_Sum dp)). pose proof (Hp _ (h_Min dp)). pose proof (Hp _ (h_Max dp)).
    pose proof (len_nonneg (h_BucketCounts dp)). lia.
  - unfold exp_count. pose proof (Hp _ (e_Sum dp)). pose proof (Hp _ (e_Min dp)). pose proof (Hp _ (e_Max dp)).
    pose proof (len_nonneg (e_Negative dp).2). pose proof (len_nonneg (e_Positive dp).2). lia.
  - unfold summary_count. pose proof (len_nonneg (s_QuantileValues dp)). lia.
Qed.
Lemma metric_update_wf dims rm : wf_update (metric_update dims rm).
Proof.
  unfold wf_update, metric_update. cbn [u_count u_size]. split_and!; [|done|done].
  unfold Metrics_CountPerResource. rewrite (foldl_nested _ sm_Metrics), Z.add_0_l.
  apply sumZ_nonneg. intros sm _. apply sumZ_nonneg. intros m _. apply metric_count_nonneg.
Qed.
Lemma log_update_wf dims rl : wf_update (log_update dims rl).
Proof.
  unfold wf_update, log_update. cbn [u_count u_size]. unfold Logs_CountPerResource, Logs_SizePerResource.
  rewrite foldl_sumZ, Z.add_0_l, (foldl_nested _ sl_LogRecords), Z.add_0_l.
  assert (∀ sl, 0 ≤ len (sl_LogRecords sl)) as Hl by (intros; apply len_nonneg).
  split_and!; [by apply sumZ_nonneg| |].
  - apply sumZ_nonneg. intros sl _. apply sumZ_nonneg. intros lr _.
    unfold SizeOfMapStringAny. pose proof (len_nonneg (bytes (AsString (lr_Body lr)))).
    repeat apply Z.add_nonneg_nonneg; try done; apply size_of_nonneg.
  - rewrite sumZ_zero by done. intros H. transitivity (sumZ (λ _, 0) (rl_ScopeLogs rl)); [|by rewrite sumZ_zero].
    apply sumZ_ext. intros sl Hsl. specialize (H sl Hsl). destruct (sl_LogRecords sl); [done|]. unfold len in H. simpl in H. lia.
Qed.
End connector.

(** ** Witnesses *)

Section witnesses.
Import TestPdata.
(** The hash of the test: the text of the first dimension. *)
Definition w_hash (m : gmap string Value) : string := match map_to_list m with (k, v) :: _ => k +:+ "=" +:+ AsString v | [] => "" end.
Definition w_dims : gmap string Value := {[ "service.name" := VStr "api" ]}.
Definition w_update (count size : Z) : update := {| u_signal := LogsSignal; u_dims := w_dims; u_count := count; u_size := size |}.
Definition w_env (c : meterConnector) (r : option string) : export_env :=
  {| ev_entries := (map_to_list (c_agm c)).*2; ev_timestamp := 7; ev_consume _ := r |}.
Definition w_start : meterConnector := Start (newConnector ["service.name"] "id").
Definition w_held (c : meterConnector) (count size : Z) : meterConnector := with_agm c (apply_update w_hash (c_agm c) (w_update count size)).
Definition w_export (c : meterConnector) (r : option string) : meterConnector := (exportMetrics (w_env c r) c).2.
Definition w_given (c : meterConnector) : Metrics := buildMetrics (c_id c) 7 (map_to_list (c_agm c)).*2.

(** Two logs, a tick that fails, three more logs, a tick that works, and one more. *)
Definition w_c1 : meterConnector := w_held w_start 2 100.
Definition w_c2 : meterConnector := w_export w_c1 (Some "down").
Definition w_c3 : meterConnector := w_held w_c2 3 150.
Definition w_c4 : meterConnector := w_export w_c3 None.
Definition w_c5 : meterConnector := w_held w_c4 1 50.
Definition w_evs : list meter_event :=
  [Lifecycle; Updated (w_update 2 100); Exported (Some (w_given w_c1)) true; Updated (w_update 3 150);
   Exported (Some (w_given w_c3)) false; Updated (w_update 1 50)].

Lemma w_run : meter_run w_hash (newConnector ["service.name"] "id") w_evs w_c5.
Proof.
  assert (∀ c (r : option string), c_routines c = 1%nat → DataPointCount (w_given c) ≠ 0 →
    meter_step w_hash c (Exported (Some (w_given c)) (if r then true else false)) (w_export c r)) as Htick.
  { intros c r Hr Hd. unfold w_export.
    assert (∃ tel, exportMetrics (w_env c r) c = (r, Some (w_given c), tel, with_agm c ∅)) as [tel E].
    { unfold exportMetrics. cbn [w_env ev_entries ev_timestamp ev_consume]. fold (w_given c).
      rewrite (proj2 (Z.eqb_neq _ 0) Hd). destruct r; eexists; reflexivity. }
    rewrite E. apply (step_tick w_hash c (w_env c r) r (Some (w_given c)) tel); [lia|done|exact E]. }
  change w_evs with ((((([] ++ [Lifecycle]) ++ [Updated (w_update 2 100)]) ++ [Exported (Some (w_given w_c1)) true])
    ++ [Updated (w_update 3 150)]) ++ [Exported (Some (w_given w_c3)) false] ++ [Updated (w_update 1 50)]).
  rewrite (app_assoc _ [Exported (Some (w_given w_c3)) false]).
  eapply run_step; [|apply (step_update w_hash w_c4)].
  eapply run_step; [|apply (Htick w_c3 None); [reflexivity|by vm_compute]].
  eapply run_step; [|apply (step_update w_hash w_c2)].
  eapply run_step; [|apply (Htick w_c1 (Some "down")); [reflexivity|by vm_compute]].
  eapply run_step; [|apply (step_update w_hash w_start)].
  eapply run_step; [apply run_start|apply step_start].
Qed.

(** Of 300 bytes, 150 were accepted, 100 were refused and are gone, and 50 are held. *)
Lemma meter_conservation_witness :
  300 = delivered w_hash "service.name=api" QLogSize w_evs + lost w_hash "service.name=api" QLogSize w_evs
        + held "service.name=api" QLogSize w_c5 ∧ held "service.name=api" QLogSize w_c5 = 50.
Proof.
  assert (metered (updates w_evs)) as Hm.
  { split; [repeat constructor; simpl; lia|]. intros []; vm_compute; reflexivity. }
  split; [|vm_compute; reflexivity].
  destruct (meter_conservation w_hash ["service.name"] "id" w_evs w_c5 "service.name=api" QLogSize w_run Hm) as [H _].
  rewrite <- H. vm_compute. reflexivity.
Defined.
End witnesses.
