(* ===== verification/MeterExporter.v ===== *)
(** * The meter exporter

    src/exporter/signozclickhousemeter: batch.go, exporter.go and config.go. Points of sums
    become rows of the samples table, one row a point, with the time rounded down to the hour.
    The theorems follow the metrics of the meter connector to the rows. *)
From S2P Require Import Prelude GoText Pdata Sampling Flatten Utils Fingerprint Pmetric ClickHouse LogsPipeline.
From S2P Require Import MetricsExporter MetricsExporterProps LogsExporter TracesSpan Metering MeterConnector.

Section exporter.
Context `{PD : Pdata} `{PT : !PdataText PD} `{TY : !PdataTypes PD} `{MT : PmetricText}.

(** ** [sample] and [batch] *)

Record sample := {
  p_temporality : AggregationTemporality; p_metricName : string; p_description : string; p_unit : string;
  p_typ : MetricType; p_isMonotonic : bool; p_labels : string; p_fingerprint : Z; p_unixMilli : Z; p_value : float64 }.
Definition batch : Type := list sample.
Definition newBatch : batch := [].
Definition addSample (b : batch) (s : sample) : batch := b ++ [s].

(** ** [processSum] *)

Definition sum_sample (metric : Metric) (temporality : AggregationTemporality) (isMonotonic : bool)
    (resourceFingerprint scopeFingerprint : Fingerprint) (dp : NumberDataPoint) (value : float64) : sample :=
  let fingerprint := NewFingerprint PointFingerprintType (hash scopeFingerprint) (n_Attributes dp)
                       (temporality_extra temporality) in
  {| p_temporality := temporality; p_metricName := m_Name metric; p_description := m_Description metric;
     p_unit := m_Unit metric; p_typ := Type_ metric; p_isMonotonic := isMonotonic;
     p_labels := NewLabelsAsJSONString (m_Name metric)
       [AttributesAsMap fingerprint; AttributesAsMap scopeFingerprint; AttributesAsMap resourceFingerprint];
     p_fingerprint := HashWithName fingerprint (m_Name metric); p_unixMilli := UnixMilli (n_Timestamp dp);
     p_value := value |}.
Definition processSum (b : batch) (metric : Metric) (temporality : AggregationTemporality) (isMonotonic : bool)
    (points : list NumberDataPoint) (resourceFingerprint scopeFingerprint : Fingerprint) : batch :=
  foldl (λ b dp,
      let value := number_value (n_Value dp) in
      if IsNaN value then b
      else addSample b (sum_sample metric temporality isMonotonic resourceFingerprint scopeFingerprint dp value)) b points.

(** Metrics that are not sums are left out. *)
Definition process_metric (resourceFingerprint scopeFingerprint : Fingerprint) (b : batch) (metric : Metric) : batch :=
  match m_Data metric with
  | Sum temporality isMonotonic points =>
      processSum b metric temporality isMonotonic points resourceFingerprint scopeFingerprint
  | _ => b
  end.
Definition prepareBatch (md : Metrics) : batch :=
  foldl (λ b rm,
      let resourceFingerprint := NewFingerprint ResourceFingerprintType InitialOffset (rm_Attributes rm) ∅ in
      foldl (λ b sm,
          let scopeFingerprint := NewFingerprint ScopeFingerprintType (hash resourceFingerprint) (sm_Attributes sm)
            {[ "__scope.name__" := sm_Name sm; "__scope.version__" := sm_Version sm;
               "__scope.schema_url__" := sm_SchemaUrl sm ]} in
          foldl (process_metric resourceFingerprint scopeFingerprint) b (sm_Metrics sm)) b (rm_ScopeMetrics rm))
    newBatch md.

(** ** Writing *)

(** [sample.unixMilli / 3600000 * 3600000]: Go truncates towards zero. *)
Definition meter_roundedUnixMilli (s : sample) : Z := Z.quot (p_unixMilli s) 3600000 * 3600000.
(** What is appended: the sample with the rounded time. *)
Definition meter_row (s : sample) : sample :=
  {| p_temporality := p_temporality s; p_metricName := p_metricName s; p_description := p_description s;
     p_unit := p_unit s; p_typ := p_typ s; p_isMonotonic := p_isMonotonic s; p_labels := p_labels s;
     p_fingerprint := p_fingerprint s; p_unixMilli := meter_roundedUnixMilli s; p_value := p_value s |}.
Definition writeBatch (st : statement) (b : batch) : option string * list sample := write_rows st (meter_row <$> b).

(** The state is whether [closeChan] is closed; the error, and the rows that reached the table. *)
Definition ConsumeMetrics (st : statement) (closed : bool) (md : Metrics) : option string * list sample :=
  if closed then (Some "shutdown has been called", []) else writeBatch st (prepareBatch md).
(** Closing a closed channel panics: no result. *)
Definition Shutdown (close_err : option string) (closed : bool) : option (option string * bool) :=
  if closed then None else Some (close_err, true).

(** [Config.Validate]; [others] are the answers of the parts of other packages, in order. *)
Definition Config_Validate (DSN : string) (others : list (option string)) : option string :=
  if decide (DSN = "") then Some "dsn must be specified"
  else foldr (λ o rest, match o with Some e => Some e | None => rest end) None others.

(** ** The rows of a batch *)

Definition sum_rows (metric : Metric) (t : AggregationTemporality) (mono : bool) (rf sf : Fingerprint)
    (dp : NumberDataPoint) : list sample :=
  if IsNaN (number_value (n_Value dp)) then [] else [sum_sample metric t mono rf sf dp (number_value (n_Value dp))].
Definition metric_rows (rf sf : Fingerprint) (metric : Metric) : list sample :=
  match m_Data metric with Sum t mono points => points ≫= sum_rows metric t mono rf sf | _ => [] end.
Definition scope_rows (rf : Fingerprint) (sm : ScopeMetrics) : list sample :=
  sm_Metrics sm ≫= metric_rows rf
    (NewFingerprint ScopeFingerprintType (hash rf) (sm_Attributes sm)
       {[ "__scope.name__" := sm_Name sm; "__scope.version__" := sm_Version sm; "__scope.schema_url__" := sm_SchemaUrl sm ]}).
Definition resource_rows (rm : ResourceMetrics) : list sample :=
  rm_ScopeMetrics rm ≫= scope_rows (NewFingerprint ResourceFingerprintType InitialOffset (rm_Attributes rm) ∅).

Lemma foldl_append {A B} (f : list B → A → list B) (g : A → list B) l b :
  (∀ b x, f b x = b ++ g x) → foldl f b l = b ++ (l ≫= g).
Proof.
  intros H. revert b. induction l as [|x l IH]; intros b; [by rewrite app_nil_r|].
  simpl. by rewrite IH, H, <- app_assoc.
Qed.
Lemma prepareBatch_rows md : prepareBatch md = md ≫= resource_rows.
Proof.
  unfold prepareBatch. rewrite (foldl_append _ resource_rows); [done|]. intros b rm.
  apply foldl_append. clear b. intros b sm. apply foldl_append. clear b. intros b metric.
  unfold process_metric, metric_rows. destruct (m_Data metric); try by rewrite app_nil_r.
  apply foldl_append. intros b' dp. unfold sum_rows. destruct (IsNaN _); [by rewrite app_nil_r|done].
Qed.

(** ** The metrics of the connector *)

Context `{PV : !PdataValues PD} `{FA : FormatAny} `{TT : TraceText} `{JS : JSON} `{MJ : !MeterJSON} `{RW : !PdataRaw PD}.

(** The names and the values of an entry. *)
Definition entry_values (m : meterMetric) : list (string * Z) :=
  (if logCount m =? 0 then [] else [(metricNameLogsCount, logCount m); (metricNameLogsSize, logSize m)])
  ++ (if spanCount m =? 0 then [] else [(metricNameSpansCount, spanCount m); (metricNameSpansSize, spanSize m)])
  ++ (if metricDataPointCount m =? 0 then []
      else [(metricNameMetricsDataPointsCount, metricDataPointCount m);
            (metricNameMetricsDataPointsSize, metricDataPointSize m)]).

(** A row that says the value [z] of [name] for an entry. *)
Definition says (hour : Z) (m : meterMetric) (nz : string * Z) (s : sample) : Prop :=
  p_metricName s = nz.1 ∧ p_value s = float64_of_int nz.2 ∧ p_temporality s = TemporalityDelta ∧ p_isMonotonic s = true
  ∧ p_typ s = MetricTypeSum ∧ p_unixMilli s = hour
  ∧ ∃ labels : gmap string string, p_labels s = marshalLabels labels ∧ labels !! "__name__" = Some nz.1
      ∧ ∀ k v, attrs m !! k = Some v →
          k ∉ ["__name__"; "__temporality__"; "connector_id"; "__scope.name__"; "__scope.version__"; "__scope.schema_url__"] →
          labels !! k = Some (AsString v).

Lemma float64_number z : IsNaN (float64_of_int z) = false.
Proof. apply float64_of_int_number. Qed.

(** The scope of the connector. *)
Definition connector_scope (id : string) (ms : list Metric) : ScopeMetrics :=
  {| sm_Attributes := {[ "connector_id" := NewValueStr id ]}; sm_Name := "signozmeterconnector"; sm_Version := "";
     sm_SchemaUrl := ""; sm_Metrics := ms |}.
Definition connector_resource : Fingerprint := NewFingerprint ResourceFingerprintType InitialOffset ∅ ∅.
Definition connector_fingerprint (id : string) : Fingerprint :=
  NewFingerprint ScopeFingerprintType (hash connector_resource) {[ "connector_id" := NewValueStr id ]}
    {[ "__scope.name__" := "signozmeterconnector"; "__scope.version__" := ""; "__scope.schema_url__" := "" ]}.

Definition hour_of (timestamp : Z) : Z := Z.quot (UnixMilli timestamp) 3600000 * 3600000.
Lemma metric_row_says id ts name desc z m :
  Forall2 (says (hour_of ts) m) [(name, z)]
    (meter_row <$> metric_rows connector_resource (connector_fingerprint id) (meter_metric ts name desc z (attrs m))).
Proof.
  unfold metric_rows, meter_metric. cbn [m_Data]. rewrite bind_cons. unfold sum_rows. cbn [n_Value number_value].
  rewrite float64_number. simpl. constructor; [|constructor]. unfold says. cbn [p_metricName p_value fst snd].
  split_and!; try done. eexists. split; [reflexivity|].
  assert ((if decide (attrs m = ∅) then ∅ else attrs m) = attrs m) as -> by (by destruct (decide _)).
  split; [by rewrite lookup_insert_eq|]. intros k v Hk Hin.
  rewrite !not_elem_of_cons in Hin. destruct Hin as (H1 & H2 & H3 & H4 & H5 & H6 & _).
  rewrite lookup_insert_ne by done. unfold AttributesAsMap. cbn [foldl attributes]. rewrite (right_id_L ∅ (∪)).
  unfold NewFingerprint, NewAttributesFromPcommonMap, temporality_extra. cbn [attributes].
  assert (attributes connector_resource !! k = None) as Hr.
  { unfold connector_resource, NewFingerprint, NewAttributesFromPcommonMap. simpl. by rewrite !fmap_empty, (left_id_L ∅ (∪)). }
  assert (attributes (connector_fingerprint id) !! k = None) as Hs.
  { unfold connector_fingerprint, NewFingerprint, NewAttributesFromPcommonMap. simpl.
    rewrite lookup_union, !lookup_fmap, !lookup_insert_ne, !lookup_singleton_ne by done. done. }
  rewrite !lookup_union, !lookup_fmap, Hr, Hs. cbn [n_Attributes].
  rewrite lookup_union, !lookup_fmap, lookup_singleton_ne, Hk by done. done.
Qed.

Lemma entry_rows_says id ts m :
  Forall2 (says (hour_of ts) m) (entry_values m)
    (meter_row <$> ((collectLogMeterMetrics ts m ++ collectTraceMeterMetrics ts m ++ collectMetricMeterMetrics ts m)
                    ≫= metric_rows connector_resource (connector_fingerprint id))).
Proof.
  assert (∀ (b : bool) n1 d1 z1 n2 d2 z2, Forall2 (says (hour_of ts) m) (if b then [] else [(n1, z1); (n2, z2)])
    (meter_row <$> ((if b then [] else [meter_metric ts n1 d1 z1 (attrs m); meter_metric ts n2 d2 z2 (attrs m)])
                    ≫= metric_rows connector_resource (connector_fingerprint id)))) as H.
  { intros [] n1 d1 z1 n2 d2 z2; [constructor|]. rewrite !bind_cons, !fmap_app.
    change [(n1, z1); (n2, z2)] with ([(n1, z1)] ++ [(n2, z2)] ++ []).
    apply Forall2_app; [apply metric_row_says|]. apply Forall2_app; [apply metric_row_says|constructor]. }
  unfold entry_values. rewrite !bind_app, !fmap_app. repeat apply Forall2_app; apply H.
Qed.

(** C23. The rows of an export of the connector: for every entry, a row for each quantity of each
    signal that has items, with the value of the quantity, at the hour of the export. *)
Theorem metered_rows_written st id ts entries :
  accepts st → send_err st = None →
  ∃ rows, ConsumeMetrics st false (buildMetrics id ts entries) = (None, rows)
    ∧ Forall2 (λ mnz s, says (hour_of ts) mnz.1 mnz.2 s) (entries ≫= λ m, pair m <$> entry_values m) rows.
Proof.
  intros Ha Hs. unfold ConsumeMetrics, writeBatch. rewrite (write_rows_accepts st _ Ha Hs). eexists. split; [reflexivity|].
  rewrite prepareBatch_rows. induction entries as [|m entries IH]; [constructor|].
  unfold buildMetrics in *. rewrite fmap_cons, !bind_cons, fmap_app. apply Forall2_app; [|exact IH].
  apply Forall2_fmap_l. unfold resource_rows. cbn [rm_ScopeMetrics]. rewrite bind_cons, app_nil_r.
  apply (entry_rows_says id ts m).
Qed.
End exporter.

(** ** Witness *)

Section witnesses.
Import TestPdata.
#[local] Instance w_types : PdataTypes test_pdata :=
  {| TypeOf v := match v with VStr _ => 1 | VInt _ => 2 end; ValueTypeStr := 1 |}.
#[local] Instance w_pmetric : PmetricText := {| Temporality_String _ := "Delta"; MetricType_String _ := "Sum" |}.
Definition w_ok : statement := {| prepare_err := None; append_err _ := None; send_err := None |}.
Definition w_entry : meterMetric :=
  {| spanCount := 3; spanSize := 300; metricDataPointCount := 0; metricDataPointSize := 0; logCount := 2; logSize := 90;
     attrs := {[ "service.name" := VStr "api" ]} |}.
(** Two signals with items: four rows. *)
Lemma metered_rows_written_witness :
  ∃ rows, ConsumeMetrics w_ok false (buildMetrics "id" (7300 * 10 ^ 9) [w_entry]) = (None, rows) ∧ length rows = 4%nat.
Proof.
  destruct (metered_rows_written w_ok "id" (7300 * 10 ^ 9) [w_entry]) as (rows & H & Hr).
  - by split.
  - reflexivity.
  - exists rows. split; [exact H|]. by rewrite <- (Forall2_length _ _ _ Hr).
Defined.
End witnesses.
