(* ===== verification/SystemTables.v ===== *)
(** * The receiver of ClickHouse system tables

    src/receiver/clickhousesystemtablesreceiver: receiver.go, query_log.go and config.go. The
    receiver asks for the rows of system.query_log window by window, each window only after a
    delay that lets the server flush it, and pushes them as logs. Timestamps are uint32 and
    wrap. ClickHouse, the next consumer, JSON and the conversions of [pcommon] are interfaces
    or arguments. *)
From S2P Require Import Prelude GoText Pdata Sampling Flatten.

(** ** Configuration (config.go, factory.go) *)

Definition defaultScrapeIntervalSeconds : Z := 10.
Record tables_config := { DSN : string; ClusterName : string; ScrapeIntervalSeconds : Z; MinScrapeDelaySeconds : Z }.
Definition validate_tables (cfg : tables_config) : list string :=
  (if decide (DSN cfg = "") then ["dsn must be specified"] else [])
  ++ (if MinScrapeDelaySeconds cfg =? 0
      then ["query_log_scrape_config.scrape_delay_seconds must be set to a value greater than flush_interval_milliseconds setting for clickhouse query_log table"]
      else []).

(** ** Rows and logs (query_log.go) *)

(** The values of the fields of a row. *)
Inductive raw :=
| RStr (s : string) | RTime (t : Z) | RSlice (l : list raw) | RMap (m : list (string * raw)) | ROther (v : any).

(** [Value.FromRaw] of a field that is no slice, map or time; [time.Format]; [json.Unmarshal]
    into a map, where [json.Valid] and it succeed. *)
Class TablesText := {
  FromRaw : raw → any;
  Format_RFC3339 : Z → string;
  Unmarshal_map : string → option (list (string * raw));
}.

(** A row: the fields the code names, and every tagged field in the order of the struct with
    its tag; times are in microseconds. *)
Record QueryLog := {
  Hostname : string; EventType : string; EventTimeMicroseconds : Z; Query : string;
  tagged : list (string * raw) }.

Record table_record := {
  tr_Timestamp : Z; tr_Body : string; tr_SeverityNumber : Z; tr_SeverityText : string;
  tr_Attributes : gmap string any }.

Definition SeverityNumberInfo : Z := 9.
Definition SeverityNumberError : Z := 17.
Definition query_log_prefix : string := "clickhouse.query_log.".

Section rows.
Context `{TT : TablesText} `{FA : FormatAny}.

Fixpoint pcommonValue (v : raw) : any :=
  match v with
  | RSlice l => ASlice (pcommonValue <$> l)
  | RMap m => AMap ((λ kv, (kv.1, pcommonValue kv.2)) <$> m)
  | RTime t => AStr (Format_RFC3339 t)
  | _ => FromRaw v
  end.

(** The log comment of a query may be a JSON object. *)
Definition field_value (tag : string) (v : raw) : raw :=
  match v with
  | RStr s => if decide (tag = "log_comment") then match Unmarshal_map s with Some m => RMap m | None => v end else v
  | _ => v
  end.
(** The attributes of a field: one, or one for each entry of a map. *)
Definition field_attributes (tag : string) (v : raw) : list (string * any) :=
  let attrName := query_log_prefix +:+ tag in
  match pcommonValue (field_value tag v) with
  | ASlice items => [(attrName, AStr (join "," (Sprint <$> items)))]
  | AMap entries => (λ kv, (attrName +:+ "." +:+ kv.1, kv.2)) <$> entries
  | pval => [(attrName, pval)]
  end.
Definition put_all (l : list (string * any)) (m : gmap string any) : gmap string any :=
  foldl (λ m kv, <[kv.1 := kv.2]> m) m l.
Definition toLogRecord (ql : QueryLog) : table_record :=
  let exception := has_prefix (EventType ql) "Exception" in
  {| tr_Timestamp := EventTimeMicroseconds ql * 1000; tr_Body := Query ql;
     tr_SeverityNumber := if exception then SeverityNumberError else SeverityNumberInfo;
     tr_SeverityText := if exception then "ERROR" else "INFO";
     tr_Attributes := <["source" := AStr "clickhouse"]>
       (foldl (λ m '(tag, v), if decide (tag = "") then m else put_all (field_attributes tag v) m) ∅ (tagged ql)) |}.

(** ** Logs by host (receiver.go) *)

(** A resource with its host name and its records; the map of the code points to them. *)
Definition host_logs : Type := list (string * list table_record).
Fixpoint add_to_host (host : string) (lr : table_record) (pl : host_logs) : host_logs :=
  match pl with
  | [] => [(host, [lr])]
  | (h, lrs) :: rest => if decide (h = host) then (h, lrs ++ [lr]) :: rest else (h, lrs) :: add_to_host host lr rest
  end.
Definition queryLogsToPlogs (queryLogs : list QueryLog) : host_logs :=
  foldl (λ pl ql, add_to_host (Hostname ql) (toLogRecord ql) pl) [] queryLogs.

(** ** Scraping *)

Definition u32 (z : Z) : Z := z mod 2 ^ 32.

(** [clickhouse] is whether there is a client. *)
Record systemTablesReceiver := {
  scrapeIntervalSeconds : Z; scrapeDelaySeconds : Z; clickhouse : bool; nextScrapeIntervalStartTs : Z }.
Definition createLogsReceiver (cfg : tables_config) : systemTablesReceiver :=
  {| scrapeIntervalSeconds := if ScrapeIntervalSeconds cfg =? 0 then defaultScrapeIntervalSeconds else ScrapeIntervalSeconds cfg;
     scrapeDelaySeconds := MinScrapeDelaySeconds cfg; clickhouse := false; nextScrapeIntervalStartTs := 0 |}.

(** What an attempt meets: the client, the clock of the server, the rows of a window, and the
    next consumer. *)
Record tables_env := {
  te_client : option string; te_now : result string Z; te_rows : Z → Z → result string (list QueryLog);
  te_consume : host_logs → option string }.

(** The logs that the next consumer accepted, or the error. *)
Definition scrapeAndPushQueryLogs (env : tables_env) (minEventTs maxEventTs : Z) : result string (list QueryLog) :=
  match te_rows env minEventTs maxEventTs with
  | Err e => Err ("couldn't scrape clickhouse query_log table: " +:+ e)
  | Ok queryLogs =>
      match te_consume env (queryLogsToPlogs queryLogs) with
      | Some e => Err ("couldn't push logs to next consumer: " +:+ e)
      | None => Ok queryLogs
      end
  end.

(** The seconds to wait, the error, the rows that were pushed, and the receiver after. *)
Definition attempt : Type := Z * option string * list QueryLog * systemTablesReceiver.
Definition set_client (r : systemTablesReceiver) : systemTablesReceiver :=
  {| scrapeIntervalSeconds := scrapeIntervalSeconds r; scrapeDelaySeconds := scrapeDelaySeconds r; clickhouse := true;
     nextScrapeIntervalStartTs := nextScrapeIntervalStartTs r |}.
Definition set_start (ts : Z) (r : systemTablesReceiver) : systemTablesReceiver :=
  {| scrapeIntervalSeconds := scrapeIntervalSeconds r; scrapeDelaySeconds := scrapeDelaySeconds r; clickhouse := clickhouse r;
     nextScrapeIntervalStartTs := ts |}.
Definition scrape_window (env : tables_env) (serverTsNow : Z) (r : systemTablesReceiver) : attempt :=
  let r := if nextScrapeIntervalStartTs r =? 0 then set_start serverTsNow r else r in
  let scrapeIntervalEndTs := u32 (nextScrapeIntervalStartTs r + scrapeIntervalSeconds r) in
  let minServerTsForNextScrapeAttempt := u32 (scrapeIntervalEndTs + scrapeDelaySeconds r) in
  if serverTsNow <? minServerTsForNextScrapeAttempt
  then (u32 (minServerTsForNextScrapeAttempt - serverTsNow), None, [], r)
  else
    match scrapeAndPushQueryLogs env (nextScrapeIntervalStartTs r) scrapeIntervalEndTs with
    | Err e => (scrapeIntervalSeconds r, Some ("couldn't scrape and push query logs: " +:+ e), [], r)
    | Ok queryLogs =>
        let r := set_start scrapeIntervalEndTs r in
        let nextScrapeMinServerTs := u32 (nextScrapeIntervalStartTs r + scrapeIntervalSeconds r + scrapeDelaySeconds r) in
        (if serverTsNow <? nextScrapeMinServerTs then u32 (nextScrapeMinServerTs - serverTsNow) else 0, None, queryLogs, r)
    end.
Definition scrapeQueryLogIfReady (env : tables_env) (r : systemTablesReceiver) : attempt :=
  match (if clickhouse r then None else te_client env) with
  | Some e => (scrapeIntervalSeconds r, Some ("couldn't create clickhouse client: " +:+ e), [], r)
  | None =>
      let r := set_client r in
      match te_now env with
      | Err e => (scrapeIntervalSeconds r, Some ("couldn't determine server timestamp: " +:+ e), [], r)
      | Ok serverTsNow => scrape_window env serverTsNow r
      end
  end.

(** ** The loop *)

(** [r_wait] is the duration, in milliseconds, after which the ticker fires; [r_running] ends
    with the request to shut down. *)
Record tables_run := { r_receiver : systemTablesReceiver; r_wait : Z; r_running : bool; r_pushed : list QueryLog }.
Definition tables_Start (r : systemTablesReceiver) : tables_run :=
  {| r_receiver := r; r_wait := 1000 * u32 (scrapeIntervalSeconds r + scrapeDelaySeconds r); r_running := true; r_pushed := [] |}.
Definition tables_Shutdown (s : tables_run) : tables_run :=
  {| r_receiver := r_receiver s; r_wait := r_wait s; r_running := false; r_pushed := r_pushed s |}.
Definition tables_tick (s : tables_run) (env : tables_env) : tables_run :=
  if r_running s then
    let '(secondsToWaitBeforeNextAttempt, _, pushed, r) := scrapeQueryLogIfReady env (r_receiver s) in
    {| r_receiver := r; r_wait := Z.max (1000 * secondsToWaitBeforeNextAttempt) 1; r_running := true;
       r_pushed := r_pushed s ++ pushed |}
  else s.

(** ** Hosts *)

Lemma add_to_host_keys host lr pl :
  (add_to_host host lr pl).*1 = if decide (host ∈ pl.*1) then pl.*1 else pl.*1 ++ [host].
Proof.
  induction pl as [|[h lrs] pl IH]; [done|]. rewrite fmap_cons. simpl.
  destruct (decide (h = host)) as [->|Hne].
  { destruct (decide (host ∈ host :: pl.*1)) as [|H]; [done|]. by destruct H; apply list_elem_of_here. }
  rewrite fmap_cons, IH. simpl. destruct (decide (host ∈ pl.*1)), (decide (host ∈ h :: pl.*1)) as [H|H]; try done.
  - by destruct H; apply list_elem_of_further.
  - apply elem_of_cons in H as [?|?]; [by destruct Hne|done].
Qed.
Lemma add_to_host_records host lr pl h lrs :
  NoDup pl.*1 → (h, lrs) ∈ add_to_host host lr pl →
  (h ≠ host ∧ (h, lrs) ∈ pl) ∨ (h = host ∧ ((∃ l, (h, l) ∈ pl ∧ lrs = l ++ [lr]) ∨ h ∉ pl.*1 ∧ lrs = [lr])).
Proof.
  induction pl as [|[h0 l0] pl IH]; simpl; [intros _ [= -> ->]%list_elem_of_singleton; right; split; [done|right; set_solver]|].
  intros [Hh Hnd]%NoDup_cons. destruct (decide (h0 = host)) as [->|Hne].
  - intros [[= -> ->]|Hin]%elem_of_cons; [right; split; [done|left; exists l0; split; [apply list_elem_of_here|done]]|].
    left. split; [|by apply list_elem_of_further]. intros ->. apply Hh, list_elem_of_fmap. by exists (host, lrs).
  - intros [[= -> ->]|Hin]%elem_of_cons; [left; split; [done|apply list_elem_of_here]|].
    destruct (IH Hnd Hin) as [[? ?]|[-> [(l & Hl & ->)|[Hn ->]]]].
    + left. split; [done|by apply list_elem_of_further].
    + right. split; [done|left]. exists l. split; [by apply list_elem_of_further|done].
    + right. split; [done|right]. split; [|done]. intros [?|?]%elem_of_cons; naive_solver.
Qed.

(** Every host is there once, in the order of its first row, with its records in the order of
    the rows. *)
Lemma queryLogsToPlogs_invariant qls :
  (queryLogsToPlogs qls).*1 = foldl (λ hs h, if decide (h ∈ hs) then hs else hs ++ [h]) [] (Hostname <$> qls)
  ∧ NoDup (queryLogsToPlogs qls).*1
  ∧ ∀ h lrs, (h, lrs) ∈ queryLogsToPlogs qls → lrs = toLogRecord <$> filter (λ ql, Hostname ql = h) qls.
Proof.
  unfold queryLogsToPlogs. induction qls as [|ql qls (IH1 & IH2 & IH3)] using rev_ind;
    [split_and!; [done|constructor|by intros h lrs Hin%elem_of_nil]|].
  rewrite fmap_app, !foldl_app. simpl. rewrite add_to_host_keys, IH1 in *. split_and!.
  - done.
  - destruct (decide _); [done|]. apply NoDup_app. split_and!; [done|set_solver|apply NoDup_singleton].
  - intros h lrs Hin. rewrite filter_app, fmap_app. apply add_to_host_records in Hin; [|by rewrite IH1].
    destruct Hin as [[Hne Hin]|[-> [(l & Hin & ->)|[Hn ->]]]].
    + rewrite filter_cons_False, filter_nil, app_nil_r by naive_solver. by apply IH3.
    + rewrite filter_cons_True by done. by rewrite (IH3 _ _ Hin).
    + rewrite filter_cons_True by done. destruct (filter _ qls) as [|q l] eqn:E; [done|]. exfalso.
      assert (q ∈ filter (λ q, Hostname q = Hostname ql) qls) as [Hq1 Hq2]%list_elem_of_filter by (rewrite E; apply list_elem_of_here).
      apply Hn. rewrite IH1, <- Hq1. clear -Hq2. induction qls as [|x qls IH] using rev_ind; [by apply elem_of_nil in Hq2|].
      rewrite fmap_app, foldl_app. simpl. apply elem_of_app in Hq2 as [Hq|Hq%list_elem_of_singleton].
      * destruct (decide _); [auto|]. apply elem_of_app. auto.
      * subst x. destruct (decide _); [done|]. apply elem_of_app. right. apply list_elem_of_here.
Qed.

(** ** Windows *)

(** The table: its rows with the time of the event and the time they are flushed, both in
    seconds. The rows of a window at a time are those that are flushed by then. *)
Section table.
Context (table : list (QueryLog * Z * Z)).
Definition table_row (x : QueryLog * Z * Z) : QueryLog := x.1.1.
Definition event_time (x : QueryLog * Z * Z) : Z := x.1.2.
Definition flush_time (x : QueryLog * Z * Z) : Z := x.2.
Definition rows_between (a b : Z) : list QueryLog := table_row <$> filter (λ x, a ≤ event_time x < b) table.

(** The clock is past zero, and the times of the next two windows are in range. *)
Definition reads_table (interval delay : Z) (env : tables_env) : Prop :=
  ∀ now, te_now env = Ok now →
    0 < now ∧ now + interval + interval + delay < 2 ^ 32
    ∧ ∀ a b rows, te_rows env a b = Ok rows →
        rows ≡ₚ (table_row <$> filter (λ x, a ≤ event_time x < b ∧ flush_time x ≤ now) table).

Lemma rows_between_split a b c : a ≤ b → b ≤ c → rows_between a c ≡ₚ rows_between a b ++ rows_between b c.
Proof.
  intros Hab Hbc. unfold rows_between. rewrite <- fmap_app. apply fmap_Permutation.
  induction table as [|x l IH]; [done|]. rewrite !filter_cons.
  destruct (decide (a ≤ event_time x < c)), (decide (a ≤ event_time x < b)), (decide (b ≤ event_time x < c));
    try lia; rewrite IH; [done|by rewrite Permutation_middle|done].
Qed.

Lemma rows_between_empty a b : b ≤ a → rows_between a b = [].
Proof.
  intros H. unfold rows_between. induction table as [|x l IH]; [done|]. by rewrite filter_cons_False by lia.
Qed.
Lemma u32_small z : 0 ≤ z < 2 ^ 32 → u32 z = z.
Proof. intros. by apply Z.mod_small. Qed.

(** The windows that were pushed since the first time of the server that was seen. *)
Definition windows_pushed (interval delay : Z) (seen : list Z) (r : systemTablesReceiver) (pushed : list QueryLog) : Prop :=
  scrapeIntervalSeconds r = interval ∧ scrapeDelaySeconds r = delay ∧
  if decide (nextScrapeIntervalStartTs r = 0) then pushed = []
  else ∃ t0, t0 ∈ seen ∧ 0 < t0 ≤ nextScrapeIntervalStartTs r
         ∧ (∃ now, now ∈ seen ∧ nextScrapeIntervalStartTs r ≤ now)
         ∧ pushed ≡ₚ rows_between t0 (nextScrapeIntervalStartTs r).

Context (interval delay : Z) (Hi : 0 < interval) (Hd : 0 ≤ delay).
(** Every row is flushed before the delay is over. *)
Hypothesis Hflush : ∀ x, x ∈ table → flush_time x ≤ event_time x + delay.

Lemma scrape_window_pushed env now seen r pushed wait err new r' :
  reads_table interval delay env → te_now env = Ok now →
  (∀ t, t ∈ seen → t + interval + interval + delay < 2 ^ 32) →
  windows_pushed interval delay seen r pushed → scrape_window env now r = (wait, err, new, r') →
  windows_pushed interval delay (seen ++ [now]) r' (pushed ++ new).
Proof.
  intros Henv Hnow Hseen (Ei & Ed & Hw) H. destruct (Henv now Hnow) as (Hn & Hb & Hrows).
  unfold scrape_window in H. set (r1 := if nextScrapeIntervalStartTs r =? 0 then set_start now r else r) in *.
  assert (windows_pushed interval delay (seen ++ [now]) r1 pushed ∧ nextScrapeIntervalStartTs r1 ≠ 0) as [(Ei1 & Ed1 & Hw1) Hne].
  { subst r1. unfold windows_pushed. destruct (Z.eqb_spec (nextScrapeIntervalStartTs r) 0) as [E|E]; simpl.
    - rewrite decide_True in Hw by done. subst pushed. split; [|lia]. split_and!; [done..|]. rewrite decide_False by lia.
      exists now. split_and!; [set_solver|lia|lia|exists now; split; [set_solver|lia]|].
      by rewrite rows_between_empty.
    - rewrite decide_False in Hw by done. destruct Hw as (t0 & Ht0 & Hr & (m & Hm & Hle) & Hp). split; [|done].
      split_and!; [done..|]. rewrite decide_False by done. exists t0.
      split_and!; [set_solver|lia|lia|exists m; split; [set_solver|lia]|done]. }
  clearbody r1. rewrite decide_False in Hw1 by done. destruct Hw1 as (t0 & Ht0 & Hr & (m & Hm & Hle) & Hp).
  assert (m + interval + interval + delay < 2 ^ 32) as Hmb.
  { apply elem_of_app in Hm as [Hm|Hm]; [by apply Hseen|]. apply list_elem_of_singleton in Hm as ->. done. }
  rewrite Ei1, Ed1 in H. rewrite !(u32_small (nextScrapeIntervalStartTs r1 + interval)) in H by lia.
  rewrite (u32_small (nextScrapeIntervalStartTs r1 + interval + delay)) in H by lia.
  destruct (Z.ltb_spec now (nextScrapeIntervalStartTs r1 + interval + delay)) as [Hlt|Hge].
  { injection H as <- <- <- <-. rewrite app_nil_r. split_and!; [done..|]. rewrite decide_False by done. eauto 10. }
  unfold scrapeAndPushQueryLogs in H.
  destruct (te_rows env _ _) as [rows|] eqn:Er; [destruct (te_consume env _)|]; injection H as <- <- <- <-;
    [rewrite app_nil_r; split_and!; [done..|]; rewrite decide_False by done; by eauto 10| |
     rewrite app_nil_r; split_and!; [done..|]; rewrite decide_False by done; by eauto 10].
  split_and!; [done..|]. simpl. rewrite decide_False by lia. exists t0.
  split_and!; [done|lia|lia|exists now; split; [set_solver|lia]|].
  rewrite (rows_between_split t0 (nextScrapeIntervalStartTs r1)) by lia. rewrite Hp. f_equiv.
  rewrite (Hrows _ _ _ Er). unfold rows_between. apply fmap_Permutation.
  assert (∀ x, x ∈ table → nextScrapeIntervalStartTs r1 ≤ event_time x < nextScrapeIntervalStartTs r1 + interval → flush_time x ≤ now) as Hf.
  { intros x Hx Ht. pose proof (Hflush x Hx). lia. }
  clear -Hf. induction table as [|x l IH]; [done|]. rewrite !filter_cons.
  specialize (IH ltac:(set_solver)). pose proof (Hf x ltac:(set_solver)) as Hx.
  destruct (decide (_ ∧ _)), (decide (nextScrapeIntervalStartTs r1 ≤ event_time x < _)); try (by rewrite IH); exfalso; naive_solver lia.
Qed.

Lemma windows_pushed_more seen now r pushed :
  windows_pushed interval delay seen r pushed → windows_pushed interval delay (seen ++ [now]) r pushed.
Proof.
  unfold windows_pushed. intros (? & ? & Hw). split_and!; [done..|]. destruct (decide _); [done|].
  destruct Hw as (t0 & ? & ? & (m & ? & ?) & ?). exists t0. split_and!; [set_solver|lia|lia|exists m; split; [set_solver|lia]|done].
Qed.

Definition now_of (env : tables_env) : list Z := match te_now env with Ok t => [t] | Err _ => [] end.
Lemma attempt_pushed env seen r pushed wait err new r' :
  reads_table interval delay env → (∀ t, t ∈ seen → t + interval + interval + delay < 2 ^ 32) →
  windows_pushed interval delay seen r pushed → scrapeQueryLogIfReady env r = (wait, err, new, r') →
  windows_pushed interval delay (seen ++ now_of env) r' (pushed ++ new).
Proof.
  intros Henv Hseen Hw H. unfold scrapeQueryLogIfReady, now_of in *.
  destruct (if clickhouse r then None else te_client env).
  { injection H as <- <- <- <-. rewrite app_nil_r. destruct (te_now env); [by apply windows_pushed_more|by rewrite app_nil_r]. }
  destruct (te_now env) as [now|] eqn:En.
  - exact (scrape_window_pushed env now seen (set_client r) pushed wait err new r' Henv En Hseen Hw H).
  - injection H as <- <- <- <-. by rewrite !app_nil_r.
Qed.

(** C24. Whatever fails and is tried again, the rows that were pushed are those of the time from
    the first clock that was seen to the start of the next window, each exactly once. *)
Theorem rows_pushed_once envs cfg s :
  scrapeIntervalSeconds (createLogsReceiver cfg) = interval → MinScrapeDelaySeconds cfg = delay →
  Forall (reads_table interval delay) envs → foldl tables_tick (tables_Start (createLogsReceiver cfg)) envs = s →
  let next := nextScrapeIntervalStartTs (r_receiver s) in
  (next = 0 ∧ r_pushed s = [])
  ∨ ∃ t0 env, env ∈ envs ∧ te_now env = Ok t0 ∧ t0 ≤ next ∧ r_pushed s ≡ₚ rows_between t0 next.
Proof.
  intros Ei Ed Henvs Hs next.
  assert (windows_pushed interval delay (envs ≫= now_of) (r_receiver s) (r_pushed s) ∧ r_running s = true) as [(_ & _ & Hw) _].
  { subst s. clear next. induction envs as [|env envs IH] using rev_ind; [done|]. apply Forall_app in Henvs as [Henvs Henv].
    rewrite Forall_singleton in Henv. destruct (IH Henvs) as [Hw Hr]. rewrite foldl_app, bind_app. simpl.
    set (s := foldl tables_tick _ envs) in *. unfold tables_tick. rewrite Hr.
    destruct (scrapeQueryLogIfReady env (r_receiver s)) as [[[wait err] new] r'] eqn:E. split; [|done].
    simpl. rewrite app_nil_r. eapply attempt_pushed; [done| |exact Hw|exact E].
    intros t (e & Ht & He)%list_elem_of_bind. rewrite Forall_forall in Henvs. unfold now_of in Ht.
    destruct (te_now e) as [t'|] eqn:Et; [|by apply elem_of_nil in Ht]. apply list_elem_of_singleton in Ht as ->.
    by destruct (Henvs e He t' Et) as (_ & ? & _). }
  subst next. destruct (decide (nextScrapeIntervalStartTs (r_receiver s) = 0)); [by left|right].
  destruct Hw as (t0 & (e & Ht & He)%list_elem_of_bind & Hr & _ & Hp). unfold now_of in Ht.
  destruct (te_now e) as [t'|] eqn:Et; [|by apply elem_of_nil in Ht]. apply list_elem_of_singleton in Ht as ->.
  exists t', e. split_and!; [done..|lia|done].
Qed.
End table.

(** ** Catching up *)

(** An attempt at time [now] in which nothing fails. *)
Definition attempt_works (now : Z) (env : tables_env) : Prop :=
  te_client env = None ∧ te_now env = Ok now ∧ (∀ a b, is_ok (te_rows env a b)) ∧ ∀ pl, te_consume env pl = None.
Definition room (now : Z) (r : systemTablesReceiver) : Prop :=
  0 < scrapeIntervalSeconds r ∧ 0 ≤ scrapeDelaySeconds r ∧ 0 < nextScrapeIntervalStartTs r
  ∧ nextScrapeIntervalStartTs r + scrapeIntervalSeconds r + scrapeIntervalSeconds r + scrapeDelaySeconds r < 2 ^ 32
  ∧ now + scrapeIntervalSeconds r + scrapeIntervalSeconds r + scrapeDelaySeconds r < 2 ^ 32 ∧ 0 ≤ now.
(** The time at which the next window can be scraped. *)
Definition ready_at (r : systemTablesReceiver) : Z :=
  nextScrapeIntervalStartTs r + scrapeIntervalSeconds r + scrapeDelaySeconds r.

Lemma attempt_progress now env r :
  attempt_works now env → room now r →
  let '(wait, err, _, r') := scrapeQueryLogIfReady env r in
  err = None ∧ room now r' ∧ scrapeIntervalSeconds r' = scrapeIntervalSeconds r ∧ wait = Z.max 0 (ready_at r' - now)
  ∧ ready_at r' = if ready_at r <=? now then ready_at r + scrapeIntervalSeconds r else ready_at r.
Proof.
  intros (Hc & Hn & Hr & Hp) (Hi & Hd & Hs & Hb & Hb' & Hn0). unfold scrapeQueryLogIfReady.
  assert ((if clickhouse r then None else te_client env) = None) as -> by by destruct (clickhouse r). rewrite Hn.
  unfold scrape_window. simpl. rewrite (proj2 (Z.eqb_neq _ 0)) by lia. simpl.
  rewrite !(u32_small (nextScrapeIntervalStartTs r + scrapeIntervalSeconds r)) by lia.
  rewrite (u32_small (nextScrapeIntervalStartTs r + scrapeIntervalSeconds r + scrapeDelaySeconds r)) by lia.
  fold (ready_at r). unfold scrapeAndPushQueryLogs. pose proof (Hr (nextScrapeIntervalStartTs r) (nextScrapeIntervalStartTs r + scrapeIntervalSeconds r)) as Hok.
  destruct (te_rows env _ _) as [rows|]; [|done]. rewrite Hp.
  destruct (Z.ltb_spec now (ready_at r)) as [Hlt|Hge]; unfold ready_at, room in *; simpl.
  - rewrite (proj2 (Z.leb_gt _ _)) by lia. rewrite u32_small by lia. split_and!; try done; lia.
  - rewrite (proj2 (Z.leb_le _ _)) by lia.
    rewrite (u32_small (nextScrapeIntervalStartTs r + scrapeIntervalSeconds r + scrapeIntervalSeconds r + scrapeDelaySeconds r)) by lia.
    split_and!; try done; try lia. destruct (Z.ltb_spec now (nextScrapeIntervalStartTs r + scrapeIntervalSeconds r + scrapeIntervalSeconds r + scrapeDelaySeconds r));
      [rewrite u32_small by lia|]; lia.
Qed.

(** C25. A receiver that is behind scrapes window after window without waiting; after as many
    attempts as there are windows it waits until the next window is ready. *)
Theorem receiver_catches_up now envs s :
  r_running s = true → room now (r_receiver s) → Forall (attempt_works now) envs → envs ≠ [] →
  (now - ready_at (r_receiver s)) / scrapeIntervalSeconds (r_receiver s) + 1 < Z.of_nat (length envs) →
  let s' := foldl tables_tick s envs in
  now < ready_at (r_receiver s') ∧ r_wait s' = 1000 * (ready_at (r_receiver s') - now).
Proof.
  intros Hrun Hroom Henvs Hne. revert s Hrun Hroom. induction Henvs as [|env envs Hw _ IH]; intros s Hrun Hroom Hlen; [done|].
  cbn [foldl]. unfold tables_tick at 2 4 6. rewrite Hrun. pose proof (attempt_progress now env (r_receiver s) Hw Hroom) as Ha.
  destruct (scrapeQueryLogIfReady env (r_receiver s)) as [[[wait err] new] r'] eqn:E.
  destruct Ha as (_ & Hroom' & Ei & Ew & Er). pose proof Hroom as (Hi & _). simpl in Hlen.
  assert ((envs ≠ [] → (now - ready_at r') / scrapeIntervalSeconds r' + 1 < Z.of_nat (length envs))
          ∧ (envs = [] → now < ready_at r')) as [Hlen' Hlast].
  { rewrite Ei, Er. destruct (Z.leb_spec (ready_at (r_receiver s)) now).
    - replace (now - (ready_at (r_receiver s) + scrapeIntervalSeconds (r_receiver s)))
        with (now - ready_at (r_receiver s) + (-1) * scrapeIntervalSeconds (r_receiver s)) by lia.
      rewrite Z.div_add by lia. split; [lia|]. intros ->.
      pose proof (Z.div_pos (now - ready_at (r_receiver s)) (scrapeIntervalSeconds (r_receiver s))). simpl in Hlen. lia.
    - pose proof (Z.div_lt_upper_bound (now - ready_at (r_receiver s)) (scrapeIntervalSeconds (r_receiver s)) 0).
      split; [|lia]. intros Hn. destruct envs; [done|]. simpl. lia. }
  destruct envs as [|e envs].
  - simpl. specialize (Hlast eq_refl). split; [done|]. rewrite Ew. lia.
  - apply IH; [done|done|done|]. by apply Hlen'.
Qed.

(** ** Attributes *)

Definition row_attributes (ql : QueryLog) : list (string * any) :=
  tagged ql ≫= λ tv, if decide (tv.1 = "") then [] else field_attributes tv.1 tv.2.

Lemma put_all_app l k m : put_all (l ++ k) m = put_all k (put_all l m).
Proof. unfold put_all. by rewrite foldl_app. Qed.
Lemma put_all_ne l m k : k ∉ l.*1 → put_all l m !! k = m !! k.
Proof.
  revert m. induction l as [|[k' v] l IH]; intros m Hk; [done|]. simpl in *. apply not_elem_of_cons in Hk as [? ?].
  rewrite IH by done. by rewrite lookup_insert_ne.
Qed.
Lemma put_all_in l m k v : NoDup l.*1 → (k, v) ∈ l → put_all l m !! k = Some v.
Proof.
  revert m. induction l as [|[k' v'] l IH]; intros m; [by intros _ ?%elem_of_nil|]. simpl. intros [Hk Hnd]%NoDup_cons Hin.
  apply elem_of_cons in Hin as [[= -> ->]|Hin]; [|by apply IH]. rewrite put_all_ne by done. apply lookup_insert_eq.
Qed.
Lemma toLogRecord_put_all ql : tr_Attributes (toLogRecord ql) = <["source" := AStr "clickhouse"]> (put_all (row_attributes ql) ∅).
Proof.
  unfold toLogRecord, row_attributes. cbn [tr_Attributes]. f_equal. generalize (∅ : gmap string any).
  induction (tagged ql) as [|[tag v] l IH]; intros m; [done|]. rewrite bind_cons, put_all_app, <- IH. simpl.
  by destruct (decide (tag = "")).
Qed.
Lemma row_attributes_prefix ql k v : (k, v) ∈ row_attributes ql → k ≠ "source".
Proof.
  unfold row_attributes. intros ([tag x] & Hin & _)%list_elem_of_bind. simpl in Hin.
  assert (∃ rest, k = query_log_prefix +:+ rest) as [rest ->]; [|done].
  destruct (decide (tag = "")); [by apply elem_of_nil in Hin|]. unfold field_attributes in Hin.
  destruct (pcommonValue _); try (apply list_elem_of_singleton in Hin as [= -> _]; by eexists).
  apply list_elem_of_fmap in Hin as ([k' v'] & [= -> _] & _). rewrite string_app_assoc. by eexists.
Qed.
(** A record has every attribute of every tagged field, and its source. *)
Theorem record_attributes ql k v :
  NoDup (row_attributes ql).*1 → (k, v) ∈ row_attributes ql →
  tr_Attributes (toLogRecord ql) !! k = Some v ∧ tr_Attributes (toLogRecord ql) !! "source" = Some (AStr "clickhouse").
Proof.
  intros Hnd Hin. rewrite toLogRecord_put_all, lookup_insert_eq, lookup_insert_ne by (symmetry; by eapply row_attributes_prefix).
  split; [by apply put_all_in|done].
Qed.
End rows.

(** ** Witnesses *)

Section witnesses.
#[local] Instance w_format : FormatAny := {| Sprint v := match v with AStr s => s | _ => "?" end |}.
#[local] Instance w_text : TablesText :=
  {| FromRaw v := match v with RStr s => AStr s | ROther a => a | _ => ANil end; Format_RFC3339 t := pretty t;
     Unmarshal_map s := if decide (s = "{}") then Some [] else None |}.
Definition w_log (host q : string) : QueryLog :=
  {| Hostname := host; EventType := "QueryFinish"; EventTimeMicroseconds := 0; Query := q;
     tagged := [("query", RStr q); ("tables", RSlice [RStr "a"; RStr "b"]); ("Settings", RMap [("x", RStr "1")])] |}.
(** Three rows; each is flushed a second after its event. *)
Definition w_table : list (QueryLog * Z * Z) := [(w_log "h1" "q1", 99, 100); (w_log "h1" "q2", 101, 102); (w_log "h2" "q3", 103, 104)].
Definition w_env (now : Z) (consume : option string) : tables_env :=
  {| te_client := None; te_now := Ok now;
     te_rows a b := Ok (table_row <$> filter (λ x, a ≤ event_time x < b ∧ flush_time x ≤ now) w_table);
     te_consume _ := consume |}.
Definition w_config : tables_config := {| DSN := "d"; ClusterName := ""; ScrapeIntervalSeconds := 2; MinScrapeDelaySeconds := 1 |}.
(** The clock is first seen at 100; the push at 103 fails and is tried again. *)
Definition w_envs : list tables_env := [w_env 100 None; w_env 103 (Some "down"); w_env 105 None; w_env 105 None].

Lemma rows_pushed_once_witness :
  ∃ t0, r_pushed (foldl tables_tick (tables_Start (createLogsReceiver w_config)) w_envs) ≡ₚ rows_between w_table t0 104
        ∧ Query <$> r_pushed (foldl tables_tick (tables_Start (createLogsReceiver w_config)) w_envs) = ["q2"; "q3"].
Proof.
  assert (∀ x, x ∈ w_table → flush_time x ≤ event_time x + 1) as Hf.
  { intros x Hx. unfold w_table in Hx. rewrite !elem_of_cons in Hx.
    destruct Hx as [->|[->|[->|Hx%elem_of_nil]]]; [vm_compute; discriminate..|done]. }
  destruct (rows_pushed_once w_table 2 1 ltac:(lia) ltac:(lia) Hf w_envs w_config
    (foldl tables_tick (tables_Start (createLogsReceiver w_config)) w_envs) eq_refl eq_refl)
    as [[H _]|(t0 & env & _ & _ & _ & H)].
  - assert (∀ now c, 0 < now < 1000 → reads_table w_table 2 1 (w_env now c)) as Hr.
    { intros now c Hn now' [= <-]. split_and!; [lia|lia|]. by intros a b rows [= <-]. }
    repeat (constructor; [apply Hr; lia|]). constructor.
  - reflexivity.
  - exfalso. vm_compute in H. discriminate.
  - exists t0. split; [exact H|]. vm_compute. reflexivity.
Defined.

(** The receiver is three windows behind. *)
Lemma receiver_catches_up_witness :
  let s := {| r_receiver := {| scrapeIntervalSeconds := 2; scrapeDelaySeconds := 1; clickhouse := true; nextScrapeIntervalStartTs := 100 |};
              r_wait := 1; r_running := true; r_pushed := [] |} in
  let s' := foldl tables_tick s (replicate 4 (w_env 107 None)) in
  107 < ready_at (r_receiver s') ∧ r_wait s' = 2000.
Proof.
  intros s s'. destruct (receiver_catches_up 107 (replicate 4 (w_env 107 None)) s) as [H1 H2].
  - reflexivity.
  - split_and!; simpl; lia.
  - apply Forall_replicate. split_and!; done.
  - done.
  - simpl. unfold ready_at. simpl. vm_compute. reflexivity.
  - split; [exact H1|]. exact H2.
Defined.

Lemma record_attributes_witness :
  tr_Attributes (toLogRecord (w_log "h" "q")) !! "clickhouse.query_log.tables" = Some (AStr "a,b").
Proof.
  apply (record_attributes (w_log "h" "q") "clickhouse.query_log.tables" (AStr "a,b")).
  - apply (bool_decide_eq_true_1 _). vm_compute. reflexivity.
  - right. left.
Defined.
End witnesses.
