(* ===== verification/Severity.v ===== *)
(** * Severities of log entries

    src/processor/signozlogspipelineprocessor/stanza/operator/helper: severity_builder.go and
    severity.go. A configuration maps texts to levels; a parser looks a value of an entry up.
    A Go map in the configuration is the list of its entries in the order of the iteration. *)
From S2P Require Import Prelude GoText Sampling.
From Stdlib Require Import SpecFloat.

(** [entry.Severity]. *)
Inductive Severity :=
| Default | Trace | Trace2 | Trace3 | Trace4 | Debug | Debug2 | Debug3 | Debug4 | Info | Info2 | Info3 | Info4
| Warn | Warn2 | Warn3 | Warn4 | Error | Error2 | Error3 | Error4 | Fatal | Fatal2 | Fatal3 | Fatal4.
#[export] Instance Severity_eq_dec : EqDecision Severity.
Proof. solve_decision. Defined.
Definition all_levels : list Severity :=
  [Trace; Trace2; Trace3; Trace4; Debug; Debug2; Debug3; Debug4; Info; Info2; Info3; Info4;
   Warn; Warn2; Warn3; Warn4; Error; Error2; Error3; Error4; Fatal; Fatal2; Fatal3; Fatal4].

(** The values of a configuration and of an entry. *)
Inductive sev_value :=
| SNil | SInt (z : Z) | SFloat (x : float64) | SString (s : string) | SBytes (s : string)
| SRange (min max : Z) | SList (l : list sev_value) | SOther.

(** [Severity.String], and [strings.ToLower]. *)
Class SeverityText := { Severity_String : Severity → string; ToLower : string → string }.

Abbreviation severityMap := (gmap string Severity).
Definition add (m : severityMap) (severity : Severity) (parseableValues : list string) : severityMap :=
  foldl (λ m str, <[str := severity]> m) m parseableValues.

Definition aliases : severityMap := list_to_map
  [("trace", Trace); ("1", Trace); ("trace2", Trace2); ("2", Trace2);
   ("trace3", Trace3); ("3", Trace3); ("trace4", Trace4); ("4", Trace4);
   ("debug", Debug); ("5", Debug); ("debug2", Debug2); ("6", Debug2);
   ("debug3", Debug3); ("7", Debug3); ("debug4", Debug4); ("8", Debug4);
   ("info", Info); ("9", Info); ("info2", Info2); ("10", Info2);
   ("info3", Info3); ("11", Info3); ("info4", Info4); ("12", Info4);
   ("warn", Warn); ("13", Warn); ("warn2", Warn2); ("14", Warn2);
   ("warn3", Warn3); ("15", Warn3); ("warn4", Warn4); ("16", Warn4);
   ("error", Error); ("17", Error); ("error2", Error2); ("18", Error2);
   ("error3", Error3); ("19", Error3); ("error4", Error4); ("20", Error4);
   ("fatal", Fatal); ("21", Fatal); ("fatal2", Fatal2); ("22", Fatal2);
   ("fatal3", Fatal3); ("23", Fatal3); ("fatal4", Fatal4); ("24", Fatal4)].
Definition getBuiltinMapping (name : string) : severityMap :=
  if decide (name = "none") then ∅
  else if decide (name = "otel" ∨ name = "aliases") then aliases
  else
    let mapping := add aliases Warn ["warning"] in
    let mapping := add mapping Warn2 ["warning2"] in
    let mapping := add mapping Warn3 ["warning3"] in
    let mapping := add mapping Warn4 ["warning4"] in
    let mapping := add mapping Error ["err"] in
    let mapping := add mapping Error2 ["err2"] in
    let mapping := add mapping Error3 ["err3"] in
    add mapping Error4 ["err4"].

(** ** Finding a level (severity.go) *)

Section severity.
Context `{ST : SeverityText}.

(** The level, and the text of the value. *)
Definition find (m : severityMap) (v : sev_value) : result string (Severity * string) :=
  match v with
  | SInt z => Ok (default Default (m !! FormatInt z), FormatInt z)
  | SFloat x =>
      if SFeqb x (float64_of_int (int_of_float x))
      then Ok (default Default (m !! FormatInt (int_of_float x)), FormatInt (int_of_float x))
      else Err "cannot be a severity unless it is a whole number"
  | SString s | SBytes s => Ok (default Default (m !! ToLower s), s)
  | _ => Err "cannot be a severity"
  end.

Record SeverityParser := { p_Mapping : severityMap; overwriteText : bool }.
(** [value] is what the entry has in the field, if it is there; the severity and the text that
    the entry gets. *)
Definition Parse (p : SeverityParser) (value : option sev_value) : result string (Severity * string) :=
  match value with
  | None => Err "log entry does not have the expected parse_from field"
  | Some value =>
      match find (p_Mapping p) value with
      | Err e => Err ("parse: " +:+ e)
      | Ok (severity, sevText) =>
          Ok (severity, if overwriteText p && bool_decide (severity ≠ Default) then Severity_String severity else sevText)
      end
  end.

(** ** Building a parser (severity_builder.go) *)

Definition validateSeverity (severity : string) : result string Severity :=
  '(sev, _) ← find (getBuiltinMapping "aliases") (SString severity); Ok sev.

Definition expandRange (min max : Z) : list string :=
  let '(min, max) := if max <? min then (max, min) else (min, max) in
  FormatInt <$> seqZ min (max - min + 1).

Definition parseableValues (value : sev_value) : result string (list string) :=
  match value with
  | SInt v => Ok [FormatInt v]
  | SString v =>
      if decide (v = "2xx") then Ok (expandRange 200 299)
      else if decide (v = "3xx") then Ok (expandRange 300 399)
      else if decide (v = "4xx") then Ok (expandRange 400 499)
      else if decide (v = "5xx") then Ok (expandRange 500 599)
      else Ok [ToLower v]
  | SBytes v => Ok [ToLower v]
  | SRange min max => Ok (expandRange min max)
  | _ => Err "cannot be parsed as a severity"
  end.

Definition add_value (sev : Severity) (m : severityMap) (value : sev_value) : result string severityMap :=
  v ← parseableValues value; Ok (add m sev v).
(** One entry of the mapping: a list of values or a value; a nil is left out. *)
Definition add_entry (m : severityMap) (severity : string) (unknown : sev_value) : result string severityMap :=
  sev ← validateSeverity severity;
  match unknown with
  | SList u => foldl (λ m value, m ← m; add_value sev m value) (Ok m) u
  | SNil => Ok m
  | u => add_value sev m u
  end.

Record SeverityConfig := { ParseFrom : bool; Preset : string; Mapping : list (string * sev_value); OverwriteText : bool }.
(** [ParseFrom] is whether the field is configured. *)
Definition Build (c : SeverityConfig) : result string SeverityParser :=
  operatorMapping ← foldl (λ m '(severity, unknown), m ← m; add_entry m severity unknown)
                          (Ok (getBuiltinMapping (Preset c))) (Mapping c);
  if ParseFrom c then Ok {| p_Mapping := operatorMapping; overwriteText := OverwriteText c |}
  else Err "missing required field 'parse_from'".

(** ** What a configuration means *)

(** The level that a name of the configuration stands for; the texts of a value. *)
Definition level_named (severity : string) : Severity := default Default (aliases !! ToLower severity).
Definition texts_of (unknown : sev_value) : list string :=
  let texts v := match parseableValues v with Ok l => l | Err _ => [] end in
  match unknown with SList u => u ≫= texts | SNil => [] | u => texts u end.
(** The texts that are configured with their levels, in order. *)
Definition configured (mapping : list (string * sev_value)) : list (string * Severity) :=
  mapping ≫= λ su, (λ text, (text, level_named su.1)) <$> texts_of su.2.
Definition last_level (text : string) (l : list (string * Severity)) : option Severity :=
  last ((filter (λ tl, tl.1 = text) l).*2).

Definition put (m : severityMap) (l : list (string * Severity)) : severityMap := foldl (λ m tl, <[tl.1 := tl.2]> m) m l.
Lemma put_app m l k : put m (l ++ k) = put (put m l) k.
Proof. unfold put. by rewrite foldl_app. Qed.
Lemma add_put m sev texts : add m sev texts = put m ((λ text, (text, sev)) <$> texts).
Proof. unfold add, put. revert m. induction texts as [|t texts IH]; intros m; [done|]. apply IH. Qed.
Lemma put_lookup m l text : put m l !! text = match last_level text l with Some s => Some s | None => m !! text end.
Proof.
  induction l as [|[t s] l IH] using rev_ind; [done|]. rewrite put_app. unfold last_level in *. rewrite filter_app, fmap_app.
  simpl. destruct (decide (t = text)) as [->|Ht].
  - rewrite filter_cons_True by done. simpl. rewrite last_snoc. apply lookup_insert_eq.
  - rewrite filter_cons_False by done. simpl. rewrite app_nil_r, <- IH. by rewrite lookup_insert_ne.
Qed.

Lemma validateSeverity_level severity : validateSeverity severity = Ok (level_named severity).
Proof. done. Qed.
Lemma add_value_put sev m v m' :
  add_value sev m v = Ok m' → ∃ texts, parseableValues v = Ok texts ∧ m' = put m ((λ text, (text, sev)) <$> texts).
Proof. unfold add_value. destruct (parseableValues v) as [l|]; [|done]. intros [= <-]. exists l. split; [done|apply add_put]. Qed.
Lemma add_entry_put m severity unknown m' :
  add_entry m severity unknown = Ok m' → m' = put m ((λ text, (text, level_named severity)) <$> texts_of unknown).
Proof.
  unfold add_entry. rewrite validateSeverity_level. cbn [mbind result_bind].
  assert (∀ v m', add_value (level_named severity) m v = Ok m' →
    m' = put m ((λ text, (text, level_named severity)) <$> match parseableValues v with Ok l => l | Err _ => [] end)) as Hv.
  { intros v m1 H. apply add_value_put in H as (texts & -> & ->). done. }
  destruct unknown; try (intros H; by apply Hv in H); try by intros [= <-].
  intros H. change (texts_of (SList l)) with (l ≫= λ v, match parseableValues v with Ok l => l | Err _ => [] end).
  revert m m' Hv H. induction l as [|v l IH]; intros m m' _ H; [by injection H as <-|].
  rewrite foldl_Ok in H. destruct (add_value (level_named severity) m v) as [m1|] eqn:E; [|by rewrite foldl_Err in H].
  rewrite bind_cons, fmap_app, put_app. apply add_value_put in E as (texts & -> & ->). apply IH; [|done].
  intros v' m2 H2. apply add_value_put in H2 as (t & -> & ->). done.
Qed.
Lemma Build_put c p : Build c = Ok p → p_Mapping p = put (getBuiltinMapping (Preset c)) (configured (Mapping c)).
Proof.
  unfold Build. generalize (getBuiltinMapping (Preset c)) as m. intros m H.
  destruct (foldl _ (Ok m) (Mapping c)) as [m'|] eqn:E; [|done]. cbn [mbind result_bind] in H.
  destruct (ParseFrom c); [|done]. injection H as <-. simpl. revert m E.
  induction (Mapping c) as [|[sev u] l IH]; intros m E; [by injection E as <-|]. unfold configured. rewrite bind_cons, put_app.
  change (foldl _ _ _) with (foldl (λ m '(severity, unknown), m ← m; add_entry m severity unknown) (add_entry m sev u) l) in E.
  destruct (add_entry m sev u) as [m1|] eqn:E1.
  - apply add_entry_put in E1 as ->. exact (IH _ E).
  - exfalso. clear -E. induction l as [|[s v] l IH]; [done|by apply IH].
Qed.

(** What a parser makes of a text: the level that the configuration gives it last, or else
    that of the preset, or else the default level; and the text itself. *)
Theorem configured_severity c p text :
  Build c = Ok p →
  find (p_Mapping p) (SString text)
  = Ok (match last_level (ToLower text) (configured (Mapping c)) with
        | Some level => level
        | None => default Default (getBuiltinMapping (Preset c) !! ToLower text)
        end, text).
Proof.
  intros H%Build_put. unfold find. rewrite H, put_lookup. by destruct (last_level _ _).
Qed.

(** A level that is not known is accepted, and stands for the default level. *)
Lemma unknown_level_accepted severity : aliases !! ToLower severity = None → validateSeverity severity = Ok Default.
Proof. intros H. rewrite validateSeverity_level. unfold level_named. by rewrite H. Qed.
End severity.

(** The numbers from 1 to 24 and the names stand for the levels in order. *)
Lemma builtin_numbers i level : all_levels !! i = Some level → aliases !! FormatInt (Z.of_nat (S i)) = Some level.
Proof.
  intros H. assert (forallb (λ i, bool_decide (aliases !! FormatInt (Z.of_nat (S i)) = all_levels !! i)) (seq 0 24) = true) as Hall
    by (vm_compute; reflexivity).
  rewrite forallb_forall in Hall. rewrite <- H. apply (bool_decide_eq_true_1 _), Hall.
  apply in_seq. apply lookup_lt_Some in H. change (length all_levels) with 24%nat in H. lia.
Qed.

Section witnesses.
#[local] Instance w_severity : SeverityText := {| Severity_String _ := "LEVEL"; ToLower := to_lower |}.
Definition w_config : SeverityConfig :=
  {| ParseFrom := true; Preset := ""; Mapping := [("error", SList [SString "4xx"; SString "Oops"]); ("warn", SInt 404)];
     OverwriteText := false |}.
Lemma configured_severity_witness :
  ∃ p, Build w_config = Ok p ∧ find (p_Mapping p) (SString "OOPS") = Ok (Error, "OOPS")
       ∧ find (p_Mapping p) (SString "404") = Ok (Warn, "404").
Proof.
  destruct (Build w_config) as [p|e] eqn:E; [|exfalso; assert (is_ok (Build w_config)) as H by (vm_compute; exact I); by rewrite E in H].
  exists p. split; [reflexivity|].
  split; [rewrite (configured_severity w_config p "OOPS" E)|rewrite (configured_severity w_config p "404" E)]; vm_compute; reflexivity.
Defined.
End witnesses.
