(* ===== verification/LogsProcessor.v ===== *)
(** * The logs pipeline processor

    src/processor/signozlogspipelineprocessor: processor.go and utils.go. A batch becomes one
    entry per record, goroutines run the operators on the entries, and the entries become a
    batch again, grouped by resource and scope. Values made from raw values are an interface;
    what the operators do to an entry is a parameter. *)
From S2P Require Import Prelude GoText Pdata Sampling Flatten Utils Fingerprint ClickHouse LogsPipeline LogsExporter Metering.
From S2P Require Import Severity.

(** The values of [pcommon] that are made from raw values, and how they are read back. *)
Class PdataBuild (P : Pdata) `{!PdataRaw P} := {
  New_Bool : bool → Value; New_Str : string → Value; New_Int : Z → Value; New_Double : float64 → Value;
  New_Bytes : string → Value; New_Map : list (string * Value) → Value; New_Slice : list Value → Value; New_Empty : Value;
  AsRaw_Bool b : Value_AsRaw (New_Bool b) = ABool b;
  AsRaw_Str s : Value_AsRaw (New_Str s) = AStr s;
  AsRaw_Int z : Value_AsRaw (New_Int z) = AInt z;
  AsRaw_Double x : Value_AsRaw (New_Double x) = AFloat x;
  AsRaw_Bytes s : Value_AsRaw (New_Bytes s) = ABytes s;
  AsRaw_Map l : Value_AsRaw (New_Map l) = AMap ((λ kv, (kv.1, Value_AsRaw kv.2)) <$> l);
  AsRaw_Slice l : Value_AsRaw (New_Slice l) = ASlice (Value_AsRaw <$> l);
  AsRaw_Empty : Value_AsRaw New_Empty = ANil;
}.

Definition InternalTempAttributePrefix : string := "__signozlogspipelineprocessor_internal__".

(** [entry.Entry]: times are int64 nanoseconds, [None] the zero time; [None] is a nil slice. *)
Record Entry := {
  e_Timestamp : option Z; e_ObservedTimestamp : Z; e_Severity : Severity; e_SeverityText : string;
  e_Attributes : gmap string any; e_Body : any; e_Resource : gmap string any;
  e_TraceID : option string; e_SpanID : option string; e_TraceFlags : option string; e_ScopeName : string }.

(** [fromPdataSevMap] and [sevMap]: the numbers from 1 to 24 are the levels in order. *)
Definition fromPdataSevMap (n : Z) : Severity := if n <=? 0 then Default else default Default (all_levels !! (Z.to_nat n - 1)%nat).
Definition sevMap (s : Severity) : Z :=
  match list_find (λ l, l = s) all_levels with Some (i, _) => Z.of_nat (S i) | None => 0 end.
Definition level_names : list string :=
  ["TRACE"; "TRACE2"; "TRACE3"; "TRACE4"; "DEBUG"; "DEBUG2"; "DEBUG3"; "DEBUG4"; "INFO"; "INFO2"; "INFO3"; "INFO4";
   "WARN"; "WARN2"; "WARN3"; "WARN4"; "ERROR"; "ERROR2"; "ERROR3"; "ERROR4"; "FATAL"; "FATAL2"; "FATAL3"; "FATAL4"].
Definition defaultSevTextMap (s : Severity) : string :=
  if decide (s = Default) then "" else default "" (level_names !! (Z.to_nat (sevMap s) - 1)%nat).

Section processor.
Context `{PD : Pdata} `{RW : !PdataRaw PD} `{PB : !PdataBuild PD} `{FA : FormatAny}.

(** ** To entries (processor.go) *)

Definition convertFrom (now : Z) (scope : string) (resource : gmap string Value) (src : LogRecord) : Entry :=
  {| e_Timestamp := if lr_Timestamp src =? 0 then None else Some (i64 (lr_Timestamp src));
     e_ObservedTimestamp := if lr_ObservedTimestamp src =? 0 then now else i64 (lr_ObservedTimestamp src);
     e_Severity := fromPdataSevMap (lr_SeverityNumber src); e_SeverityText := lr_SeverityText src;
     e_Attributes := Value_AsRaw <$> lr_Attributes src; e_Body := Value_AsRaw (lr_Body src);
     e_Resource := Value_AsRaw <$> resource;
     e_TraceID := if IsEmpty (lr_TraceID src) then None else Some (lr_TraceID src);
     e_SpanID := if IsEmpty (lr_SpanID src) then None else Some (lr_SpanID src);
     e_TraceFlags := if lr_Flags src =? 0 then None else Some (String (ascii_of_N (Z.to_N (lr_Flags src mod 256))) "");
     e_ScopeName := scope |}.
Definition plogToEntries (now : Z) (src : Logs) : list Entry :=
  src ≫= λ rl, rl_ScopeLogs rl ≫= λ sl, convertFrom now (sl_Name sl) (rl_Resource rl) <$> sl_LogRecords sl.

(** ** From entries (utils.go) *)

Fixpoint upsertToAttributeVal (value : any) : Value :=
  match value with
  | ABool t => New_Bool t
  | AStr t => New_Str t
  | ABytes t => New_Bytes t
  | AInt t => New_Int t
  | AFloat t => New_Double t
  | AMap t =>
      New_Map ((fix go (t : list (string * any)) : list (string * Value) :=
                  match t with
                  | [] => []
                  | (k, v) :: rest =>
                      if has_prefix k InternalTempAttributePrefix then go rest else (k, upsertToAttributeVal v) :: go rest
                  end) t)
  | ASlice t => New_Slice (upsertToAttributeVal <$> t)
  | ANil => New_Str (Sprint ANil)
  end.
Definition upsertToMap (obsMap : gmap string any) : gmap string Value :=
  upsertToAttributeVal <$> filter (λ kv, has_prefix kv.1 InternalTempAttributePrefix = false) obsMap.

(** The last bytes of an id of [n] bytes, the first being zero; of a longer one, the first [n]. *)
Definition pad_id (n : nat) (id : option string) : string :=
  match id with
  | None => of_bytes (replicate n "000"%char)
  | Some id => of_bytes (take n (replicate (n - length (bytes id)) "000"%char ++ bytes id))
  end.
Definition convertInto (ent : Entry) : LogRecord :=
  {| lr_Timestamp := match e_Timestamp ent with Some t => u64 t | None => 0 end;
     lr_ObservedTimestamp := u64 (e_ObservedTimestamp ent);
     lr_TraceID := pad_id 16 (e_TraceID ent); lr_SpanID := pad_id 8 (e_SpanID ent);
     lr_Flags := match e_TraceFlags ent with Some (String c _) => byte_val c | _ => 0 end;
     lr_SeverityText := if decide (e_SeverityText ent = "") then defaultSevTextMap (e_Severity ent) else e_SeverityText ent;
     lr_SeverityNumber := sevMap (e_Severity ent);
     lr_Body := match e_Body ent with ANil => New_Empty | body => upsertToAttributeVal body end;
     lr_Attributes := upsertToMap (e_Attributes ent) |}.

(** The batch that is built and the two maps of indexes. *)
Record conversion := {
  pLogs : Logs; resourceHashToIdx : gmap Z nat; scopeIdxByResource : gmap Z (gmap string nat) }.
Definition no_logs : conversion := {| pLogs := []; resourceHashToIdx := ∅; scopeIdxByResource := ∅ |}.

Definition append_record (lr : LogRecord) (sl : ScopeLogs) : ScopeLogs :=
  {| sl_Name := sl_Name sl; sl_Version := sl_Version sl; sl_Attributes := sl_Attributes sl;
     sl_LogRecords := sl_LogRecords sl ++ [lr] |}.
Definition new_scope (name : string) (lr : LogRecord) : ScopeLogs :=
  {| sl_Name := name; sl_Version := ""; sl_Attributes := ∅; sl_LogRecords := [lr] |}.
Definition with_scopes (rl : ResourceLogs) (scopes : list ScopeLogs) : ResourceLogs :=
  {| rl_Resource := rl_Resource rl; rl_ScopeLogs := scopes |}.

(** [adapter.HashResource]: uint64. *)
Context (HashResource : gmap string any → Z).

(** One entry; [None] is a panic: an index that is out of range, or a nil map. *)
Definition convert_entry (c : conversion) (e : Entry) : option conversion :=
  let resourceID := HashResource (e_Resource e) in
  let lr := convertInto e in
  match resourceHashToIdx c !! resourceID with
  | None =>
      Some {| pLogs := pLogs c ++ [ {| rl_Resource := upsertToMap (e_Resource e); rl_ScopeLogs := [new_scope (e_ScopeName e) lr] |} ];
              resourceHashToIdx := <[resourceID := length (pLogs c)]> (resourceHashToIdx c);
              scopeIdxByResource := <[resourceID := {[ e_ScopeName e := 0%nat ]}]> (scopeIdxByResource c) |}
  | Some resourceIdx =>
      rl ← pLogs c !! resourceIdx;
      let scopes := default ∅ (scopeIdxByResource c !! resourceID) in
      match scopes !! e_ScopeName e with
      | None =>
          _ ← scopeIdxByResource c !! resourceID;
          Some {| pLogs := <[resourceIdx := with_scopes rl (rl_ScopeLogs rl ++ [new_scope (e_ScopeName e) lr])]> (pLogs c);
                  resourceHashToIdx := resourceHashToIdx c;
                  scopeIdxByResource := <[resourceID := <[e_ScopeName e := length (rl_ScopeLogs rl)]> scopes]> (scopeIdxByResource c) |}
      | Some scopeIdxInResource =>
          sl ← rl_ScopeLogs rl !! scopeIdxInResource;
          Some {| pLogs := <[resourceIdx := with_scopes rl (<[scopeIdxInResource := append_record lr sl]> (rl_ScopeLogs rl))]> (pLogs c);
                  resourceHashToIdx := resourceHashToIdx c; scopeIdxByResource := scopeIdxByResource c |}
      end
  end.
Definition convertEntriesToPlogs (entries : list Entry) : option Logs :=
  c ← foldl (λ c e, c ← c; convert_entry c e) (Some no_logs) entries; Some (pLogs c).

(** ** Processing *)

(** What the operators make of an entry, in place; an error is only logged. *)
Context (process : Entry → Entry).

(** An entry in its turn: the loop has not come to it, its goroutine holds a slot of the
    limiter, or it is done. *)
Inductive slot := Pending (e : Entry) | Running (e : Entry) | Processed (e : Entry).
Definition is_running (s : slot) : bool := match s with Running _ => true | _ => false end.
(** The loop takes the entries in order and waits for a slot; a goroutine finishes when it
    does. *)
Inductive pool_step (concurrency : nat) : list slot → list slot → Prop :=
| pool_spawn done e rest :
    (∀ s, s ∈ done → ∃ e, s = Running e ∨ s = Processed e) →
    (length (filter (λ s, is_running s = true) done) < concurrency)%nat →
    pool_step concurrency (done ++ Pending e :: rest) (done ++ Running e :: rest)
| pool_finish pre e rest : pool_step concurrency (pre ++ Running e :: rest) (pre ++ Processed (process e) :: rest).

Definition ProcessLogs (now : Z) (ld : Logs) : option Logs := convertEntriesToPlogs (process <$> plogToEntries now ld).
End processor.
