(* ===== verification/LogsProcessorProps.v ===== *)
(** * What the logs pipeline processor keeps

    A record that no operator touches comes back as it was; a batch has a record for every
    entry, whatever the operators do; and the goroutines process every entry once. *)
From S2P Require Import Prelude GoText Pdata Sampling Flatten Utils Fingerprint ClickHouse LogsPipeline LogsExporter Metering.
From S2P Require Import Severity LogsProcessor.

(** ** Lists of keys and values *)

Section assoc.
Context {K V : Type} `{EqDecision K}.

(** The value of a key is changed where it is, or added at the end. *)
Fixpoint upsert_assoc (k : K) (new : V) (f : V → V) (l : list (K * V)) : list (K * V) :=
  match l with
  | [] => [(k, new)]
  | (k', v) :: rest => if decide (k' = k) then (k', f v) :: rest else (k', v) :: upsert_assoc k new f rest
  end.

Lemma upsert_absent k new f l : k ∉ l.*1 → upsert_assoc k new f l = l ++ [(k, new)].
Proof.
  induction l as [|[k' v] l IH]; [done|]. rewrite fmap_cons. intros [Hk Hl]%not_elem_of_cons. simpl.
  rewrite decide_False by (by intros ->). by rewrite IH.
Qed.
Lemma upsert_present k new f l i v : NoDup l.*1 → l !! i = Some (k, v) → upsert_assoc k new f l = <[i := (k, f v)]> l.
Proof.
  revert i. induction l as [|[k' v'] l IH]; intros i; [done|]. rewrite fmap_cons. intros [Hk Hnd]%NoDup_cons Hi. simpl.
  destruct i as [|i]; simpl in Hi.
  - injection Hi as -> ->. by rewrite decide_True.
  - rewrite decide_False; [by rewrite (IH i)|]. intros ->. apply Hk, list_elem_of_fmap. exists (k, v). split; [done|].
    by eapply list_elem_of_lookup_2.
Qed.
Lemma upsert_keys k new f l : (upsert_assoc k new f l).*1 = if decide (k ∈ l.*1) then l.*1 else l.*1 ++ [k].
Proof.
  destruct (decide (k ∈ l.*1)) as [Hk|Hk].
  - induction l as [|[k' v] l IH]; [by apply elem_of_nil in Hk|]. simpl. destruct (decide (k' = k)) as [|Hne]; [done|].
    apply elem_of_cons in Hk as [->|Hk]; [done|]. simpl. f_equal. by apply IH.
  - rewrite upsert_absent by done. by rewrite fmap_app.
Qed.
Lemma upsert_nodup k new f l : NoDup l.*1 → NoDup (upsert_assoc k new f l).*1.
Proof.
  intros H. rewrite upsert_keys. destruct (decide _); [done|]. apply NoDup_app. split_and!; [done|set_solver|apply NoDup_singleton].
Qed.
Lemma upsert_elem k new f l k' v' :
  NoDup l.*1 → (k', v') ∈ upsert_assoc k new f l →
  (k' ≠ k ∧ (k', v') ∈ l) ∨ (k' = k ∧ ((∃ v, (k, v) ∈ l ∧ v' = f v) ∨ k ∉ l.*1 ∧ v' = new)).
Proof.
  intros Hnd Hin. destruct (decide (k ∈ l.*1)) as [Hk|Hk].
  - apply list_elem_of_fmap in Hk as ([k0 v] & -> & Hk). simpl in *. apply list_elem_of_lookup in Hk as [i Hi].
    rewrite (upsert_present k0 new f l i v Hnd Hi) in Hin. apply list_elem_of_lookup in Hin as [j Hj].
    destruct (decide (j = i)) as [->|Hne].
    + rewrite list_lookup_insert_eq in Hj by (by eapply lookup_lt_Some). injection Hj as <- <-.
      right. split; [done|left]. exists v. split; [by eapply list_elem_of_lookup_2|done].
    + rewrite list_lookup_insert_ne in Hj by done. left. split; [|by eapply list_elem_of_lookup_2].
      intros ->. apply Hne. apply (NoDup_lookup l.*1 j i k0 Hnd); by rewrite list_lookup_fmap, ?Hj, ?Hi.
  - rewrite upsert_absent in Hin by done. apply elem_of_app in Hin as [Hin|Hin].
    + left. split; [|done]. intros ->. apply Hk, list_elem_of_fmap. by exists (k, v').
    + apply list_elem_of_singleton in Hin as [= -> ->]. right. split; [done|by right].
Qed.

(** A map of the indexes of the keys. *)
Context `{Countable K}.
Definition indexes (m : gmap K nat) (l : list (K * V)) : Prop := ∀ k i, m !! k = Some i ↔ l.*1 !! i = Some k.
Lemma indexes_absent m l k : indexes m l → m !! k = None → k ∉ l.*1.
Proof. intros Hm Hk [i Hi]%list_elem_of_lookup. apply Hm in Hi. congruence. Qed.
Lemma indexes_present m l k i : indexes m l → m !! k = Some i → ∃ v, l !! i = Some (k, v).
Proof.
  intros Hm Hk%Hm. rewrite list_lookup_fmap in Hk. destruct (l !! i) as [[k' v]|]; [|done]. injection Hk as ->. by exists v.
Qed.
Lemma indexes_upsert m l k new f :
  indexes m l → NoDup l.*1 →
  indexes (match m !! k with Some _ => m | None => <[k := length l]> m end) (upsert_assoc k new f l).
Proof.
  intros Hm Hnd k' i. rewrite upsert_keys. destruct (m !! k) as [j|] eqn:E.
  - rewrite decide_True; [apply Hm|]. apply Hm in E. by eapply list_elem_of_lookup_2.
  - pose proof (indexes_absent m l k Hm E) as Hk. rewrite decide_False by done.
    assert (length l = length l.*1) as -> by by rewrite length_fmap.
    destruct (decide (k' = k)) as [->|Hne].
    + rewrite lookup_insert_eq. split; [intros [= <-]; by rewrite list_lookup_middle|].
      intros [Hi|[Hle Hi]]%lookup_app_Some; [by apply list_elem_of_lookup_2 in Hi|]. f_equal.
      destruct (i - length l.*1)%nat eqn:Ed; [lia|done].
    + rewrite lookup_insert_ne by done. rewrite (Hm k' i). split; [by apply lookup_app_l_Some|].
      intros [Hi|[Hle Hi]]%lookup_app_Some; [done|]. apply list_lookup_singleton_Some in Hi as [_ Hi]. congruence.
Qed.
End assoc.

(** ** Groups of a list *)

Section groups.
Context {K A : Type} `{EqDecision K} (key : A → K).

Definition see_first (seen : list K) (k : K) : list K := if decide (k ∈ seen) then seen else seen ++ [k].
(** The keys in the order in which they come first, and each with the elements that have it. *)
Definition first_seen (l : list K) : list K := foldl see_first [] l.
Definition group_by (l : list A) : list (K * list A) := (λ k, (k, filter (λ a, key a = k) l)) <$> first_seen (key <$> l).

Lemma first_seen_snoc l k : first_seen (l ++ [k]) = see_first (first_seen l) k.
Proof. unfold first_seen. by rewrite foldl_app. Qed.
Lemma elem_first_seen l k : k ∈ first_seen l ↔ k ∈ l.
Proof.
  induction l as [|k' l IH] using rev_ind; [done|]. rewrite first_seen_snoc. unfold see_first. destruct (decide _); set_solver.
Qed.
Lemma first_seen_nodup l : NoDup (first_seen l).
Proof.
  induction l as [|k l IH] using rev_ind; [constructor|]. rewrite first_seen_snoc. unfold see_first. destruct (decide _); [done|].
  apply NoDup_app. split_and!; [done|set_solver|apply NoDup_singleton].
Qed.
Lemma group_by_keys l : (group_by l).*1 = first_seen (key <$> l).
Proof. unfold group_by. rewrite <-list_fmap_compose. by rewrite list_fmap_id. Qed.
Lemma group_by_nodup l : NoDup (group_by l).*1.
Proof. rewrite group_by_keys. apply first_seen_nodup. Qed.
Lemma group_by_elem l k g : (k, g) ∈ group_by l ↔ k ∈ key <$> l ∧ g = filter (λ a, key a = k) l.
Proof.
  unfold group_by. rewrite list_elem_of_fmap. setoid_rewrite elem_first_seen. split.
  - by intros (k' & [= -> ->] & Hk).
  - intros [Hk ->]. by exists k.
Qed.
Lemma group_nonempty l k g : (k, g) ∈ group_by l → g ≠ [].
Proof.
  intros [Hk ->]%group_by_elem E. apply list_elem_of_fmap in Hk as (a & -> & Ha).
  assert (a ∈ filter (λ b, key b = key a) l) as Hin by (by apply list_elem_of_filter). rewrite E in Hin. by apply elem_of_nil in Hin.
Qed.

Lemma group_by_snoc l a : group_by (l ++ [a]) = upsert_assoc (key a) [a] (λ g, g ++ [a]) (group_by l).
Proof.
  assert (∀ ks : list K, NoDup ks → key a ∈ ks →
            (λ k, (k, filter (λ a, key a = k) (l ++ [a]))) <$> ks
            = upsert_assoc (key a) [a] (λ g, g ++ [a]) ((λ k, (k, filter (λ a, key a = k) l)) <$> ks)) as Hpresent.
  { assert (∀ ks : list K, key a ∉ ks → (λ k, (k, filter (λ a, key a = k) (l ++ [a]))) <$> ks
                                       = (λ k, (k, filter (λ a, key a = k) l)) <$> ks) as Hother.
    { intros ks Hks. apply list_fmap_ext. intros i k Hi%list_elem_of_lookup_2. f_equal.
      rewrite filter_app, filter_cons_False, filter_nil, app_nil_r by (by intros <-). done. }
    induction ks as [|k ks IH]; [by intros _ ?%elem_of_nil|]. intros [Hk Hnd]%NoDup_cons Hin. rewrite !fmap_cons. simpl.
    destruct (decide (k = key a)) as [->|Hne].
    - rewrite Hother by done. by rewrite filter_app, filter_cons_True, filter_nil by done.
    - apply elem_of_cons in Hin as [Heq|Hin]; [congruence|]. rewrite IH by done.
      rewrite filter_app, filter_cons_False, filter_nil, app_nil_r by done. done. }
  unfold group_by. rewrite (fmap_app key), list_fmap_singleton, first_seen_snoc. unfold see_first. simpl. destruct (decide _) as [Hin|Hnin].
  - apply Hpresent; [apply first_seen_nodup|done].
  - rewrite upsert_absent.
    2:{ rewrite <-list_fmap_compose. by rewrite list_fmap_id. }
    assert (key a ∉ key <$> l) as Hnew by by rewrite <-elem_first_seen.
    assert (∀ k, filter (λ b, key b = k) (l ++ [a]) = filter (λ b, key b = k) l ++ filter (λ b, key b = k) [a]) as Hf
      by (intros; apply filter_app).
    rewrite fmap_app. f_equal.
    + apply list_fmap_ext. intros i k Hi%list_elem_of_lookup_2. f_equal.
      rewrite Hf, filter_cons_False, filter_nil, app_nil_r by (by intros <-). done.
    + simpl. do 2 f_equal. rewrite Hf, filter_cons_True, filter_nil by done.
      destruct (filter _ l) as [|b bs] eqn:E; [done|]. exfalso. apply Hnew.
      assert (b ∈ filter (λ b, key b = key a) l) as [<- Hb]%list_elem_of_filter by (rewrite E; left).
      by apply list_elem_of_fmap_2.
Qed.

Lemma group_by_singleton a : group_by [a] = [(key a, [a])].
Proof. exact (group_by_snoc [] a). Qed.

(** Every element is in one group. *)
Lemma group_by_perm l : (group_by l ≫= snd) ≡ₚ l.
Proof.
  induction l as [|a l IH] using rev_ind; [done|]. rewrite group_by_snoc. rewrite <-IH at 2.
  generalize (group_by l). intros gs. induction gs as [|[k g] gs IHg]; [done|]. simpl. destruct (decide (k = key a)); simpl.
  - rewrite <-!app_assoc. f_equiv. by rewrite Permutation_app_comm.
  - rewrite IHg. by rewrite app_assoc.
Qed.
End groups.

(** ** From entries to a batch *)

Section conversion.
Context `{PD : Pdata} `{RW : !PdataRaw PD} `{PB : !PdataBuild PD} `{FA : FormatAny}.
Context (HashResource : gmap string any → Z).

(** What the batch is: the entries by the hash of their resource, then by scope. *)
Definition resource_key (e : Entry) : Z := HashResource (e_Resource e).
Definition scope_group (g : string * list Entry) : ScopeLogs :=
  {| sl_Name := g.1; sl_Version := ""; sl_Attributes := ∅; sl_LogRecords := convertInto <$> g.2 |}.
Definition resource_group (g : list Entry) : ResourceLogs :=
  {| rl_Resource := default ∅ ((λ e, upsertToMap (e_Resource e)) <$> head g);
     rl_ScopeLogs := scope_group <$> group_by e_ScopeName g |}.
Definition grouped (entries : list Entry) : Logs := (λ g, resource_group g.2) <$> group_by resource_key entries.

(** The two maps are the indexes of the groups. *)
Record conversion_inv (c : conversion) (entries : list Entry) : Prop := {
  ci_logs : pLogs c = grouped entries;
  ci_resources : indexes (resourceHashToIdx c) (group_by resource_key entries);
  ci_scopes h g : (h, g) ∈ group_by resource_key entries →
    ∃ m, scopeIdxByResource c !! h = Some m ∧ indexes m (group_by e_ScopeName g);
}.

Lemma resource_group_snoc g e :
  g ≠ [] → resource_group (g ++ [e]) = with_scopes (resource_group g) (scope_group <$> group_by e_ScopeName (g ++ [e])).
Proof. by destruct g. Qed.
Lemma scope_group_snoc n g e :
  scope_group (n, g ++ [e]) = append_record (convertInto e) (scope_group (n, g)).
Proof. unfold scope_group, append_record. simpl. by rewrite fmap_app. Qed.

Lemma convert_new_resource c es e :
  conversion_inv c es → resourceHashToIdx c !! resource_key e = None →
  ∃ c', convert_entry HashResource c e = Some c' ∧ conversion_inv c' (es ++ [e]).
Proof.
  intros [Hl Hr Hs] E. unfold convert_entry. fold (resource_key e). rewrite E. eexists. split; [done|].
  pose proof (indexes_absent _ _ _ Hr E) as Hnew.
  assert (group_by resource_key (es ++ [e]) = group_by resource_key es ++ [(resource_key e, [e])]) as HG
    by (rewrite group_by_snoc; by apply upsert_absent).
  constructor; simpl.
  - unfold grouped at 1. rewrite HG, fmap_app, Hl. cbn. unfold resource_group. by rewrite group_by_singleton.
  - rewrite HG, <-(upsert_absent (resource_key e) [e] id _ Hnew). rewrite Hl. unfold grouped. rewrite length_fmap.
    pose proof (indexes_upsert _ _ (resource_key e) [e] id Hr (group_by_nodup _ _)) as H. by rewrite E in H.
  - intros h g Hin. rewrite HG in Hin. apply elem_of_app in Hin as [Hin|Hin].
    + rewrite lookup_insert_ne; [by apply Hs|]. intros <-. apply Hnew, list_elem_of_fmap. by exists (resource_key e, g).
    + apply list_elem_of_singleton in Hin as [= -> ->]. rewrite lookup_insert_eq. eexists. split; [done|].
      rewrite group_by_singleton. intros k i. rewrite lookup_singleton_Some. destruct i; simpl; naive_solver.
Qed.

Lemma convert_known_resource c es e i :
  conversion_inv c es → resourceHashToIdx c !! resource_key e = Some i →
  ∃ c', convert_entry HashResource c e = Some c' ∧ conversion_inv c' (es ++ [e]).
Proof.
  intros [Hl Hr Hs] E. unfold convert_entry. fold (resource_key e). rewrite E. cbn [mbind option_bind].
  destruct (indexes_present _ _ _ _ Hr E) as [g Hg].
  pose proof (list_elem_of_lookup_2 _ _ _ Hg) as Hin. pose proof (group_nonempty _ _ _ _ Hin) as Hne.
  destruct (Hs _ _ Hin) as (m & Hm & Him).
  assert (pLogs c !! i = Some (resource_group g)) as -> by (rewrite Hl; etransitivity; [apply list_lookup_fmap|by rewrite Hg]).
  rewrite Hm. cbn [mbind option_bind default from_option id].
  assert (group_by resource_key (es ++ [e]) = <[i := (resource_key e, g ++ [e])]> (group_by resource_key es)) as HG
    by (rewrite group_by_snoc; by apply (upsert_present _ _ (λ g, g ++ [e])); [apply group_by_nodup|]).
  assert (indexes (resourceHashToIdx c) (group_by resource_key (es ++ [e]))) as Hr'.
  { rewrite group_by_snoc. pose proof (indexes_upsert _ _ (resource_key e) [e] (λ g, g ++ [e]) Hr (group_by_nodup _ _)) as H.
    by rewrite E in H. }
  assert (∀ scopes, scope_group <$> group_by e_ScopeName (g ++ [e]) = scopes →
            <[i := with_scopes (resource_group g) scopes]> (pLogs c) = grouped (es ++ [e])) as Hlogs.
  { intros scopes <-. rewrite <-resource_group_snoc by done. unfold grouped. rewrite HG, list_fmap_insert, Hl. done. }
  pose proof (indexes_upsert _ _ (e_ScopeName e) [e] (λ g, g ++ [e]) Him (group_by_nodup _ _)) as Him'.
  rewrite <-group_by_snoc in Him'.
  assert (∀ (sc : gmap Z (gmap string nat)) (m' : gmap string nat), sc !! resource_key e = Some m' → indexes m' (group_by e_ScopeName (g ++ [e])) →
            (∀ h, h ≠ resource_key e → sc !! h = scopeIdxByResource c !! h) →
            ∀ h g', (h, g') ∈ group_by resource_key (es ++ [e]) →
              ∃ m, sc !! h = Some m ∧ indexes m (group_by e_ScopeName g')) as Hscopes.
  { intros sc m' Hsc Hm' Hother h g' Hin'. rewrite group_by_snoc in Hin'.
    apply upsert_elem in Hin' as [[Hne' Hin']|[-> Hin']]; [| |apply group_by_nodup].
    - rewrite Hother by done. by apply Hs.
    - exists m'. split; [done|]. destruct Hin' as [(g0 & Hg0 & ->)|[Hno _]].
      + apply group_by_elem in Hg0 as [_ ->]. apply group_by_elem in Hin as [_ ->]. done.
      + exfalso. apply Hno, list_elem_of_fmap. by exists (resource_key e, g). }
  destruct (m !! e_ScopeName e) as [j|] eqn:Ej.
  - destruct (indexes_present _ _ _ _ Him Ej) as [sg Hsg].
    assert (rl_ScopeLogs (resource_group g) !! j = Some (scope_group (e_ScopeName e, sg))) as ->
      by (simpl; by rewrite list_lookup_fmap, Hsg).
    cbn [mbind option_bind]. eexists. split; [done|]. constructor; simpl; [|done|by eapply Hscopes].
    apply Hlogs. rewrite group_by_snoc.
    rewrite (upsert_present _ _ _ _ j sg) by (apply group_by_nodup || done). by rewrite list_fmap_insert, scope_group_snoc.
  - eexists. split; [done|]. constructor; simpl; [|done|].
    + apply Hlogs. rewrite group_by_snoc, upsert_absent by (by eapply indexes_absent). by rewrite fmap_app.
    + eapply Hscopes; [apply lookup_insert_eq| |intros h Hh; by apply lookup_insert_ne].
      by rewrite length_fmap.
Qed.

Lemma convert_entries_inv es :
  ∃ c, foldl (λ c e, c ← c; convert_entry HashResource c e) (Some no_logs) es = Some c ∧ conversion_inv c es.
Proof.
  induction es as [|e es (c & E & HI)] using rev_ind.
  - exists no_logs. split; [done|]. constructor; [done|intros k i; simpl; by rewrite lookup_empty, lookup_nil|].
    by intros h g ?%elem_of_nil.
  - rewrite foldl_app, E. simpl. destruct (resourceHashToIdx c !! resource_key e) eqn:Er;
      [by eapply convert_known_resource|by apply convert_new_resource].
Qed.
End conversion.

(** ** Back to the record *)

Section roundtrip.
Context `{PD : Pdata} `{RW : !PdataRaw PD} `{PB : !PdataBuild PD} `{FA : FormatAny}.

(** A raw value without nil and without internal keys. *)
Definition internal (k : string) : bool := has_prefix k InternalTempAttributePrefix.
Fixpoint clean (v : any) : bool :=
  match v with
  | ANil => false
  | AMap entries =>
      (fix go (t : list (string * any)) : bool :=
         match t with [] => true | (k, v) :: rest => negb (internal k) && clean v && go rest end) entries
  | ASlice items => (fix go (t : list any) : bool := match t with [] => true | v :: rest => clean v && go rest end) items
  | _ => true
  end.

Lemma value_roundtrip v : clean v = true → Value_AsRaw (upsertToAttributeVal v) = v.
Proof.
  induction v as [|s|z|x|b|s|entries IH|items IH] using any_ind'; intros Hc; simpl;
    [done|apply AsRaw_Str|apply AsRaw_Int|apply AsRaw_Double|apply AsRaw_Bool|apply AsRaw_Bytes| |].
  - rewrite AsRaw_Map. f_equal. simpl in Hc. induction IH as [|[k v] entries Hv _ IHe]; [done|].
    apply andb_prop in Hc as [[Hk Hcv]%andb_prop Hc]. apply negb_true_iff in Hk. unfold internal in Hk. rewrite Hk. simpl.
    simpl in Hv. rewrite (Hv Hcv). f_equal. exact (IHe Hc).
  - rewrite AsRaw_Slice. f_equal. simpl in Hc. induction IH as [|v items Hv _ IHi]; [done|].
    apply andb_prop in Hc as [Hcv Hc]. simpl. rewrite (Hv Hcv). f_equal. exact (IHi Hc).
Qed.

Definition clean_map (m : gmap string any) : Prop := map_Forall (λ k v, internal k = false ∧ clean v = true) m.
Lemma map_roundtrip m : clean_map m → Value_AsRaw <$> upsertToMap m = m.
Proof.
  intros H. apply map_eq. intros k. unfold upsertToMap. rewrite !lookup_fmap. destruct (m !! k) as [v|] eqn:E.
  - destruct (H k v E) as [Hk Hv].
    assert (filter (λ kv : string * any, has_prefix kv.1 InternalTempAttributePrefix = false) m !! k = Some v) as ->
      by by apply map_lookup_filter_Some.
    simpl. by rewrite value_roundtrip.
  - rewrite (proj2 (map_lookup_filter_None _ _ _)); [done|by left].
Qed.

Lemma pad_id_full n id : Strings.String.length id = n → pad_id n (Some id) = id.
Proof.
  intros <-. unfold pad_id. rewrite length_bytes, Nat.sub_diag. simpl. rewrite <-length_bytes, firstn_all. apply of_bytes_bytes.
Qed.
Lemma byte_val_zero c : byte_val c = 0 → c = "000"%char.
Proof. unfold byte_val. intros H. rewrite <-(ascii_N_embedding c). replace (N_of_ascii c) with 0%N by lia. done. Qed.
Lemma empty_id n id : Strings.String.length id = n → IsEmpty id = true → pad_id n None = id.
Proof.
  intros <- He. unfold IsEmpty in He. rewrite <-length_bytes. rewrite <-(of_bytes_bytes id) at 2. simpl. f_equal.
  induction (bytes id) as [|c l IH]; [done|]. simpl in He. apply andb_prop in He as [Hc Hl]. apply Z.eqb_eq in Hc.
  simpl. f_equal; [by rewrite (byte_val_zero c)|by apply IH].
Qed.
Lemma id_roundtrip n id :
  Strings.String.length id = n → pad_id n (if IsEmpty id then None else Some id) = id.
Proof. intros Hn. destruct (IsEmpty id) eqn:E; [by apply empty_id|by apply pad_id_full]. Qed.

Lemma severity_roundtrip n : 0 ≤ n ≤ 24 → sevMap (fromPdataSevMap n) = n.
Proof.
  intros H. assert (forallb (λ i, sevMap (fromPdataSevMap (Z.of_nat i)) =? Z.of_nat i) (seq 0 25) = true) as Hall
    by (vm_compute; reflexivity).
  rewrite forallb_forall in Hall. specialize (Hall (Z.to_nat n)). rewrite Z2Nat.id in Hall by lia.
  apply Z.eqb_eq, Hall, in_seq. lia.
Qed.
Lemma flags_roundtrip n :
  0 ≤ n →
  match (if n =? 0 then None else Some (String (ascii_of_N (Z.to_N (n mod 256))) "")) with
  | Some (String c _) => byte_val c | _ => 0
  end = n mod 256.
Proof.
  intros Hn. destruct (Z.eqb_spec n 0) as [->|]; [done|]. unfold byte_val. pose proof (Z.mod_pos_bound n 256).
  rewrite N_ascii_embedding by lia. lia.
Qed.

(** What a record holds that can be read back. *)
Record readable (lr : LogRecord) : Prop := {
  rd_time : 0 ≤ lr_Timestamp lr < two64;
  rd_observed : 0 ≤ lr_ObservedTimestamp lr < two64;
  rd_trace : Strings.String.length (lr_TraceID lr) = 16%nat;
  rd_span : Strings.String.length (lr_SpanID lr) = 8%nat;
  rd_flags : 0 ≤ lr_Flags lr;
  rd_severity : 0 ≤ lr_SeverityNumber lr ≤ 24;
  rd_body : clean (Value_AsRaw (lr_Body lr)) = true ∨ Value_AsRaw (lr_Body lr) = ANil;
  rd_attributes : clean_map (Value_AsRaw <$> lr_Attributes lr) }.

(** C27. A record that no operator touches has its times, ids, severity, body and attributes
    again. A missing observed time is the present, a missing text of the severity is its name,
    and of the flags there are the lowest eight bits. *)
Theorem untouched_record now scope resource lr :
  readable lr →
  let lr' := convertInto (convertFrom now scope resource lr) in
  lr_Timestamp lr' = lr_Timestamp lr
  ∧ lr_ObservedTimestamp lr' = (if lr_ObservedTimestamp lr =? 0 then u64 now else lr_ObservedTimestamp lr)
  ∧ lr_TraceID lr' = lr_TraceID lr ∧ lr_SpanID lr' = lr_SpanID lr
  ∧ lr_Flags lr' = lr_Flags lr mod 256
  ∧ lr_SeverityNumber lr' = lr_SeverityNumber lr
  ∧ lr_SeverityText lr' =
      (if decide (lr_SeverityText lr = "") then defaultSevTextMap (fromPdataSevMap (lr_SeverityNumber lr))
       else lr_SeverityText lr)
  ∧ Value_AsRaw (lr_Body lr') = Value_AsRaw (lr_Body lr)
  ∧ Value_AsRaw <$> lr_Attributes lr' = Value_AsRaw <$> lr_Attributes lr.
Proof.
  intros [Ht Ho Htr Hsp Hf Hsev Hb Ha]. unfold convertFrom. simpl. split_and!.
  - destruct (Z.eqb_spec (lr_Timestamp lr) 0) as [->|]; [done|]. by rewrite u64_i64, u64_small.
  - destruct (Z.eqb_spec (lr_ObservedTimestamp lr) 0) as [_|_]; [done|]. by rewrite u64_i64, u64_small.
  - by apply id_roundtrip.
  - by apply id_roundtrip.
  - by apply flags_roundtrip.
  - by apply severity_roundtrip.
  - done.
  - destruct Hb as [Hb|Hb]; [|by rewrite Hb, AsRaw_Empty]. rewrite <-(value_roundtrip _ Hb) at 2. f_equal.
    by destruct (Value_AsRaw (lr_Body lr)).
  - by apply map_roundtrip.
Qed.
End roundtrip.

(** ** What a batch keeps *)

Section survival.
Context `{PD : Pdata} `{RW : !PdataRaw PD} `{PB : !PdataBuild PD} `{FA : FormatAny}.
Context (HashResource : gmap string any → Z).

(** The records of a batch with the resource and the scope that they are under. *)
Definition placed (pl : Logs) : list (gmap string Value * string * LogRecord) :=
  pl ≫= λ rl, rl_ScopeLogs rl ≫= λ sl, (λ lr, (rl_Resource rl, sl_Name sl, lr)) <$> sl_LogRecords sl.
Definition placement (e : Entry) : gmap string Value * string * LogRecord := (upsertToMap (e_Resource e), e_ScopeName e, convertInto e).

Lemma placed_cons rl pl :
  placed (rl :: pl) = (rl_ScopeLogs rl ≫= λ sl, (λ lr, (rl_Resource rl, sl_Name sl, lr)) <$> sl_LogRecords sl) ++ placed pl.
Proof. done. Qed.
Lemma bind_perm_ext {A B} (f : A → list B) (l k : list A) : l ≡ₚ k → (l ≫= f) ≡ₚ (k ≫= f).
Proof. intros H. by apply bind_Permutation. Qed.

Lemma placed_group h g res :
  (∀ e, e ∈ g → resource_key HashResource e = h ∧ upsertToMap (e_Resource e) = res) → g ≠ [] →
  placed [resource_group g] ≡ₚ placement <$> g.
Proof.
  intros Hg Hne. rewrite placed_cons. cbn [placed mbind list_bind]. rewrite app_nil_r. unfold resource_group. cbn [rl_ScopeLogs rl_Resource].
  assert (default ∅ ((λ e, upsertToMap (e_Resource e)) <$> head g) = res) as ->.
  { destruct g as [|e g]; [done|]. apply Hg. left. }
  transitivity (placement <$> (group_by e_ScopeName g ≫= snd)); [|by rewrite group_by_perm].
  apply reflexive_eq. assert (∀ n sg, (n, sg) ∈ group_by e_ScopeName g → ∀ e, e ∈ sg → e_ScopeName e = n ∧ e ∈ g) as Hs.
  { intros n sg [_ ->]%group_by_elem e [<- He]%list_elem_of_filter. done. }
  induction (group_by e_ScopeName g) as [|[n sg] gs IH]; [done|]. rewrite fmap_cons, !bind_cons, fmap_app.
  rewrite IH by (intros ?????; eapply Hs; [by right|done]). f_equal. simpl. rewrite <-list_fmap_compose. apply list_fmap_ext.
  intros i e He%list_elem_of_lookup_2. destruct (Hs n sg ltac:(left) e He) as [<- Hin]. simpl. unfold placement.
  by rewrite (proj2 (Hg e Hin)).
Qed.

(** The records of a batch, and that there is one for each entry. *)
Definition records (pl : Logs) : list LogRecord := pl ≫= λ rl, rl_ScopeLogs rl ≫= sl_LogRecords.
Lemma records_grouped entries : records (grouped HashResource entries) ≡ₚ convertInto <$> entries.
Proof.
  rewrite <-(group_by_perm (resource_key HashResource) entries) at 2. unfold grouped.
  induction (group_by (resource_key HashResource) entries) as [|[h g] gs IH]; [done|].
  rewrite fmap_cons, bind_cons, fmap_app. unfold records at 1. rewrite bind_cons. fold (records ((λ g, resource_group g.2) <$> gs)). rewrite IH. f_equiv.
  simpl. rewrite <-(group_by_perm e_ScopeName g) at 2. generalize (group_by e_ScopeName g). intros sgs.
  induction sgs as [|[n sg] sgs IHs]; [done|]. rewrite fmap_cons, !bind_cons, fmap_app. by rewrite IHs.
Qed.
Lemma converted_records entries :
  ∃ pl, convertEntriesToPlogs HashResource entries = Some pl ∧ records pl ≡ₚ convertInto <$> entries.
Proof.
  unfold convertEntriesToPlogs. destruct (convert_entries_inv HashResource entries) as (c & -> & HI).
  exists (pLogs c). split; [done|]. rewrite (ci_logs _ _ _ HI). apply records_grouped.
Qed.

(** Whatever the operators made of the entries, the batch is built without a panic; it has one
    resource for each hash and in it one scope for each name, in the order in which they come
    first, and the records of a scope are in the order of the entries. *)
Theorem entries_grouped (entries : list Entry) :
  convertEntriesToPlogs HashResource entries = Some (grouped HashResource entries).
Proof.
  unfold convertEntriesToPlogs. destruct (convert_entries_inv HashResource entries) as (c & -> & HI). simpl.
  by rewrite (ci_logs _ _ _ HI).
Qed.

(** C26. Unless different resources have the same hash, each entry has one record in the batch, under
    its own resource and its own scope. *)
Theorem logs_survive (entries : list Entry) :
  (∀ e e', e ∈ entries → e' ∈ entries → HashResource (e_Resource e) = HashResource (e_Resource e') →
     e_Resource e = e_Resource e') →
  ∃ pl, convertEntriesToPlogs HashResource entries = Some pl ∧ placed pl ≡ₚ placement <$> entries.
Proof.
  intros Hinj. unfold convertEntriesToPlogs. destruct (convert_entries_inv HashResource entries) as (c & -> & HI).
  exists (pLogs c). split; [done|]. rewrite (ci_logs _ _ _ HI). unfold grouped.
  rewrite <-(group_by_perm (resource_key HashResource) entries) at 2.
  assert (∀ h g, (h, g) ∈ group_by (resource_key HashResource) entries →
            g ≠ [] ∧ ∃ res, ∀ e, e ∈ g → resource_key HashResource e = h ∧ upsertToMap (e_Resource e) = res) as Hg.
  { intros h g Hin. split; [by eapply group_nonempty|]. pose proof (group_nonempty _ _ _ _ Hin) as Hne.
    apply group_by_elem in Hin as [_ ->]. destruct (filter _ entries) as [|e0 es] eqn:E; [done|].
    assert (e0 ∈ filter (λ e, resource_key HashResource e = h) entries) as [H0 Hin0]%list_elem_of_filter by (rewrite E; left).
    exists (upsertToMap (e_Resource e0)). rewrite <-E. intros e [He Hin]%list_elem_of_filter. split; [done|]. f_equal.
    apply Hinj; [done..|]. unfold resource_key in *. congruence. }
  induction (group_by (resource_key HashResource) entries) as [|[h g] gs IH]; [done|].
  rewrite fmap_cons, bind_cons, fmap_app. destruct (Hg h g ltac:(left)) as (Hne & res & Hres).
  rewrite placed_cons. rewrite IH by (intros ???; eapply Hg; by right). f_equiv.
  pose proof (placed_group h g res Hres Hne) as H. rewrite placed_cons in H. cbn [placed mbind list_bind] in H.
  by rewrite app_nil_r in H.
Qed.
End survival.

(** ** The goroutines *)

Section pool.
Context `{PD : Pdata}.
Context (process : Entry → Entry).

Definition slot_of (e : Entry) (s : slot) : Prop := s = Pending e ∨ s = Running e ∨ s = Processed (process e).
Definition started (s : slot) : Prop := ∀ e, s ≠ Pending e.
(** The entries keep their places, those that are started come first, and no more than the
    limiter allows are running. *)
Definition pool_inv (concurrency : nat) (entries : list Entry) (st : list slot) : Prop :=
  Forall2 slot_of entries st
  ∧ (∃ done rest, st = done ++ (Pending <$> rest) ∧ Forall started done)
  ∧ (length (filter (λ s, is_running s = true) st) ≤ concurrency)%nat.

Lemma pending_not_running l : filter (λ s, is_running s = true) (Pending <$> l) = [].
Proof. induction l as [|e l IH]; [done|]. by rewrite fmap_cons, filter_cons_False. Qed.
Lemma started_or_pending st i s done rest :
  st = done ++ (Pending <$> rest) → Forall started done → st !! i = Some s →
  (started s ∧ (i < length done)%nat) ∨ ∃ e, s = Pending e.
Proof.
  intros -> Hd [Hi|[_ Hi]]%lookup_app_Some.
  - left. split; [by eapply Forall_lookup_1|by eapply lookup_lt_Some].
  - right. rewrite list_lookup_fmap in Hi. destruct (rest !! _) as [e|]; [|done]. exists e. by injection Hi.
Qed.
Lemma pool_inv_init n entries : pool_inv n entries (Pending <$> entries).
Proof.
  split_and!.
  - apply Forall2_fmap_r, Forall2_same_length_lookup_2; [done|]. intros i e e' H H'. left. congruence.
  - by exists [], entries.
  - rewrite pending_not_running. simpl. lia.
Qed.
Lemma split_pending (done' : list slot) e rest' done rest :
  done' ++ Pending e :: rest' = done ++ (Pending <$> rest) → Forall started done → Forall started done' →
  done' = done ∧ ∃ r, rest = e :: r ∧ rest' = Pending <$> r.
Proof.
  revert done. induction done' as [|s done' IH]; intros [|d done] H Hd Hd'; simpl in H.
  - destruct rest as [|e' r]; [done|]. injection H as -> ->. split; [done|]. by exists r.
  - injection H as <- _. apply Forall_cons in Hd as [Hd _]. by destruct (Hd e).
  - destruct rest as [|e' r]; [done|]. injection H as -> _. apply Forall_cons in Hd' as [Hd' _]. by destruct (Hd' e').
  - injection H as -> H. apply Forall_cons in Hd as [_ Hd]. apply Forall_cons in Hd' as [_ Hd'].
    destruct (IH _ H Hd Hd') as [-> Hr]. done.
Qed.
Lemma pool_inv_step n entries st st' : pool_inv n entries st → pool_step process n st st' → pool_inv n entries st'.
Proof.
  intros (Hf & (dn & rs & Hst & Hd) & Hc) Hstep. destruct Hstep as [done' e rest Hdone Hlt|pre e rest].
  - assert (Forall started done') as Hd'.
    { apply Forall_forall. intros s Hs e' ->. by destruct (Hdone _ Hs) as (e0 & [?|?]). }
    destruct (split_pending _ _ _ _ _ Hst Hd Hd') as (<- & r & -> & ->). split_and!.
    + apply Forall2_app_inv_r in Hf as (l1 & l2 & H1 & H2 & ->). apply Forall2_cons_inv_r in H2 as (e0 & l3 & H0 & H3 & ->).
      apply Forall2_app; [done|]. constructor; [|done]. destruct H0 as [[= ->]|[[=]|[=]]]. right. by left.
    + exists (done' ++ [Running e]), r. rewrite <-app_assoc. split; [done|]. apply Forall_app. split; [done|]. by constructor.
    + rewrite filter_app, filter_cons_True, pending_not_running, length_app by done. simpl. lia.
  - split_and!.
    + apply Forall2_app_inv_r in Hf as (l1 & l2 & H1 & H2 & ->). apply Forall2_cons_inv_r in H2 as (e0 & l3 & H0 & H3 & ->).
      apply Forall2_app; [done|]. constructor; [|done]. destruct H0 as [[=]|[[= ->]|[=]]]. right. by right.
    + assert ((pre ++ Running e :: rest) !! length pre = Some (Running e)) as Hi by (by rewrite list_lookup_middle).
      pose proof Hi as Hi'. rewrite Hst in Hi'. destruct (started_or_pending _ _ _ _ _ eq_refl Hd Hi') as [[_ Hlt]|[? [=]]].
      exists (<[length pre := Processed (process e)]> dn), rs. split; [|by apply Forall_insert].
      rewrite <-insert_app_l by done. rewrite <-Hst. by rewrite insert_app_r_alt, Nat.sub_diag by lia.
    + etransitivity; [|exact Hc]. rewrite !filter_app, !length_app, filter_cons_False, filter_cons_True by done. simpl. lia.
Qed.

(** A step uses up one of at most two for each entry. *)
Definition remaining (st : list slot) : nat :=
  sum_list_with (λ s, match s with Pending _ => 2 | Running _ => 1 | Processed _ => 0 end)%nat st.
Lemma pool_step_remaining n st st' : pool_step process n st st' → remaining st = S (remaining st').
Proof. intros [done e rest _ _|pre e rest]; unfold remaining; rewrite !sum_list_with_app; simpl; lia. Qed.

Lemma pool_inv_reachable n entries st :
  rtc (pool_step process n) (Pending <$> entries) st → pool_inv n entries st.
Proof.
  intros H. pose proof (pool_inv_init n entries) as HI. induction H as [|x y z Hxy _ IH]; [done|].
  by apply IH, (pool_inv_step _ _ _ _ HI).
Qed.
Lemma pool_progress n entries st :
  (0 < n)%nat → pool_inv n entries st → st = (Processed ∘ process <$> entries) ∨ ∃ st', pool_step process n st st'.
Proof.
  intros Hn (Hf & (dn & rs & Hst & Hd) & Hc).
  destruct (decide (Exists (λ s, is_running s = true) st)) as [Hr|Hr].
  - apply Exists_exists in Hr as (s & Hs & Hrun). destruct s as [|e|]; try done.
    apply list_elem_of_split in Hs as (pre & post & ->). right. eexists. apply pool_finish.
  - assert (filter (λ s, is_running s = true) st = []) as Hnone.
    { destruct (filter _ st) as [|s l] eqn:E; [done|]. exfalso. apply Hr, Exists_exists. exists s.
      assert (s ∈ filter (λ s, is_running s = true) st) as [? ?]%list_elem_of_filter by (rewrite E; left). done. }
    destruct rs as [|e rs].
    + left. rewrite app_nil_r in Hst. subst dn. clear -Hf Hd Hr. induction Hf as [|e s es st Hes _ IH]; [done|].
      apply Forall_cons in Hd as [Hs Hd]. rewrite Exists_cons in Hr. rewrite fmap_cons. f_equal; [|apply IH; tauto].
      destruct Hes as [->|[->| ->]]; [by destruct (Hs e)|exfalso; apply Hr; by left|done].
    + right. eexists. rewrite Hst. rewrite fmap_cons. apply pool_spawn.
      * intros s Hs. apply Forall_forall with (2 := Hs) in Hd. destruct s as [e'|e'|e']; [by destruct (Hd e')|by exists e'; left|by exists e'; right].
      * rewrite Hst, filter_app in Hnone. apply app_eq_nil in Hnone as [-> _]. simpl. lia.
Qed.

(** C28. With a limiter that has room for at least one, the goroutines come to an end in at most two
    steps for each entry, whichever runs first; then every entry is processed exactly once, in
    its place; and there are never more running than the limiter allows. *)
Theorem all_entries_processed n entries st :
  (0 < n)%nat → rtc (pool_step process n) (Pending <$> entries) st →
  (length (filter (λ s, is_running s = true) st) ≤ n)%nat
  ∧ (∀ k st', nsteps (pool_step process n) k st st' → (k ≤ 2 * length entries)%nat)
  ∧ (st = (Processed ∘ process <$> entries) ∨ ∃ st', pool_step process n st st')
  ∧ ∃ k, nsteps (pool_step process n) k st (Processed ∘ process <$> entries).
Proof.
  intros Hn Hrtc. pose proof (pool_inv_reachable _ _ _ Hrtc) as HI.
  assert (∀ k x y, nsteps (pool_step process n) k x y → remaining x = k + remaining y)%nat as Hk.
  { intros k x y H. induction H as [|k x y z Hxy _ IH]; [done|]. rewrite (pool_step_remaining _ _ _ Hxy). lia. }
  assert (remaining (Pending <$> entries) = 2 * length entries)%nat as H0.
  { clear. induction entries as [|e es IH]; [done|]. rewrite fmap_cons. unfold remaining in *. simpl in *. lia. }
  split_and!; [by apply HI| |by apply pool_progress|].
  - intros k st' H%Hk. apply rtc_nsteps in Hrtc as [j Hj%Hk]. lia.
  - clear Hrtc. remember (remaining st) as r eqn:Er. revert st HI Er. induction r as [|r IH]; intros st HI Er;
      (destruct (pool_progress n entries st Hn HI) as [->|[st' Hst']]; [exists 0%nat; constructor|]);
      pose proof (pool_step_remaining _ _ _ Hst') as Hr; [lia|].
    destruct (IH st') as [k Hsteps]; [by eapply pool_inv_step|lia|]. exists (S k). by econstructor.
Qed.
End pool.

(** ** Witnesses *)

Section witnesses.
#[local] Instance any_pdata : Pdata :=
  {| Value := any; Str v := match v with AStr s => s | _ => "" end; Int v := match v with AInt z => z | _ => 0 end;
     ParseTraceState _ := None |}.
#[local] Instance any_raw : PdataRaw any_pdata := {| Value_AsRaw v := v |}.
#[local] Instance any_format : FormatAny := {| Sprint _ := "<nil>" |}.
Lemma any_map_raw (l : list (string * any)) : AMap l = AMap ((λ kv, (kv.1, kv.2)) <$> l).
Proof. f_equal. induction l as [|[k v] l IH]; [done|]. by rewrite fmap_cons, <-IH. Qed.
Lemma any_slice_raw (l : list any) : ASlice l = ASlice ((λ v, v) <$> l).
Proof. by rewrite list_fmap_id. Qed.
#[local] Instance any_build : PdataBuild any_pdata :=
  {| New_Bool := ABool; New_Str := AStr; New_Int := AInt; New_Double := AFloat; New_Bytes := ABytes;
     New_Map := AMap; New_Slice := ASlice; New_Empty := ANil;
     AsRaw_Bool _ := eq_refl; AsRaw_Str _ := eq_refl; AsRaw_Int _ := eq_refl; AsRaw_Double _ := eq_refl;
     AsRaw_Bytes _ := eq_refl; AsRaw_Map := any_map_raw; AsRaw_Slice := any_slice_raw; AsRaw_Empty := eq_refl |}.

Definition w_lr : LogRecord :=
  {| lr_Timestamp := 2 ^ 63 + 5; lr_ObservedTimestamp := 0; lr_TraceID := "0123456789abcdef"; lr_SpanID := "01234567";
     lr_Flags := 257; lr_SeverityText := ""; lr_SeverityNumber := 17; lr_Body := AMap [("msg", AStr "failed"); ("code", AInt 5)];
     lr_Attributes := {[ "pid" := AInt 4 ]} |}.
Lemma untouched_record_witness :
  lr_Timestamp (convertInto (convertFrom 7 "lib" ∅ w_lr)) = 2 ^ 63 + 5
  ∧ lr_SeverityText (convertInto (convertFrom 7 "lib" ∅ w_lr)) = "ERROR".
Proof.
  destruct (untouched_record 7 "lib" ∅ w_lr) as (Ht & _ & _ & _ & _ & _ & Hs & _ & _).
  { split; [done|done|reflexivity|reflexivity|done|done|by left|].
    change (clean_map ((λ v : any, v) <$> ({[ "pid" := AInt 4 ]} : gmap string any))).
    unfold clean_map. rewrite map_fmap_singleton. by apply map_Forall_singleton. }
  split; [exact Ht|rewrite Hs; vm_compute; reflexivity].
Defined.

Definition w_entry (resource : string) (n : Z) : Entry :=
  {| e_Timestamp := Some n; e_ObservedTimestamp := n; e_Severity := Info; e_SeverityText := ""; e_Attributes := ∅; e_Body := AInt n;
     e_Resource := {[ "host" := AStr resource ]}; e_TraceID := None; e_SpanID := None; e_TraceFlags := None; e_ScopeName := "lib" |}.
Definition w_hash (m : gmap string any) : Z := match m !! "host" with Some (AStr s) => Z.of_nat (Strings.String.length s) | _ => 0 end.
Lemma logs_survive_witness :
  ∃ pl, convertEntriesToPlogs w_hash [w_entry "a" 1; w_entry "bb" 2; w_entry "a" 3] = Some pl ∧ length (placed pl) = 3%nat.
Proof.
  destruct (logs_survive w_hash [w_entry "a" 1; w_entry "bb" 2; w_entry "a" 3]) as (pl & E & Hp).
  - intros e e' He He'. rewrite !elem_of_cons, elem_of_nil in He, He'.
    destruct He as [->|[->|[->|[]]]]; destruct He' as [->|[->|[->|[]]]]; intros H; first [reflexivity|discriminate H].
  - exists pl. split; [exact E|]. by rewrite (Permutation_length Hp).
Defined.

Lemma all_entries_processed_witness :
  ∃ k, nsteps (pool_step id 2) k [Pending (w_entry "a" 1); Pending (w_entry "b" 2)]
         [Processed (w_entry "a" 1); Processed (w_entry "b" 2)].
Proof.
  destruct (all_entries_processed id 2 [w_entry "a" 1; w_entry "b" 2] [Pending (w_entry "a" 1); Pending (w_entry "b" 2)])
    as (_ & _ & _ & H); [lia|constructor|exact H].
Defined.
End witnesses.
