(* ===== verification/StanzaOperators.v ===== *)
(** * The operators of the logs pipelines

    src/processor/signozlogspipelineprocessor/stanza/operator: helper/transformer.go, parser.go,
    expr.go, trace.go and scope_name.go, and the operators noop, add, copy, move, remove, router,
    severity, trace, time, json and regex. An operator changes the entry in place and writes it
    to what comes after it. Fields, expressions and the outputs are interfaces. *)
From S2P Require Import Prelude GoText Pdata Sampling Flatten Utils ClickHouse LogsExporter Metering.
From S2P Require Import Severity LogsProcessor.

(** The fields of an entry: [Get] may keep the parsed body in the entry, and [Set] may fail.
    [ParseBodyJson] is that of body_field.go. *)
Class EntryFields := {
  Field : Type;
  NewBodyField : list string → Field;
  fld_String : Field → string;
  fld_Get : Field → Entry → option any * Entry;
  fld_Set : Field → any → Entry → Entry * option string;
  fld_Delete : Field → Entry → option any * Entry;
  ParseBodyJson : Entry → option any * Entry;
}.

(** The variables of an expression, and the programs of [expr]: the flag says whether a field
    of the body is read; a Boolean program yields a Boolean. *)
Record ExprEnv := {
  env_body : any; env_attributes : gmap string any; env_resource : gmap string any; env_timestamp : option Z;
  env_severity_text : string; env_severity_number : Z; env_trace_id : option string; env_span_id : option string;
  env_trace_flags : option string; env_body_map : option any }.
Class Expr := {
  Program : Type;
  vm_Run : Program → ExprEnv → result string any;
  vm_RunBool : Program → ExprEnv → result string bool;
  ExprCompile : string → result string (Program * bool);
  ExprCompileBool : string → result string (Program * bool);
}.

(** Where an entry is written: to the outputs of an operator, or to one of a route. *)
Inductive target := Outputs | RouteOutput (id : string).
(** The entry, and what was written so far. *)
Record op_run := { r_entry : Entry; r_writes : list (target * Entry) }.

Section operators.
Context `{FA : FormatAny} `{ST : SeverityText} `{EF : EntryFields} `{EX : Expr}.
(** What the outputs make of the entry, in place. *)
Context (downstream : target → Entry → Entry).

Definition with_entry (r : op_run) (e : Entry) : op_run := {| r_entry := e; r_writes := r_writes r |}.
Definition Write (to : target) (r : op_run) : op_run :=
  {| r_entry := downstream to (r_entry r); r_writes := r_writes r ++ [(to, r_entry r)] |}.

(** ** Expressions (expr.go) *)

(** The environment of an entry is put into one of the pool. *)
Definition GetExprEnv (pooled : ExprEnv) (e : Entry) (forExprWithBodyFieldRef : bool) : ExprEnv * Entry :=
  let '(body_map, e') := if forExprWithBodyFieldRef then ParseBodyJson e else (env_body_map pooled, e) in
  ({| env_body := e_Body e; env_attributes := e_Attributes e; env_resource := e_Resource e; env_timestamp := e_Timestamp e;
      env_severity_text := e_SeverityText e; env_severity_number := sevMap (e_Severity e); env_trace_id := e_TraceID e;
      env_span_id := e_SpanID e; env_trace_flags := e_TraceFlags e; env_body_map := body_map |}, e').

(** ** Transformers (transformer.go) *)

Record TransformerConfig := { c_OnError : string; c_IfExpr : string }.
Record TransformerOperator := { OnError : string; IfExpr : option Program; ifExprHasBodyFieldRef : bool }.

Definition SendOnError : string := "send".
Definition SendOnErrorQuiet : string := "send_quiet".
Definition DropOnError : string := "drop".
Definition DropOnErrorQuiet : string := "drop_quiet".
Definition NewTransformerConfig : TransformerConfig := {| c_OnError := SendOnError; c_IfExpr := "" |}.

Definition build_transformer (c : TransformerConfig) : result string TransformerOperator :=
  if bool_decide (c_OnError c ∈ [SendOnError; SendOnErrorQuiet; DropOnError; DropOnErrorQuiet]) then
    if decide (c_IfExpr c = "") then Ok {| OnError := c_OnError c; IfExpr := None; ifExprHasBodyFieldRef := false |}
    else
      match ExprCompileBool (c_IfExpr c) with
      | Err err => Err ("failed to compile expression '" +:+ c_IfExpr c +:+ "': " +:+ err)
      | Ok (compiled, hasBodyFieldRef) =>
          Ok {| OnError := c_OnError c; IfExpr := Some compiled; ifExprHasBodyFieldRef := hasBodyFieldRef |}
      end
  else Err "operator config has an invalid `on_error` field.".

Definition sends (t : TransformerOperator) : bool := bool_decide (OnError t = SendOnError ∨ OnError t = SendOnErrorQuiet).
Definition HandleEntryError (t : TransformerOperator) (r : op_run) (err : string) : op_run * option string :=
  (if sends t then Write Outputs r else r, Some err).

(** The environment of the pool that the expression gets. *)
Context (pooled : ExprEnv).

Definition Skip (t : TransformerOperator) (e : Entry) : result string bool * Entry :=
  match IfExpr t with
  | None => (Ok false, e)
  | Some program =>
      let '(env, e) := GetExprEnv pooled e (ifExprHasBodyFieldRef t) in
      match vm_RunBool program env with
      | Err err => (Err ("running if expr: " +:+ err), e)
      | Ok matches => (Ok (negb matches), e)
      end
  end.

Definition TransformFunction := Entry → Entry * option string.
Definition ProcessWith (t : TransformerOperator) (transform : TransformFunction) (r : op_run) : op_run * option string :=
  let '(skip, e) := Skip t (r_entry r) in
  let r := with_entry r e in
  match skip with
  | Err err => HandleEntryError t r err
  | Ok true => (Write Outputs r, None)
  | Ok false =>
      let '(e, err) := transform (r_entry r) in
      let r := with_entry r e in
      match err with
      | Some err => HandleEntryError t r err
      | None => (Write Outputs r, None)
      end
  end.

(** ** Traces and scopes (trace.go, scope_name.go) *)

Definition parseHexField (e : Entry) (field : Field) : option string * option string * Entry :=
  let '(value, e) := fld_Get field e in
  match value with
  | None => (None, None, e)
  | Some value =>
      match hex_decode (bytes (Sprint value)) with
      | Err err => (None, Some err, e)
      | Ok data => (Some (of_bytes data), None, e)
      end
  end.

Record TraceParser := { tp_TraceID : Field; tp_SpanID : Field; tp_TraceFlags : Field }.
(** A field that is not configured has the name of the id in the body. *)
Definition Validate_trace (TraceID SpanID TraceFlags : option Field) : TraceParser :=
  {| tp_TraceID := default (NewBodyField ["trace_id"]) TraceID; tp_SpanID := default (NewBodyField ["span_id"]) SpanID;
     tp_TraceFlags := default (NewBodyField ["trace_flags"]) TraceFlags |}.

Definition set_trace (e : Entry) (t s f : option string) : Entry :=
  {| e_Timestamp := e_Timestamp e; e_ObservedTimestamp := e_ObservedTimestamp e; e_Severity := e_Severity e;
     e_SeverityText := e_SeverityText e; e_Attributes := e_Attributes e; e_Body := e_Body e; e_Resource := e_Resource e;
     e_TraceID := t; e_SpanID := s; e_TraceFlags := f; e_ScopeName := e_ScopeName e |}.
Definition Parse_trace (t : TraceParser) : TransformFunction := λ e,
  let '(traceID, errTraceID, e) := parseHexField e (tp_TraceID t) in
  let e := set_trace e traceID (e_SpanID e) (e_TraceFlags e) in
  let '(spanID, errSpanID, e) := parseHexField e (tp_SpanID t) in
  let e := set_trace e (e_TraceID e) spanID (e_TraceFlags e) in
  let '(traceFlags, errTraceFlags, e) := parseHexField e (tp_TraceFlags t) in
  let e := set_trace e (e_TraceID e) (e_SpanID e) traceFlags in
  match errTraceID, errSpanID, errTraceFlags with
  | None, None, None => (e, None)
  | _, _, _ => (e, Some "Error decoding traces for logs")
  end.

Definition set_scope (e : Entry) (name : string) : Entry :=
  {| e_Timestamp := e_Timestamp e; e_ObservedTimestamp := e_ObservedTimestamp e; e_Severity := e_Severity e;
     e_SeverityText := e_SeverityText e; e_Attributes := e_Attributes e; e_Body := e_Body e; e_Resource := e_Resource e;
     e_TraceID := e_TraceID e; e_SpanID := e_SpanID e; e_TraceFlags := e_TraceFlags e; e_ScopeName := name |}.
Definition Parse_scope (ParseFrom : Field) : TransformFunction := λ e,
  let '(value, e) := fld_Get ParseFrom e in
  match value with
  | None => (e, Some "log entry does not have the expected parse_from field")
  | Some (AStr strVal) => (set_scope e strVal, None)
  | Some value =>
      let '(e, err) := fld_Set ParseFrom value e in
      (e, Some (match err with
                | Some err => "parse_from field does not contain a string: " +:+ err
                | None => "parse_from field does not contain a string"
                end))
  end.

(** The cases of a severity: the whole numbers of an entry are int64. *)
Definition sev_value_of (v : any) : sev_value :=
  match v with
  | AStr s => SString s
  | ABytes s => SBytes s
  | AFloat x => SFloat x
  | ANil => SNil
  | _ => SOther
  end.
Definition set_severity (e : Entry) (severity : Severity) (text : string) : Entry :=
  {| e_Timestamp := e_Timestamp e; e_ObservedTimestamp := e_ObservedTimestamp e; e_Severity := severity;
     e_SeverityText := text; e_Attributes := e_Attributes e; e_Body := e_Body e; e_Resource := e_Resource e;
     e_TraceID := e_TraceID e; e_SpanID := e_SpanID e; e_TraceFlags := e_TraceFlags e; e_ScopeName := e_ScopeName e |}.
Definition Parse_severity (ParseFrom : Field) (p : SeverityParser) : TransformFunction := λ e,
  let '(value, e) := fld_Get ParseFrom e in
  match Parse p (sev_value_of <$> value) with
  | Err err => (e, Some err)
  | Ok (severity, text) => (set_severity e severity text, None)
  end.

(** ** Parsers (parser.go) *)

Definition set_body (e : Entry) (body : any) : Entry :=
  {| e_Timestamp := e_Timestamp e; e_ObservedTimestamp := e_ObservedTimestamp e; e_Severity := e_Severity e;
     e_SeverityText := e_SeverityText e; e_Attributes := e_Attributes e; e_Body := body; e_Resource := e_Resource e;
     e_TraceID := e_TraceID e; e_SpanID := e_SpanID e; e_TraceFlags := e_TraceFlags e; e_ScopeName := e_ScopeName e |}.

(** The parser of times is a function on the entry. *)
Record ParserOperator := {
  p_transformer : TransformerOperator; p_ParseFrom : Field; p_ParseTo : Field; p_BodyField : option Field;
  p_TimeParser : option TransformFunction; p_SeverityParser : option (Field * SeverityParser);
  p_TraceParser : option TraceParser; p_ScopeNameParser : option Field }.
Definition ParseFunction := any → result string any.

(** [TimeParser.Validate] prepares the parser of times. *)
Record ParserConfig := {
  pc_transformer : TransformerConfig; pc_ParseFrom : Field; pc_ParseTo : Field; pc_BodyField : option Field;
  pc_TimeParser : option (result string TransformFunction); pc_Severity : option (Field * SeverityConfig);
  pc_TraceParser : option (option Field * option Field * option Field); pc_ScopeNameParser : option Field }.
Definition NewParserConfig (attributes : Field) : ParserConfig :=
  {| pc_transformer := NewTransformerConfig; pc_ParseFrom := NewBodyField []; pc_ParseTo := attributes; pc_BodyField := None;
     pc_TimeParser := None; pc_Severity := None; pc_TraceParser := None; pc_ScopeNameParser := None |}.
(** A part that may be missing is built if it is there. *)
Definition build_opt {A B} (build : A → result string B) (o : option A) : result string (option B) :=
  match o with None => Ok None | Some a => b ← build a; Ok (Some b) end.
Definition build_parser (c : ParserConfig) : result string ParserOperator :=
  t ← build_transformer (pc_transformer c);
  if bool_decide (is_Some (pc_BodyField c) ∧ fld_String (pc_ParseTo c) = fld_String (NewBodyField []))
  then Err "`parse_to: body` not allowed when `body` is configured"
  else
    time ← build_opt id (pc_TimeParser c);
    severity ← build_opt (λ fc, p ← Build fc.2; Ok (fc.1, p)) (pc_Severity c);
    Ok {| p_transformer := t; p_ParseFrom := pc_ParseFrom c; p_ParseTo := pc_ParseTo c; p_BodyField := pc_BodyField c;
          p_TimeParser := time; p_SeverityParser := severity;
          p_TraceParser := (λ fs, Validate_trace fs.1.1 fs.1.2 fs.2) <$> pc_TraceParser c;
          p_ScopeNameParser := pc_ScopeNameParser c |}.

(** One of the parsers that follow, if it is configured: the entry and the error. *)
Definition parse_opt (parser : option TransformFunction) (e : Entry) : Entry * option string :=
  match parser with Some parse => parse e | None => (e, None) end.
Definition first_error (l : list (string * option string)) : option string :=
  head (omap (λ ne, err ← ne.2; Some (ne.1 +:+ ": " +:+ err)) l).

Definition ParseWith (p : ParserOperator) (parse : ParseFunction) (r : op_run) : op_run * option string :=
  let t := p_transformer p in
  let '(value, e) := fld_Get (p_ParseFrom p) (r_entry r) in
  let r := with_entry r e in
  match value with
  | None => HandleEntryError t r "Entry is missing the expected parse_from field."
  | Some value =>
      match parse value with
      | Err err => HandleEntryError t r err
      | Ok newValue =>
          let '(e, err) := fld_Set (p_ParseTo p) newValue (r_entry r) in
          let r := with_entry r e in
          match err with
          | Some err => HandleEntryError t r ("set parse_to: " +:+ err)
          | None =>
              let e := match p_BodyField p with
                       | None => e
                       | Some field =>
                           let '(body, e) := fld_Get field e in
                           match body with Some body => set_body e body | None => e end
                       end in
              let '(e, timeParseErr) := parse_opt (p_TimeParser p) e in
              let '(e, severityParseErr) := parse_opt ((λ fp, Parse_severity fp.1 fp.2) <$> p_SeverityParser p) e in
              let '(e, traceParseErr) := parse_opt (Parse_trace <$> p_TraceParser p) e in
              let '(e, scopeNameParserErr) := parse_opt (Parse_scope <$> p_ScopeNameParser p) e in
              let r := with_entry r e in
              match first_error [("time parser", timeParseErr); ("severity parser", severityParseErr);
                                 ("trace parser", traceParseErr); ("scope_name parser", scopeNameParserErr)] with
              | Some err => HandleEntryError t r err
              | None => (r, None)
              end
          end
      end
  end.

Definition ProcessWithCallback (p : ParserOperator) (parse : ParseFunction) (cb : option TransformFunction) (r : op_run) :
    op_run * option string :=
  let t := p_transformer p in
  let '(skip, e) := Skip t (r_entry r) in
  let r := with_entry r e in
  match skip with
  | Err err => HandleEntryError t r err
  | Ok true => (Write Outputs r, None)
  | Ok false =>
      let '(r, err) := ParseWith p parse r in
      match err with
      | Some err => (r, Some err)
      | None =>
          let '(e, err) := parse_opt cb (r_entry r) in
          let r := with_entry r e in
          match err with
          | Some err => (r, Some err)
          | None => (Write Outputs r, None)
          end
      end
  end.

(** ** Operators *)

(** The value of add: a value, a program, or neither. *)
Inductive add_source := AddValue (v : any) | AddProgram (program : Program) (hasBodyFieldRef : bool).
Definition Transform_add (field : Field) (src : add_source) : TransformFunction := λ e,
  match src with
  | AddValue ANil => (e, Some "add: missing required field 'value'")
  | AddValue v => fld_Set field v e
  | AddProgram program ref =>
      let '(env, e) := GetExprEnv pooled e ref in
      match vm_Run program env with
      | Err err => (e, Some ("evaluate value_expr: " +:+ err))
      | Ok result => fld_Set field result e
      end
  end.
Definition isExpr (str : string) : bool := has_prefix str "EXPR(" && has_suffix str ")".
(** The text between the parentheses. *)
Definition trim_expr (str : string) : string :=
  let rest := drop 5 (bytes str) in
  of_bytes (if has_suffix (of_bytes rest) ")" then take (length rest - 1) rest else rest).
Definition build_add_source (value : any) : result string add_source :=
  match value with
  | AStr strVal =>
      if isExpr strVal then
        match ExprCompile (trim_expr strVal) with
        | Err err => Err ("failed to compile expression: " +:+ err)
        | Ok (compiled, ref) => Ok (AddProgram compiled ref)
        end
      else Ok (AddValue value)
  | _ => Ok (AddValue value)
  end.

Definition Transform_copy (From To : Field) : TransformFunction := λ e,
  let '(val, e) := fld_Get From e in
  match val with
  | None => (e, Some "copy: from field does not exist in this entry")
  | Some val => fld_Set To val e
  end.
Definition Transform_move (From To : Field) : TransformFunction := λ e,
  let '(val, e) := fld_Delete From e in
  match val with
  | None => (e, Some "move: field does not exist")
  | Some val => fld_Set To val e
  end.

Definition set_maps (e : Entry) (attributes resource : gmap string any) : Entry :=
  {| e_Timestamp := e_Timestamp e; e_ObservedTimestamp := e_ObservedTimestamp e; e_Severity := e_Severity e;
     e_SeverityText := e_SeverityText e; e_Attributes := attributes; e_Body := e_Body e; e_Resource := resource;
     e_TraceID := e_TraceID e; e_SpanID := e_SpanID e; e_TraceFlags := e_TraceFlags e; e_ScopeName := e_ScopeName e |}.
(** [rootableField]. *)
Inductive rootableField := AllResource | AllAttributes | OneField (field : Field).
Definition unmarshalCheckString (NewField : string → result string Field) (AttributesPrefix ResourcePrefix s : string) :
    result string rootableField :=
  if decide (s = ResourcePrefix) then Ok AllResource
  else if decide (s = AttributesPrefix) then Ok AllAttributes
  else field ← NewField s; Ok (OneField field).
Definition Get_rootable (f : rootableField) (e : Entry) : option any * Entry :=
  match f with OneField field => fld_Get field e | _ => (None, e) end.
Definition Transform_remove (f : rootableField) : TransformFunction := λ e,
  match f with
  | AllAttributes => (set_maps e ∅ (e_Resource e), None)
  | AllResource => (set_maps e (e_Attributes e) ∅, None)
  | OneField field =>
      let '(val, e) := fld_Delete field e in
      (e, match val with Some _ => None | None => Some "remove: field does not exist" end)
  end.

(** ** The router *)

(** [Attribute] labels an entry. *)
Record Route := {
  rt_Attribute : TransformFunction; rt_Expression : Program; rt_exprHasBodyFieldRef : bool; rt_OutputIDs : list string }.
Definition write_outputs (ids : list string) (r : op_run) : op_run := foldl (λ r id, Write (RouteOutput id) r) r ids.
(** The routes are tried in order in the environment of the entry as it came. *)
Fixpoint route_loop (env : ExprEnv) (routes : list Route) (r : op_run) : op_run * option string :=
  match routes with
  | [] => (r, None)
  | route :: rest =>
      match vm_RunBool (rt_Expression route) env with
      | Err _ => route_loop env rest r
      | Ok false => route_loop env rest r
      | Ok true =>
          let '(e, err) := rt_Attribute route (r_entry r) in
          let r := with_entry r e in
          match err with
          | Some err => (r, Some err)
          | None => (write_outputs (rt_OutputIDs route) r, None)
          end
      end
  end.
Definition Process_router (routes : list Route) (r : op_run) : op_run * option string :=
  let '(env, e) := GetExprEnv pooled (r_entry r) (existsb rt_exprHasBodyFieldRef routes) in
  route_loop env routes (with_entry r e).

Record RouteConfig := { rc_Attribute : TransformFunction; rc_Expression : string; rc_OutputIDs : list string }.
(** The default route comes last. *)
Definition build_routes (routes : list RouteConfig) (Default : option (list string)) : result string (list Route) :=
  let all := routes ++ match Default with
                       | Some ids => [{| rc_Attribute := λ e, (e, None); rc_Expression := "true"; rc_OutputIDs := ids |}]
                       | None => [] end in
  foldl (λ acc c, acc ← acc;
           match ExprCompileBool (rc_Expression c) with
           | Err err => Err ("failed to compile expression '" +:+ rc_Expression c +:+ "': " +:+ err)
           | Ok (compiled, ref) =>
               Ok (acc ++ [{| rt_Attribute := rc_Attribute c; rt_Expression := compiled; rt_exprHasBodyFieldRef := ref;
                              rt_OutputIDs := rc_OutputIDs c |}])
           end) (Ok []) all.
(** [SetOutputs]: every id is that of an operator. *)
Definition SetOutputs (operators : list string) (routes : list Route) : option string :=
  head (omap (λ id, if bool_decide (id ∈ operators) then None
                    else Some ("failed to set outputs on route: operator " +:+ id +:+ " does not exist"))
             (routes ≫= rt_OutputIDs)).
Definition GetOutputIDs (routes : list Route) : list string := routes ≫= rt_OutputIDs.

(** ** Processing *)

Inductive operator :=
| OpNoop
| OpTransform (t : TransformerOperator) (transform : TransformFunction)
| OpParser (p : ParserOperator) (parse : ParseFunction)
| OpRouter (routes : list Route).
Definition OpAdd t field src := OpTransform t (Transform_add field src).
Definition OpCopy t From To := OpTransform t (Transform_copy From To).
Definition OpMove t From To := OpTransform t (Transform_move From To).
Definition OpRemove t field := OpTransform t (Transform_remove field).
Definition OpSeverity t field p := OpTransform t (Parse_severity field p).
Definition OpTrace t p := OpTransform t (Parse_trace p).
Definition OpTime t (parse : TransformFunction) := OpTransform t parse.

Definition Process (op : operator) (r : op_run) : op_run * option string :=
  match op with
  | OpNoop => (Write Outputs r, None)
  | OpTransform t transform => ProcessWith t transform r
  | OpParser p parse => ProcessWithCallback p parse None r
  | OpRouter routes => Process_router routes r
  end.
(** [ProcessBatchWith]: each entry, and the errors. *)
Definition ProcessBatchWith (op : operator) (entries : list Entry) : list (op_run * option string) :=
  (λ e, Process op {| r_entry := e; r_writes := [] |}) <$> entries.
End operators.

Section chain.
Context `{FA : FormatAny} `{ST : SeverityText} `{EF : EntryFields} `{EX : Expr}.
Context (pooled : ExprEnv).
(** Operators one after the other: the output of each is the next one. *)
Fixpoint run_chain (ops : list operator) (e : Entry) : Entry :=
  match ops with
  | [] => e
  | op :: rest => r_entry (Process (λ _, run_chain rest) pooled op {| r_entry := e; r_writes := [] |}).1
  end.
End chain.
