(* ===== verification/StanzaOperatorsProps.v ===== *)
(** * What the operators of the logs pipelines do with an entry

    An entry is written at most once by an operator, and not at all only by one that drops;
    a chain of operators is run as far as the first that drops; and the ids of traces are read
    back from their texts. *)
From S2P Require Import Prelude GoText Pdata Sampling Flatten Utils Fingerprint ClickHouse LogsPipeline LogsExporter Metering.
From S2P Require Import Severity LogsProcessor LogsProcessorProps StanzaOperators.

Section writes.
Context `{FA : FormatAny} `{ST : SeverityText} `{EF : EntryFields} `{EX : Expr}.
Context (downstream : target → Entry → Entry) (pooled : ExprEnv).
Implicit Types (e : Entry) (r : op_run).

(** ** Operators without their outputs *)

(** What an operator makes of the entry, and its error. *)
Definition after_ok (m : Entry * option string) (f : Entry → Entry * option string) : Entry * option string :=
  match m.2 with Some _ => m | None => f m.1 end.
Definition in_context (what : string) (m : Entry * option string) : Entry * option string :=
  (m.1, (λ err, what +:+ ": " +:+ err) <$> m.2).
(** The parsers that follow all run; the first error counts. *)
Fixpoint all_parsers (l : list (string * option TransformFunction)) e : Entry * option string :=
  match l with
  | [] => (e, None)
  | (name, parser) :: rest =>
      let m := in_context name (parse_opt parser e) in
      let m' := all_parsers rest m.1 in
      (m'.1, match m.2 with Some err => Some err | None => m'.2 end)
  end.
Definition body_from (p : ParserOperator) e : Entry :=
  match p_BodyField p with
  | None => e
  | Some field => let m := fld_Get field e in match m.1 with Some body => set_body m.2 body | None => m.2 end
  end.
Definition parse_attempt (p : ParserOperator) (parse : ParseFunction) e : Entry * option string :=
  let m := fld_Get (p_ParseFrom p) e in
  match m.1 with
  | None => (m.2, Some "Entry is missing the expected parse_from field.")
  | Some value =>
      match parse value with
      | Err err => (m.2, Some err)
      | Ok newValue =>
          after_ok (in_context "set parse_to" (fld_Set (p_ParseTo p) newValue m.2)) (λ e,
            all_parsers [("time parser", p_TimeParser p);
                         ("severity parser", (λ fp, Parse_severity fp.1 fp.2) <$> p_SeverityParser p);
                         ("trace parser", Parse_trace <$> p_TraceParser p);
                         ("scope_name parser", Parse_scope <$> p_ScopeNameParser p)] (body_from p e))
      end
  end.
Definition guarded (t : TransformerOperator) (f : TransformFunction) e : Entry * option string :=
  match Skip pooled t e with
  | (Err err, e) => (e, Some err)
  | (Ok true, e) => (e, None)
  | (Ok false, e) => f e
  end.

Definition attempt (op : operator) e : Entry * option string :=
  match op with
  | OpNoop | OpRouter _ => (e, None)
  | OpTransform t transform => guarded t transform e
  | OpParser p parse => guarded (p_transformer p) (parse_attempt p parse) e
  end.
(** Whether the entry goes on after the attempt. *)
Definition sends_op (op : operator) : bool :=
  match op with OpNoop | OpRouter _ => true | OpTransform t _ => sends t | OpParser p _ => sends (p_transformer p) end.
Definition goes_on (op : operator) (err : option string) : bool :=
  match err with None => true | Some _ => sends_op op end.
Definition is_router (op : operator) : bool := match op with OpRouter _ => true | _ => false end.

Lemma first_error_parsers e (tp sp rp np : option TransformFunction) :
  all_parsers [("time parser", tp); ("severity parser", sp); ("trace parser", rp); ("scope_name parser", np)] e
  = (let '(e, terr) := parse_opt tp e in let '(e, serr) := parse_opt sp e in
     let '(e, rerr) := parse_opt rp e in let '(e, nerr) := parse_opt np e in
     (e, first_error [("time parser", terr); ("severity parser", serr); ("trace parser", rerr); ("scope_name parser", nerr)])).
Proof.
  unfold all_parsers, in_context. destruct (parse_opt tp e) as [e1 [x1|]]; cbn [fst snd];
  destruct (parse_opt sp e1) as [e2 [x2|]]; cbn [fst snd]; destruct (parse_opt rp e2) as [e3 [x3|]]; cbn [fst snd];
  destruct (parse_opt np e3) as [e4 [x4|]]; reflexivity.
Qed.
Lemma ParseWith_attempt p parse r :
  ParseWith downstream p parse r
  = (let '(e, err) := parse_attempt p parse (r_entry r) in
     match err with
     | Some err => HandleEntryError downstream (p_transformer p) (with_entry r e) err
     | None => (with_entry r e, None)
     end).
Proof.
  unfold ParseWith, parse_attempt. destruct (fld_Get (p_ParseFrom p) (r_entry r)) as [[value|] e1]; [|done]. cbn [fst snd].
  destruct (parse value) as [v|]; [|done]. cbn [with_entry r_entry].
  destruct (fld_Set (p_ParseTo p) v e1) as [e2 [err|]]; [done|]. unfold after_ok, in_context, body_from. cbn [fst snd fmap option_fmap option_map].
  rewrite first_error_parsers. destruct (p_BodyField p) as [field|].
  - destruct (fld_Get field e2) as [[body|] e3]; cbn [fst snd];
      repeat (match goal with |- context [parse_opt ?a ?b] => destruct (parse_opt a b) as [? ?] end);
      by destruct (first_error _).
  - repeat (match goal with |- context [parse_opt ?a ?b] => destruct (parse_opt a b) as [? ?] end).
    by destruct (first_error _).
Qed.

(** An operator other than the router writes the entry exactly once, when the attempt
    succeeded or its mode is to send, and otherwise not at all; it passes the error on. *)
Lemma process_attempt op r :
  is_router op = false →
  Process downstream pooled op r
  = (let '(e, err) := attempt op (r_entry r) in
     (if goes_on op err then Write downstream Outputs (with_entry r e) else with_entry r e, err)).
Proof.
  destruct op as [|t transform|p parse|routes]; intros Hr; [by destruct r| | |done]; cbn [Process attempt].
  - unfold ProcessWith, guarded. destruct (Skip pooled t (r_entry r)) as [[[]|err] e]; [done| |done].
    cbn [with_entry r_entry]. by destruct (transform e) as [e' [err|]].
  - unfold ProcessWithCallback, guarded. destruct (Skip pooled (p_transformer p) (r_entry r)) as [[[]|err] e]; [done| |done].
    rewrite ParseWith_attempt. cbn [with_entry r_entry]. by destruct (parse_attempt p parse e) as [e' [err|]].
Qed.

(** C29. Every operator but the router: an entry whose attempt succeeds is written exactly once; one
    whose attempt fails is written exactly once with a mode that sends, as far as it was
    changed, and never with a mode that drops; and the caller gets the error in both cases. *)
Theorem written_at_most_once op r :
  is_router op = false →
  let '(e, err) := attempt op (r_entry r) in
  let '(r', err') := Process downstream pooled op r in
  err' = err
  ∧ r_writes r' = r_writes r ++ (if goes_on op err then [(Outputs, e)] else [])
  ∧ r_entry r' = (if goes_on op err then downstream Outputs e else e).
Proof.
  intros Hr. rewrite process_attempt by done. destruct (attempt op (r_entry r)) as [e err].
  split; [done|]. destruct (goes_on op err); [done|]. by rewrite app_nil_r.
Qed.

Definition holds (env : ExprEnv) (route : Route) : bool :=
  match vm_RunBool (rt_Expression route) env with Ok b => b | Err _ => false end.
Lemma write_outputs_spec ids r :
  r_writes (write_outputs downstream ids r) =
  r_writes r ++ (fix go (ids : list string) (e : Entry) := match ids with
                 | [] => [] | id :: ids => (RouteOutput id, e) :: go ids (downstream (RouteOutput id) e) end) ids (r_entry r).
Proof.
  revert r. induction ids as [|id ids IH]; intros r; [by rewrite app_nil_r|].
  change (write_outputs downstream (id :: ids) r) with (write_outputs downstream ids (Write downstream (RouteOutput id) r)).
  rewrite IH. simpl. by rewrite <-app_assoc.
Qed.
Lemma write_outputs_targets ids r : (r_writes (write_outputs downstream ids r)).*1 = (r_writes r).*1 ++ (RouteOutput <$> ids).
Proof.
  revert r. induction ids as [|id ids IH]; intros r; [by rewrite app_nil_r|].
  change (write_outputs downstream (id :: ids) r) with (write_outputs downstream ids (Write downstream (RouteOutput id) r)).
  rewrite IH. simpl. rewrite fmap_app, <-app_assoc. done.
Qed.
(** The router writes to the outputs of the first route whose expression holds, each once and in
    order; an expression that fails is passed over; and without such a route, or with one
    whose labels fail, it writes nothing. *)
Theorem first_route_wins routes r :
  let '(env, e) := GetExprEnv pooled (r_entry r) (existsb rt_exprHasBodyFieldRef routes) in
  let '(r', err) := Process_router downstream pooled routes r in
  match list_find (λ route, holds env route = true) routes with
  | Some (_, route) =>
      err = (rt_Attribute route e).2
      ∧ (r_writes r').*1 = (r_writes r).*1 ++ match err with None => RouteOutput <$> rt_OutputIDs route | Some _ => [] end
  | None => r_writes r' = r_writes r ∧ err = None ∧ r_entry r' = e
  end.
Proof.
  unfold Process_router. destruct (GetExprEnv pooled (r_entry r) (existsb rt_exprHasBodyFieldRef routes)) as [env e].
  assert (∀ routes, let '(r', err) := route_loop downstream env routes (with_entry r e) in
    match list_find (λ route, holds env route = true) routes with
    | Some (_, route) =>
        err = (rt_Attribute route e).2
        ∧ (r_writes r').*1 = (r_writes r).*1 ++ match err with None => RouteOutput <$> rt_OutputIDs route | Some _ => [] end
    | None => r_writes r' = r_writes r ∧ err = None ∧ r_entry r' = e
    end) as H; [|exact (H routes)].
  clear routes. induction routes as [|route rest IH]; [done|]. cbn [route_loop list_find].
  destruct (decide (holds env route = true)) as [Hh|Hh]; unfold holds in Hh.
  - destruct (vm_RunBool (rt_Expression route) env) as [[]|]; [|done..]. cbn [with_entry r_entry].
    destruct (rt_Attribute route e) as [e' [err|]]; cbn [snd].
    + split; [done|]. by rewrite app_nil_r.
    + split; [done|]. by rewrite write_outputs_targets.
  - destruct (route_loop downstream env rest (with_entry r e)) as [r' err] eqn:E.
    destruct (vm_RunBool (rt_Expression route) env) as [[]|]; [done| |];
      by destruct (list_find _ rest) as [[i x]|].
Qed.
End writes.

(** ** Chains *)

Section chains.
Context `{FA : FormatAny} `{ST : SeverityText} `{EF : EntryFields} `{EX : Expr}.
Context (pooled : ExprEnv).

(** The attempts one after the other, as far as the first that does not let the entry go on. *)
Fixpoint attempts (ops : list operator) (e : Entry) : Entry :=
  match ops with
  | [] => e
  | op :: rest => let '(e, err) := attempt pooled op e in if goes_on op err then attempts rest e else e
  end.

(** A chain of operators is the sequence of their attempts as far as the first that drops; the
    entry keeps what was done until then. *)
Theorem chain_is_attempts ops e :
  Forall (λ op, is_router op = false) ops → run_chain pooled ops e = attempts ops e.
Proof.
  intros H. revert e. induction H as [|op ops Hop _ IH]; intros e; [done|]. cbn [run_chain attempts].
  rewrite process_attempt by done. cbn [r_entry]. destruct (attempt pooled op e) as [e' err].
  destruct (goes_on op err); [apply IH|done].
Qed.
End chains.

(** ** The ids of traces *)

Section trace.
Context `{FA : FormatAny} `{EF : EntryFields} `{PD : Pdata} `{RW : !PdataRaw PD} `{PB : !PdataBuild PD}.

(** The ids that a body or an attribute holds as lower-case hexadecimal texts are those of the
    record that the processor sends. *)
Theorem trace_ids_parsed (tp : TraceParser) e (traceID spanID : string) (flags : ascii) :
  (∀ v, Sprint (AStr v) = v) →
  (∀ f e, (fld_Get f e).2 = e) →
  (∀ t s g, (fld_Get (tp_TraceID tp) (set_trace e t s g)).1 = Some (AStr (EncodeToString traceID))) →
  (∀ t s g, (fld_Get (tp_SpanID tp) (set_trace e t s g)).1 = Some (AStr (EncodeToString spanID))) →
  (∀ t s g, (fld_Get (tp_TraceFlags tp) (set_trace e t s g)).1 = Some (AStr (EncodeToString (String flags "")))) →
  Strings.String.length traceID = 16%nat → Strings.String.length spanID = 8%nat →
  let '(e', err) := Parse_trace tp e in
  err = None ∧ lr_TraceID (convertInto e') = traceID ∧ lr_SpanID (convertInto e') = spanID
  ∧ lr_Flags (convertInto e') = byte_val flags.
Proof.
  intros HS Hpure HT HP HF Ht Hs. unfold Parse_trace.
  assert (∀ f e' id, fld_Get f e' = (Some (AStr (EncodeToString id)), e') → parseHexField e' f = (Some id, None, e')) as Hparse.
  { intros f e' id Hf. unfold parseHexField. rewrite Hf, HS, hex_decode_encode. by rewrite of_bytes_bytes. }
  assert (∀ f e' v, (fld_Get f e').1 = v → fld_Get f e' = (v, e')) as Hget.
  { intros f e' v <-. rewrite <-(Hpure f e') at 3. by destruct (fld_Get f e'). }
  assert (e = set_trace e (e_TraceID e) (e_SpanID e) (e_TraceFlags e)) as He by by destruct e.
  rewrite (Hparse (tp_TraceID tp) e traceID) by (apply Hget; rewrite He; apply HT). cbn [fst snd].
  rewrite (Hparse (tp_SpanID tp) _ spanID) by (apply Hget, HP). cbn [set_trace e_TraceID e_SpanID e_TraceFlags].
  rewrite (Hparse (tp_TraceFlags tp) _ (String flags "")) by (apply Hget; apply (HF (Some traceID) (Some spanID))).
  split; [done|]. split; [|split]; simpl; by apply pad_id_full || done.
Qed.
End trace.

(** ** Witnesses *)

Section witnesses.
Definition w_attributes (e : Entry) (m : gmap string any) : Entry := set_maps e m (e_Resource e).
#[local] Instance w_fields : EntryFields := {|
  Field := string; NewBodyField := join "."; fld_String f := f;
  fld_Get f e := (e_Attributes e !! f, e);
  fld_Set f v e := (w_attributes e (<[f := v]> (e_Attributes e)), None);
  fld_Delete f e := (e_Attributes e !! f, w_attributes e (delete f (e_Attributes e)));
  StanzaOperators.ParseBodyJson e := (None, e) |}.
#[local] Instance w_expr : Expr := {|
  Program := bool; vm_Run b _ := Ok (ABool b); vm_RunBool b _ := Ok b;
  ExprCompile _ := Err "unexpected token"; ExprCompileBool s := if decide (s = "true") then Ok (true, false) else Err "unexpected token" |}.
#[local] Instance w_text : FormatAny := {| Sprint v := match v with AStr s => s | _ => "<nil>" end |}.
#[local] Instance w_severity : SeverityText := {| Severity_String _ := ""; ToLower s := s |}.
Definition w_ops_entry : Entry :=
  {| e_Timestamp := None; e_ObservedTimestamp := 0; e_Severity := Info; e_SeverityText := ""; e_Attributes := {[ "a" := AStr "x" ]};
     e_Body := ANil; e_Resource := ∅; e_TraceID := None; e_SpanID := None; e_TraceFlags := None; e_ScopeName := "" |}.
Definition w_pooled : ExprEnv :=
  {| env_body := ANil; env_attributes := ∅; env_resource := ∅; env_timestamp := None; env_severity_text := ""; env_severity_number := 0;
     env_trace_id := None; env_span_id := None; env_trace_flags := None; env_body_map := None |}.
Definition w_mode (mode : string) : TransformerOperator := {| OnError := mode; IfExpr := None; ifExprHasBodyFieldRef := false |}.
(** A field that is not there is moved. *)
Definition w_move (mode : string) : operator := OpMove (w_mode mode) "b" "c".

Lemma written_at_most_once_witness :
  length (r_writes (Process (λ _ e, e) w_pooled (w_move "send") {| r_entry := w_ops_entry; r_writes := [] |}).1) = 1%nat
  ∧ length (r_writes (Process (λ _ e, e) w_pooled (w_move "drop") {| r_entry := w_ops_entry; r_writes := [] |}).1) = 0%nat.
Proof.
  pose proof (written_at_most_once (λ _ e, e) w_pooled (w_move "send") {| r_entry := w_ops_entry; r_writes := [] |} eq_refl) as H1.
  pose proof (written_at_most_once (λ _ e, e) w_pooled (w_move "drop") {| r_entry := w_ops_entry; r_writes := [] |} eq_refl) as H2.
  destruct (attempt w_pooled (w_move "send") _) as [e1 err1] eqn:E1. destruct (attempt w_pooled (w_move "drop") _) as [e2 err2] eqn:E2.
  destruct (Process _ _ (w_move "send") _) as [r1 x1]. destruct (Process _ _ (w_move "drop") _) as [r2 x2].
  destruct H1 as (_ & H1 & _). destruct H2 as (_ & H2 & _). injection E1 as _ <-. injection E2 as _ <-.
  change (fst (r1, x1)) with r1. change (fst (r2, x2)) with r2. rewrite H1, H2. split; reflexivity.
Defined.

Lemma chain_is_attempts_witness :
  run_chain w_pooled [w_move "drop"; OpCopy (w_mode "send") "a" "d"] w_ops_entry
  = attempts w_pooled [w_move "drop"; OpCopy (w_mode "send") "a" "d"] w_ops_entry.
Proof. apply chain_is_attempts. repeat constructor. Defined.

Lemma trace_ids_parsed_witness :
  let e := w_attributes w_ops_entry {[ "t" := AStr (EncodeToString "0123456789abcdef"); "s" := AStr (EncodeToString "01234567");
                                       "f" := AStr (EncodeToString "1") ]} in
  let '(e', err) := Parse_trace {| tp_TraceID := "t"; tp_SpanID := "s"; tp_TraceFlags := "f" |} e in
  err = None ∧ lr_TraceID (convertInto (PB := any_build) e') = "0123456789abcdef".
Proof.
  pose proof (trace_ids_parsed (PB := any_build) {| tp_TraceID := "t"; tp_SpanID := "s"; tp_TraceFlags := "f" |}
    (w_attributes w_ops_entry {[ "t" := AStr (EncodeToString "0123456789abcdef"); "s" := AStr (EncodeToString "01234567");
                                 "f" := AStr (EncodeToString "1") ]}) "0123456789abcdef" "01234567" "1"%char
    (λ _, eq_refl) (λ _ _, eq_refl) (λ _ _ _, eq_refl) (λ _ _ _, eq_refl) (λ _ _ _, eq_refl) eq_refl eq_refl) as H.
  cbv zeta. destruct (Parse_trace _ _) as [e' err]. destruct H as (H1 & H2 & _). split; [exact H1|exact H2].
Defined.
End witnesses.
