(* ===== verification/TimeParser.v ===== *)
(** * Times of log entries

    src/processor/signozlogspipelineprocessor/stanza/operator/helper: time.go, timeutils.go and
    ctimefmt/ctimefmt.go. A layout of directives becomes one of Go; a number or a text of
    seconds becomes a time. What needs the calendar and the time zones is an interface. *)
From S2P Require Import Prelude GoText Pdata Sampling Flatten Utils ClickHouse LogsExporter Metering.
From S2P Require Import Severity LogsProcessor StanzaOperators.
From Stdlib Require Import SpecFloat.

(** ** Directives (ctimefmt.go) *)

Definition ctime_newline : string := String (ascii_of_nat 10) "".
Definition tab : string := String (ascii_of_nat 9) "".
(** The substitutes, by the byte after the percent sign. *)
Definition ctimeSubstitutes (directive : ascii) : option string :=
  match String directive "" with
  | "Y" => Some "2006" | "y" => Some "06" | "m" => Some "01" | "o" => Some "_1" | "q" => Some "1"
  | "b" | "h" => Some "Jan" | "B" => Some "January" | "d" => Some "02" | "e" => Some "_2" | "g" => Some "2"
  | "a" => Some "Mon" | "A" => Some "Monday" | "H" => Some "15" | "l" => Some "3" | "I" => Some "03"
  | "p" => Some "PM" | "P" => Some "pm" | "M" => Some "04" | "S" => Some "05" | "L" => Some "999" | "f" => Some "999999"
  | "s" => Some "99999999" | "Z" => Some "MST" | "z" => Some "Z0700" | "w" => Some "-070000" | "i" => Some "-07"
  | "j" => Some "-07:00" | "k" => Some "-07:00:00" | "D" | "x" => Some "01/02/2006" | "F" => Some "2006-01-02"
  | "T" | "X" => Some "15:04:05" | "r" => Some "03:04:05 pm" | "R" => Some "15:04" | "n" => Some ctime_newline | "t" => Some tab
  | "%" => Some "%" | "c" => Some "Mon Jan 02 15:04:05 2006"
  | _ => None
  end.

Definition is_decimal (c : ascii) : bool := (48 <=? byte_val c) && (byte_val c <=? 57).
(** [ReplaceAllStringFunc] of [%.]: the text and the directives that are not known. A percent
    sign at the end or before a new line stays. *)
Fixpoint replace_directives (l : list ascii) : string * list ascii :=
  match l with
  | [] => ("", [])
  | c :: rest =>
      if Ascii.eqb c "%" then
        match rest with
        | [] => ("%", [])
        | d :: rest' =>
            if Ascii.eqb d (ascii_of_nat 10) then let '(s, errs) := replace_directives rest in (String c s, errs)
            else
              let '(s, errs) := replace_directives rest' in
              match ctimeSubstitutes d with Some subst => (subst +:+ s, errs) | None => (s, d :: errs) end
        end
      else let '(s, errs) := replace_directives rest in (String c s, errs)
  end.
Definition ToNative (format : string) : result string string :=
  if existsb is_decimal (bytes format) then Err "format string should not contain decimals"
  else let '(replaced, errs) := replace_directives (bytes format) in
       match errs with [] => Ok replaced | _ => Err "convert to go time format" end.
Definition StrptimeToGotime : string → result string string := ToNative.

(** ** Times *)

(** Seconds since 1970 (int64) and nanoseconds. *)
Abbreviation time := (Z * Z)%type.
Definition billion : Z := 1000000000.
(** [time.Unix]. *)
Definition Unix (sec nsec : Z) : time :=
  if (nsec <? 0) || (billion <=? nsec) then
    let n := Z.quot nsec billion in
    let sec := i64 (sec + n) in
    let nsec := nsec - n * billion in
    if nsec <? 0 then (i64 (sec - 1), nsec + billion) else (sec, nsec)
  else (sec, nsec).
Definition UnixNano (t : time) : Z := t.1 * billion + t.2.
(** [time.Time{}] is the first of January of the year 1. *)
Definition zero_time : time := (-62135596800, 0).

(** [time.ParseInLocation] with the name and the offset of the zone of its result,
    [time.LoadLocation], and the calendar. *)
Class GoTime := {
  Location : Type; UTC : Location; Local : Location;
  ParseInLocation : string → string → Location → time * (string * Z) * option string;
  LoadLocation : string → result string Location;
  Year : time → Z;
  Date_in_year : Z → time → time;
  AddDate : Z → Z → Z → time → time;
}.

Section times.
Context `{GT : GoTime}.

(** [Now], and what follows (timeutils.go). *)
Context (now : time).
Definition After (t u : time) : bool := UnixNano u <? UnixNano t.
Definition SetTimestampYear (t : time) : time :=
  if 0 <? Year t then t
  else let d := Date_in_year (Year now) t in
       if After d (AddDate 0 0 7 now) then AddDate (-1) 0 0 d else d.

Definition parseGotime (layout : string) (value : any) (location : Location) : result string time :=
  match value with
  | AStr str | ABytes str =>
      let '(result, (zone, offset), err) := ParseInLocation layout str location in
      let or_error := match err with Some err => Err err | None => Ok result end in
      if negb (offset =? 0) || bool_decide (zone = "UTC") then or_error
      else
        match LoadLocation zone with
        | Err locErr => Err ("failed to load location " +:+ zone +:+ ": " +:+ locErr)
        | Ok loc =>
            let '(resultLoc, _, locErr) := ParseInLocation layout str loc in
            match locErr with Some _ => or_error | None => Ok resultLoc end
        end
  | _ => Err "cannot be parsed as a time"
  end.
Definition ParseGotime (layout : string) (value : any) (location : Location) : result string time :=
  t ← parseGotime layout value location; Ok (SetTimestampYear t).
Definition ParseStrptime (layout : string) (value : any) (location : Location) : result string time :=
  goLayout ← ToNative layout; ParseGotime goLayout value location.
Definition GetLocation (location layout : option string) : result string Location :=
  match location with
  | Some loc =>
      if decide (loc = "") then Ok (if match layout with Some l => has_suffix l "Z" | None => false end then UTC else Local)
      else match LoadLocation loc with Err err => Err ("failed to load location " +:+ loc +:+ ": " +:+ err) | Ok l => Ok l end
  | None => Ok (if match layout with Some l => has_suffix l "Z" | None => false end then UTC else Local)
  end.
End times.

(** ** Epochs (time.go) *)

(** [%.pf] of a float: the nearest decimal with [prec] digits, an even one if there are two. *)
Definition round_scaled (m : positive) (e : Z) (prec : Z) : Z :=
  if 0 <=? e then Z.pos m * 2 ^ e * 10 ^ prec
  else
    let n := Z.pos m * 10 ^ prec in
    let d := 2 ^ (- e) in
    let q := n / d in
    let r := n mod d in
    if 2 * r <? d then q else if d <? 2 * r then q + 1 else if Z.even q then q else q + 1.
Definition zero_padded (k : nat) (z : Z) : list ascii :=
  replicate (k - length (bytes (FormatInt z))) "0"%char ++ bytes (FormatInt z).
Definition fixed_text (prec : nat) (neg : bool) (n : Z) : string :=
  (if neg then "-" else "") +:+ FormatInt (n / 10 ^ Z.of_nat prec) +:+ "." +:+
  of_bytes (zero_padded prec (n mod 10 ^ Z.of_nat prec)).
Definition Sprintf_fixed (prec : nat) (x : float64) : string :=
  match x with
  | S754_finite s m e => fixed_text prec s (round_scaled m e (Z.of_nat prec))
  | S754_zero s => fixed_text prec s 0
  | S754_infinity s => if s then "-Inf" else "+Inf"
  | S754_nan => "NaN"
  end.
(** [%10.pf]. *)
Definition pad_left (width : nat) (s : string) : string :=
  of_bytes (replicate (width - length (bytes s)) " "%char ++ bytes s).

Definition whole_layouts : list string := ["s"; "ms"; "us"; "ns"].
Definition split_layouts : list string := ["s.ms"; "s.us"; "s.ns"].
Definition layout_digits (layout : string) : nat :=
  if decide (layout = "s.ms") then 3 else if decide (layout = "s.us") then 6 else 9.
Definition subsecToNs (layout : string) : Z :=
  if decide (layout = "s.ms") then 1000000 else if decide (layout = "s.us") then 1000 else 1.

Definition getEpochStamp (layout : string) (value : any) : result string string :=
  match value with
  | AStr v | ABytes v => Ok v
  | AInt v =>
      if bool_decide (layout ∈ whole_layouts) then Ok (FormatInt v)
      else if bool_decide (layout ∈ split_layouts) then Ok (FormatInt v +:+ ".0")
      else Err "invalid layout"
  | AFloat v =>
      if bool_decide (layout ∈ whole_layouts) then Ok (FormatInt (int_of_float v))
      else if bool_decide (layout ∈ split_layouts) then Ok (pad_left 10 (Sprintf_fixed (layout_digits layout) v))
      else Err "invalid layout"
  | _ => Err "cannot be parsed as a time"
  end.

Definition toTime (layout : string) (i : Z) : time :=
  if decide (layout = "s") then Unix i 0
  else if decide (layout = "ms") then Unix (Z.quot i 1000) (Z.rem i 1000 * 1000000)
  else if decide (layout = "us") then Unix (Z.quot i 1000000) (Z.rem i 1000000 * 1000)
  else Unix 0 i.

Definition parseEpochTime (layout : string) (value : any) : result string time :=
  stamp ← getEpochStamp layout value;
  if bool_decide (layout ∈ whole_layouts) then
    match ParseInt stamp with None => Err "invalid value" | Some i => Ok (toTime layout i) end
  else if bool_decide (layout ∈ split_layouts) then
    match split_bytes "."%char (bytes stamp) with
    | [sec; subsec] =>
        match ParseInt (of_bytes sec), ParseInt (of_bytes subsec) with
        | Some sec, Some subsec => Ok (Unix sec (i64 (subsec * subsecToNs layout)))
        | _, _ => Err "invalid value"
        end
    | _ => Err "invalid value"
    end
  else Err "invalid layout".

(** ** The parser *)

Section parser.
Context `{GT : GoTime} `{EF : EntryFields}.
Context (now : time).

Definition StrptimeKey : string := "strptime".
Definition GotimeKey : string := "gotime".
Definition EpochKey : string := "epoch".
Definition NativeKey : string := "native".

Record TimeParser := {
  tm_ParseFrom : option Field; tm_Layout : string; tm_LayoutType : string; tm_Location : string; tm_location : option Location }.

Definition setLocation (t : TimeParser) : result string TimeParser :=
  let with_location l := {| tm_ParseFrom := tm_ParseFrom t; tm_Layout := tm_Layout t; tm_LayoutType := tm_LayoutType t;
                            tm_Location := tm_Location t; tm_location := Some l |} in
  if decide (tm_Location t = "") then Ok (with_location (if has_suffix (tm_Layout t) "Z" then UTC else Local))
  else match LoadLocation (tm_Location t) with
       | Err err => Err ("failed to load location " +:+ tm_Location t +:+ ": " +:+ err)
       | Ok loc => Ok (with_location loc)
       end.

Definition Validate_time (t : TimeParser) : result string TimeParser :=
  match tm_ParseFrom t with
  | None => Err "missing required parameter 'parse_from'"
  | Some _ =>
      if bool_decide (tm_Layout t = "" ∧ tm_LayoutType t ≠ NativeKey) then Err "missing required configuration parameter `layout`"
      else
        t ← (if decide (tm_LayoutType t = NativeKey ∨ tm_LayoutType t = GotimeKey) then Ok t
             else if decide (tm_LayoutType t = StrptimeKey) then
               match StrptimeToGotime (tm_Layout t) with
               | Err err => Err ("parse strptime layout: " +:+ err)
               | Ok layout => Ok {| tm_ParseFrom := tm_ParseFrom t; tm_Layout := layout; tm_LayoutType := GotimeKey;
                                    tm_Location := tm_Location t; tm_location := tm_location t |}
               end
             else if decide (tm_LayoutType t = EpochKey) then
               if bool_decide (tm_Layout t ∈ whole_layouts ++ split_layouts) then Ok t else Err "invalid `layout` for `epoch` type"
             else Err ("unsupported layout_type " +:+ tm_LayoutType t));
        if decide (tm_LayoutType t = GotimeKey) then
          match setLocation t with Err err => Err ("invalid 'location': " +:+ err) | Ok t => Ok t end
        else Ok t
  end.

Definition set_timestamp (e : Entry) (t : time) : Entry :=
  {| e_Timestamp := if decide (t = zero_time) then None else Some (UnixNano t); e_ObservedTimestamp := e_ObservedTimestamp e;
     e_Severity := e_Severity e; e_SeverityText := e_SeverityText e; e_Attributes := e_Attributes e; e_Body := e_Body e;
     e_Resource := e_Resource e; e_TraceID := e_TraceID e; e_SpanID := e_SpanID e; e_TraceFlags := e_TraceFlags e;
     e_ScopeName := e_ScopeName e |}.
(** No value of an entry is a [time.Time]. *)
Definition Parse_time (t : TimeParser) (field : Field) : TransformFunction := λ e,
  let '(value, e) := fld_Get field e in
  match value with
  | None => (e, Some "log entry does not have the expected parse_from field")
  | Some value =>
      let parsed :=
        if decide (tm_LayoutType t = NativeKey) then Err "native time.Time field required"
        else if decide (tm_LayoutType t = GotimeKey) then ParseGotime now (tm_Layout t) value (default Local (tm_location t))
        else if decide (tm_LayoutType t = EpochKey) then
          t ← parseEpochTime (tm_Layout t) value; Ok (SetTimestampYear now t)
        else Err ("unsupported layout type: " +:+ tm_LayoutType t) in
      match parsed with Err err => (e, Some err) | Ok timeValue => (set_timestamp e timeValue, None) end
  end.
End parser.

Example layout_example : ToNative "%Y-%m-%dT%H:%M:%S%z" = Ok "2006-01-02T15:04:05Z0700". Proof. reflexivity. Qed.
Example stamp_example : getEpochStamp "s.ms" (AFloat (float64_div (float64_of_int 3) (float64_of_int 2))) = Ok "     1.500".
Proof. vm_compute. reflexivity. Qed.
