(* ===== verification/TimeParserProps.v ===== *)
(** * What the parser of times promises

    Layouts of known directives are translated directive by directive; whole numbers of
    seconds and of parts of a second are exact; floats are exact to the digits of their
    layout, when their text is long enough. *)
From Stdlib Require Import DecimalString DecimalZ DecimalFacts SpecFloat.
From S2P Require Import Prelude GoText Pdata Sampling Flatten Utils ClickHouse LogsExporter Metering.
From S2P Require Import Severity LogsProcessor LogsProcessorProps StanzaOperators StanzaOperatorsProps TimeParser.

(** ** Layouts *)

Inductive token := Lit (c : ascii) | Dir (d : ascii).
Definition render (toks : list token) : string :=
  of_bytes (toks ≫= λ t, match t with Lit c => [c] | Dir d => ["%"%char; d] end).
Definition native (toks : list token) : string :=
  foldr (λ t s, match t with Lit c => String c s | Dir d => default "" (ctimeSubstitutes d) +:+ s end) "" toks.
Definition known (t : token) : bool := match t with Lit _ => true | Dir d => bool_decide (is_Some (ctimeSubstitutes d)) end.
Definition layout_token (t : token) : Prop :=
  match t with
  | Lit c => c ≠ "%"%char ∧ is_decimal c = false
  | Dir d => d ≠ ascii_of_nat 10 ∧ is_decimal d = false
  end.

(** A layout of directives and of other bytes is translated directive by directive, if all of
    them are known, and is an error otherwise. *)
Theorem layout_translated toks :
  Forall layout_token toks →
  match ToNative (render toks) with
  | Ok s => forallb known toks = true ∧ s = native toks
  | Err _ => forallb known toks = false
  end.
Proof.
  intros H. unfold ToNative, render. rewrite bytes_of_bytes.
  assert (existsb is_decimal (toks ≫= λ t, match t with Lit c => [c] | Dir d => ["%"%char; d] end) = false) as ->.
  { induction H as [|[c|d] toks [H1 H2] _ IH]; [done|..]; rewrite bind_cons; simpl; by rewrite H2, IH. }
  assert (let '(s, errs) := replace_directives (toks ≫= λ t, match t with Lit c => [c] | Dir d => ["%"%char; d] end) in
          (errs = [] ↔ forallb known toks = true) ∧ (errs = [] → s = native toks)) as Hr.
  { induction H as [|[c|d] toks [H1 _] _ IH]; [done|..]; rewrite bind_cons; cbn [app replace_directives].
    - rewrite (proj2 (Ascii.eqb_neq c "%")) by done. destruct (replace_directives _) as [s errs]. destruct IH as [IH1 IH2].
      split; [done|]. intros ->. simpl. by rewrite IH2.
    - cbn [Ascii.eqb Bool.eqb]. rewrite (proj2 (Ascii.eqb_neq d _)) by done.
      destruct (replace_directives (toks ≫= _)) as [s errs]. destruct IH as [IH1 IH2].
      change (forallb known (Dir d :: toks)) with (known (Dir d) && forallb known toks).
      change (native (Dir d :: toks)) with (default "" (ctimeSubstitutes d) +:+ native toks).
      unfold known at 1. destruct (ctimeSubstitutes d) as [subst|].
      + split; [done|]. intros He. by rewrite IH2.
      + done. }
  destruct (replace_directives _) as [s errs]. destruct Hr as [H1 H2]. destruct errs as [|d errs].
  - split; [by apply H1|by apply H2].
  - destruct (forallb known toks); [|done]. discriminate (proj2 H1 eq_refl).
Qed.

(** ** Epochs *)

Lemma Unix_total sec nsec :
  - 2 ^ 62 ≤ sec ≤ 2 ^ 62 → - 2 ^ 63 ≤ nsec < 2 ^ 63 →
  Unix sec nsec = ((sec * billion + nsec) / billion, (sec * billion + nsec) mod billion).
Proof.
  intros Hs Hn. unfold Unix, billion.
  assert (∀ a b, 0 ≤ b < 1000000000 → sec * 1000000000 + nsec = a * 1000000000 + b →
    (a, b) = ((sec * 1000000000 + nsec) / 1000000000, (sec * 1000000000 + nsec) mod 1000000000)) as Huniq.
  { intros a b Hb He. rewrite He. rewrite Z.div_add_l, Z.div_small by lia.
    rewrite (Z.add_comm (a * _) b), Z.mod_add, Z.mod_small by lia. f_equal. lia. }
  destruct ((nsec <? 0) || (1000000000 <=? nsec)) eqn:E.
  - assert (- 9223372037 ≤ Z.quot nsec 1000000000 ≤ 9223372037) as Hq by (Z.to_euclidean_division_equations; lia).
    rewrite (i64_small (sec + _)) by lia. destruct (Z.ltb_spec (nsec - Z.quot nsec 1000000000 * 1000000000) 0) as [Hlt|Hge].
    + rewrite i64_small by lia. apply Huniq; Z.to_euclidean_division_equations; lia.
    + apply Huniq; Z.to_euclidean_division_equations; lia.
  - apply Huniq; apply orb_false_iff in E as [E1 E2]; lia.
Qed.

(** The nanoseconds of a unit. *)
Definition unit_of (layout : string) : Z :=
  if decide (layout = "s") then billion else if decide (layout = "ms") then 1000000 else if decide (layout = "us") then 1000 else 1.

Lemma toTime_total layout z :
  layout ∈ whole_layouts → - 2 ^ 63 ≤ z < 2 ^ 63 →
  toTime layout z = (z * unit_of layout / billion, (z * unit_of layout) mod billion).
Proof.
  unfold whole_layouts. rewrite !elem_of_cons, elem_of_nil. intros Hl Hz.
  destruct Hl as [->|[->|[->|[->|[]]]]]; unfold toTime, unit_of; cbn [decide decide_rel String.eq_dec].
  - unfold Unix. simpl. by rewrite Z.div_mul, Z_mod_mult.
  - change (Unix (Z.quot z 1000) (Z.rem z 1000 * 1000000) = (z * 1000000 / billion, (z * 1000000) mod billion)).
    rewrite Unix_total by (Z.to_euclidean_division_equations; lia).
    replace (Z.quot z 1000 * billion + Z.rem z 1000 * 1000000) with (z * 1000000); [done|].
    unfold billion. Z.to_euclidean_division_equations; lia.
  - change (Unix (Z.quot z 1000000) (Z.rem z 1000000 * 1000) = (z * 1000 / billion, (z * 1000) mod billion)).
    rewrite Unix_total by (Z.to_euclidean_division_equations; lia).
    replace (Z.quot z 1000000 * billion + Z.rem z 1000000 * 1000) with (z * 1000); [done|].
    unfold billion. Z.to_euclidean_division_equations; lia.
  - change (Unix 0 z = (z * 1 / billion, (z * 1) mod billion)). rewrite Unix_total by lia.
    by rewrite Z.mul_0_l, Z.add_0_l, Z.mul_1_r.
Qed.

Lemma epoch_whole layout z :
  layout ∈ whole_layouts → - 2 ^ 63 ≤ z < 2 ^ 63 →
  parseEpochTime layout (AInt z) = Ok (z * unit_of layout / billion, (z * unit_of layout) mod billion).
Proof.
  intros Hl Hz. unfold parseEpochTime, getEpochStamp. rewrite bool_decide_eq_true_2 by done. cbn [mbind result_bind].
  rewrite ParseInt_FormatInt by done. by rewrite toTime_total.
Qed.

(** *** Texts with a dot *)

Lemma split_two (c : ascii) l r : c ∉ l → c ∉ r → split_bytes c (l ++ c :: r) = [l; r].
Proof.
  intros Hl Hr. assert (∀ s, c ∉ s → split_bytes c s = [s]) as Hnone.
  { induction s as [|d s IH]; [done|]. intros [Hd Hs]%not_elem_of_cons. rewrite split_bytes_cons by done. by rewrite IH. }
  induction l as [|d l IH]; simpl.
  - by rewrite Ascii.eqb_refl, Hnone.
  - apply not_elem_of_cons in Hl as [Hd Hl]. rewrite (proj2 (Ascii.eqb_neq d c)) by done. by rewrite IH.
Qed.
Lemma FormatInt_no_dot z : "."%char ∉ bytes (FormatInt z).
Proof. intros H%FormatInt_bytes. by apply (bool_decide_eq_true_2 _) in H. Qed.
Lemma zero_padded_no_dot k z : "."%char ∉ zero_padded k z.
Proof.
  unfold zero_padded. rewrite elem_of_app. intros [[? _]%elem_of_replicate|H]; [done|by apply FormatInt_no_dot in H].
Qed.

Lemma parse_digits_zero s z : parse_digits s = Some z → parse_digits (String "0" s) = Some z.
Proof.
  unfold parse_digits. destruct s as [|c s]; [done|]. unfold NilZero.uint_of_string at 1.
  change (NilZero.uint_of_string (String "0" (String c s)))
    with (match NilEmpty.uint_of_string (String c s) with Some d => Some (Decimal.D0 d) | None => None end).
  by destruct (NilEmpty.uint_of_string (String c s)).
Qed.
Lemma FormatInt_digits z : 0 ≤ z → parse_digits (FormatInt z) = Some z ∧ ∃ c s, FormatInt z = String c s ∧ c ≠ "+"%char ∧ c ≠ "-"%char.
Proof.
  intros Hz. unfold FormatInt. assert (∃ d, Z.to_int z = Decimal.Pos d ∧ d ≠ Decimal.Nil ∧ Z.of_uint d = z) as (d & E & Hd & Hv).
  { destruct z as [|p|p]; [by exists (Decimal.D0 Decimal.Nil)| |lia]. exists (Pos.to_uint p). split_and!; [done|apply Pos_to_uint_nonnil|].
    pose proof (DecimalZ.of_to (Z.pos p)) as H. exact H. }
  rewrite E. cbn [NilZero.string_of_int]. split; [by rewrite parse_digits_uint, Hv|].
  destruct (NilZero.string_of_uint d) as [|c s] eqn:Es.
  - apply parse_digits_uint in Hd. rewrite Es in Hd. done.
  - exists c, s. split; [done|]. by eapply string_of_uint_head.
Qed.
Lemma ParseInt_padded k z : 0 ≤ z < 2 ^ 63 → ParseInt (of_bytes (zero_padded k z)) = Some z.
Proof.
  intros Hz. destruct (FormatInt_digits z) as (Hd & c & s & Es & Hplus & Hminus); [lia|]. unfold zero_padded.
  generalize (k - length (bytes (FormatInt z)))%nat. intros j.
  assert (parse_digits (of_bytes (replicate j "0"%char ++ bytes (FormatInt z))) = Some z) as Hp.
  { induction j as [|j IH]; [|by apply parse_digits_zero]. change (parse_digits (of_bytes (bytes (FormatInt z))) = Some z).
    by rewrite of_bytes_bytes. }
  destruct j as [|j].
  - change (ParseInt (of_bytes (bytes (FormatInt z))) = Some z). rewrite of_bytes_bytes. apply ParseInt_FormatInt. lia.
  - change (of_bytes (replicate (S j) "0"%char ++ bytes (FormatInt z)))
      with (String "0" (of_bytes (replicate j "0"%char ++ bytes (FormatInt z)))) in *.
    unfold ParseInt. rewrite Hp. cbn [mbind option_bind].
    destruct (Z.leb_spec (- 2 ^ 63) z); [|lia]. destruct (Z.ltb_spec z (2 ^ 63)); [|lia]. done.
Qed.

(** *** Floats *)

Lemma bytes_fixed_text prec n :
  bytes (fixed_text prec false n)
  = bytes (FormatInt (n / 10 ^ Z.of_nat prec)) ++ "."%char :: zero_padded prec (n mod 10 ^ Z.of_nat prec).
Proof. unfold fixed_text. rewrite !bytes_app. cbn [bytes Strings.String.list_ascii_of_string app]. by rewrite bytes_of_bytes. Qed.

Lemma layout_scale layout :
  layout ∈ split_layouts →
  (layout_digits layout = 3 ∨ layout_digits layout = 6 ∨ layout_digits layout = 9)%nat
  ∧ subsecToNs layout * 10 ^ Z.of_nat (layout_digits layout) = billion ∧ 0 < subsecToNs layout
  ∧ bool_decide (layout ∈ whole_layouts) = false.
Proof.
  unfold split_layouts. rewrite !elem_of_cons, elem_of_nil. intros [->|[->|[->|[]]]]; (split_and!; [|reflexivity..]); vm_compute; auto.
Qed.

(** A positive float whose text fills the width of the layout is exact to the digits of the
    layout; [n] is the float in units of its last digit, rounded to the nearest. *)
Lemma epoch_float layout m e :
  let x := S754_finite false m e in
  let prec := layout_digits layout in
  let n := round_scaled m e (Z.of_nat prec) in
  layout ∈ split_layouts → 0 ≤ n < 2 ^ 62 → (10 ≤ length (bytes (Sprintf_fixed prec x)))%nat →
  parseEpochTime layout (AFloat x) = Ok (n * subsecToNs layout / billion, (n * subsecToNs layout) mod billion).
Proof.
  intros x prec n Hl Hn Hw. destruct (layout_scale layout Hl) as (Hp & Hs & Hpos & Hnw). fold prec in Hp, Hs.
  unfold parseEpochTime, getEpochStamp. rewrite Hnw. rewrite (bool_decide_eq_true_2 (layout ∈ split_layouts)) by done.
  cbn [mbind result_bind]. unfold pad_left. fold prec.
  replace (10 - length (bytes (Sprintf_fixed prec x)))%nat with 0%nat by lia. cbn [replicate app].
  rewrite of_bytes_bytes. change (Sprintf_fixed prec x) with (fixed_text prec false n). rewrite bytes_fixed_text.
  rewrite split_two by (apply FormatInt_no_dot || apply zero_padded_no_dot). rewrite of_bytes_bytes.
  set (P := 10 ^ Z.of_nat prec) in *. assert (0 < P ≤ 1000000000) as HP.
  { unfold P. destruct Hp as [->|[->| ->]]; lia. }
  pose proof (Z.mod_pos_bound n P). assert (0 ≤ n / P ≤ n) as Hdiv.
  { split; [apply Z.div_pos; lia|]. apply Z.div_le_upper_bound; nia. }
  rewrite ParseInt_FormatInt, ParseInt_padded by lia.
  assert (0 ≤ n mod P * subsecToNs layout < billion) as Hsub by nia.
  rewrite i64_small by (unfold billion in Hsub; lia). rewrite Unix_total by (unfold billion in *; lia).
  replace (n / P * billion + n mod P * subsecToNs layout) with (n * subsecToNs layout); [done|].
  rewrite <-Hs. pose proof (Z.div_mod n P). nia.
Qed.

(** A float whose text is shorter than ten bytes is refused: it is filled up with spaces. *)
Lemma short_float_refused layout x :
  layout ∈ split_layouts → (length (bytes (Sprintf_fixed (layout_digits layout) x)) < 10)%nat →
  ∃ err, parseEpochTime layout (AFloat x) = Err err.
Proof.
  intros Hl Hw. destruct (layout_scale layout Hl) as (_ & _ & _ & Hnw).
  unfold parseEpochTime, getEpochStamp. rewrite Hnw. rewrite (bool_decide_eq_true_2 (layout ∈ split_layouts)) by done.
  cbn [mbind result_bind]. unfold pad_left. rewrite bytes_of_bytes.
  destruct (10 - length (bytes (Sprintf_fixed (layout_digits layout) x)))%nat as [|j] eqn:E; [lia|]. cbn [replicate app].
  rewrite split_bytes_cons by done. destruct (split_bytes "." _) as [|seg [|seg' [|]]]; eauto.
  assert (∀ s, ParseInt (of_bytes (" "%char :: s)) = None) as ->; [|by eexists].
  intros s. unfold ParseInt, parse_digits. simpl. by destruct (NilEmpty.uint_of_string (of_bytes s)).
Qed.

(** ** To the record *)

Section record.
Context `{GT : GoTime} `{EF : EntryFields} `{PD : Pdata} `{RW : !PdataRaw PD} `{PB : !PdataBuild PD} `{FA : FormatAny}.

(** C31. A whole number of seconds, milliseconds, microseconds or nanoseconds since 1970, as long as
    it fits, is the exact time of the record that the processor sends. *)
Theorem epoch_timestamp now (t : TimeParser) field e z :
  (∀ u, 0 ≤ u.1 → 0 < Year u) →
  (fld_Get field e).1 = Some (AInt z) → tm_LayoutType t = EpochKey → tm_Layout t ∈ whole_layouts →
  0 ≤ z < 2 ^ 63 → z * unit_of (tm_Layout t) < two64 →
  let '(e', err) := Parse_time now t field e in
  err = None ∧ lr_Timestamp (convertInto e') = z * unit_of (tm_Layout t).
Proof.
  intros HY Hget Ht Hl Hz Hb. unfold Parse_time. destruct (fld_Get field e) as [v e']. cbn [fst] in Hget. subst v.
  rewrite Ht. rewrite decide_False by done. rewrite decide_False by done. rewrite decide_True by done.
  rewrite epoch_whole by (done || lia). cbn [mbind result_bind].
  assert (0 < unit_of (tm_Layout t)) as Hu by (unfold unit_of, billion; repeat case_decide; lia).
  set (n := z * unit_of (tm_Layout t)) in *. assert (0 ≤ n) by (unfold n; nia).
  unfold SetTimestampYear. destruct (Z.ltb_spec 0 (Year (n / billion, n mod billion))) as [_|Hy].
  2:{ exfalso. pose proof (HY (n / billion, n mod billion)) as HY'. cbn [fst] in HY'.
      assert (0 ≤ n / billion) by (apply Z.div_pos; unfold billion; lia). lia. }
  split; [done|]. unfold set_timestamp, convertInto. cbn [lr_Timestamp e_Timestamp].
  rewrite decide_False.
  - unfold UnixNano. cbn [fst snd]. rewrite Z.mul_comm, <-Z.div_mod by (unfold billion; lia). by apply u64_small.
  - intros [= H1 _]. assert (0 ≤ n / billion) by (apply Z.div_pos; unfold billion; lia). lia.
Qed.
End record.

(** ** What the texts of epochs do *)

(** The fraction of a text is a whole number of parts of a second, whatever its length, and the
    sign of the seconds is not that of the fraction. *)
Example text_fraction :
  parseEpochTime "s.ms" (AStr "1.5") = Ok (1, 5000000) ∧ parseEpochTime "s.ms" (AStr "1.500") = Ok (1, 500000000)
  ∧ parseEpochTime "s.ms" (AStr "-1.500") = Ok (-1, 500000000).
Proof. split_and!; vm_compute; reflexivity. Qed.

(** ** Witnesses *)

Section witnesses.
#[local] Existing Instance w_fields.
#[local] Existing Instance w_text.
#[local] Existing Instance any_pdata.
#[local] Existing Instance any_raw.
#[local] Existing Instance any_build.
#[local] Instance w_time : GoTime := {|
  Location := unit; UTC := (); Local := (); ParseInLocation _ _ _ := ((0, 0), ("UTC", 0), Some "parsing time");
  LoadLocation _ := Ok (); Year u := 1970 + u.1 / 31556952; Date_in_year _ u := u; AddDate _ _ _ u := u |}.
Lemma layout_translated_witness : ToNative (render [Dir "H"%char; Lit ":"%char; Dir "M"%char]) = Ok "15:04".
Proof.
  pose proof (layout_translated [Dir "H"%char; Lit ":"%char; Dir "M"%char]) as H.
  destruct (ToNative _) as [s|] eqn:E; [|discriminate H; repeat constructor; done].
  destruct H as [_ ->]; [repeat constructor; done|reflexivity].
Defined.
Lemma epoch_timestamp_witness :
  let t : TimeParser := {| tm_ParseFrom := Some "at"; tm_Layout := "ms"; tm_LayoutType := EpochKey; tm_Location := ""; tm_location := None |} in
  let e := w_attributes w_ops_entry {[ "at" := AInt 1700000000123 ]} in
  let '(e', err) := Parse_time (0, 0) t "at" e in
  err = None ∧ lr_Timestamp (convertInto e') = 1700000000123 * 1000000.
Proof.
  intros t e. assert (∀ u : Z * Z, 0 ≤ u.1 → 0 < Year u) as HY.
  { intros u Hu. simpl. assert (0 ≤ u.1 / 31556952) by (apply Z.div_pos; lia). lia. }
  assert (tm_Layout t ∈ whole_layouts) as Hl by (vm_compute; right; left).
  assert (0 ≤ 1700000000123 < 2 ^ 63) as Hz by lia.
  exact (epoch_timestamp (0, 0) t "at" e 1700000000123 HY eq_refl eq_refl Hl Hz eq_refl).
Defined.
End witnesses.
