(* ===== verification/Normalize.v ===== *)
(** * Normalizing log bodies

    src/processor/signozlogspipelineprocessor/stanza/operator/operators/normalize/transformer.go,
    on the store of maps of the body fields. A panic is [None]; the order in which Go runs
    through a map is an argument. *)
From S2P Require Import Prelude GoText StanzaField.

Definition MessageField : string := "message".
Definition msgCompatibleFields : list string := ["log"; "msg"].

Section normalize.
Context {other : Type}.
(** [json.Unmarshal] of [ParseBodyJson]; the decoder of the normalizer: what it put into the map
    and whether it failed; [utils.Unquote]; the kind of a value; [sonic.Marshal] and
    [fmt.Sprintf("%v")] of a value. *)
Context (Unmarshal : string → option (option (list (string * @json other)))).
Context (Decode : string → list (string * @json other) * bool).
Context (Unquote : string → string).
Context (kind_slice : other → bool).
Context (Marshal : @store other → @value other → result string string).
Context (Sprint : @store other → @value other → string).
Notation value := (@value other).
Notation store := (@store other).
Notation Entry := (@Entry other).

(** The operations of an entry on the fields of its body; [None] is a panic. *)
Definition get (key : string) (h : store) (e : Entry) : option (option value * store * Entry) := Get Unmarshal [key] h e.
Definition set (key : string) (v : value) (h : store) (e : Entry) : option (store * Entry) := Set_ [key] h e v.
Definition del (key : string) (h : store) (e : Entry) : store * Entry := let '(_, h, e) := Delete [key] h e in (h, e).

(** The text becomes a map: its members, or the text as the message. *)
Definition processTextLogs (str : string) (h : store) : option (option nat * store) :=
  let unquoted := Unquote str in
  let '(members, err) :=
    if has_prefix unquoted "{" && has_suffix unquoted "}" then Decode unquoted else ([], true) in
  let '(output, h) := alloc (JObject members) h in
  match output with
  | VMap m =>
      if err : bool then h ← write_map h m MessageField (VString str); Some (m, h)
      else Some (m, h)
  | _ => None
  end.

(** The loop over the keys of a message that is a map. *)
Fixpoint shift_keys (mapValue : option nat) (order : list string) (h : store) (e : Entry) : option (store * Entry) :=
  match order with
  | [] => Some (h, e)
  | key :: order =>
      match read_map h mapValue key with
      | None => shift_keys mapValue order h e
      | Some v => '(h, e) ← set key v h e; shift_keys mapValue order h e
      end
  end.

(** The first compatible field that holds a string becomes the message. *)
Fixpoint find_message (fields : list string) (h : store) (e : Entry) : option (store * Entry) :=
  match fields with
  | [] => Some (h, e)
  | field :: rest =>
      '(val, h, e) ← get field h e;
      match val with
      | Some (VString s) =>
          '(h, e) ← set MessageField (VString s) h e;
          Some (del field h e)
      | _ => find_message rest h e
      end
  end.

Definition lift_message (order : list string) (h : store) (e : Entry) : option (store * Entry) :=
  '(val, h, e) ← get MessageField h e;
  match val with
  | Some VNil => None
  | Some (VMap mapValue) =>
      '(h, e) ← shift_keys mapValue order h e;
      '(refetchedVal, h, e) ← get MessageField h e;
      match refetchedVal with
      | Some (VMap m) => if bool_decide (map_contents h m = ∅) then Some (del MessageField h e) else Some (h, e)
      | _ => Some (h, e)
      end
  | _ => Some (h, e)
  end.
Definition fill_message (h : store) (e : Entry) : option (store * Entry) :=
  '(val, h, e) ← get MessageField h e;
  match val with Some _ => Some (h, e) | None => find_message msgCompatibleFields h e end.
Definition stringify_message (h : store) (e : Entry) : option (store * Entry) :=
  '(val, h, e) ← get MessageField h e;
  match val with
  | None => Some (h, e)
  | Some VNil => None
  | Some v =>
      if match v with VBytes _ => true | VOther o => kind_slice o | _ => false end then
        match Marshal h v with
        | Err _ => Some (h, e)
        | Ok marshaled => set MessageField (VString marshaled) h e
        end
      else set MessageField (VString (Sprint h v)) h e
  end.
Definition normalize (order : list string) (h : store) (e : Entry) : option (store * Entry) :=
  '(h, e) ← lift_message order h e;
  '(h, e) ← fill_message h e;
  stringify_message h e.

(** [transform]: any other body is the message. *)
Definition transform (order : list string) (h : store) (e : Entry) : option (store * Entry) :=
  '(parsedValue, h) ←
    match Body e with
    | VString v => processTextLogs v h
    | VMap v => Some (v, h)
    | v => let '(l, h) := new_map h in h ← write_map h (Some l) MessageField v; Some (Some l, h)
    end;
  normalize order h {| Body := VMap parsedValue; Attributes := Attributes e |}.
End normalize.
