(* ===== verification/NormalizeProps.v ===== *)
(** * What normalizing a log body does

    A body that is a tree of maps has a text as its message afterwards, and keeps its other
    fields; a nil body and a nil message are panics. *)
From S2P Require Import Prelude GoText StanzaField Normalize.

Section normalize.
Context {other : Type}.
Context (Unmarshal : string → option (option (list (string * @json other)))).
Context (Decode : string → list (string * @json other) * bool).
Context (Unquote : string → string).
Context (kind_slice : other → bool).
Context (Marshal : @store other → @value other → result string string).
Context (Sprint : @store other → @value other → string).
Notation value := (@value other).
Notation store := (@store other).
Notation Entry := (@Entry other).
Notation get := (get Unmarshal).
Notation transform := (transform Unmarshal Decode Unquote kind_slice Marshal Sprint).
Notation normalize := (normalize Unmarshal kind_slice Marshal Sprint).
Implicit Types (h : store) (e : Entry) (v : value).

(** ** Fields of a body that is a map *)

Lemma get_map h e m key : Body e = VMap m → get key h e = Some (walk h (Body e) [key], h, e).
Proof. apply Get_map. Qed.

(** [h'] has [w] at the key, and elsewhere what [h] has. *)
Definition updated (key : string) (w : option value) h h' e : Prop :=
  tree h' (Body e) ∧ walk h' (Body e) [key] = w
  ∧ ∀ q, beside [key] q → walk h' (Body e) q = walk h (Body e) q.

Lemma beside_keys (k k' : string) q : k ≠ k' → beside [k] (k' :: q).
Proof. intros H. split; intros [l E]; simplify_list_eq; by destruct H. Qed.

Lemma set_map h e m key v :
  tree h (Body e) → Body e = VMap m → is_map v = false →
  ∃ h', set key v h e = Some (h', e) ∧ updated key (Some v) h h' e.
Proof.
  intros Ht Hb Hv. destruct (walk_defined h (Body e) [] m Ht) as (l & -> & _); [by rewrite Hb|].
  destruct (set_loop_spec [key] h (Body e) [] l v) as (h' & E & Ht' & Hat & Ho); [done|by rewrite Hb|done|done|].
  exists h'. split; [|by split_and!]. unfold set, Set_, isRoot, body_map.
  rewrite (bool_decide_eq_false_2 ([key] = [])), Hb by done. cbn [mbind option_bind]. rewrite E. by destruct v.
Qed.
Lemma del_map h e m key :
  tree h (Body e) → Body e = VMap m → ∃ h', del key h e = (h', e) ∧ updated key None h h' e.
Proof.
  intros Ht Hb. unfold del, Delete, isRoot. rewrite bool_decide_eq_false_2 by done.
  pose proof (delete_loop_spec [key] h (Body e) [] (Body e) Ht eq_refl ltac:(done)) as H.
  destruct (delete_loop h (Body e) [key]) as [r h']. destruct H as (_ & Ht' & Hat & Ho).
  exists h'. split; [done|]. split_and!; [done|done|]. intros q [Hq _]. by apply Ho.
Qed.

(** ** The message *)

Definition is_slice v : bool := match v with VBytes _ => true | VOther o => kind_slice o | _ => false end.
(** What a message that is neither nil nor a map becomes. *)
Definition message_text h v : value :=
  if is_slice v then match Marshal h v with Ok marshaled => VString marshaled | Err _ => v end else VString (Sprint h v).
Definition plain v : bool := match v with VNil | VMap _ => false | _ => true end.

Lemma stringify_spec h e m v :
  tree h (Body e) → Body e = VMap m → walk h (Body e) [MessageField] = Some v → v ≠ VNil →
  ∃ h', stringify_message Unmarshal kind_slice Marshal Sprint h e = Some (h', e) ∧ updated MessageField (Some (message_text h v)) h h' e.
Proof.
  intros Ht Hb Hw Hn. unfold stringify_message. rewrite (get_map _ _ _ _ Hb), Hw. cbn [mbind option_bind].
  assert (∀ w, is_map w = false → ∃ h', set MessageField w h e = Some (h', e) ∧ updated MessageField (Some w) h h' e) as Hset
    by (intros w Hm; by eapply set_map).
  assert (∃ h', (if is_slice v then match Marshal h v with Err _ => Some (h, e) | Ok marshaled => set MessageField (VString marshaled) h e end
                 else set MessageField (VString (Sprint h v)) h e) = Some (h', e)
                ∧ updated MessageField (Some (message_text h v)) h h' e) as (h' & E & Hu).
  { unfold message_text. destruct (is_slice v); [|by apply Hset]. destruct (Marshal h v); [by apply Hset|]. by exists h. }
  exists h'. split; [|done]. by destruct v.
Qed.

(** *** A message that is there *)

Lemma normalize_plain order h e m v :
  tree h (Body e) → Body e = VMap m → walk h (Body e) [MessageField] = Some v → plain v = true →
  ∃ h', normalize order h e = Some (h', e) ∧ updated MessageField (Some (message_text h v)) h h' e.
Proof.
  intros Ht Hb Hw Hp. unfold Normalize.normalize, lift_message, fill_message.
  rewrite (get_map _ _ _ _ Hb), Hw. cbn [mbind option_bind].
  destruct (stringify_spec h e m v) as (h' & E & Hu); [done|done|done|by intros ->|].
  exists h'. split; [|done]. destruct v; try done; cbn [mbind option_bind];
    rewrite (get_map _ _ _ _ Hb), Hw; cbn [mbind option_bind]; exact E.
Qed.

(** *** A message that is not there *)

Definition first_text h e : option (string * string) :=
  head (omap (λ f, match walk h (Body e) [f] with Some (VString s) => Some (f, s) | _ => None end) msgCompatibleFields).

(** The message comes from the first compatible field that has a text, which is removed; without
    one there is no message. The fields beside these are as in [h]. *)
Definition message_moved h e (r : option (store * Entry)) : Prop :=
  match first_text h e with
  | None => ∃ h', r = Some (h', e) ∧ updated MessageField None h h' e
  | Some (field, s) =>
      ∃ h' h'', r = Some (h', e) ∧ tree h' (Body e)
        ∧ walk h' (Body e) [MessageField] = Some (VString (Sprint h'' (VString s)))
        ∧ walk h' (Body e) [field] = None
        ∧ ∀ q, beside [MessageField] q → beside [field] q → walk h' (Body e) q = walk h (Body e) q
  end.

Lemma normalize_missing order h e m :
  tree h (Body e) → Body e = VMap m → walk h (Body e) [MessageField] = None →
  message_moved h e (normalize order h e) ∧ (first_text h e = None → normalize order h e = Some (h, e)).
Proof.
  intros Ht Hb Hw. unfold Normalize.normalize, lift_message, fill_message.
  rewrite (get_map _ _ _ _ Hb), Hw. cbn [mbind option_bind]. rewrite (get_map _ _ _ _ Hb), Hw. cbn [mbind option_bind].
  assert (∀ fields, Forall (λ f, f ≠ MessageField) fields →
    match head (omap (λ f, match walk h (Body e) [f] with Some (VString s) => Some (f, s) | _ => None end) fields) with
    | None => find_message Unmarshal fields h e = Some (h, e)
    | Some (field, s) =>
        ∃ h', find_message Unmarshal fields h e = Some (h', e) ∧ field ≠ MessageField
          ∧ tree h' (Body e) ∧ walk h' (Body e) [MessageField] = Some (VString s) ∧ walk h' (Body e) [field] = None
          ∧ ∀ q, beside [MessageField] q → beside [field] q → walk h' (Body e) q = walk h (Body e) q
    end) as Hfind.
  { induction 1 as [|f fields Hf _ IH]; [done|]. cbn [find_message omap list_omap].
    rewrite (get_map _ _ _ _ Hb). cbn [mbind option_bind].
    destruct (walk h (Body e) [f]) as [[|s| | |]|]; try exact IH. cbn [head].
    destruct (set_map h e m MessageField (VString s) Ht Hb eq_refl) as (h1 & E1 & Ht1 & Hat1 & Ho1).
    destruct (del_map h1 e m f Ht1 Hb) as (h2 & E2 & Ht2 & Hat2 & Ho2). exists h2. rewrite E1. cbn [mbind option_bind].
    rewrite E2. split_and!; [done|done|done| |done|].
    - rewrite Ho2; [done|]. by apply beside_keys.
    - intros q Hq Hq'. by rewrite Ho2, Ho1. }
  specialize (Hfind msgCompatibleFields). unfold message_moved, first_text. destruct (head _) as [[field s]|].
  - destruct Hfind as (h1 & -> & Hne & Ht1 & Hat1 & Hf1 & Ho1); [by repeat constructor|]. cbn [mbind option_bind].
    destruct (stringify_spec h1 e m (VString s)) as (h2 & E2 & Ht2 & Hat2 & Ho2); [done..|].
    split; [|done]. exists h2, h1. split_and!; [done|done|done| |].
    + rewrite Ho2; [done|]. apply beside_keys. done.
    + intros q Hq Hq'. by rewrite Ho2, Ho1.
  - rewrite Hfind by (by repeat constructor). cbn [mbind option_bind]. unfold stringify_message.
    rewrite (get_map _ _ _ _ Hb), Hw. split; [|done]. exists h. by split_and!.
Qed.

Lemma transform_map order h e m : Body e = VMap m → transform order h e = normalize order h e.
Proof. intros Hb. unfold Normalize.transform. rewrite Hb. cbn [mbind option_bind]. rewrite <-Hb. by destruct e. Qed.

(** A record without a body is a panic. *)
Theorem empty_body_panics order h e : Body e = VNil → transform order h e = None.
Proof.
  intros Hb. unfold Normalize.transform, new_map, write_map. rewrite Hb. cbn [mbind option_bind maps]. rewrite lookup_insert_eq.
  cbn [mbind option_bind]. unfold Normalize.normalize, lift_message.
  erewrite get_map by done. cbn [mbind option_bind walk Body]. unfold read_map. cbn [mbind option_bind maps].
  rewrite lookup_insert_eq. cbn [mbind option_bind]. rewrite lookup_insert_eq. done.
Qed.

(** *** A message that is a map *)

Lemma shift_spec order h e m mm :
  tree h (Body e) → Body e = VMap m → walk h (Body e) [MessageField] = Some (VMap mm) →
  (∀ k v, walk h (Body e) [MessageField; k] = Some v → is_map v = false ∧ k ≠ MessageField) →
  ∃ h', shift_keys mm order h e = Some (h', e) ∧ tree h' (Body e)
    ∧ (∀ q, walk h' (Body e) (MessageField :: q) = walk h (Body e) (MessageField :: q))
    ∧ (∀ k v, walk h (Body e) [MessageField; k] = Some v → k ∈ order → walk h' (Body e) [k] = Some v)
    ∧ ∀ k q, k ≠ MessageField → walk h (Body e) [MessageField; k] = None ∨ k ∉ order →
        walk h' (Body e) (k :: q) = walk h (Body e) (k :: q).
Proof.
  intros Ht Hb. revert h Ht. induction order as [|key order IH]; intros h Ht Hw Hin.
  { exists h. split_and!; [done..| |done]. intros k v _ []%not_elem_of_nil. }
  cbn [shift_keys]. assert (read_map h mm key = walk h (Body e) [MessageField; key]) as ->.
  { change [MessageField; key] with ([MessageField] ++ [key]). by rewrite walk_snoc, Hw. }
  destruct (walk h (Body e) [MessageField; key]) as [w|] eqn:Ew.
  - destruct (Hin _ _ Ew) as [Hv Hk]. destruct (set_map h e m key w Ht Hb Hv) as (h1 & E1 & Ht1 & Hat1 & Ho1).
    rewrite E1. cbn [mbind option_bind].
    assert (∀ q, walk h1 (Body e) (MessageField :: q) = walk h (Body e) (MessageField :: q)) as Hmsg
      by (intros q; apply Ho1; by apply beside_keys).
    destruct (IH h1 Ht1) as (h' & E' & Ht' & Hm' & Hs' & Ho'); [by rewrite Hmsg|intros k' v'; rewrite Hmsg; apply Hin|].
    exists h'. split_and!; [done|done|intros q; by rewrite Hm', Hmsg| |].
    + intros k v Hkv Hin'. destruct (decide (k ∈ order)); [apply Hs'; by rewrite ?Hmsg|].
      apply elem_of_cons in Hin' as [->|?]; [|done]. rewrite Ho' by auto. rewrite Hat1. congruence.
    + intros k q Hne Hk'. assert (key ≠ k) by (destruct Hk' as [Hk'|Hk']; [congruence|set_solver]).
      rewrite Ho', Ho1 by (done || by apply beside_keys || (rewrite Hmsg; set_solver)). done.
  - destruct (IH h Ht Hw Hin) as (h' & E' & Ht' & Hm' & Hs' & Ho'). exists h'. split_and!; [done..| |set_solver].
    intros k v Hkv [->|Hin']%elem_of_cons; [congruence|by eapply Hs'].
Qed.

Lemma map_contents_walk h e key mm k :
  walk h (Body e) [key] = Some (VMap mm) → walk h (Body e) [key; k] = map_contents h mm !! k.
Proof.
  intros Hw. change [key; k] with ([key] ++ [k]). rewrite walk_snoc, Hw. unfold read_map, map_contents.
  destruct mm as [l|]; cbn; [|symmetry; apply lookup_empty]. destruct (maps h !! l); [done|symmetry; apply lookup_empty].
Qed.

Lemma normalize_map order h e m mm :
  tree h (Body e) → Body e = VMap m → walk h (Body e) [MessageField] = Some (VMap mm) → map_contents h mm ≠ ∅ →
  (∀ k v, walk h (Body e) [MessageField; k] = Some v → is_map v = false ∧ k ≠ MessageField) →
  (∀ k v, walk h (Body e) [MessageField; k] = Some v → k ∈ order) →
  ∃ h' h'', normalize order h e = Some (h', e) ∧ tree h' (Body e)
    ∧ walk h' (Body e) [MessageField] = Some (VString (Sprint h'' (VMap mm)))
    ∧ (∀ k v, walk h (Body e) [MessageField; k] = Some v → walk h' (Body e) [k] = Some v)
    ∧ ∀ k q, k ≠ MessageField → walk h (Body e) [MessageField; k] = None → walk h' (Body e) (k :: q) = walk h (Body e) (k :: q).
Proof.
  intros Ht Hb Hw Hne Hin Hord. unfold Normalize.normalize, lift_message, fill_message.
  rewrite (get_map _ _ _ _ Hb), Hw. cbn [mbind option_bind].
  destruct (shift_spec order h e m mm Ht Hb Hw Hin) as (h1 & -> & Ht1 & Hm1 & Hs1 & Ho1). cbn [mbind option_bind].
  assert (walk h1 (Body e) [MessageField] = Some (VMap mm)) as Hw1 by by rewrite Hm1.
  rewrite (get_map _ _ _ _ Hb), Hw1. cbn [mbind option_bind]. rewrite bool_decide_eq_false_2.
  2:{ intros Hempty. destruct (map_choose _ Hne) as (k & v & Hk).
      rewrite <-(map_contents_walk _ _ _ _ _ Hw), <-Hm1, (map_contents_walk _ _ _ _ _ Hw1), Hempty, lookup_empty in Hk. done. }
  cbn [mbind option_bind]. rewrite (get_map _ _ _ _ Hb), Hw1. cbn [mbind option_bind].
  destruct (stringify_spec h1 e m (VMap mm)) as (h2 & E2 & Ht2 & Hat2 & Ho2); [done..|].
  exists h2, h1. split_and!; [done|done|done| |].
  - intros k v Hk. destruct (Hin _ _ Hk). rewrite Ho2 by by apply beside_keys. eauto.
  - intros k q Hk Hn. rewrite Ho2 by by apply beside_keys. auto.
Qed.

Lemma shift_empty mm order h e : map_contents h mm = ∅ → shift_keys mm order h e = Some (h, e).
Proof.
  intros He. induction order as [|k order IH]; [done|]. cbn [shift_keys]. unfold read_map, map_contents in *.
  destruct mm as [l|]; cbn in *; [|done]. destruct (maps h !! l) as [c|]; cbn in *; [|done]. subst c. rewrite lookup_empty. done.
Qed.

(** Without the message, a body is one whose message is missing. *)
Lemma normalize_empty order h e m mm :
  tree h (Body e) → Body e = VMap m → walk h (Body e) [MessageField] = Some (VMap mm) → map_contents h mm = ∅ →
  message_moved h e (normalize order h e).
Proof.
  intros Ht Hb Hw He. destruct (del_map h e m MessageField Ht Hb) as (h1 & E1 & Ht1 & Hat1 & Ho1).
  assert (normalize order h e = normalize order h1 e) as ->.
  { unfold Normalize.normalize, lift_message. rewrite !(get_map _ _ _ _ Hb), Hw, Hat1. cbn [mbind option_bind].
    rewrite shift_empty by done. cbn [mbind option_bind]. rewrite (get_map _ _ _ _ Hb), Hw. cbn [mbind option_bind].
    by rewrite bool_decide_eq_true_2, E1 by done. }
  destruct (normalize_missing order h1 e m Ht1 Hb Hat1) as [H1 _].
  assert (first_text h1 e = first_text h e) as Ef.
  { unfold first_text, msgCompatibleFields. cbn [omap list_omap]. by rewrite !Ho1 by by apply beside_keys. }
  unfold message_moved in *. rewrite Ef in H1. destruct (first_text h e) as [[field s]|].
  - destruct H1 as (h' & h'' & E & Ht' & Hm & Hf & Ho). exists h', h''. split_and!; [done..|].
    intros q Hq Hq'. by rewrite Ho, Ho1.
  - destruct H1 as (h' & E & Ht' & Hm & Ho). exists h'. split; [done|]. split_and!; [done..|]. intros q Hq. by rewrite Ho, Ho1.
Qed.
(** C30. What becomes of the message of a body that is a tree of maps. A message that is neither
    nil nor a map becomes a text. One that is missing, or an empty map, becomes the text of the
    first compatible field that has one, which is removed. One that is a map of values that are
    no maps, without a message in it, has its values put beside it, over what was there, and
    stays as the text of the map. All other fields stay as they were. A message that is nil is a
    panic. *)
Theorem body_normalized order h e m :
  tree h (Body e) → Body e = VMap m →
  match walk h (Body e) [MessageField] with
  | Some VNil => transform order h e = None
  | Some (VMap mm) =>
      (map_contents h mm = ∅ → message_moved h e (transform order h e))
      ∧ (map_contents h mm ≠ ∅ →
         (∀ k v, walk h (Body e) [MessageField; k] = Some v → is_map v = false ∧ k ≠ MessageField) →
         (∀ k v, walk h (Body e) [MessageField; k] = Some v → k ∈ order) →
         ∃ h' h'', transform order h e = Some (h', e) ∧ tree h' (Body e)
           ∧ walk h' (Body e) [MessageField] = Some (VString (Sprint h'' (VMap mm)))
           ∧ (∀ k v, walk h (Body e) [MessageField; k] = Some v → walk h' (Body e) [k] = Some v)
           ∧ ∀ k q, k ≠ MessageField → walk h (Body e) [MessageField; k] = None →
               walk h' (Body e) (k :: q) = walk h (Body e) (k :: q))
  | Some v => ∃ h', transform order h e = Some (h', e) ∧ updated MessageField (Some (message_text h v)) h h' e
  | None => message_moved h e (transform order h e) ∧ (first_text h e = None → transform order h e = Some (h, e))
  end.
Proof.
  intros Ht Hb. rewrite (transform_map _ _ _ _ Hb). destruct (walk h (Body e) [MessageField]) as [v|] eqn:Hw.
  - destruct v as [| | |mm|o]; try by eapply normalize_plain.
    + unfold Normalize.normalize, lift_message. by rewrite (get_map _ _ _ _ Hb), Hw.
    + split; [by eapply normalize_empty|by eapply normalize_map].
  - by eapply normalize_missing.
Qed.
End normalize.

(** ** Witnesses *)

Section witnesses.
Notation value := (@value unit).
(** A body whose message is a map, or is missing if there is nothing under it. *)
Definition w_store (top inner : gmap string value) : store := {| maps := {[ 0%nat := top; 1%nat := inner ]}; next := 2 |}.
Definition w_body : Entry := {| Body := VMap (other := unit) (Some 0%nat); Attributes := None |}.
Definition flat (mm : gmap string value) : Prop := ∀ k v, mm !! k = Some v → is_map v = false.

Lemma w_store_top top inner : maps (w_store top inner) !! 0%nat = Some top.
Proof. apply lookup_insert_eq. Qed.
Lemma w_store_inner top inner : maps (w_store top inner) !! 1%nat = Some inner.
Proof. simpl. rewrite lookup_insert_ne by done. apply lookup_singleton_eq. Qed.
Lemma w_refers top inner l a k :
  flat (delete MessageField top) → flat inner → (∀ v, top !! MessageField = Some v → is_map v = true → v = VMap (Some 1%nat)) →
  refers (w_store top inner) l a k → a = 0%nat ∧ k = MessageField ∧ l = 1%nat.
Proof.
  intros Ht Hi Hm (mm & Ha & Hk). simpl in Ha. destruct (decide (a = 0%nat)) as [->|Ha0].
  - rewrite lookup_insert_eq in Ha. injection Ha as <-. destruct (decide (k = MessageField)) as [->|Hne].
    + specialize (Hm _ Hk eq_refl). by injection Hm as ->.
    + specialize (Ht k (VMap (Some l))). rewrite lookup_delete_ne in Ht by done. by specialize (Ht Hk).
  - rewrite lookup_insert_ne in Ha by done. apply lookup_singleton_Some in Ha as [<- <-]. by specialize (Hi _ _ Hk).
Qed.
Lemma w_tree top inner :
  flat (delete MessageField top) → flat inner → (∀ v, top !! MessageField = Some v → is_map v = true → v = VMap (Some 1%nat)) →
  tree (w_store top inner) (Body w_body).
Proof.
  intros Ht Hi Hm. assert (∀ k v, top !! k = Some v → is_map v = true → k = MessageField ∧ v = VMap (Some 1%nat)) as Htop.
  { intros k v Hk Hv. destruct (decide (k = MessageField)) as [->|Hne]; [by split; [|apply Hm]|].
    specialize (Ht k v). rewrite lookup_delete_ne in Ht by done. by rewrite Ht in Hv. }
  split.
  - intros l [mm Hl]. simpl in *. destruct (decide (l = 0%nat)) as [->|]; [lia|]. rewrite lookup_insert_ne in Hl by done.
    apply lookup_singleton_Some in Hl as [<- _]. lia.
  - intros l a k (_ & _ & ->)%w_refers; [rewrite w_store_inner; by eexists|done..].
  - intros l a k a' k' (-> & -> & ->)%w_refers (-> & -> & _)%w_refers; done.
  - intros l [= <-]. rewrite w_store_top. split; [by eexists|]. by intros a k (_ & _ & ?)%w_refers.
  - intros [|k [|k' [|k'' p]]]; [done| | |]; cbn [walk Body w_body]; unfold read_map; cbn [mbind option_bind]; rewrite w_store_top;
      cbn [mbind option_bind]; destruct (top !! k) as [v|] eqn:E; cbn [mbind option_bind]; try done.
    + intros [= ->]. by destruct (Htop _ _ E eq_refl).
    + destruct v as [| | |m|] eqn:Ev; try done. destruct (Htop _ _ E eq_refl) as [_ [= ->]]. cbn [mbind option_bind].
      rewrite w_store_inner. cbn [mbind option_bind]. destruct (inner !! k') as [v'|] eqn:E'; [|done]. cbn [mbind option_bind].
      intros [= ->]. by specialize (Hi _ _ E').
    + destruct v as [| | |m|] eqn:Ev; try done. destruct (Htop _ _ E eq_refl) as [_ [= ->]]. cbn [mbind option_bind].
      rewrite w_store_inner. cbn [mbind option_bind]. destruct (inner !! k') as [v'|] eqn:E'; [|done]. cbn [mbind option_bind].
      specialize (Hi _ _ E'). by destruct v'.
Qed.

Definition w_log : gmap string value := {[ "log" := VString "started" ]}.
Lemma w_log_tree : tree (w_store w_log ∅) (Body w_body).
Proof.
  unfold w_log. apply w_tree.
  - intros k v [_ Hk]%lookup_delete_Some. apply lookup_singleton_Some in Hk as [_ <-]. done.
  - intros k v Hk. by rewrite lookup_empty in Hk.
  - intros v Hv. by apply lookup_singleton_Some in Hv as [? _].
Qed.

Lemma empty_body_panics_witness :
  transform (λ _, None) (λ _, ([], true)) id (λ _, false) (λ _ _, Err "") (λ _ _, "") []
    {| maps := ∅; next := 0 |} {| Body := VNil (other := unit); Attributes := None |} = None.
Proof. apply empty_body_panics. reflexivity. Defined.

Definition w_message : gmap string value := {[ MessageField := VMap (Some 1%nat); "level" := VString "info" ]}.
Definition w_inner : gmap string value := {[ "level" := VString "warn" ]}.
Lemma w_message_tree : tree (w_store w_message w_inner) (Body w_body).
Proof.
  unfold w_message, w_inner. apply w_tree.
  - intros k v [Hk Hv]%lookup_delete_Some. rewrite lookup_insert_ne in Hv by done.
    apply lookup_singleton_Some in Hv as [_ <-]. done.
  - intros k v Hk. apply lookup_singleton_Some in Hk as [_ <-]. done.
  - intros v Hv _. rewrite lookup_insert_eq in Hv. by injection Hv.
Qed.
Lemma w_message_values k v :
  walk (w_store w_message w_inner) (Body w_body) [MessageField; k] = Some v → v = VString "warn" ∧ k = "level".
Proof.
  assert (walk (w_store w_message w_inner) (Body w_body) [MessageField] = Some (VMap (Some 1%nat))) as Hw by (vm_compute; reflexivity).
  rewrite (map_contents_walk _ _ _ _ _ Hw). assert (map_contents (w_store w_message w_inner) (Some 1%nat) = w_inner) as -> by (vm_compute; reflexivity).
  unfold w_inner. intros [<- <-]%lookup_singleton_Some. done.
Qed.
Lemma body_normalized_witness :
  (∃ h', transform (λ _, None) (λ _, ([], true)) id (λ _, false) (λ _ _, Err "") (λ _ v, match v with VString s => s | _ => "map" end)
          [] (w_store w_log ∅) w_body = Some (h', w_body)
    ∧ walk h' (Body w_body) [MessageField] = Some (VString "started") ∧ walk h' (Body w_body) ["log"] = None)
  ∧ ∃ h', transform (λ _, None) (λ _, ([], true)) id (λ _, false) (λ _ _, Err "") (λ _ v, match v with VString s => s | _ => "map[level:warn]" end)
          ["level"] (w_store w_message w_inner) w_body = Some (h', w_body)
    ∧ walk h' (Body w_body) [MessageField] = Some (VString "map[level:warn]") ∧ walk h' (Body w_body) ["level"] = Some (VString "warn").
Proof.
  split.
  { pose proof (body_normalized (λ _, None) (λ _, ([], true)) id (λ _, false) (λ _ _, Err "")
    (λ _ v, match v with VString s => s | _ => "map" end) [] (w_store w_log ∅) w_body (Some 0%nat) w_log_tree eq_refl) as H.
  assert (walk (w_store w_log ∅) (Body w_body) [MessageField] = None) as Hw by (vm_compute; reflexivity). rewrite Hw in H.
  assert (first_text (w_store w_log ∅) w_body = Some ("log", "started")) as Hf by (vm_compute; reflexivity). rewrite Hf in H.
  destruct H as [(h' & h'' & H1 & _ & H2 & H3 & _) _]. exists h'. split; [exact H1|]. split; [exact H2|exact H3]. }
  pose proof (body_normalized (λ _, None) (λ _, ([], true)) id (λ _, false) (λ _ _, Err "")
    (λ _ v, match v with VString s => s | _ => "map[level:warn]" end) ["level"] (w_store w_message w_inner) w_body (Some 0%nat)
    w_message_tree eq_refl) as H.
  assert (walk (w_store w_message w_inner) (Body w_body) [MessageField] = Some (VMap (Some 1%nat))) as Hw by (vm_compute; reflexivity).
  rewrite Hw in H. destruct H as [_ H]. pose proof w_message_values as Hv.
  destruct H as (h' & h'' & H1 & _ & H2 & H3 & _).
  - intros He. assert (map_contents (w_store w_message w_inner) (Some 1%nat) !! "level" = Some (VString "warn")) as Hc by (vm_compute; reflexivity).
    rewrite He in Hc. discriminate Hc.
  - intros k v Hk. destruct (Hv k v Hk) as [-> ->]. split; [reflexivity|discriminate].
  - intros k v Hk. destruct (Hv k v Hk) as [_ ->]. left.
  - exists h'. split; [exact H1|]. split; [exact H2|]. apply H3. vm_compute. reflexivity.
Defined.
End witnesses.
