(* ===== verification/JsonParser.v ===== *)
(** * Flattening parsed JSON

    src/processor/signozlogspipelineprocessor/stanza/operator/operators/json: parser.go and
    config.go. A value is the tree that the decoder gives; the keys of a map are taken in
    order, and a later value of a key replaces an earlier one. *)
From S2P Require Import Prelude GoText Flatten.

Record json_parser := { enableFlattening : bool; maxFlatteningDepth : Z; enablePaths : bool; pathPrefix : string }.

Section parser.
(** [json.Unmarshal] into a map, and [utils.Unquote]. *)
Context (Unmarshal : string → result string (list (string * any))) (Unquote : string → string).
Context (p : json_parser).

(** A negative depth of the configuration is zero. *)
Definition build_json (c : json_parser) : json_parser :=
  {| enableFlattening := enableFlattening c;
     maxFlatteningDepth := if maxFlatteningDepth c <? 0 then 0 else maxFlatteningDepth c;
     enablePaths := enablePaths c; pathPrefix := pathPrefix c |}.

Definition generateKey (parent key : string) : string :=
  if enablePaths p && bool_decide (parent ≠ "") then parent +:+ "." +:+ key else key.

Definition key_ltb {A} (a b : string * A) : bool := Strings.String.ltb a.1 b.1.
(** The assignments to the destination, in order. *)
Fixpoint flatten_json (parent : string) (value : any) (depth : Z) : list (string * any) :=
  match value with
  | AMap mapped =>
      if maxFlatteningDepth p <? depth then [(parent, value)]
      else
        mbind snd (sort_slice key_ltb
          ((fix go (mapped : list (string * any)) : list (string * list (string * any)) :=
              match mapped with
              | [] => []
              | (key, v) :: rest => (key, flatten_json (generateKey parent key) v (depth + 1)) :: go rest
              end) mapped))
  | _ => [(parent, value)]
  end.

Definition parse_json (value : any) : result string any :=
  parsedValue ← (match value with
                 | AStr v => Unmarshal (Unquote v)
                 | AMap v => Ok v
                 | _ => Err "cannot be parsed as JSON"
                 end);
  if enableFlattening p
  then Ok (AMap (map_to_list (last_wins (flatten_json (pathPrefix p) (AMap parsedValue) 0))))
  else Ok (AMap parsedValue).

(** ** The leaves of a value *)

(** The values down to a depth with the keys that lead to them. *)
Fixpoint leaves_at (levels : nat) (value : any) : list (list string * any) :=
  match value, levels with
  | AMap mapped, S levels => mapped ≫= λ '(key, v), (λ pv, (key :: pv.1, pv.2)) <$> leaves_at levels v
  | _, _ => [([], value)]
  end.
Definition path_key (parent : string) (path : list string) : string := foldl generateKey parent path.

Lemma bind_snd_perm {A B} (l k : list (A * list B)) : l ≡ₚ k → (l ≫= snd) ≡ₚ (k ≫= snd).
Proof. intros H. by apply bind_Permutation. Qed.

Lemma flatten_leaves value : ∀ parent depth,
  0 ≤ depth →
  flatten_json parent value depth
  ≡ₚ (λ pv, (path_key parent pv.1, pv.2)) <$> leaves_at (Z.to_nat (maxFlatteningDepth p + 1 - depth)) value.
Proof.
  induction value as [| | | | | |mapped IH|] using any_ind'; intros parent depth Hd; try (by destruct (Z.to_nat _)).
  cbn [flatten_json]. destruct (Z.ltb_spec (maxFlatteningDepth p) depth) as [Hlt|Hge].
  - by replace (Z.to_nat (maxFlatteningDepth p + 1 - depth)) with 0%nat by lia.
  - replace (Z.to_nat (maxFlatteningDepth p + 1 - depth)) with (S (Z.to_nat (maxFlatteningDepth p + 1 - (depth + 1)))) by lia.
    rewrite (bind_snd_perm _ _ (sort_slice_perm _ _)). cbn [leaves_at].
    induction IH as [|[key v] mapped Hv _ IHm]; [done|]. simpl in Hv. rewrite !bind_cons, fmap_app, IHm. f_equiv. simpl.
    rewrite Hv by lia. rewrite <-list_fmap_compose. done.
Qed.

(** Unless two of them get the same key, the flattened value has every value of the tree down
    to the depth, under the keys that lead to it, and nothing else. *)
Theorem flattened_complete data :
  enableFlattening p = true →
  let leaves := (λ pv, (path_key (pathPrefix p) pv.1, pv.2)) <$> leaves_at (Z.to_nat (maxFlatteningDepth p + 1)) (AMap data) in
  NoDup leaves.*1 →
  ∃ m : gmap string any, parse_json (AMap data) = Ok (AMap (map_to_list m)) ∧ m = list_to_map leaves.
Proof.
  intros Hf leaves Hnd. unfold parse_json. cbn [mbind result_bind]. rewrite Hf. eexists. split; [done|].
  pose proof (flatten_leaves (AMap data) (pathPrefix p) 0 ltac:(lia)) as Hp.
  replace (maxFlatteningDepth p + 1 - 0) with (maxFlatteningDepth p + 1) in Hp by lia. fold leaves in Hp.
  unfold last_wins. symmetry. apply list_to_map_proper; [done|]. by rewrite reverse_Permutation, Hp.
Qed.
End parser.

Definition w_parser : json_parser := {| enableFlattening := true; maxFlatteningDepth := 1; enablePaths := true; pathPrefix := "json" |}.
Definition w_data : list (string * any) := [("b", AStr "x"); ("a", AMap [("c", AInt 1); ("d", AMap [("e", AInt 2)])])].
Lemma flattened_complete_witness :
  ∃ m : gmap string any, parse_json (λ _, Err "") id w_parser (AMap w_data) = Ok (AMap (map_to_list m))
    ∧ m !! "json.a.d" = Some (AMap [("e", AInt 2)]).
Proof.
  assert (NoDup ((λ pv, (path_key w_parser (pathPrefix w_parser) pv.1, pv.2)) <$>
            leaves_at (Z.to_nat (maxFlatteningDepth w_parser + 1)) (AMap w_data)).*1) as Hnd
    by (apply (bool_decide_eq_true_1 _); vm_compute; reflexivity).
  destruct (flattened_complete (λ _, Err "") id w_parser w_data eq_refl Hnd) as (m & H1 & H2).
  exists m. split; [exact H1|]. rewrite H2. vm_compute. reflexivity.
Defined.
