(* ===== verification/SpanCache.v ===== *)
(** * The dimension cache of the span metrics processor

    src/processor/signozspanmetricsprocessor/internal/cache/cache.go: an LRU cache that
    keeps what it evicts until the metrics of the current batch are built. The LRU cache is
    hashicorp/golang-lru's [simplelru], an interface here, with the behaviour it documents
    as laws; the eviction callback is what [Add] and [Purge] hand out. *)
From S2P Require Import Prelude.

(** ** [simplelru.LRUCache] *)

(** [lru_Add] and [lru_Purge] return the pairs they pass to the eviction callback. *)
Class SimpleLRU (K V : Type) := {
  LRUCache : Type;
  NewLRU : Z → option LRUCache;
  lru_Add : LRUCache → K → V → LRUCache * option (K * V);
  lru_Get : LRUCache → K → option V * LRUCache;
  lru_Contains : LRUCache → K → bool;
  lru_Len : LRUCache → Z;
  lru_Purge : LRUCache → LRUCache * list (K * V);
}.

(** [lru_ok n c]: [c] is a cache of capacity [n]; [lru_items c] is what it holds. *)
Class SimpleLRULaws (K V : Type) `{Countable K} (L : SimpleLRU K V) := {
  lru_ok : Z → LRUCache → Prop;
  lru_items : LRUCache → gmap K V;
  NewLRU_error n : n ≤ 0 → NewLRU n = None;
  NewLRU_ok n : 0 < n → ∃ c, NewLRU n = Some c ∧ lru_ok n c ∧ lru_items c = ∅;
  lru_Get_value n c k : lru_ok n c → (lru_Get c k).1 = lru_items c !! k;
  lru_Get_items n c k : lru_ok n c → lru_items (lru_Get c k).2 = lru_items c;
  lru_Get_ok n c k : lru_ok n c → lru_ok n (lru_Get c k).2;
  lru_Add_items n c k v : lru_ok n c →
    match lru_Add c k v with
    | (c', None) => lru_items c' = <[k := v]> (lru_items c)
    | (c', Some (k', v')) =>
        k' ≠ k ∧ lru_items c !! k' = Some v' ∧ lru_items c' = <[k := v]> (delete k' (lru_items c))
        ∧ Z.of_nat (size (lru_items c)) = n
    end;
  lru_Add_ok n c k v : lru_ok n c → lru_ok n (lru_Add c k v).1;
  lru_Contains_items n c k : lru_ok n c → lru_Contains c k = bool_decide (is_Some (lru_items c !! k));
  lru_Len_items n c : lru_ok n c → lru_Len c = Z.of_nat (size (lru_items c));
  lru_capacity n c : lru_ok n c → Z.of_nat (size (lru_items c)) ≤ n;
  lru_Purge_items n c : lru_ok n c → lru_items (lru_Purge c).1 = ∅;
  lru_Purge_ok n c : lru_ok n c → lru_ok n (lru_Purge c).1;
}.

(** ** [Cache] *)

Section cache.
Context {K V : Type} `{Countable K} {L : SimpleLRU K V}.

Record Cache := { lru : LRUCache; evictedItems : gmap K V }.

Definition NewCache (size : Z) : option Cache :=
  match NewLRU size with
  | Some c => Some {| lru := c; evictedItems := ∅ |}
  | None => None
  end.

Definition RemoveEvictedItems (c : Cache) : Cache := {| lru := lru c; evictedItems := ∅ |}.

(** The result says whether the call evicted. *)
Definition Add (c : Cache) (key : K) (value : V) : bool * Cache :=
  match lru_Add (lru c) key value with
  | (l, None) => (false, {| lru := l; evictedItems := evictedItems c |})
  | (l, Some (k', v')) => (true, {| lru := l; evictedItems := <[k' := v']> (evictedItems c) |})
  end.

Definition Get (c : Cache) (key : K) : option V * Cache :=
  match lru_Get (lru c) key with
  | (Some val, l) => (Some val, {| lru := l; evictedItems := evictedItems c |})
  | (None, l) =>
      match evictedItems c !! key with
      | Some val =>
          (Some val, (Add {| lru := l; evictedItems := delete key (evictedItems c) |} key val).2)
      | None => (None, {| lru := l; evictedItems := evictedItems c |})
      end
  end.

Definition Contains (c : Cache) (key : K) : bool := lru_Contains (lru c) key.
Definition Len (c : Cache) : Z := lru_Len (lru c).

Definition Purge (c : Cache) : Cache :=
  let '(l, gone) := lru_Purge (lru c) in
  RemoveEvictedItems {| lru := l;
    evictedItems := foldl (λ m kv, <[kv.1 := kv.2]> m) (evictedItems c) gone |}.

(** *** What the cache holds *)

Context {LL : SimpleLRULaws K V L}.

Definition live (c : Cache) : gmap K V := lru_items (lru c).
Definition known (c : Cache) : gmap K V := live c ∪ evictedItems c.

(** Nothing is both in the LRU cache and among the evicted items, and nothing was evicted
    unless the cache knows more items than its capacity. *)
Record cache_ok (n : Z) (c : Cache) : Prop := {
  cache_lru_ok : lru_ok n (lru c);
  cache_disjoint : live c ##ₘ evictedItems c;
  cache_tight : evictedItems c = ∅ ∨ n < Z.of_nat (size (known c));
}.

Lemma live_known c k v : live c !! k = Some v → known c !! k = Some v.
Proof. intros Hk. by apply lookup_union_Some_l. Qed.

Lemma NewCache_spec n :
  match NewCache n with
  | Some c => 0 < n ∧ cache_ok n c ∧ known c = ∅
  | None => n ≤ 0
  end.
Proof using LL.
  unfold NewCache. destruct (decide (0 < n)) as [Hn|Hn].
  - destruct (NewLRU_ok n Hn) as (l & -> & Hok & Hl). split_and!; [done| |].
    + split; [done|apply map_disjoint_empty_r|by left].
    + unfold known, live. simpl. by rewrite Hl, (left_id_L ∅ (∪)).
  - rewrite NewLRU_error by lia. lia.
Qed.

(** [Add] when the key is not known: an evicted item stays known, and the cache was full. *)
Lemma Add_core n c k v :
  lru_ok n (lru c) → live c ##ₘ evictedItems c → known c !! k = None →
  let c' := (Add c k v).2 in
  lru_ok n (lru c') ∧ live c' ##ₘ evictedItems c' ∧ known c' = <[k := v]> (known c)
  ∧ live c' !! k = Some v ∧ (evictedItems c' = evictedItems c ∨ n < Z.of_nat (size (known c'))).
Proof using LL.
  intros Hok Hd Hk. pose proof Hk as [Hkl Hke]%lookup_union_None.
  pose proof (lru_Add_items n (lru c) k v Hok) as Hi.
  pose proof (lru_Add_ok n (lru c) k v Hok) as Ho.
  assert (size (known c) = size (live c) + size (evictedItems c))%nat as Hsz
    by (unfold known; by rewrite map_size_disj_union).
  unfold Add. destruct (lru_Add (lru c) k v) as [l [[k' v']|]]; cbn [fst snd] in *; fold (live c) in *.
  - destruct Hi as (Hne & Hk' & Hl & Hfull).
    assert (evictedItems c !! k' = None) as Hek' by (by eapply map_disjoint_Some_l).
    set (c' := {| lru := l; evictedItems := <[k' := v']> (evictedItems c) |}).
    assert (known c' = <[k := v]> (known c)) as Hkn.
    { unfold known, live; simpl. rewrite Hl. fold (live c). apply map_eq. intros i.
      destruct (decide (i = k)) as [->|Hik].
      { rewrite lookup_insert_eq. apply lookup_union_Some_l, lookup_insert_eq. }
      rewrite (lookup_insert_ne (live c ∪ evictedItems c)) by done. rewrite !lookup_union, lookup_insert_ne by done.
      destruct (decide (i = k')) as [->|Hik'].
      * rewrite lookup_delete_eq, lookup_insert_eq, Hk', Hek'. done.
      * by rewrite lookup_delete_ne, lookup_insert_ne by done. }
    split_and!; [done| |done|unfold live; simpl; rewrite Hl; apply lookup_insert_eq|].
    + unfold live; simpl. rewrite Hl. fold (live c).
      apply map_disjoint_insert_l; split; [by rewrite lookup_insert_ne|].
      apply map_disjoint_insert_r; split; [by rewrite lookup_delete_eq|].
      by apply map_disjoint_delete_l.
    + right. rewrite Hkn, map_size_insert_None by done. lia.
  - split_and!; [done| | | |by left]; unfold known, live; simpl; rewrite Hi; fold (live c).
    + by apply map_disjoint_insert_l.
    + by rewrite insert_union_l.
    + apply lookup_insert_eq.
Qed.

(** Adding a key the cache does not know evicts at most one item, which stays known. *)
Lemma Add_spec n c k v :
  cache_ok n c → known c !! k = None →
  cache_ok n (Add c k v).2 ∧ known (Add c k v).2 = <[k := v]> (known c)
  ∧ live (Add c k v).2 !! k = Some v.
Proof using LL.
  intros [Hok Hd Ht] Hk. destruct (Add_core n c k v Hok Hd Hk) as (H1 & H2 & H3 & H4 & H5).
  split_and!; [|done|done]. split; [done|done|]. destruct H5 as [-> |]; [|by right].
  rewrite H3, map_size_insert_None by done. destruct Ht; [by left|right; lia].
Qed.

(** A lookup finds what the cache knows, and what it finds is live afterwards. *)
Lemma Get_spec n c k :
  cache_ok n c →
  (Get c k).1 = known c !! k ∧ cache_ok n (Get c k).2 ∧ known (Get c k).2 = known c
  ∧ live (Get c k).2 !! k = known c !! k.
Proof using LL.
  intros [Hok Hd Ht].
  pose proof (lru_Get_value n (lru c) k Hok) as Hv.
  pose proof (lru_Get_items n (lru c) k Hok) as Hi.
  pose proof (lru_Get_ok n (lru c) k Hok) as Ho.
  unfold Get. destruct (lru_Get (lru c) k) as [o l]; cbn [fst snd] in *. fold (live c) in Hv, Hi.
  set (c1 := {| lru := l; evictedItems := evictedItems c |}).
  assert (live c1 = live c) as Hl1 by done. assert (known c1 = known c) as Hk1 by (unfold known; by rewrite Hl1).
  assert (cache_ok n c1) as Hok1 by (split; [done|by rewrite Hl1|by rewrite Hk1]).
  destruct o as [v|].
  - symmetry in Hv. pose proof (live_known c k v Hv) as Hkn. cbn [fst snd].
    split_and!; [done|done|done|]. by rewrite Hl1, Hkn.
  - symmetry in Hv. destruct (evictedItems c !! k) as [v|] eqn:He; cbn [fst snd].
    + assert (known c !! k = Some v) as Hkn by (unfold known; by rewrite lookup_union, Hv, He).
      set (c2 := {| lru := l; evictedItems := delete k (evictedItems c) |}).
      assert (live c2 = live c) as Hl2 by done.
      assert (<[k := v]> (known c2) = known c) as Hk2.
      { unfold known. rewrite Hl2, insert_union_r by done. simpl. by rewrite insert_delete_id. }
      destruct (Add_core n c2 k v) as (H1 & H2 & H3 & H4 & H5); [done| | |].
      { rewrite Hl2. by apply map_disjoint_delete_r. }
      { unfold known. rewrite Hl2, lookup_union, Hv. simpl. by rewrite lookup_delete_eq. }
      rewrite Hk2 in H3. split_and!; [done| |done|by rewrite H4].
      split; [done|done|right]. rewrite H3. destruct Ht as [Ht|]; [|done].
      by rewrite Ht, lookup_empty in He.
    + assert (known c !! k = None) as Hkn by (unfold known; by rewrite lookup_union, Hv, He).
      split_and!; [done|done|done|]. by rewrite Hl1, Hkn.
Qed.

(** Within its capacity the cache keeps everything live. *)
Lemma live_all n c : cache_ok n c → Z.of_nat (size (known c)) ≤ n → live c = known c.
Proof using LL.
  intros [_ _ [Ht|Ht]] Hs; [|lia]. unfold known. by rewrite Ht, (right_id_L ∅ (∪)).
Qed.

Lemma live_size n c : cache_ok n c → Z.of_nat (size (live c)) ≤ n.
Proof using LL. intros [Hok _ _]. by apply lru_capacity. Qed.

Lemma RemoveEvictedItems_spec n c :
  cache_ok n c → cache_ok n (RemoveEvictedItems c) ∧ known (RemoveEvictedItems c) = live c
  ∧ live (RemoveEvictedItems c) = live c.
Proof using LL.
  intros [Hok Hd _]. split_and!; [|by unfold known; simpl; rewrite (right_id_L ∅ (∪))|done].
  split; simpl; [done|apply map_disjoint_empty_r|by left].
Qed.

Lemma Purge_spec n c : cache_ok n c → cache_ok n (Purge c) ∧ known (Purge c) = ∅.
Proof using LL.
  intros [Hok _ _]. pose proof (lru_Purge_items n _ Hok) as Hi. pose proof (lru_Purge_ok n _ Hok) as Ho.
  unfold Purge. destruct (lru_Purge (lru c)) as [l gone]; simpl in *. split.
  - split; simpl; [done|apply map_disjoint_empty_r|by left].
  - unfold known, live; simpl. by rewrite Hi, (left_id_L ∅ (∪)).
Qed.

Lemma Contains_spec n c k : cache_ok n c → Contains c k = bool_decide (is_Some (live c !! k)).
Proof using LL. intros [Hok _ _]. by apply (lru_Contains_items n). Qed.

Lemma Len_spec n c : cache_ok n c → Len c = Z.of_nat (size (live c)) ∧ Len c ≤ n.
Proof using LL.
  intros [Hok _ _]. unfold Len. rewrite (lru_Len_items n) by done. split; [done|]. by apply lru_capacity.
Qed.
End cache.
Arguments Cache K V {_ _ _} : assert.

(** A list of pairs, the most recently used first, as the concrete LRU of the witnesses. *)
Module TestLRU.
Section test.
Context {K V : Type} `{Countable K}.

Record tlru := { cap : Z; items : list (K * V) }.

Definition without (k : K) (l : list (K * V)) : list (K * V) := filter (λ kv, kv.1 ≠ k) l.

Definition tlru_Add (c : tlru) (k : K) (v : V) : tlru * option (K * V) :=
  let l := (k, v) :: without k (items c) in
  if len l <=? cap c then ({| cap := cap c; items := l |}, None)
  else ({| cap := cap c; items := removelast l |}, last l).

Definition tlru_Get (c : tlru) (k : K) : option V * tlru :=
  match (list_to_map (items c) : gmap K V) !! k with
  | Some v => (Some v, {| cap := cap c; items := (k, v) :: without k (items c) |})
  | None => (None, c)
  end.

#[export] Instance test_slru : SimpleLRU K V := {|
  LRUCache := tlru;
  NewLRU n := if n <=? 0 then None else Some {| cap := n; items := [] |};
  lru_Add := tlru_Add;
  lru_Get := tlru_Get;
  lru_Contains c k := bool_decide (k ∈ (items c).*1);
  lru_Len c := len (items c);
  lru_Purge c := ({| cap := cap c; items := [] |}, items c);
|}.

Definition tlru_ok (n : Z) (c : tlru) : Prop :=
  cap c = n ∧ 0 < n ∧ NoDup (items c).*1 ∧ len (items c) ≤ n.
Definition tlru_items (c : tlru) : gmap K V := list_to_map (items c).

Lemma without_sub k l : (without k l).*1 ⊆ l.*1.
Proof. intros x (y & -> & Hy)%list_elem_of_fmap. apply list_elem_of_filter in Hy as [_ Hy]. by apply list_elem_of_fmap_2. Qed.

Lemma without_nodup k l : NoDup l.*1 → NoDup (without k l).*1 ∧ k ∉ (without k l).*1.
Proof.
  induction l as [|[k' v] l IH]; simpl; intros Hl; [by split; [constructor|set_solver]|].
  apply NoDup_cons in Hl as [Hn Hl]. destruct (IH Hl) as [H1 H2].
  unfold without. rewrite filter_cons. case_decide; simpl in *; [|done].
  split; [|set_solver]. apply NoDup_cons. split; [|done]. intros Hin. apply Hn, (without_sub k), Hin.
Qed.

Lemma without_map k l : NoDup l.*1 → (list_to_map (without k l) : gmap K V) = delete k (list_to_map l).
Proof.
  induction l as [|[k' v] l IH]; simpl; intros Hl; [by rewrite delete_empty|].
  apply NoDup_cons in Hl as [Hn Hl]. unfold without. rewrite filter_cons. case_decide as Hd; simpl in *.
  - rewrite delete_insert_ne by done. f_equal. by apply IH.
  - subst k'. rewrite delete_insert_eq. by apply IH.
Qed.

Lemma without_len k l : len (without k l) ≤ len l.
Proof. unfold len, without. pose proof (length_filter (λ kv, kv.1 ≠ k) l). lia. Qed.

Lemma without_len_in k l : k ∈ l.*1 → len (without k l) < len l.
Proof.
  induction l as [|[k' v] l IH]; simpl; intros Hin; [set_solver|].
  unfold without. rewrite filter_cons. pose proof (without_len k l). unfold without, len in *. simpl.
  case_decide as Hd; simpl in *; [|lia]. apply elem_of_cons in Hin as [->|Hin]; [done|].
  specialize (IH Hin). lia.
Qed.

Lemma tlru_Get_spec n c k :
  tlru_ok n c → (tlru_Get c k).1 = tlru_items c !! k ∧ tlru_items (tlru_Get c k).2 = tlru_items c
  ∧ tlru_ok n (tlru_Get c k).2.
Proof.
  intros (Hc & Hn & Hnd & Hl). unfold tlru_Get, tlru_items.
  destruct (list_to_map (items c) !! k) as [v|] eqn:Hk; simpl; [|done].
  destruct (without_nodup k _ Hnd) as [Hnd' Hni]. split_and!; [done| |].
  - rewrite without_map, insert_delete_eq by done. by apply insert_id.
  - split_and!; simpl; [done|done|by apply NoDup_cons|].
    assert (k ∈ (items c).*1) as Hin%without_len_in.
    { apply elem_of_list_to_map_2 in Hk. by apply (list_elem_of_fmap_2 fst) in Hk. }
    unfold len in *. simpl. lia.
Qed.

Lemma tlru_size n c : tlru_ok n c → size (tlru_items c) = length (items c).
Proof.
  intros (_ & _ & Hnd & _). unfold tlru_items. rewrite <- size_dom, dom_list_to_map_L.
  rewrite size_list_to_set by done. apply length_fmap.
Qed.

Lemma tlru_Add_spec n c k v :
  tlru_ok n c →
  tlru_ok n (tlru_Add c k v).1 ∧
  match tlru_Add c k v with
  | (c', None) => tlru_items c' = <[k := v]> (tlru_items c)
  | (c', Some (k', v')) =>
      k' ≠ k ∧ tlru_items c !! k' = Some v' ∧ tlru_items c' = <[k := v]> (delete k' (tlru_items c))
      ∧ Z.of_nat (size (tlru_items c)) = n
  end.
Proof.
  intros Hok. pose proof (tlru_size n c Hok) as Hsz. destruct Hok as (Hc & Hn & Hnd & Hl). unfold tlru_Add, tlru_items in *.
  destruct (without_nodup k _ Hnd) as [Hnd' Hni].
  pose proof (without_map k _ Hnd) as Hm. pose proof (without_len k (items c)) as Hw.
  assert (len ((k, v) :: without k (items c)) = 1 + len (without k (items c))) as E
    by (unfold len; simpl; lia).
  rewrite E. destruct (Z.leb_spec (1 + len (without k (items c))) (cap c)) as [Hle|Hgt].
  - split; [|by simpl; rewrite Hm, insert_delete_eq].
    split_and!; simpl; [done|done|by apply NoDup_cons|]. rewrite E. lia.
  - rewrite <- E in Hgt.
    assert (k ∉ (items c).*1) as Hk by (intros Hin%without_len_in; lia).
    destruct (without k (items c)) as [|[k' v'] t _] using rev_ind; [unfold len in *; simpl in *; lia|].
    rewrite app_comm_cons, removelast_last, last_snoc.
    rewrite fmap_app in Hnd', Hni. apply NoDup_app in Hnd' as (Hnt & Hd & _).
    assert (k' ≠ k) as Hne by set_solver.
    assert (k' ∉ t.*1) as Hkt by (intros Hin; apply (Hd k' Hin); set_solver).
    split.
    + split_and!; simpl; [done|done|apply NoDup_cons; set_solver|].
      rewrite len_app in *. unfold len in *. simpl in *. lia.
    + assert ((list_to_map (items c) : gmap K V) = <[k' := v']> (list_to_map t)) as Hi.
      { rewrite <- (delete_id (list_to_map (items c)) k) by (by apply not_elem_of_list_to_map_1).
        rewrite <- Hm, list_to_map_snoc by done. done. }
      split_and!; [done| | |unfold len in *; lia]; rewrite Hi.
      * by rewrite lookup_insert_eq.
      * simpl. rewrite delete_insert_eq, delete_id by (by apply not_elem_of_list_to_map_1). done.
Qed.

#[export] Program Instance test_slru_laws : SimpleLRULaws K V test_slru := {|
  lru_ok := tlru_ok;
  lru_items := tlru_items;
|}.
Next Obligation. intros n Hn. simpl. destruct (Z.leb_spec n 0); [done|lia]. Qed.
Next Obligation.
  intros n Hn. simpl. destruct (Z.leb_spec n 0); [lia|]. eexists. split_and!; [done| |done].
  split_and!; simpl; [done|done|constructor|]. unfold len. simpl. lia.
Qed.
Next Obligation. intros n c k Hok. by destruct (tlru_Get_spec n c k Hok) as (? & ? & ?). Qed.
Next Obligation. intros n c k Hok. by destruct (tlru_Get_spec n c k Hok) as (? & ? & ?). Qed.
Next Obligation. intros n c k Hok. by destruct (tlru_Get_spec n c k Hok) as (? & ? & ?). Qed.
Next Obligation. intros n c k v Hok. by destruct (tlru_Add_spec n c k v Hok) as [? ?]. Qed.
Next Obligation. intros n c k v Hok. by destruct (tlru_Add_spec n c k v Hok) as [? ?]. Qed.
Next Obligation.
  intros n c k Hok. simpl. apply bool_decide_ext. unfold tlru_items.
  by rewrite <- elem_of_dom, dom_list_to_map_L, elem_of_list_to_set.
Qed.
Next Obligation. intros n c Hok. simpl. unfold len. by rewrite (tlru_size n). Qed.
Next Obligation. intros n c Hok. simpl. rewrite (tlru_size n) by done. by destruct Hok as (_ & _ & _ & ?). Qed.
Next Obligation. done. Qed.
Next Obligation.
  intros n c (Hc & Hn & _ & _). split_and!; simpl; [done|done|constructor|]. unfold len. simpl. lia.
Qed.
End test.
End TestLRU.
