(* ===== verification/SpanDims.v ===== *)
(** * Dimensions and metric keys of the span metrics processor

    src/processor/signozspanmetricsprocessor: config.go and the functions of processor.go
    that choose label names, look up dimension values, build the metric keys and read them
    back. The LRU caches are in [SpanCache], the histograms in [SpanHistogram]. *)
From S2P Require Import Prelude GoText Pdata.

(** ** Configuration (config.go) *)

Record Dimension := { Name : string; Default : option string }.
Record ExcludePattern := { ep_Name : string; ep_Pattern : string }.

(** Durations are int64 nanoseconds; [LatencyHistogramBuckets] may be nil. *)
Record Config := {
  MetricsExporter : string;
  LatencyHistogramBuckets : option (list Z);
  Dimensions : list Dimension;
  ExcludePatterns : list ExcludePattern;
  DimensionsCacheSize : Z;
  AggregationTemporality : string;
  skipSanitizeLabel : bool;
  MetricsFlushInterval : Z;
  TimeBucketInterval : Z;
  EnableExpHistogram : bool;
  MaxServicesToTrack : Z;
  MaxOperationsToTrackPerService : Z;
  SkipSpansOlderThan : Z;
}.

Inductive temporality := AggregationTemporalityDelta | AggregationTemporalityCumulative.
#[export] Instance temporality_eq_dec : EqDecision temporality.
Proof. solve_decision. Defined.

Definition second : Z := 10 ^ 9.
Definition defaultTimeBucketInterval : Z := 60 * second.
Definition defaultSkipSpansOlderThan : Z := 24 * 3600 * second.

Definition GetAggregationTemporality (c : Config) : temporality :=
  if decide (AggregationTemporality c = "AGGREGATION_TEMPORALITY_DELTA")
  then AggregationTemporalityDelta else AggregationTemporalityCumulative.
Definition GetTimeBucketInterval (c : Config) : Z :=
  if TimeBucketInterval c =? 0 then defaultTimeBucketInterval else TimeBucketInterval c.
Definition GetSkipSpansOlderThan (c : Config) : Z :=
  if SkipSpansOlderThan c <=? 0 then defaultSkipSpansOlderThan else SkipSpansOlderThan c.

(** ** Constants *)

Definition serviceNameKey := "service.name".
Definition operationKey := "operation".
Definition spanKindKey := "span.kind".
Definition statusCodeKey := "status.code".
Definition tagHTTPStatusCode := "http.status_code".
Definition tagHTTPStatusCodeStable := "http.response.status_code".
Definition metricKeySeparator : string := String "000" "".
Definition signozID := "signoz.collector.id".
Definition resourcePrefix := "resource_".
Definition overflowServiceName := "overflow_service".
Definition overflowOperation := "overflow_operation".

(** ** Label names *)

Section sanitize.
Context `{UC : Unicode} `{UT : !UnicodeTables UC}.

Definition sanitizeRune (r : Z) : Z := if IsLetter r || IsDigit r then r else 95.

(** [rune(s[0])] is the first byte; [strings.Map] keeps the length above zero. *)
Definition sanitize (s : string) (skipSanitizeLabel : bool) : string :=
  match s with
  | EmptyString => s
  | _ =>
      let s := strings_Map sanitizeRune s in
      let s := match s with
               | String c _ => if IsDigit (byte_val c) then "key_" +:+ s else s
               | EmptyString => s
               end in
      let s := if negb skipSanitizeLabel && has_prefix s "_" then "key" +:+ s else s in
      if has_prefix s "__" then "key" +:+ s else s
  end.

Inductive dimension_error := DuplicateName (name : string) | DuplicateSanitized (name : string).

(** The names in use before the configured dimensions. *)
Definition reserved_labels (skip : bool) : gset string :=
  foldl (λ names key, {[ sanitize key skip ]} ∪ ({[ key ]} ∪ names)) ∅
        [serviceNameKey; spanKindKey; statusCodeKey]
  ∪ {[ operationKey ]}.

Fixpoint validate_names (labelNames : gset string) (dimensions : list Dimension) (skip : bool)
  : option dimension_error :=
  match dimensions with
  | [] => None
  | key :: rest =>
      if decide (Name key ∈ labelNames) then Some (DuplicateName (Name key))
      else
        let labelNames := {[ Name key ]} ∪ labelNames in
        let sanitizedName := sanitize (Name key) skip in
        if decide (sanitizedName = Name key) then validate_names labelNames rest skip
        else if decide (sanitizedName ∈ labelNames) then Some (DuplicateSanitized sanitizedName)
        else validate_names ({[ sanitizedName ]} ∪ labelNames) rest skip
  end.

Definition validateDimensions (dimensions : list Dimension) (skip : bool) : option dimension_error :=
  validate_names (reserved_labels skip) dimensions skip.

(** *** Sanitized names, rune by rune *)

Definition key_runes : list Z := byte_val <$> bytes "key".
Definition starts_digit (rs : list Z) : bool := match rs with r :: _ => cont 48 57 r | [] => false end.
Definition starts_1 (rs : list Z) : bool := match rs with r :: _ => r =? 95 | [] => false end.
Definition starts_2 (rs : list Z) : bool := match rs with r :: t => (r =? 95) && starts_1 t | [] => false end.

Definition sanitize_runes (rs : list Z) (skip : bool) : list Z :=
  let rs := sanitizeRune <$> rs in
  let rs := if starts_digit rs then key_runes ++ 95 :: rs else rs in
  let rs := if negb skip && starts_1 rs then key_runes ++ rs else rs in
  if starts_2 rs then key_runes ++ rs else rs.

Lemma sanitizeRune_valid r : ValidRune r = true → ValidRune (sanitizeRune r) = true.
Proof using Type. unfold sanitizeRune. by case_match. Qed.

Lemma sanitizeRune_idem r : sanitizeRune (sanitizeRune r) = sanitizeRune r.
Proof using Type. unfold sanitizeRune. destruct (IsLetter r || IsDigit r) eqn:E; cbn iota; [by rewrite E|]. by case_match. Qed.

Lemma has_prefix_nil s : has_prefix s "" = true.
Proof using Type. by destruct s. Qed.

Lemma has_prefix_cons c p d s :
  has_prefix (String d s) (String c p) = bool_decide (c = d) && has_prefix s p.
Proof using Type.
  unfold has_prefix. simpl. destruct (Strings.Ascii.ascii_dec c d) as [-> |Hn].
  - by rewrite bool_decide_eq_true_2.
  - by rewrite bool_decide_eq_false_2.
Qed.

(** A text of valid runes, and what the tests of [sanitize] see of its first bytes. *)
Lemma starts_1_spec rs :
  Forall (λ r, ValidRune r = true) rs → has_prefix (string_of_runes rs) "_" = starts_1 rs.
Proof using Type.
  destruct 1 as [|r rs Hr _]; [done|]. simpl.
  destruct (string_of_runes_cons r rs Hr) as (c & -> & Hc). rewrite has_prefix_cons, has_prefix_nil, andb_true_r.
  destruct (Z.eqb_spec r 95) as [-> |Hne].
  - destruct Hc as [Hc _]; [lia|]. apply bool_decide_eq_true_2.
    rewrite <- (byte_of_byte_val c), Hc. done.
  - apply bool_decide_eq_false_2. intros <-.
    destruct Hc as [Hc _]; [left; by vm_compute|]. destruct Hne. rewrite <- Hc. by vm_compute.
Qed.

Lemma starts_2_spec rs :
  Forall (λ r, ValidRune r = true) rs → has_prefix (string_of_runes rs) "__" = starts_2 rs.
Proof using Type.
  intros Hrs. pose proof (starts_1_spec rs Hrs) as H1. destruct Hrs as [|r rs Hr Hrs]; [done|]. simpl in *.
  destruct (string_of_runes_cons r rs Hr) as (c & E & Hc). rewrite E, has_prefix_cons in *.
  rewrite has_prefix_nil, andb_true_r in H1. rewrite H1.
  destruct (Z.eqb_spec r 95) as [-> |Hne]; [|done].
  rewrite !andb_true_l, <- (starts_1_spec rs Hrs). destruct Hc as [_ ->]; [lia|]. done.
Qed.

Lemma starts_digit_spec rs :
  Forall (λ r, ValidRune r = true) rs →
  match string_of_runes rs with String c _ => IsDigit (byte_val c) | EmptyString => false end
  = starts_digit rs.
Proof using UT.
  destruct 1 as [|r rs Hr _]; [done|]. destruct (string_of_runes_cons r rs Hr) as (c & -> & Hc).
  pose proof (byte_val_range c). rewrite IsDigit_latin1 by done. simpl.
  pose proof (proj1 (ValidRune_spec r) Hr).
  destruct (decide (byte_val c < 128 ∨ r < 128)) as [Hd|Hd]; [by destruct (Hc Hd) as [-> _]|].
  unfold cont. rewrite (leb_false (byte_val c) 57), (leb_false r 57), !andb_false_r by lia. done.
Qed.

Lemma string_of_runes_app rs1 rs2 :
  string_of_runes (rs1 ++ rs2) = string_of_runes rs1 +:+ string_of_runes rs2.
Proof using Type.
  unfold string_of_runes. rewrite bind_app, fmap_app. generalize (byte_of <$> (rs2 ≫= encode_rune)). intros l2.
  generalize (byte_of <$> (rs1 ≫= encode_rune)). intros l1.
  induction l1 as [|c l1 IH]; [done|]. exact (f_equal (String c) IH).
Qed.

Notation clean rs := (Forall (λ r, ValidRune r = true) rs) (only parsing).

Lemma clean_key rs : clean rs → clean (key_runes ++ rs).
Proof using Type. intros Hrs. apply Forall_app. split; [by repeat constructor|done]. Qed.

Lemma sanitize_eq s skip :
  s ≠ "" → sanitize s skip = string_of_runes (sanitize_runes (runes s) skip).
Proof using UT.
  intros Hs. destruct s as [|c s]; [done|]. unfold sanitize, sanitize_runes.
  assert (clean (sanitizeRune <$> runes (String c s))) as Hrs.
  { apply Forall_fmap, Forall_forall. intros r Hr%runes_valid. by apply sanitizeRune_valid. }
  unfold strings_Map. revert Hrs. generalize (sanitizeRune <$> runes (String c s)). clear c s Hs. intros rs Hrs.
  match goal with |- context [if ?b then "key" +:+ ?t else ?t] => idtac end.
  assert ((match string_of_runes rs with
           | String c _ => if IsDigit (byte_val c) then "key_" +:+ string_of_runes rs else string_of_runes rs
           | EmptyString => string_of_runes rs
           end) = string_of_runes (if starts_digit rs then key_runes ++ 95 :: rs else rs)) as ->.
  { rewrite <- (starts_digit_spec rs Hrs). destruct (string_of_runes rs) as [|c t] eqn:E; [by rewrite <- E|].
    case_match; [|done]. change (key_runes ++ 95 :: rs) with ((byte_val <$> bytes "key_") ++ rs).
    rewrite string_of_runes_app, E. done. }
  assert (clean (if starts_digit rs then key_runes ++ 95 :: rs else rs)) as Hrs'.
  { case_match; [|done]. apply clean_key. by constructor. }
  revert Hrs'. generalize (if starts_digit rs then key_runes ++ 95 :: rs else rs). clear rs Hrs. intros rs Hrs.
  assert (∀ rs b, string_of_runes (if b : bool then key_runes ++ rs else rs)
                  = if b then "key" +:+ string_of_runes rs else string_of_runes rs) as Hk.
  { intros rs' [|]; [|done]. by rewrite string_of_runes_app. }
  rewrite starts_1_spec, <- Hk by done.
  assert (clean (if negb skip && starts_1 rs then key_runes ++ rs else rs)) as Hrs'.
  { case_match; [by apply clean_key|done]. }
  rewrite starts_2_spec by done. symmetry. apply Hk.
Qed.

(** The result needs no further change. *)
Definition sanitized (skip : bool) (rs : list Z) : Prop :=
  sanitizeRune <$> rs = rs ∧ starts_digit rs = false ∧ negb skip && starts_1 rs = false
  ∧ starts_2 rs = false ∧ Forall (λ r, ValidRune r = true) rs.

Lemma sanitized_fixed skip rs : sanitized skip rs → sanitize_runes rs skip = rs.
Proof using Type. intros (H1 & H2 & H3 & H4 & _). unfold sanitize_runes. by rewrite H1, H2, H3, H4. Qed.

Lemma sanitize_key_runes : sanitizeRune <$> key_runes = key_runes.
Proof using UT. unfold sanitizeRune. cbn. by rewrite !IsLetter_ascii by (vm_compute; split; congruence). Qed.

Lemma sanitize_runes_sanitized skip rs :
  Forall (λ r, ValidRune r = true) rs → sanitized skip (sanitize_runes rs skip).
Proof using UT.
  intros Hrs. unfold sanitize_runes.
  assert (clean (sanitizeRune <$> rs)) as Hc1.
  { apply Forall_fmap. eapply Forall_impl; [done|]. intros r Hr. by apply sanitizeRune_valid. }
  assert (sanitizeRune <$> (sanitizeRune <$> rs) = sanitizeRune <$> rs) as Hf1.
  { rewrite <- list_fmap_compose. apply list_fmap_ext. intros i r _. apply sanitizeRune_idem. }
  revert Hc1 Hf1. generalize (sanitizeRune <$> rs). clear rs Hrs. intros rs Hc Hf.
  assert (sanitizeRune 95 = 95) as H95 by (unfold sanitizeRune; by case_match).
  assert (∀ l, clean l → sanitizeRune <$> l = l → sanitized skip (key_runes ++ l)) as Hkey.
  { intros l Hl Hfl. split_and!; [|done|by rewrite andb_false_r|done|by apply clean_key].
    by rewrite fmap_app, sanitize_key_runes, Hfl. }
  assert (∀ l, starts_1 (key_runes ++ l) = false) as Hk1 by done.
  assert (∀ l, starts_2 (key_runes ++ l) = false) as Hk2 by done.
  destruct (starts_digit rs) eqn:Hd; cbv zeta; rewrite ?Hk1, ?andb_false_r, ?Hk2.
  { apply Hkey; [by constructor|]. rewrite fmap_cons, Hf. by rewrite H95. }
  destruct (negb skip && starts_1 rs) eqn:H1; rewrite ?Hk2; [by apply Hkey|].
  destruct (starts_2 rs) eqn:H2; [by apply Hkey|]. done.
Qed.

(** Sanitizing twice changes nothing more. *)
Lemma sanitize_idempotent s skip : sanitize (sanitize s skip) skip = sanitize s skip.
Proof using UT.
  destruct (decide (s = "")) as [-> |Hs]; [done|]. rewrite (sanitize_eq s) by done.
  assert (Forall (λ r, ValidRune r = true) (runes s)) as Hv by (apply Forall_forall; apply runes_valid).
  pose proof (sanitize_runes_sanitized skip _ Hv) as Hsan.
  destruct (decide (string_of_runes (sanitize_runes (runes s) skip) = "")) as [-> |Hne]; [done|].
  rewrite sanitize_eq by done. rewrite runes_string_of_runes by apply Hsan. by rewrite sanitized_fixed.
Qed.

(** *** The reserved names *)

Definition ascii_rune (r : Z) : Z := if cont 65 90 r || cont 97 122 r || cont 48 57 r then r else 95.

Lemma sanitizeRune_ascii rs :
  forallb (cont 0 127) rs = true → sanitizeRune <$> rs = ascii_rune <$> rs.
Proof using UT.
  intros Hrs. apply list_fmap_ext. intros i r Hr%list_elem_of_lookup_2.
  rewrite List.forallb_forall in Hrs. apply list_elem_of_In, Hrs, cont_spec in Hr.
  unfold sanitizeRune, ascii_rune. by rewrite IsLetter_ascii, IsDigit_latin1 by lia.
Qed.

Definition reserved : list string := [serviceNameKey; spanKindKey; statusCodeKey; operationKey].

Lemma sanitize_reserved skip :
  (λ k, sanitize k skip) <$> reserved = ["service_name"; "span_kind"; "status_code"; "operation"].
Proof using UT.
  unfold reserved. cbn [fmap list_fmap]. rewrite !sanitize_eq by done. unfold sanitize_runes.
  rewrite !sanitizeRune_ascii by (vm_compute; reflexivity). by destruct skip; vm_compute.
Qed.

(** *** What [validateDimensions] accepts *)

Lemma validate_names_spec skip dims : ∀ labels,
  (∀ x, x ∈ labels → sanitize x skip ∈ labels) →
  validate_names labels dims skip = None ↔
  NoDup ((λ d, sanitize (Name d) skip) <$> dims) ∧ Forall (λ d, sanitize (Name d) skip ∉ labels) dims.
Proof using UT.
  induction dims as [|d dims IH]; intros labels Hl; cbn [validate_names]; [by repeat constructor|].
  set (s := sanitize (Name d) skip). rewrite fmap_cons, NoDup_cons, Forall_cons. fold s.
  destruct (decide (Name d ∈ labels)) as [Hin|Hin].
  { split; [done|]. intros [_ [Hn _]]. by destruct Hn; apply Hl. }
  assert (s = Name d ∨ s ∉ {[Name d]} ∪ labels ↔ s ∉ labels) as Hs.
  { destruct (decide (s = Name d)) as [E|E]; [rewrite E|]; set_solver. }
  assert (∀ labels', labels' = {[s]} ∪ ({[Name d]} ∪ labels) → s ∉ labels →
    validate_names labels' dims skip = None ↔
    (s ∉ (λ d, sanitize (Name d) skip) <$> dims ∧ NoDup ((λ d, sanitize (Name d) skip) <$> dims))
    ∧ (s ∉ labels ∧ Forall (λ d, sanitize (Name d) skip ∉ labels) dims)) as Hrest.
  { intros ? -> Hns. rewrite IH.
    2: { intros x [->%elem_of_singleton|[->%elem_of_singleton|Hx]%elem_of_union]%elem_of_union.
         - unfold s. rewrite sanitize_idempotent. set_solver.
         - fold s. set_solver.
         - specialize (Hl x Hx). set_solver. }
    rewrite list_elem_of_fmap, !Forall_forall. split.
    - intros [Hnd Hf]. split_and!; [|done|done|].
      + intros (e & E & He). apply (Hf e He). rewrite <- E. set_solver.
      + intros e He. specialize (Hf e He). set_solver.
    - intros [[Hni Hnd] [_ Hf]]. split; [done|]. intros e He.
      specialize (Hf e He). rewrite !elem_of_union, !elem_of_singleton. intros [E|[E|E]]; [| |done].
      + apply Hni. by exists e.
      + apply Hni. exists e. split; [|done]. unfold s. rewrite <- E. apply sanitize_idempotent. }
  destruct (decide (s = Name d)) as [E|E].
  - destruct (decide (s ∈ labels)) as [Hsl|Hsl]; [by rewrite E in Hsl|]. apply Hrest; [|done].
    rewrite E. set_solver.
  - destruct (decide (s ∈ {[Name d]} ∪ labels)) as [Hsl|Hsl].
    + split; [done|]. intros [_ [Hn _]]. set_solver.
    + apply Hrest; [done|set_solver].
Qed.

(** [validateDimensions] accepts a configuration exactly when the sanitized names, those of
    the built-in labels included, are pairwise different. *)
Theorem validateDimensions_spec dims skip :
  validateDimensions dims skip = None ↔
  NoDup ((λ k, sanitize k skip) <$> (reserved ++ (Name <$> dims))).
Proof using UT.
  unfold validateDimensions. pose proof (sanitize_reserved skip) as Hres.
  assert (∀ x, x ∈ reserved_labels skip ↔ x ∈ reserved ∨ x ∈ (λ k, sanitize k skip) <$> reserved) as Hrl.
  { intros x. rewrite Hres. unfold reserved in *. injection Hres as E1 E2 E3 _.
    unfold reserved_labels. simpl. rewrite E1, E2, E3. clear.
    rewrite !elem_of_union, !elem_of_singleton, !elem_of_cons, elem_of_empty, elem_of_nil. naive_solver. }
  rewrite validate_names_spec.
  2: { intros x [Hx|(k & -> & Hk)%list_elem_of_fmap]%Hrl; apply Hrl; right.
       - apply list_elem_of_fmap. by exists x.
       - rewrite sanitize_idempotent. apply list_elem_of_fmap. by exists k. }
  rewrite fmap_app, NoDup_app, <- list_fmap_compose. split.
  - intros [Hnd Hf]. split_and!; [|  |done].
    + rewrite Hres. apply (bool_decide_eq_true_1 _). by vm_compute.
    + intros x Hx (d & -> & Hd)%list_elem_of_fmap. rewrite Forall_forall in Hf. apply (Hf d Hd), Hrl. by right.
  - intros (_ & Hdis & Hnd). split; [done|]. apply Forall_forall. intros d Hd [Hx|Hx]%Hrl.
    + apply (Hdis (sanitize (Name d) skip)).
      * rewrite <- (sanitize_idempotent (Name d)). apply list_elem_of_fmap. by eexists.
      * apply list_elem_of_fmap. by exists d.
    + apply (Hdis _ Hx), list_elem_of_fmap. by exists d.
Qed.
End sanitize.

(** ** Dimension values *)

(** [SpanKindStr] and [StatusCodeStr]. *)
Definition SpanKindStr (sk : SpanKind) : string :=
  match sk with
  | SpanKindUnspecified => "SPAN_KIND_UNSPECIFIED"
  | SpanKindInternal => "SPAN_KIND_INTERNAL"
  | SpanKindServer => "SPAN_KIND_SERVER"
  | SpanKindClient => "SPAN_KIND_CLIENT"
  | SpanKindProducer => "SPAN_KIND_PRODUCER"
  | SpanKindConsumer => "SPAN_KIND_CONSUMER"
  | SpanKindOther _ => ""
  end.
Definition StatusCodeStr (sk : StatusCode) : string :=
  match sk with
  | StatusCodeUnset => "STATUS_CODE_UNSET"
  | StatusCodeOk => "STATUS_CODE_OK"
  | StatusCodeError => "STATUS_CODE_ERROR"
  end.

(** [attrsCardinality]: the values each label had. *)
Abbreviation cardinality := (gmap string (gset string)).

Section dims.
Context `{PD : Pdata} `{PT : !PdataText PD}.
Abbreviation Map := (gmap string Value).

(** [dimension]: the default is a value made from the configured string. *)
Record dimension := { name : string; value : option Value }.

Definition newDimensions (cfgDims : list Dimension) : list dimension :=
  (λ d, {| name := Name d; value := NewValueStr <$> Default d |}) <$> cfgDims.

Definition getDimensionValue (d : dimension) (spanAttr resourceAttr : Map) : option Value :=
  match spanAttr !! name d with
  | Some attr => Some attr
  | None =>
      match (if decide (name d = tagHTTPStatusCode) then spanAttr !! tagHTTPStatusCodeStable else None) with
      | Some attr => Some attr
      | None =>
          match resourceAttr !! name d with
          | Some attr => Some attr
          | None => value d
          end
      end
  end.

(** The second component is [foundInResource]. *)
Definition getDimensionValueWithResource (d : dimension) (spanAttr resourceAttr : Map)
  : option (Value * bool) :=
  match spanAttr !! name d with
  | Some attr => Some (attr, bool_decide (is_Some (resourceAttr !! name d)))
  | None =>
      match (if decide (name d = tagHTTPStatusCode) then spanAttr !! tagHTTPStatusCodeStable else None) with
      | Some attr => Some (attr, false)
      | None =>
          match resourceAttr !! name d with
          | Some attr => Some (attr, true)
          | None => (λ v, (v, false)) <$> value d
          end
      end
  end.

(** The two lookups agree on the value. *)
Lemma getDimensionValue_fst d spanAttr resourceAttr :
  fst <$> getDimensionValueWithResource d spanAttr resourceAttr = getDimensionValue d spanAttr resourceAttr.
Proof.
  unfold getDimensionValueWithResource, getDimensionValue.
  destruct (spanAttr !! name d); [done|]. destruct (if decide _ then _ else _); [done|].
  destruct (resourceAttr !! name d); [done|]. by destruct (value d).
Qed.

(** ** Services and operations tracked against overflow *)

Record tracker := {
  serviceToOperations : gmap string (gset string);
  maxNumberOfServicesToTrack : Z;
  maxNumberOfOperationsToTrackPerService : Z;
}.

(** The first lines of [buildKey] and [buildDimensionKVs]: the names used in place of the
    service's and the span's. *)
Definition overflow_service (tr : tracker) (serviceName : string) : string :=
  if maxNumberOfServicesToTrack tr <? Z.of_nat (size (serviceToOperations tr))
  then overflowServiceName else serviceName.
Definition overflow_operation (tr : tracker) (serviceName spanName : string) : string :=
  if maxNumberOfOperationsToTrackPerService tr
     <? Z.of_nat (size (default ∅ (serviceToOperations tr !! serviceName)))
  then overflowOperation else spanName.

Definition track (tr : tracker) (serviceName spanName : string) : tracker :=
  {| serviceToOperations :=
       <[serviceName := {[ spanName ]} ∪ default ∅ (serviceToOperations tr !! serviceName)]>
         (serviceToOperations tr);
     maxNumberOfServicesToTrack := maxNumberOfServicesToTrack tr;
     maxNumberOfOperationsToTrackPerService := maxNumberOfOperationsToTrackPerService tr |}.

(** ** Metric keys *)

Definition concatDimensionValue (dest value : string) (prefixSep : bool) : string :=
  (if prefixSep then dest +:+ metricKeySeparator else dest) +:+ value.

Definition concat_values (dest : string) (vals : list string) : string :=
  foldl (λ b v, concatDimensionValue b v true) dest vals.

(** The values the configured dimensions add to a key. *)
Definition dimension_vals (dims : list dimension) (span : Span) (resourceAttrs : Map) : list string :=
  AsString <$> omap (λ d, getDimensionValue d (span_Attributes span) resourceAttrs) dims.

(** [buildKey] appends to [dest] and records the names it used. *)
Definition buildKey (tr : tracker) (dest serviceName : string) (span : Span)
    (optionalDims : list dimension) (resourceAttrs : Map) : string * tracker :=
  let serviceName := overflow_service tr serviceName in
  let spanName := overflow_operation tr serviceName (span_Name span) in
  let dest := concatDimensionValue dest serviceName false in
  let dest := concatDimensionValue dest spanName true in
  let dest := concatDimensionValue dest (SpanKindStr (span_Kind span)) true in
  let dest := concatDimensionValue dest (StatusCodeStr (span_Status span)) true in
  (concat_values dest (dimension_vals optionalDims span resourceAttrs), track tr serviceName spanName).

Definition custom_vals (d : dimension) (span : Span) (resourceAttrs : Map) : list string :=
  match getDimensionValueWithResource d (span_Attributes span) resourceAttrs with
  | Some (v, true) => [AsString v; resourcePrefix +:+ AsString v]
  | Some (v, false) => [AsString v]
  | None => []
  end.

Definition buildCustomKey (dest serviceName : string) (span : Span) (optionalDims : list dimension)
    (resourceAttrs : Map) (extraVals : list string) : string :=
  let dest := concatDimensionValue dest serviceName false in
  let dest := concatDimensionValue dest (StatusCodeStr (span_Status span)) true in
  let dest := concat_values dest extraVals in
  concat_values dest (optionalDims ≫= λ d, custom_vals d span resourceAttrs).

(** *** Time buckets *)

(** [time.Time] values are nanoseconds since the Unix epoch; Go truncates relative to the
    zero time, 62135596800 s earlier. A non-positive duration truncates nothing. *)
Definition zero_time_offset : Z := 62135596800 * second.
Definition Truncate (t d : Z) : Z := if d <=? 0 then t else t - (t + zero_time_offset) mod d.
(** [Time.Unix], and [AsTime] of a [pcommon.Timestamp]. *)
Definition Unix (t : Z) : Z := t / second.
Definition AsTime (ts : Z) : Z := i64 ts.
(** [pcommon.NewTimestampFromTime]. *)
Definition NewTimestampFromTime (t : Z) : Z := u64 t.

Definition AddTimeToKeyBuf (cfg : Config) (buf : string) (t : Z) : string :=
  buf +:+ FormatInt (Unix (Truncate t (GetTimeBucketInterval cfg))) +:+ metricKeySeparator.

(** The prefix both kinds of key start with; [keyBuf] is reset first. *)
Definition time_prefix (cfg : Config) (span : Span) : string :=
  if decide (GetAggregationTemporality cfg = AggregationTemporalityDelta)
  then AddTimeToKeyBuf cfg "" (AsTime (span_StartTimestamp span)) else "".

Definition buildMetricKey (cfg : Config) (tr : tracker) (serviceName : string) (span : Span)
    (dims : list dimension) (resourceAttr : Map) : string * tracker :=
  buildKey tr (time_prefix cfg span) serviceName span dims resourceAttr.

Definition buildCustomMetricKey (cfg : Config) (serviceName : string) (span : Span)
    (dims : list dimension) (resourceAttr : Map) (extraVals : list string) : string :=
  buildCustomKey (time_prefix cfg span) serviceName span dims resourceAttr extraVals.

(** [strings.IndexByte]: -1 where the byte is absent. *)
Fixpoint IndexByte (l : list ascii) (c : ascii) : Z :=
  match l with
  | [] => -1
  | d :: l => if Ascii.eqb d c then 0 else let i := IndexByte l c in if i <? 0 then -1 else 1 + i
  end.

Definition parseTimesFromKeyOrNow (k : string) (interval now processorStartTime : Z) : Z * Z :=
  let idx := IndexByte (bytes k) "000" in
  if idx <=? 0 then (processorStartTime, NewTimestampFromTime now)
  else match ParseInt (of_bytes (take (Z.to_nat idx) (bytes k))) with
       | None => (processorStartTime, NewTimestampFromTime now)
       | Some u =>
           let bucketStart := u * second in
           (NewTimestampFromTime bucketStart, NewTimestampFromTime bucketStart)
       end.

(** ** The labels of a data point *)

(** The last loop of [buildDimensionKVs] and [buildCustomDimensionKVs]. *)
Definition record_cardinality (dims : Map) (card : cardinality) : cardinality :=
  map_fold (λ k v card, <[k := {[ AsString v ]} ∪ default ∅ (card !! k)]> card) card dims.

(** The loop over the configured dimensions. *)
Definition put_dimension (span : Span) (resourceAttrs dims : Map) (d : dimension) : Map :=
  match getDimensionValueWithResource d (span_Attributes span) resourceAttrs with
  | Some (v, true) => <[resourcePrefix +:+ name d := v]> (<[name d := v]> dims)
  | Some (v, false) => <[name d := v]> dims
  | None => dims
  end.

Definition buildDimensionKVs (tr : tracker) (serviceName : string) (span : Span)
    (optionalDims : list dimension) (resourceAttrs : Map) : Map :=
  let serviceName := overflow_service tr serviceName in
  let spanName := overflow_operation tr serviceName (span_Name span) in
  let dims := <[statusCodeKey := NewValueStr (StatusCodeStr (span_Status span))]>
              (<[spanKindKey := NewValueStr (SpanKindStr (span_Kind span))]>
              (<[operationKey := NewValueStr spanName]>
              (<[serviceNameKey := NewValueStr serviceName]> ∅))) in
  foldl (put_dimension span resourceAttrs) dims optionalDims.

Definition buildCustomDimensionKVs (serviceName : string) (span : Span)
    (optionalDims : list dimension) (resourceAttrs extraDims : Map) : Map :=
  let dims := <[serviceNameKey := NewValueStr serviceName]> ∅ in
  let dims := extraDims ∪ dims in
  let dims := <[statusCodeKey := NewValueStr (StatusCodeStr (span_Status span))]> dims in
  foldl (put_dimension span resourceAttrs) dims optionalDims.
End dims.

(** ** Keys and their time buckets *)



Lemma string_app_nil_l (a : string) : "" +:+ a = a.
Proof. done. Qed.

Lemma IndexByte_app l c r : c ∉ l → IndexByte (l ++ c :: r) c = len l.
Proof.
  unfold len. induction l as [|d l IH]; intros Hn; simpl; [by rewrite Ascii.eqb_refl|].
  apply not_elem_of_cons in Hn as [Hd Hn]. rewrite (proj2 (Ascii.eqb_neq d c)) by done.
  rewrite IH by done. destruct (Z.ltb_spec (Z.of_nat (length l)) 0); lia.
Qed.

(** A key that starts with a number and a separator is read back as that number of seconds. *)
Lemma parse_prefixed n rest interval now start :
  - 2 ^ 63 ≤ n < 2 ^ 63 →
  parseTimesFromKeyOrNow (FormatInt n +:+ metricKeySeparator +:+ rest) interval now start
  = (u64 (n * second), u64 (n * second)).
Proof.
  intros Hn. unfold parseTimesFromKeyOrNow. rewrite !bytes_app.
  change (bytes metricKeySeparator ++ bytes rest) with ("000"%char :: bytes rest).
  rewrite IndexByte_app by apply FormatInt_no_nul.
  assert (0 < len (bytes (FormatInt n))).
  { pose proof (FormatInt_nonempty n). unfold len. destruct (FormatInt n); simpl; [done|lia]. }
  rewrite leb_false by done. unfold len. rewrite Nat2Z.id, take_app_length, of_bytes_bytes.
  by rewrite ParseInt_FormatInt.
Qed.

Section keys.
Context `{PD : Pdata} `{PT : !PdataText PD}.
Abbreviation Map := (gmap string Value).

Lemma concat_values_app dest vals : concat_values dest vals = dest +:+ concat_values "" vals.
Proof.
  unfold concat_values. rewrite <- (string_app_nil_r dest) at 1. generalize "" at 1 2. revert dest.
  induction vals as [|v vals IH]; intros dest b; simpl; [done|].
  rewrite <- IH. f_equal. unfold concatDimensionValue. by rewrite !string_app_assoc.
Qed.

(** What [buildKey] and [buildCustomKey] append does not depend on what is in the buffer. *)
Lemma buildKey_dest tr dest sn span dims res :
  buildKey tr dest sn span dims res
  = (dest +:+ (buildKey tr "" sn span dims res).1, (buildKey tr "" sn span dims res).2).
Proof.
  unfold buildKey. cbn [fst snd]. f_equal. rewrite concat_values_app.
  rewrite (concat_values_app (concatDimensionValue _ _ _)). unfold concatDimensionValue.
  by rewrite !string_app_assoc.
Qed.

Lemma buildCustomKey_dest dest sn span dims res extra :
  buildCustomKey dest sn span dims res extra = dest +:+ buildCustomKey "" sn span dims res extra.
Proof.
  unfold buildCustomKey. rewrite (concat_values_app (concat_values _ _)), (concat_values_app (concatDimensionValue _ _ _)).
  rewrite (concat_values_app (concat_values (concatDimensionValue (concatDimensionValue "" _ _) _ _) _)).
  rewrite (concat_values_app (concatDimensionValue (concatDimensionValue "" _ _) _ _)).
  unfold concatDimensionValue. by rewrite !string_app_assoc.
Qed.

(** A key starts with the name of the service. *)
Lemma buildKey_service tr sn span dims res :
  ∃ rest, (buildKey tr "" sn span dims res).1 = overflow_service tr sn +:+ metricKeySeparator +:+ rest.
Proof.
  unfold buildKey. cbn [fst]. rewrite concat_values_app. unfold concatDimensionValue.
  rewrite !string_app_assoc. by eexists.
Qed.

(** *** Delta temporality *)

Lemma Truncate_spec t d :
  - 2 ^ 63 ≤ t < 2 ^ 63 → 0 < d →
  (d | Truncate t d + zero_time_offset) ∧ Truncate t d ≤ t < Truncate t d + d
  ∧ - zero_time_offset ≤ Truncate t d.
Proof.
  intros Ht Hd. unfold Truncate. rewrite leb_false by done.
  pose proof (Z.mod_pos_bound (t + zero_time_offset) d Hd) as Hm.
  assert (0 ≤ t + zero_time_offset) by (unfold zero_time_offset, second; lia).
  pose proof (Z.mod_le (t + zero_time_offset) d ltac:(done) Hd). split_and!; [|lia..].
  exists ((t + zero_time_offset) / d). rewrite (Z.mod_eq _ d) by lia. lia.
Qed.

(** A delta key gives back the start of the bucket the span started in, as the timestamps
    of its data point: the multiple of the interval, counted from the zero time, at most one
    interval before the span's start. *)
Theorem time_bucket_roundtrip cfg tr sn span dims res extra k now start :
  k = (buildMetricKey cfg tr sn span dims res).1 ∨ k = buildCustomMetricKey cfg sn span dims res extra →
  GetAggregationTemporality cfg = AggregationTemporalityDelta →
  0 < GetTimeBucketInterval cfg → (second | GetTimeBucketInterval cfg) →
  let d := GetTimeBucketInterval cfg in
  let t := AsTime (span_StartTimestamp span) in
  ∃ b, (d | b + zero_time_offset) ∧ b ≤ t < b + d ∧
       parseTimesFromKeyOrNow k d now start = (u64 b, u64 b).
Proof.
  intros Hk Hdelta Hd Hsec d t.
  assert (∃ rest, k = time_prefix cfg span +:+ rest) as [rest ->].
  { destruct Hk as [-> | ->]; [|unfold buildCustomMetricKey; rewrite buildCustomKey_dest; by eexists].
    unfold buildMetricKey. rewrite buildKey_dest. by eexists. }
  pose proof (i64_range (span_StartTimestamp span)) as Ht.
  destruct (Truncate_spec t d Ht Hd) as (Hdiv & Hb & Hlow).
  exists (Truncate t d). split_and!; [done|lia|lia|].
  assert (second | Truncate t d) as [q Hq].
  { apply (Z.divide_add_cancel_r _ zero_time_offset); [by exists 62135596800|].
    rewrite Z.add_comm. by apply (Z.divide_trans _ d). }
  unfold time_prefix, AddTimeToKeyBuf. rewrite decide_True by done. fold d t.
  assert (Unix (Truncate t d) = q) as E by (unfold Unix; rewrite Hq; by apply Z.div_mul).
  rewrite E. unfold AsTime in *. fold t in Ht. rewrite string_app_nil_l, string_app_assoc, parse_prefixed.
  - by rewrite Hq.
  - unfold zero_time_offset, second in *. lia.
Qed.

(** *** Cumulative temporality *)

Lemma parse_plain p rest interval now start :
  "000"%char ∉ bytes p → p ≠ "" →
  parseTimesFromKeyOrNow (p +:+ metricKeySeparator +:+ rest) interval now start
  = match ParseInt p with
    | Some n => (u64 (n * second), u64 (n * second))
    | None => (start, u64 now)
    end.
Proof.
  intros Hp Hne. unfold parseTimesFromKeyOrNow. rewrite !bytes_app.
  change (bytes metricKeySeparator ++ bytes rest) with ("000"%char :: bytes rest).
  rewrite IndexByte_app by done.
  assert (0 < len (bytes p)) by (unfold len; destruct p; simpl; [done|lia]).
  rewrite leb_false by done. unfold len. by rewrite Nat2Z.id, take_app_length, of_bytes_bytes.
Qed.

(** A cumulative key has no bucket, and the name of the service takes its place: the data
    point spans from the processor's start to now, unless the name is a decimal number,
    which is taken for a time in seconds. *)
Theorem cumulative_times cfg tr sn span dims res interval now start :
  GetAggregationTemporality cfg = AggregationTemporalityCumulative →
  let sn' := overflow_service tr sn in
  "000"%char ∉ bytes sn' → sn' ≠ "" →
  parseTimesFromKeyOrNow (buildMetricKey cfg tr sn span dims res).1 interval now start
  = match ParseInt sn' with
    | Some n => (u64 (n * second), u64 (n * second))
    | None => (start, u64 now)
    end.
Proof.
  intros Hc sn' Hn Hne. unfold buildMetricKey, time_prefix. rewrite Hc, decide_False by done.
  destruct (buildKey_service tr sn span dims res) as [rest ->]. by apply parse_plain.
Qed.

(** *** Collisions *)

(** A key holds the values that are present without saying of which dimensions: two spans
    that have the same value under different attributes share a key, although their labels
    differ. *)
Theorem absent_dimensions_collide tr sn s1 s2 d1 d2 v :
  span_Name s1 = span_Name s2 → span_Kind s1 = span_Kind s2 → span_Status s1 = span_Status s2 →
  span_Attributes s1 = {[ d1 := v ]} → span_Attributes s2 = {[ d2 := v ]} →
  d1 ≠ d2 → d1 ≠ tagHTTPStatusCode → d2 ≠ tagHTTPStatusCode →
  d1 ∉ [serviceNameKey; operationKey; spanKindKey; statusCodeKey] →
  let dims := newDimensions [{| Name := d1; Default := None |}; {| Name := d2; Default := None |}] in
  buildKey tr "" sn s1 dims ∅ = buildKey tr "" sn s2 dims ∅
  ∧ buildDimensionKVs tr sn s1 dims ∅ !! d1 = Some v
  ∧ buildDimensionKVs tr sn s2 dims ∅ !! d1 = None.
Proof.
  intros Hn Hk Hs H1 H2 Hd Ht1 Ht2 Hr dims. rewrite !not_elem_of_cons in Hr. destruct Hr as (?&?&?&?&_).
  assert (∀ (m : Map) d, d ≠ tagHTTPStatusCode →
            getDimensionValue {| name := d; value := None |} m ∅ = m !! d) as Hg.
  { intros m d Hd'. unfold getDimensionValue. simpl. rewrite decide_False by done. by destruct (m !! d). }
  split_and!.
  - unfold buildKey, dimension_vals. rewrite Hn, Hk, Hs, H1, H2. simpl. rewrite !Hg by done.
    rewrite !lookup_singleton_eq, !lookup_singleton_ne by done. done.
  - unfold buildDimensionKVs, dims. simpl. unfold put_dimension, getDimensionValueWithResource. simpl.
    rewrite H1, lookup_singleton_eq, lookup_singleton_ne by done. rewrite !lookup_empty, decide_False by done.
    simpl. by rewrite lookup_insert_eq.
  - unfold buildDimensionKVs, dims. simpl. unfold put_dimension, getDimensionValueWithResource. simpl.
    rewrite H2, lookup_singleton_eq, lookup_singleton_ne by done. rewrite !lookup_empty, decide_False by done.
    simpl. by rewrite !lookup_insert_ne by done.
Qed.

(** *** Overflow *)

Lemma foldl_put_service dims span res (m : Map) :
  Forall (λ d, name d ≠ serviceNameKey) dims →
  foldl (put_dimension span res) m dims !! serviceNameKey = m !! serviceNameKey.
Proof.
  intros Hd. revert m. induction Hd as [|d dims Hn _ IH]; intros m; simpl; [done|]. rewrite IH. unfold put_dimension.
  destruct (getDimensionValueWithResource _ _ _) as [[v []]|]; [| |done].
  - rewrite lookup_insert_ne by (by unfold resourcePrefix). by rewrite lookup_insert_ne.
  - by rewrite lookup_insert_ne.
Qed.

Lemma size_track_new tr sn op :
  serviceToOperations tr !! sn = None →
  size (serviceToOperations (track tr sn op)) = S (size (serviceToOperations tr)).
Proof. intros Hn. simpl. by apply map_size_insert_None. Qed.

(** The service that exceeds the limit gets a key of its own, as the limit is checked before
    the service is recorded, but the labels of the overflow service, as they are built after
    it: the data point of its key says [overflow_service]. *)
Theorem overflow_labels_disagree tr sn span dims res :
  Z.of_nat (size (serviceToOperations tr)) = maxNumberOfServicesToTrack tr →
  serviceToOperations tr !! sn = None →
  Forall (λ d, name d ≠ serviceNameKey) dims →
  let '(key, tr') := buildKey tr "" sn span dims res in
  (∃ rest, key = sn +:+ metricKeySeparator +:+ rest)
  ∧ buildDimensionKVs tr' sn span dims res !! serviceNameKey = Some (NewValueStr overflowServiceName).
Proof.
  intros Hsz Hn Hd. assert (overflow_service tr sn = sn) as Ho.
  { unfold overflow_service. by rewrite Hsz, Z.ltb_irrefl. }
  destruct (buildKey_service tr sn span dims res) as [rest Hk]. rewrite Ho in Hk.
  destruct (buildKey tr "" sn span dims res) as [key tr'] eqn:E. cbn [fst] in Hk. split; [by exists rest|].
  unfold buildDimensionKVs. rewrite foldl_put_service by done.
  assert (overflow_service tr' sn = overflowServiceName) as ->.
  { assert (tr' = track tr sn (overflow_operation tr sn (span_Name span))) as ->.
    { unfold buildKey in E. rewrite Ho in E. by simplify_eq. }
    unfold overflow_service. rewrite size_track_new by done. cbn [maxNumberOfServicesToTrack track].
    rewrite ltb_true by lia. done. }
  rewrite !lookup_insert_ne by done. apply lookup_insert_eq.
Qed.
End keys.

(** ** The remote side of a client span *)

(** [url.Parse]: the host of the parsed URL, [None] an error. *)
Class URL := { url_Parse : string → option string }.

Section remote.
Context `{PD : Pdata} `{UR : URL}.
Abbreviation Map := (gmap string Value).

(** An address and, where there is one, its port. *)
Definition with_port (attrs : Map) (addr : Value) (port : string) : string :=
  match attrs !! port with Some p => Str addr +:+ ":" +:+ Str p | None => Str addr end.

Definition getPeerAddress (attrs : Map) : option string :=
  match attrs !! "net.peer.name" with
  | Some peerName => Some (with_port attrs peerName "net.peer.port")
  | None =>
  match attrs !! "server.address" with
  | Some peerAddress => Some (with_port attrs peerAddress "server.port")
  | None =>
  match attrs !! "net.peer.ip" with
  | Some peerIp => Some (with_port attrs peerIp "net.peer.port")
  | None =>
  match attrs !! "net.sock.peer.addr" with
  | Some peerAddress => Some (with_port attrs peerAddress "net.sock.peer.port")
  | None =>
  match attrs !! "network.peer.address" with
  | Some peerAddress => Some (with_port attrs peerAddress "network.peer.port")
  | None => None
  end end end end end.

(** [None] where the second result is false. *)
Definition getRemoteAddress (span : Span) : option string :=
  let attrs := span_Attributes span in
  match attrs !! "rpc.system" with
  | Some _ =>
      let addr := match attrs !! "rpc.service" with Some s => Str s | None => "" end in
      let addr := match attrs !! "rpc.method" with Some m => addr +:+ "/" +:+ Str m | None => addr end in
      if decide (addr = "") then getPeerAddress attrs else Some addr
  | None =>
  match attrs !! "http.host" with
  | Some host => Some (Str host)
  | None =>
  match getPeerAddress attrs with
  | Some peerAddress =>
      match attrs !! "net.transport" with
      | Some transport =>
          if bool_decide (Str transport = "unix") && bool_decide (Str transport = "pipe") then None
          else Some peerAddress
      | None => Some peerAddress
      end
  | None =>
  match (match attrs !! "http.url" with Some u => Some u | None => attrs !! "url.full" end) with
  | Some httpURL =>
      let urlValue := Str httpURL in
      let urlValue := if negb (has_prefix urlValue "http://") && negb (has_prefix urlValue "https://")
                      then "http://" +:+ urlValue else urlValue in
      url_Parse urlValue
  | None => Str <$> attrs !! "peer.service"
  end end end end.

(** The check of the transport never rejects: no string is both names. *)
Theorem transport_never_checked span addr :
  span_Attributes span !! "rpc.system" = None → span_Attributes span !! "http.host" = None →
  getPeerAddress (span_Attributes span) = Some addr → getRemoteAddress span = Some addr.
Proof.
  intros Hr Hh Hp. unfold getRemoteAddress. rewrite Hr, Hh, Hp.
  destruct (span_Attributes span !! "net.transport") as [t|]; [|done].
  case_bool_decide as H1; case_bool_decide as H2; [by rewrite H1 in H2|done..].
Qed.
End remote.

(** ** Witnesses *)
Section witnesses.
Import TestPdata.

Definition w_cfg (tmp : string) : Config :=
  {| MetricsExporter := "prom"; LatencyHistogramBuckets := None; Dimensions := []; ExcludePatterns := [];
     DimensionsCacheSize := 2; AggregationTemporality := tmp; skipSanitizeLabel := false;
     MetricsFlushInterval := 0; TimeBucketInterval := 0; EnableExpHistogram := true;
     MaxServicesToTrack := 1; MaxOperationsToTrackPerService := 10; SkipSpansOlderThan := 0 |}.
Definition w_dspan (attrs : gmap string tvalue) : Span :=
  {| span_TraceID := "t"; span_SpanID := "s"; span_Name := "op"; span_Kind := SpanKindServer;
     span_StartTimestamp := 90 * second; span_EndTimestamp := 100 * second;
     span_Attributes := attrs; span_Status := StatusCodeOk; span_TraceState := "" |}.
Definition w_tracker : tracker :=
  {| serviceToOperations := {[ "a" := {[ "op" ]} ]}; maxNumberOfServicesToTrack := 1;
     maxNumberOfOperationsToTrackPerService := 10 |}.

Lemma time_bucket_roundtrip_witness :
  let c := w_cfg "AGGREGATION_TEMPORALITY_DELTA" in
  let span := w_dspan ∅ in
  let k := (buildMetricKey c w_tracker "a" span [] ∅).1 in
  let d := GetTimeBucketInterval c in
  ∃ b, (d | b + zero_time_offset) ∧ b ≤ AsTime (span_StartTimestamp span) < b + d
       ∧ parseTimesFromKeyOrNow k d 5 7 = (u64 b, u64 b).
Proof.
  intros c span k d.
  destruct (time_bucket_roundtrip c w_tracker "a" span [] ∅ [] k 5 7) as (b & H1 & H2 & H3).
  - left. reflexivity.
  - vm_compute. reflexivity.
  - vm_compute. reflexivity.
  - exists 60. vm_compute. reflexivity.
  - exists b. exact (conj H1 (conj H2 H3)).
Defined.

(** The service [12] is dated to the twelfth second of 1970. *)
Lemma cumulative_times_witness :
  parseTimesFromKeyOrNow (buildMetricKey (w_cfg "") w_tracker "12" (w_dspan ∅) [] ∅).1 0 5 7
  = (12 * second, 12 * second).
Proof.
  rewrite (cumulative_times (w_cfg "") w_tracker "12" (w_dspan ∅) [] ∅ 0 5 7 eq_refl); [reflexivity| |discriminate].
  apply (bool_decide_eq_true_1 _). vm_compute. reflexivity.
Defined.

Lemma absent_dimensions_collide_witness :
  let dims := newDimensions [{| Name := "x"; Default := None |}; {| Name := "y"; Default := None |}] in
  buildKey w_tracker "" "a" (w_dspan {[ "x" := VStr "v" ]}) dims ∅
  = buildKey w_tracker "" "a" (w_dspan {[ "y" := VStr "v" ]}) dims ∅.
Proof.
  refine (proj1 (absent_dimensions_collide w_tracker "a" (w_dspan {[ "x" := VStr "v" ]}) (w_dspan {[ "y" := VStr "v" ]})
    "x" "y" (VStr "v") eq_refl eq_refl eq_refl eq_refl eq_refl _ _ _ _)); [discriminate..|].
  apply (bool_decide_eq_true_1 _). vm_compute. reflexivity.
Defined.

Lemma overflow_labels_disagree_witness :
  let '(key, tr') := buildKey w_tracker "" "b" (w_dspan ∅) [] ∅ in
  (∃ rest, key = "b" +:+ metricKeySeparator +:+ rest)
  ∧ buildDimensionKVs tr' "b" (w_dspan ∅) [] ∅ !! serviceNameKey = Some (NewValueStr overflowServiceName).
Proof. exact (overflow_labels_disagree w_tracker "b" (w_dspan ∅) [] ∅ eq_refl eq_refl (Forall_nil_2 _)). Defined.

#[local] Instance w_url : URL := {| url_Parse s := Some s |}.
Lemma transport_never_checked_witness :
  getRemoteAddress (w_dspan {[ "net.peer.name" := VStr "h"; "net.transport" := VStr "unix" ]}) = Some "h".
Proof. apply (transport_never_checked _ "h"); reflexivity. Defined.
End witnesses.
