(* ===== verification/SpanHistogram.v ===== *)
(** * Histograms of the span metrics processor

    src/processor/signozspanmetricsprocessor/processor.go: [histogramData], the update of a
    histogram with a latency, the choice of the bucket by [sort.SearchFloat64s], and the
    exponential histogram, a third-party structure behind an interface. *)
From S2P Require Import Prelude Pdata Sampling.
From Stdlib Require Import SpecFloat.

(** ** float64 *)

Definition float64_add (a b : float64) : float64 := SFadd 53 1024 a b.
Definition float64_zero : float64 := S754_zero false.
Definition is_nan (x : float64) : bool := match x with S754_nan => true | _ => false end.

(** Transitivity of [<=], which is false where an operand is NaN. *)
Lemma Pos_cmp_trans_le m1 m2 m3 :
  Pos.compare_cont Eq m1 m2 ≠ Gt → Pos.compare_cont Eq m2 m3 ≠ Gt → Pos.compare_cont Eq m1 m3 ≠ Gt.
Proof. change (m1 ≤ m2 → m2 ≤ m3 → m1 ≤ m3)%positive. lia. Qed.

(** The key that [SFcompare] compares: a float64 as sign, exponent and mantissa. *)
Definition fle (x y : float64) : bool := SFleb x y.

Lemma fle_finite s1 m1 e1 s2 m2 e2 :
  fle (S754_finite s1 m1 e1) (S754_finite s2 m2 e2) = true ↔
  match s1, s2 with
  | true, false => True
  | false, true => False
  | false, false => e1 < e2 ∨ (e1 = e2 ∧ Z.pos m1 ≤ Z.pos m2)
  | true, true => e2 < e1 ∨ (e1 = e2 ∧ Z.pos m2 ≤ Z.pos m1)
  end.
Proof.
  unfold fle, SFleb, SFcompare. destruct s1, s2; try done.
  - destruct (Z.compare_spec e1 e2) as [->|H|H]; simpl.
    + change (Pos.compare_cont Eq m1 m2) with (m1 ?= m2)%positive.
      destruct (Pos.compare_spec m1 m2); simpl; split; (done || lia).
    + split; (done || lia).
    + split; (done || lia).
  - destruct (Z.compare_spec e1 e2) as [->|H|H]; simpl.
    + change (Pos.compare_cont Eq m1 m2) with (m1 ?= m2)%positive.
      destruct (Pos.compare_spec m1 m2); simpl; split; (done || lia).
    + split; (done || lia).
    + split; (done || lia).
Qed.

Lemma fle_trans x y z : fle x y = true → fle y z = true → fle x z = true.
Proof.
  destruct x as [[]|[]| |s1 m1 e1], y as [[]|[]| |s2 m2 e2], z as [[]|[]| |s3 m3 e3]; try done;
    rewrite ?fle_finite; intros H1 H2; try done;
    try (unfold fle, SFleb, SFcompare in *; by repeat match goal with b : bool |- _ => destruct b end);
    repeat match goal with b : bool |- _ => destruct b end; try done; lia.
Qed.

(** [<] is the opposite of [>=] away from NaN. *)
Lemma flt_fle x y : is_nan x = false → is_nan y = false → SFltb x y = negb (fle y x).
Proof.
  intros Hx Hy.
  destruct x as [[]|[]| |[] m1 e1], y as [[]|[]| |[] m2 e2]; try done;
    unfold SFltb, fle, SFleb, SFcompare; rewrite (Z.compare_antisym e1 e2);
    (destruct (e1 ?= e2); simpl; try done);
    change (Pos.compare_cont Eq) with Pos.compare; rewrite (Pos.compare_antisym m1 m2);
    by destruct (m1 ?= m2)%positive.
Qed.

(** ** [sort.Search] *)

(** The loop on [i] and [j]: each turn halves [j - i]. *)
Fixpoint Search_loop (fuel : nat) (f : nat → bool) (i j : nat) : nat :=
  match fuel with
  | O => i
  | S fuel =>
      if (i <? j)%nat
      then let h := Nat.div2 (i + j) in
           if f h then Search_loop fuel f i h else Search_loop fuel f (S h) j
      else i
  end.
Definition Search (n : nat) (f : nat → bool) : nat := Search_loop n f 0 n.

Lemma Search_loop_spec f fuel i j :
  (i ≤ j)%nat → (j - i ≤ fuel)%nat →
  let r := Search_loop fuel f i j in
  (i ≤ r ≤ j)%nat ∧ (r < j → f r = true)%nat ∧ (i < r → f (r - 1) = false)%nat.
Proof.
  revert i j. induction fuel as [|fuel IH]; intros i j Hij Hf; cbn [Search_loop].
  - split_and!; lia.
  - destruct (Nat.ltb_spec i j) as [Hlt|]; [|split_and!; lia]. cbv zeta.
    pose proof (Nat.div2_odd (i + j)) as Hh. set (h := Nat.div2 (i + j)) in *.
    assert (i ≤ h < j)%nat by (destruct (Nat.odd (i + j)); simpl in Hh; lia).
    destruct (f h) eqn:Hfh.
    + destruct (IH i h) as (H1 & H2 & H3); [lia..|]. set (r := Search_loop fuel f i h) in *.
      split_and!; [lia|lia| |done]. intros Hr. destruct (decide (r = h)) as [-> |]; [done|apply H2; lia].
    + destruct (IH (S h) j) as (H1 & H2 & H3); [lia..|]. set (r := Search_loop fuel f (S h) j) in *.
      split_and!; [lia..|done|]. intros Hr. destruct (decide (r = S h)) as [-> |]; [|apply H3; lia].
      by replace (S h - 1)%nat with h by lia.
Qed.

(** The result is the least index at which [f] holds, [n] if there is none, when [f] is
    false up to some index and true from there on. *)
Lemma Search_least n f :
  (∀ i j, i ≤ j → j < n → f i = true → f j = true)%nat →
  (Search n f ≤ n)%nat ∧
  ∀ i, (i < n)%nat → f i = true ↔ (Search n f ≤ i)%nat.
Proof.
  intros Hm. destruct (Search_loop_spec f n 0 n ltac:(lia) ltac:(lia)) as (H1 & H2 & H3).
  fold (Search n f) in *. split; [lia|]. intros i Hi. split.
  - intros Hfi. destruct (decide (Search n f ≤ i)%nat); [done|]. exfalso.
    assert (f (Search n f - 1)%nat = true); [|rewrite H3 in *; [done|lia]].
    apply (Hm i); [lia|lia|done].
  - intros Hle. apply (Hm (Search n f)); [lia|done|apply H2; lia].
Qed.

Lemma Search_bound n f : (Search n f ≤ n)%nat.
Proof. destruct (Search_loop_spec f n 0 n ltac:(lia) ltac:(lia)) as (H1 & _). unfold Search. lia. Qed.

(** [sort.SearchFloat64s(a, x)]: the condition is [a[i] >= x]. *)
Definition SearchFloat64s (a : list float64) (x : float64) : nat :=
  Search (length a) (λ i, match a !! i with Some b => fle x b | None => false end).

Lemma SearchFloat64s_bound a x : (SearchFloat64s a x ≤ length a)%nat.
Proof. apply Search_bound. Qed.

Lemma StronglySorted_lookup {A} (R : A → A → Prop) l i j x y :
  StronglySorted R l → (i < j)%nat → l !! i = Some x → l !! j = Some y → R x y.
Proof.
  intros Hs. revert i j. induction Hs as [|z l Hs IH Hz]; intros [|i] [|j] Hij Hx Hy; simplify_eq/=; try lia.
  - rewrite Forall_forall in Hz. apply Hz. by eapply list_elem_of_lookup_2.
  - apply (IH i j); [lia|done..].
Qed.

(** On bounds in order, the bucket a value falls in is the one between the last bound below
    it and the first bound that is not: the bounds are inclusive from above. *)
Lemma SearchFloat64s_sorted a x i b :
  StronglySorted (λ x y, fle x y = true) a → a !! i = Some b →
  fle x b = true ↔ (SearchFloat64s a x ≤ i)%nat.
Proof.
  intros Hs Hb. pose proof (lookup_lt_Some _ _ _ Hb) as Hi.
  destruct (Search_least (length a) (λ i, match a !! i with Some b => fle x b | None => false end)) as [_ H].
  { intros j k Hjk Hk. destruct (lookup_lt_is_Some_2 a j ltac:(lia)) as [c Hc].
    destruct (lookup_lt_is_Some_2 a k ltac:(lia)) as [d Hd]. rewrite Hc, Hd. intros Hx.
    destruct (decide (j = k)) as [-> |]; [by simplify_eq|]. apply (fle_trans _ c); [done|].
    apply (StronglySorted_lookup (λ x y, fle x y = true) a j k); [done|lia|done..]. }
  specialize (H i Hi). simpl in H. by rewrite Hb in H.
Qed.

(** ** Latencies and bounds *)

Definition millisecond : Z := 10 ^ 6.
Definition durationToMillis (d : Z) : float64 :=
  float64_div (float64_of_int d) (float64_of_int millisecond).
Definition mapDurationsToMillis (vs : list Z) : list float64 := durationToMillis <$> vs.

Definition defaultLatencyHistogramBucketsMs : list float64 :=
  float64_of_int <$> [2; 4; 6; 8; 10; 50; 100; 200; 400; 800; 1000; 1400; 2000; 5000; 10000; 15000].

(** The latency of a span, with uint64 timestamps: zero if it ends before it starts. *)
Definition latencyInMilliseconds (startTime endTime : Z) : float64 :=
  if startTime <? endTime
  then float64_div (float64_of_int (u64 (endTime - startTime))) (float64_of_int millisecond)
  else float64_zero.

(** ** [histogramData] *)

Record exemplarData := { traceID : TraceID; spanID : string; ex_value : float64 }.
Record histogramData := {
  count : Z;
  sum : float64;
  bucketCounts : list Z;
  exemplarsData : list exemplarData;
}.

(** A histogram as [updateHistogram] creates it. *)
Definition new_histogramData (latencyBounds : list float64) : histogramData :=
  {| count := 0; sum := float64_zero; bucketCounts := replicate (length latencyBounds + 1) 0;
     exemplarsData := [] |}.

(** The body of the four update functions: an index out of range panics. *)
Definition observe (latencyBounds : list float64) (histo : histogramData) (latency : float64)
    (tid : TraceID) (sid : string) : outcome histogramData :=
  let index := SearchFloat64s latencyBounds latency in
  match bucketCounts histo !! index with
  | None => Panics
  | Some n => Done {|
      count := u64 (count histo + 1);
      sum := float64_add (sum histo) latency;
      bucketCounts := <[index := u64 (n + 1)]> (bucketCounts histo);
      exemplarsData := exemplarsData histo ++ [{| traceID := tid; spanID := sid; ex_value := latency |}] |}
  end.

(** The map of a series: an absent key gets a new histogram. *)
Definition update_histograms (latencyBounds : list float64) (hs : gmap string histogramData)
    (key : string) (latency : float64) (tid : TraceID) (sid : string)
  : outcome (gmap string histogramData) :=
  let histo := match hs !! key with Some h => h | None => new_histogramData latencyBounds end in
  h ← observe latencyBounds histo latency tid sid;
  Done (<[key := h]> hs).

Definition reset_exemplars (h : histogramData) : histogramData :=
  {| count := count h; sum := sum h; bucketCounts := bucketCounts h; exemplarsData := [] |}.

(** *** Summaries

    What a histogram of the latencies [xs] holds: the number of values, their sum in the
    order they came, and the number of values in each bucket, on 64 bits. *)

Definition in_bucket (bounds : list float64) (i : nat) (xs : list float64) : Z :=
  len (filter (λ x, SearchFloat64s bounds x = i) xs).
Definition summary_counts (bounds xs : list float64) : list Z :=
  (λ i, u64 (in_bucket bounds i xs)) <$> seq 0 (length bounds + 1).

Record summarises (bounds xs : list float64) (h : histogramData) : Prop := {
  sum_count : count h = u64 (len xs);
  sum_sum : sum h = foldl float64_add float64_zero xs;
  sum_buckets : bucketCounts h = summary_counts bounds xs;
}.

Lemma new_summarises bounds : summarises bounds [] (new_histogramData bounds).
Proof.
  split; [done|done|]. simpl. unfold summary_counts. apply list_eq. intros i.
  rewrite list_lookup_fmap. destruct (decide (i < length bounds + 1)%nat).
  - rewrite lookup_replicate_2, lookup_seq_lt by done. done.
  - rewrite lookup_seq_ge by lia. apply lookup_replicate_None. lia.
Qed.

Lemma reset_summarises bounds xs h : summarises bounds xs h → summarises bounds xs (reset_exemplars h).
Proof. by intros []. Qed.

Lemma in_bucket_snoc bounds i xs x :
  in_bucket bounds i (xs ++ [x])
  = in_bucket bounds i xs + (if decide (SearchFloat64s bounds x = i) then 1 else 0).
Proof.
  unfold in_bucket, len. rewrite filter_app, length_app, filter_cons, filter_nil.
  case_decide; simpl; lia.
Qed.

(** Observing a latency never panics and adds it to what the histogram summarises. *)
Lemma observe_summarises bounds xs h x tid sid :
  summarises bounds xs h → ∃ h', observe bounds h x tid sid = Done h' ∧ summarises bounds (xs ++ [x]) h'.
Proof.
  intros [Hc Hs Hb]. unfold observe. set (index := SearchFloat64s bounds x).
  pose proof (SearchFloat64s_bound bounds x) as Hi. fold index in Hi.
  assert (bucketCounts h !! index = Some (u64 (in_bucket bounds index xs))) as Hl.
  { rewrite Hb. unfold summary_counts. by rewrite list_lookup_fmap, lookup_seq_lt by lia. }
  rewrite Hl. eexists; split; [done|]. split; simpl.
  - rewrite Hc, u64_add_l. f_equal. unfold len. rewrite length_app. simpl. lia.
  - by rewrite Hs, foldl_snoc.
  - rewrite Hb, u64_add_l. unfold summary_counts. apply list_eq. intros i.
    rewrite list_lookup_fmap. destruct (decide (i < length bounds + 1)%nat) as [Hlt|Hge].
    + rewrite lookup_seq_lt by done. simpl. rewrite in_bucket_snoc. fold index.
      destruct (decide (index = i)) as [-> |Hne].
      * rewrite list_lookup_insert_eq; [done|]. by rewrite length_fmap, length_seq.
      * rewrite list_lookup_insert_ne by done. rewrite list_lookup_fmap, lookup_seq_lt by done.
        simpl. by rewrite Z.add_0_r.
    + rewrite lookup_seq_ge by lia. simpl. apply lookup_ge_None_2.
      rewrite length_insert, length_fmap, length_seq. lia.
Qed.

(** The buckets add up to the count, on 64 bits. *)
Lemma buckets_partition bounds xs :
  sum_list_with (λ i, length (filter (λ x, SearchFloat64s bounds x = i) xs)) (seq 0 (length bounds + 1))
  = length xs.
Proof.
  apply sum_filter_all; [apply NoDup_seq|]. intros x _. apply elem_of_seq.
  pose proof (SearchFloat64s_bound bounds x). lia.
Qed.

(** A well-formed histogram: a bucket per bound and one above them, 64-bit counters that
    add up. *)
Record histogram_ok (bounds : list float64) (h : histogramData) : Prop := {
  ok_length : length (bucketCounts h) = S (length bounds);
  ok_count : 0 ≤ count h < two64;
  ok_buckets : Forall (λ n, 0 ≤ n < two64) (bucketCounts h);
  ok_total : u64 (foldr Z.add 0 (bucketCounts h)) = count h;
}.

Lemma summarises_ok bounds xs h : summarises bounds xs h → histogram_ok bounds h.
Proof.
  intros [Hc _ Hb]. split; rewrite ?Hc, ?Hb.
  - unfold summary_counts. rewrite length_fmap, length_seq. lia.
  - apply u64_range.
  - apply Forall_fmap, Forall_true. intros i. apply u64_range.
  - unfold summary_counts, in_bucket, len. rewrite <- (buckets_partition bounds xs).
    generalize (seq 0 (length bounds + 1)). intros l.
    induction l as [|i l IH]; [done|]. cbn [fmap list_fmap foldr sum_list_with].
    rewrite Nat2Z.inj_add, u64_add_l, Z.add_comm, <- u64_add_l, IH, u64_add_l. f_equal. lia.
Qed.

(** With bounds in ascending order an observation counts in exactly one bucket: the one
    whose upper bound is the first at or above the latency, the last where there is none. *)
Theorem observe_bucket bounds h x tid sid :
  StronglySorted (λ b c, fle b c = true) bounds → length (bucketCounts h) = S (length bounds) →
  ∃ h' i, observe bounds h x tid sid = Done h' ∧ (i ≤ length bounds)%nat
    ∧ (∀ j b, bounds !! j = Some b → fle x b = true ↔ (i ≤ j)%nat)
    ∧ bucketCounts h' = alter (λ n, u64 (n + 1)) i (bucketCounts h)
    ∧ count h' = u64 (count h + 1).
Proof.
  intros Hs Hl. pose proof (SearchFloat64s_bound bounds x) as Hb. unfold observe.
  destruct (lookup_lt_is_Some_2 (bucketCounts h) (SearchFloat64s bounds x)) as [n Hn]; [lia|]. rewrite Hn.
  eexists _, (SearchFloat64s bounds x). split_and!; [reflexivity|done| | |done].
  - intros j b Hj. by apply SearchFloat64s_sorted.
  - simpl. apply list_eq. intros i. destruct (decide (i = SearchFloat64s bounds x)) as [-> |Hne].
    + rewrite list_lookup_insert_eq, list_lookup_alter_eq, Hn by (by eapply lookup_lt_Some). done.
    + by rewrite list_lookup_insert_ne, list_lookup_alter_ne by done.
Qed.

#[export] Instance fle_transitive : Transitive (λ b c, fle b c = true).
Proof. intros x y z. apply fle_trans. Qed.

Lemma default_bounds_sorted : StronglySorted (λ b c, fle b c = true) defaultLatencyHistogramBucketsMs.
Proof.
  apply Sorted_StronglySorted; [apply fle_transitive|].
  unfold defaultLatencyHistogramBucketsMs. cbn [fmap list_fmap]. repeat constructor.
Qed.

(** A latency of 6 ms falls in the third default bucket. *)
Lemma observe_bucket_witness :
  let b := defaultLatencyHistogramBucketsMs in
  ∃ h', observe b (new_histogramData b) (float64_of_int 6) "t" "s" = Done h' ∧ count h' = 1
        ∧ bucketCounts h' !! 2%nat = Some 1.
Proof.
  intros b. destruct (observe_bucket b (new_histogramData b) (float64_of_int 6) "t" "s" default_bounds_sorted eq_refl)
    as (h' & i & Ho & _ & _ & _ & Hc).
  exists h'. split; [exact Ho|]. split; [exact Hc|].
  assert (bucketCounts <$> (match observe b (new_histogramData b) (float64_of_int 6) "t" "s" with Done h => Some h | _ => None end)
          = Some [0; 0; 1; 0; 0; 0; 0; 0; 0; 0; 0; 0; 0; 0; 0; 0; 0]) as E by (vm_compute; reflexivity).
  rewrite Ho in E. injection E as ->. reflexivity.
Defined.

(** *** Maps of histograms *)

(** [log] holds, per key, the latencies observed: the abstract state of a series. *)
Abbreviation log := (gmap string (list float64)).
Definition log_observe (l : log) (key : string) (x : float64) : log :=
  <[key := default [] (l !! key) ++ [x]]> l.

(** The map of histograms of a log: the same keys, each with its summary. *)
Definition represents (bounds : list float64) (l : log) (hs : gmap string histogramData) : Prop :=
  map_Forall2 (λ _, summarises bounds) l hs.

Lemma represents_lookup bounds l hs k h :
  represents bounds l hs → hs !! k = Some h → ∃ xs, l !! k = Some xs ∧ summarises bounds xs h.
Proof. intros Hr Hh. specialize (Hr k). rewrite Hh in Hr. inversion Hr; subst. by eexists. Qed.

Lemma represents_dom bounds l hs : represents bounds l hs → dom hs = dom l.
Proof.
  intros Hr. apply set_eq. intros k. rewrite !elem_of_dom. specialize (Hr k). by inversion Hr.
Qed.

(** The update of a series never panics and refines [log_observe]. *)
Lemma update_refines bounds l hs key x tid sid :
  represents bounds l hs →
  ∃ hs', update_histograms bounds hs key x tid sid = Done hs' ∧ represents bounds (log_observe l key x) hs'.
Proof.
  intros Hr. unfold update_histograms, log_observe.
  assert (summarises bounds (default [] (l !! key))
    match hs !! key with Some h => h | None => new_histogramData bounds end) as Hs.
  { specialize (Hr key). destruct Hr; [done|]. apply new_summarises. }
  destruct (observe_summarises bounds _ _ x tid sid Hs) as (h' & E & Hs').
  rewrite E. eexists; split; [done|]. by apply map_Forall2_insert_2.
Qed.

Lemma reset_refines bounds l hs :
  represents bounds l hs → represents bounds l (reset_exemplars <$> hs).
Proof. intros Hr k. rewrite lookup_fmap. destruct (Hr k); constructor. by apply reset_summarises. Qed.

(** Deleting keys. *)
Lemma represents_filter bounds l hs (P : string → Prop) `{∀ k, base.Decision (P k)} :
  represents bounds l hs →
  represents bounds (filter (λ kv, P kv.1) l) (filter (λ kv, P kv.1) hs).
Proof.
  intros Hr k. rewrite !map_lookup_filter. destruct (Hr k); simpl; [|constructor].
  destruct (decide (P k)) as [Hp|Hp].
  - rewrite !option_guard_True by done. by constructor.
  - rewrite !option_guard_False by done. constructor.
Qed.

(** ** Exponential histograms *)

(** One side of the buckets of a [structure.Histogram]; [At] is defined below [Len]. *)
Record Buckets := { Offset : Z; Len : Z; At : Z → Z }.

(** [structure.Histogram] of lightstep/go-expohisto, initialised with the default size. *)
Class ExpoHistogram := {
  Histogram : Type;
  hist_Init : Histogram;
  hist_Update : Histogram → float64 → Histogram;
  hist_Count : Histogram → Z;
  hist_Sum : Histogram → float64;
  hist_Min : Histogram → float64;
  hist_Max : Histogram → float64;
  hist_ZeroCount : Histogram → Z;
  hist_Scale : Histogram → Z;
  hist_Positive : Histogram → Buckets;
  hist_Negative : Histogram → Buckets;
}.

(** The fields of a [pmetric.ExponentialHistogramDataPoint]. *)
Record ExpoPoint := {
  e_start : Z; e_time : Z;
  e_count : Z; e_sum : float64; e_min : option float64; e_max : option float64;
  e_zeroCount : Z; e_scale : Z;
  e_positive : Z * list Z; e_negative : Z * list Z;
}.

Section expo.
Context `{EH : ExpoHistogram}.

Definition copy_buckets (b : Buckets) : Z * list Z :=
  (Offset b, (λ i, At b (Z.of_nat i)) <$> seq 0 (Z.to_nat (Len b))).

Definition expoHistToExponentialDataPoint (start time : Z) (agg : Histogram) : ExpoPoint :=
  {| e_start := start; e_time := time;
     e_count := hist_Count agg; e_sum := hist_Sum agg;
     e_min := if hist_Count agg =? 0 then None else Some (hist_Min agg);
     e_max := if hist_Count agg =? 0 then None else Some (hist_Max agg);
     e_zeroCount := hist_ZeroCount agg; e_scale := hist_Scale agg;
     e_positive := copy_buckets (hist_Positive agg);
     e_negative := copy_buckets (hist_Negative agg) |}.

(** [updateExpHistogram] on the map of the series. *)
Definition update_expo (hs : gmap string Histogram) (key : string) (latency : float64) : gmap string Histogram :=
  <[key := hist_Update (match hs !! key with Some h => h | None => hist_Init end) latency]> hs.
End expo.

(** ** Exemplars *)

(** A [pmetric.Exemplar] as [AppendEmpty] makes it or with its fields set. *)
Definition exemplar : Type := option (float64 * Z * TraceID * string).

(** [TraceID.IsEmpty]: all sixteen bytes are zero. *)
Definition TraceID_IsEmpty (t : TraceID) : bool := forallb (Ascii.eqb "000") (bytes t).

Definition setExemplars (data : list exemplarData) (timestamp : Z) : list exemplar :=
  (λ ed, if TraceID_IsEmpty (traceID ed) then None
         else Some (ex_value ed, timestamp, traceID ed, spanID ed)) <$> data.

(** ** Data points and metrics *)

Section points.
Context `{PD : Pdata}.
Abbreviation Map := (gmap string Value).

Record HistogramPoint := {
  h_start : Z; h_time : Z;
  h_bounds : list float64; h_buckets : list Z; h_count : Z; h_sum : float64;
  h_exemplars : list exemplar; h_attributes : Map;
}.
Inductive number := IntValue (z : Z) | DoubleValue (x : float64).
Record NumberPoint := { n_start : Z; n_time : Z; n_value : number; n_attributes : Map }.
Inductive metric_data :=
| MHistogram (points : list HistogramPoint)
| MExponential (points : list (ExpoPoint * Map))
| MSum (isMonotonic : bool) (points : list NumberPoint).
End points.
