(* ===== verification/SpanMetrics.v ===== *)
(** * The span metrics processor

    src/processor/signozspanmetricsprocessor/processor.go. The four maps of histograms, each
    with its cache of labels, are the families of [series]; the mutex makes the handlers
    [ConsumeTraces] and [exportMetrics] atomic steps. Iterating over a map takes the order
    of its keys as an argument, with the clock read at each key. *)
From stdpp Require Import functions.
From S2P Require Import Prelude GoText Pdata Sampling SpanCache SpanDims SpanHistogram.

(** [signoz_latency], [signoz_calls_total], [signoz_db_latency_*] and
    [signoz_external_call_latency_*]. *)
Inductive series := Latency | Calls | DBCalls | ExternalCalls.
#[export] Instance series_eq_dec : EqDecision series.
Proof. solve_decision. Defined.

(** [regexp.Compile] succeeds. *)
Class RegexpCompile := { compiles : string → bool }.

Section span_metrics.
Context `{UC : Unicode} `{UT : !UnicodeTables UC} `{PD : Pdata} `{PT : !PdataText PD}
  `{RX : Regexp} `{RC : RegexpCompile} `{UR : URL} `{EH : ExpoHistogram}.
Abbreviation Map := (gmap string Value).
Context `{LR : SimpleLRU string Map}.

(** ** State *)

Record family := {
  histograms : gmap string histogramData;
  keyToDimensions : Cache string Map;
}.

(** What [newProcessor] fixes. The four copies of the bounds are equal; the updates use
    [latencyBounds] for every series. *)
Record settings := {
  instanceID : string;
  config : Config;
  startTimestamp : Z;
  latencyBounds : list float64;
  dimensions : list dimension;
  expDimensions : list dimension;
  callDimensions : list dimension;
  dbCallDimensions : list dimension;
  externalCallDimensions : list dimension;
  excludePatternRegex : gmap string string;
}.

(** The exporters are named by their IDs. [shutdownOnce] tells that its function ran. *)
Record processorImp := {
  st : settings;
  families : series → family;
  expHistograms : gmap string Histogram;
  expHistogramKeyToDimensions : Cache string Map;
  attrsCardinality : cardinality;
  services : tracker;
  metricsConsumer : list string;
  started : bool;
  shutdownOnce : bool;
}.

Definition set_family (p : processorImp) (s : series) (f : family) : processorImp :=
  {| st := st p; families := <[s := f]> (families p);
     expHistograms := expHistograms p; expHistogramKeyToDimensions := expHistogramKeyToDimensions p;
     attrsCardinality := attrsCardinality p; services := services p;
     metricsConsumer := metricsConsumer p; started := started p; shutdownOnce := shutdownOnce p |}.
Definition set_families (p : processorImp) (fs : series → family) : processorImp :=
  {| st := st p; families := fs;
     expHistograms := expHistograms p; expHistogramKeyToDimensions := expHistogramKeyToDimensions p;
     attrsCardinality := attrsCardinality p; services := services p;
     metricsConsumer := metricsConsumer p; started := started p; shutdownOnce := shutdownOnce p |}.
Definition set_expo (p : processorImp) (hs : gmap string Histogram) (c : Cache string Map) : processorImp :=
  {| st := st p; families := families p; expHistograms := hs; expHistogramKeyToDimensions := c;
     attrsCardinality := attrsCardinality p; services := services p;
     metricsConsumer := metricsConsumer p; started := started p; shutdownOnce := shutdownOnce p |}.
Definition set_cardinality (p : processorImp) (card : cardinality) : processorImp :=
  {| st := st p; families := families p;
     expHistograms := expHistograms p; expHistogramKeyToDimensions := expHistogramKeyToDimensions p;
     attrsCardinality := card; services := services p;
     metricsConsumer := metricsConsumer p; started := started p; shutdownOnce := shutdownOnce p |}.
Definition set_services (p : processorImp) (tr : tracker) : processorImp :=
  {| st := st p; families := families p;
     expHistograms := expHistograms p; expHistogramKeyToDimensions := expHistogramKeyToDimensions p;
     attrsCardinality := attrsCardinality p; services := tr;
     metricsConsumer := metricsConsumer p; started := started p; shutdownOnce := shutdownOnce p |}.
Definition set_started (p : processorImp) (cons : list string) (run once : bool) : processorImp :=
  {| st := st p; families := families p;
     expHistograms := expHistograms p; expHistogramKeyToDimensions := expHistogramKeyToDimensions p;
     attrsCardinality := attrsCardinality p; services := services p;
     metricsConsumer := cons; started := run; shutdownOnce := once |}.

(** ** [newProcessor] *)

Inductive processor_error := InvalidDimension (e : dimension_error) | InvalidCacheSize (size : Z) | CacheError.

(** [regexp.MustCompile] panics; a later pattern of a name replaces an earlier one. *)
Fixpoint compile_patterns (regexps : gmap string string) (patterns : list ExcludePattern)
  : outcome (gmap string string) :=
  match patterns with
  | [] => Done regexps
  | pat :: rest =>
      if compiles (ep_Pattern pat)
      then compile_patterns (<[ep_Name pat := ep_Pattern pat]> regexps) rest else Panics
  end.

Definition with_interval (c : Config) : Config :=
  {| MetricsExporter := MetricsExporter c; LatencyHistogramBuckets := LatencyHistogramBuckets c;
     Dimensions := Dimensions c; ExcludePatterns := ExcludePatterns c;
     DimensionsCacheSize := DimensionsCacheSize c; AggregationTemporality := AggregationTemporality c;
     skipSanitizeLabel := skipSanitizeLabel c; MetricsFlushInterval := MetricsFlushInterval c;
     TimeBucketInterval := if TimeBucketInterval c =? 0 then defaultTimeBucketInterval else TimeBucketInterval c;
     EnableExpHistogram := EnableExpHistogram c; MaxServicesToTrack := MaxServicesToTrack c;
     MaxOperationsToTrackPerService := MaxOperationsToTrackPerService c;
     SkipSpansOlderThan := SkipSpansOlderThan c |}.

Definition no_default (n : string) : Dimension := {| Name := n; Default := None |}.

(** The five caches are made by the same call; [now] is the clock. *)
Definition newProcessor (instance : string) (c : Config) (now : Z) : outcome (processor_error + processorImp) :=
  let pConfig := with_interval c in
  let bounds := match LatencyHistogramBuckets pConfig with
                | Some vs => mapDurationsToMillis vs
                | None => defaultLatencyHistogramBucketsMs
                end in
  match validateDimensions (Dimensions pConfig) (skipSanitizeLabel pConfig) with
  | Some e => Done (inl (InvalidDimension e))
  | None =>
  if DimensionsCacheSize pConfig <=? 0 then Done (inl (InvalidCacheSize (DimensionsCacheSize pConfig)))
  else match NewCache (DimensionsCacheSize pConfig) with
  | None => Done (inl CacheError)
  | Some cache =>
      regexps ← compile_patterns ∅ (ExcludePatterns pConfig);
      Done (inr {|
        st := {| instanceID := instance; config := pConfig; startTimestamp := NewTimestampFromTime now;
                 latencyBounds := bounds;
                 dimensions := newDimensions (Dimensions pConfig);
                 expDimensions := newDimensions (Dimensions pConfig);
                 callDimensions := newDimensions (no_default tagHTTPStatusCode :: Dimensions pConfig);
                 dbCallDimensions :=
                   newDimensions (no_default "db.system" :: no_default "db.name" :: Dimensions pConfig);
                 externalCallDimensions := newDimensions (no_default tagHTTPStatusCode :: Dimensions pConfig);
                 excludePatternRegex := regexps |};
        families := λ _, {| histograms := ∅; keyToDimensions := cache |};
        expHistograms := ∅;
        expHistogramKeyToDimensions := cache;
        attrsCardinality := ∅;
        services := {| serviceToOperations := ∅;
                       maxNumberOfServicesToTrack := MaxServicesToTrack pConfig;
                       maxNumberOfOperationsToTrackPerService := MaxOperationsToTrackPerService pConfig |};
        metricsConsumer := []; started := false; shutdownOnce := false |})
  end
  end.

(** ** Aggregation *)

(** [shouldSkip]: the patterns are tried in the order of a map, which does not matter. *)
Definition pattern_matches (serviceName : string) (span : Span) (resourceAttrs : Map)
    (kp : string * string) : bool :=
  let '(key, pattern) := kp in
  let attr_matches (m : Map) := match m !! key with
                                | Some v => MatchString pattern (AsString v)
                                | None => false
                                end in
  (bool_decide (key = serviceNameKey) && MatchString pattern serviceName)
  || (bool_decide (key = operationKey) && MatchString pattern (span_Name span))
  || (bool_decide (key = spanKindKey) && MatchString pattern (SpanKind_String (span_Kind span)))
  || (bool_decide (key = statusCodeKey) && MatchString pattern (StatusCode_String (span_Status span)))
  || attr_matches (span_Attributes span) || attr_matches resourceAttrs.
Definition shouldSkip (stg : settings) (serviceName : string) (span : Span) (resourceAttrs : Map) : bool :=
  existsb (pattern_matches serviceName span resourceAttrs) (map_to_list (excludePatternRegex stg)).

(** The five cache functions: on a miss the labels [kvs] are built, which counts them in
    [attrsCardinality], and added. *)
Definition cache_dimensions (c : Cache string Map) (card : cardinality) (k : string) (kvs : Map)
  : Cache string Map * cardinality :=
  match Get c k with
  | (Some _, c) => (c, card)
  | (None, c) => ((Add c k kvs).2, record_cardinality kvs card)
  end.

Definition cache_series (p : processorImp) (s : series) (k : string) (kvs : Map) : processorImp :=
  let f := families p s in
  let '(c, card) := cache_dimensions (keyToDimensions f) (attrsCardinality p) k kvs in
  set_cardinality (set_family p s {| histograms := histograms f; keyToDimensions := c |}) card.

Definition cache (p : processorImp) (serviceName : string) (span : Span) (k : string) (resourceAttrs : Map) :=
  cache_series p Latency k (buildDimensionKVs (services p) serviceName span (dimensions (st p)) resourceAttrs).
Definition expHistogramCache (p : processorImp) (serviceName : string) (span : Span) (k : string)
    (resourceAttrs : Map) : processorImp :=
  let '(c, card) :=
    cache_dimensions (expHistogramKeyToDimensions p) (attrsCardinality p) k
      (buildDimensionKVs (services p) serviceName span (expDimensions (st p)) resourceAttrs) in
  set_cardinality (set_expo p (expHistograms p) c) card.
Definition callCache (p : processorImp) (serviceName : string) (span : Span) (k : string) (resourceAttrs : Map) :=
  cache_series p Calls k (buildDimensionKVs (services p) serviceName span (callDimensions (st p)) resourceAttrs).
Definition dbCallCache (p : processorImp) (serviceName : string) (span : Span) (k : string) (resourceAttrs : Map) :=
  cache_series p DBCalls k
    (buildCustomDimensionKVs serviceName span (dbCallDimensions (st p)) resourceAttrs ∅).
Definition externalCallCache (p : processorImp) (serviceName : string) (span : Span) (k : string)
    (resourceAttrs extraDims : Map) : processorImp :=
  cache_series p ExternalCalls k
    (buildCustomDimensionKVs serviceName span (externalCallDimensions (st p)) resourceAttrs extraDims).

Definition update_series (p : processorImp) (s : series) (key : string) (latency : float64)
    (tid : TraceID) (sid : string) : outcome processorImp :=
  let f := families p s in
  hs ← update_histograms (latencyBounds (st p)) (histograms f) key latency tid sid;
  Done (set_family p s {| histograms := hs; keyToDimensions := keyToDimensions f |}).
Definition updateHistogram p := update_series p Latency.
Definition updateCallHistogram p := update_series p Calls.
Definition updateDBHistogram p := update_series p DBCalls.
Definition updateExternalHistogram p := update_series p ExternalCalls.
Definition updateExpHistogram (p : processorImp) (key : string) (latency : float64) : processorImp :=
  set_expo p (update_expo (expHistograms p) key latency) (expHistogramKeyToDimensions p).

(** The span started before the window that ends at [now]. *)
Definition is_stale (c : Config) (now : Z) (span : Span) : bool :=
  let spanSkipWindow := GetSkipSpansOlderThan c in
  (0 <? spanSkipWindow) && (AsTime (span_StartTimestamp span) <? now - spanSkipWindow).

(** The five parts of [aggregateMetricsForSpan]. *)
Definition aggregate_latency (p : processorImp) (serviceName : string) (span : Span) (resourceAttr : Map)
    (latency : float64) : outcome processorImp :=
  let '(key, tr) := buildMetricKey (config (st p)) (services p) serviceName span (dimensions (st p)) resourceAttr in
  let p := set_services p tr in
  let p := cache p serviceName span key resourceAttr in
  updateHistogram p key latency (span_TraceID span) (span_SpanID span).

Definition aggregate_exp (p : processorImp) (serviceName : string) (span : Span) (resourceAttr : Map)
    (latency : float64) : processorImp :=
  if EnableExpHistogram (config (st p)) then
    let '(expKey, tr) :=
      buildMetricKey (config (st p)) (services p) serviceName span (expDimensions (st p)) resourceAttr in
    let p := set_services p tr in
    let p := expHistogramCache p serviceName span expKey resourceAttr in
    updateExpHistogram p expKey latency
  else p.

Definition aggregate_calls (p : processorImp) (serviceName : string) (span : Span) (resourceAttr : Map)
    (latency : float64) : outcome processorImp :=
  let '(callKey, tr) :=
    buildMetricKey (config (st p)) (services p) serviceName span (callDimensions (st p)) resourceAttr in
  let p := set_services p tr in
  let p := callCache p serviceName span callKey resourceAttr in
  updateCallHistogram p callKey latency (span_TraceID span) (span_SpanID span).

Definition aggregate_external (p : processorImp) (serviceName : string) (span : Span) (resourceAttr : Map)
    (latency : float64) : outcome processorImp :=
  match getRemoteAddress span with
  | Some remoteAddr =>
      if decide (span_Kind span = SpanKindClient) then
        let externalCallKey := buildCustomMetricKey (config (st p)) serviceName span
                                 (externalCallDimensions (st p)) resourceAttr [remoteAddr] in
        let extraDims := {[ "address" := NewValueStr remoteAddr ]} in
        let p := externalCallCache p serviceName span externalCallKey resourceAttr extraDims in
        updateExternalHistogram p externalCallKey latency (span_TraceID span) (span_SpanID span)
      else Done p
  | None => Done p
  end.

Definition aggregate_db (p : processorImp) (serviceName : string) (span : Span) (resourceAttr : Map)
    (latency : float64) : outcome processorImp :=
  match span_Attributes span !! "db.system" with
  | Some _ =>
      if decide (span_Kind span = SpanKindServer) then Done p
      else
        let dbCallKey := buildCustomMetricKey (config (st p)) serviceName span
                           (dbCallDimensions (st p)) resourceAttr [] in
        let p := dbCallCache p serviceName span dbCallKey resourceAttr in
        updateDBHistogram p dbCallKey latency (span_TraceID span) (span_SpanID span)
  | None => Done p
  end.

Definition aggregateMetricsForSpan (p : processorImp) (now : Z) (serviceName : string) (span : Span)
    (resourceAttr : Map) : outcome processorImp :=
  if is_stale (config (st p)) now span then Done p
  else if shouldSkip (st p) serviceName span resourceAttr then Done p
  else
    let latency := latencyInMilliseconds (span_StartTimestamp span) (span_EndTimestamp span) in
    p ← aggregate_latency p serviceName span resourceAttr latency;
    let p := aggregate_exp p serviceName span resourceAttr latency in
    p ← aggregate_calls p serviceName span resourceAttr latency;
    p ← aggregate_external p serviceName span resourceAttr latency;
    aggregate_db p serviceName span resourceAttr latency.

(** [resourceAttr.PutStr(signozID, ...)] on a resource that has a service name. *)
Definition tag_resource (stg : settings) (rspans : ResourceSpans) : ResourceSpans :=
  match rs_Resource rspans !! serviceNameKey with
  | None => rspans
  | Some _ => {| rs_Resource := <[signozID := NewValueStr (instanceID stg)]> (rs_Resource rspans);
                 rs_ScopeSpans := rs_ScopeSpans rspans |}
  end.

(** The spans the loops of [aggregateMetrics] reach, with their service and resource. *)
Definition resource_items (stg : settings) (rspans : ResourceSpans) : list (string * Span * Map) :=
  match rs_Resource rspans !! serviceNameKey with
  | None => []
  | Some serviceAttr =>
      (λ span, (Str serviceAttr, span, rs_Resource (tag_resource stg rspans))) <$> rs_spans rspans
  end.

(** [clock n] is the time read for the [n]-th span. *)
Fixpoint aggregate_spans (p : processorImp) (clock : nat → Z) (items : list (string * Span * Map))
  : outcome processorImp :=
  match items with
  | [] => Done p
  | (serviceName, span, resourceAttr) :: rest =>
      p ← aggregateMetricsForSpan p (clock O) serviceName span resourceAttr;
      aggregate_spans p (λ n, clock (S n)) rest
  end.
Definition aggregateMetrics (p : processorImp) (clock : nat → Z) (traces : Traces) : outcome processorImp :=
  aggregate_spans p clock (traces ≫= resource_items (st p)).

(** The traces handed to the next consumer, whose error [ConsumeTraces] returns. *)
Definition ConsumeTraces (p : processorImp) (clock : nat → Z) (traces : Traces)
  : outcome (processorImp * Traces) :=
  p' ← aggregateMetrics p clock traces;
  Done (p', tag_resource (st p) <$> traces).

(** ** Export *)

(** The order in which the maps are visited, each key with the clock read there. *)
Record orders := { o_series : series → list (string * Z); o_exp : list (string * Z) }.

Record metric := { m_name : string; m_unit : string; m_temporality : temporality; m_data : metric_data }.

Definition times (stg : settings) (key : string) (now : Z) : Z * Z :=
  parseTimesFromKeyOrNow key (GetTimeBucketInterval (config stg)) now (startTimestamp stg).

(** The loop of the collect functions: a data point per key, with its labels from the
    cache; a key the cache does not know ends the loop with an error. *)
Fixpoint collect_points {H P : Type} (mk : string → Z → H → Map → P) (hs : gmap string H)
    (c : Cache string Map) (order : list (string * Z)) : option (list P) * Cache string Map :=
  match order with
  | [] => (Some [], c)
  | (key, now) :: rest =>
      match hs !! key with
      | None => collect_points mk hs c rest
      | Some hist =>
          match Get c key with
          | (None, c) => (None, c)
          | (Some attributeMap, c) =>
              let '(points, c) := collect_points mk hs c rest in
              ((mk key now hist attributeMap ::.) <$> points, c)
          end
      end
  end.

(** One collect function on the family of its series. *)
Definition collect_series {P : Type} (p : processorImp) (s : series)
    (mk : string → Z → histogramData → Map → P) (order : list (string * Z)) : option (list P) * processorImp :=
  let f := families p s in
  let '(points, c) := collect_points mk (histograms f) (keyToDimensions f) order in
  (points, set_family p s {| histograms := histograms f; keyToDimensions := c |}).

Definition latency_point (stg : settings) (key : string) (now : Z) (hist : histogramData) (attrs : Map)
  : HistogramPoint :=
  let '(start, end_) := times stg key now in
  {| h_start := start; h_time := end_; h_bounds := latencyBounds stg; h_buckets := bucketCounts hist;
     h_count := count hist; h_sum := sum hist; h_exemplars := setExemplars (exemplarsData hist) end_;
     h_attributes := attrs |}.
Definition sum_point (stg : settings) (key : string) (now : Z) (hist : histogramData) (attrs : Map)
  : NumberPoint :=
  let '(start, end_) := times stg key now in
  {| n_start := start; n_time := end_; n_value := DoubleValue (sum hist); n_attributes := attrs |}.
(** [int64(hist.count)]. *)
Definition count_point (stg : settings) (key : string) (now : Z) (hist : histogramData) (attrs : Map)
  : NumberPoint :=
  let '(start, end_) := times stg key now in
  {| n_start := start; n_time := end_; n_value := IntValue (i64 (count hist)); n_attributes := attrs |}.
Definition expo_point (stg : settings) (key : string) (now : Z) (hist : Histogram) (attrs : Map)
  : ExpoPoint * Map :=
  let '(start, end_) := times stg key now in (expoHistToExponentialDataPoint start end_ hist, attrs).

Definition mk_metric (stg : settings) (name unit : string) (data : metric_data) : metric :=
  {| m_name := name; m_unit := unit; m_temporality := GetAggregationTemporality (config stg);
     m_data := data |}.

(** Each collect function appends its metrics to the scope. *)
Definition collectLatencyMetrics (p : processorImp) (ord : orders) : option (list metric) * processorImp :=
  let '(points, p) := collect_series p Latency (latency_point (st p)) (o_series ord Latency) in
  ((λ ps, [mk_metric (st p) "signoz_latency" "ms" (MHistogram ps)]) <$> points, p).

Definition collectCallMetrics (p : processorImp) (ord : orders) : option (list metric) * processorImp :=
  let '(points, p) := collect_series p Calls (count_point (st p)) (o_series ord Calls) in
  ((λ ps, [mk_metric (st p) "signoz_calls_total" "" (MSum true ps)]) <$> points, p).

(** The points of both metrics are made in one loop. *)
Definition sum_and_count (stg : settings) (key : string) (now : Z) (hist : histogramData) (attrs : Map) :=
  (sum_point stg key now hist attrs, count_point stg key now hist attrs).
Definition collectDBCallMetrics (p : processorImp) (ord : orders) : option (list metric) * processorImp :=
  let '(points, p) := collect_series p DBCalls (sum_and_count (st p)) (o_series ord DBCalls) in
  ((λ ps, [mk_metric (st p) "signoz_db_latency_sum" "1" (MSum true ps.*1);
           mk_metric (st p) "signoz_db_latency_count" "1" (MSum true ps.*2)]) <$> points, p).
Definition collectExternalCallMetrics (p : processorImp) (ord : orders)
  : option (list metric) * processorImp :=
  let '(points, p) := collect_series p ExternalCalls (sum_and_count (st p)) (o_series ord ExternalCalls) in
  ((λ ps, [mk_metric (st p) "signoz_external_call_latency_sum" "1" (MSum true ps.*1);
           mk_metric (st p) "signoz_external_call_latency_count" "1" (MSum true ps.*2)]) <$> points, p).

Definition collectExpHistogramMetrics (p : processorImp) (ord : orders)
  : option (list metric) * processorImp :=
  let '(points, c) :=
    collect_points (expo_point (st p)) (expHistograms p) (expHistogramKeyToDimensions p) (o_exp ord) in
  ((λ ps, [mk_metric (st p) "signoz_latency" "ms" (MExponential ps)]) <$> points, set_expo p (expHistograms p) c).

(** The collect functions in turn; the first error ends [buildMetrics]. *)
Fixpoint collect_all (p : processorImp) (ord : orders)
    (collectors : list (processorImp → orders → option (list metric) * processorImp))
  : option (list metric) * processorImp :=
  match collectors with
  | [] => (Some [], p)
  | collect :: rest =>
      match collect p ord with
      | (None, p) => (None, p)
      | (Some ms, p) => let '(r, p) := collect_all p ord rest in (app ms <$> r, p)
      end
  end.

Definition resetExemplarData (p : processorImp) : processorImp :=
  set_families p (λ s, {| histograms := reset_exemplars <$> histograms (families p s);
                          keyToDimensions := keyToDimensions (families p s) |}).

(** The evicted items go, then every histogram whose key is not in the LRU cache. *)
Definition drop_evicted_map {H : Type} (hs : gmap string H) (c : Cache string Map)
  : gmap string H * Cache string Map :=
  let c := RemoveEvictedItems c in (filter (λ kv, Contains c kv.1 = true) hs, c).
Definition drop_evicted (p : processorImp) : processorImp :=
  let p := set_families p (λ s,
    let '(hs, c) := drop_evicted_map (histograms (families p s)) (keyToDimensions (families p s)) in
    {| histograms := hs; keyToDimensions := c |}) in
  let '(hs, c) := drop_evicted_map (expHistograms p) (expHistogramKeyToDimensions p) in
  set_expo p hs c.

Definition resetAccumulatedMetrics (p : processorImp) : processorImp :=
  let p := set_families p (λ s, {| histograms := ∅; keyToDimensions := Purge (keyToDimensions (families p s)) |}) in
  set_expo p ∅ (Purge (expHistogramKeyToDimensions p)).

Definition buildMetrics (p : processorImp) (ord : orders) : option (list metric) * processorImp :=
  match collect_all p ord [collectCallMetrics; collectLatencyMetrics; collectExternalCallMetrics;
                           collectDBCallMetrics; collectExpHistogramMetrics] with
  | (None, p) => (None, p)
  | (Some m, p) =>
      let p := drop_evicted p in
      let p := if decide (GetAggregationTemporality (config (st p)) = AggregationTemporalityDelta)
               then resetAccumulatedMetrics p else p in
      (Some m, resetExemplarData p)
  end.

(** The loop over the exporters: [refuses i] is the answer of the [i]-th; what is logged is
    the name at its index in the configuration, which panics out of range. *)
Fixpoint deliver (exporterNames consumers : list string) (i : nat) (refuses : nat → bool)
  : outcome (list string) :=
  match consumers with
  | [] => Done []
  | _ :: rest =>
      if refuses i then
        match exporterNames !! i with
        | Some name => logged ← deliver exporterNames rest (S i) refuses; Done (name :: logged)
        | None => Panics
        end
      else deliver exporterNames rest (S i) refuses
  end.

(** The metrics every exporter gets, [None] for empty ones after an error, and the names logged. *)
Definition exportMetrics (p : processorImp) (ord : orders) (refuses : nat → bool)
  : outcome (option (list metric) * list string * processorImp) :=
  let '(m, p) := buildMetrics p ord in
  let p := resetExemplarData p in
  logged ← deliver (Split (MetricsExporter (config (st p))) ",") (metricsConsumer p) O refuses;
  Done (m, logged, p).

(** ** Start and Shutdown *)

Inductive start_error := NoGetExporters | NotAMetricsExporter (id : string) | ExporterNotFound.

(** [exporters]: the IDs of the host's metrics exporters in the order of its map, and whether
    each is one. What was found before an error stays in [metricsConsumer]. *)
Fixpoint find_exporters (exporterNames : list string) (exporters : list (string * bool)) (found : list string)
  : option start_error * list string :=
  match exporters with
  | [] => (None, found)
  | (k, isMetrics) :: rest =>
      if isMetrics : bool
      then find_exporters exporterNames rest (found ++ filter (λ n, n = k) exporterNames)
      else (Some (NotAMetricsExporter k), found)
  end.

(** [None] is a host without [GetExporters]. *)
Definition Start (p : processorImp) (host : option (list (string * bool))) : option start_error * processorImp :=
  match host with
  | None => (Some NoGetExporters, p)
  | Some exporters =>
      match find_exporters (TrimSpace <$> Split (MetricsExporter (config (st p))) ",") exporters
              (metricsConsumer p) with
      | (Some e, found) => (Some e, set_started p found (started p) (shutdownOnce p))
      | (None, []) => (Some ExporterNotFound, p)
      | (None, found) => (None, set_started p found true (shutdownOnce p))
      end
  end.

(** The goroutine that [Start] runs ends when [done] is closed: waiting for one that nothing
    stops blocks. *)
Definition Shutdown (p : processorImp) : outcome processorImp :=
  let p := if shutdownOnce p then p else set_started p (metricsConsumer p) false true in
  if started p then Blocks else Done p.
End span_metrics.
