(* ===== verification/SpanMetricsProps.v ===== *)
(** * Properties of the span metrics processor

    An abstract specification of the processor (a log of latencies and a table of labels per
    series, without caches or counters), the proof that [SpanMetrics] refines it for every
    batch and every export, and what follows: no panic, no lost key, bounded tables. *)
From stdpp Require Import functions.
From S2P Require Import Prelude GoText Pdata Sampling SpanCache SpanDims SpanHistogram SpanMetrics.

Section props.
Context `{UC : Unicode} `{UT : !UnicodeTables UC} `{PD : Pdata} `{PT : !PdataText PD}
  `{RX : Regexp} `{RC : RegexpCompile} `{UR : URL} `{EH : ExpoHistogram}.
Abbreviation Map := (gmap string Value).
Context `{LR : SimpleLRU string Map} {LL : SimpleLRULaws string Map LR}.

(** ** The abstract specification *)

(** A series: the latencies observed per key, and the labels the key had when first seen. *)
Record table := { t_log : log; t_labels : gmap string Map }.
Definition table_observe (t : table) (k : string) (kvs : Map) (x : float64) : table :=
  {| t_log := log_observe (t_log t) k x;
     t_labels := match t_labels t !! k with Some _ => t_labels t | None => <[k := kvs]> (t_labels t) end |}.
Definition table_empty : table := {| t_log := ∅; t_labels := ∅ |}.
Definition table_restrict (keep : gset string) (t : table) : table :=
  {| t_log := filter (λ kv, kv.1 ∈ keep) (t_log t); t_labels := filter (λ kv, kv.1 ∈ keep) (t_labels t) |}.

(** The whole processor: a table per series, one for the exponential histograms, and the
    names tracked against overflow. *)
Record spec := { tables : series → table; expo_table : table; names : tracker }.

Definition spec_observe (a : spec) (s : series) (k : string) (kvs : Map) (x : float64) : spec :=
  {| tables := <[s := table_observe (tables a s) k kvs x]> (tables a);
     expo_table := expo_table a; names := names a |}.
Definition spec_observe_expo (a : spec) (k : string) (kvs : Map) (x : float64) : spec :=
  {| tables := tables a; expo_table := table_observe (expo_table a) k kvs x; names := names a |}.
Definition spec_names (a : spec) (tr : tracker) : spec :=
  {| tables := tables a; expo_table := expo_table a; names := tr |}.

(** A span that counts adds its latency to a key of [signoz_latency] and of
    [signoz_calls_total], and where it applies to the other series. *)
Definition spec_latency (stg : settings) (a : spec) (sn : string) (span : Span) (res : Map) (x : float64) : spec :=
  let '(k, tr) := buildMetricKey (config stg) (names a) sn span (dimensions stg) res in
  spec_observe (spec_names a tr) Latency k (buildDimensionKVs tr sn span (dimensions stg) res) x.
Definition spec_exp (stg : settings) (a : spec) (sn : string) (span : Span) (res : Map) (x : float64) : spec :=
  if EnableExpHistogram (config stg) then
    let '(k, tr) := buildMetricKey (config stg) (names a) sn span (expDimensions stg) res in
    spec_observe_expo (spec_names a tr) k (buildDimensionKVs tr sn span (expDimensions stg) res) x
  else a.
Definition spec_calls (stg : settings) (a : spec) (sn : string) (span : Span) (res : Map) (x : float64) : spec :=
  let '(k, tr) := buildMetricKey (config stg) (names a) sn span (callDimensions stg) res in
  spec_observe (spec_names a tr) Calls k (buildDimensionKVs tr sn span (callDimensions stg) res) x.
Definition spec_external (stg : settings) (a : spec) (sn : string) (span : Span) (res : Map) (x : float64) : spec :=
  match getRemoteAddress span with
  | Some addr =>
      if decide (span_Kind span = SpanKindClient) then
        spec_observe a ExternalCalls
          (buildCustomMetricKey (config stg) sn span (externalCallDimensions stg) res [addr])
          (buildCustomDimensionKVs sn span (externalCallDimensions stg) res {[ "address" := NewValueStr addr ]}) x
      else a
  | None => a
  end.
Definition spec_db (stg : settings) (a : spec) (sn : string) (span : Span) (res : Map) (x : float64) : spec :=
  match span_Attributes span !! "db.system" with
  | Some _ =>
      if decide (span_Kind span = SpanKindServer) then a
      else spec_observe a DBCalls (buildCustomMetricKey (config stg) sn span (dbCallDimensions stg) res [])
             (buildCustomDimensionKVs sn span (dbCallDimensions stg) res ∅) x
  | None => a
  end.

Definition counts (stg : settings) (now : Z) (sn : string) (span : Span) (res : Map) : bool :=
  negb (is_stale (config stg) now span) && negb (shouldSkip stg sn span res).

Definition spec_span (stg : settings) (a : spec) (now : Z) (sn : string) (span : Span) (res : Map) : spec :=
  if counts stg now sn span res then
    let x := latencyInMilliseconds (span_StartTimestamp span) (span_EndTimestamp span) in
    let a := spec_latency stg a sn span res x in
    let a := spec_exp stg a sn span res x in
    let a := spec_calls stg a sn span res x in
    let a := spec_external stg a sn span res x in
    spec_db stg a sn span res x
  else a.
Fixpoint spec_spans (stg : settings) (a : spec) (clock : nat → Z) (items : list (string * Span * Map)) : spec :=
  match items with
  | [] => a
  | (sn, span, res) :: rest =>
      spec_spans stg (spec_span stg a (clock O) sn span res) (λ n, clock (S n)) rest
  end.

(** An export empties the tables under delta temporality; under cumulative temporality it
    keeps, per series, at most as many keys as the cache holds, and all if they fit. *)
Definition kept (n : Z) (t t' : table) : Prop :=
  ∃ keep : gset string, t' = table_restrict keep t ∧ Z.of_nat (size (t_labels t')) ≤ n
    ∧ (Z.of_nat (size (t_labels t)) ≤ n → t' = t).
Definition spec_exported (stg : settings) (a a' : spec) : Prop :=
  names a' = names a ∧
  match GetAggregationTemporality (config stg) with
  | AggregationTemporalityDelta => (∀ s, tables a' s = table_empty) ∧ expo_table a' = table_empty
  | AggregationTemporalityCumulative =>
      let n := DimensionsCacheSize (config stg) in
      (∀ s, kept n (tables a s) (tables a' s)) ∧ kept n (expo_table a) (expo_table a')
  end.

(** ** The refinement relation *)

Definition expo_represents (l : log) (hs : gmap string Histogram) : Prop :=
  map_Forall2 (λ _ xs h, h = foldl hist_Update hist_Init xs) l hs.

(** A map of histograms and its cache of labels against a table. *)
Record refines_with {H : Type} (repr : log → gmap string H → Prop) (n : Z) (t : table)
    (hs : gmap string H) (c : Cache string Map) : Prop := {
  rw_log : repr (t_log t) hs;
  rw_cache : cache_ok n c;
  rw_labels : known c = t_labels t;
  rw_dom : dom (t_log t) = dom (t_labels t);
}.

Definition capacity (stg : settings) : Z := DimensionsCacheSize (config stg).
Record refines (p : processorImp) (a : spec) : Prop := {
  r_series s : refines_with (represents (latencyBounds (st p))) (capacity (st p)) (tables a s)
                 (histograms (families p s)) (keyToDimensions (families p s));
  r_expo : refines_with expo_represents (capacity (st p)) (expo_table a)
             (expHistograms p) (expHistogramKeyToDimensions p);
  r_names : services p = names a;
}.

(** *** One observation *)

Lemma cache_dimensions_spec n c card k kvs :
  cache_ok n c →
  let c' := (cache_dimensions c card k kvs).1 in
  cache_ok n c' ∧ known c' = match known c !! k with Some _ => known c | None => <[k := kvs]> (known c) end.
Proof using LL.
  intros Hc. destruct (Get_spec n c k Hc) as (Hg & Hok & Hkn & _). unfold cache_dimensions.
  destruct (Get c k) as [o c1]; cbn [fst snd] in *. subst o. destruct (known c !! k) eqn:E; cbn [fst].
  - by rewrite Hkn.
  - destruct (Add_spec n c1 k kvs Hok) as (H1 & H2 & _); [by rewrite Hkn|]. by rewrite H2, Hkn.
Qed.

Lemma observe_dom t k kvs x :
  dom (t_log t) = dom (t_labels t) →
  dom (t_log (table_observe t k kvs x)) = dom (t_labels (table_observe t k kvs x)).
Proof.
  intros Hd. simpl. unfold log_observe. rewrite dom_insert_L, Hd.
  destruct (t_labels t !! k) eqn:E; [|by rewrite dom_insert_L].
  apply elem_of_dom_2 in E. set_solver.
Qed.

Lemma series_observe {H} (repr : log → gmap string H → Prop) n t hs hs' c card k kvs x :
  refines_with repr n t hs c → repr (log_observe (t_log t) k x) hs' →
  refines_with repr n (table_observe t k kvs x) hs' (cache_dimensions c card k kvs).1.
Proof using LL.
  intros [Hl Hc Hk Hd] Hr. destruct (cache_dimensions_spec n c card k kvs Hc) as [Hc' Hk'].
  split; [done|done| |by apply observe_dom]. rewrite Hk', Hk. done.
Qed.

Lemma update_expo_refines l hs k x :
  expo_represents l hs → expo_represents (log_observe l k x) (update_expo hs k x).
Proof.
  intros Hr. unfold log_observe, update_expo. apply map_Forall2_insert_2; [|done].
  rewrite foldl_snoc. f_equal. specialize (Hr k). by destruct Hr.
Qed.

Lemma series_step p a s k kvs x tid sid :
  refines p a →
  ∃ p', update_series (cache_series p s k kvs) s k x tid sid = Done p'
        ∧ refines p' (spec_observe a s k kvs x) ∧ st p' = st p.
Proof using LL.
  intros [Hs He Hn]. unfold cache_series, update_series.
  destruct (update_refines (latencyBounds (st p)) (t_log (tables a s)) (histograms (families p s)) k x tid sid)
    as (hs & Hu & Hr); [apply (Hs s)|].
  pose proof (series_observe _ _ _ _ hs _ (attrsCardinality p) k kvs x (Hs s) Hr) as Hw.
  destruct (cache_dimensions _ _ _ _) as [c card]. cbn [fst] in Hw.
  cbn [st families set_cardinality set_family latencyBounds]. rewrite fn_lookup_insert. cbn [histograms keyToDimensions].
  rewrite Hu. eexists. split_and!; [reflexivity| |done].
  split; [|done|done]. intros s'. cbn [st families set_cardinality set_family spec_observe tables].
  destruct (decide (s' = s)) as [-> |Hne]; [by rewrite !fn_lookup_insert|].
  rewrite !fn_lookup_insert_ne by done. apply Hs.
Qed.

Lemma names_step p a tr : refines p a → refines (set_services p tr) (spec_names a tr).
Proof. by intros [Hs He Hn]; split. Qed.

(** *** One span *)

Lemma latency_refines p a sn span res x :
  refines p a → ∃ p', aggregate_latency p sn span res x = Done p'
                      ∧ refines p' (spec_latency (st p) a sn span res x) ∧ st p' = st p.
Proof using LL.
  intros Hr. unfold aggregate_latency, spec_latency. rewrite (r_names p a Hr).
  destruct (buildMetricKey _ _ _ _ _ _) as [k tr].
  apply (series_step (set_services p tr) (spec_names a tr)). by apply names_step.
Qed.

Lemma calls_refines p a sn span res x :
  refines p a → ∃ p', aggregate_calls p sn span res x = Done p'
                      ∧ refines p' (spec_calls (st p) a sn span res x) ∧ st p' = st p.
Proof using LL.
  intros Hr. unfold aggregate_calls, spec_calls. rewrite (r_names p a Hr).
  destruct (buildMetricKey _ _ _ _ _ _) as [k tr].
  apply (series_step (set_services p tr) (spec_names a tr)). by apply names_step.
Qed.

Lemma exp_refines p a sn span res x :
  refines p a → refines (aggregate_exp p sn span res x) (spec_exp (st p) a sn span res x)
                ∧ st (aggregate_exp p sn span res x) = st p.
Proof using LL.
  intros Hr. unfold aggregate_exp, spec_exp. destruct (EnableExpHistogram _); [|done].
  rewrite (r_names p a Hr). destruct (buildMetricKey _ _ _ _ _ _) as [k tr].
  unfold expHistogramCache, updateExpHistogram. cbn [st services set_services attrsCardinality expHistogramKeyToDimensions].
  pose proof (series_observe _ _ _ _ _ _ (attrsCardinality p) k
    (buildDimensionKVs tr sn span (expDimensions (st p)) res) x (r_expo p a Hr)
    (update_expo_refines _ _ k x (rw_log _ _ _ _ _ (r_expo p a Hr)))) as Hw.
  destruct (cache_dimensions _ _ _ _) as [c card]. split; [|done]. split; [apply Hr|exact Hw|done].
Qed.

Lemma external_refines p a sn span res x :
  refines p a → ∃ p', aggregate_external p sn span res x = Done p'
                      ∧ refines p' (spec_external (st p) a sn span res x) ∧ st p' = st p.
Proof using LL.
  intros Hr. unfold aggregate_external, spec_external.
  destruct (getRemoteAddress span); [|by eexists]. case_decide; [|by eexists]. by apply series_step.
Qed.

Lemma db_refines p a sn span res x :
  refines p a → ∃ p', aggregate_db p sn span res x = Done p'
                      ∧ refines p' (spec_db (st p) a sn span res x) ∧ st p' = st p.
Proof using LL.
  intros Hr. unfold aggregate_db, spec_db.
  destruct (span_Attributes span !! _); [|by eexists]. case_decide; [by eexists|]. by apply series_step.
Qed.

Lemma span_refines p a now sn span res :
  refines p a → ∃ p', aggregateMetricsForSpan p now sn span res = Done p'
                      ∧ refines p' (spec_span (st p) a now sn span res) ∧ st p' = st p.
Proof using LL.
  intros Hr. unfold aggregateMetricsForSpan, spec_span, counts.
  destruct (is_stale _ _ _); [by exists p|]. destruct (shouldSkip _ _ _ _); [by exists p|]. cbn [negb andb].
  set (x := latencyInMilliseconds _ _).
  destruct (latency_refines p a sn span res x Hr) as (p1 & -> & Hr1 & E1). cbn [mbind outcome_bind].
  destruct (exp_refines p1 _ sn span res x Hr1) as [Hr2 E2].
  destruct (calls_refines _ _ sn span res x Hr2) as (p3 & -> & Hr3 & E3). cbn [mbind outcome_bind].
  destruct (external_refines p3 _ sn span res x Hr3) as (p4 & -> & Hr4 & E4). cbn [mbind outcome_bind].
  destruct (db_refines p4 _ sn span res x Hr4) as (p5 & -> & Hr5 & E5).
  rewrite E4, E3, E2, E1 in Hr5. exists p5. split_and!; [done|exact Hr5|congruence].
Qed.

Lemma spans_refines items : ∀ p a clock,
  refines p a → ∃ p', aggregate_spans p clock items = Done p'
                      ∧ refines p' (spec_spans (st p) a clock items) ∧ st p' = st p.
Proof using LL.
  induction items as [|[[sn span] res] items IH]; intros p a clock Hr; cbn [aggregate_spans spec_spans]; [by eexists|].
  destruct (span_refines p a (clock O) sn span res Hr) as (p1 & -> & Hr1 & E1). cbn [mbind outcome_bind].
  destruct (IH p1 _ (λ n, clock (S n)) Hr1) as (p2 & -> & Hr2 & E2).
  exists p2. rewrite E1 in *. by split_and!.
Qed.

(** ** Export *)

(** An order visits the keys of a map once each. *)
Definition visits {H} (order : list (string * Z)) (hs : gmap string H) : Prop :=
  order.*1 ≡ₚ (map_to_list hs).*1.
Definition valid_orders (p : processorImp) (ord : orders) : Prop :=
  (∀ s, visits (o_series ord s) (histograms (families p s))) ∧ visits (o_exp ord) (expHistograms p).

Lemma visits_in {H} order (hs : gmap string H) k now :
  visits order hs → (k, now) ∈ order → is_Some (hs !! k).
Proof.
  intros Hv Hin. assert (k ∈ (map_to_list hs).*1) as ([k' h] & -> & Hkh)%list_elem_of_fmap.
  { rewrite <- Hv. apply list_elem_of_fmap. by exists (k, now). }
  apply elem_of_map_to_list in Hkh. by eexists.
Qed.

(** Each visited key gives a point made from its histogram and its labels. *)
Definition point_of {H P} (mk : string → Z → H → Map → P) (hs : gmap string H) (labels : gmap string Map)
    (kn : string * Z) (pt : P) : Prop :=
  ∃ h attrs, hs !! kn.1 = Some h ∧ labels !! kn.1 = Some attrs ∧ pt = mk kn.1 kn.2 h attrs.

Lemma collect_points_spec {H P} (mk : string → Z → H → Map → P) hs n order : ∀ c,
  cache_ok n c → (∀ k now, (k, now) ∈ order → is_Some (hs !! k) ∧ is_Some (known c !! k)) →
  ∃ pts c', collect_points mk hs c order = (Some pts, c') ∧ cache_ok n c' ∧ known c' = known c
            ∧ Forall2 (point_of mk hs (known c)) order pts.
Proof using LL.
  induction order as [|[k now] order IH]; intros c Hc Hin; cbn [collect_points].
  { exists [], c. split_and!; [done..|constructor]. }
  destruct (Hin k now ltac:(set_solver)) as [[h Hh] [attrs Ha]]. rewrite Hh.
  destruct (Get_spec n c k Hc) as (Hg & Hc1 & Hk1 & _). destruct (Get c k) as [o c1]. cbn [fst snd] in *.
  subst o. rewrite Ha. destruct (IH c1) as (pts & c2 & -> & Hc2 & Hk2 & Hf); [done| |].
  { intros k' now' Hin'. rewrite Hk1. apply (Hin k' now'). set_solver. }
  rewrite Hk1 in *. exists (mk k now h attrs :: pts), c2. split_and!; [done|done|done|].
  constructor; [by exists h, attrs|done].
Qed.

(** [refines_with] is kept when the cache is only read. *)
Lemma collect_refines {H P} (repr : log → gmap string H → Prop) n t hs c (mk : string → Z → H → Map → P) order :
  (∀ l, repr l hs → dom l = dom hs) →
  refines_with repr n t hs c → visits order hs →
  ∃ pts c', collect_points mk hs c order = (Some pts, c') ∧ refines_with repr n t hs c'
            ∧ Forall2 (point_of mk hs (t_labels t)) order pts.
Proof using LL.
  intros Hdom [Hl Hc Hk Hd] Hv.
  destruct (collect_points_spec mk hs n order c Hc) as (pts & c' & E & Hc' & Hk' & Hf).
  { intros k now Hin. pose proof (visits_in _ _ _ _ Hv Hin) as Hs. split; [done|].
    rewrite Hk. apply elem_of_dom. rewrite <- Hd, (Hdom _ Hl). by apply elem_of_dom. }
  exists pts, c'. split_and!; [done| |by rewrite <- Hk]. split; [done|done|by rewrite Hk'|done].
Qed.

Lemma expo_represents_dom l hs : expo_represents l hs → dom l = dom hs.
Proof. intros Hr. apply set_eq. intros k. rewrite !elem_of_dom. specialize (Hr k). by inversion Hr. Qed.

Lemma collect_series_refines {P} p a s (mk : string → Z → histogramData → Map → P) order :
  refines p a → visits order (histograms (families p s)) →
  ∃ pts p', collect_series p s mk order = (Some pts, p') ∧ refines p' a ∧ st p' = st p
            ∧ (∀ s', histograms (families p' s') = histograms (families p s'))
            ∧ expHistograms p' = expHistograms p ∧ metricsConsumer p' = metricsConsumer p
            ∧ Forall2 (point_of mk (histograms (families p s)) (t_labels (tables a s))) order pts.
Proof using LL.
  intros Hr Hv. destruct (collect_refines _ _ _ _ _ mk order
    (λ l Hl, eq_sym (represents_dom _ l _ Hl)) (r_series p a Hr s) Hv) as (pts & c' & E & Hw & Hf).
  unfold collect_series. rewrite E. eexists _, _. split_and!; [done| |done| |done|done|done].
  - split; [|apply Hr|apply Hr]. intros s'. cbn [st families set_family].
    destruct (decide (s' = s)) as [-> |Hne]; [by rewrite fn_lookup_insert|].
    rewrite fn_lookup_insert_ne by done. apply Hr.
  - intros s'. cbn [families set_family].
    destruct (decide (s' = s)) as [-> |Hne]; [by rewrite fn_lookup_insert|by rewrite fn_lookup_insert_ne].
Qed.

(** *** What an export says *)

(** The data points of a key, from the latencies [xs] and the labels of its table. *)
Definition in_table (t : table) (k : string) (xs : list float64) (attrs : Map) : Prop :=
  t_log t !! k = Some xs ∧ t_labels t !! k = Some attrs.
Definition spec_histogram_point (stg : settings) (t : table) (kn : string * Z) (pt : HistogramPoint) : Prop :=
  ∃ xs attrs ex, in_table t kn.1 xs attrs ∧
    pt = {| h_start := (times stg kn.1 kn.2).1; h_time := (times stg kn.1 kn.2).2;
            h_bounds := latencyBounds stg; h_buckets := summary_counts (latencyBounds stg) xs;
            h_count := u64 (len xs); h_sum := foldl float64_add float64_zero xs;
            h_exemplars := ex; h_attributes := attrs |}.
Definition spec_count_point (stg : settings) (t : table) (kn : string * Z) (pt : NumberPoint) : Prop :=
  ∃ xs attrs, in_table t kn.1 xs attrs ∧
    pt = {| n_start := (times stg kn.1 kn.2).1; n_time := (times stg kn.1 kn.2).2;
            n_value := IntValue (i64 (len xs)); n_attributes := attrs |}.
Definition spec_sum_point (stg : settings) (t : table) (kn : string * Z) (pt : NumberPoint) : Prop :=
  ∃ xs attrs, in_table t kn.1 xs attrs ∧
    pt = {| n_start := (times stg kn.1 kn.2).1; n_time := (times stg kn.1 kn.2).2;
            n_value := DoubleValue (foldl float64_add float64_zero xs); n_attributes := attrs |}.
Definition spec_expo_point (stg : settings) (t : table) (kn : string * Z) (pt : ExpoPoint * Map) : Prop :=
  ∃ xs attrs, in_table t kn.1 xs attrs ∧
    pt = (expoHistToExponentialDataPoint (times stg kn.1 kn.2).1 (times stg kn.1 kn.2).2
            (foldl hist_Update hist_Init xs), attrs).

Definition spec_metrics (stg : settings) (a : spec) (ord : orders) (ms : list metric) : Prop :=
  ∃ calls lat ext_sum ext_count db_sum db_count expo,
    ms = [mk_metric stg "signoz_calls_total" "" (MSum true calls);
          mk_metric stg "signoz_latency" "ms" (MHistogram lat);
          mk_metric stg "signoz_external_call_latency_sum" "1" (MSum true ext_sum);
          mk_metric stg "signoz_external_call_latency_count" "1" (MSum true ext_count);
          mk_metric stg "signoz_db_latency_sum" "1" (MSum true db_sum);
          mk_metric stg "signoz_db_latency_count" "1" (MSum true db_count);
          mk_metric stg "signoz_latency" "ms" (MExponential expo)]
    ∧ Forall2 (spec_count_point stg (tables a Calls)) (o_series ord Calls) calls
    ∧ Forall2 (spec_histogram_point stg (tables a Latency)) (o_series ord Latency) lat
    ∧ Forall2 (spec_sum_point stg (tables a ExternalCalls)) (o_series ord ExternalCalls) ext_sum
    ∧ Forall2 (spec_count_point stg (tables a ExternalCalls)) (o_series ord ExternalCalls) ext_count
    ∧ Forall2 (spec_sum_point stg (tables a DBCalls)) (o_series ord DBCalls) db_sum
    ∧ Forall2 (spec_count_point stg (tables a DBCalls)) (o_series ord DBCalls) db_count
    ∧ Forall2 (spec_expo_point stg (expo_table a)) (o_exp ord) expo.

Section points.
Context (p : processorImp) (a : spec) (Hr : refines p a) (s : series).

Lemma point_in_table {P} (mk : string → Z → histogramData → Map → P) kn pt :
  point_of mk (histograms (families p s)) (t_labels (tables a s)) kn pt →
  ∃ h xs attrs, in_table (tables a s) kn.1 xs attrs ∧ summarises (latencyBounds (st p)) xs h
                ∧ pt = mk kn.1 kn.2 h attrs.
Proof using Hr.
  intros (h & attrs & Hh & Ha & ->).
  destruct (represents_lookup _ _ _ _ _ (rw_log _ _ _ _ _ (r_series p a Hr s)) Hh) as (xs & Hx & Hsum).
  by exists h, xs, attrs.
Qed.

Lemma latency_point_spec kn pt :
  point_of (latency_point (st p)) (histograms (families p s)) (t_labels (tables a s)) kn pt →
  spec_histogram_point (st p) (tables a s) kn pt.
Proof using Hr.
  intros (h & xs & attrs & Hin & [Hc Hs Hb] & ->)%point_in_table. exists xs, attrs. unfold latency_point.
  destruct (times (st p) kn.1 kn.2) as [start stop]. eexists. split; [done|]. by rewrite Hc, Hs, Hb.
Qed.

Lemma count_point_spec kn pt :
  point_of (count_point (st p)) (histograms (families p s)) (t_labels (tables a s)) kn pt →
  spec_count_point (st p) (tables a s) kn pt.
Proof using Hr.
  intros (h & xs & attrs & Hin & [Hc Hs Hb] & ->)%point_in_table. exists xs, attrs. split; [done|].
  unfold count_point. destruct (times (st p) kn.1 kn.2) as [start stop]. by rewrite Hc, i64_u64.
Qed.

Lemma sum_and_count_spec kn pt :
  point_of (sum_and_count (st p)) (histograms (families p s)) (t_labels (tables a s)) kn pt →
  spec_sum_point (st p) (tables a s) kn pt.1 ∧ spec_count_point (st p) (tables a s) kn pt.2.
Proof using Hr.
  intros (h & xs & attrs & Hin & [Hc Hs Hb] & ->)%point_in_table.
  unfold sum_and_count, sum_point, count_point. split; exists xs, attrs; (split; [done|]); cbn [fst snd];
    destruct (times (st p) kn.1 kn.2) as [start stop]; by rewrite ?Hs, ?Hc, ?i64_u64.
Qed.
End points.

Lemma expo_point_spec p a kn pt :
  refines p a → point_of (expo_point (st p)) (expHistograms p) (t_labels (expo_table a)) kn pt →
  spec_expo_point (st p) (expo_table a) kn pt.
Proof.
  intros Hr (h & attrs & Hh & Ha & ->). pose proof (rw_log _ _ _ _ _ (r_expo p a Hr) kn.1) as Hl.
  rewrite Hh in Hl. inversion Hl as [xs h' Heq Hx|]; subst. exists xs, attrs. split; [done|].
  unfold expo_point. by destruct (times (st p) kn.1 kn.2).
Qed.

Lemma Forall2_fst_snd {A B C} (R1 : A → B → Prop) (R2 : A → C → Prop) l k :
  Forall2 (λ x y, R1 x y.1 ∧ R2 x y.2) l k → Forall2 R1 l k.*1 ∧ Forall2 R2 l k.*2.
Proof. induction 1 as [|x y l k [H1 H2] _ [IH1 IH2]]; by repeat constructor. Qed.

(** The state after the collect functions: only the caches were read. *)
Record collected (p p' : processorImp) (a : spec) : Prop := {
  c_refines : refines p' a;
  c_st : st p' = st p;
  c_series s : histograms (families p' s) = histograms (families p s);
  c_expo : expHistograms p' = expHistograms p;
  c_consumers : metricsConsumer p' = metricsConsumer p;
}.

Lemma collected_step p p' a s {P} (mk : string → Z → histogramData → Map → P) order :
  collected p p' a → visits order (histograms (families p s)) →
  ∃ pts p'', collect_series p' s mk order = (Some pts, p'') ∧ collected p p'' a
             ∧ Forall2 (point_of mk (histograms (families p' s)) (t_labels (tables a s))) order pts.
Proof using LL.
  intros [Hr Hst Hs He Hm] Hv. rewrite <- Hs in Hv.
  destruct (collect_series_refines p' a s mk order Hr Hv) as (pts & p'' & E & H1 & H2 & H3 & H4 & H5 & H6).
  exists pts, p''. split_and!; [done| |done]. split; [done|congruence| |congruence|congruence].
  intros s'. by rewrite H3.
Qed.

(** The four collect functions of a series. *)
Lemma collect_call_spec p p' a ord :
  collected p p' a → valid_orders p ord →
  ∃ pts p'', collectCallMetrics p' ord = (Some [mk_metric (st p) "signoz_calls_total" "" (MSum true pts)], p'')
    ∧ collected p p'' a ∧ Forall2 (spec_count_point (st p) (tables a Calls)) (o_series ord Calls) pts.
Proof using LL.
  intros Hc [Hv _]. destruct (collected_step p p' a Calls (count_point (st p')) _ Hc (Hv Calls)) as (pts & p'' & E & Hc' & Hf).
  exists pts, p''. unfold collectCallMetrics. rewrite E, (c_st _ _ _ Hc'). split_and!; [done|done|].
  eapply Forall2_impl; [exact Hf|]. intros kn pt Hpt. rewrite <- (c_st _ _ _ Hc).
  by apply count_point_spec; [apply Hc|].
Qed.

Lemma collect_latency_spec p p' a ord :
  collected p p' a → valid_orders p ord →
  ∃ pts p'', collectLatencyMetrics p' ord = (Some [mk_metric (st p) "signoz_latency" "ms" (MHistogram pts)], p'')
    ∧ collected p p'' a ∧ Forall2 (spec_histogram_point (st p) (tables a Latency)) (o_series ord Latency) pts.
Proof using LL.
  intros Hc [Hv _].
  destruct (collected_step p p' a Latency (latency_point (st p')) _ Hc (Hv Latency)) as (pts & p'' & E & Hc' & Hf).
  exists pts, p''. unfold collectLatencyMetrics. rewrite E, (c_st _ _ _ Hc'). split_and!; [done|done|].
  eapply Forall2_impl; [exact Hf|]. intros kn pt Hpt. rewrite <- (c_st _ _ _ Hc).
  by apply latency_point_spec; [apply Hc|].
Qed.

(** The two series exported as a sum and a count. *)
Lemma collect_pair_spec p p' a s ord :
  collected p p' a → valid_orders p ord →
  ∃ pts p'', collect_series p' s (sum_and_count (st p')) (o_series ord s) = (Some pts, p'')
    ∧ collected p p'' a
    ∧ Forall2 (spec_sum_point (st p) (tables a s)) (o_series ord s) pts.*1
    ∧ Forall2 (spec_count_point (st p) (tables a s)) (o_series ord s) pts.*2.
Proof using LL.
  intros Hc [Hv _]. destruct (collected_step p p' a s (sum_and_count (st p')) _ Hc (Hv s)) as (pts & p'' & E & Hc' & Hf).
  exists pts, p''. split; [done|]. split; [done|]. apply Forall2_fst_snd. eapply Forall2_impl; [exact Hf|].
  intros kn pt Hpt. rewrite <- (c_st _ _ _ Hc). by apply sum_and_count_spec; [apply Hc|].
Qed.

Lemma collect_exp_spec p p' a ord :
  collected p p' a → valid_orders p ord →
  ∃ pts p'', collectExpHistogramMetrics p' ord = (Some [mk_metric (st p) "signoz_latency" "ms" (MExponential pts)], p'')
    ∧ collected p p'' a ∧ Forall2 (spec_expo_point (st p) (expo_table a)) (o_exp ord) pts.
Proof using LL.
  intros [Hr Hst Hs He Hm] [_ Hv]. rewrite <- He in Hv.
  destruct (collect_refines _ _ _ _ _ (expo_point (st p')) _
    (λ l, expo_represents_dom l _) (r_expo p' a Hr) Hv) as (pts & c & E & Hw & Hf).
  unfold collectExpHistogramMetrics. rewrite E. cbn [st set_expo]. rewrite Hst.
  eexists _, _. split_and!; [done| |].
  - split; [|done..]. split; [apply Hr|exact Hw|apply Hr].
  - eapply Forall2_impl; [exact Hf|]. intros kn pt Hpt. rewrite <- Hst in *. by apply expo_point_spec.
Qed.

Lemma collect_all_spec p a ord :
  refines p a → valid_orders p ord →
  ∃ ms p', collect_all p ord [collectCallMetrics; collectLatencyMetrics; collectExternalCallMetrics;
                              collectDBCallMetrics; collectExpHistogramMetrics] = (Some ms, p')
    ∧ collected p p' a ∧ spec_metrics (st p) a ord ms.
Proof using LL.
  intros Hr Hv. assert (collected p p a) as H0 by done.
  destruct (collect_call_spec p p a ord H0 Hv) as (calls & p1 & E1 & H1 & F1).
  destruct (collect_latency_spec p p1 a ord H1 Hv) as (lat & p2 & E2 & H2 & F2).
  destruct (collect_pair_spec p p2 a ExternalCalls ord H2 Hv) as (ext & p3 & E3 & H3 & F3 & F3').
  destruct (collect_pair_spec p p3 a DBCalls ord H3 Hv) as (db & p4 & E4 & H4 & F4 & F4').
  destruct (collect_exp_spec p p4 a ord H4 Hv) as (expo & p5 & E5 & H5 & F5).
  cbn [collect_all]. rewrite E1, E2. unfold collectExternalCallMetrics, collectDBCallMetrics.
  rewrite E3, E4, E5. cbn [fmap option_fmap option_map app].
  rewrite (c_st _ _ _ H3), (c_st _ _ _ H4). eexists _, _. split_and!; [reflexivity|done|].
  by exists calls, lat, ext.*1, ext.*2, db.*1, db.*2, expo.
Qed.

(** *** After an export *)

Lemma drop_evicted_refines {H} (repr : log → gmap string H → Prop) n t hs c :
  (∀ l hs (P : string → Prop) (HP : ∀ k, base.Decision (P k)), repr l hs →
     repr (filter (λ kv, P kv.1) l) (filter (λ kv, P kv.1) hs)) →
  refines_with repr n t hs c →
  let '(hs', c') := drop_evicted_map hs c in
  ∃ t', refines_with repr n t' hs' c' ∧ kept n t t'.
Proof using LL.
  intros Hfilter [Hl Hc Hk Hd]. unfold drop_evicted_map.
  destruct (RemoveEvictedItems_spec n c Hc) as (Hc' & Hk' & Hlive).
  set (keep := dom (live c)).
  assert (∀ k, Contains (RemoveEvictedItems c) k = true ↔ k ∈ keep) as Hcont.
  { intros k. rewrite (Contains_spec n), bool_decide_eq_true by done. rewrite Hlive. symmetry. apply elem_of_dom. }
  assert (known (RemoveEvictedItems c) = filter (λ kv, kv.1 ∈ keep) (t_labels t)) as Hlab.
  { rewrite Hk', <- Hk. apply map_eq. intros k. rewrite map_lookup_filter. unfold keep.
    destruct (known c !! k) as [v|] eqn:E; simpl.
    - case_guard as Hg; simpl.
      + apply elem_of_dom in Hg as [v' Hv']. rewrite Hv'. apply live_known in Hv' as Hkn. congruence.
      + by apply not_elem_of_dom.
    - destruct (live c !! k) as [v|] eqn:E'; [|done]. apply live_known in E'. congruence. }
  exists (table_restrict keep t). split.
  - split; [|done|done|].
    + replace (filter (λ kv, Contains (RemoveEvictedItems c) kv.1 = true) hs)
        with (filter (λ kv, kv.1 ∈ keep) hs); [exact (Hfilter _ _ (λ k, k ∈ keep) _ Hl)|].
      apply map_filter_ext. intros k h _. simpl. by rewrite Hcont.
    + simpl. apply set_eq. intros k. rewrite !elem_of_dom, !map_lookup_filter.
      assert (is_Some (t_log t !! k) ↔ is_Some (t_labels t !! k)) as Hiff by (by rewrite <- !elem_of_dom, Hd).
      destruct (t_log t !! k), (t_labels t !! k); simpl; try done.
      * destruct (decide (k ∈ keep)); [rewrite !option_guard_True by done; split; intros _; by eexists|rewrite !option_guard_False by done; by split; intros [? ?]].
      * destruct Hiff as [Hiff _]. by destruct (Hiff ltac:(by eexists)).
      * destruct Hiff as [_ Hiff]. by destruct (Hiff ltac:(by eexists)).
  - exists keep. split_and!; [done| |].
    + simpl. rewrite <- Hlab, Hk'. by apply live_size.
    + intros Hsz. rewrite <- Hk in Hsz. pose proof (live_all n c Hc Hsz) as Hall.
      unfold table_restrict. destruct t as [tl tk]. simpl in *. f_equal; apply map_filter_id; intros k v Hkv; simpl.
      * unfold keep. rewrite Hall, Hk, <- Hd. by apply elem_of_dom_2 in Hkv.
      * unfold keep. rewrite Hall, Hk. by apply elem_of_dom_2 in Hkv.
Qed.

Lemma series_choice {T} (P : series → T → Prop) : (∀ s, ∃ t, P s t) → ∃ f, ∀ s, P s (f s).
Proof.
  intros Hs. destruct (Hs Latency) as [t1 H1], (Hs Calls) as [t2 H2], (Hs DBCalls) as [t3 H3], (Hs ExternalCalls) as [t4 H4].
  exists (λ s, match s with Latency => t1 | Calls => t2 | DBCalls => t3 | ExternalCalls => t4 end). by intros [].
Qed.

Lemma represents_filter_bounds bounds l hs (P : string → Prop) (HP : ∀ k, base.Decision (P k)) :
  represents bounds l hs → represents bounds (filter (λ kv, P kv.1) l) (filter (λ kv, P kv.1) hs).
Proof. apply represents_filter. Qed.

Lemma expo_represents_filter l hs (P : string → Prop) (HP : ∀ k, base.Decision (P k)) :
  expo_represents l hs → expo_represents (filter (λ kv, P kv.1) l) (filter (λ kv, P kv.1) hs).
Proof.
  intros Hr k. rewrite !map_lookup_filter. destruct (Hr k); simpl; [|constructor].
  destruct (decide (P k)); [rewrite !option_guard_True by done; by constructor
                           |rewrite !option_guard_False by done; constructor].
Qed.

Lemma drop_refines p a :
  refines p a →
  ∃ a', refines (drop_evicted p) a' ∧ names a' = names a
        ∧ (∀ s, kept (capacity (st p)) (tables a s) (tables a' s))
        ∧ kept (capacity (st p)) (expo_table a) (expo_table a').
Proof using LL.
  intros [Hs He Hn].
  destruct (series_choice (λ s t', let '(hs', c') := drop_evicted_map (histograms (families p s)) (keyToDimensions (families p s)) in
    refines_with (represents (latencyBounds (st p))) (capacity (st p)) t' hs' c'
    ∧ kept (capacity (st p)) (tables a s) t')) as [ts Hts].
  { intros s. apply (drop_evicted_refines _ _ _ _ _ (represents_filter_bounds _) (Hs s)). }
  pose proof (drop_evicted_refines _ _ _ _ _ expo_represents_filter He) as Hx.
  unfold drop_evicted. destruct (drop_evicted_map (expHistograms p) _) as [hx cx] eqn:Ex.
  cbn [expHistograms expHistogramKeyToDimensions set_families]. rewrite Ex.
  destruct Hx as (tx & Hwx & Hkx).
  exists {| tables := ts; expo_table := tx; names := names a |}. split_and!; [|done| |done].
  - split; [|done|done]. intros s. specialize (Hts s). cbn [st families set_families set_expo tables].
    destruct (drop_evicted_map (histograms (families p s)) (keyToDimensions (families p s))) as [hs' c']. apply Hts.
  - intros s. specialize (Hts s). destruct (drop_evicted_map (histograms (families p s)) _) as [hs' c']. apply Hts.
Qed.

Lemma empty_refines {H} (repr : log → gmap string H → Prop) n t hs c :
  repr ∅ ∅ → refines_with repr n t hs c → refines_with repr n table_empty ∅ (Purge c).
Proof using LL.
  intros He [_ Hc _ _]. destruct (Purge_spec n c Hc) as [Hc' Hk]. by split.
Qed.

Lemma reset_all_refines p a :
  refines p a →
  refines (resetAccumulatedMetrics p) {| tables := λ _, table_empty; expo_table := table_empty; names := names a |}.
Proof using LL.
  intros [Hs He Hn]. split; [intros s| |done]; (eapply empty_refines; [apply map_Forall2_empty|]); [apply Hs|apply He].
Qed.

Lemma reset_exemplars_refines p a : refines p a → refines (resetExemplarData p) a.
Proof.
  intros [Hs He Hn]. split; [|done|done]. intros s. destruct (Hs s) as [Hl Hc Hk Hd].
  split; [|done..]. by apply reset_refines.
Qed.

Lemma reset_no_exemplars p s k h :
  histograms (families (resetExemplarData p) s) !! k = Some h → exemplarsData h = [].
Proof. cbn. rewrite lookup_fmap. destruct (histograms (families p s) !! k); simpl; intros [= <-]. done. Qed.

Lemma build_spec p a ord :
  refines p a → valid_orders p ord →
  ∃ ms p' a', buildMetrics p ord = (Some ms, p') ∧ spec_metrics (st p) a ord ms
    ∧ refines p' a' ∧ spec_exported (st p) a a' ∧ st p' = st p ∧ metricsConsumer p' = metricsConsumer p
    ∧ ∀ s k h, histograms (families p' s) !! k = Some h → exemplarsData h = [].
Proof using LL.
  intros Hr Hv. destruct (collect_all_spec p a ord Hr Hv) as (ms & p1 & E & [Hr1 E1 _ _ Em] & Hms).
  unfold buildMetrics. rewrite E. destruct (drop_refines p1 a Hr1) as (a2 & Hr2 & Hn & Hk & Hkx).
  assert (st (drop_evicted p1) = st p ∧ metricsConsumer (drop_evicted p1) = metricsConsumer p) as [E2 Em2].
  { rewrite <- E1, <- Em. unfold drop_evicted. by destruct (drop_evicted_map _ _). }
  rewrite E2. unfold spec_exported.
  destruct (GetAggregationTemporality (config (st p))) eqn:Ht; [rewrite decide_True by done|rewrite decide_False by done].
  - eexists ms, _, _. split; [reflexivity|]. split; [done|]. split; [apply reset_exemplars_refines, reset_all_refines, Hr2|].
    split_and!; [done|done|done|done|done|apply reset_no_exemplars].
  - eexists ms, _, a2. split; [reflexivity|]. split; [done|]. split; [by apply reset_exemplars_refines|].
    rewrite E1 in *. split_and!; [done|done|done|done|done|apply reset_no_exemplars].
Qed.

(** What the handlers leave alone. *)
Lemma update_consumers p s k kvs x tid sid p' :
  update_series (cache_series p s k kvs) s k x tid sid = Done p' → metricsConsumer p' = metricsConsumer p.
Proof.
  unfold update_series, cache_series. destruct (cache_dimensions _ _ _ _).
  intros (hs & _ & [= <-])%outcome_bind_Done. done.
Qed.

Lemma span_consumers p now sn span res p' :
  aggregateMetricsForSpan p now sn span res = Done p' → metricsConsumer p' = metricsConsumer p.
Proof.
  unfold aggregateMetricsForSpan. destruct (is_stale _ _ _); [by intros [= <-]|].
  destruct (shouldSkip _ _ _ _); [by intros [= <-]|]. set (x := latencyInMilliseconds _ _).
  intros (p1 & H1 & (p2 & H2 & (p3 & H3 & H4)%outcome_bind_Done)%outcome_bind_Done)%outcome_bind_Done.
  assert (metricsConsumer p1 = metricsConsumer p) as <-.
  { unfold aggregate_latency in H1. destruct (buildMetricKey _ _ _ _ _ _). by apply update_consumers in H1. }
  assert (metricsConsumer p2 = metricsConsumer p1) as <-.
  { unfold aggregate_calls in H2. destruct (buildMetricKey _ _ _ _ _ _). apply update_consumers in H2. rewrite H2.
    unfold aggregate_exp, expHistogramCache. destruct (EnableExpHistogram _); [|done].
    destruct (buildMetricKey _ _ _ _ _ _). cbn. by destruct (cache_dimensions _ _ _ _). }
  assert (metricsConsumer p3 = metricsConsumer p2) as <-.
  { unfold aggregate_external in H3. destruct (getRemoteAddress span); [|by simplify_eq].
    case_decide; [by apply update_consumers in H3|by simplify_eq]. }
  unfold aggregate_db in H4. destruct (span_Attributes span !! _); [|by simplify_eq].
  case_decide; [by simplify_eq|by apply update_consumers in H4].
Qed.

Lemma spans_consumers items : ∀ p clock p',
  aggregate_spans p clock items = Done p' → metricsConsumer p' = metricsConsumer p.
Proof.
  induction items as [|[[sn span] res] items IH]; intros p clock p' H; cbn [aggregate_spans] in H; [by simplify_eq|].
  apply outcome_bind_Done in H as (p1 & H1%span_consumers & H2%IH). congruence.
Qed.

(** ** Theorems *)

(** C3. A batch is aggregated without a panic and forwarded with the collector's ID in every
    resource that names its service; the state refines the specification's. *)
Theorem consume_refines p a clock td :
  refines p a →
  ∃ p', ConsumeTraces p clock td = Done (p', tag_resource (st p) <$> td)
        ∧ refines p' (spec_spans (st p) a clock (td ≫= resource_items (st p)))
        ∧ st p' = st p.
Proof using LL.
  intros Hr. unfold ConsumeTraces, aggregateMetrics.
  destruct (spans_refines (td ≫= resource_items (st p)) p a clock Hr) as (p' & -> & Hr' & E).
  cbn [mbind outcome_bind]. by exists p'.
Qed.

(** C1. Building the metrics never fails: for every order in which the maps are visited, each key
    yields the summary of its latencies with the labels it was first seen with, and the state
    afterwards refines the exported specification, without exemplars. *)
Theorem build_refines p a ord :
  refines p a → valid_orders p ord →
  ∃ ms p' a', buildMetrics p ord = (Some ms, p') ∧ spec_metrics (st p) a ord ms
    ∧ refines p' a' ∧ spec_exported (st p) a a'
    ∧ ∀ s k h, histograms (families p' s) !! k = Some h → exemplarsData h = [].
Proof using LL.
  intros Hr Hv. destruct (build_spec p a ord Hr Hv) as (ms & p' & a' & H1 & H2 & H3 & H4 & _ & _ & H5).
  by exists ms, p', a'.
Qed.

(** *** Reachable states *)

Definition spec_init (p : processorImp) : spec :=
  {| tables := λ _, table_empty; expo_table := table_empty; names := services p |}.

Lemma new_refines inst c now p :
  newProcessor inst c now = Done (inr p) →
  refines p (spec_init p) ∧ metricsConsumer p = [] ∧ 0 < capacity (st p).
Proof using LL.
  unfold newProcessor. destruct (validateDimensions _ _); [done|].
  destruct (Z.leb_spec (DimensionsCacheSize (with_interval c)) 0) as [|Hpos]; [done|].
  pose proof (NewCache_spec (DimensionsCacheSize (with_interval c))) as Hnew. destruct (NewCache _) as [c0|]; [|done].
  destruct Hnew as (_ & Hok & Hk). destruct (compile_patterns _ _) as [m| |]; [|done..].
  cbn [mbind outcome_bind]. intros [= <-]. split_and!; [|done|done].
  split; [intros s| |done]; (split; [apply map_Forall2_empty|done|done|done]).
Qed.

(** The life of a processor: the handlers in any order, an export only once started. *)
Inductive reachable : processorImp → Prop :=
| reach_new inst c now p : newProcessor inst c now = Done (inr p) → reachable p
| reach_start p hosts e p' :
    reachable p → metricsConsumer p = [] → NoDup hosts.*1 → Start p (Some hosts) = (e, p') → reachable p'
| reach_consume p clock td p' td' : reachable p → ConsumeTraces p clock td = Done (p', td') → reachable p'
| reach_export p ord refuses ms logged p' :
    reachable p → valid_orders p ord → exportMetrics p ord refuses = Done (ms, logged, p') → reachable p'
| reach_shutdown p p' : reachable p → Shutdown p = Done p' → reachable p'.

Lemma set_started_refines p a cons run once : refines p a → refines (set_started p cons run once) a.
Proof. by intros [Hs He Hn]; split. Qed.

(** The exporters found are no more than the names configured. *)
Lemma find_exporters_length names hosts : ∀ found e found',
  NoDup hosts.*1 → find_exporters names hosts found = (e, found') →
  (length found' ≤ length found + length names)%nat.
Proof.
  intros found e found' Hnd Hf. trans (length found + sum_list_with (λ k, length (filter (λ n, n = k) names)) hosts.*1)%nat.
  - clear Hnd. revert found Hf. induction hosts as [|[k []] hosts IH]; intros found Hf.
    + simpl in *. simplify_eq. lia.
    + cbn [find_exporters] in Hf. apply IH in Hf. rewrite length_app in Hf.
      rewrite fmap_cons. cbn [sum_list_with fst]. lia.
    + simpl in Hf. simplify_eq. lia.
  - apply Nat.add_le_mono_l. by apply (sum_filter_le (λ n, n)).
Qed.

(** Every reachable state refines the specification, and the exporters fit their names. *)
Lemma reachable_refines p :
  reachable p → ∃ a, refines p a ∧ 0 < capacity (st p)
    ∧ (length (metricsConsumer p) ≤ length (Split (MetricsExporter (config (st p))) ","))%nat.
Proof using LL.
  induction 1 as [inst c now p Hp|p hosts e p' _ (a & Hr & Hc & Hl) Hm Hnd Hs|p clock td p' td' _ (a & Hr & Hc & Hl) Hs
                 |p ord refuses ms logged p' _ (a & Hr & Hc & Hl) Hv Hs|p p' _ (a & Hr & Hc & Hl) Hs].
  - destruct (new_refines _ _ _ _ Hp) as (Hr & -> & Hc). exists (spec_init p). split_and!; [done|done|simpl; lia].
  - exists a. unfold Start in Hs. rewrite Hm in Hs.
    destruct (find_exporters _ hosts []) as [e' found] eqn:Hf.
    apply find_exporters_length in Hf; [|done]. rewrite length_fmap in Hf.
    assert (p' = p ∨ ∃ run once, p' = set_started p found run once) as [-> |(run & once & ->)].
    { destruct e', found; simplify_eq; eauto. }
    + exact (conj Hr (conj Hc Hl)).
    + split; [by apply set_started_refines|]. cbn in *. split; [done|lia].
  - unfold ConsumeTraces, aggregateMetrics in Hs.
    destruct (spans_refines (td ≫= resource_items (st p)) p a clock Hr) as (p1 & E & Hr1 & E1). rewrite E in Hs.
    cbn [mbind outcome_bind] in Hs. simplify_eq. eexists. split; [done|]. rewrite E1. split; [done|].
    by rewrite (spans_consumers _ _ _ _ E).
  - destruct (build_spec p a ord Hr Hv) as (m & p1 & a1 & E & _ & Hr1 & _ & E1 & E2 & _).
    unfold exportMetrics in Hs. rewrite E in Hs. destruct (deliver _ _ _ _); [|done..].
    cbn [mbind outcome_bind] in Hs. simplify_eq. exists a1. split; [by apply reset_exemplars_refines|].
    simpl. by rewrite E1, E2.
  - unfold Shutdown in Hs. exists a. destruct (shutdownOnce p).
    + destruct (started p); simplify_eq. done.
    + cbn in Hs. simplify_eq. split; [by apply set_started_refines|done].
Qed.

Lemma deliver_total names consumers refuses : ∀ i,
  (i + length consumers ≤ length names)%nat → ∃ logged, deliver names consumers i refuses = Done logged.
Proof.
  induction consumers as [|c consumers IH]; intros i Hl; simpl in *; [by eexists|].
  destruct (IH (S i)) as [logged ->]; [lia|]. destruct (refuses i); [|by eexists].
  destruct (lookup_lt_is_Some_2 names i) as [name ->]; [lia|]. by eexists.
Qed.

(** C11. In every reachable state both handlers run to their end: no index is out of range, no
    key is missing from its cache, and an export always has metrics for the exporters. *)
Theorem handlers_total p clock td ord refuses :
  reachable p → valid_orders p ord →
  (∃ p', ConsumeTraces p clock td = Done (p', tag_resource (st p) <$> td))
  ∧ ∃ ms logged p', exportMetrics p ord refuses = Done (Some ms, logged, p').
Proof using LL.
  intros (a & Hr & _ & Hl)%reachable_refines Hv. split.
  - unfold ConsumeTraces, aggregateMetrics.
    destruct (spans_refines (td ≫= resource_items (st p)) p a clock Hr) as (p' & -> & _). by exists p'.
  - destruct (build_spec p a ord Hr Hv) as (ms & p' & a' & E & _ & _ & _ & E1 & E2 & _).
    unfold exportMetrics. rewrite E. cbn [st resetExemplarData set_families metricsConsumer].
    rewrite E1, E2. destruct (deliver_total _ (metricsConsumer p) refuses 0%nat Hl) as [logged ->].
    by eexists ms, logged, _.
Qed.

(** C12. In every reachable state each histogram has a bucket per bound and one above them, and
    64-bit counters whose buckets add up to the count. *)
Theorem histograms_well_formed p s k h :
  reachable p → histograms (families p s) !! k = Some h → histogram_ok (latencyBounds (st p)) h.
Proof using LL.
  intros (a & Hr & _)%reachable_refines Hh.
  destruct (represents_lookup _ _ _ _ _ (rw_log _ _ _ _ _ (r_series p a Hr s)) Hh) as (xs & _ & Hs).
  by eapply summarises_ok.
Qed.

Lemma represents_size bounds t hs n c :
  refines_with (represents bounds) n t hs c → size hs = size (t_labels t).
Proof. intros [Hl _ _ Hd]. by rewrite <- !size_dom, <- Hd, (represents_dom _ _ _ Hl). Qed.

Lemma expo_represents_size t hs n c :
  refines_with expo_represents n t hs c → size hs = size (t_labels t).
Proof. intros [Hl _ _ Hd]. by rewrite <- !size_dom, <- Hd, (expo_represents_dom _ _ Hl). Qed.

(** Whatever the spans between two exports were, an export leaves at most as many histograms
    of each kind as [DimensionsCacheSize], and none under delta temporality. *)
Theorem export_bounds_memory p ord refuses r p' :
  reachable p → valid_orders p ord → exportMetrics p ord refuses = Done (r, p') →
  let bound := match GetAggregationTemporality (config (st p)) with
               | AggregationTemporalityDelta => 0
               | AggregationTemporalityCumulative => DimensionsCacheSize (config (st p))
               end in
  (∀ s, Z.of_nat (size (histograms (families p' s))) ≤ bound) ∧ Z.of_nat (size (expHistograms p')) ≤ bound.
Proof using LL.
  intros (a & Hr & Hpos & _)%reachable_refines Hv Hs.
  destruct (build_spec p a ord Hr Hv) as (ms & p1 & a1 & E & _ & Hr1 & [_ Ha] & E1 & _ & _).
  unfold exportMetrics in Hs. rewrite E in Hs. destruct (deliver _ _ _ _); [|done..]. cbn [mbind outcome_bind] in Hs.
  simplify_eq. apply reset_exemplars_refines in Hr1.
  assert (∀ b, (∀ s, Z.of_nat (size (t_labels (tables a1 s))) ≤ b) ∧ Z.of_nat (size (t_labels (expo_table a1))) ≤ b →
    (∀ s, Z.of_nat (size (histograms (families (resetExemplarData p1) s))) ≤ b)
    ∧ Z.of_nat (size (expHistograms (resetExemplarData p1))) ≤ b) as Hb.
  { intros b [Hb1 Hb2]. split; [intros s|].
    - rewrite (represents_size _ _ _ _ _ (r_series _ _ Hr1 s)). apply Hb1.
    - rewrite (expo_represents_size _ _ _ _ (r_expo _ _ Hr1)). apply Hb2. }
  apply Hb. destruct (GetAggregationTemporality (config (st p))).
  - destruct Ha as [Ht ->]. split; [intros s; by rewrite Ht|done].
  - destruct Ha as [Ht Hx]. split; [intros s; destruct (Ht s) as (keep & _ & Hle & _); done|].
    destruct Hx as (keep & _ & Hle & _). done.
Qed.

(** *** Counting *)

(** The number of latencies in a table. *)
Definition table_total (t : table) : Z := map_fold (λ _ xs n, len xs + n) 0 (t_log t).

Lemma table_total_observe t k kvs x : table_total (table_observe t k kvs x) = table_total t + 1.
Proof.
  unfold table_total. simpl. unfold log_observe. generalize (t_log t). intros l.
  assert (∀ xs, map_fold (λ (_ : string) (xs : list float64) n, len xs + n) 0 (<[k := xs]> l)
                = len xs + map_fold (λ (_ : string) (xs : list float64) n, len xs + n) 0 (delete k l)) as Hins.
  { intros xs. rewrite <- insert_delete_eq. apply (map_fold_insert_L (λ (_ : string) (xs : list float64) n, len xs + n));
      [intros; lia|by rewrite lookup_delete_eq]. }
  rewrite Hins. destruct (l !! k) as [xs|] eqn:E; simpl.
  - pose proof (Hins xs) as Hx. rewrite insert_id in Hx by done. rewrite Hx, len_app. unfold len. simpl. lia.
  - rewrite delete_id by done. unfold len. simpl. lia.
Qed.

(** The spans of a batch that count. *)
Fixpoint counted (stg : settings) (clock : nat → Z) (items : list (string * Span * Map)) : Z :=
  match items with
  | [] => 0
  | (sn, span, res) :: rest =>
      (if counts stg (clock O) sn span res then 1 else 0) + counted stg (λ n, clock (S n)) rest
  end.

Lemma spec_span_total stg a now sn span res s :
  s = Latency ∨ s = Calls →
  table_total (tables (spec_span stg a now sn span res) s)
  = table_total (tables a s) + (if counts stg now sn span res then 1 else 0).
Proof.
  intros Hs. unfold spec_span. destruct (counts _ _ _ _ _); [|lia]. set (x := latencyInMilliseconds _ _).
  assert (∀ a, tables (spec_db stg a sn span res x) s = tables a s) as ->.
  { intros b. unfold spec_db. destruct (_ !! _); [|done]. case_decide; [done|]. cbn [tables spec_observe].
    by rewrite fn_lookup_insert_ne by naive_solver. }
  assert (∀ a, tables (spec_external stg a sn span res x) s = tables a s) as ->.
  { intros b. unfold spec_external. destruct (getRemoteAddress _); [|done]. case_decide; [|done].
    cbn [tables spec_observe]. by rewrite fn_lookup_insert_ne by naive_solver. }
  assert (∀ a, tables (spec_exp stg a sn span res x) = tables a) as Hexp.
  { intros b. unfold spec_exp. destruct (EnableExpHistogram _); [|done]. by destruct (buildMetricKey _ _ _ _ _ _). }
  unfold spec_calls, spec_latency. destruct (buildMetricKey _ (names a) _ _ _ _) as [k tr].
  destruct (buildMetricKey _ _ _ _ _ _) as [k' tr']. cbn [tables spec_observe spec_names].
  destruct Hs as [-> | ->].
  - rewrite fn_lookup_insert_ne, Hexp by done. cbn [tables spec_observe spec_names].
    by rewrite fn_lookup_insert, table_total_observe.
  - rewrite fn_lookup_insert, table_total_observe, Hexp. cbn [tables spec_observe spec_names].
    by rewrite fn_lookup_insert_ne.
Qed.

Lemma spec_spans_total stg s items : ∀ a clock,
  s = Latency ∨ s = Calls →
  table_total (tables (spec_spans stg a clock items) s) = table_total (tables a s) + counted stg clock items.
Proof.
  induction items as [|[[sn span] res] items IH]; intros a clock Hs; cbn [spec_spans counted]; [lia|].
  rewrite IH, spec_span_total by done. lia.
Qed.

(** The counts of the exported points add up to the table, on 64 bits. *)
Definition sum_by {P} (f : P → Z) (pts : list P) : Z := foldr (λ pt n, f pt + n) 0 pts.

Lemma sum_by_perm {P} (f : P → Z) l k : l ≡ₚ k → sum_by f l = sum_by f k.
Proof. unfold sum_by. induction 1; simpl; lia. Qed.

Lemma table_total_keys t :
  table_total t = sum_by (λ k, len (default [] (t_log t !! k))) (map_to_list (t_log t)).*1.
Proof.
  unfold table_total, sum_by. rewrite map_fold_foldr.
  assert (∀ k xs, (k, xs) ∈ map_to_list (t_log t) → t_log t !! k = Some xs) as Hl by (intros; by apply elem_of_map_to_list).
  induction (map_to_list (t_log t)) as [|[k xs] l IH]; [done|]. simpl.
  rewrite (Hl k xs) by set_solver. simpl. rewrite IH; [done|]. intros. apply Hl. set_solver.
Qed.

Lemma visits_log {H} order (hs : gmap string H) (l : log) :
  visits order hs → dom hs = dom l → order.*1 ≡ₚ (map_to_list l).*1.
Proof.
  intros Hv Hd. rewrite Hv. apply NoDup_Permutation; [apply NoDup_fst_map_to_list..|].
  intros k. assert (∀ A (m : gmap string A), k ∈ (map_to_list m).*1 ↔ k ∈ dom m) as Hk; [|by rewrite !Hk, Hd].
  intros A m. rewrite elem_of_dom, list_elem_of_fmap. split.
  - intros ([k' v] & -> & Hkv%elem_of_map_to_list). by eexists.
  - intros [v Hv']. exists (k, v). split; [done|]. by apply elem_of_map_to_list.
Qed.

Lemma points_total {P} (f : P → Z) t (order : list (string * Z)) pts :
  Forall2 (λ kn pt, u64 (f pt) = u64 (len (default [] (t_log t !! kn.1)))) order pts →
  order.*1 ≡ₚ (map_to_list (t_log t)).*1 → u64 (sum_by f pts) = u64 (table_total t).
Proof.
  intros Hf Hp. rewrite table_total_keys, <- (sum_by_perm _ _ _ Hp). clear Hp.
  induction Hf as [|kn pt order pts Hpt _ IH]; [done|]. simpl. unfold u64 in *.
  rewrite Z.add_mod, Hpt, IH, <- Z.add_mod by done. done.
Qed.

Definition count_of (pt : NumberPoint) : Z :=
  match n_value pt with IntValue z => z | DoubleValue _ => 0 end.

(** C2. Every span of a resource with a service name that is neither stale nor excluded is counted
    exactly once by [signoz_latency] and once by [signoz_calls_total]: the counts of the data points
    exported after a batch add up, modulo 2^64 as the counters are 64 bits wide, to those pending
    before it plus these spans. Spans of a resource without a service name are not counted. *)
Theorem every_span_counted_once p a clock td p1 fwd ord ms p2 :
  refines p a → ConsumeTraces p clock td = Done (p1, fwd) → valid_orders p1 ord →
  buildMetrics p1 ord = (Some ms, p2) →
  let n := counted (st p) clock (td ≫= resource_items (st p)) in
  ∃ calls lat rest,
    ms = mk_metric (st p) "signoz_calls_total" "" (MSum true calls)
         :: mk_metric (st p) "signoz_latency" "ms" (MHistogram lat) :: rest
    ∧ u64 (sum_by h_count lat) = u64 (table_total (tables a Latency) + n)
    ∧ u64 (sum_by count_of calls) = u64 (table_total (tables a Calls) + n).
Proof using LL.
  intros Hr Hc Hv Hb n. unfold ConsumeTraces, aggregateMetrics in Hc.
  destruct (spans_refines (td ≫= resource_items (st p)) p a clock Hr) as (p' & E & Hr1 & E1). rewrite E in Hc.
  cbn [mbind outcome_bind] in Hc. simplify_eq. set (a1 := spec_spans _ _ _ _) in *.
  destruct (build_spec p1 a1 ord Hr1 Hv) as (ms' & p2' & a2 & Eb & Hms & _). rewrite Eb in Hb. simplify_eq.
  destruct Hms as (calls & lat & es & ec & ds & dc & ex & -> & Fc & Fl & _). rewrite E1 in *.
  assert (∀ s, (o_series ord s).*1 ≡ₚ (map_to_list (t_log (tables a1 s))).*1) as Hp.
  { intros s. apply (visits_log _ (histograms (families p1 s))); [apply Hv|].
    eapply represents_dom. apply (r_series _ _ Hr1 s). }
  eexists calls, lat, _. split; [done|]. unfold n.
  rewrite <- !(spec_spans_total (st p) _ _ a clock) by auto. fold a1. split.
  - apply (points_total _ _ (o_series ord Latency)); [|apply Hp]. eapply Forall2_impl; [exact Fl|].
    intros kn pt (xs & attrs & exs & [Hx _] & ->). simpl. rewrite Hx. apply u64_small, u64_range.
  - apply (points_total _ _ (o_series ord Calls)); [|apply Hp]. eapply Forall2_impl; [exact Fc|].
    intros kn pt (xs & attrs & [Hx _] & ->). unfold count_of. simpl. rewrite Hx. apply u64_i64.
Qed.

(** *** Start and Shutdown *)

(** The exporters are kept in the order of the host's map and the names in that of the
    configuration, so that an error can be logged under another exporter's name: here the
    exporter that refuses is [b]. *)
Theorem wrong_exporter_logged p :
  metricsConsumer p = [] → MetricsExporter (config (st p)) = "a,b" →
  ∃ p', Start p (Some [("b", true); ("a", true)]) = (None, p') ∧ metricsConsumer p' = ["b"; "a"]
    ∧ deliver (Split (MetricsExporter (config (st p'))) ",") (metricsConsumer p') 0 (λ i, (i =? 0)%nat)
      = Done ["a"].
Proof.
  intros Hm Hn. unfold Start. rewrite Hm, Hn.
  assert (find_exporters (TrimSpace <$> Split "a,b" ",") [("b", true); ("a", true)] [] = (None, ["b"; "a"])) as ->
    by (vm_compute; reflexivity).
  eexists. split; [reflexivity|]. split; [reflexivity|]. cbn [st set_started metricsConsumer]. by rewrite Hn.
Qed.

(** A first [Shutdown] stops the processor; one before [Start] uses up the [sync.Once], and
    the next waits for ever. *)
Theorem shutdown_spec p :
  shutdownOnce p = false →
  (∃ p', Shutdown p = Done p' ∧ started p' = false)
  ∧ (∀ p' hosts p'', started p = false → Shutdown p = Done p' → Start p' hosts = (None, p'') → Shutdown p'' = Blocks).
Proof.
  intros Ho. unfold Shutdown. rewrite Ho. split; [by eexists|].
  intros p' hosts p'' Hs H1 H2. cbn in H1. simplify_eq. unfold Start in H2. destruct hosts as [hosts|]; [|done].
  destruct (find_exporters _ _ _) as [[e|] [|]]; simplify_eq. done.
Qed.
End props.

(** An order for the maps of a state: that of their lists, at a fixed time. *)
Section orders.
Context `{UC : Unicode} `{PD : Pdata} `{EH : ExpoHistogram} {LR : SimpleLRU string (gmap string Value)}.

Definition list_order {H} (hs : gmap string H) (now : Z) : list (string * Z) :=
  (λ kv, (kv.1, now)) <$> map_to_list hs.
Definition list_orders (p : processorImp) (now : Z) : orders :=
  {| o_series s := list_order (histograms (families p s)) now; o_exp := list_order (expHistograms p) now |}.

Lemma list_orders_valid p now : valid_orders p (list_orders p now).
Proof.
  assert (∀ H (hs : gmap string H), visits (list_order hs now) hs) as Hv; [|split; [intros s|]; apply Hv].
  intros H hs. unfold visits, list_order. by rewrite <- list_fmap_compose.
Qed.
End orders.

(** ** Witnesses *)
Section witnesses.
Import TestPdata TestUnicode TestLRU.

#[local] Instance w_url : URL := {| url_Parse s := Some s |}.
#[local] Instance w_compile : RegexpCompile := {| compiles _ := true |}.
#[local] Instance w_expo : ExpoHistogram := {|
  Histogram := list float64; hist_Init := []; hist_Update h x := h ++ [x];
  hist_Count := len; hist_Sum := foldl float64_add float64_zero;
  hist_Min _ := float64_zero; hist_Max _ := float64_zero; hist_ZeroCount _ := 0; hist_Scale _ := 0;
  hist_Positive _ := {| Offset := 0; Len := 0; At _ := 0 |};
  hist_Negative _ := {| Offset := 0; Len := 0; At _ := 0 |};
|}.

Definition w_config (tmp : string) : Config :=
  {| MetricsExporter := "prom"; LatencyHistogramBuckets := None;
     Dimensions := [{| Name := "region"; Default := Some "eu" |}]; ExcludePatterns := [];
     DimensionsCacheSize := 2; AggregationTemporality := tmp; skipSanitizeLabel := false;
     MetricsFlushInterval := 0; TimeBucketInterval := 0; EnableExpHistogram := true;
     MaxServicesToTrack := 10; MaxOperationsToTrackPerService := 10; SkipSpansOlderThan := 0 |}.
Definition w_delta := w_config "AGGREGATION_TEMPORALITY_DELTA".

Definition w_mspan (op : string) (kind : SpanKind) : Span :=
  {| span_TraceID := "t"; span_SpanID := "s"; span_Name := op; span_Kind := kind;
     span_StartTimestamp := 120 * second; span_EndTimestamp := 121 * second;
     span_Attributes := {[ "db.system" := VStr "pg" ]}; span_Status := StatusCodeOk; span_TraceState := "" |}.
Definition w_traces : Traces :=
  [{| rs_Resource := {[ "service.name" := VStr "shop" ]};
      rs_ScopeSpans := [{| ss_Scope := "lib"; ss_Spans := [w_mspan "get" SpanKindServer; w_mspan "put" SpanKindClient] |}] |}].

Definition succeeds {E A} (o : outcome (E + A)) : bool := match o with Done (inr _) => true | _ => false end.
Lemma succeeds_spec {E A} (o : outcome (E + A)) : succeeds o = true → ∃ a, o = Done (inr a).
Proof. destruct o as [[]| |]; try done. intros _. by eexists. Qed.

Lemma w_new : ∃ p, newProcessor "c1" w_delta 0 = Done (inr p).
Proof. apply succeeds_spec. vm_compute. reflexivity. Qed.

Lemma consume_refines_witness :
  ∃ p p', newProcessor "c1" w_delta 0 = Done (inr p) ∧
    ConsumeTraces p (λ _, 0) w_traces = Done (p', tag_resource (st p) <$> w_traces)
    ∧ refines p' (spec_spans (st p) (spec_init p) (λ _, 0) (w_traces ≫= resource_items (st p))).
Proof.
  destruct w_new as [p Hp]. destruct (new_refines _ _ _ _ Hp) as [Hr _].
  destruct (consume_refines p (spec_init p) (λ _, 0) w_traces Hr) as (p' & H1 & H2 & _). exact (ex_intro _ p (ex_intro _ p' (conj Hp (conj H1 H2)))).
Defined.

Definition w_consumed_test (f : processorImp → processorImp → bool) : bool :=
  match newProcessor "c1" w_delta 0 with
  | Done (inr p) => match ConsumeTraces p (λ _, 0) w_traces with Done (p1, _) => f p p1 | _ => false end
  | _ => false
  end.

(** A fresh processor and its state after the batch, of which a test holds. *)
Lemma w_consumed f : w_consumed_test f = true →
  ∃ p p1 fwd, newProcessor "c1" w_delta 0 = Done (inr p) ∧ ConsumeTraces p (λ _, 0) w_traces = Done (p1, fwd)
              ∧ reachable p1 ∧ f p p1 = true.
Proof.
  unfold w_consumed_test. destruct (newProcessor "c1" w_delta 0) as [[e|p]| |] eqn:Hp; [done| |done..].
  destruct (ConsumeTraces p (λ _, 0) w_traces) as [[p1 fwd]| |] eqn:Hc; [|done..]. intros Hf.
  exists p, p1, fwd. split; [reflexivity|]. split; [exact Hc|]. split; [|exact Hf].
  eapply reach_consume; [|exact Hc]. eapply reach_new. exact Hp.
Qed.

Lemma build_refines_witness : ∃ p p1 fwd ms p2 a2,
  newProcessor "c1" w_delta 0 = Done (inr p) ∧ ConsumeTraces p (λ _, 0) w_traces = Done (p1, fwd)
  ∧ buildMetrics p1 (list_orders p1 0) = (Some ms, p2) ∧ refines p2 a2.
Proof.
  destruct (w_consumed (λ _ _, true)) as (p & p1 & fwd & Hp & Hc & Hr & _); [vm_compute; reflexivity|].
  destruct (reachable_refines p1 Hr) as (a & Ha & _).
  destruct (build_refines p1 a (list_orders p1 0) Ha (list_orders_valid p1 0)) as (ms & p2 & a2 & H1 & _ & H2 & _).
  exists p, p1, fwd, ms, p2, a2. exact (conj Hp (conj Hc (conj H1 H2))).
Defined.

Lemma handlers_total_witness : ∃ p p1 fwd ms logged p2,
  newProcessor "c1" w_delta 0 = Done (inr p) ∧ ConsumeTraces p (λ _, 0) w_traces = Done (p1, fwd)
  ∧ exportMetrics p1 (list_orders p1 0) (λ _, true) = Done (Some ms, logged, p2).
Proof.
  destruct (w_consumed (λ _ _, true)) as (p & p1 & fwd & Hp & Hc & Hr & _); [vm_compute; reflexivity|].
  destruct (handlers_total p1 (λ _, 0) w_traces (list_orders p1 0) (λ _, true) Hr (list_orders_valid p1 0))
    as (_ & ms & logged & p2 & H).
  exists p, p1, fwd, ms, logged, p2. exact (conj Hp (conj Hc H)).
Defined.

Lemma histograms_well_formed_witness : ∃ p1 k h,
  reachable p1 ∧ histograms (families p1 Latency) !! k = Some h ∧ histogram_ok (latencyBounds (st p1)) h.
Proof.
  destruct (w_consumed (λ _ p1, (size (histograms (families p1 Latency)) =? 2)%nat))
    as (p & p1 & fwd & Hp & Hc & Hr & Hs); [vm_compute; reflexivity|].
  destruct (map_choose (histograms (families p1 Latency))) as (k & h & Hh).
  { intros E. rewrite E in Hs. discriminate. }
  pose proof (histograms_well_formed p1 Latency k h Hr Hh) as Hok.
  exists p1, k, h. exact (conj Hr (conj Hh Hok)).
Defined.

Lemma export_bounds_memory_witness : ∃ p1 r p2,
  reachable p1 ∧ exportMetrics p1 (list_orders p1 0) (λ _, true) = Done (r, p2)
  ∧ ∀ s, Z.of_nat (size (histograms (families p2 s)))
         ≤ match GetAggregationTemporality (config (st p1)) with
           | AggregationTemporalityDelta => 0
           | AggregationTemporalityCumulative => DimensionsCacheSize (config (st p1))
           end.
Proof.
  destruct (w_consumed (λ _ p1, match exportMetrics p1 (list_orders p1 0) (λ _, true) with Done _ => true | _ => false end))
    as (p & p1 & fwd & Hp & Hc & Hr & Hs); [vm_compute; reflexivity|].
  destruct (exportMetrics p1 (list_orders p1 0) (λ _, true)) as [[r p2]| |] eqn:He; [|discriminate Hs..].
  pose proof (export_bounds_memory p1 (list_orders p1 0) (λ _, true) r p2 Hr (list_orders_valid p1 0) He) as [Hb _].
  exists p1, r, p2. exact (conj Hr (conj He Hb)).
Defined.

(** Both spans of the batch are counted. *)
Lemma every_span_counted_once_witness : ∃ p p1 fwd ms p2 calls lat rest,
  newProcessor "c1" w_delta 0 = Done (inr p) ∧ ConsumeTraces p (λ _, 0) w_traces = Done (p1, fwd)
  ∧ buildMetrics p1 (list_orders p1 0) = (Some ms, p2)
  ∧ ms = mk_metric (st p) "signoz_calls_total" "" (MSum true calls)
         :: mk_metric (st p) "signoz_latency" "ms" (MHistogram lat) :: rest
  ∧ u64 (sum_by h_count lat) = 2 ∧ u64 (sum_by count_of calls) = 2.
Proof.
  destruct (w_consumed (λ p _, counted (st p) (λ _, 0) (w_traces ≫= resource_items (st p)) =? 2))
    as (p & p1 & fwd & Hp & Hc & Hr & Hn); [vm_compute; reflexivity|]. apply Z.eqb_eq in Hn.
  destruct (new_refines _ _ _ _ Hp) as [Ha _]. destruct (reachable_refines p1 Hr) as (a1 & Ha1 & _).
  destruct (build_spec p1 a1 (list_orders p1 0) Ha1 (list_orders_valid p1 0)) as (ms & p2 & _ & Hb & _).
  destruct (every_span_counted_once p (spec_init p) (λ _, 0) w_traces p1 fwd (list_orders p1 0) ms p2
              Ha Hc (list_orders_valid p1 0) Hb) as (calls & lat & rest & Hms & H1 & H2).
  rewrite Hn in H1, H2. exists p, p1, fwd, ms, p2, calls, lat, rest.
  exact (conj Hp (conj Hc (conj Hb (conj Hms (conj H1 H2))))).
Defined.
End witnesses.
