(* ===== verification/FloatInt.v ===== *)
(** * Whole numbers as floats

    The binary64 numbers of the standard library are exact on whole numbers below 2^53: the
    difference of two is that of the numbers, and truncation gives the number back. *)
From S2P Require Import Prelude Sampling.
From Stdlib Require Import SpecFloat.

(** ** Shifts of positive numbers *)

Definition up (n : nat) (p : positive) : positive := Nat.iter n xO p.
Definition digits (p : positive) : Z := Z.pos (digits2_pos p).

Lemma up_value n p : Z.pos (up n p) = Z.pos p * 2 ^ Z.of_nat n.
Proof.
  induction n as [|n IH]; [change (up 0 p) with p; lia|]. change (up (S n) p) with (xO (up n p)).
  rewrite (Pos2Z.inj_xO (up n p)), IH, Nat2Z.inj_succ, Z.pow_succ_r by lia. lia.
Qed.
Lemma up_up n k p : up n (up k p) = up (n + k) p.
Proof. unfold up. by rewrite Nat.iter_add. Qed.
Lemma digits_up n p : digits (up n p) = Z.of_nat n + digits p.
Proof.
  induction n as [|n IH]; [done|]. change (up (S n) p) with (xO (up n p)). unfold digits in *. simpl. rewrite Pos2Z.inj_succ, IH. lia.
Qed.
Lemma digits_pos p : 1 ≤ digits p.
Proof. unfold digits. lia. Qed.
Lemma digits_bounds p : 2 ^ (digits p - 1) ≤ Z.pos p < 2 ^ digits p.
Proof.
  unfold digits. induction p as [p IH|p IH|]; simpl digits2_pos; [| |done]; rewrite Pos2Z.inj_succ.
  - rewrite (Pos2Z.inj_xI p). replace (Z.succ (Z.pos (digits2_pos p)) - 1) with (Z.succ (Z.pos (digits2_pos p) - 1)) by lia.
    rewrite !Z.pow_succ_r by lia. lia.
  - rewrite (Pos2Z.inj_xO p). replace (Z.succ (Z.pos (digits2_pos p)) - 1) with (Z.succ (Z.pos (digits2_pos p) - 1)) by lia.
    rewrite !Z.pow_succ_r by lia. lia.
Qed.
Lemma digits_small p : Z.pos p < 2 ^ 53 → digits p ≤ 53.
Proof.
  intros H. pose proof (digits_bounds p). destruct (Z.le_gt_cases (digits p) 53) as [|Hgt]; [done|].
  assert (2 ^ 53 ≤ 2 ^ (digits p - 1)) by (apply Z.pow_le_mono_r; lia). lia.
Qed.
Lemma pos_iter_up (d p : positive) : Pos.iter xO p d = up (Pos.to_nat d) p.
Proof. unfold up. by rewrite Pos2Nat.inj_iter. Qed.

Lemma shl_align_up m ex ex' : ex' ≤ ex → shl_align m ex ex' = (up (Z.to_nat (ex - ex')) m, ex').
Proof.
  intros H. unfold shl_align. destruct (ex' - ex) as [|d|d] eqn:E; [|lia|].
  - replace (ex - ex') with 0 by lia. f_equal. lia.
  - rewrite pos_iter_up. do 2 f_equal. replace (ex - ex') with (Z.pos d) by lia. lia.
Qed.

(** ** Shifting right, when what falls out is zero *)

Lemma iter_pos_nat {A} (f : A → A) n x : SpecFloat.iter_pos f n x = Nat.iter (Pos.to_nat n) f x.
Proof.
  revert x. induction n as [n IH|n IH|]; intros x; cbn [SpecFloat.iter_pos]; rewrite ?IH; [| |done].
  - rewrite <-Nat.iter_add. replace (Pos.to_nat (n~1)) with (S (Pos.to_nat n + Pos.to_nat n)) by lia.
    by rewrite Nat.iter_succ_r.
  - rewrite <-Nat.iter_add. f_equal. lia.
Qed.
Lemma shr_up n p e :
  shr {| shr_m := Z.pos (up n p); shr_r := false; shr_s := false |} e (Z.of_nat n)
  = ({| shr_m := Z.pos p; shr_r := false; shr_s := false |}, e + Z.of_nat n).
Proof.
  destruct n as [|n]; [simpl; f_equal; lia|]. unfold shr. 
  replace (Z.of_nat (S n)) with (Z.pos (Pos.of_succ_nat n)) by lia. f_equal.
  rewrite iter_pos_nat, SuccNat2Pos.id_succ. generalize (S n). intros k.
  induction k as [|k IH]; [done|]. rewrite Nat.iter_succ_r. exact IH.
Qed.
Lemma shr_zero mrs e : shr mrs e 0 = (mrs, e).
Proof. done. Qed.

Abbreviation fexp := (fexp 53 1024).
Abbreviation binary_round := (binary_round 53 1024).
Lemma fexp_value e : fexp e = Z.max (e - 53) (-1074).
Proof. done. Qed.

(** ** Rounding is exact *)

Lemma round_aux_exact n p e :
  digits p = 53 → -1074 ≤ e + Z.of_nat n ≤ 971 → -1074 ≤ e →
  binary_round_aux 53 1024 false (Z.pos (up n p)) e loc_Exact = S754_finite false p (e + Z.of_nat n).
Proof.
  intros Hd He He'. unfold binary_round_aux, shr_fexp, shr_record_of_loc. cbn [Zdigits2].
  fold (digits (up n p)). rewrite digits_up, Hd, fexp_value.
  replace (Z.max (Z.of_nat n + 53 + e - 53) (-1074) - e) with (Z.of_nat n) by lia.
  rewrite shr_up. cbn [shr_m loc_of_shr_record round_nearest_even Zdigits2]. fold (digits p). rewrite Hd, fexp_value.
  replace (Z.max (53 + (e + Z.of_nat n) - 53) (-1074) - (e + Z.of_nat n)) with 0 by lia. rewrite shr_zero. cbn [shr_m].
  destruct (Z.leb_spec (e + Z.of_nat n) (1024 - 53)); [done|lia].
Qed.

(** A number of at most 53 digits, scaled by a power of two. *)
Lemma round_exact n p e :
  digits p ≤ 53 → -1074 ≤ e + Z.of_nat n + digits p - 53 → e + Z.of_nat n + digits p - 53 ≤ 971 → -1074 ≤ e →
  binary_round false (up n p) e = S754_finite false (up (Z.to_nat (53 - digits p)) p) (e + Z.of_nat n + digits p - 53).
Proof.
  intros Hd H1 H2 He. pose proof (digits_pos p). unfold SpecFloat.binary_round. fold (digits (up n p)). rewrite digits_up, fexp_value.
  destruct (Z.le_gt_cases (Z.of_nat n + digits p) 53) as [Hle|Hgt].
  - rewrite shl_align_up by lia. rewrite up_up.
    replace (Z.to_nat (e - Z.max (Z.of_nat n + digits p + e - 53) (-1074)) + n)%nat with (0 + Z.to_nat (53 - digits p))%nat by lia.
    rewrite <-up_up. rewrite round_aux_exact; [f_equal; lia|rewrite digits_up; lia|lia|lia].
  - assert (∃ k, n = k + Z.to_nat (53 - digits p))%nat as [k Hk] by (exists (n - Z.to_nat (53 - digits p))%nat; lia).
    assert (shl_align (up n p) e (Z.max (Z.of_nat n + digits p + e - 53) (-1074)) = (up n p, e)) as ->.
    { unfold shl_align. destruct (Z.max _ _ - e) eqn:E; [done|done|lia]. }
    rewrite Hk, <-up_up. rewrite round_aux_exact; [f_equal; lia|rewrite digits_up; lia|lia|lia].
Qed.

Lemma of_int_pos p :
  Z.pos p < 2 ^ 53 → float64_of_int (Z.pos p) = S754_finite false (up (Z.to_nat (53 - digits p)) p) (digits p - 53).
Proof.
  intros H%digits_small. pose proof (digits_pos p). unfold float64_of_int, binary_normalize.
  change p with (up 0 p) at 1. rewrite round_exact by lia. f_equal.
Qed.

(** ** Difference and truncation *)

Theorem sub_exact a b :
  0 ≤ b ≤ a → a < 2 ^ 53 → SFsub 53 1024 (float64_of_int a) (float64_of_int b) = float64_of_int (a - b).
Proof.
  intros Hb Ha. destruct b as [|pb|pb]; [|..|lia].
  { rewrite Z.sub_0_r. destruct a as [|pa|pa]; [done| |lia]. rewrite of_int_pos by lia. done. }
  destruct a as [|pa|pa]; [lia| |lia]. pose proof (digits_small pa Ha) as Hda. pose proof (digits_small pb ltac:(lia)) as Hdb.
  pose proof (digits_pos pa). pose proof (digits_pos pb). rewrite !of_int_pos by lia.
  unfold SFsub. set (ez := Z.min (digits pa - 53) (digits pb - 53)).
  rewrite !shl_align_up by lia. rewrite !up_up. cbn [fst cond_Zopp]. rewrite !up_value.
  set (n := Z.to_nat (- ez)).
  replace (Z.of_nat (Z.to_nat (digits pa - 53 - ez) + Z.to_nat (53 - digits pa))) with (Z.of_nat n) by (unfold n; lia).
  replace (Z.of_nat (Z.to_nat (digits pb - 53 - ez) + Z.to_nat (53 - digits pb))) with (Z.of_nat n) by (unfold n; lia).
  rewrite <-Z.mul_sub_distr_r. destruct (Z.pos pa - Z.pos pb) as [|p|p] eqn:E; [done| |lia].
  rewrite <-up_value. assert (Z.pos p < 2 ^ 53) as Hp by lia. pose proof (digits_small p Hp). pose proof (digits_pos p).
  rewrite of_int_pos by done. unfold binary_normalize. rewrite round_exact by (unfold n; lia). f_equal. unfold n. lia.
Qed.

Lemma of_int_truncated z :
  0 < z < 2 ^ 53 → ∃ m e, float64_of_int z = S754_finite false m e ∧ e ≤ 0 ∧ Z.pos m = z * 2 ^ (- e).
Proof.
  intros Hz. destruct z as [|p|p]; [lia| |lia]. pose proof (digits_small p ltac:(lia)). pose proof (digits_pos p).
  rewrite of_int_pos by lia. eexists _, _. split; [done|]. split; [lia|]. rewrite up_value. do 2 f_equal. lia.
Qed.
