(* ===== verification/PromFamily.v ===== *)
(** * Families of Prometheus metrics

    src/receiver/prometheusreceiver/internal: metricfamily.go, metadata.go and util.go. The
    samples of a scrape are gathered in groups, and each group becomes a point. Labels are a
    list sorted by name; the constants and the trimming of names belong to Prometheus
    packages and are interfaces. *)
From S2P Require Import Prelude GoText Pdata Sampling Pmetric Flatten Utils SpanHistogram.
From Stdlib Require Import SpecFloat.

(** A sample is a number or the marker of a stale series, a NaN of its own. *)
Inductive sample := StaleNaN | Sample (x : float64).
Definition IsStaleNaN (s : sample) : bool := match s with StaleNaN => true | _ => false end.
Definition to_float (s : sample) : float64 := match s with StaleNaN => S754_nan | Sample x => x end.

Abbreviation Labels := (list (string * string)).
Definition Labels_Get (ls : Labels) (name : string) : string :=
  match list_find (λ l, l.1 = name) ls with Some (_, l) => l.2 | None => "" end.

Inductive model_type :=
| TypeCounter | TypeGauge | TypeHistogram | TypeGaugeHistogram | TypeSummary | TypeInfo | TypeStateset | TypeUnknown.
#[export] Instance model_type_eq_dec : EqDecision model_type.
Proof. solve_decision. Defined.
Record MetricMetadata := { MetricFamily : string; md_Type : model_type; md_Help : string; md_Unit : string }.
(** [MetricMetadataStore.GetMetadata]. *)
Abbreviation MetadataStore := (string → option MetricMetadata).

(** Names of labels and keys, hashing, texts and translation of Prometheus and of the
    collector. The conversion of a float that is no uint64 depends on the machine. *)
Class Prometheus := {
  MetricNameLabel : string; InstanceLabel : string; SchemeLabel : string; MetricsPathLabel : string; JobLabel : string;
  BucketLabel : string; QuantileLabel : string; ScopeLabelPrefix : string;
  ExemplarTraceIDKey : string; ExemplarSpanIDKey : string; MetricMetadataTypeKey : string;
  Labels_Hash : Labels → Z;
  ParseFloat : string → result string float64; ToLower : string → string;
  TrimPromSuffixes : string → MetricType → string → string; UnitWordToUCUM : string → string; type_text : model_type → string;
  uint64_of_other : float64 → Z }.

Section family.
Context `{PM : Prometheus}.

(** [uint64(x)]. *)
Definition uint64_of (x : float64) : Z :=
  match x with
  | S754_zero _ => 0
  | S754_finite false m e =>
      let z := if 0 <=? e then Z.pos m * 2 ^ e else Z.pos m / 2 ^ (- e) in
      if z <? two64 then z else uint64_of_other x
  | _ => uint64_of_other x
  end.
Definition float64_sub (a b : float64) : float64 := SFsub 53 1024 a b.
Definition float64_mul (a b : float64) : float64 := SFmul 53 1024 a b.

(** ** util.go *)

Definition metricsSuffixCount : string := "_count".
Definition metricsSuffixBucket : string := "_bucket".
Definition metricsSuffixSum : string := "_sum".
Definition metricSuffixTotal : string := "_total".
Definition metricSuffixInfo : string := "_info".
Definition metricSuffixCreated : string := "_created".
Definition trimmableSuffixes : list string :=
  [metricsSuffixBucket; metricsSuffixCount; metricsSuffixSum; metricSuffixTotal; metricSuffixInfo; metricSuffixCreated].

Definition sortString (strs : list string) : list string := sort_slice Strings.String.ltb strs.
Definition notUsefulLabelsOther : list string :=
  sortString [MetricNameLabel; InstanceLabel; SchemeLabel; MetricsPathLabel; JobLabel].
Definition getSortedNotUsefulLabels (mType : MetricType) : list string :=
  match mType with
  | MetricTypeHistogram => sortString (notUsefulLabelsOther ++ [BucketLabel])
  | MetricTypeSummary => sortString (notUsefulLabelsOther ++ [QuantileLabel])
  | _ => notUsefulLabelsOther
  end.
(** The labels of scopes are left out, too; a name that is there already is not added. *)
Definition getSortedNotUsefulLabelsForSeries (mType : MetricType) (ls : Labels) : list string :=
  let base := getSortedNotUsefulLabels mType in
  let exclusions := foldl (λ acc l, if has_prefix l.1 ScopeLabelPrefix && negb (bool_decide (l.1 ∈ acc)) then acc ++ [l.1] else acc) base ls in
  if existsb (λ l, has_prefix l.1 ScopeLabelPrefix) ls then sortString exclusions else base.

Definition timestampFromFloat64 (ts : float64) : Z :=
  let secs := int_of_float ts in
  let nanos := int_of_float (float64_mul (float64_sub ts (float64_of_int secs)) (float64_of_int 1000000000)) in
  u64 (i64 (i64 (secs * 1000000000) + nanos)).
Definition timestampFromMs (timeAtMs : Z) : Z := u64 (timeAtMs * 1000000).

Definition getBoundary (metricType : MetricType) (ls : Labels) : result string float64 :=
  match metricType with
  | MetricTypeHistogram =>
      let val := Labels_Get ls BucketLabel in
      if decide (val = "") then Err "'le' label on histogram metric is missing or empty" else ParseFloat val
  | MetricTypeSummary =>
      let val := Labels_Get ls QuantileLabel in
      if decide (val = "") then Err "'quantile' label on summary metric is missing or empty" else ParseFloat val
  | _ => Err "given metricType has no 'le' or 'quantile' label"
  end.

Definition convToMetricType (metricType : model_type) (exponentialHistogram : bool) : MetricType * bool :=
  match metricType with
  | TypeCounter => (MetricTypeSum, true)
  | TypeGauge | TypeUnknown => (MetricTypeGauge, false)
  | TypeHistogram => if exponentialHistogram then (MetricTypeExponentialHistogram, true) else (MetricTypeHistogram, true)
  | TypeSummary => (MetricTypeSummary, true)
  | TypeInfo | TypeStateset => (MetricTypeSum, false)
  | TypeGaugeHistogram => (MetricTypeEmpty, false)
  end.

Definition trim_suffix (name s : string) : string := of_bytes (take (length (bytes name) - length (bytes s)) (bytes name)).
Definition normalizeMetricName (name : string) : string :=
  match list_find (λ s, has_suffix name s = true ∧ name ≠ s) trimmableSuffixes with
  | Some (_, s) => trim_suffix name s
  | None => name
  end.

(** ** metadata.go *)

Definition internal (family : string) (unit help : string) : MetricMetadata :=
  {| MetricFamily := family; md_Type := TypeGauge; md_Help := help; md_Unit := unit |}.
Definition internalMetricMetadata : gmap string MetricMetadata := list_to_map
  [("up", internal "up" "" "The scraping was successful");
   ("scrape_duration_seconds", internal "scrape_duration_seconds" "seconds" "Duration of the scrape");
   ("scrape_samples_scraped", internal "scrape_samples_scraped" "" "The number of samples the target exposed");
   ("scrape_series_added", internal "scrape_series_added" "" "The approximate number of new series in this scrape");
   ("scrape_samples_post_metric_relabeling",
    internal "scrape_samples_post_metric_relabeling" "" "The number of samples remaining after metric relabeling was applied")].
Definition metadataForMetric (metricName : string) (mc : MetadataStore) : MetricMetadata * string :=
  match internalMetricMetadata !! metricName with
  | Some metadata => (metadata, metricName)
  | None =>
      match mc metricName with
      | Some metadata => (metadata, metricName)
      | None =>
          let normalizedName := normalizeMetricName metricName in
          match mc normalizedName with
          | Some metadata =>
              if decide (md_Type metadata = TypeCounter) then
                if has_suffix metricName metricSuffixCreated then (metadata, normalizedName +:+ metricSuffixTotal)
                else (metadata, metricName)
              else (metadata, normalizedName)
          | None => ({| MetricFamily := metricName; md_Type := TypeUnknown; md_Help := ""; md_Unit := "" |}, metricName)
          end
      end
  end.
Definition isCounterCreatedLine (metricName normalizedMetricName : string) (mc : MetadataStore) : bool :=
  has_suffix metricName metricSuffixCreated &&
  match mc normalizedMetricName with Some md => bool_decide (md_Type md = TypeCounter) | None => false end.

(** ** Groups and families (metricfamily.go) *)

(** An offset (int32) and a length (uint32). *)
Record Span := { Offset : Z; Length : Z }.
Record NativeHistogram (count bucket : Type) := {
  Schema : Z; hg_Count : count; hg_Sum : sample; ZeroThreshold : float64; ZeroCount : count;
  PositiveSpans : list Span; PositiveBuckets : list bucket; NegativeSpans : list Span; NegativeBuckets : list bucket;
  CustomValues : list float64 }.
Abbreviation Histogram := (NativeHistogram Z Z).
Abbreviation FloatHistogram := (NativeHistogram float64 float64).

Record PromExemplar := { ex_Labels : Labels; ex_Value : float64; ex_Ts : Z }.
Record Exemplar := {
  xm_Timestamp : Z; xm_Value : float64; xm_TraceID : string; xm_SpanID : string; xm_FilteredAttributes : gmap string string }.

Record metricGroup := {
  mg_mtype : MetricType; mg_ts : Z; mg_ls : Labels; mg_count : sample; mg_hasCount : bool; mg_sum : sample; mg_hasSum : bool;
  mg_createdSeconds : float64; mg_value : sample; mg_hasValue : bool; mg_hValue : option Histogram;
  mg_fhValue : option FloatHistogram; mg_complexValue : list (sample * float64); mg_exemplars : list Exemplar; mg_isNHCB : bool }.
(** A point's optional fields are options; [None] as a value is one without a value. *)
Inductive point_data :=
| NumberPoint (value : option float64)
| HistogramPoint (count : option Z) (sum : option float64) (bounds : list float64) (buckets : list Z)
| SummaryPoint (count : option Z) (sum : option float64) (quantiles : list (float64 * option float64))
| ExponentialPoint (content : option (Z * Z * float64 * float64 * Z * option (Z * list Z) * option (Z * list Z))).
Record point := {
  pt_Start : option Z; pt_Timestamp : Z; pt_NoRecordedValue : bool; pt_Attributes : gmap string string;
  pt_Exemplars : list Exemplar; pt_Data : point_data }.

Definition zero : sample := Sample (S754_zero false).
Definition is_zero (x : float64) : bool := SFeqb x (S754_zero false).

Definition boundary_ltb (a b : sample * float64) : bool := SFltb a.2 b.2.
Definition sortPoints (complexValue : list (sample * float64)) : list (sample * float64) := sort_slice boundary_ltb complexValue.

(** The names and the labels are both sorted: one walk leaves the labels out. *)
Fixpoint skip_names (names : list string) (name : string) : list string :=
  match names with n :: rest => if Strings.String.ltb n name then skip_names rest name else names | [] => [] end.
Fixpoint populate_loop (names : list string) (ls : Labels) (dest : gmap string string) : gmap string string :=
  match ls with
  | [] => dest
  | (name, value) :: rest =>
      let names := skip_names names name in
      if bool_decide (head names = Some name) then populate_loop names rest dest
      else if has_prefix name ScopeLabelPrefix then populate_loop names rest dest
      else if decide (value = "") then populate_loop names rest dest
      else populate_loop names rest (<[name := value]> dest)
  end.
Definition populateAttributes (mType : MetricType) (ls : Labels) : gmap string string :=
  populate_loop (getSortedNotUsefulLabels mType) ls ∅.

Definition start_of (mg : metricGroup) : option Z :=
  if is_zero (mg_createdSeconds mg) then None else Some (timestampFromFloat64 (mg_createdSeconds mg)).
Definition is_stale (mg : metricGroup) : bool := IsStaleNaN (mg_sum mg) || IsStaleNaN (mg_count mg).

(** *** Classic histograms *)

(** The buckets below the last: a cumulative value less the one before it. *)
Fixpoint bucket_counts (stale : bool) (prev : option float64) (l : list (sample * float64)) : list Z :=
  match l with
  | [] => []
  | (v, _) :: rest =>
      let v := to_float v in
      let adjustedCount := if stale then S754_zero false else match prev with None => v | Some p => float64_sub v p end in
      uint64_of adjustedCount :: bucket_counts stale (Some v) rest
  end.
Definition plus_inf (x : float64) : bool := SFeqb x (S754_infinity false).
Definition last_bucket (stale : bool) (count : float64) (l : list (sample * float64)) : Z :=
  uint64_of (if stale then S754_zero false
             else match last l with None => count | Some (v, _) => float64_sub count (to_float v) end).
(** A last bucket without an upper bound is ignored. *)
Definition finite_buckets (l : list (sample * float64)) : list (sample * float64) :=
  match last l with
  | Some (_, boundary) => if plus_inf boundary then take (length l - 1) l else l
  | None => l
  end.
Definition classic_buckets (mg : metricGroup) : list float64 * list Z :=
  let l := finite_buckets (sortPoints (mg_complexValue mg)) in
  (l.*2, bucket_counts (is_stale mg) None l ++ [last_bucket (is_stale mg) (to_float (mg_count mg)) l]).

(** *** Native histograms *)

(** The zeros of a gap before a span; an offset that is negative is no gap. *)
Definition gap (first : bool) (span : Span) : list Z :=
  if first then [] else replicate (Z.to_nat (Offset span)) 0.
(** The counts of one span; a bucket that is not there is a panic. *)
Fixpoint delta_span (n : nat) (deltas : list Z) (bucketCount : Z) : option (list Z * list Z * Z) :=
  match n with
  | O => Some ([], deltas, bucketCount)
  | S n =>
      match deltas with
      | [] => None
      | d :: deltas =>
          let bucketCount := i64 (bucketCount + d) in
          '(counts, deltas, last) ← delta_span n deltas bucketCount;
          Some (u64 bucketCount :: counts, deltas, last)
      end
  end.
Fixpoint delta_spans (first : bool) (spans : list Span) (deltas : list Z) (bucketCount : Z) : option (list Z) :=
  match spans with
  | [] => Some []
  | span :: rest =>
      '(counts, deltas, bucketCount) ← delta_span (Z.to_nat (Length span)) deltas bucketCount;
      more ← delta_spans false rest deltas bucketCount;
      Some (gap first span ++ counts ++ more)
  end.
Definition convertDeltaBuckets (spans : list Span) (deltas : list Z) : option (list Z) := delta_spans true spans deltas 0.

Fixpoint absolute_spans (first : bool) (spans : list Span) (counts : list float64) : option (list Z) :=
  match spans with
  | [] => Some []
  | span :: rest =>
      let n := Z.to_nat (Length span) in
      if decide (n <= length counts)%nat then
        more ← absolute_spans false rest (drop n counts);
        Some (gap first span ++ (uint64_of <$> take n counts) ++ more)
      else None
  end.
Definition convertAbsoluteBuckets (spans : list Span) (counts : list float64) : option (list Z) := absolute_spans true spans counts.

(** Custom buckets: a span is written into a slice of zeros, as far as there is room. *)
Definition set_bucket (buckets : list Z) (idx : Z) (v : Z) : list Z :=
  if 0 <=? idx then <[Z.to_nat idx := v]> buckets else buckets.
Fixpoint nhcb_delta_span (n : nat) (buckets : list Z) (bucketIdx : Z) (deltas : list Z) (bucketCount : Z) :
    list Z * Z * list Z * Z :=
  match n, deltas with
  | S n, d :: rest =>
      if bucketIdx <? Z.of_nat (length buckets) then
        let bucketCount := i64 (bucketCount + d) in
        nhcb_delta_span n (set_bucket buckets bucketIdx (u64 bucketCount)) (bucketIdx + 1) rest bucketCount
      else (buckets, bucketIdx, deltas, bucketCount)
  | _, _ => (buckets, bucketIdx, deltas, bucketCount)
  end.
Fixpoint nhcb_delta_spans (spans : list Span) (buckets : list Z) (bucketIdx : Z) (deltas : list Z) (bucketCount : Z) : list Z :=
  match spans with
  | [] => buckets
  | span :: rest =>
      let '(buckets, bucketIdx, deltas, bucketCount) :=
        nhcb_delta_span (Z.to_nat (Length span)) buckets (bucketIdx + Offset span) deltas bucketCount in
      nhcb_delta_spans rest buckets bucketIdx deltas bucketCount
  end.
Definition convertNHCBBDeltBuckets (h : Histogram) : list Z :=
  nhcb_delta_spans (PositiveSpans _ _ h) (replicate (S (length (CustomValues _ _ h))) 0) 0 (PositiveBuckets _ _ h) 0.

(** Here the index into the buckets starts again with each span. *)
Fixpoint nhcb_absolute_span (n : nat) (buckets : list Z) (bucketIdx : Z) (counts : list float64) : list Z * Z :=
  match n, counts with
  | S n, c :: rest =>
      if bucketIdx <? Z.of_nat (length buckets)
      then nhcb_absolute_span n (set_bucket buckets bucketIdx (uint64_of c)) (bucketIdx + 1) rest
      else (buckets, bucketIdx)
  | _, _ => (buckets, bucketIdx)
  end.
Definition convertNHCBAbsoluteBuckets (h : FloatHistogram) : list Z :=
  (foldl (λ '(buckets, bucketIdx) span,
     nhcb_absolute_span (Z.to_nat (Length span)) buckets (bucketIdx + Offset span) (PositiveBuckets _ _ h))
   (replicate (S (length (CustomValues _ _ h))) 0, 0) (PositiveSpans _ _ h)).1.

(** *** Points *)

(** [None] is no point. *)
Definition distribution_buckets (mg : metricGroup) : option (list float64 * list Z) :=
  if mg_isNHCB mg then
    match mg_hValue mg, mg_fhValue mg with
    | Some h, _ => if decide (CustomValues _ _ h = []) then None else Some (CustomValues _ _ h, convertNHCBBDeltBuckets h)
    | None, Some h => if decide (CustomValues _ _ h = []) then None else Some (CustomValues _ _ h, convertNHCBAbsoluteBuckets h)
    | None, None => Some ([], [])
    end
  else Some (classic_buckets mg).
Definition sum_of (mg : metricGroup) : option float64 := if mg_hasSum mg then Some (to_float (mg_sum mg)) else None.
Definition toDistributionPoint (mg : metricGroup) : option point :=
  if mg_hasCount mg then
    '(bounds, buckets) ← distribution_buckets mg;
    let stale := is_stale mg in
    Some {| pt_Start := start_of mg; pt_Timestamp := timestampFromMs (mg_ts mg); pt_NoRecordedValue := stale;
            pt_Attributes := populateAttributes MetricTypeHistogram (mg_ls mg); pt_Exemplars := mg_exemplars mg;
            pt_Data := HistogramPoint (if stale then None else Some (uint64_of (to_float (mg_count mg))))
                         (if stale then None else sum_of mg) bounds buckets |}
  else None.

(** The spans of one sign: the offset of the lower bound and the counts. *)
Definition native_side {B} (convert : list Span → list B → option (list Z)) (spans : list Span) (buckets : list B) :
    option (option (Z * list Z)) :=
  match spans with
  | [] => Some None
  | span :: _ => counts ← convert spans buckets; Some (Some (Offset span - 1, counts))
  end.
Definition native_content {C B} (count : C → Z) (convert : list Span → list B → option (list Z)) (h : NativeHistogram C B) :
    option (option (Z * Z * float64 * float64 * Z * option (Z * list Z) * option (Z * list Z))) :=
  if IsStaleNaN (hg_Sum _ _ h) then Some None
  else
    pos ← native_side convert (PositiveSpans _ _ h) (PositiveBuckets _ _ h);
    neg ← native_side convert (NegativeSpans _ _ h) (NegativeBuckets _ _ h);
    Some (Some (Schema _ _ h, count (hg_Count _ _ h), to_float (hg_Sum _ _ h), ZeroThreshold _ _ h, count (ZeroCount _ _ h), pos, neg)).
(** A point of an exponential histogram; the outer [None] is a panic. *)
Definition toExponentialHistogramDataPoints (mg : metricGroup) : option (option point) :=
  if mg_hasCount mg then
    let mk content := Some
      {| pt_Start := start_of mg; pt_Timestamp := timestampFromMs (mg_ts mg); pt_NoRecordedValue := bool_decide (content = None);
         pt_Attributes := populateAttributes MetricTypeHistogram (mg_ls mg); pt_Exemplars := mg_exemplars mg;
         pt_Data := ExponentialPoint content |} in
    match mg_fhValue mg, mg_hValue mg with
    | Some fh, _ => content ← native_content uint64_of convertAbsoluteBuckets fh; Some (mk content)
    | None, Some h => content ← native_content id convertDeltaBuckets h; Some (mk content)
    | None, None =>
        Some (Some {| pt_Start := None; pt_Timestamp := timestampFromMs (mg_ts mg); pt_NoRecordedValue := false; pt_Attributes := ∅;
                      pt_Exemplars := []; pt_Data := ExponentialPoint None |})
    end
  else Some None.

Definition toSummaryPoint (mg : metricGroup) : option point :=
  if mg_hasCount mg then
    let stale := is_stale mg in
    Some {| pt_Start := start_of mg; pt_Timestamp := timestampFromMs (mg_ts mg); pt_NoRecordedValue := stale;
            pt_Attributes := populateAttributes MetricTypeSummary (mg_ls mg); pt_Exemplars := [];
            pt_Data := SummaryPoint (if stale then None else Some (uint64_of (to_float (mg_count mg))))
                         (if stale then None else sum_of mg)
                         ((λ vb, (vb.2, if stale then None else Some (to_float vb.1))) <$> sortPoints (mg_complexValue mg)) |}
  else None.

Definition toNumberDataPoint (mg : metricGroup) : option point :=
  if mg_hasValue mg then
    let stale := IsStaleNaN (mg_value mg) in
    Some {| pt_Start := if decide (mg_mtype mg = MetricTypeSum) then start_of mg else None;
            pt_Timestamp := timestampFromMs (mg_ts mg); pt_NoRecordedValue := stale;
            pt_Attributes := populateAttributes MetricTypeGauge (mg_ls mg); pt_Exemplars := mg_exemplars mg;
            pt_Data := NumberPoint (if stale then None else Some (to_float (mg_value mg))) |}
  else None.

(** *** Exemplars *)

(** The bytes of an id, or its first bytes, or the last with zeros before them. *)
Definition decodeAndCopyToLowerBytes (n : nat) (src : list ascii) : result string (list ascii) :=
  let decodedLen := (length src / 2)%nat in
  if (n <=? decodedLen)%nat then hex_decode (take (2 * n) src)
  else data ← hex_decode src; Ok (replicate (n - decodedLen) "000"%char ++ data).
Definition convertExemplar (pe : PromExemplar) : Exemplar :=
  foldl (λ e lb,
    let attribute := {| xm_Timestamp := xm_Timestamp e; xm_Value := xm_Value e; xm_TraceID := xm_TraceID e;
                        xm_SpanID := xm_SpanID e; xm_FilteredAttributes := <[lb.1 := lb.2]> (xm_FilteredAttributes e) |} in
    if decide (ToLower lb.1 = ExemplarTraceIDKey) then
      match decodeAndCopyToLowerBytes 16 (bytes lb.2) with
      | Ok tid => {| xm_Timestamp := xm_Timestamp e; xm_Value := xm_Value e; xm_TraceID := of_bytes tid;
                     xm_SpanID := xm_SpanID e; xm_FilteredAttributes := xm_FilteredAttributes e |}
      | Err _ => attribute
      end
    else if decide (ToLower lb.1 = ExemplarSpanIDKey) then
      match decodeAndCopyToLowerBytes 8 (bytes lb.2) with
      | Ok sid => {| xm_Timestamp := xm_Timestamp e; xm_Value := xm_Value e; xm_TraceID := xm_TraceID e;
                     xm_SpanID := of_bytes sid; xm_FilteredAttributes := xm_FilteredAttributes e |}
      | Err _ => attribute
      end
    else attribute)
  {| xm_Timestamp := timestampFromMs (ex_Ts pe); xm_Value := ex_Value pe; xm_TraceID := ""; xm_SpanID := "";
     xm_FilteredAttributes := ∅ |} (ex_Labels pe).

(** *** Families *)

Record metricFamily := {
  mf_mtype : MetricType; mf_isMonotonic : bool; mf_name : string; mf_metadata : MetricMetadata;
  mf_groups : gmap Z metricGroup; mf_groupOrders : list Z }.
Definition newMetricFamily (metricName : string) (mc : MetadataStore) (isNativeHistogram isNHCB : bool) : metricFamily :=
  let '(metadata, familyName) := metadataForMetric metricName mc in
  let metadata := if isNativeHistogram
                  then {| MetricFamily := MetricFamily metadata; md_Type := TypeHistogram; md_Help := md_Help metadata; md_Unit := md_Unit metadata |}
                  else metadata in
  let '(mtype, isMonotonic) := convToMetricType (md_Type metadata) (isNativeHistogram && negb isNHCB) in
  {| mf_mtype := mtype; mf_isMonotonic := isMonotonic; mf_name := familyName; mf_metadata := metadata; mf_groups := ∅; mf_groupOrders := [] |}.
Definition includesMetric (mf : metricFamily) (metricName : string) : bool :=
  match mf_mtype mf with
  | MetricTypeSum => bool_decide (normalizeMetricName metricName = MetricFamily (mf_metadata mf))
  | MetricTypeGauge => bool_decide (metricName = mf_name mf)
  | _ => bool_decide (normalizeMetricName metricName = mf_name mf)
  end.

Definition new_group (mtype : MetricType) (ls : Labels) (ts : Z) : metricGroup :=
  {| mg_mtype := mtype; mg_ts := ts; mg_ls := ls; mg_count := zero; mg_hasCount := false; mg_sum := zero; mg_hasSum := false;
     mg_createdSeconds := S754_zero false; mg_value := zero; mg_hasValue := false; mg_hValue := None; mg_fhValue := None;
     mg_complexValue := []; mg_exemplars := []; mg_isNHCB := false |}.
Definition set_group (mf : metricFamily) (key : Z) (mg : metricGroup) : metricFamily :=
  {| mf_mtype := mf_mtype mf; mf_isMonotonic := mf_isMonotonic mf; mf_name := mf_name mf; mf_metadata := mf_metadata mf;
     mf_groups := <[key := mg]> (mf_groups mf);
     mf_groupOrders := match mf_groups mf !! key with Some _ => mf_groupOrders mf | None => mf_groupOrders mf ++ [key] end |}.
(** The group of a key; a new one is in the family from then on. *)
Definition loadMetricGroupOrCreate (mf : metricFamily) (groupKey : Z) (ls : Labels) (ts : Z) : metricGroup * metricFamily :=
  match mf_groups mf !! groupKey with
  | Some mg => (mg, mf)
  | None => let mg := new_group (mf_mtype mf) ls ts in (mg, set_group mf groupKey mg)
  end.

Definition with_sum (mg : metricGroup) (v : sample) : metricGroup :=
  {| mg_mtype := mg_mtype mg; mg_ts := mg_ts mg; mg_ls := mg_ls mg; mg_count := mg_count mg; mg_hasCount := mg_hasCount mg;
     mg_sum := v; mg_hasSum := true; mg_createdSeconds := mg_createdSeconds mg; mg_value := mg_value mg;
     mg_hasValue := mg_hasValue mg; mg_hValue := mg_hValue mg; mg_fhValue := mg_fhValue mg;
     mg_complexValue := mg_complexValue mg; mg_exemplars := mg_exemplars mg; mg_isNHCB := mg_isNHCB mg |}.
Definition with_count (mg : metricGroup) (v : sample) : metricGroup :=
  {| mg_mtype := mg_mtype mg; mg_ts := mg_ts mg; mg_ls := mg_ls mg; mg_count := v; mg_hasCount := true; mg_sum := mg_sum mg;
     mg_hasSum := mg_hasSum mg; mg_createdSeconds := mg_createdSeconds mg; mg_value := mg_value mg;
     mg_hasValue := mg_hasValue mg; mg_hValue := mg_hValue mg; mg_fhValue := mg_fhValue mg;
     mg_complexValue := mg_complexValue mg; mg_exemplars := mg_exemplars mg; mg_isNHCB := mg_isNHCB mg |}.
Definition with_created (mg : metricGroup) (v : float64) : metricGroup :=
  {| mg_mtype := mg_mtype mg; mg_ts := mg_ts mg; mg_ls := mg_ls mg; mg_count := mg_count mg; mg_hasCount := mg_hasCount mg;
     mg_sum := mg_sum mg; mg_hasSum := mg_hasSum mg; mg_createdSeconds := v; mg_value := mg_value mg;
     mg_hasValue := mg_hasValue mg; mg_hValue := mg_hValue mg; mg_fhValue := mg_fhValue mg;
     mg_complexValue := mg_complexValue mg; mg_exemplars := mg_exemplars mg; mg_isNHCB := mg_isNHCB mg |}.
Definition with_value (mg : metricGroup) (v : sample) : metricGroup :=
  {| mg_mtype := mg_mtype mg; mg_ts := mg_ts mg; mg_ls := mg_ls mg; mg_count := mg_count mg; mg_hasCount := mg_hasCount mg;
     mg_sum := mg_sum mg; mg_hasSum := mg_hasSum mg; mg_createdSeconds := mg_createdSeconds mg; mg_value := v;
     mg_hasValue := true; mg_hValue := mg_hValue mg; mg_fhValue := mg_fhValue mg; mg_complexValue := mg_complexValue mg;
     mg_exemplars := mg_exemplars mg; mg_isNHCB := mg_isNHCB mg |}.
Definition with_bucket (mg : metricGroup) (v : sample) (boundary : float64) : metricGroup :=
  {| mg_mtype := mg_mtype mg; mg_ts := mg_ts mg; mg_ls := mg_ls mg; mg_count := mg_count mg; mg_hasCount := mg_hasCount mg;
     mg_sum := mg_sum mg; mg_hasSum := mg_hasSum mg; mg_createdSeconds := mg_createdSeconds mg; mg_value := mg_value mg;
     mg_hasValue := mg_hasValue mg; mg_hValue := mg_hValue mg; mg_fhValue := mg_fhValue mg;
     mg_complexValue := mg_complexValue mg ++ [(v, boundary)]; mg_exemplars := mg_exemplars mg; mg_isNHCB := mg_isNHCB mg |}.
Definition with_exemplar (mg : metricGroup) (e : Exemplar) : metricGroup :=
  {| mg_mtype := mg_mtype mg; mg_ts := mg_ts mg; mg_ls := mg_ls mg; mg_count := mg_count mg; mg_hasCount := mg_hasCount mg;
     mg_sum := mg_sum mg; mg_hasSum := mg_hasSum mg; mg_createdSeconds := mg_createdSeconds mg; mg_value := mg_value mg;
     mg_hasValue := mg_hasValue mg; mg_hValue := mg_hValue mg; mg_fhValue := mg_fhValue mg;
     mg_complexValue := mg_complexValue mg; mg_exemplars := mg_exemplars mg ++ [e]; mg_isNHCB := mg_isNHCB mg |}.
Definition with_native (mg : metricGroup) (h : option Histogram) (fh : option FloatHistogram) (count sum : sample) (nhcb : bool) : metricGroup :=
  {| mg_mtype := mg_mtype mg; mg_ts := mg_ts mg; mg_ls := mg_ls mg; mg_count := count; mg_hasCount := true; mg_sum := sum;
     mg_hasSum := true; mg_createdSeconds := mg_createdSeconds mg; mg_value := mg_value mg; mg_hasValue := mg_hasValue mg;
     mg_hValue := h; mg_fhValue := fh; mg_complexValue := mg_complexValue mg; mg_exemplars := mg_exemplars mg;
     mg_isNHCB := nhcb |}.
Definition with_nhcb (mg : metricGroup)  : metricGroup :=
  {| mg_mtype := mg_mtype mg; mg_ts := mg_ts mg; mg_ls := mg_ls mg; mg_count := mg_count mg; mg_hasCount := mg_hasCount mg;
     mg_sum := mg_sum mg; mg_hasSum := mg_hasSum mg; mg_createdSeconds := mg_createdSeconds mg; mg_value := mg_value mg;
     mg_hasValue := mg_hasValue mg; mg_hValue := mg_hValue mg; mg_fhValue := mg_fhValue mg;
     mg_complexValue := mg_complexValue mg; mg_exemplars := mg_exemplars mg; mg_isNHCB := true |}.

(** What a sample does to the group of its series. *)
Definition add_to_group (mf : metricFamily) (mg : metricGroup) (metricName : string) (ls : Labels) (v : sample) :
    result string metricGroup :=
  let created := bool_decide (metricName = MetricFamily (mf_metadata mf) +:+ metricSuffixCreated) in
  match mf_mtype mf with
  | MetricTypeHistogram | MetricTypeSummary =>
      if has_suffix metricName metricsSuffixSum then Ok (with_sum mg v)
      else if has_suffix metricName metricsSuffixCount then Ok (with_count mg v)
      else if created then Ok (with_created mg (to_float v))
      else boundary ← getBoundary (mf_mtype mf) ls; Ok (with_bucket mg v boundary)
  | MetricTypeExponentialHistogram => Ok (if created then with_created mg (to_float v) else mg)
  | MetricTypeSum => Ok (if created then with_created mg (to_float v) else with_value mg v)
  | _ => Ok (with_value mg v)
  end.
Definition addSeries (mf : metricFamily) (seriesRef : Z) (metricName : string) (ls : Labels) (t : Z) (v : sample) :
    metricFamily * option string :=
  let '(mg, mf) := loadMetricGroupOrCreate mf seriesRef ls t in
  if decide (mg_ts mg = t) then
    match add_to_group mf mg metricName ls v with
    | Ok mg => (set_group mf seriesRef mg, None)
    | Err err => (mf, Some err)
    end
  else (mf, Some ("inconsistent timestamps on metric points for metric " +:+ metricName)).
Definition addCreationTimestamp (mf : metricFamily) (seriesRef : Z) (ls : Labels) (atMs ctMs : Z) : metricFamily :=
  let '(mg, mf) := loadMetricGroupOrCreate mf seriesRef ls atMs in
  set_group mf seriesRef (with_created mg (float64_div (float64_of_int ctMs) (float64_of_int 1000))).

Definition addExponentialHistogramSeries (mf : metricFamily) (seriesRef : Z) (metricName : string) (ls : Labels) (t : Z)
    (h : option Histogram) (fh : option FloatHistogram) : metricFamily * option string :=
  let '(mg, mf) := loadMetricGroupOrCreate mf seriesRef ls t in
  if negb (mg_ts mg =? t) then (mf, Some ("inconsistent timestamps on metric points for metric " +:+ metricName))
  else if negb (bool_decide (mg_mtype mg = MetricTypeExponentialHistogram))
  then (mf, Some ("metric type mismatch for exponential histogram metric " +:+ metricName))
  else
    match fh, h with
    | Some f, _ =>
        match mg_hValue mg with
        | Some _ => (mf, Some ("exponential histogram " +:+ metricName +:+ " already has float counts"))
        | None => (set_group mf seriesRef (with_native mg (mg_hValue mg) fh (Sample (hg_Count _ _ f)) (hg_Sum _ _ f) (mg_isNHCB mg)), None)
        end
    | None, Some i =>
        match mg_fhValue mg with
        | Some _ => (mf, Some ("exponential histogram " +:+ metricName +:+ " already has integer counts"))
        | None => (set_group mf seriesRef
                     (with_native mg h (mg_fhValue mg) (Sample (float64_of_int (hg_Count _ _ i))) (hg_Sum _ _ i) (mg_isNHCB mg)), None)
        end
    | None, None => (mf, None)
    end.
Definition addNHCBSeries (mf : metricFamily) (seriesRef : Z) (metricName : string) (ls : Labels) (t : Z)
    (h : option Histogram) (fh : option FloatHistogram) : metricFamily * option string :=
  let '(mg, mf) := loadMetricGroupOrCreate mf seriesRef ls t in
  if negb (mg_ts mg =? t) then (mf, Some ("inconsistent timestamps on metric points for metric " +:+ metricName))
  else if negb (bool_decide (mg_mtype mg = MetricTypeHistogram)) then (mf, Some ("metric type mismatch for NHCB metric " +:+ metricName))
  else
    match h, fh with
    | Some i, _ => (set_group mf seriesRef (with_native mg h (mg_fhValue mg) (Sample (float64_of_int (hg_Count _ _ i))) (hg_Sum _ _ i) true), None)
    | None, Some f => (set_group mf seriesRef (with_native mg (mg_hValue mg) fh (Sample (hg_Count _ _ f)) (hg_Sum _ _ f) true), None)
    | None, None => (set_group mf seriesRef (with_nhcb mg), Some ("NHCB metric " +:+ metricName +:+ " has no histogram data"))
    end.
Definition addExemplar (mf : metricFamily) (seriesRef : Z) (e : PromExemplar) : metricFamily :=
  match mf_groups mf !! seriesRef with
  | None => mf
  | Some mg => set_group mf seriesRef (with_exemplar mg (convertExemplar e))
  end.

(** The metric of a family; [None] is a panic, and a family without points is no metric. *)
Record prom_metric := {
  pm_name : string; pm_description : string; pm_unit : string; pm_type : model_type; pm_kind : MetricType;
  pm_isMonotonic : bool; pm_points : list point }.
Definition group_points (mf : metricFamily) (mg : metricGroup) : option (option point) :=
  match mf_mtype mf with
  | MetricTypeHistogram => Some (toDistributionPoint mg)
  | MetricTypeSummary => Some (toSummaryPoint mg)
  | MetricTypeExponentialHistogram => toExponentialHistogramDataPoints mg
  | _ => Some (toNumberDataPoint mg)
  end.
Definition family_groups (mf : metricFamily) : list metricGroup := omap (λ key, mf_groups mf !! key) (mf_groupOrders mf).
Definition appendMetric (mf : metricFamily) (trimSuffixes : bool) : option (option prom_metric) :=
  points ← mapM (group_points mf) (family_groups mf);
  let points := omap id points in
  match points with
  | [] => Some None
  | _ => Some (Some
      {| pm_name := if trimSuffixes then TrimPromSuffixes (mf_name mf) (mf_mtype mf) (md_Unit (mf_metadata mf)) else mf_name mf;
         pm_description := md_Help (mf_metadata mf); pm_unit := UnitWordToUCUM (md_Unit (mf_metadata mf));
         pm_type := md_Type (mf_metadata mf);
         pm_kind := match mf_mtype mf with MetricTypeEmpty => MetricTypeGauge | k => k end;
         pm_isMonotonic := match mf_mtype mf with MetricTypeSum => mf_isMonotonic mf | _ => false end; pm_points := points |})
  end.
End family.
