(* ===== verification/PromFamilyProps.v ===== *)
(** * What the points of Prometheus families are

    The walk over labels is a filter; the buckets of a classic histogram are the differences
    of the cumulative counts and add up to the count; native buckets are running sums. *)
From Stdlib Require Import Structures.OrderedTypeEx.
From S2P Require Import Prelude GoText Pdata Sampling Pmetric Flatten Utils SpanHistogram FloatInt PromFamily.
From Stdlib Require Import SpecFloat.

(** ** Labels *)

Definition str_lt (a b : string) : Prop := Strings.String.ltb a b = true.
#[local] Instance str_lt_dec a b : base.Decision (str_lt a b).
Proof. unfold str_lt. apply _. Defined.
Lemma str_lt_OT a b : str_lt a b ↔ String_as_OT.lt a b.
Proof.
  rewrite <-String_as_OT.cmp_lt. unfold str_lt, Strings.String.ltb. change (String_as_OT.cmp a b) with (Strings.String.compare a b).
  by destruct (Strings.String.compare a b).
Qed.
Lemma str_lt_trans a b c : str_lt a b → str_lt b c → str_lt a c.
Proof. rewrite !str_lt_OT. apply String_as_OT.lt_trans. Qed.
Lemma str_lt_irrefl a : ¬ str_lt a a.
Proof. rewrite str_lt_OT. intros H. by apply String_as_OT.lt_not_eq in H. Qed.
Lemma str_lt_total a b : ¬ str_lt a b → ¬ str_lt b a → a = b.
Proof.
  unfold str_lt, Strings.String.ltb. rewrite (Strings.String.compare_antisym b a).
  destruct (Strings.String.compare a b) eqn:E; [intros _ _; by apply Strings.String.compare_eq_iff|done|done].
Qed.
Lemma str_lt_asym a b : str_lt a b → ¬ str_lt b a.
Proof. intros H H'. by apply (str_lt_irrefl a), (str_lt_trans _ b). Qed.

Definition str_le (a b : string) : Prop := ¬ str_lt b a.
Lemma sortString_sorted l : StronglySorted str_le (sortString l).
Proof.
  assert (∀ x y : string, Strings.String.ltb x y = true → Strings.String.ltb y x = false) as Hasym.
  { intros x y H. apply not_true_is_false. by apply str_lt_asym. }
  pose proof (sort_slice_sorted Strings.String.ltb Hasym l) as H. unfold sortString.
  apply Sorted_StronglySorted.
  - intros x y z Hxy Hyz Hzx. destruct (decide (str_lt x y)) as [Hlt|Hge].
    + apply Hyz. by apply (str_lt_trans _ x).
    + assert (x = y) as -> by by apply str_lt_total. by apply Hyz.
  - unfold sorted_by in H. revert H. induction (sort_slice Strings.String.ltb l) as [|x k IH]; [constructor|].
    intros H. inversion H as [|? ? H1 H2]; subst. constructor; [by apply IH|].
    inversion H2 as [|? ? H3]; subst; constructor. intros Hlt. unfold str_lt in Hlt. congruence.
Qed.

Lemma skip_names_spec names name :
  StronglySorted str_le names →
  StronglySorted str_le (skip_names names name)
  ∧ (∀ x, ¬ str_lt x name → x ∈ skip_names names name ↔ x ∈ names)
  ∧ (head (skip_names names name) = Some name ↔ name ∈ names).
Proof.
  induction 1 as [|n names Hs IH Hn]; [split_and!; [constructor|done|split; [done|by intros ?%elem_of_nil]]|]. cbn [skip_names].
  destruct (Strings.String.ltb n name) eqn:E.
  - destruct IH as (IH1 & IH2 & IH3). split_and!; [done| |].
    + intros x Hx. rewrite IH2 by done. rewrite elem_of_cons. split; [by right|]. intros [->|?]; done.
    + rewrite IH3, elem_of_cons. split; [by right|]. intros [->|?]; [|done]. by apply str_lt_irrefl in E.
  - split_and!; [by constructor|done|]. cbn [head]. split; [intros [= ->]; left|].
    intros [->|Hin]%elem_of_cons; [done|]. f_equal. apply str_lt_total; [unfold str_lt; by rewrite E|].
    intros Hlt. rewrite Forall_forall in Hn. by apply (Hn _ Hin).
Qed.

Section props.
Context `{PM : Prometheus}.

(** The labels of a metric that become attributes. *)
Definition useful (mType : MetricType) (l : string * string) : bool :=
  bool_decide (l.1 ∉ getSortedNotUsefulLabels mType) && negb (has_prefix l.1 ScopeLabelPrefix) && bool_decide (l.2 ≠ "").
Definition put_all (ls : Labels) (dest : gmap string string) : gmap string string := foldl (λ m l, <[l.1 := l.2]> m) dest ls.

Lemma populate_loop_filter (keep : string * string → bool) (names0 : list string) (ls : Labels) :
  (∀ l, l ∈ ls → keep l = bool_decide (l.1 ∉ names0) && negb (has_prefix l.1 ScopeLabelPrefix) && bool_decide (l.2 ≠ "")) →
  StronglySorted (λ a b, str_lt a.1 b.1) ls →
  ∀ names dest, StronglySorted str_le names → (∀ l, l ∈ ls → l.1 ∈ names ↔ l.1 ∈ names0) →
  populate_loop names ls dest = put_all (filter (λ l, keep l = true) ls) dest.
Proof.
  intros Hkeep Hs. induction Hs as [|[name value] ls Hs IH Hlt]; intros names dest Hnames Hin; [done|]. cbn [populate_loop].
  destruct (skip_names_spec names name Hnames) as (H1 & H2 & H3).
  assert (∀ dest, populate_loop (skip_names names name) ls dest = put_all (filter (λ l, keep l = true) ls) dest) as Hrest.
  { intros d. apply IH; [intros l Hl; apply Hkeep; by right|done|]. intros l Hl. rewrite H2; [apply Hin; by right|].
    rewrite Forall_forall in Hlt. by apply str_lt_asym, (Hlt l). }
  pose proof (Hkeep (name, value) ltac:(left)) as Hk. simpl in Hk. pose proof (Hin (name, value) ltac:(left)) as Hi. simpl in Hi.
  assert (keep (name, value) = false →
    populate_loop (skip_names names name) ls dest = put_all (filter (λ l, keep l = true) ((name, value) :: ls)) dest) as Hdrop.
  { intros Hf. rewrite filter_cons_False by (by rewrite Hf). apply Hrest. }
  destruct (decide (name ∈ names0)) as [Hn|Hn].
  - rewrite (bool_decide_eq_true_2 (head _ = _)) by (by rewrite H3, Hi). apply Hdrop. rewrite Hk.
    by rewrite (bool_decide_eq_false_2 (name ∉ names0)) by tauto.
  - rewrite (bool_decide_eq_false_2 (head _ = _)) by (by rewrite H3, Hi).
    rewrite (bool_decide_eq_true_2 (name ∉ names0)) in Hk by done. simpl in Hk.
    destruct (has_prefix name ScopeLabelPrefix); simpl in Hk; [by apply Hdrop|].
    destruct (decide (value = "")) as [->|Hv]; [by apply Hdrop|].
    rewrite Hrest, filter_cons_True; [done|]. rewrite Hk. by apply bool_decide_eq_true_2.
Qed.

(** The attributes of a point are the labels whose names are useful, that do not belong to a
    scope and that have a value: the one walk over the sorted names and labels is a filter. *)
Theorem attributes_are_useful_labels mType (ls : Labels) :
  StronglySorted (λ a b, str_lt a.1 b.1) ls →
  populateAttributes mType ls = put_all (filter (λ l, useful mType l = true) ls) ∅.
Proof.
  intros Hs. unfold populateAttributes. apply (populate_loop_filter _ (getSortedNotUsefulLabels mType)); [done|done| |done].
  destruct mType; apply sortString_sorted.
Qed.

(** ** Classic histograms *)

Lemma uint64_of_int z : 0 ≤ z < 2 ^ 53 → uint64_of (float64_of_int z) = z.
Proof.
  intros Hz. destruct (decide (z = 0)) as [->|Hne]; [done|]. destruct (of_int_truncated z) as (m & e & -> & He & Hm); [lia|].
  unfold uint64_of. assert ((if 0 <=? e then Z.pos m * 2 ^ e else Z.pos m / 2 ^ (- e)) = z) as ->.
  { destruct (Z.leb_spec 0 e).
    - assert (e = 0) as -> by lia. rewrite Hm. simpl. lia.
    - rewrite Hm. apply Z.div_mul. pose proof (Z.pow_pos_nonneg 2 (- e)). lia. }
  destruct (Z.ltb_spec z two64); [done|]. unfold two64 in *. lia.
Qed.

(** Cumulative counts: each is at least the one before, and the last at most the total. *)
Fixpoint cumulative (low : Z) (counts : list Z) (total : Z) : Prop :=
  match counts with [] => low ≤ total | c :: rest => low ≤ c ∧ cumulative c rest total end.
Fixpoint differences (low : Z) (counts : list Z) : list Z :=
  match counts with [] => [] | c :: rest => c - low :: differences c rest end.

Lemma cumulative_total low counts total : cumulative low counts total → low ≤ total.
Proof. revert low. induction counts as [|c counts IH]; intros low; [done|]. intros [H1 H2%IH]. lia. Qed.

Lemma bucket_counts_differences (bc : list (float64 * Z)) low total :
  0 ≤ low → total < 2 ^ 53 → cumulative low bc.*2 total →
  bucket_counts false (Some (float64_of_int low)) ((λ b, (Sample (float64_of_int b.2), b.1)) <$> bc) = differences low bc.*2.
Proof.
  revert low. induction bc as [|[b c] bc IH]; intros low Hlow Ht Hc; [done|]. rewrite !fmap_cons in *. destruct Hc as [H1 H2].
  simpl in *. pose proof (cumulative_total _ _ _ H2). cbn [bucket_counts differences to_float].
  unfold float64_sub. rewrite sub_exact, uint64_of_int by lia. by rewrite IH by (lia || done).
Qed.
Lemma bucket_counts_first (bc : list (float64 * Z)) total :
  total < 2 ^ 53 → cumulative 0 bc.*2 total →
  bucket_counts false None ((λ b, (Sample (float64_of_int b.2), b.1)) <$> bc) = differences 0 bc.*2.
Proof.
  intros Ht Hc. destruct bc as [|[b c] bc]; [done|]. rewrite !fmap_cons in *. destruct Hc as [H1 H2]. simpl in *.
  pose proof (cumulative_total _ _ _ H2). cbn [bucket_counts differences to_float].
  rewrite uint64_of_int by lia. rewrite (bucket_counts_differences bc c total) by (lia || done). by rewrite Z.sub_0_r.
Qed.
Lemma cumulative_last low counts total : cumulative low counts total → low ≤ default low (last counts) ≤ total.
Proof.
  revert low. induction counts as [|c counts IH]; intros low; [simpl; lia|]. intros [H1 H2%IH].
  destruct counts as [|c' counts]; [simpl in *; lia|]. change (last (c :: c' :: counts)) with (last (c' :: counts)).
  destruct (last (c' :: counts)) eqn:E; [simpl in *; lia|]. by apply last_None in E.
Qed.
Lemma last_bucket_difference (bc : list (float64 * Z)) total :
  total < 2 ^ 53 → cumulative 0 bc.*2 total →
  last_bucket false (float64_of_int total) ((λ b, (Sample (float64_of_int b.2), b.1)) <$> bc) = total - default 0 (last bc.*2).
Proof.
  intros Ht Hc. pose proof (cumulative_last _ _ _ Hc) as Hl. unfold last_bucket. rewrite !fmap_last in *.
  destruct (last bc) as [[b c]|]; simpl in *; [|rewrite uint64_of_int by lia; lia].
  unfold float64_sub. by rewrite sub_exact, uint64_of_int by lia.
Qed.

(** The differences and what is left of the total are not negative and add up to it. *)
Lemma differences_sum low counts total :
  cumulative low counts total →
  foldr Z.add 0 (differences low counts ++ [total - default low (last counts)]) = total - low
  ∧ Forall (λ d, 0 ≤ d) (differences low counts ++ [total - default low (last counts)]).
Proof.
  revert low. induction counts as [|c counts IH]; intros low Hc; simpl in *; [split; [lia|by repeat constructor; lia]|].
  destruct Hc as [H1 H2]. destruct (IH c H2) as [IH1 IH2].
  assert (default low (last (c :: counts)) = default c (last counts)) as Hd.
  { destruct counts as [|c' counts]; [done|]. change (last (c :: c' :: counts)) with (last (c' :: counts)).
    destruct (last (c' :: counts)) eqn:E; [done|]. by apply last_None in E. }
  simpl in Hd. rewrite Hd. split; [lia|constructor; [lia|done]].
Qed.

(** ** Native histograms *)

(** The running sums of the deltas. *)
Fixpoint running (bucketCount : Z) (deltas : list Z) : list Z :=
  match deltas with [] => [] | d :: deltas => let c := i64 (bucketCount + d) in c :: running c deltas end.

Lemma length_running bucketCount deltas : length (running bucketCount deltas) = length deltas.
Proof. revert bucketCount. induction deltas as [|d deltas IH]; intros; cbn; [done|by rewrite IH]. Qed.

Lemma delta_span_running n deltas bucketCount :
  if decide (n ≤ length deltas)%nat then
    ∃ c, delta_span n deltas bucketCount = Some (u64 <$> take n (running bucketCount deltas), drop n deltas, c)
         ∧ running c (drop n deltas) = drop n (running bucketCount deltas)
  else delta_span n deltas bucketCount = None.
Proof.
  revert deltas bucketCount. induction n as [|n IH]; intros deltas bucketCount; [exists bucketCount; by rewrite take_0|].
  destruct deltas as [|d deltas]; [done|]. cbn [delta_span running take drop length]. specialize (IH deltas (i64 (bucketCount + d))).
  do 2 case_decide; [|lia|lia|by rewrite IH].
  destruct IH as (c & -> & Hc). exists c. by rewrite fmap_cons.
Qed.

(** C33. A histogram of integers and one of floats with the same counts have the same buckets,
    the zeros of the gaps included; spans that ask for more buckets than there are are a panic
    in both. *)
Theorem native_buckets_agree spans deltas :
  Forall (λ c, 0 ≤ c < 2 ^ 53) (running 0 deltas) →
  convertDeltaBuckets spans deltas = convertAbsoluteBuckets spans (float64_of_int <$> running 0 deltas).
Proof.
  unfold convertDeltaBuckets, convertAbsoluteBuckets. generalize true at 1 2. generalize 0 at 2 3 4.
  intros bucketCount first. revert first deltas bucketCount. induction spans as [|span spans IH]; intros first deltas bucketCount Hc; [done|].
  cbn [delta_spans absolute_spans]. rewrite length_fmap, length_running. set (n := Z.to_nat (Length span)).
  pose proof (delta_span_running n deltas bucketCount) as Hspan. case_decide; [|by rewrite Hspan].
  destruct Hspan as (c & -> & Hrest). cbn. rewrite (IH false), Hrest, fmap_drop by (rewrite Hrest; by apply Forall_drop).
  destruct (absolute_spans false spans _) as [more|]; [|done]. cbn. do 3 f_equal.
  rewrite <-fmap_take, <-list_fmap_compose. apply list_fmap_ext. intros i x [Hx _]%lookup_take_Some.
  pose proof (Forall_lookup_1 _ _ _ _ Hc Hx) as Hr. cbv beta in Hr. cbn. rewrite uint64_of_int by done. apply u64_small. unfold two64. lia.
Qed.

(** With custom buckets, the counts of a float histogram start again with each span: two
    spans of one bucket with the counts 1 and 2 become 1, 0 and 1. *)
Lemma nhcb_counts_restart :
  let h := {| Schema := -53; hg_Count := float64_of_int 3; hg_Sum := zero; ZeroThreshold := S754_zero false;
              ZeroCount := S754_zero false; PositiveSpans := [{| Offset := 0; Length := 1 |}; {| Offset := 1; Length := 1 |}];
              PositiveBuckets := [float64_of_int 1; float64_of_int 2]; NegativeSpans := []; NegativeBuckets := [];
              CustomValues := [float64_of_int 1; float64_of_int 2] |} in
  convertNHCBAbsoluteBuckets h = [1; 0; 1].
Proof. reflexivity. Qed.
End props.

(** ** An instance *)

(** An instance with the names that Prometheus has; the texts of floats it reads are those of
    the boundaries 1, 2 and the infinite one. *)
Definition any_prom : Prometheus := {|
  MetricNameLabel := "__name__"; InstanceLabel := "instance"; SchemeLabel := "__scheme__"; MetricsPathLabel := "__metrics_path__";
  JobLabel := "job"; BucketLabel := "le"; QuantileLabel := "quantile"; ScopeLabelPrefix := "otel_scope_";
  ExemplarTraceIDKey := "trace_id"; ExemplarSpanIDKey := "span_id"; MetricMetadataTypeKey := "prometheus.type";
  Labels_Hash ls := Z.of_nat (length ls);
  ParseFloat s := if decide (s = "1") then Ok (float64_of_int 1) else if decide (s = "2") then Ok (float64_of_int 2)
                  else if decide (s = "+Inf") then Ok (S754_infinity false) else Err "invalid syntax";
  ToLower := to_lower; TrimPromSuffixes name _ _ := name; UnitWordToUCUM u := u; type_text _ := "histogram";
  uint64_of_other _ := 0 |}.

Lemma native_buckets_agree_witness :
  let PM := any_prom in
  let spans := [{| Offset := 3; Length := 2 |}; {| Offset := 2; Length := 1 |}] in
  convertDeltaBuckets spans [4; -1; 3] = convertAbsoluteBuckets spans (float64_of_int <$> [4; 3; 6])
  ∧ convertDeltaBuckets spans [4; -1; 3] = Some [4; 3; 0; 0; 6].
Proof.
  intros PM spans. split; [|reflexivity]. apply (native_buckets_agree spans [4; -1; 3]). cbn. repeat constructor.
  all: intros H; by vm_compute in H.
Defined.
