(* ===== verification/PromHistogram.v ===== *)
(** * A scraped histogram becomes its point

    The lines of a classic histogram (its buckets, its count and its sum) come in any order;
    the family gathers them in one group, and the point of the group has the bounds in order,
    the differences of the cumulative counts, and the count they add up to. *)
From S2P Require Import Prelude GoText Pdata Sampling Pmetric Flatten Utils SpanHistogram FloatInt PromFamily PromFamilyProps.
From Stdlib Require Import SpecFloat.

(** ** Boundaries *)

Lemma SFcompare_antisym x y : SFcompare y x = option_map CompOpp (SFcompare x y).
Proof.
  destruct x as [[]|[]| |[] mx ex], y as [[]|[]| |[] my ey]; try done; cbn;
    rewrite (Z.compare_antisym ex ey); destruct (ex ?= ey)%Z; cbn; try done;
    change (Pos.compare_cont Eq) with Pos.compare; rewrite (Pos.compare_antisym mx my); by destruct (mx ?= my)%positive.
Qed.
Lemma boundary_ltb_asym a b : boundary_ltb a b = true → boundary_ltb b a = false.
Proof.
  unfold boundary_ltb, SFltb. rewrite (SFcompare_antisym a.2 b.2). by destruct (SFcompare a.2 b.2) as [[]|].
Qed.
Lemma below_inf_not_inf b : SFltb b (S754_infinity false) = true → plus_inf b = false.
Proof. by destruct b as [[]|[]| |[] ? ?]. Qed.

(** ** Names *)

Lemma has_suffix_app s a b : (length (bytes b) ≤ length (bytes a))%nat → has_suffix (s +:+ a) b = has_suffix a b.
Proof.
  intros H. unfold has_suffix. rewrite bytes_app, length_app, drop_app_ge by lia.
  by replace (length (bytes s) + length (bytes a) - length (bytes b) - length (bytes s))%nat
    with (length (bytes a) - length (bytes b))%nat by lia.
Qed.
Lemma string_app_inj s a b : s +:+ a = s +:+ b → a = b.
Proof.
  intros H%(f_equal bytes). rewrite !bytes_app in H. apply app_inv_head in H.
  by rewrite <-(of_bytes_bytes a), H, of_bytes_bytes.
Qed.

(** ** The lines of a series *)

Inductive line :=
| CountLine (ls : Labels) (n : Z)
| SumLine (ls : Labels) (x : float64)
| BucketLine (ls : Labels) (boundary : float64) (c : Z).

Section scraped.
Context `{PM : Prometheus}.

Definition render (fam : string) (l : line) : string * Labels * sample :=
  match l with
  | CountLine ls n => (fam +:+ metricsSuffixCount, ls, Sample (float64_of_int n))
  | SumLine ls x => (fam +:+ metricsSuffixSum, ls, Sample x)
  | BucketLine ls _ c => (fam +:+ metricsSuffixBucket, ls, Sample (float64_of_int c))
  end.
(** The [le] label of a bucket's line is its boundary. *)
Definition well_labelled (l : line) : Prop :=
  match l with BucketLine ls boundary _ => getBoundary MetricTypeHistogram ls = Ok boundary | _ => True end.

(** The samples of a scrape, one after the other; the first error ends it. *)
Fixpoint add_lines (mf : metricFamily) (ref t : Z) (fam : string) (lines : list line) : result string metricFamily :=
  match lines with
  | [] => Ok mf
  | l :: rest =>
      let '(name, ls, v) := render fam l in
      match addSeries mf ref name ls t v with
      | (mf, None) => add_lines mf ref t fam rest
      | (_, Some err) => Err err
      end
  end.

Definition apply_line (mg : metricGroup) (l : line) : metricGroup :=
  match l with
  | CountLine _ n => with_count mg (Sample (float64_of_int n))
  | SumLine _ x => with_sum mg (Sample x)
  | BucketLine _ boundary c => with_bucket mg (Sample (float64_of_int c)) boundary
  end.
Definition count_of (l : line) : option Z := match l with CountLine _ n => Some n | _ => None end.
Definition sum_line (l : line) : option float64 := match l with SumLine _ x => Some x | _ => None end.
Definition bucket_of (l : line) : option (sample * float64) :=
  match l with BucketLine _ boundary c => Some (Sample (float64_of_int c), boundary) | _ => None end.

Lemma add_line mf mg fam l :
  mf_mtype mf = MetricTypeHistogram → MetricFamily (mf_metadata mf) = fam → well_labelled l →
  add_to_group mf mg (render fam l).1.1 (render fam l).1.2 (render fam l).2 = Ok (apply_line mg l).
Proof.
  intros Hm Hf Hl. unfold add_to_group. rewrite Hm, Hf.
  destruct l as [ls n|ls x|ls b c]; cbn [render fst snd]; rewrite !has_suffix_app by (cbn; lia); try done.
  assert (metricsSuffixBucket ≠ metricSuffixCreated) as Hne by done.
  rewrite bool_decide_eq_false_2 by (by intros ?%string_app_inj).
  unfold well_labelled in Hl. change (has_suffix metricsSuffixBucket metricsSuffixSum) with false.
  change (has_suffix metricsSuffixBucket metricsSuffixCount) with false. by rewrite Hl.
Qed.

(** The group of the series takes the lines one by one. *)
Lemma add_lines_group mf ref t fam lines mg :
  mf_mtype mf = MetricTypeHistogram → MetricFamily (mf_metadata mf) = fam → Forall well_labelled lines →
  mf_groups mf !! ref = Some mg → mg_ts mg = t →
  add_lines mf ref t fam lines = Ok (set_group mf ref (foldl apply_line mg lines)).
Proof.
  revert mf mg. induction lines as [|l lines IH]; intros mf mg Hm Hf Hw Hg Ht.
  { cbn. destruct mf as [? ? ? ? groups ?]. unfold set_group. cbn in *. by rewrite Hg, insert_id. }
  inversion Hw as [|? ? Hl Hw']; subst. cbn [add_lines]. pose proof (add_line mf mg _ l Hm eq_refl Hl) as Hadd.
  destruct (render (MetricFamily (mf_metadata mf)) l) as [[name ls] v]. cbn in Hadd.
  unfold addSeries, loadMetricGroupOrCreate. rewrite Hg, decide_True, Hadd by done.
  rewrite (IH _ (apply_line mg l)); [|done|done|done|by cbn; rewrite lookup_insert_eq|by destruct l].
  cbn [foldl]. unfold set_group. cbn. by rewrite Hg, lookup_insert_eq, insert_insert_eq.
Qed.
Lemma add_lines_fresh mf ref t fam l lines :
  mf_mtype mf = MetricTypeHistogram → MetricFamily (mf_metadata mf) = fam → Forall well_labelled (l :: lines) →
  mf_groups mf !! ref = None →
  ∃ ls, add_lines mf ref t fam (l :: lines)
        = Ok (set_group (set_group mf ref (new_group MetricTypeHistogram ls t)) ref
                (foldl apply_line (new_group MetricTypeHistogram ls t) (l :: lines))).
Proof.
  intros Hm Hf Hw Hg. exists (render fam l).1.2. set (mg := new_group MetricTypeHistogram _ t).
  rewrite <-(add_lines_group _ ref t fam _ mg); [|done|done|done|by cbn; rewrite lookup_insert_eq|done].
  cbn [add_lines]. unfold mg. destruct (render fam l) as [[name ls] v]. unfold addSeries, loadMetricGroupOrCreate.
  cbn [set_group mf_groups fst snd]. by rewrite Hg, Hm, lookup_insert_eq.
Qed.

Lemma fold_lines mg lines :
  let mg' := foldl apply_line mg lines in
  mg_complexValue mg' = mg_complexValue mg ++ omap bucket_of lines
  ∧ mg_count mg' = default (mg_count mg) ((λ n, Sample (float64_of_int n)) <$> last (omap count_of lines))
  ∧ mg_hasCount mg' = mg_hasCount mg || bool_decide (omap count_of lines ≠ [])
  ∧ mg_sum mg' = default (mg_sum mg) (Sample <$> last (omap sum_line lines))
  ∧ mg_hasSum mg' = mg_hasSum mg || bool_decide (omap sum_line lines ≠ [])
  ∧ mg_isNHCB mg' = mg_isNHCB mg.
Proof.
  cbv zeta. induction lines as [|l lines IH] using rev_ind; [cbn; by rewrite app_nil_r, !orb_false_r|].
  rewrite foldl_snoc, !omap_app. destruct IH as (H1 & H2 & H3 & H4 & H5 & H6).
  destruct l as [ls n|ls x|ls b c]; cbn [apply_line omap list_omap count_of sum_line bucket_of];
    rewrite ?app_nil_r, ?last_snoc; cbn; rewrite ?H1, ?H2, ?H3, ?H4, ?H5, ?H6; split_and!; try done.
  - by rewrite bool_decide_eq_true_2, orb_true_r by (by destruct (omap count_of lines)).
  - by rewrite bool_decide_eq_true_2, orb_true_r by (by destruct (omap sum_line lines)).
  - by rewrite <-app_assoc.
Qed.

(** ** The point *)

Definition bucket_line (b : Labels * float64 * Z) : line := BucketLine b.1.1 b.1.2 b.2.
(** The bucket without an upper bound, where there is one. *)
Definition inf_lines (inf : option (Labels * Z)) : list line :=
  match inf with Some (ls, c) => [BucketLine ls (S754_infinity false) c] | None => [] end.
Definition counts_of (bc : list (Labels * float64 * Z)) : list Z := bc.*2.
Definition bounds_of (bc : list (Labels * float64 * Z)) : list float64 := bc.*1.*2.
(** The count of each bucket: what it has beyond the one before it, and the rest. *)
Definition bucket_values (n : Z) (counts : list Z) : list Z := differences 0 counts ++ [n - default 0 (last counts)].

Lemma bucket_lines_points bc inf :
  omap bucket_of ((bucket_line <$> bc) ++ inf_lines inf)
  = ((λ b, (Sample (float64_of_int b.2), b.1)) <$> ((λ b, (b.1.2, b.2)) <$> bc)) ++ omap bucket_of (inf_lines inf).
Proof.
  rewrite omap_app. f_equal. induction bc as [|[[ls b] c] bc IH]; [done|]. rewrite !fmap_cons. cbn. by f_equal.
Qed.

Lemma no_other_lines {B} (f : line → option B) bc inf :
  (∀ ls b c, f (BucketLine ls b c) = None) → omap f ((bucket_line <$> bc) ++ inf_lines inf) = [].
Proof.
  intros Hf. rewrite omap_app. assert (omap f (bucket_line <$> bc) = []) as ->.
  { induction bc as [|[[ls b] c] bc IH]; [done|]. rewrite fmap_cons. unfold bucket_line at 1. cbn. by rewrite Hf. }
  destruct inf as [[ls c]|]; [|done]. cbn. by rewrite Hf.
Qed.

Lemma boundaries_sorted bc inf :
  StronglySorted (λ a b, SFltb a b = true) (bounds_of bc) → Forall (λ b, SFltb b (S754_infinity false) = true) (bounds_of bc) →
  StronglySorted (λ a b, boundary_ltb a b = true) (omap bucket_of ((bucket_line <$> bc) ++ inf_lines inf)).
Proof.
  intros Hs Hinf. rewrite bucket_lines_points. unfold bounds_of in *.
  induction bc as [|[[ls b] c] bc IH]; [destruct inf as [[? ?]|]; cbn; repeat constructor|].
  rewrite !fmap_cons in *. cbn in Hs, Hinf. inversion Hs as [|? ? Hs' Hb]; subst. inversion Hinf; subst.
  cbn [app]. constructor; [by apply IH|]. apply Forall_app. split.
  - rewrite !Forall_fmap in *. eapply Forall_impl; [exact Hb|]. by intros [[? ?] ?].
  - destruct inf as [[? ?]|]; [|constructor]. by repeat constructor.
Qed.

(** The buckets of a group that has the lines. *)
Lemma classic_buckets_scraped mg n bc inf :
  mg_complexValue mg ≡ₚ omap bucket_of ((bucket_line <$> bc) ++ inf_lines inf) →
  mg_count mg = Sample (float64_of_int n) → is_stale mg = false →
  StronglySorted (λ a b, SFltb a b = true) (bounds_of bc) → Forall (λ b, SFltb b (S754_infinity false) = true) (bounds_of bc) →
  cumulative 0 (counts_of bc) n → n < 2 ^ 53 →
  classic_buckets mg = (bounds_of bc, bucket_values n (counts_of bc)).
Proof.
  intros Hp Hn Hstale Hs Hinf Hc Hn53. unfold classic_buckets, sortPoints. rewrite Hstale, Hn. cbn [to_float].
  rewrite (sort_slice_unique _ boundary_ltb_asym _ _ (boundaries_sorted bc inf Hs Hinf) Hp), bucket_lines_points.
  set (pts := (λ b, (b.1.2, b.2)) <$> bc). set (g := λ b : float64 * Z, (Sample (float64_of_int b.2), b.1)).
  assert (finite_buckets ((g <$> pts) ++ omap bucket_of (inf_lines inf)) = g <$> pts) as ->.
  { destruct inf as [[ls c]|]; cbn [inf_lines omap list_omap bucket_of].
    - unfold finite_buckets. rewrite last_snoc. cbn. rewrite length_app. cbn. rewrite Nat.add_sub. by rewrite take_app_length.
    - rewrite app_nil_r. unfold finite_buckets. rewrite fmap_last. destruct (last pts) as [[b c]|] eqn:E; [|done]. cbn.
      rewrite below_inf_not_inf; [done|]. apply last_Some in E as [k E]. rewrite Forall_forall in Hinf. apply Hinf.
      assert (bounds_of bc = pts.*1) as -> by (unfold bounds_of, pts; by rewrite <-!list_fmap_compose).
      rewrite E, fmap_app. set_solver. }
  assert (pts.*2 = counts_of bc) as Hcounts by (unfold counts_of, pts; by rewrite <-!list_fmap_compose).
  unfold bucket_values. f_equal.
  - unfold bounds_of, pts. by rewrite <-!list_fmap_compose.
  - rewrite <-Hcounts in *. by rewrite (bucket_counts_first pts n), (last_bucket_difference pts n).
Qed.

Lemma bucket_values_sum n counts :
  cumulative 0 counts n → foldr Z.add 0 (bucket_values n counts) = n ∧ Forall (λ d, 0 ≤ d) (bucket_values n counts).
Proof. intros Hc. destruct (differences_sum _ _ _ Hc) as [H1 H2]. unfold bucket_values. split; [lia|done]. Qed.

(** The group after all lines, in whatever order they came. *)
Lemma group_scraped ls t lines lc n lsum x bc inf :
  lines ≡ₚ CountLine lc n :: SumLine lsum x :: (bucket_line <$> bc) ++ inf_lines inf →
  let mg := foldl apply_line (new_group MetricTypeHistogram ls t) lines in
  mg_complexValue mg ≡ₚ omap bucket_of ((bucket_line <$> bc) ++ inf_lines inf)
  ∧ mg_count mg = Sample (float64_of_int n) ∧ mg_hasCount mg = true ∧ mg_sum mg = Sample x ∧ mg_hasSum mg = true ∧ mg_isNHCB mg = false.
Proof.
  intros Hp mg. destruct (fold_lines (new_group MetricTypeHistogram ls t) lines) as (H1 & H2 & H3 & H4 & H5 & H6).
  assert (omap count_of lines = [n]) as Hn.
  { apply Permutation_singleton_r. rewrite Hp. cbn. by rewrite no_other_lines. }
  assert (omap sum_line lines = [x]) as Hx.
  { apply Permutation_singleton_r. rewrite Hp. cbn. by rewrite no_other_lines. }
  rewrite Hn in H2, H3. rewrite Hx in H4, H5. split_and!; try done. fold mg in H1. rewrite H1. cbn. by rewrite Hp.
Qed.

(** C32. The lines of a histogram, in any order, become one point: the bounds in order, in each
    bucket the difference of the cumulative counts, and a count that is the sum of the buckets. *)
Theorem histogram_scraped mf ref t fam lines lc n lsum x bc inf trimSuffixes :
  mf_mtype mf = MetricTypeHistogram → MetricFamily (mf_metadata mf) = fam → mf_groups mf = ∅ → mf_groupOrders mf = [] →
  lines ≡ₚ CountLine lc n :: SumLine lsum x :: (bucket_line <$> bc) ++ inf_lines inf → Forall well_labelled lines →
  StronglySorted (λ a b, SFltb a b = true) (bounds_of bc) → Forall (λ b, SFltb b (S754_infinity false) = true) (bounds_of bc) →
  cumulative 0 (counts_of bc) n → n < 2 ^ 53 →
  ∃ mf' m p,
    add_lines mf ref t fam lines = Ok mf' ∧ appendMetric mf' trimSuffixes = Some (Some m) ∧ pm_points m = [p]
    ∧ pt_Timestamp p = timestampFromMs t ∧ pt_NoRecordedValue p = false
    ∧ pt_Data p = HistogramPoint (Some n) (Some x) (bounds_of bc) (bucket_values n (counts_of bc))
    ∧ foldr Z.add 0 (bucket_values n (counts_of bc)) = n ∧ Forall (λ d, 0 ≤ d) (bucket_values n (counts_of bc)).
Proof.
  intros Hm Hf Hg Ho Hp Hw Hs Hinf Hc Hn. pose proof (cumulative_total _ _ _ Hc) as Hn0.
  destruct lines as [|l lines]; [by apply Permutation_nil_l in Hp|].
  destruct (add_lines_fresh mf ref t fam l lines Hm Hf Hw) as [ls Hadd]; [by rewrite Hg|].
  destruct (group_scraped ls t (l :: lines) lc n lsum x bc inf Hp) as (Gv & Gc & Gh & Gs & Ghs & Gn).
  set (mg := foldl apply_line _ (l :: lines)) in *.
  assert (is_stale mg = false) as Hstale by (unfold is_stale; by rewrite Gs, Gc).
  pose proof (classic_buckets_scraped mg n bc inf Gv Gc Hstale Hs Hinf Hc Hn) as Hbuckets.
  assert (mg_ts mg = t) as Hts.
  { subst mg. generalize (l :: lines). intros k. clear. assert (mg_ts (new_group MetricTypeHistogram ls t) = t) as H by done.
    revert H. generalize (new_group MetricTypeHistogram ls t). induction k as [|l k IH]; [done|]. intros mg H. apply IH. by destruct l. }
  clearbody mg.
  assert (∃ p, toDistributionPoint mg = Some p ∧ pt_Timestamp p = timestampFromMs t ∧ pt_NoRecordedValue p = false
    ∧ pt_Data p = HistogramPoint (Some n) (Some x) (bounds_of bc) (bucket_values n (counts_of bc))) as (p & Hpoint & P1 & P2 & P3).
  { unfold toDistributionPoint, distribution_buckets, sum_of. rewrite Gh, Gn, Hbuckets, Hstale, Ghs, Gs, Gc. cbn.
    rewrite uint64_of_int by lia. eexists. split; [done|]. cbn [pt_Timestamp]. by rewrite Hts. }
  eexists _, _, p. split; [exact Hadd|]. unfold appendMetric, family_groups, group_points. cbn [set_group mf_groupOrders mf_groups mf_mtype].
  rewrite Hg, Ho, lookup_empty, lookup_insert_eq. cbn [app omap list_omap]. rewrite lookup_insert_eq, Hm. cbn. rewrite Hpoint. cbn.
  split_and!; try done; by apply bucket_values_sum.
Qed.
End scraped.

(** ** An instance *)

#[local] Existing Instance any_prom.

Definition latency : metricFamily :=
  newMetricFamily "latency_bucket"
    (λ name, if decide (name = "latency")
             then Some {| MetricFamily := "latency"; md_Type := TypeHistogram; md_Help := ""; md_Unit := "" |} else None) false false.
Definition latency_lines : list line :=
  [SumLine [] (float64_of_int 9); BucketLine [("le", "+Inf")] (S754_infinity false) 7; BucketLine [("le", "2")] (float64_of_int 2) 5;
   CountLine [] 7; BucketLine [("le", "1")] (float64_of_int 1) 3].

Lemma histogram_scraped_witness :
  ∃ mf' m p,
    add_lines latency 1 1000 "latency" latency_lines = Ok mf' ∧ appendMetric mf' false = Some (Some m) ∧ pm_points m = [p]
    ∧ pt_Timestamp p = 1000000000 ∧ pt_NoRecordedValue p = false
    ∧ pt_Data p = HistogramPoint (Some 7) (Some (float64_of_int 9)) [float64_of_int 1; float64_of_int 2] [3; 2; 2].
Proof.
  destruct (histogram_scraped latency 1 1000 "latency" latency_lines [] 7 [] (float64_of_int 9)
    [([("le", "1")], float64_of_int 1, 3); ([("le", "2")], float64_of_int 2, 5)] (Some ([("le", "+Inf")], 7)) false)
    as (mf' & m & p & H1 & H2 & H3 & H4 & H5 & H6 & _); try reflexivity.
  - cbn. unfold latency_lines, bucket_line. cbn. solve_Permutation.
  - repeat constructor.
  - repeat constructor.
  - repeat constructor.
  - cbn. lia.
  - exists mf', m, p. rewrite H4, H6. repeat (split; [first [exact H1 | exact H2 | exact H3 | exact H5 | reflexivity]|]). reflexivity.
Defined.
