(* ===== verification/ScrapeConfig.v ===== *)
(** * Configuration of scrapes

    src/receiver/prometheusreceiver/internal/scrapeconfig/config.go: defaults, validation and
    the scrape configurations of a file and of the files it names. What YAML decodes to, the
    file system and the checks of Prometheus packages are an interface. *)
From S2P Require Import Prelude GoText Sampling.

Inductive ValidationScheme := UnsetValidation | LegacyValidation | UTF8Validation | OtherValidation (n : Z).
#[export] Instance ValidationScheme_eq_dec : EqDecision ValidationScheme.
Proof. solve_decision. Defined.
Inductive EscapingScheme := NoEscaping | UnderscoreEscaping | DotsEscaping | ValueEncodingEscaping.
#[export] Instance EscapingScheme_eq_dec : EqDecision EscapingScheme.
Proof. solve_decision. Defined.

Class ScrapeLibrary := {
  (** model and config of prometheus/common *)
  AllowUTF8 : string; EscapeUnderscores : string; EscapeDots : string; EscapeValues : string;
  model_ToEscapingScheme : string → result string EscapingScheme;
  IsValidLabelName : ValidationScheme → string → bool; LabelValue_IsValid : string → bool;
  AddressLabel : string; JoinDir : string → string → string;
  HTTPClientConfig : Type; DefaultHTTPClientConfig : HTTPClientConfig;
  HTTP_Validate : HTTPClientConfig → option string; HTTP_SetDirectory : string → HTTPClientConfig → HTTPClientConfig;
  (** model/relabel, service discovery *)
  relabel_config : Type; relabel_Validate : relabel_config → ValidationScheme → option string;
  OtherDiscovery : Type; Discovery_SetDirectory : string → OtherDiscovery → OtherDiscovery;
  (** mime, strings, path/filepath, fmt's [%q] and the check of a pattern *)
  ParseMediaType : string → result string string; lower : string → string; Quote : string → string;
  scrapeConfigFilePattern : string → bool; Abs : string → result string string; Dir : string → string;
  scheme_text : ValidationScheme → string }.

(** [targetgroup.Group]: targets with labels in common. *)
Record target_group := { tg_Source : string; tg_Targets : list (gmap string string); tg_Labels : gmap string string }.
#[export] Instance target_group_eq_dec : EqDecision target_group.
Proof. solve_decision. Defined.

Section config.
Context `{SL : ScrapeLibrary}.

Definition minute : Z := 60 * 1000000000.

(** ** Protocols *)

Definition ScrapeProtocol := string.
Definition PrometheusProto : ScrapeProtocol := "PrometheusProto".
Definition PrometheusText0_0_4 : ScrapeProtocol := "PrometheusText0.0.4".
Definition PrometheusText1_0_0 : ScrapeProtocol := "PrometheusText1.0.0".
Definition OpenMetricsText0_0_1 : ScrapeProtocol := "OpenMetricsText0.0.1".
Definition OpenMetricsText1_0_0 : ScrapeProtocol := "OpenMetricsText1.0.0".
Definition ScrapeProtocolsHeaders : gmap string string := list_to_map
  [(PrometheusProto, "application/vnd.google.protobuf;proto=io.prometheus.client.MetricFamily;encoding=delimited");
   (PrometheusText0_0_4, "text/plain;version=0.0.4"); (PrometheusText1_0_0, "text/plain;version=1.0.0");
   (OpenMetricsText0_0_1, "application/openmetrics-text;version=0.0.1");
   (OpenMetricsText1_0_0, "application/openmetrics-text;version=1.0.0")].
Definition DefaultScrapeProtocols : list ScrapeProtocol :=
  [OpenMetricsText1_0_0; OpenMetricsText0_0_1; PrometheusText1_0_0; PrometheusText0_0_4].
Definition DefaultProtoFirstScrapeProtocols : list ScrapeProtocol :=
  [PrometheusProto; OpenMetricsText1_0_0; OpenMetricsText0_0_1; PrometheusText1_0_0; PrometheusText0_0_4].

(** A list with [%v]. *)
Definition list_text (l : list string) : string := "[" +:+ join " " l +:+ "]".
Definition Protocol_Validate (protocol : ScrapeProtocol) : option string :=
  match ScrapeProtocolsHeaders !! protocol with
  | Some _ => None
  | None =>
      let supported := sort_slice Strings.String.ltb (map_to_list ScrapeProtocolsHeaders).*1 in
      Some ("unknown scrape protocol " +:+ protocol +:+ ", supported: " +:+ list_text supported)
  end.
Definition HeaderMediaType (protocol : ScrapeProtocol) : string :=
  match ScrapeProtocolsHeaders !! protocol with
  | None => ""
  | Some header => match ParseMediaType header with Ok mediaType => mediaType | Err _ => "" end
  end.
Definition ToEscapingScheme (scheme : string) (validationScheme : ValidationScheme) : outcome (result string EscapingScheme) :=
  if decide (scheme = "") then
    match validationScheme with
    | UTF8Validation => Done (Ok NoEscaping)
    | LegacyValidation => Done (Ok UnderscoreEscaping)
    | UnsetValidation => Done (Err ("ValidationScheme is unset: " +:+ scheme_text validationScheme))
    | OtherValidation _ => Panics
    end
  else Done (model_ToEscapingScheme scheme).
Definition CheckTargetAddress (address : string) : option string :=
  if contains_byte "/" address then Some (Quote address +:+ " is not a valid hostname") else None.

Fixpoint protocols_loop (all : list ScrapeProtocol) (seen : gset string) (protocols : list ScrapeProtocol) : option string :=
  match protocols with
  | [] => None
  | protocol :: rest =>
      let key := lower protocol in
      if bool_decide (key ∈ seen) then Some ("duplicated protocol in scrape_protocols, got " +:+ list_text all)
      else match Protocol_Validate protocol with
           | Some err => Some ("scrape_protocols: " +:+ err)
           | None => protocols_loop all ({[key]} ∪ seen) rest
           end
  end.
Definition validateScrapeProtocols (protocols : list ScrapeProtocol) : option string :=
  match protocols with
  | [] => Some "scrape_protocols cannot be empty"
  | _ => protocols_loop protocols ∅ protocols
  end.

(** ** The configuration *)

(** A nil slice or pointer is [None]. *)
Record GlobalConfig := {
  g_ScrapeInterval : Z; g_ScrapeTimeout : Z; g_ScrapeProtocols : option (list ScrapeProtocol); g_ScrapeFailureLogFile : string;
  g_ExternalLabels : list (string * string); g_BodySizeLimit : Z; g_SampleLimit : Z; g_TargetLimit : Z; g_LabelLimit : Z;
  g_LabelNameLengthLimit : Z; g_LabelValueLengthLimit : Z; g_KeepDroppedTargets : Z;
  g_MetricNameValidationScheme : ValidationScheme; g_MetricNameEscapingScheme : string; g_ScrapeNativeHistograms : option bool;
  g_ConvertClassicHistogramsToNHCB : bool; g_AlwaysScrapeClassicHistograms : bool; g_ExtraScrapeMetrics : option bool }.
Definition DefaultGlobalConfig : GlobalConfig :=
  {| g_ScrapeInterval := minute; g_ScrapeTimeout := 10 * 1000000000; g_ScrapeProtocols := None; g_ScrapeFailureLogFile := "";
     g_ExternalLabels := []; g_BodySizeLimit := 0; g_SampleLimit := 0; g_TargetLimit := 0; g_LabelLimit := 0;
     g_LabelNameLengthLimit := 0; g_LabelValueLengthLimit := 0; g_KeepDroppedTargets := 0;
     g_MetricNameValidationScheme := UTF8Validation; g_MetricNameEscapingScheme := AllowUTF8; g_ScrapeNativeHistograms := Some false;
     g_ConvertClassicHistogramsToNHCB := false; g_AlwaysScrapeClassicHistograms := false; g_ExtraScrapeMetrics := Some false |}.

(** A target of a static group is its labels. *)
Inductive Discovery := StaticConfig (groups : list target_group) | DiscoveryConfig (c : OtherDiscovery).

Record ScrapeConfig := {
  JobName : string; HonorLabels : bool; HonorTimestamps : bool; TrackTimestampsStaleness : bool; Params : gmap string (list string);
  ScrapeInterval : Z; ScrapeTimeout : Z; ScrapeProtocols : option (list ScrapeProtocol); ScrapeFallbackProtocol : ScrapeProtocol;
  ScrapeNativeHistograms : option bool; AlwaysScrapeClassicHistograms : option bool; ConvertClassicHistogramsToNHCB : option bool;
  ScrapeFailureLogFile : string; MetricsPath : string; Scheme : string; EnableCompression : bool; BodySizeLimit : Z; SampleLimit : Z;
  TargetLimit : Z; LabelLimit : Z; LabelNameLengthLimit : Z; LabelValueLengthLimit : Z; NativeHistogramBucketLimit : Z;
  NativeHistogramMinBucketFactor : float64; KeepDroppedTargets : Z; MetricNameValidationScheme : ValidationScheme;
  MetricNameEscapingScheme : string; ExtraScrapeMetrics : option bool; ServiceDiscoveryConfigs : list Discovery;
  sc_HTTPClientConfig : HTTPClientConfig; RelabelConfigs : list (option relabel_config);
  MetricRelabelConfigs : list (option relabel_config) }.
Definition DefaultScrapeConfig : ScrapeConfig :=
  {| JobName := ""; HonorLabels := false; HonorTimestamps := true; TrackTimestampsStaleness := false; Params := ∅;
     ScrapeInterval := 0; ScrapeTimeout := 0; ScrapeProtocols := None; ScrapeFallbackProtocol := "";
     ScrapeNativeHistograms := None; AlwaysScrapeClassicHistograms := None; ConvertClassicHistogramsToNHCB := None;
     ScrapeFailureLogFile := ""; MetricsPath := "/metrics"; Scheme := "http"; EnableCompression := true; BodySizeLimit := 0;
     SampleLimit := 0; TargetLimit := 0; LabelLimit := 0; LabelNameLengthLimit := 0; LabelValueLengthLimit := 0;
     NativeHistogramBucketLimit := 0; NativeHistogramMinBucketFactor := SpecFloat.S754_zero false; KeepDroppedTargets := 0;
     MetricNameValidationScheme := UnsetValidation; MetricNameEscapingScheme := ""; ExtraScrapeMetrics := None;
     ServiceDiscoveryConfigs := []; sc_HTTPClientConfig := DefaultHTTPClientConfig; RelabelConfigs := []; MetricRelabelConfigs := [] |}.

Definition enabled (b : option bool) : bool := match b with Some b => b | None => false end.
Definition ScrapeNativeHistogramsEnabled (c : ScrapeConfig) : bool := enabled (ScrapeNativeHistograms c).
Definition ConvertClassicHistogramsToNHCBEnabled (c : ScrapeConfig) : bool := enabled (ConvertClassicHistogramsToNHCB c).
Definition AlwaysScrapeClassicHistogramsEnabled (c : ScrapeConfig) : bool := enabled (AlwaysScrapeClassicHistograms c).
Definition ExtraScrapeMetricsEnabled (c : ScrapeConfig) : bool := enabled (ExtraScrapeMetrics c).

(** ** The global part *)

Fixpoint validate_labels (scheme : ValidationScheme) (ls : list (string * string)) : option string :=
  match ls with
  | [] => None
  | (name, value) :: rest =>
      if negb (IsValidLabelName scheme name) then Some (Quote name +:+ " is not a valid label name")
      else if negb (LabelValue_IsValid value) then Some (Quote value +:+ " is not a valid label value")
      else validate_labels scheme rest
  end.
Definition or_default {A} (o d : option A) : option A := match o with None => d | _ => o end.
(** On what the fields decode to. *)
Definition Global_UnmarshalYAML (decoded : result string GlobalConfig) : result string GlobalConfig :=
  config ← decoded;
  let scheme := match g_MetricNameValidationScheme config with
                | (UTF8Validation | LegacyValidation) as s => s
                | _ => g_MetricNameValidationScheme DefaultGlobalConfig
                end in
  match validate_labels scheme (g_ExternalLabels config) with
  | Some err => Err err
  | None =>
      let interval := if g_ScrapeInterval config =? 0 then g_ScrapeInterval DefaultGlobalConfig else g_ScrapeInterval config in
      if interval <? g_ScrapeTimeout config then Err "global scrape timeout greater than scrape interval"
      else
        let timeout := if g_ScrapeTimeout config =? 0 then Z.min (g_ScrapeTimeout DefaultGlobalConfig) interval else g_ScrapeTimeout config in
        match (match g_ScrapeProtocols config with Some protocols => validateScrapeProtocols protocols | None => None end) with
        | Some err => Err (err +:+ " for global config")
        | None =>
            Ok {| g_ScrapeInterval := interval; g_ScrapeTimeout := timeout; g_ScrapeProtocols := g_ScrapeProtocols config;
                  g_ScrapeFailureLogFile := g_ScrapeFailureLogFile config; g_ExternalLabels := g_ExternalLabels config;
                  g_BodySizeLimit := g_BodySizeLimit config; g_SampleLimit := g_SampleLimit config; g_TargetLimit := g_TargetLimit config;
                  g_LabelLimit := g_LabelLimit config; g_LabelNameLengthLimit := g_LabelNameLengthLimit config;
                  g_LabelValueLengthLimit := g_LabelValueLengthLimit config; g_KeepDroppedTargets := g_KeepDroppedTargets config;
                  g_MetricNameValidationScheme := scheme; g_MetricNameEscapingScheme := g_MetricNameEscapingScheme config;
                  g_ScrapeNativeHistograms := or_default (g_ScrapeNativeHistograms config) (g_ScrapeNativeHistograms DefaultGlobalConfig);
                  g_ConvertClassicHistogramsToNHCB := g_ConvertClassicHistogramsToNHCB config;
                  g_AlwaysScrapeClassicHistograms := g_AlwaysScrapeClassicHistograms config;
                  g_ExtraScrapeMetrics := or_default (g_ExtraScrapeMetrics config) (g_ExtraScrapeMetrics DefaultGlobalConfig) |}
        end
  end.
Definition isZero (c : GlobalConfig) : bool :=
  (g_ScrapeInterval c =? 0) && (g_ScrapeTimeout c =? 0) && bool_decide (g_ScrapeProtocols c = None)
  && bool_decide (g_ScrapeFailureLogFile c = "") && bool_decide (g_ExternalLabels c = []) && (g_BodySizeLimit c =? 0)
  && (g_SampleLimit c =? 0) && (g_TargetLimit c =? 0) && (g_LabelLimit c =? 0) && (g_LabelNameLengthLimit c =? 0)
  && (g_LabelValueLengthLimit c =? 0) && (g_KeepDroppedTargets c =? 0)
  && bool_decide (g_MetricNameValidationScheme c = UnsetValidation) && bool_decide (g_MetricNameEscapingScheme c = "")
  && bool_decide (g_ScrapeNativeHistograms c = None) && negb (g_ConvertClassicHistogramsToNHCB c)
  && negb (g_AlwaysScrapeClassicHistograms c) && bool_decide (g_ExtraScrapeMetrics c = None).

(** ** One job *)

Definition static_targets (configs : list Discovery) : list (gmap string string) :=
  configs ≫= λ c, match c with StaticConfig groups => groups ≫= tg_Targets | DiscoveryConfig _ => [] end.
Definition checkStaticTargets (configs : list Discovery) : option string :=
  let address := λ target : gmap string string, default "" (target !! AddressLabel) in
  match list_find (λ target, contains_byte "/" (address target) = true) (static_targets configs) with
  | Some (_, target) => Some (Quote (address target) +:+ " is not a valid hostname")
  | None => None
  end.
(** On what the fields decode to, over the defaults. *)
Definition Scrape_UnmarshalYAML (decoded : result string ScrapeConfig) : result string ScrapeConfig :=
  c ← decoded;
  if decide (JobName c = "") then Err "job_name is empty"
  else match HTTP_Validate (sc_HTTPClientConfig c) with
  | Some err => Err err
  | None =>
      match (match RelabelConfigs c with [] => checkStaticTargets (ServiceDiscoveryConfigs c) | _ => None end) with
      | Some err => Err err
      | None =>
          if existsb (λ r, negb (bool_decide (is_Some r))) (RelabelConfigs c)
          then Err "empty or null target relabeling rule in scrape config"
          else if existsb (λ r, negb (bool_decide (is_Some r))) (MetricRelabelConfigs c)
          then Err "empty or null metric relabeling rule in scrape config"
          else Ok c
      end
  end.

Definition or_global (local global : Z) : Z := if local =? 0 then global else local.
Definition protocols_of (c : ScrapeConfig) (global : GlobalConfig) (native : option bool) : list ScrapeProtocol :=
  match ScrapeProtocols c with
  | Some protocols => protocols
  | None =>
      match g_ScrapeProtocols global with
      | Some protocols => protocols
      | None => if enabled native then DefaultProtoFirstScrapeProtocols else DefaultScrapeProtocols
      end
  end.
(** The scheme of names of a job and how the characters that are not allowed are escaped. *)
Definition validation_of (c : ScrapeConfig) (global : GlobalConfig) : result string ValidationScheme :=
  match g_MetricNameValidationScheme global with
  | LegacyValidation | UTF8Validation =>
      match MetricNameValidationScheme c with
      | UnsetValidation => Ok (g_MetricNameValidationScheme global)
      | LegacyValidation | UTF8Validation => Ok (MetricNameValidationScheme c)
      | other => Err ("unknown scrape config name validation method " +:+ Quote (scheme_text other))
      end
  | _ => Err "global name validation method must be set"
  end.
Definition escaping_for (scheme : ValidationScheme) : string :=
  match scheme with LegacyValidation => EscapeUnderscores | _ => AllowUTF8 end.
Definition escaping_of (c : ScrapeConfig) (global : GlobalConfig) (scheme : ValidationScheme) : string :=
  let globalEscaping := if decide (g_MetricNameEscapingScheme global = "") then escaping_for (g_MetricNameValidationScheme global)
                        else g_MetricNameEscapingScheme global in
  if decide (MetricNameEscapingScheme c = "") then
    if decide (MetricNameValidationScheme c = UnsetValidation) then globalEscaping else escaping_for scheme
  else MetricNameEscapingScheme c.
Definition check_escaping (escaping : string) (scheme : ValidationScheme) : option string :=
  if decide (escaping = AllowUTF8) then
    if decide (scheme = UTF8Validation) then None else Some "utf8 metric names requested but validation scheme is not set to UTF8"
  else if decide (escaping = EscapeUnderscores ∨ escaping = EscapeDots ∨ escaping = EscapeValues) then None
  else Some ("unknown scrape config name escaping method " +:+ Quote escaping).
(** The first error of a list of rules; a rule that is nil is a panic. *)
Fixpoint check_rules (scheme : ValidationScheme) (rules : list (option relabel_config)) : outcome (option string) :=
  match rules with
  | [] => Done None
  | None :: _ => Panics
  | Some r :: rest => match relabel_Validate r scheme with Some err => Done (Some err) | None => check_rules scheme rest end
  end.
Definition validated (c : ScrapeConfig) (global : GlobalConfig) (interval timeout : Z) (native : option bool)
    (scheme : ValidationScheme) (escaping : string) : ScrapeConfig :=
  {| JobName := JobName c; HonorLabels := HonorLabels c; HonorTimestamps := HonorTimestamps c;
     TrackTimestampsStaleness := TrackTimestampsStaleness c; Params := Params c; ScrapeInterval := interval; ScrapeTimeout := timeout;
     ScrapeProtocols := Some (protocols_of c global native); ScrapeFallbackProtocol := ScrapeFallbackProtocol c;
     ScrapeNativeHistograms := native;
     AlwaysScrapeClassicHistograms := or_default (AlwaysScrapeClassicHistograms c) (Some (g_AlwaysScrapeClassicHistograms global));
     ConvertClassicHistogramsToNHCB := or_default (ConvertClassicHistogramsToNHCB c) (Some (g_ConvertClassicHistogramsToNHCB global));
     ScrapeFailureLogFile := if decide (ScrapeFailureLogFile c = "") then g_ScrapeFailureLogFile global else ScrapeFailureLogFile c;
     MetricsPath := MetricsPath c; Scheme := Scheme c; EnableCompression := EnableCompression c;
     BodySizeLimit := or_global (BodySizeLimit c) (g_BodySizeLimit global); SampleLimit := or_global (SampleLimit c) (g_SampleLimit global);
     TargetLimit := or_global (TargetLimit c) (g_TargetLimit global); LabelLimit := or_global (LabelLimit c) (g_LabelLimit global);
     LabelNameLengthLimit := or_global (LabelNameLengthLimit c) (g_LabelNameLengthLimit global);
     LabelValueLengthLimit := or_global (LabelValueLengthLimit c) (g_LabelValueLengthLimit global);
     NativeHistogramBucketLimit := NativeHistogramBucketLimit c; NativeHistogramMinBucketFactor := NativeHistogramMinBucketFactor c;
     KeepDroppedTargets := or_global (KeepDroppedTargets c) (g_KeepDroppedTargets global); MetricNameValidationScheme := scheme;
     MetricNameEscapingScheme := escaping; ExtraScrapeMetrics := or_default (ExtraScrapeMetrics c) (g_ExtraScrapeMetrics global);
     ServiceDiscoveryConfigs := ServiceDiscoveryConfigs c; sc_HTTPClientConfig := sc_HTTPClientConfig c;
     RelabelConfigs := RelabelConfigs c; MetricRelabelConfigs := MetricRelabelConfigs c |}.
(** The errors up to the relabelling rules. *)
Definition validate_fields (global : GlobalConfig) (c : ScrapeConfig) : result string ScrapeConfig :=
  let interval := or_global (ScrapeInterval c) (g_ScrapeInterval global) in
  if interval <? ScrapeTimeout c
  then Err ("scrape timeout greater than scrape interval for scrape config with job name " +:+ Quote (JobName c))
  else
    let timeout := if ScrapeTimeout c =? 0 then Z.min (g_ScrapeTimeout global) interval else ScrapeTimeout c in
    let native := or_default (ScrapeNativeHistograms c) (g_ScrapeNativeHistograms global) in
    match validateScrapeProtocols (protocols_of c global native) with
    | Some err => Err (err +:+ " for scrape config with job name " +:+ Quote (JobName c))
    | None =>
        match (if decide (ScrapeFallbackProtocol c = "") then None else Protocol_Validate (ScrapeFallbackProtocol c)) with
        | Some err => Err ("invalid fallback_scrape_protocol for scrape config with job name " +:+ Quote (JobName c) +:+ ": " +:+ err)
        | None =>
            scheme ← validation_of c global;
            let escaping := escaping_of c global scheme in
            match check_escaping escaping scheme with
            | Some err => Err err
            | None => Ok (validated c global interval timeout native scheme escaping)
            end
        end
    end.
Definition Scrape_Validate (global : GlobalConfig) (c : option ScrapeConfig) : outcome (result string ScrapeConfig) :=
  match c with
  | None => Done (Err "empty or null scrape config section")
  | Some c =>
      match validate_fields global c with
      | Err err => Done (Err err)
      | Ok c =>
          err ← check_rules (MetricNameValidationScheme c) (RelabelConfigs c);
          match err with
          | Some err => Done (Err err)
          | None =>
              err ← check_rules (MetricNameValidationScheme c) (MetricRelabelConfigs c);
              match err with Some err => Done (Err err) | None => Done (Ok c) end
          end
      end
  end.

(** ** The whole configuration *)

Record Config := {
  cfg_GlobalConfig : GlobalConfig; cfg_ScrapeConfigFiles : list string; cfg_ScrapeConfigs : list (option ScrapeConfig); cfg_loaded : bool }.

Definition ContainsScrapeConfigs (c : option Config) : bool :=
  match c with
  | Some c => negb (bool_decide (cfg_ScrapeConfigs c = [])) || negb (bool_decide (cfg_ScrapeConfigFiles c = []))
  | None => false
  end.
Fixpoint validate_jobs (global : GlobalConfig) (jobNames : gset string) (configs : list (option ScrapeConfig)) :
    outcome (result string (list ScrapeConfig)) :=
  match configs with
  | [] => Done (Ok [])
  | c :: rest =>
      r ← Scrape_Validate global c;
      match r with
      | Err err => Done (Err err)
      | Ok c =>
          if bool_decide (JobName c ∈ jobNames) then Done (Err ("found multiple scrape configs with job name " +:+ Quote (JobName c)))
          else
            r ← validate_jobs global ({[JobName c]} ∪ jobNames) rest;
            match r with Err err => Done (Err err) | Ok rest => Done (Ok (c :: rest)) end
      end
  end.
Definition Config_Validate (c : Config) : outcome (result string Config) :=
  let global := if isZero (cfg_GlobalConfig c) then DefaultGlobalConfig else cfg_GlobalConfig c in
  match list_find (λ pattern, scrapeConfigFilePattern pattern = false) (cfg_ScrapeConfigFiles c) with
  | Some (_, pattern) => Done (Err ("invalid scrape config file path " +:+ Quote pattern))
  | None =>
      r ← validate_jobs global ∅ (cfg_ScrapeConfigs c);
      match r with
      | Err err => Done (Err err)
      | Ok configs => Done (Ok {| cfg_GlobalConfig := global; cfg_ScrapeConfigFiles := cfg_ScrapeConfigFiles c;
                                  cfg_ScrapeConfigs := Some <$> configs; cfg_loaded := cfg_loaded c |})
      end
  end.

Definition Discovery_dir (dir : string) (d : Discovery) : Discovery :=
  match d with DiscoveryConfig c => DiscoveryConfig (Discovery_SetDirectory dir c) | _ => d end.
Definition Scrape_SetDirectory (dir : string) (c : ScrapeConfig) : ScrapeConfig :=
  {| JobName := JobName c; HonorLabels := HonorLabels c; HonorTimestamps := HonorTimestamps c;
     TrackTimestampsStaleness := TrackTimestampsStaleness c; Params := Params c; ScrapeInterval := ScrapeInterval c;
     ScrapeTimeout := ScrapeTimeout c; ScrapeProtocols := ScrapeProtocols c; ScrapeFallbackProtocol := ScrapeFallbackProtocol c;
     ScrapeNativeHistograms := ScrapeNativeHistograms c; AlwaysScrapeClassicHistograms := AlwaysScrapeClassicHistograms c;
     ConvertClassicHistogramsToNHCB := ConvertClassicHistogramsToNHCB c; ScrapeFailureLogFile := JoinDir dir (ScrapeFailureLogFile c);
     MetricsPath := MetricsPath c; Scheme := Scheme c; EnableCompression := EnableCompression c; BodySizeLimit := BodySizeLimit c;
     SampleLimit := SampleLimit c; TargetLimit := TargetLimit c; LabelLimit := LabelLimit c;
     LabelNameLengthLimit := LabelNameLengthLimit c; LabelValueLengthLimit := LabelValueLengthLimit c;
     NativeHistogramBucketLimit := NativeHistogramBucketLimit c; NativeHistogramMinBucketFactor := NativeHistogramMinBucketFactor c;
     KeepDroppedTargets := KeepDroppedTargets c; MetricNameValidationScheme := MetricNameValidationScheme c;
     MetricNameEscapingScheme := MetricNameEscapingScheme c; ExtraScrapeMetrics := ExtraScrapeMetrics c;
     ServiceDiscoveryConfigs := Discovery_dir dir <$> ServiceDiscoveryConfigs c;
     sc_HTTPClientConfig := HTTP_SetDirectory dir (sc_HTTPClientConfig c); RelabelConfigs := RelabelConfigs c;
     MetricRelabelConfigs := MetricRelabelConfigs c |}.
Definition Global_SetDirectory (dir : string) (c : GlobalConfig) : GlobalConfig :=
  {| g_ScrapeInterval := g_ScrapeInterval c; g_ScrapeTimeout := g_ScrapeTimeout c; g_ScrapeProtocols := g_ScrapeProtocols c;
     g_ScrapeFailureLogFile := JoinDir dir (g_ScrapeFailureLogFile c); g_ExternalLabels := g_ExternalLabels c;
     g_BodySizeLimit := g_BodySizeLimit c; g_SampleLimit := g_SampleLimit c; g_TargetLimit := g_TargetLimit c; g_LabelLimit := g_LabelLimit c;
     g_LabelNameLengthLimit := g_LabelNameLengthLimit c; g_LabelValueLengthLimit := g_LabelValueLengthLimit c;
     g_KeepDroppedTargets := g_KeepDroppedTargets c; g_MetricNameValidationScheme := g_MetricNameValidationScheme c;
     g_MetricNameEscapingScheme := g_MetricNameEscapingScheme c; g_ScrapeNativeHistograms := g_ScrapeNativeHistograms c;
     g_ConvertClassicHistogramsToNHCB := g_ConvertClassicHistogramsToNHCB c;
     g_AlwaysScrapeClassicHistograms := g_AlwaysScrapeClassicHistograms c; g_ExtraScrapeMetrics := g_ExtraScrapeMetrics c |}.
Definition Config_SetDirectory (dir : string) (c : Config) : outcome Config :=
  match mapM id (cfg_ScrapeConfigs c) with
  | None => Panics
  | Some configs =>
      Done {| cfg_GlobalConfig := Global_SetDirectory dir (cfg_GlobalConfig c);
              cfg_ScrapeConfigFiles := JoinDir dir <$> cfg_ScrapeConfigFiles c;
              cfg_ScrapeConfigs := (λ c, Some (Scrape_SetDirectory dir c)) <$> configs; cfg_loaded := cfg_loaded c |}
  end.
Definition LoadScrapeConfig (decoded : result string Config) (baseDir : string) : outcome (result string Config) :=
  match decoded with
  | Err err => Done (Err err)
  | Ok cfg =>
      r ← Config_Validate cfg;
      match r with
      | Err err => Done (Err err)
      | Ok cfg =>
          cfg ← Config_SetDirectory baseDir cfg;
          Done (Ok {| cfg_GlobalConfig := cfg_GlobalConfig cfg; cfg_ScrapeConfigFiles := cfg_ScrapeConfigFiles cfg;
                      cfg_ScrapeConfigs := cfg_ScrapeConfigs cfg; cfg_loaded := true |})
      end
  end.
(** On what the fields decode to, over [DefaultConfig]. *)
Definition DefaultConfig : Config :=
  {| cfg_GlobalConfig := DefaultGlobalConfig; cfg_ScrapeConfigFiles := []; cfg_ScrapeConfigs := []; cfg_loaded := false |}.
Definition Config_UnmarshalYAML (decoded : result string Config) : outcome (result string Config) :=
  match decoded with Err err => Done (Err err) | Ok c => Config_Validate c end.

(** *** The files *)

Definition fileError (filename err : string) : string :=
  let filename := match Abs filename with Ok absolute => absolute | Err _ => filename end in Quote filename +:+ ": " +:+ err.
(** The jobs of one file, after those found before, with the file each name was found in. *)
Fixpoint file_jobs (global : GlobalConfig) (filename : string) (jobNames : gmap string string) (configs : list ScrapeConfig)
    (file : list (option ScrapeConfig)) : outcome (result string (gmap string string * list ScrapeConfig)) :=
  match file with
  | [] => Done (Ok (jobNames, configs))
  | c :: rest =>
      r ← Scrape_Validate global c;
      match r with
      | Err err => Done (Err (fileError filename err))
      | Ok c =>
          match jobNames !! JobName c with
          | Some first =>
              Done (Err (fileError filename ("found multiple scrape configs with job name " +:+ Quote (JobName c)
                                             +:+ ", first found in " +:+ first)))
          | None => file_jobs global filename (<[JobName c := filename]> jobNames) (configs ++ [Scrape_SetDirectory (Dir filename) c]) rest
          end
      end
  end.
Section files.
(** The matches of a pattern and the jobs that a file decodes to. *)
Context (Glob : string → result string (list string)) (ReadFile : string → result string (list (option ScrapeConfig))).

Fixpoint pattern_files (global : GlobalConfig) (files : list string) (acc : gmap string string * list ScrapeConfig) :
    outcome (result string (gmap string string * list ScrapeConfig)) :=
  match files with
  | [] => Done (Ok acc)
  | filename :: rest =>
      match ReadFile filename with
      | Err err => Done (Err (fileError filename err))
      | Ok file =>
          r ← file_jobs global filename acc.1 acc.2 file;
          match r with Err err => Done (Err err) | Ok acc => pattern_files global rest acc end
      end
  end.
Fixpoint patterns_loop (global : GlobalConfig) (patterns : list string) (acc : gmap string string * list ScrapeConfig) :
    outcome (result string (gmap string string * list ScrapeConfig)) :=
  match patterns with
  | [] => Done (Ok acc)
  | pattern :: rest =>
      match Glob pattern with
      | Err err => Done (Err ("error retrieving scrape config files for " +:+ Quote pattern +:+ ": " +:+ err))
      | Ok files =>
          r ← pattern_files global files acc;
          match r with Err err => Done (Err err) | Ok acc => patterns_loop global rest acc end
      end
  end.
Definition GetScrapeConfigs (c : Config) : outcome (result string (list ScrapeConfig)) :=
  if cfg_loaded c then
    match mapM id (cfg_ScrapeConfigs c) with
    | None => Panics
    | Some configs =>
        let jobNames := foldl (λ m c, <[JobName c := "main config"]> m) ∅ configs in
        r ← patterns_loop (cfg_GlobalConfig c) (cfg_ScrapeConfigFiles c) (jobNames, configs);
        match r with Err err => Done (Err err) | Ok acc => Done (Ok acc.2) end
    end
  else Done (Err "scrape config cannot be fetched, main config was not validated and loaded correctly").
End files.
End config.
