(* ===== verification/ScrapeConfigProps.v ===== *)
(** * What a loaded configuration of scrapes promises

    Every job that is scraped is valid, however it was configured: in the main file or in one
    of the files it names; no two have the same name. Validating again changes nothing. *)
From S2P Require Import Prelude GoText Sampling ScrapeConfig.

Section props.
Context `{SL : ScrapeLibrary}.

(** ** Protocols *)

Definition known (protocol : ScrapeProtocol) : Prop := is_Some (ScrapeProtocolsHeaders !! protocol).
Lemma Protocol_Validate_None protocol : Protocol_Validate protocol = None ↔ known protocol.
Proof. unfold Protocol_Validate, known. destruct (_ !! _) as [h|]; [by split; [exists h|]|]. by split; [|intros [? ?]]. Qed.

Lemma protocols_loop_None all seen protocols :
  protocols_loop all seen protocols = None
  ↔ NoDup (lower <$> protocols) ∧ Forall known protocols ∧ Forall (λ p, lower p ∉ seen) protocols.
Proof.
  revert seen. induction protocols as [|p protocols IH]; intros seen; [by repeat split; constructor|].
  cbn [protocols_loop]. rewrite fmap_cons, NoDup_cons, !Forall_cons. case_bool_decide as Hp; [by split; [|tauto]|].
  destruct (Protocol_Validate p) as [err|] eqn:E.
  { split; [done|]. intros (_ & [Hk%Protocol_Validate_None _] & _). congruence. }
  apply Protocol_Validate_None in E. rewrite IH.
  assert (Forall (λ q, lower q ∉ ({[lower p]} ∪ seen : gset string)) protocols
    ↔ lower p ∉ lower <$> protocols ∧ Forall (λ q, lower q ∉ seen) protocols) as ->; [|tauto].
  rewrite !Forall_forall, list_elem_of_fmap. split.
  - intros H. split; [intros (q & Hq & Hin)|intros q Hin]; specialize (H q Hin); set_solver.
  - intros [H1 H2] q Hin [Hq%elem_of_singleton|Hq]%elem_of_union; [apply H1; by exists q|by apply (H2 q)].
Qed.
Definition protocols_ok (protocols : list ScrapeProtocol) : Prop :=
  protocols ≠ [] ∧ NoDup (lower <$> protocols) ∧ Forall known protocols.
Lemma validateScrapeProtocols_None protocols : validateScrapeProtocols protocols = None ↔ protocols_ok protocols.
Proof.
  unfold validateScrapeProtocols, protocols_ok. destruct protocols as [|p protocols]; [by split; [|intros [? _]]|].
  rewrite protocols_loop_None. assert (Forall (λ q, lower q ∉ (∅ : gset string)) (p :: protocols)) as H; [|by naive_solver].
  apply Forall_forall. set_solver.
Qed.

(** ** One job *)

Definition rule_ok (scheme : ValidationScheme) (r : option relabel_config) : Prop :=
  ∃ r', r = Some r' ∧ relabel_Validate r' scheme = None.
Lemma check_rules_None scheme rules : check_rules scheme rules = Done None ↔ Forall (rule_ok scheme) rules.
Proof.
  induction rules as [|[r|] rules IH]; cbn [check_rules]; [by split| |].
  - rewrite Forall_cons, <-IH. destruct (relabel_Validate r scheme) eqn:E.
    + split; [done|]. intros [(r' & [= <-] & H) _]. congruence.
    + split; [by intros H; split; [exists r|]|by intros [_ H]].
  - split; [done|]. rewrite Forall_cons. by intros [(? & ? & _) _].
Qed.

Record well_formed (c : ScrapeConfig) : Prop := {
  wf_timeout : ScrapeTimeout c ≤ ScrapeInterval c;
  wf_protocols : ∃ protocols, ScrapeProtocols c = Some protocols ∧ protocols_ok protocols;
  wf_fallback : ScrapeFallbackProtocol c = "" ∨ known (ScrapeFallbackProtocol c);
  wf_scheme : MetricNameValidationScheme c = LegacyValidation ∨ MetricNameValidationScheme c = UTF8Validation;
  wf_escaping : check_escaping (MetricNameEscapingScheme c) (MetricNameValidationScheme c) = None;
  wf_rules : Forall (rule_ok (MetricNameValidationScheme c)) (RelabelConfigs c);
  wf_metric_rules : Forall (rule_ok (MetricNameValidationScheme c)) (MetricRelabelConfigs c);
  wf_histograms : is_Some (AlwaysScrapeClassicHistograms c) ∧ is_Some (ConvertClassicHistogramsToNHCB c) }.

Lemma validation_of_Ok c global scheme :
  validation_of c global = Ok scheme →
  (scheme = LegacyValidation ∨ scheme = UTF8Validation)
  ∧ scheme = (if decide (MetricNameValidationScheme c = UnsetValidation) then g_MetricNameValidationScheme global
              else MetricNameValidationScheme c)
  ∧ (g_MetricNameValidationScheme global = LegacyValidation ∨ g_MetricNameValidationScheme global = UTF8Validation).
Proof.
  unfold validation_of. destruct (g_MetricNameValidationScheme global); try done;
    destruct (MetricNameValidationScheme c); try done; intros [= <-]; auto.
Qed.

(** What validation leaves of the fields, by the conditions it checks. *)
Lemma validate_fields_Ok global c c' :
  validate_fields global c = Ok c' ↔
  let interval := or_global (ScrapeInterval c) (g_ScrapeInterval global) in
  let timeout := if ScrapeTimeout c =? 0 then Z.min (g_ScrapeTimeout global) interval else ScrapeTimeout c in
  let native := or_default (ScrapeNativeHistograms c) (g_ScrapeNativeHistograms global) in
  ScrapeTimeout c ≤ interval ∧ protocols_ok (protocols_of c global native)
  ∧ (ScrapeFallbackProtocol c = "" ∨ known (ScrapeFallbackProtocol c))
  ∧ ∃ scheme, validation_of c global = Ok scheme ∧ check_escaping (escaping_of c global scheme) scheme = None
    ∧ c' = validated c global interval timeout native scheme (escaping_of c global scheme).
Proof.
  cbv zeta. unfold validate_fields. set (interval := or_global _ _). rewrite <-validateScrapeProtocols_None, <-Protocol_Validate_None.
  destruct (Z.ltb_spec interval (ScrapeTimeout c)); [split; [done|]; lia|].
  destruct (validateScrapeProtocols _); [split; [done|]; by intros (_ & ? & _)|].
  case_decide as Hf.
  - split.
    + intros (scheme & Hs & Hc)%result_bind_Ok. destruct (check_escaping _ _) eqn:E; [done|]. injection Hc as <-.
      split_and!; [done|done|by left|]. by exists scheme.
    + intros (_ & _ & _ & scheme & -> & He & ->). cbn. by rewrite He.
  - destruct (Protocol_Validate (ScrapeFallbackProtocol c)) eqn:Ep; [split; [done|]; by intros (_ & _ & [?|?] & _)|]. split.
    + intros (scheme & Hs & Hc)%result_bind_Ok. destruct (check_escaping _ _) eqn:E; [done|]. injection Hc as <-.
      split_and!; [done|done|by right|]. by exists scheme.
    + intros (_ & _ & _ & scheme & -> & He & ->). cbn. by rewrite He.
Qed.
Lemma Scrape_Validate_Ok global c c' :
  Scrape_Validate global c = Done (Ok c') ↔
  ∃ c0, c = Some c0 ∧ validate_fields global c0 = Ok c'
    ∧ Forall (rule_ok (MetricNameValidationScheme c')) (RelabelConfigs c')
    ∧ Forall (rule_ok (MetricNameValidationScheme c')) (MetricRelabelConfigs c').
Proof.
  unfold Scrape_Validate. destruct c as [c|]; [|split; [done|by intros (? & ? & _)]].
  destruct (validate_fields global c) as [c1|e] eqn:E; [|split; [done|]; intros (? & [= <-] & H & _); congruence].
  repeat setoid_rewrite <-check_rules_None. split.
  - intros (e1 & H1 & H)%outcome_bind_Done. destruct e1; [done|]. apply outcome_bind_Done in H as (e2 & H2 & H).
    destruct e2; [done|]. injection H as <-. by exists c.
  - intros (? & [= <-] & H & H1 & H2). rewrite E in H. injection H as ->. rewrite H1. cbn. by rewrite H2.
Qed.

Lemma validated_well_formed global c c' : Scrape_Validate global c = Done (Ok c') → well_formed c'.
Proof.
  intros (c0 & -> & H & Hr & Hm)%Scrape_Validate_Ok. apply validate_fields_Ok in H as (Hi & Hp & Hf & scheme & Hs & He & ->).
  destruct (validation_of_Ok _ _ _ Hs) as (Hl & _ & _). constructor; cbn; try done.
  - destruct (Z.eqb_spec (ScrapeTimeout c0) 0); [apply Z.le_min_r|done].
  - by eexists.
  - by destruct (AlwaysScrapeClassicHistograms c0), (ConvertClassicHistogramsToNHCB c0).
Qed.
Lemma validated_JobName global c c' : Scrape_Validate global (Some c) = Done (Ok c') → JobName c' = JobName c.
Proof. intros (c0 & [= <-] & H & _)%Scrape_Validate_Ok. by apply validate_fields_Ok in H as (_ & _ & _ & scheme & _ & _ & ->). Qed.

Lemma or_global_twice a b : or_global (or_global a b) b = or_global a b.
Proof. unfold or_global. destruct (Z.eqb_spec a 0); [by destruct (b =? 0)|]. by destruct (Z.eqb_spec a 0). Qed.
Lemma or_default_twice {A} (a b : option A) : or_default (or_default a b) b = or_default a b.
Proof. by destruct a, b. Qed.
Lemma escaping_set c global scheme : AllowUTF8 ≠ "" → EscapeUnderscores ≠ "" → escaping_of c global scheme ≠ "".
Proof.
  intros H1 H2. unfold escaping_of, escaping_for.
  repeat case_decide; try done; first [by destruct (g_MetricNameValidationScheme global) | by destruct scheme].
Qed.

(** Validating a valid job again changes nothing. *)
Theorem validate_again global c c' :
  AllowUTF8 ≠ "" → EscapeUnderscores ≠ "" →
  Scrape_Validate global c = Done (Ok c') → Scrape_Validate global (Some c') = Done (Ok c').
Proof.
  intros Ha Hu H. pose proof (validated_well_formed _ _ _ H) as [Wt [protocols [Wp Wp']] Wf Ws We Wr Wm _].
  apply Scrape_Validate_Ok in H as (c0 & -> & H & Hr & Hm). apply Scrape_Validate_Ok. exists c'. split_and!; try done.
  apply validate_fields_Ok in H as (Hi & Hp & Hf & scheme & Hs & He & ->). set (c' := validated _ _ _ _ _ _ _) in *.
  destruct (validation_of_Ok _ _ _ Hs) as (Hl & _ & Hg).
  apply validate_fields_Ok. cbv zeta. change (ScrapeInterval c') with (or_global (ScrapeInterval c0) (g_ScrapeInterval global)) in *.
  rewrite or_global_twice. split; [done|]. 
  assert (protocols_of c' global (or_default (ScrapeNativeHistograms c') (g_ScrapeNativeHistograms global))
          = protocols_of c0 global (or_default (ScrapeNativeHistograms c0) (g_ScrapeNativeHistograms global))) as Hpr by done.
  split; [by rewrite Hpr|]. split; [done|]. exists scheme.
  assert (escaping_of c' global scheme = escaping_of c0 global scheme) as Hes.
  { unfold escaping_of at 1. change (MetricNameEscapingScheme c') with (escaping_of c0 global scheme).
    rewrite (decide_False (P := escaping_of c0 global scheme = "")) by by apply escaping_set. done. }
  split; [|split; [by rewrite Hes|]].
  - unfold validation_of. change (MetricNameValidationScheme c') with scheme. by destruct Hg as [-> | ->], Hl as [-> | ->].
  - rewrite Hes. unfold c', validated. cbn. rewrite !or_global_twice, !or_default_twice. f_equal.
    + destruct (Z.eqb_spec (ScrapeTimeout c0) 0); [|by destruct (Z.eqb_spec (ScrapeTimeout c0) 0)]. by destruct (_ =? 0).
    + by repeat case_decide.
Qed.

(** ** All jobs *)

Definition names_of (configs : list ScrapeConfig) : list string := JobName <$> configs.

Lemma set_directory_well_formed dir c : well_formed c → well_formed (Scrape_SetDirectory dir c).
Proof. by intros []. Qed.

Lemma validate_jobs_Ok global seen configs res :
  validate_jobs global seen configs = Done (Ok res) →
  Forall well_formed res ∧ NoDup (names_of res) ∧ Forall (λ c, JobName c ∉ seen) res.
Proof.
  revert seen res. induction configs as [|c configs IH]; intros seen res; cbn [validate_jobs]; [intros [= <-]; by repeat constructor|].
  intros (r & Hc & H)%outcome_bind_Done. destruct r as [c'|e]; [|done]. case_bool_decide as Hin; [done|].
  apply outcome_bind_Done in H as (r & Hrest & H). destruct r as [rest|e]; [|done]. injection H as <-.
  destruct (IH _ _ Hrest) as (H1 & H2 & H3). apply validated_well_formed in Hc. rewrite Forall_forall in H3.
  split_and!; [by constructor| |].
  - unfold names_of. rewrite fmap_cons. constructor; [|done]. rewrite list_elem_of_fmap. intros (d & Hd & Hdin). specialize (H3 d Hdin). set_solver.
  - constructor; [done|]. apply Forall_forall. intros d Hdin. specialize (H3 d Hdin). set_solver.
Qed.

(** The jobs found so far are valid, of different names, and their names are known. *)
Definition jobs_ok (acc : gmap string string * list ScrapeConfig) : Prop :=
  Forall well_formed acc.2 ∧ NoDup (names_of acc.2) ∧ Forall (λ c, is_Some (acc.1 !! JobName c)) acc.2.

Lemma file_jobs_ok global filename jobNames configs file acc :
  jobs_ok (jobNames, configs) → file_jobs global filename jobNames configs file = Done (Ok acc) → jobs_ok acc.
Proof.
  revert jobNames configs. induction file as [|c file IH]; intros jobNames configs Hok; cbn [file_jobs]; [by intros [= <-]|].
  intros (r & Hc & H)%outcome_bind_Done. destruct r as [c'|e]; [|done]. apply validated_well_formed in Hc.
  destruct (jobNames !! JobName c') eqn:E; [done|]. refine (IH _ _ _ H). destruct Hok as (H1 & H2 & H3). cbn in *.
  rewrite Forall_forall in H3. unfold jobs_ok, names_of in *. cbn. rewrite fmap_app. split_and!.
  - apply Forall_app. split; [done|]. constructor; [by apply set_directory_well_formed|done].
  - apply NoDup_app. split_and!; [done| |by apply NoDup_singleton]. intros n (d & -> & Hd)%list_elem_of_fmap Hn%list_elem_of_singleton.
    destruct (H3 d Hd) as [f Hf]. cbn in Hn. rewrite Hn in Hf. congruence.
  - apply Forall_app. split; [|constructor; [by rewrite lookup_insert_eq|done]].
    apply Forall_forall. intros d Hd. destruct (H3 d Hd) as [f Hf]. cbn.
    destruct (decide (JobName c' = JobName d)) as [->|]; [by rewrite lookup_insert_eq|by rewrite lookup_insert_ne, Hf].
Qed.
Lemma pattern_files_ok ReadFile global files acc acc' :
  jobs_ok acc → pattern_files ReadFile global files acc = Done (Ok acc') → jobs_ok acc'.
Proof.
  revert acc. induction files as [|f files IH]; intros acc Hok; cbn [pattern_files]; [by intros [= <-]|].
  destruct (ReadFile f) as [file|e]; [|done]. intros (r & Hr & H)%outcome_bind_Done. destruct r as [acc1|e]; [|done].
  refine (IH _ _ H). refine (file_jobs_ok _ _ _ _ _ _ _ Hr). by destruct acc.
Qed.
Lemma patterns_loop_ok Glob ReadFile global patterns acc acc' :
  jobs_ok acc → patterns_loop Glob ReadFile global patterns acc = Done (Ok acc') → jobs_ok acc'.
Proof.
  revert acc. induction patterns as [|p patterns IH]; intros acc Hok; cbn [patterns_loop]; [by intros [= <-]|].
  destruct (Glob p) as [files|e]; [|done]. intros (r & Hr & H)%outcome_bind_Done. destruct r as [acc1|e]; [|done].
  refine (IH _ _ H). exact (pattern_files_ok _ _ _ _ _ Hok Hr).
Qed.

Lemma main_names_known (configs : list ScrapeConfig) m :
  Forall (λ c, is_Some (foldl (λ m c, <[JobName c := "main config"]> m) m configs !! JobName c)) configs
  ∧ (∀ n, is_Some (m !! n) → is_Some ((foldl (λ m c, <[JobName c := "main config"]> m) m configs : gmap string string) !! n)).
Proof.
  revert m. induction configs as [|c configs IH]; intros m; [by split|]. cbn [foldl].
  destruct (IH (<[JobName c := "main config"]> m)) as [H1 H2]. split.
  - constructor; [|done]. apply H2. by rewrite lookup_insert_eq.
  - intros n [f Hn]. apply H2. destruct (decide (JobName c = n)) as [->|]; [by rewrite lookup_insert_eq|by rewrite lookup_insert_ne, Hn].
Qed.

Lemma mapM_id_Some {A} (l : list (option A)) k : mapM id l = Some k ↔ l = Some <$> k.
Proof.
  rewrite mapM_Some. unfold id. split; [induction 1; by simplify_eq/=|intros ->]. induction k; by constructor.
Qed.

Lemma loaded_configs_ok decoded baseDir cfg Glob ReadFile configs :
  LoadScrapeConfig decoded baseDir = Done (Ok cfg) → GetScrapeConfigs Glob ReadFile cfg = Done (Ok configs) →
  Forall well_formed configs ∧ NoDup (names_of configs).
Proof.
  intros Hload Hget. unfold LoadScrapeConfig in Hload. destruct decoded as [c|e]; [|done].
  apply outcome_bind_Done in Hload as (r & Hv & H). destruct r as [c1|e]; [|done].
  apply outcome_bind_Done in H as (c2 & Hd & H). injection H as <-. unfold Config_Validate in Hv.
  destruct (list_find _ _) as [[? ?]|]; [done|]. apply outcome_bind_Done in Hv as (r & Hj & H). destruct r as [jobs|e]; [|done].
  injection H as <-. destruct (validate_jobs_Ok _ _ _ _ Hj) as (H1 & H2 & _). unfold Config_SetDirectory in Hd. cbn in Hd.
  assert (mapM id (Some <$> jobs) = Some jobs) as Hm by by apply mapM_id_Some. rewrite Hm in Hd. injection Hd as <-.
  unfold GetScrapeConfigs in Hget. cbn in Hget.
  destruct (mapM id _) as [main|] eqn:Em; [|done]. apply mapM_id_Some in Em.
  assert (main = Scrape_SetDirectory baseDir <$> jobs) as ->.
  { apply (inj (fmap Some)). rewrite <-Em, <-list_fmap_compose. done. }
  apply outcome_bind_Done in Hget as (r & Hp & H). destruct r as [acc|e]; [|done]. injection H as <-.
  apply (patterns_loop_ok _ _ _ _ _ _) in Hp; [by destruct Hp as (? & ? & _)|]. split_and!; cbn.
  - apply Forall_fmap. eapply Forall_impl; [exact H1|]. intros x. apply set_directory_well_formed.
  - unfold names_of. rewrite <-list_fmap_compose. exact H2.
  - apply main_names_known.
Qed.

(** C36. Whatever is loaded: every job that is scraped is valid, and no two have the same name. *)
Theorem scrape_configs_well_formed decoded baseDir cfg Glob ReadFile configs :
  LoadScrapeConfig decoded baseDir = Done (Ok cfg) → GetScrapeConfigs Glob ReadFile cfg = Done (Ok configs) →
  Forall well_formed configs ∧ NoDup (names_of configs).
Proof. apply loaded_configs_ok. Qed.
End props.

(** ** An instance *)

Definition any_scrape : ScrapeLibrary := {|
  AllowUTF8 := "allow-utf-8"; EscapeUnderscores := "underscores"; EscapeDots := "dots"; EscapeValues := "values";
  model_ToEscapingScheme _ := Ok NoEscaping; IsValidLabelName _ _ := true; LabelValue_IsValid _ := true; AddressLabel := "__address__";
  JoinDir dir file := dir +:+ "/" +:+ file; HTTPClientConfig := unit; DefaultHTTPClientConfig := tt; HTTP_Validate _ := None;
  HTTP_SetDirectory _ c := c; relabel_config := bool; relabel_Validate r _ := if r then None else Some "no action";
  OtherDiscovery := unit; Discovery_SetDirectory _ c := c; ParseMediaType h := Ok h; lower := to_lower;
  Quote s := dquote +:+ s +:+ dquote; scrapeConfigFilePattern _ := true; Abs f := Ok f; Dir _ := "etc";
  scheme_text _ := "unset" |}.
#[local] Existing Instance any_scrape.

Definition scrape_job (name : string) : ScrapeConfig :=
  {| JobName := name; HonorLabels := false; HonorTimestamps := true; TrackTimestampsStaleness := false; Params := ∅;
     ScrapeInterval := 15000000000; ScrapeTimeout := 0; ScrapeProtocols := None; ScrapeFallbackProtocol := "";
     ScrapeNativeHistograms := Some true; AlwaysScrapeClassicHistograms := None; ConvertClassicHistogramsToNHCB := None;
     ScrapeFailureLogFile := ""; MetricsPath := "/metrics"; Scheme := "http"; EnableCompression := true; BodySizeLimit := 0;
     SampleLimit := 0; TargetLimit := 0; LabelLimit := 0; LabelNameLengthLimit := 0; LabelValueLengthLimit := 0;
     NativeHistogramBucketLimit := 0; NativeHistogramMinBucketFactor := SpecFloat.S754_zero false; KeepDroppedTargets := 0;
     MetricNameValidationScheme := UnsetValidation; MetricNameEscapingScheme := ""; ExtraScrapeMetrics := None;
     ServiceDiscoveryConfigs := []; sc_HTTPClientConfig := tt; RelabelConfigs := [Some true]; MetricRelabelConfigs := [] |}.
Definition two_jobs : Config :=
  {| cfg_GlobalConfig := DefaultGlobalConfig; cfg_ScrapeConfigFiles := ["jobs.yml"]; cfg_ScrapeConfigs := [Some (scrape_job "main")]; cfg_loaded := false |}.
Definition loaded : Config := match LoadScrapeConfig (Ok two_jobs) "etc" with Done (Ok cfg) => cfg | _ => two_jobs end.
Definition found : list ScrapeConfig :=
  match GetScrapeConfigs (λ _, Ok ["etc/jobs.yml"]) (λ _, Ok [Some (scrape_job "other")]) loaded with Done (Ok configs) => configs | _ => [] end.

Lemma scrape_configs_well_formed_witness :
  names_of found = ["main"; "other"] ∧ Forall well_formed found ∧ NoDup (names_of found).
Proof.
  split; [vm_compute; reflexivity|].
  apply (scrape_configs_well_formed (Ok two_jobs) "etc" loaded (λ _, Ok ["etc/jobs.yml"]) (λ _, Ok [Some (scrape_job "other")]));
    vm_compute; reflexivity.
Defined.
