(* ===== verification/PromTarget.v ===== *)
(** * Targets of scrapes

    src/receiver/prometheusreceiver/internal/scrape: target.go (targets, their labels and
    times), and the functions of scrape.go that change the labels of samples. The builder of
    label sets of Prometheus is an interface, with the laws that its documentation states. *)
From S2P Require Import Prelude GoText Pdata Sampling Pmetric Flatten Utils SpanHistogram PromFamily ScrapeConfig.

(** [labels.Builder], and the label sets it gives. *)
Class LabelsBuilder := {
  Builder : Type;
  NewBuilder : Labels → Builder; b_Set : Builder → string → string → Builder; b_Del : Builder → string → Builder;
  b_Get : Builder → string → string; b_Range : Builder → Labels; b_Labels : Builder → Labels;
  Labels_IsValid : ValidationScheme → Labels → bool; HasDuplicateLabelNames : Labels → option string;
  WithoutEmpty : Labels → Labels; HashWithoutLabels : Labels → list string → Z }.
(** An empty value is no label; a label set is that of the builder. *)
Class BuilderLaws `{LB : LabelsBuilder} := {
  b_get_new ls n : b_Get (NewBuilder ls) n = Labels_Get ls n;
  b_get_set b n v m : b_Get (b_Set b n v) m = if decide (m = n) then v else b_Get b m;
  b_get_del b n m : b_Get (b_Del b n) m = if decide (m = n) then "" else b_Get b m;
  b_labels_get b n : Labels_Get (b_Labels b) n = b_Get b n;
  b_range_get b n v : (n, v) ∈ b_Range b ↔ v ≠ "" ∧ b_Get b n = v }.

(** What the order of iteration over a Go map is. *)
Class GoRange := {
  go_range {K V} `{Countable K} : gmap K V → list (K * V);
  go_range_perm {K V} `{Countable K} (m : gmap K V) : go_range m ≡ₚ map_to_list m }.

(** Names and functions of the model package, relabelling and net/url. *)
Class TargetLibrary `{SL : ScrapeLibrary} `{LB : LabelsBuilder} := {
  ScrapeIntervalLabel : string; ScrapeTimeoutLabel : string; ParamLabelPrefix : string; ReservedLabelPrefix : string;
  MetaLabelPrefix : string; ExportedLabelPrefix : string;
  ParseDuration : string → result string Z; Duration_String : Z → string;
  ProcessBuilder : list (option relabel_config) → Builder → Builder * bool;
  values_Encode : gmap string (list string) → string; URL_String : string → string → string → string → string }.

(** The builder of finite maps, for the witnesses. *)
Definition map_labels (m : gmap string string) : Labels :=
  sort_slice (λ a b, Strings.String.ltb a.1 b.1) (map_to_list (filter (λ kv, kv.2 ≠ "") m)).

Section target.
Context `{PM : Prometheus} `{TL : TargetLibrary} `{GR : GoRange}.

Inductive TargetHealth := HealthUnknown | HealthGood | HealthBad.

(** The metadata of a target are those of its cache. *)
Record Target := {
  t_labels : Labels; t_scrapeConfig : ScrapeConfig; t_tLabels : gmap string string; t_tgLabels : gmap string string;
  t_lastError : option string; t_lastScrape : Z; t_lastScrapeDuration : Z; t_health : TargetHealth;
  t_metadata : option MetadataStore }.
Definition NewTarget (ls : Labels) (cfg : ScrapeConfig) (tLabels tgLabels : gmap string string) : Target :=
  {| t_labels := ls; t_scrapeConfig := cfg; t_tLabels := tLabels; t_tgLabels := tgLabels; t_lastError := None; t_lastScrape := 0;
     t_lastScrapeDuration := 0; t_health := HealthUnknown; t_metadata := None |}.
Definition Target_GetMetadata (t : Target) (mfName : string) : option MetricMetadata :=
  match t_metadata t with Some store => store mfName | None => None end.
Definition SetMetadataStore (t : Target) (s : MetadataStore) : Target :=
  {| t_labels := t_labels t; t_scrapeConfig := t_scrapeConfig t; t_tLabels := t_tLabels t; t_tgLabels := t_tgLabels t;
     t_lastError := t_lastError t; t_lastScrape := t_lastScrape t; t_lastScrapeDuration := t_lastScrapeDuration t;
     t_health := t_health t; t_metadata := Some s |}.
Definition SetScrapeConfig (t : Target) (cfg : ScrapeConfig) (tLabels tgLabels : gmap string string) : Target :=
  {| t_labels := t_labels t; t_scrapeConfig := cfg; t_tLabels := tLabels; t_tgLabels := tgLabels; t_lastError := t_lastError t;
     t_lastScrape := t_lastScrape t; t_lastScrapeDuration := t_lastScrapeDuration t; t_health := t_health t; t_metadata := t_metadata t |}.
Definition Report (t : Target) (start dur : Z) (err : option string) : Target :=
  {| t_labels := t_labels t; t_scrapeConfig := t_scrapeConfig t; t_tLabels := t_tLabels t; t_tgLabels := t_tgLabels t;
     t_lastError := err; t_lastScrape := start; t_lastScrapeDuration := dur;
     t_health := match err with None => HealthGood | Some _ => HealthBad end; t_metadata := t_metadata t |}.

Definition GetValue (t : Target) (name : string) : string := Labels_Get (t_labels t) name.
(** The public labels. *)
Definition LabelsRange (t : Target) : Labels := filter (λ l, has_prefix l.1 ReservedLabelPrefix = false) (t_labels t).
Definition set_all (ls : Labels) (b : Builder) : Builder := foldl (λ b l, b_Set b l.1 l.2) b ls.
Definition Target_Labels (t : Target) : Labels := b_Labels (set_all (LabelsRange t) (NewBuilder [])).

(** ** The address *)

Definition url_params (t : Target) : gmap string (list string) :=
  foldl (λ params l,
    if has_prefix l.1 ParamLabelPrefix then
      let ks := of_bytes (drop (length (bytes ParamLabelPrefix)) (bytes l.1)) in
      <[ks := match params !! ks with Some (_ :: rest) => l.2 :: rest | _ => [l.2] end]> params
    else params) (Params (t_scrapeConfig t)) (t_labels t).
Definition URL (t : Target) : string :=
  URL_String (GetValue t SchemeLabel) (GetValue t AddressLabel) (GetValue t MetricsPathLabel) (values_Encode (url_params t)).
(** [%016d]. *)
Definition zero_pad (n : nat) (s : string) : string := of_bytes (replicate (n - length (bytes s)) "0"%char) +:+ s.
Definition Target_hash (t : Target) : Z := fnv1a (fnv1a fnv_offset64 (zero_pad 16 (FormatInt (Labels_Hash (t_labels t))))) (URL t).
(** The time to the next scrape; an interval of 0 is a division by zero. *)
Definition offset (t : Target) (now interval offsetSeed : Z) : outcome Z :=
  if decide (interval = 0) then Panics
  else
    let base := i64 (interval - Z.rem now interval) in
    let offset := (Z.lxor (Target_hash t) offsetSeed) mod (u64 interval) in
    let next := i64 (base + i64 offset) in
    Done (if interval <? next then i64 (next - interval) else next).
Definition intervalAndTimeout (t : Target) (defaultInterval defaultDuration : Z) : Z * Z * option string :=
  let intervalLabel := GetValue t ScrapeIntervalLabel in
  match ParseDuration intervalLabel with
  | Err err => (defaultInterval, defaultDuration, Some ("error parsing interval label " +:+ Quote intervalLabel +:+ ": " +:+ err))
  | Ok interval =>
      let timeoutLabel := GetValue t ScrapeTimeoutLabel in
      match ParseDuration timeoutLabel with
      | Err err => (defaultInterval, defaultDuration, Some ("error parsing timeout label " +:+ Quote timeoutLabel +:+ ": " +:+ err))
      | Ok timeout => (interval, timeout, None)
      end
  end.

(** ** Labels of a target *)

Definition set_missing (b : Builder) (l : string * string) : Builder := if decide (b_Get b l.1 = "") then b_Set b l.1 l.2 else b.
Definition PopulateDiscoveredLabels (cfg : ScrapeConfig) (tLabels tgLabels : gmap string string) : Builder :=
  let b := set_all (go_range tLabels) (NewBuilder []) in
  let b := foldl (λ b l, if decide (is_Some (tLabels !! l.1)) then b else b_Set b l.1 l.2) b (go_range tgLabels) in
  let scrapeLabels := [(JobLabel, JobName cfg); (ScrapeIntervalLabel, Duration_String (ScrapeInterval cfg));
                       (ScrapeTimeoutLabel, Duration_String (ScrapeTimeout cfg)); (MetricsPathLabel, MetricsPath cfg);
                       (SchemeLabel, Scheme cfg)] in
  let b := foldl set_missing b scrapeLabels in
  foldl (λ b kv, match kv.2 with v :: _ => set_missing b (ParamLabelPrefix +:+ kv.1, v) | [] => b end) b (go_range (Params cfg)).
Definition DiscoveredLabels (t : Target) : Labels :=
  b_Labels (PopulateDiscoveredLabels (t_scrapeConfig t) (t_tLabels t) (t_tgLabels t)).
Definition delete_meta (b : Builder) : Builder :=
  foldl (λ b l, if has_prefix l.1 MetaLabelPrefix then b_Del b l.1 else b) b (b_Range b).
(** A duration of the labels, with the errors of its kind. *)
Definition duration_label (b : Builder) (name what : string) : result string Z :=
  match ParseDuration (b_Get b name) with
  | Err err => Err ("error parsing scrape " +:+ what +:+ ": " +:+ err)
  | Ok d => if d =? 0 then Err ("scrape " +:+ what +:+ " cannot be 0") else Ok d
  end.
Definition validate_values (ls : Labels) : option string :=
  match list_find (λ l, LabelValue_IsValid l.2 = false) ls with
  | Some (_, l) => Some ("invalid label value for " +:+ Quote l.1 +:+ ": " +:+ Quote l.2)
  | None => None
  end.
(** No labels are a target that was dropped. *)
Definition PopulateLabels (cfg : ScrapeConfig) (tLabels tgLabels : gmap string string) : result string Labels :=
  let '(b, keep) := ProcessBuilder (RelabelConfigs cfg) (PopulateDiscoveredLabels cfg tLabels tgLabels) in
  if keep then
    let addr := b_Get b AddressLabel in
    if decide (addr = "") then Err "no address"
    else match CheckTargetAddress addr with
    | Some err => Err err
    | None =>
        interval ← duration_label b ScrapeIntervalLabel "interval";
        timeout ← duration_label b ScrapeTimeoutLabel "timeout";
        if interval <? timeout
        then Err ("scrape timeout cannot be greater than scrape interval (" +:+ Quote (b_Get b ScrapeTimeoutLabel) +:+ " > "
                  +:+ Quote (b_Get b ScrapeIntervalLabel) +:+ ")")
        else
          let b := set_missing (delete_meta b) (InstanceLabel, addr) in
          match validate_values (b_Labels b) with Some err => Err err | None => Ok (b_Labels b) end
    end
  else Ok [].
(** The targets of a group, and what was wrong with the others. *)
Fixpoint targets_loop (cfg : ScrapeConfig) (group : string) (tgLabels : gmap string string) (i : Z) (l : list (gmap string string)) :
    list Target * list string :=
  match l with
  | [] => ([], [])
  | tLabels :: rest =>
      let '(targets, failures) := targets_loop cfg group tgLabels (i + 1) rest in
      match PopulateLabels cfg tLabels tgLabels with
      | Err err => (targets, ("instance " +:+ FormatInt i +:+ " in group " +:+ group +:+ ": " +:+ err) :: failures)
      | Ok lset => (NewTarget lset cfg tLabels tgLabels :: targets, failures)
      end
  end.
Definition TargetsFromGroup (cfg : ScrapeConfig) (group : string) (tgTargets : list (gmap string string)) (tgLabels : gmap string string) :
    list Target * list string := targets_loop cfg group tgLabels 0 tgTargets.

(** ** Labels of samples *)

Record labelLimits := { labelLimit : Z; labelNameLengthLimit : Z; labelValueLengthLimit : Z }.
(** [%.50s], on bytes. *)
Definition first50 (s : string) : string := of_bytes (take 50 (bytes s)).
Definition slen (s : string) : Z := Z.of_nat (length (bytes s)).
Fixpoint check_lengths (limits : labelLimits) (met : string) (ls : Labels) : option string :=
  match ls with
  | [] => None
  | (name, value) :: rest =>
      if (0 <? labelNameLengthLimit limits) && (labelNameLengthLimit limits <? slen name)
      then Some ("label_name_length_limit exceeded (metric: " +:+ first50 met +:+ ", label name: " +:+ first50 name +:+ ", length: "
                 +:+ FormatInt (slen name) +:+ ", limit: " +:+ FormatInt (labelNameLengthLimit limits) +:+ ")")
      else if (0 <? labelValueLengthLimit limits) && (labelValueLengthLimit limits <? slen value)
      then Some ("label_value_length_limit exceeded (metric: " +:+ first50 met +:+ ", label name: " +:+ first50 name +:+ ", value: "
                 +:+ Quote (first50 value) +:+ ", length: " +:+ FormatInt (slen value) +:+ ", limit: "
                 +:+ FormatInt (labelValueLengthLimit limits) +:+ ")")
      else check_lengths limits met rest
  end.
Definition verifyLabelLimits (lset : Labels) (limits : option labelLimits) : option string :=
  match limits with
  | None => None
  | Some limits =>
      let met := Labels_Get lset MetricNameLabel in
      let nbLabels := Z.of_nat (length lset) in
      if (0 <? labelLimit limits) && (labelLimit limits <? nbLabels)
      then Some ("label_limit exceeded (metric: " +:+ first50 met +:+ ", number of labels: " +:+ FormatInt nbLabels +:+ ", limit: "
                 +:+ FormatInt (labelLimit limits) +:+ ")")
      else if (labelNameLengthLimit limits =? 0) && (labelValueLengthLimit limits =? 0) then None
      else check_lengths limits met lset
  end.

(** The name of a label that is in the way, with the prefix as often as it takes; a builder has
    finitely many labels, so that many prefixes are enough. *)
Fixpoint exported_name (fuel : nat) (b : Builder) (name : string) : string :=
  let newName := ExportedLabelPrefix +:+ name in
  match fuel with
  | O => newName
  | S fuel => if decide (b_Get b newName = "") then newName else exported_name fuel b newName
  end.
Definition shorter (a b : string * string) : bool := slen a.1 <? slen b.1.
Definition resolveConflictingExposedLabels (b : Builder) (conflicting : Labels) : Builder :=
  foldl (λ b l, b_Set b (exported_name (length (b_Range b)) b l.1) l.2) b (sort_slice shorter conflicting).
Definition Has (ls : Labels) (name : string) : bool := existsb (λ l, bool_decide (l.1 = name)) ls.
Definition mutateSampleLabels (lset : Labels) (target : Target) (honor : bool) (rc : list (option relabel_config)) : Labels :=
  let b := NewBuilder lset in
  let b :=
    if honor then foldl (λ b l, if Has lset l.1 then b else b_Set b l.1 l.2) b (LabelsRange target)
    else
      let conflicting := omap (λ l, let existing := Labels_Get lset l.1 in if decide (existing = "") then None else Some (l.1, existing))
                           (LabelsRange target) in
      resolveConflictingExposedLabels (set_all (LabelsRange target) b) conflicting in
  let '(b, keep) := ProcessBuilder rc b in
  if keep then b_Labels b else [].
Definition mutateReportSampleLabels (lset : Labels) (target : Target) : Labels :=
  b_Labels (foldl (λ b l, b_Set (b_Set b (ExportedLabelPrefix +:+ l.1) (Labels_Get lset l.1)) l.1 l.2) (NewBuilder lset) (LabelsRange target)).
End target.
