(* ===== verification/PromTargetProps.v ===== *)
(** * Labels of targets and of their samples

    No label is lost when the labels of a target and of a sample meet: those of the target
    win, and a sample's label of the same name gets a name that is free. Targets that are not
    dropped have an address, a time-out within the interval and no labels of the discovery. *)
From S2P Require Import Prelude GoText Pdata Sampling Pmetric Flatten Utils SpanHistogram PromFamily PromFamilyProps ScrapeConfig ScrapeConfigProps PromTarget.

Section props.
Context `{PM : Prometheus} `{TL : TargetLibrary} `{GR : GoRange} `{BL : !BuilderLaws}.

(** ** Builders *)

Lemma set_all_get ls b n : NoDup ls.*1 → b_Get (set_all ls b) n = match list_find (λ l, l.1 = n) ls with Some (_, l) => l.2 | None => b_Get b n end.
Proof.
  revert b. induction ls as [|[m v] ls IH]; intros b Hn; [done|]. rewrite fmap_cons in Hn. apply NoDup_cons in Hn as [Hm Hn].
  change (set_all ((m, v) :: ls) b) with (set_all ls (b_Set b m v)). rewrite IH, b_get_set by done.
  cbn [list_find fst snd]. destruct (decide (m = n)) as [->|Hne].
  - rewrite decide_True by done. destruct (list_find _ ls) as [[i l]|] eqn:E; [|done].
    apply list_find_Some in E as (Hl & Hln & _). destruct Hm. apply list_elem_of_fmap. exists l. split; [done|]. by apply list_elem_of_lookup_2 in Hl.
  - rewrite (decide_False (P := n = m)) by done. by destruct (list_find _ ls) as [[i l]|].
Qed.

(** ** Labels that are in the way *)

Definition exported (k : nat) (n : string) : string := Nat.iter k (λ n, ExportedLabelPrefix +:+ n) n.

Lemma exported_length k n : slen (exported k n) = slen n + Z.of_nat k * slen ExportedLabelPrefix.
Proof.
  unfold slen. induction k as [|k IH]; [change (exported 0 n) with n; lia|]. change (exported (S k) n) with (ExportedLabelPrefix +:+ exported k n).
  rewrite bytes_app, length_app, Nat2Z.inj_add, Nat2Z.inj_succ, Z.mul_succ_l, IH. lia.
Qed.
Lemma exported_inj n k j : ExportedLabelPrefix ≠ "" → exported k n = exported j n → k = j.
Proof.
  intros Hp E%(f_equal slen). rewrite !exported_length in E. assert (0 < slen ExportedLabelPrefix) as Hl.
  { unfold slen. destruct ExportedLabelPrefix as [|ch s]; [done|]. change (bytes (String ch s)) with (ch :: bytes s). cbn [length]. lia. }
  nia.
Qed.

(** The name is the first that is free, or the last that was tried. *)
Lemma exported_name_tries fuel b n :
  ∃ j, exported_name fuel b n = exported (S j) n ∧ (j ≤ fuel)%nat
    ∧ (b_Get b (exported (S j) n) = "" ∨ (j = fuel ∧ ∀ i, (i < fuel)%nat → b_Get b (exported (S i) n) ≠ "")).
Proof.
  revert n. induction fuel as [|fuel IH]; intros n; cbn [exported_name].
  { exists 0%nat. split_and!; [done|lia|]. right. split; [done|]. lia. }
  case_decide as Hfree; [exists 0%nat; split_and!; [done|lia|by left]|].
  destruct (IH (ExportedLabelPrefix +:+ n)) as (j & E & Hj & Hor).
  assert (∀ i, exported i (ExportedLabelPrefix +:+ n) = exported (S i) n) as Hs by (intros i; unfold exported; by rewrite Nat.iter_succ_r).
  rewrite Hs in *. exists (S j). split_and!; [done|lia|]. destruct Hor as [?|[-> Hall]]; [by left|]. right. split; [done|].
  intros [|i] Hi; [done|]. rewrite <-Hs. apply Hall. lia.
Qed.
(** A builder has no more names than labels: one of the names that are tried is free. *)
Lemma exported_name_free b n :
  ExportedLabelPrefix ≠ "" → ∃ j, exported_name (length (b_Range b)) b n = exported (S j) n ∧ b_Get b (exported (S j) n) = "".
Proof using BL.
  intros Hp. set (fuel := length (b_Range b)). destruct (exported_name_tries fuel b n) as (j & E & Hj & [Hfree|[-> Hall]]); [by exists j|].
  exists fuel. split; [done|]. destruct (decide (b_Get b (exported (S fuel) n) = "")) as [|Hno]; [done|]. exfalso.
  assert (NoDup ((λ i, exported (S i) n) <$> seq 0 (S fuel))) as Hn.
  { apply NoDup_fmap_2; [|apply NoDup_seq]. intros i j H%exported_inj; [lia|done]. }
  assert ((λ i, exported (S i) n) <$> seq 0 (S fuel) ⊆ (b_Range b).*1) as Hin.
  { intros m (i & -> & Hi%elem_of_seq)%list_elem_of_fmap. apply list_elem_of_fmap.
    exists (exported (S i) n, b_Get b (exported (S i) n)). split; [done|]. apply b_range_get. split; [|done].
    destruct (decide (i = fuel)) as [->|]; [done|]. apply Hall. lia. }
  pose proof (submseteq_length _ _ (NoDup_submseteq _ _ Hn Hin)) as Hl. rewrite !length_fmap, length_seq in Hl. unfold fuel in Hl. lia.
Qed.

(** A label that has a value keeps it, and each label that was in the way gets a name. *)
Lemma resolve_labels ls b :
  ExportedLabelPrefix ≠ "" → Forall (λ l, l.2 ≠ "") ls →
  let b' := foldl (λ b l, b_Set b (exported_name (length (b_Range b)) b l.1) l.2) b ls in
  (∀ n, b_Get b n ≠ "" → b_Get b' n = b_Get b n) ∧ (∀ n v, (n, v) ∈ ls → ∃ k, b_Get b' (exported (S k) n) = v).
Proof using BL.
  intros Hp. revert b. induction ls as [|[m w] ls IH]; intros b Hv; cbn [foldl fst snd]; [split; [done|by intros n v ?%elem_of_nil]|].
  inversion Hv as [|? ? Hw Hv']; subst. cbn in Hw. destruct (exported_name_free b m Hp) as (j & Ej & Hfree). rewrite Ej.
  set (b1 := b_Set b (exported (S j) m) w). destruct (IH b1 Hv') as [H1 H2].
  assert (∀ n, b_Get b n ≠ "" → b_Get b1 n = b_Get b n) as Hkeep.
  { intros n Hn. unfold b1. rewrite b_get_set. case_decide as E; [|done]. by rewrite E in Hn. }
  split.
  - intros n Hn. rewrite H1; rewrite Hkeep; done.
  - intros n v [[= -> ->]|Hin]%elem_of_cons; [|by apply H2]. exists j.
    assert (b_Get b1 (exported (S j) m) = w) as E by (unfold b1; rewrite b_get_set; by rewrite decide_True). rewrite H1; congruence.
Qed.

(** C35. Samples of a target that does not honor their labels, without relabelling rules: the labels
    of the target, none of which is empty, are what the target says, and each label of the sample is
    there with its value, with as many prefixes as it takes, none exactly when the target does not
    have the label. *)
Theorem sample_labels_resolved lset target :
  ExportedLabelPrefix ≠ "" → (∀ b, ProcessBuilder [] b = (b, true)) →
  NoDup (LabelsRange target).*1 → Forall (λ l, l.2 ≠ "") (LabelsRange target) →
  let result := mutateSampleLabels lset target false [] in
  (∀ n v, (n, v) ∈ LabelsRange target → Labels_Get result n = v)
  ∧ (∀ n v, Labels_Get lset n = v → v ≠ "" → ∃ k, Labels_Get result (exported k n) = v ∧ (k = 0%nat ↔ n ∉ (LabelsRange target).*1)).
Proof using BL.
  intros Hp Hrules Hn Hv. unfold mutateSampleLabels. rewrite Hrules. cbv zeta.
  set (conflicting := omap _ (LabelsRange target)). set (b := set_all (LabelsRange target) (NewBuilder lset)).
  assert (∀ n v, (n, v) ∈ conflicting ↔ n ∈ (LabelsRange target).*1 ∧ Labels_Get lset n = v ∧ v ≠ "") as Hconf.
  { intros n v. unfold conflicting. rewrite list_elem_of_omap. split.
    - intros ([m w] & Hin & E). cbn in E. case_decide; [done|]. injection E as -> <-. split_and!; [|done..]. apply list_elem_of_fmap. by exists (n, w).
    - intros (([m w] & -> & Hin)%list_elem_of_fmap & E & Hne). exists (m, w). split; [done|]. cbn in *. rewrite decide_False by congruence. by rewrite E. }
  assert (Forall (λ l, l.2 ≠ "") (sort_slice shorter conflicting)) as Hne.
  { rewrite sort_slice_perm. apply Forall_forall. intros [n v] Hin. by apply Hconf in Hin as (_ & _ & ?). }
  destruct (resolve_labels (sort_slice shorter conflicting) b Hp Hne) as [R1 R2]. fold (resolveConflictingExposedLabels b conflicting) in R1, R2.
  assert (∀ n v, (n, v) ∈ LabelsRange target → b_Get b n = v) as Hb.
  { intros n v Hin. unfold b. rewrite set_all_get by done. destruct (list_find _ _) as [[i l]|] eqn:E.
    - apply list_find_Some in E as (Hl & Hln & _). apply list_elem_of_lookup_1 in Hin as [j Hj].
      assert (i = j) as -> by (apply (NoDup_lookup _ _ _ n Hn); rewrite list_lookup_fmap; [by rewrite Hl, <-Hln|by rewrite Hj]).
      rewrite Hl in Hj. by injection Hj as ->.
    - apply list_find_None in E. rewrite Forall_forall in E. by destruct (E _ Hin). }
  split.
  - intros n v Hin. rewrite b_labels_get, R1; [by apply Hb|]. rewrite (Hb _ _ Hin). rewrite Forall_forall in Hv. by apply (Hv _ Hin).
  - intros n v E Hne'. destruct (decide (n ∈ (LabelsRange target).*1)) as [Hin|Hout].
    + destruct (R2 n v) as [k Hk]; [rewrite sort_slice_perm; by apply Hconf|]. exists (S k). by rewrite b_labels_get, Hk.
    + assert (b_Get b n = v) as Hbn.
      { unfold b. rewrite set_all_get by done. rewrite b_get_new. destruct (list_find _ _) as [[i l]|] eqn:Ef; [|done].
        apply list_find_Some in Ef as (Hl & <- & _). destruct Hout. apply list_elem_of_fmap. exists l. split; [done|]. by apply list_elem_of_lookup_2 in Hl. }
      exists 0%nat. split; [|done]. cbn. rewrite b_labels_get, R1; congruence.
Qed.
End props.

(** ** An instance *)

#[local] Existing Instance any_prom.
#[local] Existing Instance any_scrape.

(** A builder is a finite map. *)
Definition any_builder : LabelsBuilder := {|
  Builder := gmap string string; NewBuilder ls := list_to_map ls; b_Set b n v := <[n := v]> b; b_Del b n := delete n b;
  b_Get b n := default "" (b !! n); b_Range b := map_to_list (filter (λ kv : string * string, kv.2 ≠ "") b); b_Labels := map_labels;
  Labels_IsValid _ _ := true; HasDuplicateLabelNames _ := None; WithoutEmpty ls := filter (λ l, l.2 ≠ "") ls;
  HashWithoutLabels ls names := Z.pos (encode (filter (λ l, l.1 ∉ names) ls)) |}.
#[local] Existing Instance any_builder.

Lemma Labels_Get_map (ls : Labels) (m : gmap string string) n :
  NoDup ls.*1 → (∀ k v, (k, v) ∈ ls ↔ m !! k = Some v ∧ v ≠ "") → Labels_Get ls n = default "" (m !! n).
Proof.
  intros Hn Hm. unfold Labels_Get. destruct (list_find _ ls) as [[i [k v]]|] eqn:E.
  - apply list_find_Some in E as (Hl & Hk & _). cbn in Hk. subst k. apply list_elem_of_lookup_2, Hm in Hl as [-> _]. done.
  - apply list_find_None in E. rewrite Forall_forall in E. destruct (m !! n) as [v|] eqn:Ev; [|done]. cbn.
    destruct (decide (v = "")) as [|Hv]; [done|]. destruct (E (n, v)); [by apply Hm|done].
Qed.
Lemma any_builder_laws : BuilderLaws (LB := any_builder).
Proof.
  split.
  - intros ls n. cbn. unfold Labels_Get. induction ls as [|[k v] ls IH]; [done|]. cbn [list_find list_to_map foldr fst snd].
    destruct (decide (k = n)) as [->|Hne]; [by rewrite lookup_insert_eq|].
    rewrite lookup_insert_ne by done. rewrite IH. by destruct (list_find _ ls) as [[i l]|].
  - intros b n v m. cbn. rewrite lookup_insert. by repeat case_decide.
  - intros b n m. cbn. rewrite lookup_delete. by repeat case_decide.
  - intros b n. cbn. apply Labels_Get_map.
    + unfold map_labels. rewrite sort_slice_perm. apply NoDup_fst_map_to_list.
    + intros k v. unfold map_labels. rewrite sort_slice_perm, elem_of_map_to_list, map_lookup_filter_Some. done.
  - intros b n v. cbn. rewrite elem_of_map_to_list, map_lookup_filter_Some. cbn. split.
    + intros [-> ?]. done.
    + intros [Hv E]. change (b : Builder) with (b : gmap string string) in E. destruct ((b : gmap string string) !! n) as [w|]; cbn in E; by subst.
Qed.
#[local] Existing Instance any_builder_laws.
Definition any_range : GoRange := {| go_range K V _ _ m := map_to_list m; go_range_perm K V _ _ m := reflexivity _ |}.
#[local] Existing Instance any_range.
Definition any_target : TargetLibrary := {|
  ScrapeIntervalLabel := "__scrape_interval__"; ScrapeTimeoutLabel := "__scrape_timeout__"; ParamLabelPrefix := "__param_";
  ReservedLabelPrefix := "__"; MetaLabelPrefix := "__meta_"; ExportedLabelPrefix := "exported_";
  ParseDuration _ := Ok 1000000000; Duration_String := FormatInt; ProcessBuilder _ b := (b, true);
  values_Encode _ := ""; URL_String scheme host path _ := scheme +:+ "://" +:+ host +:+ path |}.
#[local] Existing Instance any_target.

Definition server : Target := NewTarget [("__address__", "host:80"); ("job", "server")] (scrape_job "server") ∅ ∅.

Lemma sample_labels_resolved_witness :
  let lset := [("__name__", "x"); ("exported_job", "a"); ("job", "b")] in
  mutateSampleLabels lset server false []
  = [("__name__", "x"); ("exported_exported_job", "b"); ("exported_job", "a"); ("job", "server")]
  ∧ (∃ k, Labels_Get (mutateSampleLabels lset server false []) (exported k "job") = "b" ∧ (k = 0%nat ↔ "job" ∉ ["job"])).
Proof.
  intros lset. split; [vm_compute; reflexivity|]. destruct (sample_labels_resolved lset server) as [_ H]; [done|done| | |].
  - vm_compute. repeat constructor. by intros ?%elem_of_nil.
  - vm_compute. repeat constructor. done.
  - apply (H "job" "b"); [reflexivity|done].
Defined.
