(* ===== verification/ScrapeDiscovery.v ===== *)
(** * Service discovery of the Prometheus receiver

    src/receiver/prometheusreceiver/internal/scrapediscovery: the manager (manager.go), which runs
    the discoverers of the jobs and passes on what they find, the configurations of a job
    (config.go) and its two mechanisms, files and HTTP (providers.go). The manager knows
    configurations and discoverers by an interface only, as in the code. A discoverer runs in a
    goroutine; a step of the manager holds its locks, so that steps do not overlap. *)
From S2P Require Import Prelude GoText PromFamily ScrapeConfig PromTarget.

(** The interfaces [Config] and [Discoverer]: what a discoverer may send at some time. *)
Class Mechanism (Config Discoverer : Type) := {
  Config_Name : Config → string; NewDiscoverer : Config → result string Discoverer; may_send : Discoverer → list target_group → Prop }.

Module Manager.
Section manager.
Context {Config Discoverer : Type} `{ME : !Mechanism Config Discoverer} `{GR : GoRange}.

Abbreviation update := (gmap string (list target_group)).
(** Contexts have numbers; those in [m_cancelled] were cancelled, and all are when [m_done]. The
    channel holds one update at most. *)
Record manager := {
  m_done : bool; m_syncCh : list update; m_providers : gmap string Z; m_targets : gmap string (gmap string (list target_group));
  m_providerOrder : gmap string (list string); m_generation : Z; m_contexts : Z; m_cancelled : gset Z }.
(** [ps_index] is the position among the configurations of the job, which is in the name. *)
Record providerSpec := { ps_jobName : string; ps_index : nat; ps_providerName : string; ps_discoverer : Discoverer; ps_ctx : Z }.

Definition NewManager : manager :=
  {| m_done := false; m_syncCh := []; m_providers := ∅; m_targets := ∅; m_providerOrder := ∅; m_generation := 0; m_contexts := 0;
     m_cancelled := ∅ |}.
Definition ctx_done (m : manager) (ctx : Z) : bool := m_done m || bool_decide (ctx ∈ m_cancelled m).

(** ** Updates *)

Definition allTargets (m : manager) : update :=
  map_imap (λ jobName providerNames,
    match providerNames with
    | [] => None
    | _ => Some (providerNames ≫= λ providerName, default [] (default ∅ (m_targets m !! jobName) !! providerName))
    end) (m_providerOrder m).
Definition with_syncCh (m : manager) (ch : list update) : manager :=
  {| m_done := m_done m; m_syncCh := ch; m_providers := m_providers m; m_targets := m_targets m; m_providerOrder := m_providerOrder m;
     m_generation := m_generation m; m_contexts := m_contexts m; m_cancelled := m_cancelled m |}.
Definition clearPendingUpdate (m : manager) : manager := with_syncCh m (tail (m_syncCh m)).
(** The channel has room once it was cleared, since only the holder of the lock sends. *)
Definition sendLatestUpdate (done : bool) (m : manager) (targets : update) : manager :=
  if done then m else let m := clearPendingUpdate m in with_syncCh m (m_syncCh m ++ [targets]).

(** ** A new configuration *)

Definition providerName (jobName name : string) (index : nat) : string :=
  jobName +:+ "/" +:+ name +:+ "/" +:+ FormatInt (Z.of_nat index).
Fixpoint job_specs (jobName : string) (index : nat) (configs : list Config) : result string (list providerSpec) :=
  match configs with
  | [] => Ok []
  | discoveryConfig :: rest =>
      discoverer ← NewDiscoverer discoveryConfig;
      specs ← job_specs jobName (S index) rest;
      Ok ({| ps_jobName := jobName; ps_index := index; ps_providerName := providerName jobName (Config_Name discoveryConfig) index;
             ps_discoverer := discoverer; ps_ctx := 0 |} :: specs)
  end.
Fixpoint all_specs (jobs : list (string * list Config)) : result string (list providerSpec) :=
  match jobs with
  | [] => Ok []
  | (jobName, configs) :: rest => specs ← job_specs jobName 0 configs; others ← all_specs rest; Ok (specs ++ others)
  end.
(** The jobs by name. *)
Definition sorted_jobs (configs : gmap string (list Config)) : list (string * list Config) :=
  sort_slice (λ a b, Strings.String.ltb a.1 b.1) (go_range configs).

(** Everything stops, and nothing is found any more. *)
Definition stop_all (m : manager) : manager :=
  {| m_done := m_done m; m_syncCh := m_syncCh m; m_providers := ∅; m_targets := ∅; m_providerOrder := ∅; m_generation := m_generation m;
     m_contexts := m_contexts m; m_cancelled := m_cancelled m ∪ list_to_set (go_range (m_providers m)).*2 |}.
Definition next_generation (m : manager) : manager :=
  {| m_done := m_done m; m_syncCh := m_syncCh m; m_providers := m_providers m; m_targets := m_targets m; m_providerOrder := m_providerOrder m;
     m_generation := u64 (m_generation m + 1); m_contexts := m_contexts m; m_cancelled := m_cancelled m |}.
Definition add_spec (m : manager) (spec : providerSpec) : manager * providerSpec :=
  ({| m_done := m_done m; m_syncCh := m_syncCh m; m_providers := <[ps_providerName spec := m_contexts m]> (m_providers m);
      m_targets := m_targets m;
      m_providerOrder := <[ps_jobName spec := default [] (m_providerOrder m !! ps_jobName spec) ++ [ps_providerName spec]]> (m_providerOrder m);
      m_generation := m_generation m; m_contexts := m_contexts m + 1; m_cancelled := m_cancelled m |},
   {| ps_jobName := ps_jobName spec; ps_index := ps_index spec; ps_providerName := ps_providerName spec; ps_discoverer := ps_discoverer spec;
      ps_ctx := m_contexts m |}).
Fixpoint add_specs (m : manager) (specs : list providerSpec) : manager * list providerSpec :=
  match specs with
  | [] => (m, [])
  | spec :: rest => let '(m, spec) := add_spec m spec in let '(m, specs) := add_specs m rest in (m, spec :: specs)
  end.
(** The discoverers to run, with their generation. Nothing changes when one cannot be made. *)
Definition ApplyConfig (m : manager) (configs : gmap string (list Config)) : result string (manager * list (providerSpec * Z)) :=
  providerSpecs ← all_specs (sorted_jobs configs);
  let m := next_generation (stop_all m) in
  let '(m, providerSpecs) := add_specs m providerSpecs in
  Ok (sendLatestUpdate (m_done m) m (allTargets m), (λ spec, (spec, m_generation m)) <$> providerSpecs).

(** What a discoverer found; it goes on if it is of the current generation. *)
Definition runDiscoverer (m : manager) (spec : providerSpec) (generation : Z) (groups : list target_group) : manager * bool :=
  if negb (m_generation m =? generation) then (m, false)
  else
    let found := <[ps_providerName spec := groups]> (default ∅ (m_targets m !! ps_jobName spec)) in
    let m := {| m_done := m_done m; m_syncCh := m_syncCh m; m_providers := m_providers m;
                m_targets := <[ps_jobName spec := found]> (m_targets m); m_providerOrder := m_providerOrder m;
                m_generation := m_generation m; m_contexts := m_contexts m; m_cancelled := m_cancelled m |} in
    (sendLatestUpdate (ctx_done m (ps_ctx spec)) m (allTargets m), true).

(** The end of [Run], when the context of the manager was cancelled. *)
Definition Run_end (m : manager) : manager := stop_all m.
Definition cancel_manager (m : manager) : manager :=
  {| m_done := true; m_syncCh := m_syncCh m; m_providers := m_providers m; m_targets := m_targets m; m_providerOrder := m_providerOrder m;
     m_generation := m_generation m; m_contexts := m_contexts m; m_cancelled := m_cancelled m |}.

(** ** The manager and its discoverers *)

(** A running discoverer, with the number of the call that started it. *)
Record process := { p_apply : nat; p_spec : providerSpec; p_generation : Z }.
Record system := { s_manager : manager; s_running : list process; s_received : list update }.

Inductive event :=
| Applied (configs : gmap string (list Config)) | Refused (configs : gmap string (list Config))
| Found (apply : nat) (jobName : string) (index : nat) (groups : list target_group) | Ended | Received (u : update) | Cancelled | Finished.
Definition applied (e : event) : bool := match e with Applied _ => true | _ => false end.
Definition applies (log : list event) : nat := length (filter (λ e, applied e = true) log).

(** The steps that may follow a log. *)
Inductive step (log : list event) : system → event → system → Prop :=
| step_apply m ps rs configs m' started :
    ApplyConfig m configs = Ok (m', started) →
    step log {| s_manager := m; s_running := ps; s_received := rs |} (Applied configs)
         {| s_manager := m'; s_received := rs;
            s_running := ps ++ ((λ s, {| p_apply := S (applies log); p_spec := s.1; p_generation := s.2 |}) <$> started) |}
| step_refuse m ps rs configs err :
    ApplyConfig m configs = Err err →
    step log {| s_manager := m; s_running := ps; s_received := rs |} (Refused configs)
         {| s_manager := m; s_running := ps; s_received := rs |}
| step_found m l p r rs groups m' goes_on :
    may_send (ps_discoverer (p_spec p)) groups → runDiscoverer m (p_spec p) (p_generation p) groups = (m', goes_on) →
    step log {| s_manager := m; s_running := l ++ p :: r; s_received := rs |}
         (Found (p_apply p) (ps_jobName (p_spec p)) (ps_index (p_spec p)) groups)
         {| s_manager := m'; s_running := l ++ (if goes_on then [p] else []) ++ r; s_received := rs |}
| step_ended m l p r rs :
    ctx_done m (ps_ctx (p_spec p)) = true →
    step log {| s_manager := m; s_running := l ++ p :: r; s_received := rs |} Ended
         {| s_manager := m; s_running := l ++ r; s_received := rs |}
| step_receive m ps rs u ch :
    m_syncCh m = u :: ch →
    step log {| s_manager := m; s_running := ps; s_received := rs |} (Received u)
         {| s_manager := with_syncCh m ch; s_running := ps; s_received := rs ++ [u] |}
| step_cancel m ps rs :
    step log {| s_manager := m; s_running := ps; s_received := rs |} Cancelled
         {| s_manager := cancel_manager m; s_running := ps; s_received := rs |}
| step_finish m ps rs :
    m_done m = true →
    step log {| s_manager := m; s_running := ps; s_received := rs |} Finished
         {| s_manager := Run_end m; s_running := ps; s_received := rs |}.
Inductive runs : list event → system → Prop :=
| runs_new : runs [] {| s_manager := NewManager; s_running := []; s_received := [] |}
| runs_step log s e s' : runs log s → step log s e s' → runs (log ++ [e]) s'.
End manager.
End Manager.

(** ** The configurations of a job (config.go, providers.go) *)

Record http_response := { hr_StatusCode : Z; hr_Status : string; hr_ContentType : string; hr_Body : string }.
(** The files and servers at some time. *)
Record world `{SL : ScrapeLibrary} := {
  w_Glob : string → result string (list string); w_ReadFile : string → result string string;
  w_Get : HTTPClientConfig → string → result string http_response }.

(** The patterns of providers.go, net/url, the HTTP client of prometheus/common, and the decoders of
    lists of groups, where an entry may be null. *)
Class DiscoveryLibrary `{SL : ScrapeLibrary} := {
  filePathPattern : string → bool; httpContentTypePattern : string → bool; url_Parse : string → result string (string * string);
  NewClientFromConfig : HTTPClientConfig → option string;
  json_Unmarshal : string → result string (list (option target_group)); json_Decode : string → result string (list (option target_group));
  yaml_UnmarshalStrict : string → result string (list (option target_group)) }.

Module Providers.
Section providers.
Context `{TL : TargetLibrary} `{DL : !DiscoveryLibrary}.

(** The groups of a source, by their position, with a label for it. *)
Fixpoint number_groups (source name : string) (index : nat) (groups : list (option target_group)) : result string (list target_group) :=
  match groups with
  | [] => Ok []
  | None :: _ => Err "nil target group item found"
  | Some group :: rest =>
      numbered ← number_groups source name (S index) rest;
      Ok ({| tg_Source := source +:+ ":" +:+ FormatInt (Z.of_nat index); tg_Targets := tg_Targets group;
             tg_Labels := <[MetaLabelPrefix +:+ name := source]> (tg_Labels group) |} :: numbered)
  end.

(** *** Files *)

Record FileConfig := { fc_Files : list string; fc_RefreshInterval : Z }.
Definition File_SetDirectory (dir : string) (c : FileConfig) : FileConfig :=
  {| fc_Files := JoinDir dir <$> fc_Files c; fc_RefreshInterval := fc_RefreshInterval c |}.
Definition no_files : string := "file service discovery config must contain at least one path name".
(** What is decoded into a configuration with the default interval. *)
Definition File_UnmarshalYAML (unmarshal : FileConfig → result string FileConfig) : result string FileConfig :=
  c ← unmarshal {| fc_Files := []; fc_RefreshInterval := 5 * minute |};
  match fc_Files c with
  | [] => Err no_files
  | _ =>
      match list_find (λ file, filePathPattern file = false) (fc_Files c) with
      | Some (_, file) => Err ("path name " +:+ Quote file +:+ " is not valid for file discovery")
      | None => Ok c
      end
  end.
Fixpoint glob_all (w : world) (patterns : list string) : result string (list string) :=
  match patterns with
  | [] => Ok []
  | pattern :: rest => matches ← w_Glob w pattern; files ← glob_all w rest; Ok (matches ++ files)
  end.
Fixpoint load_files (w : world) (files : list string) : result string (list target_group) :=
  match files with
  | [] => Ok []
  | file :: rest =>
      content ← w_ReadFile w file;
      loaded ← (if has_suffix file ".json" || has_suffix file ".JSON" then json_Unmarshal content else yaml_UnmarshalStrict content);
      numbered ← number_groups file "filepath" 0 loaded;
      groups ← load_files w rest;
      Ok (numbered ++ groups)
  end.
Definition File_load (c : FileConfig) (w : world) : result string (list target_group) :=
  files ← glob_all w (fc_Files c); load_files w (sort_slice Strings.String.ltb files).

(** *** HTTP *)

Record HTTPConfig := { hc_HTTPClientConfig : HTTPClientConfig; hc_RefreshInterval : Z; hc_URL : string }.
Definition HTTP_dir (dir : string) (c : HTTPConfig) : HTTPConfig :=
  {| hc_HTTPClientConfig := HTTP_SetDirectory dir (hc_HTTPClientConfig c); hc_RefreshInterval := hc_RefreshInterval c; hc_URL := hc_URL c |}.
Definition check_http (c : HTTPConfig) : option string :=
  if bool_decide (hc_URL c = "") then Some "URL is missing"
  else
    match url_Parse (hc_URL c) with
    | Err err => Some err
    | Ok (scheme, host) =>
        if bool_decide (scheme ≠ "http") && bool_decide (scheme ≠ "https") then Some "URL scheme must be 'http' or 'https'"
        else if bool_decide (host = "") then Some "host is missing in URL"
        else HTTP_Validate (hc_HTTPClientConfig c)
    end.
Definition HTTP_UnmarshalYAML (unmarshal : HTTPConfig → result string HTTPConfig) : result string HTTPConfig :=
  c ← unmarshal {| hc_HTTPClientConfig := DefaultHTTPClientConfig; hc_RefreshInterval := minute; hc_URL := "" |};
  match check_http c with Some err => Err err | None => Ok c end.
Definition HTTP_load (c : HTTPConfig) (w : world) : result string (list target_group) :=
  response ← w_Get w (hc_HTTPClientConfig c) (hc_URL c);
  if negb (hr_StatusCode response =? 200) then Err (hr_Status response)
  else if negb (httpContentTypePattern (TrimSpace (hr_ContentType response)))
  then Err ("unsupported content type " +:+ Quote (hr_ContentType response))
  else groups ← json_Decode (hr_Body response); number_groups (hc_URL c) "url" 0 groups.

(** *** Discoverers *)

Inductive discoverer :=
| staticDiscoverer (groups : list target_group) | pollingDiscoverer (interval : Z) (load : world → result string (list target_group)).
Inductive config := Static (groups : list target_group) | File (c : FileConfig) | HTTP (c : HTTPConfig).
Definition Name (c : config) : string := match c with Static _ => "static" | File _ => "file" | HTTP _ => "http" end.
Definition or_interval (interval default : Z) : Z := if interval =? 0 then default else interval.
Definition config_NewDiscoverer (c : config) : result string discoverer :=
  match c with
  | Static groups => Ok (staticDiscoverer groups)
  | File c =>
      match fc_Files c with
      | [] => Err no_files
      | _ => Ok (pollingDiscoverer (or_interval (fc_RefreshInterval c) (5 * minute)) (File_load c))
      end
  | HTTP c =>
      match check_http c with
      | Some err => Err err
      | None =>
          match NewClientFromConfig (hc_HTTPClientConfig c) with
          | Some err => Err err
          | None => Ok (pollingDiscoverer (or_interval (hc_RefreshInterval c) minute) (HTTP_load c))
          end
      end
  end.
(** What is sent with the files and servers as they are: nothing when they cannot be read. *)
Definition publish (d : discoverer) (w : world) : option (list target_group) :=
  match d with
  | staticDiscoverer groups => Some groups
  | pollingDiscoverer _ load => match load w with Ok groups => Some groups | Err _ => None end
  end.
#[export] Instance mechanism : Mechanism config discoverer :=
  {| Config_Name := Name; NewDiscoverer := config_NewDiscoverer; may_send d groups := ∃ w, publish d w = Some groups |}.

(** *** The fields of a job *)

(** The registered configurations by name, and the fields for them, sorted. *)
Record registry := { configNames : list string; configFields : list string }.
Definition configFieldPrefix : string := "AUTO_DISCOVERY_".
Definition registerConfig (r : registry) (yamlKey name : string) : outcome registry :=
  if bool_decide (name ∈ configNames r) then Panics
  else Done {| configNames := configNames r ++ [name];
               configFields := sort_slice Strings.String.ltb (configFields r ++ [configFieldPrefix +:+ yamlKey]) |}.
Definition RegisterConfig (r : registry) (name : string) : outcome registry := registerConfig r (name +:+ "_sd_configs") name.
Definition RegisteredConfigNames (r : registry) : list string := sort_slice Strings.String.ltb (configNames r).
Definition IsSupportedField (field : string) : bool := has_prefix field configFieldPrefix.
(** The registry that the package starts with. *)
Definition registered_configs : outcome registry :=
  r ← registerConfig {| configNames := []; configFields := [] |} "static_configs" "static"; r ← RegisterConfig r "file"; RegisterConfig r "http".

(** An entry of a field: nothing, a group, or a configuration. *)
Inductive field_item := NilItem | GroupItem (group : target_group) | ConfigItem (c : config).
Fixpoint read_items (acc : list config * list target_group) (items : list field_item) : result string (list config * list target_group) :=
  match items with
  | [] => Ok acc
  | NilItem :: _ => Err "empty or null discovery config"
  | GroupItem group :: rest =>
      read_items (acc.1, acc.2 ++ [{| tg_Source := FormatInt (Z.of_nat (length acc.2)); tg_Targets := tg_Targets group; tg_Labels := tg_Labels group |}]) rest
  | ConfigItem c :: rest => read_items (acc.1 ++ [c], acc.2) rest
  end.
Definition readConfigs (fields : list (list field_item)) : result string (list config) :=
  acc ← read_items ([], []) (concat fields);
  Ok (match acc.2 with [] => acc.1 | groups => acc.1 ++ [Static groups] end).
End providers.
End Providers.
