(* ===== verification/ScrapeDiscoveryProps.v ===== *)
(** * What the receiver is told of discovered targets

    The updates of the manager of [ScrapeDiscovery] are those of a much simpler machine, which
    only notes what each discoverer of the last configuration found last. *)
From S2P Require Import Prelude GoText PromFamily ScrapeConfig ScrapeConfigProps PromTarget PromTargetProps ScrapeDiscovery.
Import Manager.

(** ** Names of providers *)

Lemma split_last {A} (c : A) (l l' x x' : list A) : c ∉ x → c ∉ x' → l ++ c :: x = l' ++ c :: x' → l = l' ∧ x = x'.
Proof.
  intros Hx Hx' E. apply (f_equal reverse) in E. rewrite !reverse_app, !reverse_cons, <-!app_assoc in E. cbn in E.
  assert (∀ y y' r r' : list A, c ∉ y → c ∉ y' → y ++ c :: r = y' ++ c :: r' → y = y' ∧ r = r') as H.
  { clear. intros y. induction y as [|a y IH]; intros [|a' y'] r r' Hy Hy' E; cbn in E.
    - by injection E as ->.
    - injection E as -> _. set_solver.
    - injection E as -> _. set_solver.
    - injection E as -> E. destruct (IH y' r r') as [-> ->]; [set_solver..|done|done]. }
  destruct (H (reverse x) (reverse x') (reverse l) (reverse l')) as [Ex El]; [by rewrite elem_of_reverse..|done|].
  split; by apply (inj reverse).
Qed.

Lemma filter_every {A} (P : A → Prop) `{!∀ x, Decision (P x)} (l : list A) : (∀ x, x ∈ l → P x) → filter P l = l.
Proof. induction l as [|x l IH]; intros Hx; [done|]. rewrite filter_cons_True by set_solver. f_equal. apply IH. set_solver. Qed.
Lemma filter_no {A} (P : A → Prop) `{!∀ x, Decision (P x)} (l : list A) : (∀ x, x ∈ l → ¬ P x) → filter P l = [].
Proof. induction l as [|x l IH]; intros Hx; [done|]. rewrite filter_cons_False by set_solver. apply IH. set_solver. Qed.

Section discovery.
Context {Config Discoverer : Type} `{ME : !Mechanism Config Discoverer} `{GR : GoRange}.
Context (no_slash : ∀ c, "/"%char ∉ bytes (Config_Name c)).

Lemma FormatInt_no_slash z : "/"%char ∉ bytes (FormatInt z).
Proof. intros H%FormatInt_bytes. by apply (bool_decide_eq_true_2 _) in H. Qed.
Lemma providerName_inj job1 job2 c1 c2 i1 i2 :
  providerName job1 (Config_Name c1) i1 = providerName job2 (Config_Name c2) i2 → job1 = job2 ∧ i1 = i2.
Proof.
  unfold providerName. intros E%(f_equal bytes). rewrite !bytes_app in E. change (bytes "/") with ["/"%char] in E.
  rewrite !(assoc_L (++)) in E. cbn in E.
  rewrite <-!(assoc_L (++)) in E. cbn in E.
  assert (∀ a b c : list ascii, a ++ "/"%char :: b ++ "/"%char :: c = (a ++ "/"%char :: b) ++ "/"%char :: c) as Ha by (intros; by rewrite <-app_assoc).
  rewrite !Ha in E. apply split_last in E as [E Ei]; [|apply FormatInt_no_slash..].
  apply split_last in E as [Ej _]; [|apply no_slash..].
  assert (∀ s t, bytes s = bytes t → s = t) as Hb by (intros s t Hst; rewrite <-(of_bytes_bytes s), <-(of_bytes_bytes t); by rewrite Hst).
  split; [by apply Hb|]. apply Hb, FormatInt_inj in Ei. lia.
Qed.

(** ** The simpler machine *)

(** The number of configurations that were applied, how many discoverers each job of the last one
    has, and what they found last. *)
Record discovered := { d_apply : nat; d_jobs : gmap string nat; d_groups : gmap (string * nat) (list target_group) }.
Definition nothing : discovered := {| d_apply := 0; d_jobs := ∅; d_groups := ∅ |}.
Definition note_event (d : discovered) (e : event (Config := Config)) : discovered :=
  match e with
  | Applied configs => {| d_apply := S (d_apply d); d_jobs := length <$> configs; d_groups := ∅ |}
  | Found n job i groups =>
      if bool_decide (n = d_apply d) then {| d_apply := d_apply d; d_jobs := d_jobs d; d_groups := <[(job, i) := groups]> (d_groups d) |} else d
  | _ => d
  end.
Definition observed (log : list event) : discovered := foldl note_event nothing log.
(** All that was found, by job, in the order of its configurations. *)
Definition view (d : discovered) : gmap string (list target_group) :=
  map_imap (λ job n, match n with 0%nat => None | _ => Some (seq 0 n ≫= λ i, default [] (d_groups d !! (job, i))) end) (d_jobs d).

(** ** The manager does the same *)

(** A configuration of a job, by its number, has the name. *)
Definition names (configs : gmap string (list Config)) (job : string) (i : nat) : string :=
  match configs !! job ≫= (λ l, l !! i) with Some c => providerName job (Config_Name c) i | None => "" end.
Definition named (configs : gmap string (list Config)) (job : string) : list string :=
  match configs !! job with Some l => names configs job <$> seq 0 (length l) | None => [] end.

Record tells (m : manager) (configs : gmap string (list Config)) (d : discovered) : Prop := {
  t_jobs : d_jobs d = length <$> configs;
  t_order : ∀ job, default [] (m_providerOrder m !! job) = named configs job;
  t_known : ∀ job, is_Some (m_providerOrder m !! job) → named configs job ≠ [];
  t_found : ∀ job i c, configs !! job ≫= (λ l, l !! i) = Some c →
    default ∅ (m_targets m !! job) !! names configs job i = d_groups d !! (job, i) }.
Lemma view_told m configs d : tells m configs d → allTargets m = view d.
Proof.
  intros [Hj Ho Hk Hf]. apply map_eq. intros job. unfold allTargets, view. rewrite !map_lookup_imap, Hj, lookup_fmap.
  specialize (Ho job). specialize (Hk job). unfold named in *. destruct (configs !! job) as [l|] eqn:El.
  - assert (∀ n, names configs job <$> seq 0 n = [] ↔ n = 0%nat) as Hn by (by intros [|n]).
    destruct (m_providerOrder m !! job) as [ns|] eqn:Em; cbn in Ho |- *.
    + subst ns. destruct l as [|c l]; [by destruct Hk|]. set (n := length (c :: l)) in *. cbn [seq n length fmap list_fmap]. f_equal.
      change (names configs job 0 :: (names configs job <$> seq 1 (length l))) with (names configs job <$> seq 0 n).
      change (0%nat :: seq 1 (length l)) with (seq 0 n).
      assert (∀ js, Forall (λ i, (i < n)%nat) js →
        (names configs job <$> js) ≫= (λ p, default [] (default ∅ (m_targets m !! job) !! p)) = js ≫= (λ i, default [] (d_groups d !! (job, i)))) as H.
      { intros js. induction 1 as [|i js Hi _ IH]; [done|]. cbn. rewrite IH. f_equal.
        destruct (lookup_lt_is_Some_2 (c :: l) i Hi) as [c' Hc]. by rewrite (Hf job i c') by (by rewrite El). }
      apply H, Forall_forall. intros i Hi%elem_of_seq. lia.
    + destruct l; [done|]. discriminate.
  - destruct (m_providerOrder m !! job) as [ns|]; [|done]. by destruct Hk.
Qed.

(** *** A new configuration *)

Definition key (sp : providerSpec (Discoverer := Discoverer)) : string * nat * string := (ps_jobName sp, ps_index sp, ps_providerName sp).
Definition job_keys (job : string) (k : nat) (configs : list Config) : list (string * nat * string) :=
  imap (λ i c, (job, (k + i)%nat, providerName job (Config_Name c) (k + i))) configs.
Lemma job_specs_keys job k configs specs : job_specs job k configs = Ok specs → key <$> specs = job_keys job k configs.
Proof.
  revert k specs. induction configs as [|c configs IH]; intros k specs; cbn [job_specs]; [by intros [= <-]|].
  intros (d & _ & (rest & E & [= <-])%result_bind_Ok)%result_bind_Ok. cbn. unfold job_keys. cbn.
  rewrite (IH _ _ E), Nat.add_0_r. f_equal. unfold job_keys. apply imap_ext. intros i c' _. cbn. by rewrite Nat.add_succ_r.
Qed.
Lemma all_specs_keys jobs specs : all_specs jobs = Ok specs → key <$> specs = jobs ≫= λ jc, job_keys jc.1 0 jc.2.
Proof.
  revert specs. induction jobs as [|[job configs] jobs IH]; intros specs; cbn [all_specs]; [by intros [= <-]|].
  intros (s1 & E1 & (s2 & E2 & [= <-])%result_bind_Ok)%result_bind_Ok. cbn. by rewrite fmap_app, (job_specs_keys _ _ _ _ E1), (IH _ E2).
Qed.
Lemma sorted_jobs_perm (configs : gmap string (list Config)) : sorted_jobs configs ≡ₚ map_to_list configs.
Proof. unfold sorted_jobs. by rewrite sort_slice_perm, go_range_perm. Qed.
Lemma sorted_jobs_map (configs : gmap string (list Config)) : list_to_map (sorted_jobs configs) = configs.
Proof.
  rewrite <-(list_to_map_to_list configs) at 2. apply list_to_map_proper; [|apply sorted_jobs_perm].
  rewrite sorted_jobs_perm. apply NoDup_fst_map_to_list.
Qed.
Lemma keys_of_job (jobs : list (string * list Config)) job :
  NoDup jobs.*1 →
  filter (λ k : string * nat * string, k.1.1 = job) (jobs ≫= λ jc, job_keys jc.1 0 jc.2)
    = match (list_to_map jobs : gmap string (list Config)) !! job with Some l => job_keys job 0 l | None => [] end.
Proof.
  induction jobs as [|[j l] jobs IH]; [done|]. cbn. intros [Hj Hd]%NoDup_cons. rewrite filter_app, (IH Hd).
  assert (∀ k, k ∈ job_keys j 0 l → k.1.1 = j) as Hk by (by intros k (i & c & -> & _)%elem_of_lookup_imap).
  destruct (decide (j = job)) as [->|Hne].
  - rewrite lookup_insert_eq, not_elem_of_list_to_map_1, app_nil_r by done. by apply filter_every.
  - rewrite lookup_insert_ne by done. rewrite filter_no; [done|]. intros k Hin. by rewrite (Hk k Hin).
Qed.
Lemma names_of_keys configs job l :
  configs !! job = Some l → (job_keys job 0 l).*2 = names configs job <$> seq 0 (length l).
Proof.
  intros El. unfold job_keys. rewrite <-(imap_seq_0 l (names configs job)), fmap_imap. apply imap_ext. intros i c Ec. cbn. unfold names. by rewrite El; cbn; rewrite Ec.
Qed.
(** The names of the configurations of a job, in order. *)
Lemma sorted_names configs specs job :
  all_specs (sorted_jobs configs) = Ok specs → (filter (λ k : string * nat * string, k.1.1 = job) (key <$> specs)).*2 = named configs job.
Proof.
  intros ->%all_specs_keys. rewrite keys_of_job by (rewrite sorted_jobs_perm; apply NoDup_fst_map_to_list). rewrite sorted_jobs_map. unfold named.
  destruct (configs !! job) as [l|] eqn:El; [|done]. by apply names_of_keys.
Qed.
Lemma sorted_specs configs specs sp :
  all_specs (sorted_jobs configs) = Ok specs → sp ∈ specs →
  ∃ c, configs !! ps_jobName sp ≫= (λ l, l !! ps_index sp) = Some c ∧ ps_providerName sp = providerName (ps_jobName sp) (Config_Name c) (ps_index sp).
Proof.
  intros E%all_specs_keys Hin. assert (key sp ∈ key <$> specs) as Hk by (apply list_elem_of_fmap; by exists sp).
  rewrite E in Hk. apply list_elem_of_bind in Hk as ([job l] & (i & c & Ek & Ec)%elem_of_lookup_imap & Hl). cbn in *.
  unfold key in Ek. injection Ek as -> -> ->. exists c. split; [|done]. rewrite sorted_jobs_perm, elem_of_map_to_list in Hl. by rewrite Hl.
Qed.
Lemma specs_distinct configs specs : all_specs (sorted_jobs configs) = Ok specs → NoDup (ps_providerName <$> specs).
Proof.
  intros E. assert (NoDup (key <$> specs)) as Hk.
  { rewrite (all_specs_keys _ _ E). apply NoDup_bind.
    - intros [j1 l1] [j2 l2] k H1 H2 (i1 & c1 & -> & E1)%elem_of_lookup_imap (i2 & c2 & Ek & E2)%elem_of_lookup_imap. cbn in *.
      rewrite sorted_jobs_perm, elem_of_map_to_list in H1, H2. injection Ek as -> -> _. by simplify_eq.
    - intros [j l] _. cbn. unfold job_keys. apply NoDup_alt. intros i1 i2 k. rewrite !list_lookup_imap, !fmap_Some.
      intros (c1 & _ & ->) (c2 & _ & Ek). injection Ek. lia.
    - rewrite sorted_jobs_perm. apply NoDup_map_to_list. }
  change (ps_providerName <$> specs) with ((snd ∘ key) <$> specs). rewrite list_fmap_compose. apply NoDup_fmap_2_strong; [|done].
  intros k1 k2 (sp1 & -> & H1)%list_elem_of_fmap (sp2 & -> & H2)%list_elem_of_fmap. unfold key. cbn.
  destruct (sorted_specs _ _ _ E H1) as (c1 & _ & E1), (sorted_specs _ _ _ E H2) as (c2 & _ & E2). intros En. rewrite E1, E2 in En.
  destruct (providerName_inj _ _ _ _ _ _ En) as [Ej Ei]. by rewrite E1, E2, En, Ej, Ei.
Qed.

(** *** Contexts *)

Definition named_spec (spec : providerSpec (Discoverer := Discoverer)) (ctx : Z) : providerSpec :=
  {| ps_jobName := ps_jobName spec; ps_index := ps_index spec; ps_providerName := ps_providerName spec; ps_discoverer := ps_discoverer spec;
     ps_ctx := ctx |}.
(** What the specs of a configuration add. *)
Record added (m : manager) (specs : list providerSpec) (m' : manager) (specs' : list (providerSpec (Discoverer := Discoverer))) : Prop := {
  a_keys : key <$> specs' = key <$> specs;
  a_order : ∀ job, default [] (m_providerOrder m' !! job)
    = default [] (m_providerOrder m !! job) ++ (filter (λ k : string * nat * string, k.1.1 = job) (key <$> specs)).*2;
  a_some : ∀ job, is_Some (m_providerOrder m' !! job) → is_Some (m_providerOrder m !! job) ∨ default [] (m_providerOrder m' !! job) ≠ [];
  a_same : (m_done m', m_syncCh m', m_targets m', m_generation m', m_cancelled m') = (m_done m, m_syncCh m, m_targets m, m_generation m, m_cancelled m);
  a_ctx : Forall (λ sp, m_contexts m ≤ ps_ctx sp < m_contexts m' ∧ m_providers m' !! ps_providerName sp = Some (ps_ctx sp)) specs';
  a_old : ∀ n, n ∉ ps_providerName <$> specs → m_providers m' !! n = m_providers m !! n;
  a_next : m_contexts m ≤ m_contexts m';
  a_range : ∀ n c, m_providers m' !! n = Some c → m_providers m !! n = Some c ∨ c < m_contexts m' }.
Lemma add_specs_added m specs : NoDup (ps_providerName <$> specs) → added m specs (add_specs m specs).1 (add_specs m specs).2.
Proof.
  revert m. induction specs as [|sp specs IH]; intros m Hd.
  - split; [done|intros job; by rewrite app_nil_r|by left|done|by constructor|done|by cbn|by left].
  - cbn in Hd. apply NoDup_cons in Hd as [Hn Hd]. cbn [add_specs add_spec]. set (m1 := Build_manager _ _ _ _ _ _ _ _).
    specialize (IH m1 Hd). destruct (add_specs m1 specs) as [m' specs']. cbn [fst snd] in *. destruct IH as [Ik Io Is Isame Ic Iold In Ir].
    assert (m_contexts m1 = m_contexts m + 1) as E1 by done.
    split; [by cbn; rewrite Ik| | |done| | |lia|].
    + intros job. rewrite Io. cbn [m_providerOrder m1 fmap list_fmap]. rewrite filter_cons. cbn [key fst snd].
      destruct (decide (ps_jobName sp = job)) as [<-|Hne]; [|by rewrite lookup_insert_ne].
      by rewrite lookup_insert_eq; cbn; rewrite <-app_assoc.
    + intros job Hs. destruct (Is job Hs) as [Hs1|]; [|by right]. cbn [m_providerOrder m1] in Hs1.
      destruct (decide (ps_jobName sp = job)) as [<-|Hne]; [|left; by rewrite lookup_insert_ne in Hs1]. right. rewrite Io. cbn.
      rewrite lookup_insert_eq. cbn. intros E%(f_equal length). rewrite !length_app in E. cbn in E. lia.
    + constructor; cbn.
      * split; [lia|]. rewrite Iold by done. by cbn; rewrite lookup_insert_eq.
      * eapply Forall_impl; [exact Ic|]. cbn. intros x [? ?]. split; [lia|done].
    + intros n Hnot. cbn in Hnot. rewrite Iold by set_solver. cbn. rewrite lookup_insert_ne; [done|]. set_solver.
    + intros n c Hc. destruct (Ir n c Hc) as [H|]; [|by right]. cbn in H. destruct (decide (ps_providerName sp = n)) as [<-|Hne].
      * rewrite lookup_insert_eq in H. injection H as <-. right. lia.
      * rewrite lookup_insert_ne in H by done. by left.
Qed.

(** *** Every step *)

Record proc_ok (m : manager) (configs : gmap string (list Config)) (n : nat) (p : process (Discoverer := Discoverer)) : Prop := {
  po_apply : (0 < p_apply p ≤ n)%nat;
  po_generation : p_generation p = u64 (Z.of_nat (p_apply p));
  po_current : p_apply p = n →
    (∃ c, configs !! ps_jobName (p_spec p) ≫= (λ l, l !! ps_index (p_spec p)) = Some c)
    ∧ ps_providerName (p_spec p) = names configs (ps_jobName (p_spec p)) (ps_index (p_spec p))
    ∧ m_providers m !! ps_providerName (p_spec p) = Some (ps_ctx (p_spec p)) ∧ ps_ctx (p_spec p) ∉ m_cancelled m;
  po_old : (p_apply p < n)%nat → ps_ctx (p_spec p) ∈ m_cancelled m }.
Record contexts_ok (m : manager) : Prop := {
  c_known : ∀ n c, m_providers m !! n = Some c → c < m_contexts m; c_cancelled : ∀ c, c ∈ m_cancelled m → c < m_contexts m }.
Definition updates_sent (log : list (event (Config := Config))) (updates : list (gmap string (list target_group))) : Prop :=
  last updates = (if (applies log =? 0)%nat then None else Some (view (observed log)))
  ∧ ∀ u, u ∈ updates → ∃ log', log' `prefix_of` log ∧ u = view (observed log').
Record told (log : list event) (s : system (Discoverer := Discoverer)) : Prop := {
  o_done : m_done (s_manager s) = false; o_generation : m_generation (s_manager s) = u64 (Z.of_nat (applies log));
  o_tells : ∃ configs, tells (s_manager s) configs (observed log) ∧ Forall (proc_ok (s_manager s) configs (applies log)) (s_running s);
  o_ctx : contexts_ok (s_manager s); o_one : (length (m_syncCh (s_manager s)) ≤ 1)%nat;
  o_sent : updates_sent log (s_received s ++ m_syncCh (s_manager s)) }.

Lemma applies_snoc log e : applies (Config := Config) (log ++ [e]) = (applies log + if applied e then 1 else 0)%nat.
Proof. unfold applies. rewrite filter_app, length_app. by destruct e. Qed.
Lemma observed_snoc log e : observed (log ++ [e]) = note_event (observed log) e.
Proof. unfold observed. by rewrite foldl_app. Qed.
Lemma d_apply_observed log : d_apply (observed log) = applies log.
Proof.
  induction log as [|e log IH] using rev_ind; [done|]. rewrite observed_snoc, applies_snoc, <-IH.
  destruct e; cbn; try lia. case_bool_decide; cbn; lia.
Qed.
Lemma send_told log e m m' targets received :
  (length (m_syncCh m) ≤ 1)%nat → updates_sent log (received ++ m_syncCh m) → applies (log ++ [e]) ≠ 0%nat → targets = view (observed (log ++ [e])) →
  m' = sendLatestUpdate false m targets → (length (m_syncCh m') ≤ 1)%nat ∧ updates_sent (log ++ [e]) (received ++ m_syncCh m').
Proof.
  intros Hl [_ Ht] Ha -> ->. cbn. assert (tail (m_syncCh m) = []) as -> by (destruct (m_syncCh m) as [|? [|]]; [done|done|cbn in Hl; lia]).
  cbn. split; [lia|]. split; [rewrite last_snoc; by case_match eqn:E; [apply Nat.eqb_eq in E|]|].
  intros u [Hu| ->%list_elem_of_singleton]%elem_of_app; [|by exists (log ++ [e])].
  destruct (Ht u) as (log' & Hp & ->); [set_solver|]. exists log'. split; [by apply prefix_app_r|done].
Qed.
(** A step that neither applies a configuration nor finds anything. *)
Lemma sent_same log e updates :
  applied e = false → note_event (observed log) e = observed log → updates_sent log updates → updates_sent (log ++ [e]) updates.
Proof.
  intros He Ho [Hl Ht]. split.
  - rewrite Hl, applies_snoc, observed_snoc, He, Nat.add_0_r, Ho. done.
  - intros u Hu. destruct (Ht u Hu) as (log' & Hp & ->). exists log'. split; [by apply prefix_app_r|done].
Qed.
Lemma told_same log e s s' :
  told log s → applied e = false → note_event (observed log) e = observed log → s_manager s' = with_syncCh (s_manager s) (m_syncCh (s_manager s')) →
  s_running s' ⊆ s_running s → (length (m_syncCh (s_manager s')) ≤ 1)%nat →
  s_received s' ++ m_syncCh (s_manager s') = s_received s ++ m_syncCh (s_manager s) → told (log ++ [e]) s'.
Proof.
  intros [Hd Hg (configs & Ht & Hp) Hc _ Hs] He Ho Em Hr Hl Eu.
  assert (applies (log ++ [e]) = applies log) as Ea by (rewrite applies_snoc, He; lia).
  split; [by rewrite Em|by rewrite Em, Ea| |by rewrite Em; destruct Hc|done|rewrite Eu; by apply sent_same].
  exists configs. rewrite observed_snoc, Ho, Ea. split; [rewrite Em; by destruct Ht|]. rewrite Forall_forall in Hp |- *.
  intros p Hin. destruct (Hp p (Hr p Hin)) as [? ? ? ?]. rewrite Em. by split.
Qed.

Lemma u64_count_inj a b : Z.of_nat a < two64 → Z.of_nat b < two64 → u64 (Z.of_nat a) = u64 (Z.of_nat b) → a = b.
Proof. intros Ha Hb. rewrite !u64_small by lia. lia. Qed.
Lemma apply_told log m ps rs configs m' started :
  told log {| s_manager := m; s_running := ps; s_received := rs |} → ApplyConfig m configs = Ok (m', started) →
  told (log ++ [Applied configs])
    {| s_manager := m'; s_received := rs;
       s_running := ps ++ ((λ s, {| p_apply := S (applies log); p_spec := s.1; p_generation := s.2 |}) <$> started) |}.
Proof.
  intros [Hd Hg (configs0 & Ht & Hp) [Hck Hcc] Hl Hs] (specs & E & Ea)%result_bind_Ok. cbn in Hd, Hg, Ht, Hp, Hck, Hcc, Hl, Hs.
  pose proof (specs_distinct _ _ E) as Hdist. pose proof (add_specs_added (next_generation (stop_all m)) specs Hdist) as Hadd.
  cbv zeta in Ea. destruct (add_specs _ specs) as [m1 specs']. injection Ea as <- <-. cbn [fst snd] in Hadd.
  destruct Hadd as [Ak Ao As Asame Ac Aold An Ar]. injection Asame as Ed Ech Et Eg Ecan. cbn in Ed, Ech, Et, Eg, Ecan, An.
  assert (applies (log ++ [Applied configs]) = S (applies log)) as Ha by (rewrite applies_snoc; cbn; lia).
  assert (tells m1 configs (observed (log ++ [Applied configs]))) as Htells.
  { rewrite observed_snoc. split; cbn [note_event d_jobs d_groups]; [done| | |].
    - intros job. rewrite Ao. cbn. rewrite lookup_empty. cbn. by apply sorted_names.
    - intros job Hj. destruct (As job Hj) as [H|H]; [cbn in H; by rewrite lookup_empty in H; destruct H|].
      rewrite Ao in H. cbn in H. rewrite lookup_empty in H. cbn in H. by rewrite (sorted_names _ _ _ E) in H.
    - intros job j c _. by rewrite Et, !lookup_empty. }
  rewrite Ed, Hd. destruct (send_told log (Applied configs) m1 (sendLatestUpdate false m1 (allTargets m1)) (allTargets m1) rs) as [Hl' Hs'];
    [by rewrite Ech|by rewrite Ech|by rewrite Ha|by eapply view_told|done|].
  split; cbn [s_manager s_running s_received]; [by cbn; rewrite Ed| | | |done|done].
  - cbn. rewrite Eg, Ha, Hg. unfold u64. rewrite Zplus_mod_idemp_l. f_equal. lia.
  - exists configs. split; [by destruct Htells|]. rewrite Ha. apply Forall_app. split.
    + eapply Forall_impl; [exact Hp|]. intros p [P1 P2 P3 P4]. split; [lia|done|lia|]. intros _. cbn. rewrite Ecan. apply elem_of_union.
      destruct (decide (p_apply p = applies log)) as [Eq|Hne]; [|left; apply P4; lia]. right. destruct (P3 Eq) as (_ & _ & Hin & _).
      apply elem_of_list_to_set, list_elem_of_fmap. exists (ps_providerName (p_spec p), ps_ctx (p_spec p)). split; [done|].
      by rewrite go_range_perm, elem_of_map_to_list.
    + rewrite Forall_fmap, Forall_fmap. apply Forall_forall. intros sp Hin. cbn. rewrite Forall_forall in Ac. destruct (Ac sp Hin) as [Hrange Hprov]. cbn in Hrange.
      split; cbn; [lia| | |lia].
      * rewrite Eg, Hg. unfold u64. rewrite Zplus_mod_idemp_l. f_equal. lia.
      * intros _. assert (key sp ∈ key <$> specs) as Hk by (rewrite <-Ak; apply list_elem_of_fmap; by exists sp).
        apply list_elem_of_fmap in Hk as (sp0 & Ek & Hin0). unfold key in Ek. injection Ek as Ej Ei En.
        destruct (sorted_specs _ _ _ E Hin0) as (c & Ec & Enm). rewrite Ej, Ei, En. split; [by exists c|]. split.
        -- unfold names. by rewrite Ec.
        -- rewrite <-En. split; [done|]. rewrite Ecan. intros [Hbad|Hbad]%elem_of_union; [apply Hcc in Hbad; lia|].
           apply elem_of_list_to_set, list_elem_of_fmap in Hbad as ([n x] & Ex & Hin2). rewrite go_range_perm, elem_of_map_to_list in Hin2.
           apply Hck in Hin2. cbn in Ex. lia.
  - split; cbn.
    + intros n c Hc. destruct (Ar n c Hc) as [H|]; [|done]. cbn in H. by rewrite lookup_empty in H.
    + intros c. rewrite Ecan. intros [Hin|Hin]%elem_of_union; [apply Hcc in Hin; lia|].
      apply elem_of_list_to_set, list_elem_of_fmap in Hin as ([n x] & -> & Hin2). rewrite go_range_perm, elem_of_map_to_list in Hin2.
      apply Hck in Hin2. cbn. lia.
Qed.
Lemma found_told log m l p r rs groups m' goes_on :
  Z.of_nat (applies log) < two64 → told log {| s_manager := m; s_running := l ++ p :: r; s_received := rs |} →
  runDiscoverer m (p_spec p) (p_generation p) groups = (m', goes_on) →
  told (log ++ [Found (p_apply p) (ps_jobName (p_spec p)) (ps_index (p_spec p)) groups])
    {| s_manager := m'; s_running := l ++ (if goes_on then [p] else []) ++ r; s_received := rs |}.
Proof.
  intros Hlt Htold. pose proof Htold as [Hd Hg (configs & Ht & Hp) Hc Hl Hs]. cbn in Hd, Hg, Ht, Hp, Hc, Hl, Hs.
  pose proof Hp as [_ [[P1 P2 P3 P4] _]%Forall_cons]%Forall_app. unfold runDiscoverer. rewrite Hg, P2.
  destruct (decide (p_apply p = applies log)) as [Eq|Hne].
  - rewrite Eq, Z.eqb_refl. intros [= <- <-]. destruct (P3 Eq) as ((c & Ec) & En & Hprov & Hcan).
    set (m1 := Build_manager _ _ _ _ _ _ _ _). assert (ctx_done m1 (ps_ctx (p_spec p)) = false) as ->
      by (unfold ctx_done; cbn; rewrite Hd; by apply bool_decide_eq_false_2).
    set (e := Found _ _ _ _). assert (applies (log ++ [e]) = applies log) as Ha by (rewrite applies_snoc; cbn; lia).
    assert (tells m1 configs (observed (log ++ [e]))) as Htells.
    { destruct Ht as [Tj To Tk Tf]. rewrite observed_snoc. cbn. rewrite d_apply_observed, bool_decide_eq_true_2 by done. split; [done..|]. cbn.
      intros job i c' Ec'. destruct (decide (job = ps_jobName (p_spec p))) as [->|Hnj].
      - rewrite lookup_insert_eq. cbn. destruct (decide (i = ps_index (p_spec p))) as [->|Hni].
        + by rewrite En, !lookup_insert_eq.
        + rewrite !lookup_insert_ne; [by eapply Tf|congruence|]. rewrite En. unfold names. rewrite Ec, Ec'.
          by intros [_ ?]%providerName_inj.
      - rewrite !lookup_insert_ne by congruence. by eapply Tf. }
    destruct (send_told log e m1 (sendLatestUpdate false m1 (allTargets m1)) (allTargets m1) rs) as [Hl' Hs'];
      [done|done|lia|by eapply view_told|done|].
    split; cbn [s_manager s_running s_received]; [done|by rewrite Ha| | |done|done].
    + exists configs. rewrite Ha. split; [by destruct Htells|]. eapply Forall_impl; [exact Hp|]. intros q [? ? ? ?]. by split.
    + by destruct Hc.
  - rewrite (proj2 (Z.eqb_neq _ _)) by (intros E%u64_count_inj; [done|lia..]). intros [= <- <-].
    eapply told_same; [exact Htold|done| |by destruct m| |done|done].
    + cbn. rewrite d_apply_observed, bool_decide_eq_false_2 by done. done.
    + cbn. set_solver.
Qed.

Lemma new_told : told [] {| s_manager := NewManager; s_running := []; s_received := [] |}.
Proof.
  split; [done|done| |by split|by cbn; lia|split; [done|]; intros u Hu; by apply not_elem_of_nil in Hu].
  exists ∅. split; [|by constructor]. split; [by cbn; rewrite fmap_empty|done| |done]. intros job [? Hj]. cbn in Hj. by rewrite lookup_empty in Hj.
Qed.
Lemma step_told log s e s' :
  told log s → step log s e s' → e ≠ Cancelled → Z.of_nat (applies log) < two64 → told (log ++ [e]) s'.
Proof.
  intros Ht Hs He Hlt. destruct Hs as [m ps rs configs m' started Ha|m ps rs configs err Ha|m l p r rs groups m' goes_on _ Hr|m l p r rs _|m ps rs u ch Hch| |m ps rs Hd].
  - by eapply apply_told.
  - eapply told_same; [exact Ht|done|done|by destruct m|done|apply Ht|done].
  - by eapply found_told.
  - eapply told_same; [exact Ht|done|done|by destruct m|cbn; set_solver|apply Ht|done].
  - pose proof (o_one _ _ Ht) as Hl. cbn in Hl. rewrite Hch in Hl. cbn in Hl.
    eapply told_same; [exact Ht|done|done|by destruct m|done|cbn; lia|]. cbn. by rewrite Hch, <-app_assoc.
  - done.
  - destruct Ht as [Hd' _ _ _ _ _]. cbn in Hd'. congruence.
Qed.
Lemma runs_told log s : runs log s → Cancelled ∉ log → Z.of_nat (applies log) < two64 → told log s.
Proof.
  induction 1 as [|log s e s' _ IH Hs]; intros Hno Hlt; [apply new_told|].
  rewrite applies_snoc in Hlt. eapply step_told; [apply IH; [set_solver|lia]|done|set_solver|lia].
Qed.

(** C39. While the manager of discovery runs, however its discoverers, new configurations and the
    receiver interleave, the last update that was sent tells what each discoverer of the last
    configuration found last, those of the configurations before it never show in an update again,
    every update was true when it was sent, no more than one waits, and the discoverers of an old
    configuration were told to stop, those of the last one not. *)
Theorem last_update_is_view log s :
  runs log s → Cancelled ∉ log → Z.of_nat (applies log) < two64 →
  last (s_received s ++ m_syncCh (s_manager s)) = (if (applies log =? 0)%nat then None else Some (view (observed log)))
  ∧ (∀ u, u ∈ s_received s ++ m_syncCh (s_manager s) → ∃ log', log' `prefix_of` log ∧ u = view (observed log'))
  ∧ (length (m_syncCh (s_manager s)) ≤ 1)%nat
  ∧ (∀ p, p ∈ s_running s → ctx_done (s_manager s) (ps_ctx (p_spec p)) = bool_decide (p_apply p < applies log)%nat).
Proof.
  intros Hr Hno Hlt. destruct (runs_told _ _ Hr Hno Hlt) as [Hd _ (configs & _ & Hp) _ Hl [Hs1 Hs2]].
  split; [done|]. split; [done|]. split; [done|]. intros p Hin. rewrite Forall_forall in Hp. destruct (Hp p Hin) as [P1 _ P3 P4].
  unfold ctx_done. rewrite Hd. cbn. destruct (decide (p_apply p = applies log)) as [Eq|Hne].
  - destruct (P3 Eq) as (_ & _ & _ & Hc). rewrite !bool_decide_eq_false_2; [done|lia|done].
  - rewrite !bool_decide_eq_true_2; [done|lia|]. apply P4. lia.
Qed.
End discovery.

(** ** The mechanisms *)

Import Providers.
Section providers.
Context `{TL : TargetLibrary} `{DL : !DiscoveryLibrary}.
Lemma mechanism_no_slash c : "/"%char ∉ bytes (Config_Name (Config := config) c).
Proof. destruct c; apply (bool_decide_eq_true_1 _); reflexivity. Qed.
(** The sources of the groups of a file or a server are different. *)
Lemma number_groups_sources source name k groups numbered :
  number_groups source name k groups = Ok numbered →
  tg_Source <$> numbered = (λ i, source +:+ ":" +:+ FormatInt (Z.of_nat i)) <$> seq k (length groups).
Proof.
  revert k numbered. induction groups as [|[g|] groups IH]; intros k numbered; cbn [number_groups]; [by intros [= <-]| |done].
  intros (rest & E & [= <-])%result_bind_Ok. cbn. f_equal. by apply IH.
Qed.
Lemma sources_distinct source name groups numbered : number_groups source name 0 groups = Ok numbered → NoDup (tg_Source <$> numbered).
Proof.
  intros ->%number_groups_sources. apply NoDup_fmap_2; [|apply NoDup_seq]. intros i j E.
  apply (f_equal bytes) in E. rewrite !bytes_app in E. apply app_inv_head, app_inv_head in E.
  apply (f_equal of_bytes) in E. rewrite !of_bytes_bytes in E. apply FormatInt_inj in E. lia.
Qed.
(** The fields are read in order: the configurations first, then all groups together, numbered. *)
Lemma read_items_spec items cs gs cs' gs' :
  read_items (cs, gs) items = Ok (cs', gs') →
  cs' = cs ++ omap (λ i, match i with ConfigItem c => Some c | _ => None end) items
  ∧ tg_Targets <$> gs' = (tg_Targets <$> gs) ++ omap (λ i, match i with GroupItem g => Some (tg_Targets g) | _ => None end) items
  ∧ (tg_Source <$> gs = (λ i, FormatInt (Z.of_nat i)) <$> seq 0 (length gs) → tg_Source <$> gs' = (λ i, FormatInt (Z.of_nat i)) <$> seq 0 (length gs')).
Proof.
  revert cs gs. induction items as [|[|g|c] items IH]; intros cs gs; cbn [read_items].
  - intros [= <- <-]. by rewrite !app_nil_r.
  - done.
  - intros (-> & Eg & Hn)%IH. cbn. split; [done|]. rewrite Eg, fmap_app, <-(assoc_L (++)). split; [done|]. intros Hs. apply Hn.
    rewrite length_app, seq_app, !fmap_app. f_equal. exact Hs.
  - intros (-> & Eg & Hn)%IH. cbn. by rewrite <-(assoc_L (++)).
Qed.
End providers.

(** ** An instance *)

#[local] Existing Instances any_scrape any_builder any_range any_target.
Definition any_discovery : DiscoveryLibrary := {|
  filePathPattern _ := true; httpContentTypePattern _ := true; url_Parse _ := Ok ("http", "host"); NewClientFromConfig _ := None;
  json_Unmarshal _ := Ok []; json_Decode _ := Ok []; yaml_UnmarshalStrict _ := Ok [] |}.
#[local] Existing Instance any_discovery.
Definition no_world : world := {| w_Glob _ := Ok []; w_ReadFile _ := Err "no file"; w_Get _ _ := Err "no server" |}.
Definition one_target (address : string) : target_group := {| tg_Source := "0"; tg_Targets := [{["__address__" := address]}]; tg_Labels := ∅ |}.
(** A job with two static configurations, then with another one; the first finds its target too late. *)
Definition first_jobs : gmap string (list config) := {["job" := [Static [one_target "a:80"]; Static [one_target "b:80"]]]}.
Definition second_jobs : gmap string (list config) := {["job" := [Static [one_target "c:80"]]; "none" := []]}.
(** Steps that are executed: a new configuration, a discoverer that sends, by its position, and the receiver. *)
Inductive command := DoApply (configs : gmap string (list config)) | DoFind (position : nat) | DoReceive.
Definition exec (log : list (event (Config := config))) (s : system (Discoverer := discoverer)) (c : command) :
    option (event (Config := config) * system (Discoverer := discoverer)) :=
  match c with
  | DoApply configs =>
      match ApplyConfig (s_manager s) configs with
      | Ok (m', started) =>
          Some (Applied configs,
            {| s_manager := m'; s_received := s_received s;
               s_running := s_running s ++ ((λ s, {| p_apply := S (applies log); p_spec := s.1; p_generation := s.2 |}) <$> started) |})
      | Err _ => None
      end
  | DoFind k =>
      p ← s_running s !! k;
      groups ← publish (ps_discoverer (p_spec p)) no_world;
      let '(m', goes_on) := runDiscoverer (s_manager s) (p_spec p) (p_generation p) groups in
      Some (Found (p_apply p) (ps_jobName (p_spec p)) (ps_index (p_spec p)) groups,
        {| s_manager := m'; s_running := take k (s_running s) ++ (if goes_on then [p] else []) ++ drop (S k) (s_running s); s_received := s_received s |})
  | DoReceive =>
      match m_syncCh (s_manager s) with
      | u :: ch => Some (Received u, {| s_manager := with_syncCh (s_manager s) ch; s_running := s_running s; s_received := s_received s ++ [u] |})
      | [] => None
      end
  end.
Lemma exec_step log s c e s' : exec log s c = Some (e, s') → step log s e s'.
Proof.
  destruct s as [m ps rs]. destruct c as [configs|k|]; cbn [exec s_manager s_running s_received].
  - destruct (ApplyConfig m configs) as [[m' started]|] eqn:E; [|done]. intros [= <- <-]. by apply step_apply.
  - rewrite !bind_Some. intros (p & Ep & E). rewrite bind_Some in E. destruct E as (groups & Eg & E).
    destruct (runDiscoverer _ _ _ _) as [m' goes_on] eqn:Er. injection E as <- <-.
    rewrite <-(take_drop_middle ps k p Ep) at 1. apply step_found; [by exists no_world|done].
  - destruct (m_syncCh m) as [|u ch] eqn:E; [done|]. intros [= <- <-]. by apply step_receive.
Qed.
Fixpoint exec_all (log : list (event (Config := config))) (s : system (Discoverer := discoverer)) (cs : list command) :
    option (list (event (Config := config)) * system (Discoverer := discoverer)) :=
  match cs with [] => Some (log, s) | c :: rest => '(e, s') ← exec log s c; exec_all (log ++ [e]) s' rest end.
Lemma exec_all_runs cs log s log' s' : runs log s → exec_all log s cs = Some (log', s') → runs log' s'.
Proof.
  revert log s. induction cs as [|c cs IH]; intros log s Hr; cbn; [by intros [= <- <-]|].
  rewrite bind_Some. intros ([e s1] & E & E'). eapply IH; [|exact E']. eapply runs_step; [done|]. by eapply exec_step.
Qed.
Definition late_finding : option (list (event (Config := config)) * system (Discoverer := discoverer)) :=
  exec_all [] {| s_manager := NewManager; s_running := []; s_received := [] |}
    [DoApply first_jobs; DoFind 1; DoReceive; DoApply second_jobs; DoFind 0; DoFind 1].

Lemma last_update_is_view_witness :
  ∃ log s, runs log s ∧ applies log = 2%nat ∧ last (s_received s ++ m_syncCh (s_manager s)) = Some {["job" := [one_target "c:80"]]}.
Proof.
  assert (match late_finding with Some _ => true | None => false end = true) as Hsome by (vm_compute; reflexivity).
  destruct late_finding as [[log s]|] eqn:E; [|done]. clear Hsome. assert (runs log s) as Hr by (eapply exec_all_runs; [apply runs_new|exact E]).
  assert (match late_finding with
          | Some (log, _) => forallb (λ e, match e with Cancelled => false | _ => true end) log && (applies log =? 2)%nat
                             && bool_decide (map_to_list (view (observed log)) = [("job", [one_target "c:80"])])
          | None => false end = true) as H by (vm_compute; reflexivity).
  rewrite E in H. apply andb_prop in H as [[H1 H2%Nat.eqb_eq]%andb_prop H3%bool_decide_eq_true_1].
  exists log, s. split; [done|]. split; [done|].
  destruct (last_update_is_view mechanism_no_slash log s Hr) as (El & _).
  - intros Hin. rewrite forallb_forall in H1. apply list_elem_of_In, H1 in Hin. done.
  - by rewrite H2.
  - rewrite El, H2. cbn. f_equal. rewrite <-(list_to_map_to_list (view _)), H3. done.
Defined.
