(* ===== verification/ScrapeCache.v ===== *)
(** * The cache of a scraped target, and the limits of a scrape

    src/receiver/prometheusreceiver/internal/scrape: the [scrapeCache] of scrape.go, and the
    appenders of target.go that limit what a scrape may send, as scrape_append_v2.go puts them
    together. An entry of the cache that is tracked is read for its reference and its labels,
    which do not change, so the maps hold entries, not pointers. *)
From S2P Require Import Prelude GoText Pdata Sampling Pmetric Flatten Utils SpanHistogram PromFamily ScrapeConfig PromTarget.

Abbreviation Histogram := (NativeHistogram Z Z).
Abbreviation FloatHistogram := (NativeHistogram float64 float64).

(** ** The cache *)

Record cacheEntry := { ce_ref : Z; ce_lastIter : Z; ce_hash : Z; ce_lset : Labels }.
Record Metadata := { meta_Type : model_type; meta_Help : string; meta_Unit : string }.
Record metaEntry := { me_Metadata : Metadata; me_lastIter : Z; me_lastIterChange : Z }.
Record scrapeCache := {
  c_iter : Z; c_successfulCount : Z; c_series : gmap string cacheEntry; c_droppedSeries : gmap string Z;
  c_seriesCur : gmap Z cacheEntry; c_seriesPrev : gmap Z cacheEntry; c_metadata : gmap string metaEntry }.

Section cache.
Context `{PM : Prometheus}.

Definition newScrapeCache : scrapeCache :=
  {| c_iter := 0; c_successfulCount := 0; c_series := ∅; c_droppedSeries := ∅; c_seriesCur := ∅; c_seriesPrev := ∅; c_metadata := ∅ |}.

Definition set_series (c : scrapeCache) (series : gmap string cacheEntry) : scrapeCache :=
  {| c_iter := c_iter c; c_successfulCount := c_successfulCount c; c_series := series; c_droppedSeries := c_droppedSeries c;
     c_seriesCur := c_seriesCur c; c_seriesPrev := c_seriesPrev c; c_metadata := c_metadata c |}.
Definition set_dropped (c : scrapeCache) (dropped : gmap string Z) : scrapeCache :=
  {| c_iter := c_iter c; c_successfulCount := c_successfulCount c; c_series := c_series c; c_droppedSeries := dropped;
     c_seriesCur := c_seriesCur c; c_seriesPrev := c_seriesPrev c; c_metadata := c_metadata c |}.
Definition set_metadata (c : scrapeCache) (metadata : gmap string metaEntry) : scrapeCache :=
  {| c_iter := c_iter c; c_successfulCount := c_successfulCount c; c_series := c_series c; c_droppedSeries := c_droppedSeries c;
     c_seriesCur := c_seriesCur c; c_seriesPrev := c_seriesPrev c; c_metadata := metadata |}.

Definition cache_count (c : scrapeCache) : Z :=
  Z.of_nat (size (c_series c)) + Z.of_nat (size (c_droppedSeries c)) + Z.of_nat (size (c_metadata c)).
Definition flush (c : scrapeCache) : scrapeCache :=
  {| c_iter := c_iter c; c_successfulCount := c_successfulCount c;
     c_series := filter (λ kv, ce_lastIter kv.2 = c_iter c) (c_series c);
     c_droppedSeries := filter (λ kv, kv.2 = c_iter c) (c_droppedSeries c); c_seriesCur := c_seriesCur c; c_seriesPrev := c_seriesPrev c;
     c_metadata := filter (λ kv, u64 (c_iter c - me_lastIter kv.2) ≤ 10) (c_metadata c) |}.
Definition swap (c : scrapeCache) : scrapeCache :=
  {| c_iter := u64 (c_iter c + 1); c_successfulCount := c_successfulCount c; c_series := c_series c; c_droppedSeries := c_droppedSeries c;
     c_seriesCur := ∅; c_seriesPrev := c_seriesCur c; c_metadata := c_metadata c |}.
Definition iterDone (c : scrapeCache) (flushCache : bool) : scrapeCache :=
  let count := cache_count c in
  let c' := if flushCache
            then {| c_iter := c_iter c; c_successfulCount := count; c_series := c_series c; c_droppedSeries := c_droppedSeries c;
                    c_seriesCur := c_seriesCur c; c_seriesPrev := c_seriesPrev c; c_metadata := c_metadata c |}
            else c in
  swap (if flushCache || (c_successfulCount c * 2 + 1000 <? count) then flush c' else c').

(** The entry, whether it was there, and whether it has been scraped already. *)
Definition cache_get (c : scrapeCache) (met : string) : option (cacheEntry * bool) * scrapeCache :=
  match c_series c !! met with
  | None => (None, c)
  | Some e =>
      let e' := {| ce_ref := ce_ref e; ce_lastIter := c_iter c; ce_hash := ce_hash e; ce_lset := ce_lset e |} in
      (Some (e', ce_lastIter e =? c_iter c), set_series c (<[met := e']> (c_series c)))
  end.
Definition addRef (c : scrapeCache) (met : string) (ref : Z) (lset : Labels) (hash : Z) : option cacheEntry * scrapeCache :=
  if ref =? 0 then (None, c)
  else
    let ce := {| ce_ref := ref; ce_lastIter := c_iter c; ce_hash := hash; ce_lset := lset |} in
    (Some ce, set_series c (<[met := ce]> (c_series c))).
Definition addDropped (c : scrapeCache) (met : string) : scrapeCache := set_dropped c (<[met := c_iter c]> (c_droppedSeries c)).
Definition getDropped (c : scrapeCache) (met : string) : bool * scrapeCache :=
  match c_droppedSeries c !! met with
  | Some _ => (true, set_dropped c (<[met := c_iter c]> (c_droppedSeries c)))
  | None => (false, c)
  end.
Definition trackStaleness (c : scrapeCache) (ref : Z) (ce : cacheEntry) : scrapeCache :=
  {| c_iter := c_iter c; c_successfulCount := c_successfulCount c; c_series := c_series c; c_droppedSeries := c_droppedSeries c;
     c_seriesCur := <[ref := ce]> (c_seriesCur c); c_seriesPrev := c_seriesPrev c; c_metadata := c_metadata c |}.
(** The series that were there before and are not now, in the order of the map. *)
Definition stale_series `{GR : GoRange} (c : scrapeCache) : list (Z * cacheEntry) :=
  filter (λ kv, c_seriesCur c !! kv.1 = None) (go_range (c_seriesPrev c)).

Definition unknown_meta : metaEntry :=
  {| me_Metadata := {| meta_Type := TypeUnknown; meta_Help := ""; meta_Unit := "" |}; me_lastIter := 0; me_lastIterChange := 0 |}.
(** One field of the metadata of a family is set; the entry notes when it changed. *)
Definition set_meta (c : scrapeCache) (mfName : string) (changed : Metadata → bool) (set : Metadata → Metadata) : metaEntry * scrapeCache :=
  let e := default unknown_meta (c_metadata c !! mfName) in
  let e := {| me_Metadata := set (me_Metadata e); me_lastIter := c_iter c;
              me_lastIterChange := if changed (me_Metadata e) then c_iter c else me_lastIterChange e |} in
  (e, set_metadata c (<[mfName := e]> (c_metadata c))).
Definition setType (c : scrapeCache) (mfName : string) (t : model_type) : metaEntry * scrapeCache :=
  set_meta c mfName (λ m, negb (bool_decide (meta_Type m = t))) (λ m, {| meta_Type := t; meta_Help := meta_Help m; meta_Unit := meta_Unit m |}).
Definition setHelp (c : scrapeCache) (mfName help : string) : metaEntry * scrapeCache :=
  set_meta c mfName (λ m, negb (bool_decide (meta_Help m = help))) (λ m, {| meta_Type := meta_Type m; meta_Help := help; meta_Unit := meta_Unit m |}).
Definition setUnit (c : scrapeCache) (mfName unit : string) : metaEntry * scrapeCache :=
  set_meta c mfName (λ m, negb (bool_decide (meta_Unit m = unit))) (λ m, {| meta_Type := meta_Type m; meta_Help := meta_Help m; meta_Unit := unit |}).

Definition metadata_of (mfName : string) (e : metaEntry) : MetricMetadata :=
  {| MetricFamily := mfName; md_Type := meta_Type (me_Metadata e); md_Help := meta_Help (me_Metadata e); md_Unit := meta_Unit (me_Metadata e) |}.
Definition GetMetadata (c : scrapeCache) : MetadataStore := λ mfName, metadata_of mfName <$> c_metadata c !! mfName.
Definition ListMetadata `{GR : GoRange} (c : scrapeCache) : list MetricMetadata := (λ kv, metadata_of kv.1 kv.2) <$> go_range (c_metadata c).
Definition LengthMetadata (c : scrapeCache) : Z := Z.of_nat (size (c_metadata c)).
Definition meta_size (e : metaEntry) : Z :=
  slen (meta_Help (me_Metadata e)) + slen (meta_Unit (me_Metadata e)) + slen (type_text (meta_Type (me_Metadata e))).
Definition SizeMetadata `{GR : GoRange} (c : scrapeCache) : Z := foldl (λ s kv, s + meta_size kv.2) 0 (go_range (c_metadata c)).
End cache.

(** ** Appenders *)

(** The errors of a storage that a scrape tells apart; the partial one, about exemplars, comes
    with the reference of the sample that was stored. *)
Inductive append_err :=
| ErrOutOfOrderSample | ErrDuplicateSampleForTimestamp | ErrOutOfBounds | ErrNotFound | errSampleLimit | errBucketLimit
| AppendPartialError (ref : Z) | OtherError (err : string).
Record AOptions := { ao_MetricFamilyName : string; ao_Metadata : option Metadata; ao_Exemplars : list PromExemplar; ao_RejectOutOfOrder : bool }.
Definition no_options : AOptions := {| ao_MetricFamilyName := ""; ao_Metadata := None; ao_Exemplars := []; ao_RejectOutOfOrder := false |}.
Record append_call := {
  ac_ref : Z; ac_ls : Labels; ac_st : Z; ac_t : Z; ac_v : sample; ac_h : option Histogram; ac_fh : option FloatHistogram; ac_opts : AOptions }.
(** An appender: a call changes its state, and gives a reference or an error. *)
Abbreviation appender A := (A → append_call → A * result append_err Z).

(** Resolution of native histograms (model/histogram). *)
Class HistogramLibrary := {
  IsExponentialSchema : Z → bool; IsExponentialSchemaReserved : Z → bool; ExponentialSchemaMin : Z; ExponentialSchemaMax : Z;
  CustomBucketsSchema : Z;
  ReduceResolution {C B} : NativeHistogram C B → Z → result string (NativeHistogram C B) }.

Section limits.
Context `{HL : HistogramLibrary}.

(** The limit of samples counts in a state of its own. *)
Definition limitAppender {A} (app : appender A) (limit : Z) : appender (A * Z) := λ s c,
  let '(a, i) := s in
  if (ac_ref c =? 0) || negb (IsStaleNaN (ac_v c)) then
    let i := i + 1 in
    if limit <? i then ((a, i), Err errSampleLimit) else let '(a, r) := app a c in ((a, i), r)
  else let '(a, r) := app a c in ((a, i), r).
Definition timeLimitAppender {A} (app : appender A) (maxTime : Z) : appender A := λ a c,
  if maxTime <? ac_t c then (a, Err ErrOutOfBounds) else app a c.

Definition bucket_number {C B} (h : NativeHistogram C B) : Z :=
  Z.of_nat (length (PositiveBuckets _ _ h)) + Z.of_nat (length (NegativeBuckets _ _ h)).
(** The resolution goes down until the buckets fit; each time the schema is one less. *)
Fixpoint reduce_loop {C B} (fuel : nat) (limit : Z) (h : NativeHistogram C B) : result append_err (NativeHistogram C B) :=
  if limit <? bucket_number h then
    if Schema _ _ h <=? ExponentialSchemaMin then Err errBucketLimit
    else
      match fuel, ReduceResolution h (Schema _ _ h - 1) with
      | S fuel, Ok h => reduce_loop fuel limit h
      | _, Err err => Err (OtherError err)
      | O, _ => Err errBucketLimit
      end
  else Ok h.
Definition limit_buckets {C B} (limit : Z) (h : NativeHistogram C B) : result append_err (NativeHistogram C B) :=
  if (limit <? bucket_number h) && negb (IsExponentialSchema (Schema _ _ h)) then Err errBucketLimit
  else reduce_loop (Z.to_nat (Schema _ _ h - ExponentialSchemaMin)) limit h.
Definition limit_schema {C B} (maxSchema : Z) (h : NativeHistogram C B) : result append_err (NativeHistogram C B) :=
  if IsExponentialSchemaReserved (Schema _ _ h) && (maxSchema <? Schema _ _ h)
  then match ReduceResolution h maxSchema with Ok h => Ok h | Err err => Err (OtherError err) end
  else Ok h.
Definition on_option {A} (f : A → result append_err A) (o : option A) : result append_err (option A) :=
  match o with None => Ok None | Some a => a ← f a; Ok (Some a) end.
(** Both histograms of a call. *)
Definition on_histograms (f : ∀ C B, NativeHistogram C B → result append_err (NativeHistogram C B)) (c : append_call) :
    result append_err append_call :=
  h ← on_option (f Z Z) (ac_h c);
  fh ← on_option (f float64 float64) (ac_fh c);
  Ok {| ac_ref := ac_ref c; ac_ls := ac_ls c; ac_st := ac_st c; ac_t := ac_t c; ac_v := ac_v c; ac_h := h; ac_fh := fh; ac_opts := ac_opts c |}.
Definition bucketLimitAppender {A} (app : appender A) (limit : Z) : appender A := λ a c,
  match on_histograms (λ C B, limit_buckets limit) c with Err err => (a, Err err) | Ok c => app a c end.
Definition maxSchemaAppender {A} (app : appender A) (maxSchema : Z) : appender A := λ a c,
  match on_histograms (λ C B, limit_schema maxSchema) c with Err err => (a, Err err) | Ok c => app a c end.

Definition with_sample_limit {A} (app : appender A) (sampleLimit : Z) : appender (A * Z) :=
  if 0 <? sampleLimit then limitAppender app sampleLimit else λ s c, let '(a, r) := app s.1 c in ((a, s.2), r).
Definition appenderWithLimits {A} (app : appender A) (maxTime sampleLimit bucketLimit maxSchema : Z) : appender (A * Z) :=
  let app := with_sample_limit (timeLimitAppender app maxTime) sampleLimit in
  let app := if 0 <? bucketLimit then bucketLimitAppender app bucketLimit else app in
  if maxSchema <? ExponentialSchemaMax then maxSchemaAppender app maxSchema else app.
End limits.
