(* ===== verification/PromTransaction.v ===== *)
(** * The transaction of a scrape

    src/receiver/prometheusreceiver/internal: transaction.go and prom_to_otlp.go. The samples
    of one scrape are put in families, by resource, scope and name, and sent together. A
    family is in its map under its own name, so that maps of families stand for maps of
    pointers. Logs and the telemetry of the receiver are left out. *)
From S2P Require Import Prelude GoText Pdata Sampling Pmetric Flatten Utils SpanHistogram PromFamily ScrapeConfig PromTarget ScrapeCache.
From Stdlib Require Import SpecFloat.

(** Names of the translation of Prometheus, keys of the semantic conventions, and the net
    package. The hash of a map is 16 bytes. *)
Class TransactionLibrary := {
  TargetInfoMetricName : string; ScopeInfoMetricName : string;
  ScopeNameLabelKey : string; ScopeVersionLabelKey : string; ScopeSchemaURLLabelKey : string;
  ReceiverScopeName : string; MapHash : gmap string string → string;
  ServiceNameKey : string; ServerAddressKey : string; ServiceInstanceIDKey : string; ServerPortKey : string; URLSchemeKey : string;
  IP : Type; ParseIP : string → option IP; IsLoopback : IP → bool; IsUnspecified : IP → bool;
  SplitHostPort : string → result string (string * string) }.

Record resourceKey := { rk_job : string; rk_instance : string }.
Record metricFamilyKey := { fk_isExponentialHistogram : bool; fk_name : string }.
Record scopeID := { sid_name : string; sid_version : string; sid_schemaURL : string; sid_attrsHash : string }.
#[export] Instance resourceKey_eq_dec : EqDecision resourceKey.
Proof. solve_decision. Defined.
#[export] Instance metricFamilyKey_eq_dec : EqDecision metricFamilyKey.
Proof. solve_decision. Defined.
#[export] Instance scopeID_eq_dec : EqDecision scopeID.
Proof. solve_decision. Defined.
#[export] Instance resourceKey_countable : Countable resourceKey.
Proof. refine (inj_countable' (λ k, (rk_job k, rk_instance k)) (λ p, {| rk_job := p.1; rk_instance := p.2 |}) _). by intros []. Defined.
#[export] Instance metricFamilyKey_countable : Countable metricFamilyKey.
Proof.
  refine (inj_countable' (λ k, (fk_isExponentialHistogram k, fk_name k)) (λ p, {| fk_isExponentialHistogram := p.1; fk_name := p.2 |}) _).
  by intros [].
Defined.
#[export] Instance scopeID_countable : Countable scopeID.
Proof.
  refine (inj_countable' (λ k, (sid_name k, sid_version k, sid_schemaURL k, sid_attrsHash k))
    (λ p, {| sid_name := p.1.1.1; sid_version := p.1.1.2; sid_schemaURL := p.1.2; sid_attrsHash := p.2 |}) _).
  by intros [].
Defined.

Abbreviation scope_families := (gmap metricFamilyKey metricFamily).
Record transaction := {
  tx_isNew : bool; tx_trimSuffixes : bool; tx_useMetadata : bool; tx_addingNativeHistogram : bool; tx_addingNHCB : bool;
  tx_families : gmap resourceKey (gmap scopeID scope_families); tx_mc : MetadataStore; tx_externalLabels : Labels;
  tx_nodeResources : gmap resourceKey (gmap string string); tx_scopeAttributes : gmap resourceKey (gmap scopeID (gmap string string));
  tx_ignoreScopeInfoMetric : bool; tx_version : string }.

Definition emptyMetadataStore : MetadataStore := λ _, None.
(** Until a call has set it, the store is not read. *)
Definition newTransaction (externalLabels : Labels) (version : string) (ignoreScopeInfoMetric trimSuffixes useMetadata : bool) : transaction :=
  {| tx_isNew := true; tx_trimSuffixes := trimSuffixes; tx_useMetadata := useMetadata; tx_addingNativeHistogram := false;
     tx_addingNHCB := false; tx_families := ∅; tx_mc := emptyMetadataStore; tx_externalLabels := externalLabels;
     tx_nodeResources := ∅; tx_scopeAttributes := ∅; tx_ignoreScopeInfoMetric := ignoreScopeInfoMetric; tx_version := version |}.

Definition with_adding (t : transaction) (native nhcb : bool) : transaction :=
  {| tx_isNew := tx_isNew t; tx_trimSuffixes := tx_trimSuffixes t; tx_useMetadata := tx_useMetadata t; tx_addingNativeHistogram := native;
     tx_addingNHCB := nhcb; tx_families := tx_families t; tx_mc := tx_mc t; tx_externalLabels := tx_externalLabels t;
     tx_nodeResources := tx_nodeResources t; tx_scopeAttributes := tx_scopeAttributes t;
     tx_ignoreScopeInfoMetric := tx_ignoreScopeInfoMetric t; tx_version := tx_version t |}.
Definition with_families (t : transaction) (families : gmap resourceKey (gmap scopeID scope_families)) : transaction :=
  {| tx_isNew := tx_isNew t; tx_trimSuffixes := tx_trimSuffixes t; tx_useMetadata := tx_useMetadata t;
     tx_addingNativeHistogram := tx_addingNativeHistogram t; tx_addingNHCB := tx_addingNHCB t; tx_families := families; tx_mc := tx_mc t;
     tx_externalLabels := tx_externalLabels t; tx_nodeResources := tx_nodeResources t; tx_scopeAttributes := tx_scopeAttributes t;
     tx_ignoreScopeInfoMetric := tx_ignoreScopeInfoMetric t; tx_version := tx_version t |}.
Definition with_resources (t : transaction) (isNew : bool) (mc : MetadataStore) (resources : gmap resourceKey (gmap string string)) : transaction :=
  {| tx_isNew := isNew; tx_trimSuffixes := tx_trimSuffixes t; tx_useMetadata := tx_useMetadata t;
     tx_addingNativeHistogram := tx_addingNativeHistogram t; tx_addingNHCB := tx_addingNHCB t; tx_families := tx_families t; tx_mc := mc;
     tx_externalLabels := tx_externalLabels t; tx_nodeResources := resources; tx_scopeAttributes := tx_scopeAttributes t;
     tx_ignoreScopeInfoMetric := tx_ignoreScopeInfoMetric t; tx_version := tx_version t |}.
Definition with_scope_attributes (t : transaction) (scopes : gmap resourceKey (gmap scopeID (gmap string string))) : transaction :=
  {| tx_isNew := tx_isNew t; tx_trimSuffixes := tx_trimSuffixes t; tx_useMetadata := tx_useMetadata t;
     tx_addingNativeHistogram := tx_addingNativeHistogram t; tx_addingNHCB := tx_addingNHCB t; tx_families := tx_families t; tx_mc := tx_mc t;
     tx_externalLabels := tx_externalLabels t; tx_nodeResources := tx_nodeResources t; tx_scopeAttributes := scopes;
     tx_ignoreScopeInfoMetric := tx_ignoreScopeInfoMetric t; tx_version := tx_version t |}.

(** A metric that is sent comes with its scope, in its resource. *)
Record scope_metrics := {
  sm_name : string; sm_version : string; sm_schemaURL : string; sm_attributes : gmap string string; sm_metrics : list prom_metric }.
Record resource_metrics := { rm_attributes : gmap string string; rm_scopes : list scope_metrics }.

Section transaction.
Context `{PM : Prometheus} `{TL : TargetLibrary} `{GR : GoRange} `{HL : HistogramLibrary} `{XL : TransactionLibrary}.

(** The context of a scrape: whether it is done, its target and its store of metadata. *)
Record scrape_context := { sc_done : bool; sc_target : option Target; sc_store : option MetadataStore }.

(** ** Resources (prom_to_otlp.go) *)

Definition isDiscernibleHost (host : string) : bool :=
  match ParseIP host with
  | Some ip => negb (IsLoopback ip) && negb (IsUnspecified ip)
  | None => negb (bool_decide (host = "localhost"))
  end.
Definition CreateResource (job instance : string) (serviceDiscoveryLabels : Labels) : gmap string string :=
  let '(host, port) := match SplitHostPort instance with Ok hp => hp | Err _ => (instance, "") end in
  let attrs := <[ServiceNameKey := job]> ∅ in
  let attrs := if isDiscernibleHost host then <[ServerAddressKey := host]> attrs else attrs in
  <[URLSchemeKey := Labels_Get serviceDiscoveryLabels SchemeLabel]> (<[ServerPortKey := port]> (<[ServiceInstanceIDKey := instance]> attrs)).

(** ** The start of a call *)

Definition getJobAndInstance (ctx : scrape_context) (ls : Labels) : option resourceKey :=
  let job := Labels_Get ls JobLabel in
  let instance := Labels_Get ls InstanceLabel in
  if negb (bool_decide (job = "")) && negb (bool_decide (instance = "")) then Some {| rk_job := job; rk_instance := instance |}
  else
    match sc_target ctx with
    | Some target =>
        let job := if decide (job = "") then GetValue target JobLabel else job in
        let instance := if decide (instance = "") then GetValue target InstanceLabel else instance in
        if negb (bool_decide (job = "")) && negb (bool_decide (instance = "")) then Some {| rk_job := job; rk_instance := instance |} else None
    | None => None
    end.
Definition initTransaction (ctx : scrape_context) (t : transaction) (lbs : Labels) : result string (transaction * resourceKey) :=
  match sc_target ctx with
  | None => Err "unable to find target in context"
  | Some target =>
      match (if tx_useMetadata t then sc_store ctx else Some emptyMetadataStore) with
      | None => Err "unable to find MetricMetadataStore in context"
      | Some mc =>
          match getJobAndInstance ctx lbs with
          | None => Err "job or instance cannot be found from labels"
          | Some rKey =>
              let resources :=
                match tx_nodeResources t !! rKey with
                | Some _ => tx_nodeResources t
                | None => <[rKey := CreateResource (rk_job rKey) (rk_instance rKey) (DiscoveredLabels target)]> (tx_nodeResources t)
                end in
              Ok (with_resources t false mc resources, rKey)
          end
      end
  end.
Definition add_external (ext ls : Labels) : Labels := match ext with [] => ls | _ => b_Labels (set_all ext (NewBuilder ls)) end.
(** The labels with the external ones, the resource and the name; the state is changed before the
    labels are checked. *)
Definition prepareLabels (ctx : scrape_context) (t : transaction) (ls : Labels) :
    transaction * result string (Labels * resourceKey * string) :=
  if sc_done ctx then (t, Err "transaction aborted")
  else
    let ls := add_external (tx_externalLabels t) ls in
    match initTransaction ctx t ls with
    | Err err => (t, Err err)
    | Ok (t, rKey) =>
        match HasDuplicateLabelNames ls with
        | Some dupLabel => (t, Err ("invalid sample: non-unique label names: " +:+ Quote dupLabel))
        | None =>
            let metricName := Labels_Get ls MetricNameLabel in
            if decide (metricName = "") then (t, Err "metricName not found from labels") else (t, Ok (ls, rKey, metricName))
        end
    end.

(** ** Scopes and resources of samples *)

Definition set_scope_label (acc : scopeID * gmap string string) (l : string * string) (other : gmap string string) : scopeID * gmap string string :=
  let '(s, attrs) := acc in
  if decide (l.1 = ScopeNameLabelKey)
  then ({| sid_name := l.2; sid_version := sid_version s; sid_schemaURL := sid_schemaURL s; sid_attrsHash := sid_attrsHash s |}, attrs)
  else if decide (l.1 = ScopeVersionLabelKey)
  then ({| sid_name := sid_name s; sid_version := l.2; sid_schemaURL := sid_schemaURL s; sid_attrsHash := sid_attrsHash s |}, attrs)
  else if decide (l.1 = ScopeSchemaURLLabelKey)
  then ({| sid_name := sid_name s; sid_version := sid_version s; sid_schemaURL := l.2; sid_attrsHash := sid_attrsHash s |}, attrs)
  else (s, other).
(** Sixteen zeros. *)
Definition no_hash : string := of_bytes (replicate 16 "000"%char).
Definition emptyScopeID : scopeID := {| sid_name := ""; sid_version := ""; sid_schemaURL := ""; sid_attrsHash := no_hash |}.
Definition trim_prefix (s prefix : string) : string := of_bytes (drop (length (bytes prefix)) (bytes s)).
Definition getScopeID (ls : Labels) : scopeID * gmap string string :=
  let '(s, attrs) := foldl (λ acc l,
    set_scope_label acc l (if has_prefix l.1 ScopeLabelPrefix then <[trim_prefix l.1 ScopeLabelPrefix := l.2]> acc.2 else acc.2)) (emptyScopeID, ∅) ls in
  ({| sid_name := sid_name s; sid_version := sid_version s; sid_schemaURL := sid_schemaURL s; sid_attrsHash := MapHash attrs |}, attrs).
Definition addScopeAttributesFromLabels (t : transaction) (key : resourceKey) (scope : scopeID) (attrs : gmap string string) : transaction :=
  if decide (attrs = ∅) then t
  else
    let scopes := default ∅ (tx_scopeAttributes t !! key) in
    match scopes !! scope with
    | Some _ => t
    | None => with_scope_attributes t (<[key := <[scope := attrs]> scopes]> (tx_scopeAttributes t))
    end.
(** The labels that tell which target a line is about. *)
Definition target_label (name : string) : bool :=
  bool_decide (name = JobLabel) || bool_decide (name = InstanceLabel) || bool_decide (name = MetricNameLabel).
Definition put_labels (ls : Labels) (attrs : gmap string string) : gmap string string :=
  foldl (λ attrs l, if target_label l.1 then attrs else <[l.1 := l.2]> attrs) attrs ls.
Definition AddTargetInfo (t : transaction) (key : resourceKey) (ls : Labels) : transaction :=
  let t := with_adding t false false in
  match tx_nodeResources t !! key with
  | Some attrs => with_resources t (tx_isNew t) (tx_mc t) (<[key := put_labels ls attrs]> (tx_nodeResources t))
  | None => t
  end.
Definition scope_info_of (ls : Labels) : scopeID * gmap string string :=
  foldl (λ acc l, if target_label l.1 then acc else set_scope_label acc l (<[l.1 := l.2]> acc.2)) (emptyScopeID, ∅) ls.
Definition addScopeInfo (t : transaction) (key : resourceKey) (ls : Labels) : transaction :=
  let t := with_adding t false false in
  let '(scope, attrs) := scope_info_of ls in
  with_scope_attributes t (<[key := <[scope := attrs]> (default ∅ (tx_scopeAttributes t !! key))]> (tx_scopeAttributes t)).

(** ** Families *)

Definition getSeriesRef (ls : Labels) (mtype : MetricType) : Z := HashWithoutLabels ls (getSortedNotUsefulLabelsForSeries mtype ls).
Definition families_of (t : transaction) (key : resourceKey) (scope : scopeID) : scope_families :=
  default ∅ (default ∅ (tx_families t !! key) !! scope).
Definition put_family (t : transaction) (key : resourceKey) (scope : scopeID) (k : metricFamilyKey) (mf : metricFamily) : transaction :=
  with_families t (<[key := <[scope := <[k := mf]> (families_of t key scope)]> (default ∅ (tx_families t !! key))]> (tx_families t)).
(** The name under which the family of a line is looked for when there is none under its own. *)
Definition fallback_name (mc : MetadataStore) (mn : string) : string :=
  match mc mn with
  | Some _ => mn
  | None => let fn := normalizeMetricName mn in if isCounterCreatedLine mn fn mc then fn +:+ metricSuffixTotal else fn
  end.
(** The family, and the key that it has in the map. *)
Definition getOrCreateMetricFamily (t : transaction) (key : resourceKey) (scope : scopeID) (mn : string) :
    transaction * metricFamilyKey * metricFamily :=
  let fams := families_of t key scope in
  let mfKey := {| fk_isExponentialHistogram := tx_addingNativeHistogram t; fk_name := mn |} in
  match fams !! mfKey with
  | Some mf => (t, mfKey, mf)
  | None =>
      let fnKey := {| fk_isExponentialHistogram := tx_addingNativeHistogram t; fk_name := fallback_name (tx_mc t) mn |} in
      let create :=
        let mf := newMetricFamily mn (tx_mc t) (tx_addingNativeHistogram t) (tx_addingNHCB t) in
        let k := {| fk_isExponentialHistogram := tx_addingNativeHistogram t; fk_name := mf_name mf |} in
        (put_family t key scope k mf, k, mf) in
      match fams !! fnKey with
      | Some mf => if includesMetric mf mn then (t, fnKey, mf) else create
      | None => create
      end
  end.

(** A marker for a native histogram has no histogram of its own. *)
Definition stale_histogram : Histogram :=
  {| Schema := 0; hg_Count := 0; hg_Sum := StaleNaN; ZeroThreshold := S754_zero false; ZeroCount := 0; PositiveSpans := [];
     PositiveBuckets := []; NegativeSpans := []; NegativeBuckets := []; CustomValues := [] |}.
Definition is_native (mc : MetadataStore) (metricName : string) : bool :=
  match mc metricName with
  | Some md => bool_decide (md_Type md = TypeHistogram) && bool_decide (MetricFamily md = metricName)
  | None => false
  end.
Definition detectAndStoreNativeHistogramStaleness (t : transaction) (atMs : Z) (key : resourceKey) (scope : scopeID) (metricName : string)
    (ls : Labels) : transaction * bool :=
  if is_native (tx_mc t) metricName then
    let '(t, k, curMF) := getOrCreateMetricFamily (with_adding t true false) key scope metricName in
    let seriesRef := getSeriesRef ls (mf_mtype curMF) in
    (put_family t key scope k (addExponentialHistogramSeries curMF seriesRef metricName ls atMs (Some stale_histogram) None).1, true)
  else (t, false).

(** A start time and a sample of a family; a sample that is refused may have left a group. *)
Definition add_point (mf : metricFamily) (metricName : string) (ls : Labels) (atMs stMs : Z) (v : sample) : metricFamily * option string :=
  let seriesRef := getSeriesRef ls (mf_mtype mf) in
  let mf := if stMs =? 0 then mf else addCreationTimestamp mf seriesRef ls atMs stMs in
  addSeries mf seriesRef metricName ls atMs v.
Definition addSampleDatapoint (t : transaction) (rKey : resourceKey) (ls : Labels) (metricName : string) (atMs : Z) (v : sample) (stMs : Z) :
    transaction * Z :=
  if decide (metricName = TargetInfoMetricName) then (AddTargetInfo t rKey ls, 0)
  else if bool_decide (metricName = ScopeInfoMetricName) && negb (tx_ignoreScopeInfoMetric t) then (addScopeInfo t rKey ls, 0)
  else
    let '(parsedScope, attrs) := getScopeID ls in
    let t := addScopeAttributesFromLabels t rKey parsedScope attrs in
    let '(t, detected) :=
      if IsStaleNaN v then detectAndStoreNativeHistogramStaleness t atMs rKey parsedScope metricName ls else (t, false) in
    if detected then (t, 0)
    else
      let '(t, k, curMF) := getOrCreateMetricFamily t rKey parsedScope metricName in
      let '(curMF, err) := add_point curMF metricName ls atMs stMs v in
      (put_family t rKey parsedScope k curMF, match err with Some _ => 0 | None => Labels_Hash ls end).
Definition add_histogram (mf : metricFamily) (metricName : string) (ls : Labels) (atMs stMs schema : Z) (h : option Histogram)
    (fh : option FloatHistogram) : metricFamily * option string :=
  let seriesRef := getSeriesRef ls (mf_mtype mf) in
  let mf := if stMs =? 0 then mf else addCreationTimestamp mf seriesRef ls atMs stMs in
  if schema =? CustomBucketsSchema then addNHCBSeries mf seriesRef metricName ls atMs h fh
  else addExponentialHistogramSeries mf seriesRef metricName ls atMs h fh.
Definition addHistogramDatapoint (t : transaction) (rKey : resourceKey) (ls : Labels) (metricName : string) (atMs : Z)
    (h : option Histogram) (fh : option FloatHistogram) (schema stMs : Z) : transaction * Z :=
  let '(parsedScope, attrs) := getScopeID ls in
  let t := addScopeAttributesFromLabels t rKey parsedScope attrs in
  let '(t, k, curMF) := getOrCreateMetricFamily t rKey parsedScope metricName in
  let '(curMF, err) := add_histogram curMF metricName ls atMs stMs schema h fh in
  (put_family t rKey parsedScope k curMF, match err with Some _ => 0 | None => Labels_Hash ls end).
(** Errors of exemplars are dropped by the caller; the state that they leave is not. *)
Definition appendExemplar (ctx : scrape_context) (t : transaction) (l : Labels) (e : PromExemplar) : transaction :=
  if sc_done ctx then t
  else
    match initTransaction ctx t l with
    | Err _ => t
    | Ok (t, rKey) =>
        let l := WithoutEmpty l in
        match HasDuplicateLabelNames l with
        | Some _ => t
        | None =>
            let mn := Labels_Get l MetricNameLabel in
            if decide (mn = "") then t
            else
              let '(scope, attrs) := getScopeID l in
              let t := addScopeAttributesFromLabels t rKey scope attrs in
              let '(t, k, mf) := getOrCreateMetricFamily t rKey scope mn in
              put_family t rKey scope k (addExemplar mf (getSeriesRef l (mf_mtype mf)) e)
        end
    end.
Definition Append (ctx : scrape_context) (t : transaction) (c : append_call) : transaction * result string Z :=
  match prepareLabels ctx t (ac_ls c) with
  | (t, Err err) => (t, Err err)
  | (t, Ok (ls, rKey, metricName)) =>
      let '(t, sRef) :=
        match (match ac_h c with Some h => Some (Schema _ _ h) | None => Schema _ _ <$> ac_fh c end) with
        | Some schema =>
            addHistogramDatapoint (with_adding t true (schema =? CustomBucketsSchema)) rKey ls metricName (ac_t c) (ac_h c) (ac_fh c)
              schema (ac_st c)
        | None => addSampleDatapoint (with_adding t false false) rKey ls metricName (ac_t c) (ac_v c) (ac_st c)
        end in
      (foldl (λ t e, appendExemplar ctx t (ac_ls c) e) t (ao_Exemplars (ac_opts c)), Ok sRef)
  end.

(** ** What is sent *)

(** A panic is [None]. *)
Definition scope_metrics_of (t : transaction) (rKey : resourceKey) (scope : scopeID) (mfs : scope_families) : option scope_metrics :=
  metrics ← mapM (λ kv, appendMetric kv.2 (tx_trimSuffixes t)) (go_range mfs);
  Some (if decide (scope = emptyScopeID)
        then {| sm_name := ReceiverScopeName; sm_version := tx_version t; sm_schemaURL := ""; sm_attributes := ∅; sm_metrics := omap id metrics |}
        else {| sm_name := sid_name scope; sm_version := sid_version scope; sm_schemaURL := sid_schemaURL scope;
                sm_attributes := default ∅ (tx_scopeAttributes t !! rKey ≫= (.!! scope)); sm_metrics := omap id metrics |}).
Definition resource_of (t : transaction) (rKey : resourceKey) (families : gmap scopeID scope_families) : option (option resource_metrics) :=
  match tx_nodeResources t !! rKey with
  | Some resource =>
      if decide (families = ∅) then Some None
      else
        scopes ← mapM (λ kv, scope_metrics_of t rKey kv.1 kv.2) (go_range families);
        Some (Some {| rm_attributes := resource; rm_scopes := scopes |})
  | None => Some None
  end.
Definition has_metrics (rm : resource_metrics) : bool := existsb (λ sm, match sm_metrics sm with [] => false | _ => true end) (rm_scopes rm).
Definition getMetrics (t : transaction) : option (result string (list resource_metrics)) :=
  if decide (tx_families t = ∅) then Some (Err "there's no data to build")
  else
    rms ← mapM (λ kv, resource_of t kv.1 kv.2) (go_range (tx_families t));
    Some (Ok (filter (λ rm, has_metrics rm = true) (omap id rms))).
Definition DataPointCount (rms : list resource_metrics) : Z :=
  Z.of_nat (sum_list (rms ≫= λ rm, rm_scopes rm ≫= λ sm, (λ m, length (pm_points m)) <$> sm_metrics sm)).
(** What goes to the next consumer, if anything does, and the error. *)
Definition Commit (sink : list resource_metrics → option string) (t : transaction) :
    option (option (list resource_metrics) * option string) :=
  if tx_isNew t then Some (None, None)
  else
    md ← getMetrics t;
    Some (match md with
          | Err err => (None, Some err)
          | Ok md => if DataPointCount md =? 0 then (None, None) else (Some md, sink md)
          end).
End transaction.
