(* ===== verification/PromTransactionProps.v ===== *)
(** * What a transaction sends

    The samples of a scrape, put in nested maps of families as they come, leave grouped: for
    each resource, scope and family, the metric that the samples of that family make in their
    order, and nothing else. The names of the lines must agree about the families. *)
From S2P Require Import Prelude GoText Pdata Sampling Pmetric Flatten Utils SpanHistogram PromFamily PromFamilyProps ScrapeConfig ScrapeConfigProps PromTarget PromTargetProps ScrapeCache PromTransaction.
From Stdlib Require Import SpecFloat.

(** ** Nested maps as lists *)

Section nested.
Context `{GR : GoRange}.

Lemma elem_of_go_range {K V} `{Countable K} (m : gmap K V) k v : (k, v) ∈ go_range m ↔ m !! k = Some v.
Proof. by rewrite go_range_perm, elem_of_map_to_list. Qed.
Lemma NoDup_go_range {K V} `{Countable K} (m : gmap K V) : NoDup (go_range m).*1.
Proof. rewrite go_range_perm. apply NoDup_fst_map_to_list. Qed.

(** The entries of the inner lists, under both keys. *)
Definition nest {K V J X} `{Countable K} (m : gmap K V) (f : V → list (J * X)) : list ((K * J) * X) :=
  go_range m ≫= λ kv, (λ jx, ((kv.1, jx.1), jx.2)) <$> f kv.2.
Lemma elem_of_nest {K V J X} `{Countable K} (m : gmap K V) (f : V → list (J * X)) k j x :
  ((k, j), x) ∈ nest m f ↔ ∃ v, m !! k = Some v ∧ (j, x) ∈ f v.
Proof.
  unfold nest. rewrite list_elem_of_bind. split.
  - intros ([k' v] & Hj & Hk). apply list_elem_of_fmap in Hj as ([j' x'] & [= -> -> ->] & Hj). exists v. by apply elem_of_go_range in Hk.
  - intros (v & Hk & Hj). exists (k, v). split; [|by apply elem_of_go_range]. apply list_elem_of_fmap. by exists (j, x).
Qed.
Lemma NoDup_nest {K V J X} `{Countable K} (m : gmap K V) (f : V → list (J * X)) : (∀ v, NoDup (f v).*1) → NoDup (nest m f).*1.
Proof.
  intros Hf. unfold nest. pose proof (NoDup_go_range m) as Hm. induction (go_range m) as [|[k v] l IH]; [constructor|].
  apply NoDup_cons in Hm as [Hk Hm]. change (((k, v) :: l) ≫= ?g) with (g (k, v) ++ (l ≫= g)). rewrite fmap_app. apply NoDup_app. split_and!.
  - replace ((_ <$> f (k, v).2).*1) with (pair k <$> (f v).*1) by (rewrite <-!list_fmap_compose; done).
    apply NoDup_fmap_2; [intros ?? [=]; done|apply Hf].
  - intros [k' j] Hin. rewrite <-list_fmap_compose in Hin. apply list_elem_of_fmap in Hin as (jx & [= -> ->] & _).
    rewrite list_elem_of_fmap. intros ([[k' j'] x'] & [= <- <-] & Hin). apply list_elem_of_bind in Hin as ([k'' v''] & Hin & Hl).
    apply list_elem_of_fmap in Hin as (? & [= <- _ _] & _). apply Hk, list_elem_of_fmap. by exists (k, v'').
  - by apply IH.
Qed.
End nested.

Lemma mapM_total {A B} (f : A → option B) (g : A → B) l : (∀ x, x ∈ l → f x = Some (g x)) → mapM f l = Some (g <$> l).
Proof.
  induction l as [|x l IH]; intros H; [done|]. cbn. rewrite (H x) by left. cbn. rewrite IH; [done|]. intros y Hy. apply H. by right.
Qed.
Lemma omap_bind {A B C} (f : B → option C) (g : A → list B) l : omap f (l ≫= g) = l ≫= λ x, omap f (g x).
Proof. induction l as [|x l IH]; [done|]. cbn. by rewrite omap_app, <-IH. Qed.

(** ** Names of families *)

Lemma has_suffix_last s suf : bytes suf ≠ [] → has_suffix s suf = true → last (bytes s) = last (bytes suf).
Proof.
  unfold has_suffix. intros Hne Hs%bool_decide_eq_true. set (n := (length (bytes s) - length (bytes suf))%nat) in *.
  rewrite <-(take_drop n (bytes s)), Hs, last_app. destruct (last (bytes suf)) eqn:E; [done|]. by apply last_None in E.
Qed.
Lemma has_suffix_total n suf : bytes suf ≠ [] → last (bytes suf) ≠ last (bytes metricSuffixTotal) → has_suffix (n +:+ metricSuffixTotal) suf = false.
Proof.
  intros Hne Hl. destruct (has_suffix _ suf) eqn:E; [|done]. apply has_suffix_last in E; [|done]. destruct Hl. rewrite <-E, bytes_app, last_app. done.
Qed.
Lemma has_suffix_self n s : has_suffix (n +:+ s) s = true.
Proof.
  unfold has_suffix. apply bool_decide_eq_true. rewrite bytes_app, length_app, drop_app_ge by lia.
  replace (_ - _ - _)%nat with 0%nat by lia. done.
Qed.
Lemma normalize_total n : n ≠ "" → normalizeMetricName (n +:+ metricSuffixTotal) = n.
Proof.
  intros Hn. unfold normalizeMetricName, trimmableSuffixes. cbn [list_find].
  do 3 (rewrite decide_False by (rewrite has_suffix_total by done; naive_solver)). rewrite decide_True; cbn.
  - unfold trim_suffix. rewrite bytes_app, length_app, Nat.add_sub, take_app_length. apply of_bytes_bytes.
  - split; [apply has_suffix_self|]. intros E%(f_equal bytes). rewrite bytes_app in E. apply (f_equal length) in E. rewrite length_app in E.
    apply Hn. rewrite <-(of_bytes_bytes n). destruct (bytes n); [done|cbn in E; lia].
Qed.

Section families.
Context `{PM : Prometheus}.

(** The family that a line founds, and its name. *)
Definition new_family (mc : MetadataStore) (mn : string) : metricFamily := newMetricFamily mn mc false false.
Definition fam (mc : MetadataStore) (mn : string) : string := mf_name (new_family mc mn).

Lemma fam_metadata mc mn : fam mc mn = (metadataForMetric mn mc).2.
Proof. unfold fam, new_family, newMetricFamily. destruct (metadataForMetric mn mc) as [md name]. by destruct (convToMetricType _ _). Qed.
(** A family has the name of its line, or that under which it was looked for. *)
Lemma fam_cases mc mn : fam mc mn = mn ∨ (fam mc mn = fallback_name mc mn ∧ mc mn = None ∧ is_Some (mc (normalizeMetricName mn)) ∧ internalMetricMetadata !! mn = None).
Proof.
  rewrite fam_metadata. unfold metadataForMetric, fallback_name, isCounterCreatedLine.
  destruct (internalMetricMetadata !! mn); [by left|]. destruct (mc mn) as [md|]; [by left|].
  destruct (mc (normalizeMetricName mn)) as [md|]; [|by left]. destruct (decide (md_Type md = TypeCounter)) as [E|E].
  - destruct (has_suffix mn metricSuffixCreated); [|by left]. right. cbn. by rewrite bool_decide_eq_true_2.
  - right. rewrite bool_decide_eq_false_2, andb_false_r by done. done.
Qed.
Lemma normalize_empty_total : normalizeMetricName ("" +:+ metricSuffixTotal) = metricSuffixTotal.
Proof. reflexivity. Qed.
(** A line with the name of a family founds that family. *)
Lemma fam_idem mc mn : fam mc (fam mc mn) = fam mc mn.
Proof.
  destruct (fam_cases mc mn) as [E|(_ & Hmc & [md Hn] & Hi)]; [by rewrite !E|].
  rewrite (fam_metadata mc mn). unfold metadataForMetric. rewrite Hi, Hmc, Hn. set (n := normalizeMetricName mn) in *.
  destruct (decide (md_Type md = TypeCounter)) as [Ec|Ec]; [destruct (has_suffix mn metricSuffixCreated) eqn:Hs|]; cbn [snd].
  - set (x := n +:+ metricSuffixTotal). rewrite fam_metadata. unfold metadataForMetric.
    destruct (internalMetricMetadata !! x); [done|]. destruct (mc x) eqn:Hx; [done|].
    assert (has_suffix x metricSuffixCreated = false) as Hc by (apply has_suffix_total; done).
    destruct (decide (n = "")) as [E|E].
    + unfold x. rewrite E, normalize_empty_total. replace (mc metricSuffixTotal) with (@None MetricMetadata); [done|].
      rewrite <-Hx. unfold x. by rewrite E.
    + unfold x at 1. rewrite normalize_total, Hn, decide_True, Hc by done. done.
  - rewrite fam_metadata. unfold metadataForMetric. rewrite Hi, Hmc. fold n. rewrite Hn, decide_True by done. by rewrite Hs.
  - rewrite fam_metadata. unfold metadataForMetric. destruct (internalMetricMetadata !! n); [done|]. by rewrite Hn.
Qed.
End families.

(** ** The shape of a family *)

Section shape.
Context `{PM : Prometheus} `{TL : TargetLibrary} `{GR : GoRange} `{HL : HistogramLibrary} `{XL : TransactionLibrary}.

(** What samples do not change. *)
Definition shape (mf : metricFamily) : MetricType * bool * string * MetricMetadata :=
  (mf_mtype mf, mf_isMonotonic mf, mf_name mf, mf_metadata mf).
Lemma shape_set_group mf key mg : shape (set_group mf key mg) = shape mf.
Proof. done. Qed.
Lemma shape_load mf key ls ts : shape (loadMetricGroupOrCreate mf key ls ts).2 = shape mf.
Proof. unfold loadMetricGroupOrCreate. by destruct (mf_groups mf !! key). Qed.
Lemma shape_created mf key ls atMs ctMs : shape (addCreationTimestamp mf key ls atMs ctMs) = shape mf.
Proof. unfold addCreationTimestamp. pose proof (shape_load mf key ls atMs). by destruct (loadMetricGroupOrCreate mf key ls atMs) as [mg mf']. Qed.
Lemma shape_add_series mf key name ls ts v : shape (addSeries mf key name ls ts v).1 = shape mf.
Proof.
  unfold addSeries. pose proof (shape_load mf key ls ts) as Hs. destruct (loadMetricGroupOrCreate mf key ls ts) as [mg mf'].
  case_decide; [|done]. by destruct (add_to_group mf' mg name ls v).
Qed.
Lemma shape_add_point mf name ls atMs stMs v : shape (add_point mf name ls atMs stMs v).1 = shape mf.
Proof. unfold add_point. rewrite shape_add_series. destruct (stMs =? 0); [done|]. apply shape_created. Qed.
Lemma includes_shape mf mf' mn : shape mf = shape mf' → includesMetric mf mn = includesMetric mf' mn.
Proof. unfold shape, includesMetric. by intros [= -> _ -> ->]. Qed.
(** A family that was founded by a number is not one of native histograms: its metric is no panic. *)
Lemma new_family_not_native mc mn : mf_mtype (new_family mc mn) ≠ MetricTypeExponentialHistogram.
Proof. unfold new_family, newMetricFamily. destruct (metadataForMetric mn mc) as [[? [] ? ?] ?]; done. Qed.
Lemma appendMetric_total mf trim : mf_mtype mf ≠ MetricTypeExponentialHistogram → is_Some (appendMetric mf trim).
Proof.
  intros Hm. unfold appendMetric. rewrite (mapM_total _ (λ mg, default None (group_points mf mg))).
  - cbn. destruct (omap id _); by eexists.
  - intros mg _. unfold group_points. by destruct (mf_mtype mf).
Qed.
Lemma appendMetric_points mf trim m : appendMetric mf trim = Some (Some m) → pm_points m ≠ [].
Proof.
  unfold appendMetric. destruct (mapM _ _) as [ps|]; [|done]. cbn. destruct (omap id ps) eqn:E; [done|]. by intros [= <-].
Qed.

(** ** The maps of a transaction *)

Lemma families_of_put t r s k mf r' s' k' :
  families_of (put_family t r s k mf) r' s' !! k' = if decide (r = r' ∧ s = s' ∧ k = k') then Some mf else families_of t r' s' !! k'.
Proof.
  unfold families_of at 1, put_family. cbn. rewrite lookup_insert. case_decide as Hr; cbn.
  - subst r'. rewrite lookup_insert. case_decide as Hs; cbn.
    + subst s'. rewrite lookup_insert. case_decide as Hk; [by rewrite decide_True|]. by rewrite decide_False by naive_solver.
    + by rewrite decide_False by naive_solver.
  - by rewrite decide_False by naive_solver.
Qed.
End shape.

(** ** The lines of a scrape *)

Section scrape.
Context `{PM : Prometheus} `{TL : TargetLibrary} `{GR : GoRange} `{HL : HistogramLibrary} `{XL : TransactionLibrary}.
(** The target and the metadata of the scrape, and how the receiver is configured. *)
Context (ctx : scrape_context) (target : Target) (mc : MetadataStore) (ext : Labels) (version : string) (ignore trim useMetadata : bool).
Hypothesis not_done : sc_done ctx = false.
Hypothesis has_target : sc_target ctx = Some target.
Hypothesis has_store : (if useMetadata then sc_store ctx else Some emptyMetadataStore) = Some mc.

Definition line_labels (c : append_call) : Labels := add_external ext (ac_ls c).
Definition line_name (c : append_call) : string := Labels_Get (line_labels c) MetricNameLabel.
Definition line_resource (c : append_call) : option resourceKey := getJobAndInstance ctx (line_labels c).
(** A number with labels that are in order; its exemplars are not told here. *)
Record number_line (c : append_call) : Prop := {
  nl_h : ac_h c = None; nl_fh : ac_fh c = None; nl_exemplars : ao_Exemplars (ac_opts c) = [];
  nl_unique : HasDuplicateLabelNames (line_labels c) = None; nl_name : line_name c ≠ ""; nl_resource : is_Some (line_resource c);
  nl_stale : IsStaleNaN (ac_v c) = true → is_native mc (line_name c) = false }.
Definition is_target_info (c : append_call) : bool := bool_decide (line_name c = TargetInfoMetricName).
Definition is_scope_info (c : append_call) : bool := bool_decide (line_name c = ScopeInfoMetricName) && negb ignore.

(** *** The groups *)

Abbreviation key := (resourceKey * (scopeID * metricFamilyKey))%type.
Definition number_key (mn : string) : metricFamilyKey := {| fk_isExponentialHistogram := false; fk_name := fam mc mn |}.
Definition line_key (c : append_call) : option key :=
  if is_target_info c || is_scope_info c then None
  else (λ r, (r, ((getScopeID (line_labels c)).1, number_key (line_name c)))) <$> line_resource c.
Definition add_line (mf : metricFamily) (c : append_call) : metricFamily :=
  (add_point mf (line_name c) (line_labels c) (ac_t c) (ac_st c) (ac_v c)).1.
(** The first line of a family founds it. *)
Definition own_lines (k : key) (lines : list append_call) : list append_call := filter (λ c, line_key c = Some k) lines.
Definition family_spec (k : key) (lines : list append_call) : option metricFamily :=
  match own_lines k lines with [] => None | c :: _ => Some (foldl add_line (new_family mc (line_name c)) (own_lines k lines)) end.
Definition resource_step (r : resourceKey) (acc : option (gmap string string)) (c : append_call) : option (gmap string string) :=
  if decide (line_resource c = Some r) then
    let attrs := default (CreateResource (rk_job r) (rk_instance r) (DiscoveredLabels target)) acc in
    Some (if is_target_info c then put_labels (line_labels c) attrs else attrs)
  else acc.
Definition resource_spec (r : resourceKey) (lines : list append_call) : option (gmap string string) := foldl (resource_step r) None lines.
Definition scope_step (r : resourceKey) (s : scopeID) (acc : option (gmap string string)) (c : append_call) : option (gmap string string) :=
  if decide (line_resource c ≠ Some r) then acc
  else if is_target_info c then acc
  else if is_scope_info c then
    if decide ((scope_info_of (line_labels c)).1 = s) then Some (scope_info_of (line_labels c)).2 else acc
  else
    let '(s', attrs) := getScopeID (line_labels c) in
    if decide (s' = s ∧ attrs ≠ ∅) then Some (default attrs acc) else acc.
Definition scope_spec (r : resourceKey) (s : scopeID) (lines : list append_call) : option (gmap string string) := foldl (scope_step r s) None lines.

Lemma family_spec_snoc k lines c :
  family_spec k (lines ++ [c])
  = if decide (line_key c = Some k) then Some (add_line (default (new_family mc (line_name c)) (family_spec k lines)) c) else family_spec k lines.
Proof.
  unfold family_spec, own_lines. rewrite filter_app. cbn [filter list_filter]. case_decide as Hk; cbn; [|by rewrite app_nil_r].
  destruct (filter _ lines) as [|c0 l]; [done|]. rewrite <-app_comm_cons. by rewrite app_comm_cons, foldl_app.
Qed.
Lemma shape_lines lines mf : shape (foldl add_line mf lines) = shape mf.
Proof. revert mf. induction lines as [|c l IH]; intros mf; [done|]. cbn [foldl]. rewrite IH. apply shape_add_point. Qed.
Lemma family_spec_shape k lines mf :
  family_spec k lines = Some mf → ∃ c, c ∈ lines ∧ line_key c = Some k ∧ shape mf = shape (new_family mc (line_name c)).
Proof.
  unfold family_spec. destruct (own_lines k lines) as [|c l] eqn:E; [done|]. intros [= <-]. exists c.
  assert (c ∈ own_lines k lines) as [Hk Hc]%list_elem_of_filter by (rewrite E; by left). split_and!; [done..|].
  apply (shape_lines (c :: l)).
Qed.
Lemma line_key_name c r s k : line_key c = Some (r, (s, k)) → k = number_key (line_name c) ∧ line_resource c = Some r.
Proof. unfold line_key. destruct (_ || _); [done|]. destruct (line_resource c); naive_solver. Qed.

(** A line that is looked for under another name than its own belongs to the family that is
    there exactly when that family is its own. *)
Definition names_agree (names : list string) : Prop :=
  ∀ m m2, m ∈ names → m2 ∈ names → fallback_name mc m ≠ m → fam mc m2 = fallback_name mc m → includesMetric (new_family mc m2) m = bool_decide (fam mc m = fam mc m2).
Definition names_of (lines : list append_call) : list string := line_name <$> filter (λ c, is_Some (line_key c)) lines.

Section lookup.
Context (names : list string) (agree : names_agree names).

Lemma own_family_found t r s m lines :
  tx_mc t = mc → tx_addingNativeHistogram t = false → tx_addingNHCB t = false → m ∈ names → names_of lines ⊆ names →
  (∀ k, families_of t r s !! k = family_spec (r, (s, k)) lines) →
  ∃ t', getOrCreateMetricFamily t r s m = (t', number_key m, default (new_family mc m) (family_spec (r, (s, number_key m)) lines))
    ∧ (t' = t ∨ t' = put_family t r s (number_key m) (new_family mc m)).
Proof using agree.
  intros Hmc Hnat Hnhcb Hm Hsub Hfams. unfold getOrCreateMetricFamily. rewrite Hmc, Hnat, Hnhcb.
  assert (∀ name mf, family_spec (r, (s, {| fk_isExponentialHistogram := false; fk_name := name |})) lines = Some mf →
            ∃ m2, m2 ∈ names ∧ name = fam mc m2 ∧ shape mf = shape (new_family mc m2)) as Hfound.
  { intros name mf (c & Hc & Hk & Hs)%family_spec_shape. exists (line_name c). pose proof Hk as [[= ->] _]%line_key_name. split_and!; [|done..].
    apply Hsub, list_elem_of_fmap. exists c. split; [done|]. apply list_elem_of_filter. split; [by eexists|done]. }
  rewrite !Hfams. destruct (family_spec (r, (s, {| fk_isExponentialHistogram := false; fk_name := m |})) lines) as [mf|] eqn:E.
  { destruct (Hfound _ _ E) as (m2 & _ & Hm2 & _). assert (fam mc m = m) as Hown by (rewrite Hm2 at 1; by rewrite fam_idem).
    exists t. unfold number_key. rewrite Hown, E. split; [done|by left]. }
  assert (∀ mf, family_spec (r, (s, number_key m)) lines = Some mf → fam mc m = fallback_name mc m) as Hown.
  { intros mf Hmf. destruct (fam_cases mc m) as [Hf|[Hf _]]; [|done]. unfold number_key in Hmf. by rewrite Hf, E in Hmf. }
  destruct (family_spec (r, (s, {| fk_isExponentialHistogram := false; fk_name := fallback_name mc m |})) lines) as [mf|] eqn:E2.
  - destruct (Hfound _ _ E2) as (m2 & Hm2 & Hname & Hshape). rewrite (includes_shape _ _ _ Hshape), agree by (congruence || done). case_bool_decide as Hf.
    + exists t. unfold number_key. rewrite Hf, <-Hname, E2. split; [done|by left].
    + assert (family_spec (r, (s, number_key m)) lines = None) as ->; [|eexists; split; [done|by right]].
      apply eq_None_not_Some. intros [mf' E3]. apply Hown in E3. congruence.
  - assert (family_spec (r, (s, number_key m)) lines = None) as ->; [|eexists; split; [done|by right]].
    apply eq_None_not_Some. intros [mf' E3]. pose proof (Hown _ E3) as Hf. unfold number_key in E3. rewrite Hf in E3. congruence.
Qed.

(** *** One line *)

Record grouped (lines : list append_call) (t : transaction) : Prop := {
  g_ext : tx_externalLabels t = ext; g_trim : tx_trimSuffixes t = trim; g_use : tx_useMetadata t = useMetadata;
  g_ignore : tx_ignoreScopeInfoMetric t = ignore; g_version : tx_version t = version; g_new : tx_isNew t = bool_decide (lines = []);
  g_fams r s k : families_of t r s !! k = family_spec (r, (s, k)) lines;
  g_res r : tx_nodeResources t !! r = resource_spec r lines;
  g_scopes r s : tx_scopeAttributes t !! r ≫= (.!! s) = scope_spec r s lines }.

Definition known_resource (t : transaction) (r : resourceKey) : transaction :=
  with_resources t false mc
    (<[r := default (CreateResource (rk_job r) (rk_instance r) (DiscoveredLabels target)) (tx_nodeResources t !! r)]> (tx_nodeResources t)).
Lemma prepare_line lines t c r :
  grouped lines t → number_line c → line_resource c = Some r →
  prepareLabels ctx t (ac_ls c) = (known_resource t r, Ok (line_labels c, r, line_name c)).
Proof using not_done has_target has_store.
  intros Hg [] Hr. unfold prepareLabels. rewrite not_done, (g_ext _ _ Hg). fold (line_labels c). unfold initTransaction.
  rewrite has_target, (g_use _ _ Hg), has_store. fold (line_resource c). rewrite Hr. cbn [fst snd].
  assert (∀ m : gmap resourceKey (gmap string string), match m !! r with
          | Some _ => m | None => <[r := CreateResource (rk_job r) (rk_instance r) (DiscoveredLabels target)]> m end
          = <[r := default (CreateResource (rk_job r) (rk_instance r) (DiscoveredLabels target)) (m !! r)]> m) as ->.
  { intros m. destruct (m !! r) as [a|] eqn:E; [|done]. cbn. by rewrite insert_id. }
  fold (known_resource t r). rewrite nl_unique0. fold (line_name c). by rewrite decide_False.
Qed.
Lemma resource_spec_snoc r lines c : resource_spec r (lines ++ [c]) = resource_step r (resource_spec r lines) c.
Proof. unfold resource_spec. by rewrite foldl_app. Qed.
Lemma scope_spec_snoc r s lines c : scope_spec r s (lines ++ [c]) = scope_step r s (scope_spec r s lines) c.
Proof. unfold scope_spec. by rewrite foldl_app. Qed.
Lemma snoc_not_new (lines : list append_call) c : false = bool_decide (lines ++ [c] = []).
Proof. by destruct lines. Qed.
Hint Resolve snoc_not_new : core.

Lemma target_info_line lines t c r :
  grouped lines t → line_resource c = Some r → is_target_info c = true →
  grouped (lines ++ [c]) (AddTargetInfo (with_adding (known_resource t r) false false) r (line_labels c)).
Proof.
  intros [] Hr Hi. unfold AddTargetInfo. cbn. rewrite lookup_insert_eq.
  constructor; cbn; [done..| | |].
  - intros r' s' k. rewrite family_spec_snoc, decide_False; [apply g_fams0|]. unfold line_key. by rewrite Hi.
  - intros r'. rewrite resource_spec_snoc. unfold resource_step. rewrite insert_insert_eq, lookup_insert, Hr, Hi, <-g_res0.
    repeat case_decide; congruence.
  - intros r' s'. rewrite scope_spec_snoc. unfold scope_step. rewrite Hi. case_decide; apply g_scopes0.
Qed.
Lemma resources_of_line lines t c r r' :
  grouped lines t → line_resource c = Some r → is_target_info c = false →
  tx_nodeResources (known_resource t r) !! r' = resource_spec r' (lines ++ [c]).
Proof.
  intros [] Hr Hi. rewrite resource_spec_snoc. unfold resource_step, known_resource. cbn. rewrite lookup_insert, Hr, Hi, <-g_res0.
  repeat case_decide; congruence.
Qed.
Lemma lookup_scope_insert (m : gmap resourceKey (gmap scopeID (gmap string string))) r s attrs r' s' :
  <[r := <[s := attrs]> (default ∅ (m !! r))]> m !! r' ≫= (.!! s') = if decide (r = r' ∧ s = s') then Some attrs else m !! r' ≫= (.!! s').
Proof.
  rewrite lookup_insert. case_decide as Hr; cbn.
  - subst r'. rewrite lookup_insert. case_decide; [by rewrite decide_True|]. rewrite decide_False by naive_solver. by destruct (m !! r).
  - by rewrite decide_False by naive_solver.
Qed.
Lemma scope_info_line lines t c r :
  grouped lines t → line_resource c = Some r → is_target_info c = false → is_scope_info c = true →
  grouped (lines ++ [c]) (addScopeInfo (with_adding (known_resource t r) false false) r (line_labels c)).
Proof.
  intros Hg Hr Ht Hi. pose proof (λ r', resources_of_line _ _ _ _ r' Hg Hr Ht) as Hres. destruct Hg.
  unfold addScopeInfo. destruct (scope_info_of (line_labels c)) as [s attrs] eqn:E. constructor; cbn; [done..| | |].
  - intros r' s' k. rewrite family_spec_snoc, decide_False; [apply g_fams0|]. unfold line_key. by rewrite Ht, Hi.
  - apply Hres.
  - intros r' s'. rewrite lookup_scope_insert, scope_spec_snoc. unfold scope_step. rewrite Hr, Ht, Hi, E, g_scopes0. cbn.
    repeat case_decide; naive_solver.
Qed.
Lemma scope_attributes_of_line t r ls r' s' :
  tx_scopeAttributes (addScopeAttributesFromLabels t r (getScopeID ls).1 (getScopeID ls).2) !! r' ≫= (.!! s')
  = if decide (r = r' ∧ (getScopeID ls).1 = s' ∧ (getScopeID ls).2 ≠ ∅) then Some (default (getScopeID ls).2 (tx_scopeAttributes t !! r' ≫= (.!! s')))
    else tx_scopeAttributes t !! r' ≫= (.!! s').
Proof.
  destruct (getScopeID ls) as [s attrs]. unfold addScopeAttributesFromLabels. cbn [fst snd]. case_decide as Ha.
  { by rewrite decide_False by naive_solver. }
  destruct (default ∅ (tx_scopeAttributes t !! r) !! s) as [old|] eqn:E.
  - case_decide as Hd; [|done]. destruct Hd as (-> & -> & _). by destruct (tx_scopeAttributes t !! r') as [m|]; [cbn in *; rewrite E|].
  - cbn [tx_scopeAttributes with_scope_attributes]. rewrite lookup_scope_insert. case_decide as Hd.
    + destruct Hd as [-> ->]. rewrite decide_True by done. by destruct (tx_scopeAttributes t !! r') as [m|]; [cbn in *; rewrite E|].
    + by rewrite decide_False by naive_solver.
Qed.
Lemma add_scope_families t r s attrs : tx_families (addScopeAttributesFromLabels t r s attrs) = tx_families t.
Proof. unfold addScopeAttributesFromLabels. case_decide; [done|]. by destruct (_ !! s). Qed.

(** What a sample does not change. *)
Definition fixed (t : transaction) :=
  (tx_externalLabels t, tx_trimSuffixes t, tx_useMetadata t, tx_ignoreScopeInfoMetric t, tx_version t, tx_isNew t, tx_mc t,
   tx_addingNativeHistogram t, tx_addingNHCB t, tx_nodeResources t).
Lemma fixed_add_scope t r s attrs : fixed (addScopeAttributesFromLabels t r s attrs) = fixed t.
Proof. unfold addScopeAttributesFromLabels. case_decide; [done|]. by destruct (_ !! s). Qed.

Lemma sample_line lines t c r :
  grouped lines t → number_line c → line_resource c = Some r → is_target_info c = false → is_scope_info c = false →
  names_of (lines ++ [c]) ⊆ names →
  ∃ t' ref, addSampleDatapoint (with_adding (known_resource t r) false false) r (line_labels c) (line_name c) (ac_t c) (ac_v c) (ac_st c) = (t', ref)
    ∧ grouped (lines ++ [c]) t'.
Proof using agree.
  intros Hg Hc Hr Ht Hi Hsub. pose proof (λ r', resources_of_line _ _ _ _ r' Hg Hr Ht) as Hres.
  unfold addSampleDatapoint. unfold is_target_info, is_scope_info in Ht, Hi. apply bool_decide_eq_false in Ht as Ht'. rewrite decide_False by done.
  replace (tx_ignoreScopeInfoMetric (with_adding (known_resource t r) false false)) with ignore by (symmetry; apply (g_ignore _ _ Hg)).
  rewrite Hi. pose proof (scope_attributes_of_line (with_adding (known_resource t r) false false) r (line_labels c)) as Hscopes.
  set (t0 := with_adding (known_resource t r) false false) in *.
  assert (tx_families t0 = tx_families t) as Hf0 by done. assert (fixed t0 = (ext, trim, useMetadata, ignore, version, false, mc, false, false,
    tx_nodeResources (known_resource t r))) as Hx0 by (destruct Hg; unfold fixed; cbn; congruence).
  assert (∀ r' s', tx_scopeAttributes t0 !! r' ≫= (.!! s') = scope_spec r' s' lines) as Hs0 by apply Hg. clearbody t0.
  destruct (getScopeID (line_labels c)) as [s attrs] eqn:Es. cbn [fst snd] in Hscopes.
  pose proof (add_scope_families t0 r s attrs) as Hf1. pose proof (fixed_add_scope t0 r s attrs) as Hx1.
  set (t1 := addScopeAttributesFromLabels t0 r s attrs) in *. clearbody t1. rewrite Hf0 in Hf1. rewrite Hx0 in Hx1.
  assert (line_key c = Some (r, (s, number_key (line_name c)))) as Hk by (unfold line_key, is_target_info, is_scope_info; by rewrite Ht, Hi, Hr, Es).
  assert ((if IsStaleNaN (ac_v c) then detectAndStoreNativeHistogramStaleness t1 (ac_t c) r s (line_name c) (line_labels c) else (t1, false))
          = (t1, false)) as ->.
  { destruct (IsStaleNaN (ac_v c)) eqn:Ev; [|done]. unfold detectAndStoreNativeHistogramStaleness. injection Hx1 as _ _ _ _ _ _ -> _ _ _.
    by rewrite (nl_stale _ Hc Ev). }
  destruct (own_family_found t1 r s (line_name c) lines) as (t2 & E2 & Ht2); [by injection Hx1|by injection Hx1|by injection Hx1| | | |].
  { apply Hsub, list_elem_of_fmap. exists c. split; [done|]. apply list_elem_of_filter. split; [by rewrite Hk|]. apply elem_of_app. right. by left. }
  { intros m Hm. apply Hsub. unfold names_of in *. rewrite filter_app, fmap_app. apply elem_of_app. by left. }
  { intros k. unfold families_of. rewrite Hf1. apply (g_fams _ _ Hg). }
  rewrite E2. set (mf := default _ _) in *.
  destruct (add_point mf (line_name c) (line_labels c) (ac_t c) (ac_st c) (ac_v c)) as [mf' err] eqn:Ep. eexists _, _. split; [done|].
  assert (fixed t2 = fixed t1 ∧ tx_scopeAttributes t2 = tx_scopeAttributes t1) as [Hx2 Hs2] by (destruct Ht2 as [->| ->]; done).
  rewrite Hx1 in Hx2. injection Hx2 as X1 X2 X3 X4 X5 X6 X7 X8 X9 X10.
  constructor; [done..|by rewrite <-snoc_not_new| | |].
  - intros r' s' k. rewrite families_of_put, family_spec_snoc, Hk. unfold add_line.
    destruct (decide (r = r' ∧ s = s' ∧ number_key (line_name c) = k)) as [(<- & <- & <-)|Hd].
    + rewrite decide_True by done. fold mf. by rewrite Ep.
    + rewrite decide_False by naive_solver. destruct Ht2 as [->| ->].
      * unfold families_of. rewrite Hf1. apply (g_fams _ _ Hg).
      * rewrite families_of_put, decide_False by done. unfold families_of. rewrite Hf1. apply (g_fams _ _ Hg).
  - intros r'. cbn. rewrite X10. apply Hres.
  - intros r' s'. cbn. rewrite Hs2, Hscopes, !Hs0, scope_spec_snoc. unfold scope_step, is_target_info, is_scope_info. rewrite Hr, Ht, Hi, Es.
    repeat case_decide; naive_solver.
Qed.
Lemma append_line lines t c :
  grouped lines t → number_line c → names_of (lines ++ [c]) ⊆ names →
  ∃ t' ref, Append ctx t c = (t', Ok ref) ∧ grouped (lines ++ [c]) t'.
Proof using agree not_done has_target has_store.
  intros Hg Hc Hsub. destruct (nl_resource _ Hc) as [r Hr]. unfold Append. rewrite (prepare_line _ _ _ _ Hg Hc Hr).
  rewrite (nl_h _ Hc), (nl_fh _ Hc), (nl_exemplars _ Hc). cbn [fmap option_fmap option_map foldl].
  destruct (is_target_info c) eqn:Ht.
  { unfold addSampleDatapoint. rewrite decide_True by (by apply bool_decide_eq_true in Ht). eexists _, _. split; [done|]. by apply target_info_line. }
  destruct (is_scope_info c) eqn:Hi; [|destruct (sample_line lines t c r) as (t' & ref & -> & Hg'); naive_solver].
  unfold addSampleDatapoint. rewrite decide_False by (by apply bool_decide_eq_false in Ht).
  replace (tx_ignoreScopeInfoMetric (with_adding (known_resource t r) false false)) with ignore by (symmetry; apply (g_ignore _ _ Hg)).
  unfold is_scope_info in Hi. rewrite Hi. eexists _, _. split; [done|]. by apply scope_info_line.
Qed.
End lookup.

Fixpoint append_lines (t : transaction) (lines : list append_call) : result string transaction :=
  match lines with
  | [] => Ok t
  | c :: rest => match Append ctx t c with (t, Ok _) => append_lines t rest | (_, Err err) => Err err end
  end.
Lemma append_lines_grouped done rest t :
  Forall number_line (done ++ rest) → names_agree (names_of (done ++ rest)) → grouped done t →
  ∃ t', append_lines t rest = Ok t' ∧ grouped (done ++ rest) t'.
Proof using not_done has_target has_store.
  revert done t. induction rest as [|c rest IH]; intros done t Hl Ha Hg; [exists t; by rewrite app_nil_r|].
  destruct (append_line (names_of (done ++ c :: rest)) Ha done t c) as (t' & ref & E & Hg'); [done| | |].
  { apply Forall_app in Hl as [_ Hl]. by inversion Hl. }
  { rewrite (cons_middle c done rest), app_assoc. unfold names_of. rewrite !filter_app, !fmap_app. set_solver. }
  cbn [append_lines]. rewrite E. rewrite (cons_middle c done rest), app_assoc in *. by apply IH.
Qed.

(** ** What is sent *)

Abbreviation item := (gmap string string * (string * string * string * gmap string string) * prom_metric)%type.
(** Each metric with the attributes of its resource and its scope. *)
Definition sent_metrics (rms : list resource_metrics) : list item :=
  rms ≫= λ rm, rm_scopes rm ≫= λ sm,
    (λ m, (rm_attributes rm, (sm_name sm, sm_version sm, sm_schemaURL sm, sm_attributes sm), m)) <$> sm_metrics sm.
Definition scope_out (s : scopeID) (attrs : option (gmap string string)) : string * string * string * gmap string string :=
  if decide (s = emptyScopeID) then (ReceiverScopeName, version, "", ∅)
  else (sid_name s, sid_version s, sid_schemaURL s, default ∅ attrs).
Definition metric_of (mf : metricFamily) : option prom_metric := mjoin (appendMetric mf trim).
(** The metric of a group of lines, if it has points. *)
Definition group_spec (lines : list append_call) (k : key) : option item :=
  mf ← family_spec k lines;
  attrs ← resource_spec k.1 lines;
  m ← metric_of mf;
  Some (attrs, scope_out k.2.1 (scope_spec k.1 k.2.1 lines), m).
Definition sent_spec (lines : list append_call) : list item := omap (group_spec lines) (remove_dups (omap line_key lines)).

(** *** The lists of a transaction *)

Definition entries (t : transaction) : list (key * metricFamily) := nest (tx_families t) (λ scopes, nest scopes go_range).
Definition out (t : transaction) (e : key * metricFamily) : option item :=
  attrs ← tx_nodeResources t !! e.1.1;
  m ← metric_of e.2;
  Some (attrs, scope_out e.1.2.1 (tx_scopeAttributes t !! e.1.1 ≫= (.!! e.1.2.1)), m).
Lemma elem_of_entries t r s k mf : ((r, (s, k)), mf) ∈ entries t ↔ families_of t r s !! k = Some mf.
Proof.
  unfold entries. rewrite elem_of_nest. unfold families_of. split.
  - intros (scopes & -> & (mfs & Hs & Hk)%elem_of_nest). cbn. rewrite Hs. by apply elem_of_go_range in Hk.
  - destruct (tx_families t !! r) as [scopes|] eqn:Er; cbn; [|by rewrite !lookup_empty]. intros H. exists scopes. split; [done|].
    apply elem_of_nest. destruct (scopes !! s) as [mfs|] eqn:Es; cbn in H; [|by rewrite lookup_empty in H]. exists mfs. split; [done|].
    by apply elem_of_go_range.
Qed.
Lemma NoDup_entries t : NoDup (entries t).*1.
Proof. apply NoDup_nest. intros scopes. apply NoDup_nest. intros mfs. apply NoDup_go_range. Qed.

Lemma resource_entries_grouped lines t :
  grouped lines t →
  entries t ≡ₚ omap (λ k, (k,.) <$> family_spec k lines) (remove_dups (omap line_key lines)).
Proof.
  intros Hg. apply NoDup_Permutation.
  - eapply NoDup_fmap_1, NoDup_entries.
  - pose proof (NoDup_remove_dups (omap line_key lines)) as Hn. induction (remove_dups _) as [|k l IH]; [constructor|].
    apply NoDup_cons in Hn as [Hk Hn]. cbn. destruct (family_spec k lines) as [mf|]; cbn; [|by apply IH]. constructor; [|by apply IH].
    rewrite list_elem_of_omap. intros (k' & Hk' & E). destruct (family_spec k' lines); [|done]. cbn in E. naive_solver.
  - intros [[r [s k]] mf]. rewrite elem_of_entries, (g_fams _ _ Hg), list_elem_of_omap. split.
    + intros E. exists (r, (s, k)). rewrite E. split; [|done]. apply elem_of_remove_dups, list_elem_of_omap.
      apply family_spec_shape in E as (c & Hc & Hk & _). by exists c.
    + intros (k' & _ & E). destruct (family_spec k' lines) eqn:E'; [|done]. cbn in E. naive_solver.
Qed.
Lemma out_grouped lines t : grouped lines t → omap (out t) (entries t) ≡ₚ sent_spec lines.
Proof.
  intros Hg. rewrite (resource_entries_grouped _ _ Hg). unfold sent_spec.
  induction (remove_dups _) as [|k l IH]; [done|]. cbn. unfold group_spec at 1. destruct (family_spec k lines) as [mf|] eqn:E; cbn; [|done].
  unfold out at 1. cbn. rewrite (g_res _ _ Hg), (g_scopes _ _ Hg). destruct (resource_spec k.1 lines); cbn; [|done].
  destruct (metric_of mf); cbn; [|done]. by rewrite IH.
Qed.

(** *** The metrics that are built *)

(** What [scope_metrics_of] and [resource_of] are when no metric panics. *)
Definition scope_value (t : transaction) (r : resourceKey) (s : scopeID) (mfs : scope_families) : scope_metrics :=
  let '(name, v, url, attrs) := scope_out s (tx_scopeAttributes t !! r ≫= (.!! s)) in
  {| sm_name := name; sm_version := v; sm_schemaURL := url; sm_attributes := attrs; sm_metrics := omap (λ kv, metric_of kv.2) (go_range mfs) |}.
Definition resource_value (t : transaction) (r : resourceKey) (scopes : gmap scopeID scope_families) : option resource_metrics :=
  attrs ← tx_nodeResources t !! r;
  if decide (scopes = ∅) then None else Some {| rm_attributes := attrs; rm_scopes := (λ kv, scope_value t r kv.1 kv.2) <$> go_range scopes |}.

Lemma scope_metrics_of_value t r s mfs :
  tx_trimSuffixes t = trim → tx_version t = version → (∀ k mf, mfs !! k = Some mf → mf_mtype mf ≠ MetricTypeExponentialHistogram) →
  scope_metrics_of t r s mfs = Some (scope_value t r s mfs).
Proof.
  intros Ht Hv Hm. unfold scope_metrics_of. rewrite (mapM_total _ (λ kv, default None (appendMetric kv.2 trim))).
  - cbn. unfold scope_value, scope_out. assert (omap id ((λ kv, default None (appendMetric kv.2 trim)) <$> go_range mfs) = omap (λ kv, metric_of kv.2) (go_range mfs)) as ->.
    { induction (go_range mfs) as [|[k mf] l IH]; [done|]. cbn. unfold metric_of at 1. destruct (appendMetric mf trim) as [[m|]|]; cbn; [by rewrite <-IH|done..]. }
    by destruct (decide (s = emptyScopeID)); rewrite ?Hv.
  - intros [k mf] Hk%elem_of_go_range. cbn. rewrite Ht. by destruct (appendMetric_total mf trim (Hm k mf Hk)) as [m ->].
Qed.
Lemma sent_app l1 l2 : sent_metrics (l1 ++ l2) = sent_metrics l1 ++ sent_metrics l2.
Proof. apply bind_app. Qed.
(** A resource without metrics sends nothing, whether it is removed or not. *)
Lemma sent_filter rms : sent_metrics (filter (λ rm, has_metrics rm = true) rms) = sent_metrics rms.
Proof.
  induction rms as [|rm rms IH]; [done|]. rewrite filter_cons. rewrite (sent_app [rm] rms : sent_metrics (rm :: rms) = _), <-IH.
  case_decide as Hm; [by rewrite <-sent_app|]. replace (sent_metrics [rm]) with (@nil item); [done|]. unfold sent_metrics. cbn. rewrite app_nil_r.
  unfold has_metrics in Hm. induction (rm_scopes rm) as [|sm l IHl]; [done|]. cbn in *. destruct (sm_metrics sm); [|done]. by apply IHl.
Qed.
Lemma sent_resource t r scopes :
  sent_metrics (option_list (resource_value t r scopes)) = omap (out t) ((λ jx, ((r, jx.1), jx.2)) <$> nest scopes go_range).
Proof.
  unfold resource_value, nest. destruct (tx_nodeResources t !! r) as [attrs|] eqn:Er; cbn.
  - case_decide as Hs.
    { subst scopes. pose proof (go_range_perm (∅ : gmap scopeID scope_families)) as Hp. rewrite map_to_list_empty in Hp.
      by apply Permutation_nil_r in Hp as ->. }
    unfold sent_metrics. cbn. rewrite app_nil_r. clear Hs. induction (go_range scopes) as [|[s mfs] l IH]; [done|]. cbn.
    rewrite fmap_app, omap_app, <-IH. f_equal. unfold scope_value. destruct (scope_out _ _) as [[[name v] url] sattrs] eqn:Eo. cbn. clear IH.
    induction (go_range mfs) as [|[k mf] l' IH]; [done|]. cbn. unfold out at 1. cbn. rewrite Er. cbn. destruct (metric_of mf) as [m|]; cbn; [|done].
    by rewrite Eo, <-IH.
  - generalize (go_range scopes ≫= λ kv : scopeID * scope_families, (λ jx, ((kv.1, jx.1), jx.2)) <$> go_range kv.2). intros l.
    induction l as [|[[s k] mf] l IH]; [done|]. cbn. unfold out at 1. cbn. by rewrite Er.
Qed.
Lemma getMetrics_grouped lines t :
  grouped lines t → omap line_key lines ≠ [] → ∃ rms, getMetrics t = Some (Ok rms) ∧ sent_metrics rms ≡ₚ sent_spec lines.
Proof.
  intros Hg Hk. assert (∀ r s k mf, families_of t r s !! k = Some mf → mf_mtype mf ≠ MetricTypeExponentialHistogram) as Hm.
  { intros r s k mf. rewrite (g_fams _ _ Hg). intros (c & _ & _ & Hs)%family_spec_shape. injection Hs as -> _ _ _. apply new_family_not_native. }
  unfold getMetrics. rewrite decide_False.
  - rewrite (mapM_total _ (λ kv, resource_value t kv.1 kv.2)).
    + eexists. split; [done|]. rewrite sent_filter, <-(out_grouped _ _ Hg). unfold entries. unfold nest at 1. rewrite omap_bind.
      induction (go_range (tx_families t)) as [|[r scopes] l IH]; [done|]. cbn [fmap list_fmap mbind list_bind].
      rewrite <-sent_resource. cbn [fst snd]. rewrite <-IH, <-sent_app. f_equiv. by destruct (resource_value t r scopes).
    + intros [r scopes] Hr%elem_of_go_range. cbn. unfold resource_of, resource_value. destruct (tx_nodeResources t !! r); [|done]. cbn.
      case_decide; [done|]. rewrite (mapM_total _ (λ kv, scope_value t r kv.1 kv.2)); [done|]. intros [s mfs] Hs%elem_of_go_range. cbn.
      apply scope_metrics_of_value; [apply Hg..|]. intros k mf Hmf. apply (Hm r s k). unfold families_of. rewrite Hr. cbn. by rewrite Hs.
  - intros Ht. destruct (omap line_key lines) as [|[r [s k]] l] eqn:E; [done|].
    assert ((r, (s, k)) ∈ omap line_key lines) as (c & Hc & Hck)%list_elem_of_omap by (rewrite E; left).
    pose proof (g_fams _ _ Hg r s k) as Hf. unfold families_of in Hf. rewrite Ht in Hf. cbn in Hf. rewrite !lookup_empty in Hf.
    unfold family_spec in Hf. assert (c ∈ own_lines (r, (s, k)) lines) as Hin by (by apply list_elem_of_filter).
    by destruct (own_lines (r, (s, k)) lines); [apply not_elem_of_nil in Hin|].
Qed.
Lemma points_of_sent rms : DataPointCount rms = Z.of_nat (sum_list ((λ x : item, length (pm_points x.2)) <$> sent_metrics rms)).
Proof.
  unfold DataPointCount, sent_metrics. do 2 f_equal. induction rms as [|rm rms IH]; [done|]. cbn. rewrite fmap_app, IH. f_equal. clear.
  induction (rm_scopes rm) as [|sm l IH]; [done|]. cbn. rewrite fmap_app, <-IH, <-list_fmap_compose. done.
Qed.
Lemma no_points rms : (∀ x, x ∈ sent_metrics rms → pm_points x.2 ≠ []) → (DataPointCount rms =? 0) = bool_decide (sent_metrics rms = []).
Proof.
  intros Hp. rewrite points_of_sent. destruct (sent_metrics rms) as [|x l]; [done|]. rewrite bool_decide_eq_false_2 by done. apply Z.eqb_neq.
  pose proof (Hp x ltac:(left)) as Hx. cbn. destruct (pm_points x.2); [done|]. cbn. lia.
Qed.
Lemma sent_has_points lines x : x ∈ sent_spec lines → pm_points x.2 ≠ [].
Proof.
  unfold sent_spec. rewrite list_elem_of_omap. intros (k & _ & E). unfold group_spec in E. destruct (family_spec k lines) as [mf|]; [|done]. cbn in E.
  destruct (resource_spec k.1 lines); [|done]. cbn in E. unfold metric_of in E. destruct (appendMetric mf trim) as [[m|]|] eqn:Em; [|done..].
  cbn in E. injection E as <-. by apply appendMetric_points in Em.
Qed.

(** C37. However the lines of a scrape come, what is sent is grouped: for each resource, scope and
    family of the lines, the metric of its own lines in their order, with the attributes of its
    resource and of its scope, once, and nothing else. Nothing is sent when no line made a point.
    The lines are numbers without exemplars, with a name, a job, an instance and unique labels, none
    a staleness marker of a native histogram, and their names agree about their families: the family
    found under the normalized name of a line is one that the line belongs to. Where they do not, a
    family replaces another with its points, see [family_replaced]. *)
Theorem commit_sends_groups sink lines :
  Forall number_line lines → names_agree (names_of lines) → omap line_key lines ≠ [] →
  ∃ t rms, append_lines (newTransaction ext version ignore trim useMetadata) lines = Ok t
    ∧ Commit sink t = Some (if bool_decide (sent_spec lines = []) then (None, None) else (Some rms, sink rms))
    ∧ sent_metrics rms ≡ₚ sent_spec lines.
Proof using not_done has_target has_store.
  intros Hl Ha Hk. destruct (append_lines_grouped [] lines (newTransaction ext version ignore trim useMetadata) Hl Ha) as (t & E & Hg).
  { by constructor. }
  cbn [app] in Hg. destruct (getMetrics_grouped _ _ Hg Hk) as (rms & Em & Hs). exists t, rms. split_and!; [done| |done].
  unfold Commit. rewrite (g_new _ _ Hg), bool_decide_eq_false_2 by (by intros ->). rewrite Em. cbn.
  rewrite no_points by (intros x Hx; rewrite Hs in Hx; by eapply sent_has_points).
  rewrite (bool_decide_ext (sent_metrics rms = []) (sent_spec lines = [])); [done|]. split; intros E0; rewrite E0 in Hs.
  - by apply Permutation_nil_l in Hs.
  - by apply Permutation_nil_r in Hs.
Qed.
End scrape.

(** Without metadata every line has a family of its own name, so that the names agree. *)
Lemma no_metadata_agrees `{PM : Prometheus} names : names_agree emptyMetadataStore names.
Proof.
  assert (∀ m, ∃ md, metadataForMetric m emptyMetadataStore = (md, m) ∧ (md_Type md = TypeGauge ∨ md_Type md = TypeUnknown)) as Hmd.
  { intros m. unfold metadataForMetric. destruct (internalMetricMetadata !! m) as [md|] eqn:Hm; [|by eexists; split; [|right]].
    exists md. split; [done|]. left. unfold internalMetricMetadata in Hm. apply elem_of_list_to_map_2 in Hm.
    repeat (apply elem_of_cons in Hm as [[= _ ->]|Hm]; [done|]). by apply elem_of_nil in Hm. }
  intros m m2 _ _ _ _. destruct (Hmd m) as (md & E & _), (Hmd m2) as (md2 & E2 & Ht). rewrite !fam_metadata, E, E2.
  unfold new_family, newMetricFamily. rewrite E2. by destruct Ht as [-> | ->].
Qed.

(** ** An instance *)

#[local] Existing Instances any_prom any_scrape any_builder any_range any_target.
Definition any_native : HistogramLibrary := {|
  IsExponentialSchema s := bool_decide (-4 ≤ s ≤ 8); IsExponentialSchemaReserved s := bool_decide (-9 ≤ s ≤ 52);
  ExponentialSchemaMin := -4; ExponentialSchemaMax := 8; CustomBucketsSchema := -53; ReduceResolution C B h s := Ok h |}.
Definition any_transaction : TransactionLibrary := {|
  TargetInfoMetricName := "target_info"; ScopeInfoMetricName := "otel_scope_info"; ScopeNameLabelKey := "otel_scope_name";
  ScopeVersionLabelKey := "otel_scope_version"; ScopeSchemaURLLabelKey := "otel_scope_schema_url"; ReceiverScopeName := "prometheusreceiver";
  MapHash m := if decide (m = ∅) then no_hash else "hash"; ServiceNameKey := "service.name"; ServerAddressKey := "server.address";
  ServiceInstanceIDKey := "service.instance.id"; ServerPortKey := "server.port"; URLSchemeKey := "url.scheme";
  IP := unit; ParseIP _ := None; IsLoopback _ := false; IsUnspecified _ := false; SplitHostPort _ := Ok ("host", "80") |}.
#[local] Existing Instances any_native any_transaction.

Definition number (ls : Labels) (x : Z) : append_call := {|
  ac_ref := 0; ac_ls := ls; ac_st := 0; ac_t := 1; ac_v := Sample (float64_of_int x); ac_h := None; ac_fh := None; ac_opts := no_options |}.
Definition labelled (name : string) (rest : Labels) : Labels :=
  [("__name__", name); ("instance", "host:80"); ("job", "server")] ++ rest.
(** Two series of a counter with a line of another metric between them, and the target's information. *)
Definition some_lines : list append_call :=
  [number (labelled "hits_total" [("path", "a")]) 3; number (labelled "up" []) 1; number (labelled "hits_total" [("path", "b")]) 5;
   number (labelled "target_info" [("zone", "x")]) 1].
Definition counters : MetadataStore := λ name,
  if decide (name = "hits_total") then Some {| MetricFamily := name; md_Type := TypeCounter; md_Help := ""; md_Unit := "" |} else None.
Definition counter_context : scrape_context := {| sc_done := false; sc_target := Some server; sc_store := Some counters |}.

Lemma commit_sends_groups_witness :
  ∃ t rms, append_lines counter_context (newTransaction [] "v1" false false true) some_lines = Ok t ∧ Commit (λ _, None) t = Some (Some rms, None)
    ∧ sent_metrics rms ≡ₚ sent_spec counter_context server counters [] "v1" false false some_lines
    ∧ (λ x : _ * _ * prom_metric, (pm_name x.2, pt_Data <$> pm_points x.2)) <$> sent_spec counter_context server counters [] "v1" false false some_lines
      = [("up", [NumberPoint (Some (float64_of_int 1))]);
         ("hits_total", [NumberPoint (Some (float64_of_int 3)); NumberPoint (Some (float64_of_int 5))])].
Proof.
  destruct (commit_sends_groups counter_context server counters [] "v1" false false true eq_refl eq_refl eq_refl (λ _, None) some_lines)
    as (t & rms & E & Ec & Hs).
  - repeat constructor; try done; vm_compute; done.
  - intros m m2 Hm Hm2. vm_compute in Hm, Hm2.
    repeat (apply elem_of_cons in Hm as [->|Hm]; [|try by apply elem_of_nil in Hm]);
      repeat (apply elem_of_cons in Hm2 as [->|Hm2]; [|try by apply elem_of_nil in Hm2]); vm_compute; done.
  - vm_compute. done.
  - exists t, rms. split_and!; [done| |done|vm_compute; reflexivity]. rewrite Ec. vm_compute. done.
Defined.

(** Names that do not agree: [foo_count], a metric without metadata, founds a family [foo], which
    replaces that of the gauge [foo] with the points it had. *)
Definition gauges : MetadataStore := λ name,
  if decide (name = "foo") then Some {| MetricFamily := name; md_Type := TypeGauge; md_Help := ""; md_Unit := "" |} else None.
Definition gauge_context : scrape_context := {| sc_done := false; sc_target := Some server; sc_store := Some gauges |}.
Lemma family_replaced :
  (t ← append_lines gauge_context (newTransaction [] "v1" false false true) [number (labelled "foo" []) 1; number (labelled "foo_count" []) 5];
   match Commit (λ _, None) t with
   | Some (Some rms, None) => Ok ((λ x : _ * _ * prom_metric, (pm_name x.2, pt_Data <$> pm_points x.2)) <$> sent_metrics rms)
   | _ => Err "not sent"
   end) = Ok [("foo", [NumberPoint (Some (float64_of_int 5))])].
Proof. vm_compute. reflexivity. Qed.

(** With an external label, an exemplar is looked for under labels that its series does not have. *)
Definition with_exemplar_of (c : append_call) (e : PromExemplar) : append_call := {|
  ac_ref := ac_ref c; ac_ls := ac_ls c; ac_st := ac_st c; ac_t := ac_t c; ac_v := ac_v c; ac_h := ac_h c; ac_fh := ac_fh c;
  ac_opts := {| ao_MetricFamilyName := ""; ao_Metadata := None; ao_Exemplars := [e]; ao_RejectOutOfOrder := false |} |}.
Definition exemplars_sent (ext : Labels) : result string (list nat) :=
  t ← append_lines counter_context (newTransaction ext "v1" false false true)
        [with_exemplar_of (number (labelled "hits_total" []) 3) {| ex_Labels := []; ex_Value := float64_of_int 3; ex_Ts := 1 |}];
  match Commit (λ _, None) t with
  | Some (Some rms, None) => Ok (sent_metrics rms ≫= λ x, (λ p, length (pt_Exemplars p)) <$> pm_points x.2)
  | _ => Err "not sent"
  end.
Lemma exemplar_lost : exemplars_sent [] = Ok [1%nat] ∧ exemplars_sent [("env", "prod")] = Ok [0%nat].
Proof. split; vm_compute; reflexivity. Qed.
