(* ===== verification/ScrapeLoop.v ===== *)
(** * The scrape of a target

    src/receiver/prometheusreceiver/internal/scrape: [append] of scrape_append_v2.go, and the
    reports and [scrapeAndReport] of scrape.go. The text parser is an argument: what it gives,
    entry by entry, and how it ends. Counts of errors that are only logged are left out. *)
From S2P Require Import Prelude GoText Pdata Sampling Pmetric Flatten Utils SpanHistogram PromFamily ScrapeConfig PromTarget ScrapeCache.
From Stdlib Require Import SpecFloat.

(** ** What the parser gives *)

Inductive sample_value := FloatValue (v : sample) | HistogramValue (h : option Histogram) (fh : option FloatHistogram).
(** An exemplar has a time or not. *)
Record parsed_sample := {
  ps_met : string; ps_ts : option Z; ps_value : sample_value; ps_lset : Labels; ps_st : Z; ps_exemplars : list (PromExemplar * bool) }.
Inductive parsed_entry :=
| EntryType (mfName : string) (t : model_type) | EntryHelp (mfName help : string) | EntryUnit (mfName unit : string) | EntryComment
| EntrySeries (s : parsed_sample).
(** The entries, and the error that ended them when it was not the end of the text. *)
Definition parsed : Type := list parsed_entry * option append_err.
(** A body is empty, of an unknown type, or has a parser. *)
Inductive body := EmptyBody | UnknownType (err : append_err) | Body (p : parsed).

Class ScrapeText := {
  err_text : append_err → string; sort_exemplars : list PromExemplar → list PromExemplar; Labels_String : Labels → string;
  nil_histogram_error : Labels → string }.

(** ** The loop *)

(** What a loop is configured with. *)
Record scrapeLoop := {
  sl_timeout : Z; sl_sampleMutator : Labels → Labels; sl_reportSampleMutator : Labels → Labels; sl_sampleLimit : Z; sl_bucketLimit : Z;
  sl_maxSchema : Z; sl_labelLimits : option labelLimits; sl_honorTimestamps : bool; sl_trackTimestampsStaleness : bool;
  sl_parseST : bool; sl_appendMetadataToWAL : bool; sl_reportExtraMetrics : bool; sl_validationScheme : ValidationScheme }.

Section loop.
Context `{PM : Prometheus} `{TL : TargetLibrary} `{GR : GoRange} `{HL : HistogramLibrary} `{ST : ScrapeText}.

Definition FromTime (ns : Z) : Z := ns / 1000000.
Definition maxAheadTime : Z := 10 * minute.

Section with_appender.
Context {A : Type} (app : appender A).

(** The markers; that a sample is too old or is there already is not an error here. *)
Fixpoint mark_stale (a : A) (defTime : Z) (l : list (Z * cacheEntry)) : A * option append_err :=
  match l with
  | [] => (a, None)
  | (_, ce) :: rest =>
      let '(a, r) := app a {| ac_ref := ce_ref ce; ac_ls := ce_lset ce; ac_st := 0; ac_t := defTime; ac_v := StaleNaN; ac_h := None;
                              ac_fh := None; ac_opts := {| ao_MetricFamilyName := ""; ao_Metadata := None; ao_Exemplars := [];
                                                           ao_RejectOutOfOrder := true |} |} in
      match r with
      | Ok _ | Err ErrOutOfOrderSample | Err ErrDuplicateSampleForTimestamp => mark_stale a defTime rest
      | Err err => (a, Some err)
      end
  end.
Definition updateStaleMarkers (c : scrapeCache) (a : A) (defTime : Z) : A * option append_err := mark_stale a defTime (stale_series c).
End with_appender.

(** ** One sample *)

Definition CutSuffix (s suf : string) : option string := if has_suffix s suf then Some (trim_suffix s suf) else None.
Fixpoint cut_first (s : string) (suffixes : list string) : string :=
  match suffixes with [] => s | suf :: rest => match CutSuffix s suf with Some t => t | None => cut_first s rest end end.
Definition isSeriesPartOfFamily (mName mfName : string) (typ : model_type) : bool :=
  if has_prefix mName mfName then
    match typ with
    | TypeCounter => bool_decide (cut_first mfName ["_total"] = cut_first mName ["_total"])
    | TypeHistogram => bool_decide (mfName = cut_first mName ["_bucket"; "_sum"; "_count"])
    | TypeGaugeHistogram => bool_decide (mfName = cut_first mName ["_bucket"; "_gsum"; "_gcount"])
    | TypeSummary => bool_decide (mfName = cut_first mName ["_sum"; "_count"])
    | TypeInfo => bool_decide (cut_first mfName ["_info"] = cut_first mName ["_info"])
    | _ => bool_decide (mfName = mName)
    end
  else false.

(** Whether the sample was added, and the error that ends the scrape; limits are kept for later. *)
Definition checkAddError (err : option append_err) (sampleLimitErr bucketLimitErr : bool) : bool * option append_err * bool * bool :=
  match err with
  | None => (true, None, sampleLimitErr, bucketLimitErr)
  | Some errSampleLimit => (false, None, true, bucketLimitErr)
  | Some errBucketLimit => (false, None, sampleLimitErr, true)
  | Some ErrOutOfOrderSample | Some ErrDuplicateSampleForTimestamp | Some ErrOutOfBounds => (false, None, sampleLimitErr, bucketLimitErr)
  | Some ErrNotFound => (false, Some ErrNotFound, sampleLimitErr, bucketLimitErr)
  | Some (AppendPartialError _) => (true, None, sampleLimitErr, bucketLimitErr)
  | Some (OtherError err) => (false, Some (OtherError err), sampleLimitErr, bucketLimitErr)
  end.

Record loop_state (A : Type) := {
  ls_cache : scrapeCache; ls_app : A; ls_total : Z; ls_added : Z; ls_seriesAdded : Z; ls_sampleLimitErr : bool; ls_bucketLimitErr : bool;
  ls_lastMeta : option (string * Metadata) }.
Arguments ls_cache {A}. Arguments ls_app {A}. Arguments ls_total {A}. Arguments ls_added {A}. Arguments ls_seriesAdded {A}.
Arguments ls_sampleLimitErr {A}. Arguments ls_bucketLimitErr {A}. Arguments ls_lastMeta {A}.

Definition with_cache {A} (s : loop_state A) (c : scrapeCache) : loop_state A :=
  {| ls_cache := c; ls_app := ls_app s; ls_total := ls_total s; ls_added := ls_added s; ls_seriesAdded := ls_seriesAdded s;
     ls_sampleLimitErr := ls_sampleLimitErr s; ls_bucketLimitErr := ls_bucketLimitErr s; ls_lastMeta := ls_lastMeta s |}.
Definition with_meta {A} (s : loop_state A) (mfName : string) (m : metaEntry * scrapeCache) : loop_state A :=
  {| ls_cache := m.2; ls_app := ls_app s; ls_total := ls_total s; ls_added := ls_added s; ls_seriesAdded := ls_seriesAdded s;
     ls_sampleLimitErr := ls_sampleLimitErr s; ls_bucketLimitErr := ls_bucketLimitErr s; ls_lastMeta := Some (mfName, me_Metadata m.1) |}.
Definition count_total {A} (s : loop_state A) : loop_state A :=
  {| ls_cache := ls_cache s; ls_app := ls_app s; ls_total := ls_total s + 1; ls_added := ls_added s; ls_seriesAdded := ls_seriesAdded s;
     ls_sampleLimitErr := ls_sampleLimitErr s; ls_bucketLimitErr := ls_bucketLimitErr s; ls_lastMeta := ls_lastMeta s |}.

(** Exemplars without a time get that of the sample; those of native histograms are dropped. *)
Definition exemplars_of (isHistogram : bool) (t : Z) (l : list (PromExemplar * bool)) : list PromExemplar :=
  sort_exemplars (omap (λ e : PromExemplar * bool,
    if e.2 then Some e.1
    else if isHistogram then None
    else Some {| ex_Labels := ex_Labels e.1; ex_Value := ex_Value e.1; ex_Ts := t |}) l).
Definition is_histogram (v : sample_value) : bool := match v with HistogramValue _ _ => true | _ => false end.
(** The labels of a series that is new, or the error that ends the scrape. *)
Definition check_labels (sl : scrapeLoop) (lset : Labels) : option append_err :=
  if negb (Has lset MetricNameLabel) then Some (OtherError "missing metric name (__name__ label)")
  else if negb (Labels_IsValid (sl_validationScheme sl) lset)
  then Some (OtherError ("invalid metric name or label names: " +:+ Labels_String lset))
  else match verifyLabelLimits lset (sl_labelLimits sl) with Some err => Some (OtherError err) | None => None end.

(** The metadata that goes with a sample; what does not belong to its family is forgotten. *)
Definition meta_options (sl : scrapeLoop) (lset : Labels) (lastMeta : option (string * Metadata)) :
    string * option Metadata * option (string * Metadata) :=
  if sl_appendMetadataToWAL sl then
    match lastMeta with
    | Some (mfName, m) =>
        if isSeriesPartOfFamily (Labels_Get lset MetricNameLabel) mfName (meta_Type m) then (mfName, Some m, lastMeta) else ("", None, None)
    | None => ("", None, None)
    end
  else ("", None, lastMeta).

Section append.
Context {A : Type} (app : appender A) (sl : scrapeLoop).

Definition append_sample (a : A) (p : parsed_sample) (ref : Z) (lset : Labels) (t : Z) (lastMeta : option (string * Metadata)) :
    A * result append_err Z * option (string * Metadata) :=
  let '(h, fh, v) := match ps_value p with HistogramValue h fh => (h, fh, zero) | FloatValue v => (None, None, v) end in
  let '(mfName, md, lastMeta) := meta_options sl lset lastMeta in
  let '(a, r) := app a
    {| ac_ref := ref; ac_ls := lset; ac_st := if sl_parseST sl then ps_st p else 0; ac_t := t; ac_v := v; ac_h := h; ac_fh := fh;
       ac_opts := {| ao_MetricFamilyName := mfName; ao_Metadata := md;
                     ao_Exemplars := exemplars_of (is_histogram (ps_value p)) t (ps_exemplars p); ao_RejectOutOfOrder := false |} |} in
  (a, r, lastMeta).

(** What happens to a sample after the appender was called, or was not. *)
Definition after_append (s : loop_state A) (c : scrapeCache) (a : A) (met : string) (tracked : bool) (ce : option cacheEntry)
    (r : result append_err Z) (lset : Labels) (hash : Z) (lastMeta : option (string * Metadata)) :
    loop_state A * option append_err :=
  let '(sampleAdded, err, sampleLimitErr, bucketLimitErr) :=
    checkAddError (match r with Ok _ => None | Err err => Some err end) (ls_sampleLimitErr s) (ls_bucketLimitErr s) in
  let mk c added seriesAdded :=
    {| ls_cache := c; ls_app := a; ls_total := ls_total s; ls_added := added; ls_seriesAdded := seriesAdded;
       ls_sampleLimitErr := sampleLimitErr; ls_bucketLimitErr := bucketLimitErr; ls_lastMeta := lastMeta |} in
  match err with
  | Some err => (mk c (ls_added s) (ls_seriesAdded s), Some err)
  | None =>
      match ce with
      | Some ce => (mk (if tracked then trackStaleness c (ce_ref ce) ce else c) (ls_added s + 1) (ls_seriesAdded s), None)
      | None =>
          if sampleAdded then
            let ref := match r with Ok ref => ref | Err (AppendPartialError ref) => ref | Err _ => 0 end in
            let '(ce, c) := addRef c met ref lset hash in
            let c := match ce with Some ce => if tracked then trackStaleness c ref ce else c | None => c end in
            (mk c (ls_added s + 1) (if sampleLimitErr || bucketLimitErr then ls_seriesAdded s else ls_seriesAdded s + 1), None)
          else (mk c (ls_added s + 1) (ls_seriesAdded s), None)
      end
  end.

Definition series_step (defTime : Z) (s : loop_state A) (p : parsed_sample) : loop_state A * option append_err :=
  let s := count_total s in
  let parsedTimestamp := if sl_honorTimestamps sl then ps_ts p else None in
  let t := default defTime parsedTimestamp in
  let met := ps_met p in
  let '(dropped, c) := getDropped (ls_cache s) met in
  if dropped then (with_cache s c, None)
  else
    let '(cached, c) := cache_get c met in
    let tracked := bool_decide (parsedTimestamp = None) || sl_trackTimestampsStaleness sl in
    let go ce ref lset hash alreadyScraped :=
      if alreadyScraped && bool_decide (parsedTimestamp = None)
      then after_append s c (ls_app s) met tracked ce (Err ErrDuplicateSampleForTimestamp) lset hash (ls_lastMeta s)
      else
        match ps_value p with
        | HistogramValue None None => (with_cache s c, Some (OtherError (nil_histogram_error lset)))
        | _ =>
            let '(a, r, lastMeta) := append_sample (ls_app s) p ref lset t (ls_lastMeta s) in
            after_append s c a met tracked ce r lset hash lastMeta
        end in
    match cached with
    | Some (ce, alreadyScraped) => go (Some ce) (ce_ref ce) (ce_lset ce) (ce_hash ce) alreadyScraped
    | None =>
        let hash := Labels_Hash (ps_lset p) in
        let lset := sl_sampleMutator sl (ps_lset p) in
        match lset with
        | [] => (with_cache s (addDropped c met), None)
        | _ =>
            match check_labels sl lset with
            | Some err => (with_cache s c, Some err)
            | None => go None 0 lset hash false
            end
        end
    end.
Definition entry_step (defTime : Z) (s : loop_state A) (e : parsed_entry) : loop_state A * option append_err :=
  match e with
  | EntryType mfName t => (with_meta s mfName (setType (ls_cache s) mfName t), None)
  | EntryHelp mfName help => (with_meta s mfName (setHelp (ls_cache s) mfName help), None)
  | EntryUnit mfName unit => (with_meta s mfName (setUnit (ls_cache s) mfName unit), None)
  | EntryComment => (s, None)
  | EntrySeries p => series_step defTime s p
  end.
Fixpoint append_loop (defTime : Z) (s : loop_state A) (entries : list parsed_entry) (last : option append_err) :
    loop_state A * option append_err :=
  match entries with
  | [] => (s, last)
  | e :: rest =>
      match entry_step defTime s e with
      | (s, None) => append_loop defTime s rest last
      | (s, Some err) => (s, Some err)
      end
  end.
End append.

(** The cache, the appender, the three counts and the error of a scrape. *)
Definition scrape_result (A : Type) : Type := scrapeCache * A * (Z * Z * Z) * option append_err.
Definition append {A} (app : appender A) (sl : scrapeLoop) (now : Z) (c : scrapeCache) (a : A) (b : body) (ts : Z) : scrape_result A :=
  let defTime := FromTime ts in
  match b with
  | EmptyBody =>
      let '(a, err) := updateStaleMarkers app c a defTime in
      (iterDone c false, a, (0, 0, 0), err)
  | UnknownType err => (c, a, (0, 0, 0), Some err)
  | Body (entries, last) =>
      let app := appenderWithLimits app (FromTime (now + maxAheadTime)) (sl_sampleLimit sl) (sl_bucketLimit sl) (sl_maxSchema sl) in
      let s := {| ls_cache := c; ls_app := (a, 0); ls_total := 0; ls_added := 0; ls_seriesAdded := 0; ls_sampleLimitErr := false;
                  ls_bucketLimitErr := false; ls_lastMeta := None |} in
      let '(s, err) := append_loop app sl defTime s entries last in
      let err := match err with
                 | Some _ => err
                 | None => if ls_sampleLimitErr s then Some errSampleLimit
                           else if ls_bucketLimitErr s then Some errBucketLimit else None
                 end in
      let counts := (ls_total s, ls_added s, ls_seriesAdded s) in
      match err with
      | Some err => (ls_cache s, (ls_app s).1, counts, Some err)
      | None =>
          let '(la, err) := updateStaleMarkers app (ls_cache s) (ls_app s) defTime in
          (match err with None => iterDone (ls_cache s) true | Some _ => ls_cache s end, la.1, counts, err)
      end
  end.

(** ** Reports *)

(** The byte that no name of a scraped metric has. *)
Definition mark : string := String (ascii_of_nat 255) "".
Record reportSample := { rs_name : string; rs_Metadata : Metadata }.
Definition report_gauge (name help unit : string) : reportSample :=
  {| rs_name := name +:+ mark; rs_Metadata := {| meta_Type := TypeGauge; meta_Help := help; meta_Unit := unit |} |}.
Definition scrapeHealthMetric : reportSample :=
  report_gauge "up" "Health of the scrape target. 1 means the target is healthy, 0 if the scrape failed." "targets".
Definition scrapeDurationMetric : reportSample := report_gauge "scrape_duration_seconds" "Duration of the last scrape in seconds." "seconds".
Definition scrapeSamplesMetric : reportSample := report_gauge "scrape_samples_scraped" "Number of samples last scraped." "samples".
Definition samplesPostRelabelMetric : reportSample :=
  report_gauge "scrape_samples_post_metric_relabeling" "Number of samples remaining after metric relabeling was applied." "samples".
Definition scrapeSeriesAddedMetric : reportSample := report_gauge "scrape_series_added" "Number of series in the last scrape." "series".
Definition scrapeTimeoutMetric : reportSample := report_gauge "scrape_timeout_seconds" "The configured scrape timeout for a target." "seconds".
Definition scrapeSampleLimitMetric : reportSample :=
  report_gauge "scrape_sample_limit" "The configured sample limit for a target. Returns zero if there is no limit configured." "samples".
Definition scrapeBodySizeBytesMetric : reportSample :=
  report_gauge "scrape_body_size_bytes"
    "The uncompressed size of the last scrape response, if successful. Scrapes failing because body_size_limit is exceeded report -1, other scrape failures report 0."
    "bytes".

Definition addReportSample {A} (app : appender A) (sl : scrapeLoop) (c : scrapeCache) (a : A) (s : reportSample) (t : Z) (v : sample)
    (rejectOOO : bool) : scrapeCache * A * option append_err :=
  let '(cached, c) := cache_get c (rs_name s) in
  let '(ref, lset) :=
    match cached with
    | Some (ce, _) => (ce_ref ce, ce_lset ce)
    | None =>
        let name := of_bytes (take (length (bytes (rs_name s)) - 1) (bytes (rs_name s))) in
        (0, sl_reportSampleMutator sl (b_Labels (b_Set (NewBuilder []) MetricNameLabel name)))
    end in
  let '(a, r) := app a
    {| ac_ref := ref; ac_ls := lset; ac_st := 0; ac_t := t; ac_v := v; ac_h := None; ac_fh := None;
       ac_opts := {| ao_MetricFamilyName := rs_name s; ao_Metadata := Some (rs_Metadata s); ao_Exemplars := []; ao_RejectOutOfOrder := rejectOOO |} |} in
  match r with
  | Ok ref => (match cached with Some _ => c | None => (addRef c (rs_name s) ref lset (Labels_Hash lset)).2 end, a, None)
  | Err ErrOutOfOrderSample | Err ErrDuplicateSampleForTimestamp => (c, a, None)
  | Err err => (c, a, Some err)
  end.
Fixpoint add_reports {A} (app : appender A) (sl : scrapeLoop) (c : scrapeCache) (a : A) (l : list (reportSample * sample)) (t : Z)
    (rejectOOO : bool) : scrapeCache * A * option append_err :=
  match l with
  | [] => (c, a, None)
  | (s, v) :: rest =>
      match addReportSample app sl c a s t v rejectOOO with
      | (c, a, None) => add_reports app sl c a rest t rejectOOO
      | failed => failed
      end
  end.

(** [Duration.Seconds]. *)
Definition Seconds (d : Z) : float64 :=
  float64_add (float64_of_int (Z.quot d 1000000000)) (float64_div (float64_of_int (Z.rem d 1000000000)) (float64_of_int 1000000000)).
Definition report_samples (sl : scrapeLoop) (duration scraped added seriesAdded bytesRead : Z) (scrapeErr : option append_err) :
    list (reportSample * sample) :=
  [(scrapeHealthMetric, Sample (float64_of_int (match scrapeErr with None => 1 | Some _ => 0 end)));
   (scrapeDurationMetric, Sample (Seconds duration)); (scrapeSamplesMetric, Sample (float64_of_int scraped));
   (samplesPostRelabelMetric, Sample (float64_of_int added)); (scrapeSeriesAddedMetric, Sample (float64_of_int seriesAdded))]
  ++ (if sl_reportExtraMetrics sl
      then [(scrapeTimeoutMetric, Sample (Seconds (sl_timeout sl))); (scrapeSampleLimitMetric, Sample (float64_of_int (sl_sampleLimit sl)));
            (scrapeBodySizeBytesMetric, Sample (float64_of_int bytesRead))]
      else []).
Definition report {A} (app : appender A) (sl : scrapeLoop) (c : scrapeCache) (a : A) (start duration scraped added seriesAdded bytesRead : Z)
    (scrapeErr : option append_err) : scrapeCache * A * option append_err :=
  add_reports app sl c a (report_samples sl duration scraped added seriesAdded bytesRead scrapeErr) (FromTime start) false.
Definition reportStale {A} (app : appender A) (sl : scrapeLoop) (c : scrapeCache) (a : A) (start : Z) : scrapeCache * A * option append_err :=
  add_reports app sl c a ((λ s, (s.1, StaleNaN)) <$> report_samples sl 0 0 0 0 0 None) (FromTime start) true.

(** ** A scrape with its report *)

(** An append, and a new appender when it fails. *)
Definition append_or_new {A} (app : appender A) (new : A) (sl : scrapeLoop) (now : Z) (c : scrapeCache) (a : A) (b : body) (ts : Z) :
    scrape_result A :=
  let '(c, a, counts, err) := append app sl now c a b ts in (c, match err with None => a | Some _ => new end, counts, err).
(** The fetch: a body with its length, or an error with the number of bytes that is reported.
    The result is the cache, the appender to commit, unless the report failed, and the error. *)
Definition scrapeAndReport {A} (app : appender A) (new : A) (sl : scrapeLoop) (now duration : Z) (c : scrapeCache)
    (forcedErr : option append_err) (fetched : result (append_err * Z) (body * Z)) (appendTime : Z) : scrapeCache * option A * option append_err :=
  let '(c, a, (total, added, seriesAdded), bytesRead, scrapeErr) :=
    match forcedErr with
    | Some err =>
        let '(c, a, _, _) := append_or_new app new sl now c new EmptyBody appendTime in (c, a, (0, 0, 0), 0, Some err)
    | None =>
        let '(b, bytesRead, scrapeErr) :=
          match fetched with Ok (b, n) => (b, n, None) | Err (err, n) => (EmptyBody, n, Some err) end in
        let '(c, a, counts, appErr) := append_or_new app new sl now c new b appendTime in
        let '(c, a) :=
          match appErr with
          | Some _ => let '(c, a, _, _) := append_or_new app new sl now c a EmptyBody appendTime in (c, a)
          | None => (c, a)
          end in
        (c, a, counts, bytesRead, match scrapeErr with None => appErr | Some _ => scrapeErr end)
    end in
  let '(c, a, err) := report app sl c a appendTime duration total added seriesAdded bytesRead scrapeErr in
  (c, match err with None => Some a | Some _ => None end, scrapeErr).
(** The target notes how it went. *)
Definition scrape_target {A} (app : appender A) (new : A) (sl : scrapeLoop) (t : Target) (now duration : Z) (c : scrapeCache)
    (forcedErr : option append_err) (fetched : result (append_err * Z) (body * Z)) (appendTime : Z) : Target * scrapeCache * option A :=
  let '(c, a, scrapeErr) := scrapeAndReport app new sl now duration c forcedErr fetched appendTime in
  (Report t appendTime duration (err_text <$> scrapeErr), c, a).
(** The markers after the last scrape of a loop, when nothing has disabled them. *)
Definition endOfRunStaleness {A} (app : appender A) (new : A) (sl : scrapeLoop) (now : Z) (c : scrapeCache) (staleTime : Z) :
    scrapeCache * option A :=
  let '(c, a, _, _) := append_or_new app new sl now c new EmptyBody staleTime in
  let '(c, a, err) := reportStale app sl c a staleTime in
  (c, match err with None => Some a | Some _ => None end).
End loop.
