(* ===== verification/ScrapeLoopProps.v ===== *)
(** * Series that disappear are marked

    Over two scrapes that succeed, the series that get a marker are exactly those that the
    target exposed the first time and not the second, each once. The limit of samples is a
    bound on what reaches the storage. *)
From S2P Require Import Prelude GoText Pdata Sampling Pmetric Flatten Utils SpanHistogram PromFamily PromFamilyProps ScrapeConfig ScrapeConfigProps PromTarget PromTargetProps ScrapeCache ScrapeLoop.

(** An appender that writes down the calls it gets. *)
Definition recording {A} (app : appender A) : appender (A * list append_call) :=
  λ s c, let '(a, r) := app s.1 c in ((a, s.2 ++ [c]), r).
Definition marker (defTime : Z) (ce : cacheEntry) : append_call :=
  {| ac_ref := ce_ref ce; ac_ls := ce_lset ce; ac_st := 0; ac_t := defTime; ac_v := StaleNaN; ac_h := None; ac_fh := None;
     ac_opts := {| ao_MetricFamilyName := ""; ao_Metadata := None; ao_Exemplars := []; ao_RejectOutOfOrder := true |} |}.

Section limits.
Context `{HL : HistogramLibrary} {A : Type} (app : appender A) (H : Labels → Z).
(** The storage takes everything, and its references are given by the labels. *)
Hypothesis accepts : ∀ a c, (app a c).2 = Ok (H (ac_ls c)).

Lemma on_histograms_ls f c c' : on_histograms f c = Ok c' → ac_ls c' = ac_ls c ∧ ac_t c' = ac_t c ∧ ac_ref c' = ac_ref c ∧ ac_v c' = ac_v c.
Proof.
  unfold on_histograms. intros (h & _ & Hc)%result_bind_Ok. apply result_bind_Ok in Hc as (fh & _ & Hc). by injection Hc as <-.
Qed.
Lemma on_histograms_none f c : ac_h c = None → ac_fh c = None → on_histograms f c = Ok c.
Proof. destruct c. cbn. by intros -> ->. Qed.

(** What a limit may answer instead of the storage. *)
Definition limit_error (e : append_err) : Prop := e = errSampleLimit ∨ e = errBucketLimit ∨ ∃ s, e = OtherError s.
Definition answered (maxTime : Z) (c : append_call) (r : result append_err Z) : Prop :=
  match r with Ok ref => ref = H (ac_ls c) | Err e => limit_error e ∨ (e = ErrOutOfBounds ∧ maxTime < ac_t c) end.
(** One call: at most one call of the storage, and its answer or that of a limit. *)
Definition sound_appender (maxTime : Z) (lim : appender ((A * list append_call) * Z)) : Prop :=
  ∀ s c, ∃ a i l r, lim s c = ((a, s.1.2 ++ l, i), r) ∧ answered maxTime c r ∧ (length l ≤ 1)%nat.
(** A marker of a known series goes through all limits. *)
Definition passes_markers (maxTime : Z) (lim : appender ((A * list append_call) * Z)) : Prop :=
  ∀ s c, ac_ref c ≠ 0 → ac_v c = StaleNaN → ac_h c = None → ac_fh c = None → ac_t c ≤ maxTime →
    ∃ a, lim s c = ((a, s.1.2 ++ [c], s.2), Ok (H (ac_ls c))).

Lemma time_limited_sound maxTime s c :
  ∃ a l r, timeLimitAppender (recording app) maxTime s c = ((a, s.2 ++ l), r) ∧ answered maxTime c r ∧ (length l ≤ 1)%nat.
Proof using accepts.
  unfold timeLimitAppender, recording. destruct s as [a log]. cbn. destruct (Z.ltb_spec maxTime (ac_t c)).
  - exists a, [], (Err ErrOutOfBounds). rewrite app_nil_r. split_and!; [done|by right|cbn; lia].
  - pose proof (accepts a c) as Ha. destruct (app a c) as [a' r]. cbn in Ha. subst r. by exists a', [c], (Ok (H (ac_ls c))).
Qed.
Lemma sample_limited_sound maxTime limit : sound_appender maxTime (with_sample_limit (timeLimitAppender (recording app) maxTime) limit).
Proof using accepts.
  intros [s i] c. unfold with_sample_limit, limitAppender. destruct (time_limited_sound maxTime s c) as (a & l & r & E & Hr & Hl).
  destruct (0 <? limit); cbn.
  - destruct ((ac_ref c =? 0) || negb (IsStaleNaN (ac_v c))); [destruct (limit <? i + 1)|].
    + destruct s as [a0 log]. exists a0, (i + 1), [], (Err errSampleLimit). cbn. rewrite app_nil_r.
      split_and!; [done|by left; left|cbn; lia].
    + rewrite E. by exists a, (i + 1), l, r.
    + rewrite E. by exists a, i, l, r.
  - rewrite E. by exists a, i, l, r.
Qed.
Lemma histogram_limited_sound maxTime lim f :
  (∀ C B h e, f C B h = Err e → limit_error e) → sound_appender maxTime lim →
  sound_appender maxTime (λ s c, match on_histograms f c with Err err => (s, Err err) | Ok c => lim s c end).
Proof.
  intros Hf Hlim s c. destruct (on_histograms f c) as [c'|e] eqn:E.
  - destruct (on_histograms_ls _ _ _ E) as (E1 & E2 & _). destruct (Hlim s c') as (a & i & l & r & -> & Hr & Hl).
    exists a, i, l, r. split_and!; [done| |done]. unfold answered in *. by rewrite <-E1, <-E2.
  - destruct s as [[a log] i]. exists a, i, [], (Err e). cbn. rewrite app_nil_r. split_and!; [done| |cbn; lia]. left.
    revert E. unfold on_histograms, on_option. destruct (ac_h c) as [h|]; [destruct (f Z Z h) eqn:E1|]; cbn.
    + destruct (ac_fh c) as [h'|]; [destruct (f _ _ h') eqn:E2|]; cbn; [done| |done]. intros [= <-]. by apply Hf in E2.
    + intros [= <-]. by apply Hf in E1.
    + destruct (ac_fh c) as [h'|]; [destruct (f _ _ h') eqn:E2|]; cbn; [done| |done]. intros [= <-]. by apply Hf in E2.
Qed.
Lemma reduce_loop_error {C B} fuel limit (h : NativeHistogram C B) e : reduce_loop fuel limit h = Err e → limit_error e.
Proof.
  unfold limit_error. revert h. induction fuel as [|fuel IH]; intros h; cbn [reduce_loop];
    (destruct (limit <? bucket_number h); [|done]); (destruct (Schema _ _ h <=? ExponentialSchemaMin); [intros [= <-]; by auto|]);
    destruct (ReduceResolution h _); naive_solver.
Qed.
Lemma limit_buckets_error {C B} limit (h : NativeHistogram C B) e : limit_buckets limit h = Err e → limit_error e.
Proof. unfold limit_buckets. destruct (_ && _); [intros [= <-]; by right; left|]. apply reduce_loop_error. Qed.
Lemma limit_schema_error {C B} maxSchema (h : NativeHistogram C B) e : limit_schema maxSchema h = Err e → limit_error e.
Proof. unfold limit_schema. destruct (_ && _); [|done]. destruct (ReduceResolution h maxSchema); [done|]. intros [= <-]. right; right. by eexists. Qed.

Lemma limited_sound maxTime sampleLimit bucketLimit maxSchema :
  sound_appender maxTime (appenderWithLimits (recording app) maxTime sampleLimit bucketLimit maxSchema).
Proof using accepts.
  unfold appenderWithLimits. pose proof (sample_limited_sound maxTime sampleLimit) as Hs.
  set (lim := with_sample_limit _ _) in *. clearbody lim.
  assert (sound_appender maxTime (if 0 <? bucketLimit then bucketLimitAppender lim bucketLimit else lim)) as Hb.
  { destruct (0 <? bucketLimit); [|done]. apply (histogram_limited_sound _ lim (λ C B, limit_buckets bucketLimit)); [|done].
    intros C B h e. apply limit_buckets_error. }
  set (lim' := if 0 <? bucketLimit then _ else _) in *. clearbody lim'.
  destruct (maxSchema <? ExponentialSchemaMax); [|done]. apply (histogram_limited_sound _ lim' (λ C B, limit_schema maxSchema)); [|done].
  intros C B h e. apply limit_schema_error.
Qed.
Lemma limited_markers maxTime sampleLimit bucketLimit maxSchema :
  passes_markers maxTime (appenderWithLimits (recording app) maxTime sampleLimit bucketLimit maxSchema).
Proof using accepts.
  intros [[a log] i] c Href Hv Hh Hfh Ht. unfold appenderWithLimits, maxSchemaAppender, bucketLimitAppender.
  assert (∃ a', with_sample_limit (timeLimitAppender (recording app) maxTime) sampleLimit (a, log, i) c = ((a', log ++ [c], i), Ok (H (ac_ls c))))
    as [a' Hs].
  { exists (app a c).1. pose proof (accepts a c) as Ha. unfold with_sample_limit, limitAppender, timeLimitAppender, recording.
    assert ((maxTime <? ac_t c) = false) as Hm by lia. assert ((ac_ref c =? 0) = false) as Hr by lia.
    destruct (0 <? sampleLimit); cbn; rewrite ?Hr, ?Hv; cbn; rewrite Hm; destruct (app a c) as [a' r]; cbn in *; by subst r. }
  exists a'. destruct (maxSchema <? ExponentialSchemaMax), (0 <? bucketLimit); by rewrite ?on_histograms_none.
Qed.
End limits.

(** ** One scrape *)

Section scrape.
Context `{PM : Prometheus} `{TL : TargetLibrary} `{GR : GoRange} `{HL : HistogramLibrary} `{ST : ScrapeText}.
Context {A : Type} (app : appender A) (H : Labels → Z) (sl : scrapeLoop) (L : string → Labels).
Hypothesis accepts : ∀ a c, (app a c).2 = Ok (H (ac_ls c)).

(** The timestamp of the target that is used for a line, if any; a line with one is tracked only
    when that is asked for. *)
Definition used_time (p : parsed_sample) : option Z := if sl_honorTimestamps sl then ps_ts p else None.
Definition is_tracked (p : parsed_sample) : bool := bool_decide (used_time p = None) || sl_trackTimestampsStaleness sl.
(** The labels that a line of the target ends up with; the line alone decides what it says. *)
Definition final (met : string) : Labels := sl_sampleMutator sl (L met).
Definition unmarked (met : string) : Prop := contains_byte (ascii_of_nat 255) met = false.
Definition line_ok (maxTime : Z) (p : parsed_sample) : Prop :=
  ps_lset p = L (ps_met p) ∧ unmarked (ps_met p) ∧ ∀ t, used_time p = Some t → t ≤ maxTime.
Definition entries_ok (maxTime : Z) (entries : list parsed_entry) : Prop := ∀ p, EntrySeries p ∈ entries → line_ok maxTime p.
(** What a scrape exposes: labels that are not dropped and have a reference, of a tracked line. *)
Definition kept (ls : Labels) : Prop := ls ≠ [] ∧ H ls ≠ 0.
Definition exposes (entries : list parsed_entry) (ls : Labels) : Prop :=
  ∃ p, EntrySeries p ∈ entries ∧ is_tracked p = true ∧ ls = final (ps_met p) ∧ kept ls.

Definition tracked_ok (ref : Z) (ce : cacheEntry) : Prop := ref = H (ce_lset ce) ∧ ce_ref ce = ref ∧ kept (ce_lset ce).
Record cache_ok (c : scrapeCache) : Prop := {
  ok_series met ce : c_series c !! met = Some ce → unmarked met → ce_lset ce = final met ∧ ce_ref ce = H (final met) ∧ kept (final met);
  ok_dropped met i : c_droppedSeries c !! met = Some i → final met = [];
  ok_cur ref ce : c_seriesCur c !! ref = Some ce → tracked_ok ref ce;
  ok_prev ref ce : c_seriesPrev c !! ref = Some ce → tracked_ok ref ce }.

(** The cache of a series that is tracked now, if [tracked]. *)
Definition tracks (tracked : bool) (c c' : scrapeCache) (met : string) : Prop :=
  c_iter c' = c_iter c ∧ c_seriesPrev c' = c_seriesPrev c
  ∧ ∀ ref, is_Some (c_seriesCur c' !! ref) ↔ is_Some (c_seriesCur c !! ref) ∨ (ref = H (final met) ∧ kept (final met) ∧ tracked = true).

Lemma trackStaleness_ok c met ce :
  cache_ok c → ce_lset ce = final met → ce_ref ce = H (final met) → kept (final met) →
  cache_ok (trackStaleness c (ce_ref ce) ce) ∧ tracks true c (trackStaleness c (ce_ref ce) ce) met.
Proof.
  intros [S1 S2 S3 S4] E1 E2 Hk. split.
  - constructor; cbn; [done|done| |done]. intros ref ce'. rewrite lookup_insert. case_decide as Hr; [|by apply S3].
    intros [= <-]. unfold tracked_ok. subst ref. by rewrite E1.
  - split_and!; [done|done|]. intros ref. cbn. rewrite lookup_insert. case_decide as Hr.
    + split; [intros _; right; by rewrite <-Hr|by eexists].
    + split; [by left|]. intros [?|[-> _]]; [done|]. congruence.
Qed.
Lemma tracks_none tracked c c' met :
  c_iter c' = c_iter c → c_seriesPrev c' = c_seriesPrev c → c_seriesCur c' = c_seriesCur c → ¬ kept (final met) ∨ tracked = false →
  tracks tracked c c' met.
Proof. intros H1 H2 H3 Hk. split_and!; [done|done|]. intros ref. rewrite H3. split; [by left|]. destruct Hk as [?| ->]; by intros [?|(_ & ? & ?)]. Qed.

Lemma set_series_ok c met ce :
  cache_ok c → (unmarked met → ce_lset ce = final met ∧ ce_ref ce = H (final met) ∧ kept (final met)) → cache_ok (set_series c (<[met := ce]> (c_series c))).
Proof.
  intros [S1 S2 S3 S4] Hce. constructor; cbn; [|done|done|done]. intros met' ce'. rewrite lookup_insert. case_decide as Hm; [|by apply S1].
  intros [= <-]. by rewrite <-Hm.
Qed.
Lemma set_dropped_ok c met : cache_ok c → final met = [] → cache_ok (set_dropped c (<[met := c_iter c]> (c_droppedSeries c))).
Proof.
  intros [S1 S2 S3 S4] Hd. constructor; cbn; [done| |done|done]. intros met' i. rewrite lookup_insert. case_decide as Hm; [|by apply S2].
  intros _. by rewrite <-Hm.
Qed.
Lemma set_metadata_ok c m : cache_ok c → cache_ok (set_metadata c m).
Proof. by intros []. Qed.

(** A sample that the limits let through, or that was there already, is tracked. *)
Lemma after_append_ok {B} (s s' : loop_state B) c b met tracked ce r hash lastMeta :
  after_append s c b met tracked ce r (final met) hash lastMeta = (s', None) → cache_ok c →
  match ce with Some ce => ce_lset ce = final met ∧ ce_ref ce = H (final met) ∧ kept (final met) | None => final met ≠ [] end →
  match r with Ok ref => ref = H (final met) | Err e => limit_error e ∨ (e = ErrDuplicateSampleForTimestamp ∧ is_Some ce) end →
  ls_sampleLimitErr _ s' = false → ls_bucketLimitErr _ s' = false →
  cache_ok (ls_cache _ s') ∧ tracks tracked c (ls_cache _ s') met ∧ ls_app _ s' = b ∧ ls_sampleLimitErr _ s = false ∧ ls_bucketLimitErr _ s = false.
Proof.
  intros Ha Hc Hce Hr. revert Ha. unfold after_append.
  destruct ce as [ce|].
  - destruct Hce as (E1 & E2 & Hk).
    assert (cache_ok (if tracked then trackStaleness c (ce_ref ce) ce else c) ∧ tracks tracked c (if tracked then trackStaleness c (ce_ref ce) ce else c) met)
      as [T1 T2] by (destruct tracked; [by apply trackStaleness_ok|split; [done|apply tracks_none; auto]]).
    destruct r as [ref|e]; [|destruct Hr as [[->|[->|[err ->]]]|[-> _]]]; cbn; try done; intros [= <-]; cbn; intros F1 F2; done.
  - destruct r as [ref|e]; [|destruct Hr as [[->|[->|[err ->]]]|[_ [? ?]]]]; cbn; try done; [|by intros [= <-]..].
    subst ref. unfold addRef. destruct (Z.eqb_spec (H (final met)) 0) as [Hz|Hz]; cbn; intros [= <-]; cbn; intros F1 F2.
    + split_and!; [done|apply tracks_none; [done..|left; by intros [_ ?]]|done..].
    + set (ce := {| ce_ref := H (final met); ce_lastIter := c_iter c; ce_hash := hash; ce_lset := final met |}).
      assert (cache_ok (set_series c (<[met := ce]> (c_series c)))) as Hc' by (by apply set_series_ok).
      destruct tracked; [|split; [done|]; split; [apply tracks_none; auto|done]].
      destruct (trackStaleness_ok _ met ce Hc') as [T1 T2]; [done|done|done|]. done.
Qed.

Lemma final_nil_not_kept met : final met = [] → ¬ kept (final met).
Proof. by intros -> [? _]. Qed.

Definition grows {B} (s s' : loop_state (B * list append_call * Z)) : Prop :=
  ∃ l, (ls_app _ s').1.2 = (ls_app _ s).1.2 ++ l.

Section with_limits.
Context (maxTime defTime : Z) (lim : appender ((A * list append_call) * Z)).
Hypothesis lim_sound : sound_appender H maxTime lim.
Hypothesis in_time : defTime ≤ maxTime.

Lemma append_sample_ok a p ref lset t lastMeta :
  t ≤ maxTime →
  ∃ a' r lastMeta', append_sample lim sl a p ref lset t lastMeta = (a', r, lastMeta')
    ∧ match r with Ok ref => ref = H lset | Err e => limit_error e end ∧ ∃ l, a'.1.2 = a.1.2 ++ l.
Proof using lim_sound.
  intros Ht. unfold append_sample. destruct (ps_value p) as [v|h fh]; destruct (meta_options sl lset lastMeta) as [[mfName md] lm];
    match goal with |- context [lim a ?c] => destruct (lim_sound a c) as (b & i & l & r & -> & Hr & _) end; cbn in Hr;
    exists (b, a.1.2 ++ l, i), r, lm; split_and!; try done; try (by exists l);
    (destruct r; cbn in Hr; [done|]); (destruct Hr as [?|[_ ?]]; [done|lia]).
Qed.

Lemma series_step_ok s s' p :
  line_ok maxTime p → cache_ok (ls_cache _ s) →
  series_step lim sl defTime s p = (s', None) → ls_sampleLimitErr _ s' = false → ls_bucketLimitErr _ s' = false →
  cache_ok (ls_cache _ s') ∧ tracks (is_tracked p) (ls_cache _ s) (ls_cache _ s') (ps_met p) ∧ grows s s'
  ∧ ls_sampleLimitErr _ s = false ∧ ls_bucketLimitErr _ s = false.
Proof using lim_sound in_time.
  intros (Hlset & Hm & Hts) Hc. unfold series_step. fold (used_time p). fold (is_tracked p).
  assert (default defTime (used_time p) ≤ maxTime) as Htime by (destruct (used_time p) as [t|]; [by apply Hts|done]).
  set (time := default defTime (used_time p)) in *. clearbody time. set (met := ps_met p) in *. unfold getDropped. cbn [count_total ls_cache].
  destruct (c_droppedSeries (ls_cache _ s) !! met) as [i|] eqn:Ed.
  { pose proof (ok_dropped _ Hc _ _ Ed) as Hf. intros [= <-]. cbn. intros F1 F2.
    split_and!; [by apply set_dropped_ok|by apply tracks_none; [done..|left; apply final_nil_not_kept]|exists []; by rewrite app_nil_r|done|done]. }
  unfold cache_get. destruct (c_series (ls_cache _ s) !! met) as [ce|] eqn:Es.
  - destruct (ok_series _ Hc _ _ Es Hm) as (E1 & E2 & Hk).
    set (ce' := {| ce_ref := ce_ref ce |}). set (c' := set_series _ _).
    assert (cache_ok c') as Hc' by (by apply set_series_ok).
    cbn [ce_lset ce_ref ce_hash ce']. rewrite E1.
    destruct ((ce_lastIter ce =? c_iter (ls_cache _ s)) && bool_decide (used_time p = None)).
    + intros Ha F1 F2. destruct (after_append_ok _ _ _ _ _ _ _ _ _ _ Ha Hc' ltac:(done) ltac:(right; by split) F1 F2) as (H1 & H2 & H3 & H4).
      split_and!; try done; try apply H4. exists []. by rewrite app_nil_r, H3.
    + destruct (append_sample_ok (ls_app _ s) p (ce_ref ce) (final met) time (ls_lastMeta _ s) Htime) as (a' & r & lm & Ea & Hr & Hg).
      change (ls_app _ (count_total s)) with (ls_app _ s). change (ls_lastMeta _ (count_total s)) with (ls_lastMeta _ s). rewrite Ea.
      intros Ha F1 F2. assert (after_append (count_total s) c' a' met (is_tracked p) (Some ce') r (final met) (ce_hash ce) lm = (s', None)) as Ha'
        by (by destruct (ps_value p) as [?|[?|] [?|]]).
      destruct (after_append_ok _ _ _ _ _ _ _ _ _ _ Ha' Hc' ltac:(done) ltac:(destruct r; [done|by left]) F1 F2) as (H1 & H2 & H3 & H4).
      split_and!; try done; try apply H4. destruct Hg as [l Hg]. exists l. by rewrite H3.
  - fold (final (ps_met p)). rewrite Hlset. fold (final met). destruct (final met) as [|l0 ls0] eqn:Ef.
    { intros [= <-]. cbn. intros F1 F2.
      split_and!; [by apply set_dropped_ok|apply tracks_none; [done..|left; by apply final_nil_not_kept]|exists []; by rewrite app_nil_r|done|done]. }
    rewrite <-Ef. destruct (check_labels sl (final met)); [done|]. cbn [andb].
    destruct (append_sample_ok (ls_app _ s) p 0 (final met) time (ls_lastMeta _ s) Htime) as (a' & r & lm & Ea & Hr & Hg).
    change (ls_app _ (count_total s)) with (ls_app _ s). change (ls_lastMeta _ (count_total s)) with (ls_lastMeta _ s). rewrite Ea.
    intros Ha F1 F2. assert (after_append (count_total s) (ls_cache _ s) a' met (is_tracked p) None r (final met) (Labels_Hash (L met)) lm = (s', None)) as Ha'
      by (by destruct (ps_value p) as [?|[?|] [?|]]).
    destruct (after_append_ok _ _ _ _ _ _ _ _ _ _ Ha' Hc ltac:(by rewrite Ef) ltac:(destruct r; [done|by left]) F1 F2) as (H1 & H2 & H3 & H4).
    split_and!; try done; try apply H4. destruct Hg as [l Hg]. exists l. by rewrite H3.
Qed.

(** The cache after some entries: what they expose is tracked, too. *)
Definition tracks_all (c c' : scrapeCache) (entries : list parsed_entry) : Prop :=
  c_iter c' = c_iter c ∧ c_seriesPrev c' = c_seriesPrev c
  ∧ ∀ ref, is_Some (c_seriesCur c' !! ref) ↔ is_Some (c_seriesCur c !! ref) ∨ ∃ ls, exposes entries ls ∧ ref = H ls.

Lemma exposes_cons e entries ls : exposes (e :: entries) ls ↔ (∃ p, e = EntrySeries p ∧ is_tracked p = true ∧ ls = final (ps_met p) ∧ kept ls) ∨ exposes entries ls.
Proof.
  unfold exposes. split.
  - intros (p & [E|Hin]%elem_of_cons & Hls); [left; by exists p|right; by exists p].
  - intros [(p & -> & Hls)|(p & Hin & Hls)]; exists p; (split; [|done]); [by left|by right].
Qed.
Lemma tracks_all_same c c' e entries c'' :
  (∀ p, e ≠ EntrySeries p) → c_iter c' = c_iter c → c_seriesPrev c' = c_seriesPrev c → c_seriesCur c' = c_seriesCur c →
  tracks_all c' c'' entries → tracks_all c c'' (e :: entries).
Proof.
  intros He E1 E2 E3 (T1 & T2 & T3). split_and!; [congruence|congruence|]. intros ref. rewrite T3, E3. setoid_rewrite exposes_cons.
  split; [naive_solver|]. intros [?|(ls & [(p & -> & _)|Hls] & Hr)]; [by left|by destruct (He p)|right; by exists ls].
Qed.
Lemma tracks_all_series c c' p entries c'' :
  tracks (is_tracked p) c c' (ps_met p) → tracks_all c' c'' entries → tracks_all c c'' (EntrySeries p :: entries).
Proof.
  intros (S1 & S2 & S3) (T1 & T2 & T3). split_and!; [congruence|congruence|]. intros ref. rewrite T3, S3. setoid_rewrite exposes_cons. split.
  - intros [[?|(-> & Hk & ?)]|(ls & Hls & ->)]; [by left|right; exists (final (ps_met p)); split; [|done]; left; by exists p|right; exists ls; auto].
  - intros [?|(ls & [(p' & [= <-] & ? & -> & Hk)|Hls] & ->)]; [by left; left|by left; right|right; by exists ls].
Qed.

(** A limit that was hit stays hit. *)
Definition limits_clear {B} (s : loop_state B) : Prop := ls_sampleLimitErr _ s = false ∧ ls_bucketLimitErr _ s = false.
Lemma after_append_limits {B} (s s' : loop_state B) c b met tracked ce r lset hash lastMeta o :
  after_append s c b met tracked ce r lset hash lastMeta = (s', o) → limits_clear s' → limits_clear s.
Proof.
  unfold after_append, addRef. intros E Hl. revert E.
  destruct r as [ref|[| | | | | | |]]; cbn; destruct ce; try destruct (ref =? 0); cbn; intros [= <- <-]; by destruct Hl.
Qed.
Lemma entry_step_limits s s' e o : entry_step lim sl defTime s e = (s', o) → limits_clear s' → limits_clear s.
Proof.
  destruct e as [mf t|mf h|mf u| |p]; cbn [entry_step]; [by intros [= <- <-]..|]. unfold series_step.
  destruct (getDropped _ _) as [[] c]; [by intros [= <- <-]|]. destruct (cache_get c _) as [[[ce b]|] c'].
  - destruct (b && _); [intros E Hl; by apply (after_append_limits _ _ _ _ _ _ _ _ _ _ _ _ E)|].
    destruct (append_sample _ _ _ _ _ _ _ _) as [[a r] lm].
    destruct (ps_value p) as [v|[h|] [fh|]]; intros E Hl; try (by apply (after_append_limits _ _ _ _ _ _ _ _ _ _ _ _ E)).
    by injection E as <- <-.
  - destruct (sl_sampleMutator sl _) as [|l ls]; [by intros [= <- <-]|]. destruct (check_labels sl _); [by intros [= <- <-]|]. cbn [andb].
    destruct (append_sample _ _ _ _ _ _ _ _) as [[a r] lm].
    destruct (ps_value p) as [v|[h|] [fh|]]; intros E Hl; try (by apply (after_append_limits _ _ _ _ _ _ _ _ _ _ _ _ E)).
    by injection E as <- <-.
Qed.
Lemma append_loop_limits s s' entries o o' : append_loop lim sl defTime s entries o = (s', o') → limits_clear s' → limits_clear s.
Proof.
  revert s. induction entries as [|e entries IH]; intros s; cbn [append_loop]; [by intros [= <- <-]|].
  destruct (entry_step lim sl defTime s e) as [s1 [err|]] eqn:E; intros Hl Hc.
  - injection Hl as <- <-. by apply (entry_step_limits _ _ _ _ E).
  - by apply (entry_step_limits _ _ _ _ E), (IH s1).
Qed.

Lemma entry_step_ok s s' e :
  (∀ p, e = EntrySeries p → line_ok maxTime p) → cache_ok (ls_cache _ s) →
  entry_step lim sl defTime s e = (s', None) → limits_clear s' →
  cache_ok (ls_cache _ s') ∧ (∀ c'' entries, tracks_all (ls_cache _ s') c'' entries → tracks_all (ls_cache _ s) c'' (e :: entries)) ∧ grows s s'.
Proof using lim_sound in_time.
  intros He Hc. destruct e as [mf t|mf h|mf u| |p]; cbn [entry_step].
  1-4: intros [= <-] _; split_and!; [first [exact Hc|by apply set_metadata_ok]|intros c'' entries; by apply tracks_all_same|exists []; by rewrite app_nil_r].
  intros E [F1 F2]. destruct (series_step_ok s s' p (He p eq_refl) Hc E F1 F2) as (H1 & H2 & H3 & _).
  split_and!; [done| |done]. intros c'' entries. by apply tracks_all_series.
Qed.
Lemma append_loop_ok s s' entries :
  entries_ok maxTime entries → cache_ok (ls_cache _ s) → append_loop lim sl defTime s entries None = (s', None) → limits_clear s' →
  cache_ok (ls_cache _ s') ∧ tracks_all (ls_cache _ s) (ls_cache _ s') entries ∧ grows s s'.
Proof using lim_sound in_time.
  revert s. induction entries as [|e entries IH]; intros s He Hc; cbn [append_loop].
  { intros [= <-] _. split_and!; [done| |exists []; by rewrite app_nil_r]. split_and!; [done..|]. intros ref. split; [by left|].
    intros [?|(ls & (p & Hin & _) & _)]; [done|]. by apply elem_of_nil in Hin. }
  destruct (entry_step lim sl defTime s e) as [s1 [err|]] eqn:E; [done|]. intros Hrest Hl.
  destruct (entry_step_ok s s1 e) as (H1 & H2 & [l1 H3]); [|done|done|by apply (append_loop_limits _ _ _ _ _ Hrest)|].
  { intros p ->. apply He. by left. }
  destruct (IH s1) as (H4 & H5 & [l2 H6]); [|done|done|done|].
  { intros p Hin. apply He. by right. }
  split_and!; [done|by apply H2|]. exists (l1 ++ l2). by rewrite app_assoc, <-H3.
Qed.

(** Markers of known series all reach the storage. *)
Lemma mark_stale_ok l :
  passes_markers H maxTime lim → Forall (λ kv, tracked_ok kv.1 kv.2) l →
  ∀ s, ∃ a, mark_stale lim s defTime l = ((a, s.1.2 ++ (marker defTime ∘ snd <$> l), s.2), None).
Proof using in_time.
  intros Hm. induction 1 as [|[ref ce] l (T1 & T2 & T3 & T4) _ IH]; intros s.
  { exists s.1.1. destruct s as [[a log] i]. cbn. by rewrite app_nil_r. }
  cbn [mark_stale]. cbn in T1, T2, T3, T4. fold (marker defTime ce).
  destruct (Hm s (marker defTime ce)) as [a ->]; [cbn; congruence|done|done|done|done|]. cbn.
  destruct (IH (a, s.1.2 ++ [marker defTime ce], s.2)) as [a' ->]. exists a'. cbn. by rewrite <-app_assoc.
Qed.
End with_limits.

Lemma iterDone_ok c : cache_ok c → cache_ok (iterDone c true) ∧ c_seriesPrev (iterDone c true) = c_seriesCur c ∧ c_seriesCur (iterDone c true) = ∅.
Proof.
  intros [S1 S2 S3 S4]. split; [|done]. constructor; cbn.
  - intros met ce. rewrite map_lookup_filter_Some. intros [? _]. by apply S1.
  - intros met i. rewrite map_lookup_filter_Some. intros [? _]. by eapply S2.
  - intros ref ce. by rewrite lookup_empty.
  - done.
Qed.

(** The series that were tracked before, without those that are exposed now. *)
Definition vanished (c : scrapeCache) (entries : list parsed_entry) (stale : list (Z * cacheEntry)) : Prop :=
  NoDup stale.*1 ∧ ∀ ref ce, (ref, ce) ∈ stale ↔ c_seriesPrev c !! ref = Some ce ∧ ∀ ls, exposes entries ls → H ls ≠ ref.

Lemma stale_series_vanished c c' entries :
  c_seriesCur c = ∅ → tracks_all c c' entries → vanished c entries (stale_series c').
Proof.
  intros Hcur (_ & Hp & Ht). unfold vanished, stale_series. rewrite Hp. split.
  - assert (NoDup (go_range (c_seriesPrev c)).*1) as Hn by (rewrite go_range_perm; apply NoDup_fst_map_to_list).
    revert Hn. generalize (go_range (c_seriesPrev c)). intros l. induction l as [|[k v] l IH]; [done|]. rewrite fmap_cons, NoDup_cons. intros [H1 H2].
    rewrite filter_cons. case_decide; [|by apply IH]. rewrite fmap_cons, NoDup_cons. split; [|by apply IH].
    contradict H1. apply list_elem_of_fmap in H1 as (kv & -> & Hkv). apply list_elem_of_filter in Hkv as [_ Hkv]. by apply list_elem_of_fmap_2.
  - intros ref ce. rewrite list_elem_of_filter, go_range_perm, elem_of_map_to_list. cbn.
    assert (c_seriesCur c' !! ref = None ↔ ∀ ls, exposes entries ls → H ls ≠ ref) as HA; [|tauto].
    rewrite eq_None_not_Some, Ht, Hcur, lookup_empty. split.
    + intros Hn ls Hls <-. apply Hn. right. by exists ls.
    + intros Hn [[? [=]]|(ls & Hls & ->)]. by apply (Hn ls).
Qed.

(** A body that is scraped without an error: the storage has the samples and then a marker for
    each series that has vanished, and what is exposed is what is tracked next time. *)
Lemma append_ok c a log entries ts now c' a' log' counts :
  cache_ok c → c_seriesCur c = ∅ → entries_ok (FromTime (now + maxAheadTime)) entries → FromTime ts ≤ FromTime (now + maxAheadTime) →
  append (recording app) sl now c (a, log) (Body (entries, None)) ts = (c', (a', log'), counts, None) →
  cache_ok c' ∧ c_seriesCur c' = ∅ ∧ (∀ ref, is_Some (c_seriesPrev c' !! ref) ↔ ∃ ls, exposes entries ls ∧ ref = H ls)
  ∧ ∃ samples stale, log' = log ++ samples ++ (marker (FromTime ts) ∘ snd <$> stale) ∧ vanished c entries stale.
Proof using accepts.
  intros Hc Hcur He Ht. unfold append.
  set (lim := appenderWithLimits (recording app) _ _ _ _). set (s0 := {| ls_cache := c |}).
  assert (sound_appender H (FromTime (now + maxAheadTime)) lim) as Hs by by apply limited_sound.
  assert (passes_markers H (FromTime (now + maxAheadTime)) lim) as Hm by by apply limited_markers.
  destruct (append_loop lim sl (FromTime ts) s0 entries None) as [s err] eqn:El.
  destruct err as [err|]; [done|]. destruct (ls_sampleLimitErr _ s) eqn:F1; [done|]. destruct (ls_bucketLimitErr _ s) eqn:F2; [done|].
  destruct (append_loop_ok _ _ lim Hs Ht s0 s entries He Hc El (conj F1 F2)) as (H1 & H2 & [l H3]). cbn in H2, H3.
  pose proof (stale_series_vanished _ _ _ Hcur H2) as Hv. unfold updateStaleMarkers.
  destruct (mark_stale_ok _ _ lim Ht (stale_series (ls_cache _ s)) Hm) with (s := ls_app _ s) as [a2 ->].
  { apply Forall_forall. intros [ref ce] Hin. destruct Hv as [_ Hv]. apply Hv in Hin as [Hin _]. by apply (ok_prev _ Hc). }
  destruct H2 as (T1 & T2 & T3). destruct (iterDone_ok _ H1) as (I1 & I2 & I3). cbn. intros [= <- <- <- _].
  split_and!; [done|done| |].
  - intros ref. cbn. rewrite T3. change (c_seriesCur (ls_cache _ s0)) with (c_seriesCur c). rewrite Hcur, lookup_empty. split; [|by right].
    by intros [[? [=]]|?].
  - exists l, (stale_series (ls_cache _ s)). by rewrite app_assoc, H3.
Qed.

(** ** Reports leave the series alone *)

Lemma addReportSample_ok c a log s t v b c' a' log' o :
  cache_ok c → ¬ unmarked (rs_name s) → addReportSample (recording app) sl c (a, log) s t v b = (c', (a', log'), o) →
  cache_ok c' ∧ c_seriesCur c' = c_seriesCur c ∧ c_seriesPrev c' = c_seriesPrev c ∧ ∃ l, log' = log ++ l.
Proof.
  intros Hc Hn. unfold addReportSample, cache_get, recording. destruct (c_series c !! rs_name s) as [ce|]; cbn.
  - set (c1 := set_series _ _). assert (cache_ok c1) as H1 by (by apply set_series_ok).
    match goal with |- context [app a ?x] => destruct (app a x) as [a2 r] end. cbn.
    destruct r as [ref|[]]; intros [= <- <- <- <-]; (split_and!; [done|done|done|by eexists]).
  - match goal with |- context [app a ?x] => destruct (app a x) as [a2 r] end. cbn. unfold addRef.
    destruct r as [ref|[]]; try destruct (ref =? 0); intros [= <- <- <- <-]; (split_and!; [try done; by apply set_series_ok|done|done|by eexists]).
Qed.
Lemma add_reports_ok c a log l t b c' a' log' o :
  cache_ok c → Forall (λ s, ¬ unmarked (rs_name s.1)) l → add_reports (recording app) sl c (a, log) l t b = (c', (a', log'), o) →
  cache_ok c' ∧ c_seriesCur c' = c_seriesCur c ∧ c_seriesPrev c' = c_seriesPrev c ∧ ∃ k, log' = log ++ k.
Proof.
  revert c a log. induction l as [|[s v] l IH]; intros c a log Hc Hl; cbn [add_reports].
  { intros [= <- <- <- _]. split_and!; [done..|]. exists []. by rewrite app_nil_r. }
  inversion Hl as [|? ? Hs Hl']; subst. destruct (addReportSample _ _ _ _ _ _ _ _) as [[c1 [a1 log1]] o1] eqn:E.
  destruct (addReportSample_ok _ _ _ _ _ _ _ _ _ _ _ Hc Hs E) as (H1 & H2 & H3 & [k1 ->]). destruct o1 as [err|].
  - intros [= <- <- <- _]. split_and!; [done..|]. by exists k1.
  - intros Hr. destruct (IH _ _ _ H1 Hl' Hr) as (H4 & H5 & H6 & [k2 ->]). split_and!; [done|congruence|congruence|].
    exists (k1 ++ k2). by rewrite app_assoc.
Qed.
Lemma report_samples_marked d n1 n2 n3 n4 e : Forall (λ s, ¬ unmarked (rs_name s.1)) (report_samples sl d n1 n2 n3 n4 e).
Proof. unfold report_samples, unmarked. destruct (sl_reportExtraMetrics sl); repeat constructor; done. Qed.

Lemma scrape_ok c a0 entries n ts now d c' a' log' :
  cache_ok c → c_seriesCur c = ∅ → entries_ok (FromTime (now + maxAheadTime)) entries → FromTime ts ≤ FromTime (now + maxAheadTime) →
  scrapeAndReport (recording app) (a0, []) sl now d c None (Ok (Body (entries, None), n)) ts = (c', Some (a', log'), None) →
  cache_ok c' ∧ c_seriesCur c' = ∅ ∧ (∀ ref, is_Some (c_seriesPrev c' !! ref) ↔ ∃ ls, exposes entries ls ∧ ref = H ls)
  ∧ ∃ samples stale reports, log' = samples ++ (marker (FromTime ts) ∘ snd <$> stale) ++ reports ∧ vanished c entries stale.
Proof using accepts.
  intros Hc Hcur He Ht. unfold scrapeAndReport, append_or_new.
  destruct (append _ _ _ _ _ _ _) as [[[c1 [a1 log1]] [[n1 n2] n3]] err] eqn:E. destruct err as [err|].
  { destruct (append _ _ _ _ _ EmptyBody _) as [[[? ?] ?] ?]. by destruct (report _ _ _ _ _ _ _ _ _ _ _) as [[? ?] ?]. }
  destruct (append_ok _ _ _ _ _ _ _ _ _ _ Hc Hcur He Ht E) as (H1 & H2 & H3 & samples & stale & -> & Hv).
  destruct (report _ _ _ _ _ _ _ _ _ _ _) as [[c2 [a2 log2]] o] eqn:Er. destruct o; [done|]. intros [= <- <- <-].
  destruct (add_reports_ok _ _ _ _ _ _ _ _ _ _ H1 (report_samples_marked _ _ _ _ _ _) Er) as (R1 & R2 & R3 & [k ->]).
  split_and!; [done|congruence|by rewrite R3|]. exists samples, stale, k. cbn. by rewrite <-!app_assoc.
Qed.

(** C34. Over two scrapes that succeed, into a storage that takes every sample and whose references
    are given by the labels, without two label sets that share one: the second sends a marker for
    exactly the label sets with a reference that a tracked line of the first exposed and no tracked
    line of the second does, each once, after its samples. A line is tracked when no timestamp of
    its own is used, as by default it is where the target sends one, or when the staleness of such
    lines is to be tracked; no timestamp is too far in the future. *)
Theorem vanished_series_marked c0 e1 n1 t1 now1 d1 a0 c1 committed1 e2 n2 t2 now2 d2 a0' c2 a2 log2 :
  (∀ ls ls', H ls = H ls' → kept ls → kept ls' → ls = ls') →
  cache_ok c0 → c_seriesCur c0 = ∅ → entries_ok (FromTime (now1 + maxAheadTime)) e1 → entries_ok (FromTime (now2 + maxAheadTime)) e2 →
  FromTime t1 ≤ FromTime (now1 + maxAheadTime) → FromTime t2 ≤ FromTime (now2 + maxAheadTime) →
  scrapeAndReport (recording app) (a0, []) sl now1 d1 c0 None (Ok (Body (e1, None), n1)) t1 = (c1, Some committed1, None) →
  scrapeAndReport (recording app) (a0', []) sl now2 d2 c1 None (Ok (Body (e2, None), n2)) t2 = (c2, Some (a2, log2), None) →
  ∃ samples markers reports,
    log2 = samples ++ markers ++ reports ∧ NoDup (ac_ls <$> markers)
    ∧ (∀ ls, ls ∈ ac_ls <$> markers ↔ exposes e1 ls ∧ ¬ exposes e2 ls)
    ∧ Forall (λ m, ac_v m = StaleNaN ∧ ac_t m = FromTime t2 ∧ ac_ref m = H (ac_ls m)) markers.
Proof using accepts.
  intros Hinj Hc0 Hcur0 He1 He2 Ht1 Ht2 S1 S2. destruct committed1 as [a1 log1].
  destruct (scrape_ok _ _ _ _ _ _ _ _ _ _ Hc0 Hcur0 He1 Ht1 S1) as (Hc1 & Hcur1 & Hprev1 & _).
  destruct (scrape_ok _ _ _ _ _ _ _ _ _ _ Hc1 Hcur1 He2 Ht2 S2) as (_ & _ & _ & samples & stale & reports & -> & Hn & Hv).
  assert (∀ ref ce, (ref, ce) ∈ stale → tracked_ok ref ce) as Hok.
  { intros ref ce Hin. apply Hv in Hin as [Hin _]. by apply (ok_prev _ Hc1). }
  exists samples, (marker (FromTime t2) ∘ snd <$> stale), reports. split; [done|].
  rewrite <-list_fmap_compose. split_and!.
  - apply (NoDup_fmap_1 H). rewrite <-list_fmap_compose.
    assert (H ∘ (ac_ls ∘ (marker (FromTime t2) ∘ snd)) <$> stale = stale.*1) as ->; [|done].
    apply list_fmap_ext. intros i [ref ce] Hi%list_elem_of_lookup_2. by destruct (Hok _ _ Hi) as (-> & _).
  - intros ls. rewrite list_elem_of_fmap. split.
    + intros ([ref ce] & -> & Hin). cbn. destruct (Hok _ _ Hin) as (E1 & _ & Hk). apply Hv in Hin as [Hp Hno].
      destruct (proj1 (Hprev1 ref) (ex_intro _ _ Hp)) as (ls & Hls & E2).
      assert (ce_lset ce = ls) as ->. { apply Hinj; [congruence|done|]. by destruct Hls as (? & _ & _ & _ & ?). }
      split; [done|]. intros H2. by apply (Hno _ H2).
    + intros [H1 H2]. destruct (proj2 (Hprev1 (H ls)) (ex_intro _ _ (conj H1 eq_refl))) as [ce Hce].
      assert (tracked_ok (H ls) ce) as (E1 & _ & Hk) by by apply (ok_prev _ Hc1).
      assert (kept ls) as Hkls by by destruct H1 as (? & _ & _ & _ & ?).
      exists (H ls, ce). split; [cbn; by apply Hinj|]. apply Hv. split; [done|]. intros ls' Hls' E.
      apply H2. by rewrite (Hinj ls ls' (eq_sym E) Hkls) by by destruct Hls' as (? & _ & _ & _ & ?).
  - apply Forall_fmap, Forall_forall. intros [ref ce] Hin. destruct (Hok _ _ Hin) as (E1 & E2 & _). cbn. split_and!; congruence.
Qed.
End scrape.

(** ** An instance *)

#[local] Existing Instances any_prom any_scrape any_builder any_range any_target.
Definition any_histograms : HistogramLibrary := {|
  IsExponentialSchema s := bool_decide (-4 ≤ s ≤ 8); IsExponentialSchemaReserved s := bool_decide (-9 ≤ s ≤ 52);
  ExponentialSchemaMin := -4; ExponentialSchemaMax := 8; CustomBucketsSchema := -53; ReduceResolution C B h s := Ok h |}.
Definition any_text : ScrapeText := {|
  err_text _ := "scrape failed"; sort_exemplars l := l; Labels_String _ := "{}"; nil_histogram_error _ := "parser bug" |}.
#[local] Existing Instances any_histograms any_text.

Definition plain_loop : scrapeLoop := {|
  sl_timeout := 1000000000; sl_sampleMutator ls := ls; sl_reportSampleMutator ls := ls; sl_sampleLimit := 10; sl_bucketLimit := 0;
  sl_maxSchema := 8; sl_labelLimits := None; sl_honorTimestamps := true; sl_trackTimestampsStaleness := false; sl_parseST := false;
  sl_appendMetadataToWAL := false; sl_reportExtraMetrics := false; sl_validationScheme := UTF8Validation |}.
Definition line_labels (met : string) : Labels := [("__name__", met)].
Definition line_entry (met : string) : parsed_entry := EntrySeries
  {| ps_met := met; ps_ts := None; ps_value := FloatValue zero; ps_lset := line_labels met; ps_st := 0; ps_exemplars := [] |}.
Definition ref_of (ls : Labels) : Z := Z.pos (encode ls).
Definition plain_storage : appender unit := λ a c, (a, Ok (ref_of (ac_ls c))).
Definition scrape_lines (c : scrapeCache) (mets : list string) :=
  scrapeAndReport (recording plain_storage) (tt, []) plain_loop 0 1 c None (Ok (Body (line_entry <$> mets, None), 1)) 0.

Lemma new_cache_ok H sl L : cache_ok H sl L newScrapeCache.
Proof. by constructor. Qed.
Lemma lines_ok maxTime mets : Forall unmarked mets → entries_ok plain_loop line_labels maxTime (line_entry <$> mets).
Proof.
  intros Hm p (met & E & Hin)%list_elem_of_fmap. injection E as ->. split; [done|]. rewrite Forall_forall in Hm. split; [by apply Hm|done].
Qed.

Lemma vanished_series_marked_witness :
  ∃ c1 log1 c2 log2,
    scrape_lines newScrapeCache ["a"; "b"] = (c1, Some (tt, log1), None) ∧ scrape_lines c1 ["b"; "c"] = (c2, Some (tt, log2), None)
    ∧ (ac_ls <$> filter (λ m, IsStaleNaN (ac_v m) = true) log2) = [line_labels "a"]
    ∧ ∃ markers : list append_call, NoDup (ac_ls <$> markers) ∧ ∀ ls, ls ∈ ac_ls <$> markers ↔
        exposes ref_of plain_loop line_labels (line_entry <$> ["a"; "b"]) ls ∧ ¬ exposes ref_of plain_loop line_labels (line_entry <$> ["b"; "c"]) ls.
Proof.
  destruct (scrape_lines newScrapeCache ["a"; "b"]) as [[c1 o1] e1] eqn:E1. vm_compute in E1. injection E1 as <- <- <-.
  eexists _, _, _, _. split; [reflexivity|]. split; [vm_compute; reflexivity|]. split; [vm_compute; reflexivity|].
  edestruct (vanished_series_marked plain_storage ref_of plain_loop line_labels) with (c0 := newScrapeCache)
    (e1 := line_entry <$> ["a"; "b"]) (e2 := line_entry <$> ["b"; "c"]) (n1 := 1) (n2 := 1) (t1 := 0) (t2 := 0) (now1 := 0) (now2 := 0)
    (d1 := 1) (d2 := 1) (a0 := tt) (a0' := tt) as (samples & markers & reports & _ & H1 & H2 & _);
    [done| |apply new_cache_ok|done|apply lines_ok; repeat constructor|apply lines_ok; repeat constructor|done|done
    |vm_compute; reflexivity|vm_compute; reflexivity|].
  - intros ls ls' E _ _. unfold ref_of in E. by injection E as E%(inj encode).
  - by exists markers.
Defined.
