(* ===== verification/ScrapePool.v ===== *)
(** * Pools of scrape loops

    src/receiver/prometheusreceiver/internal/scrape/scrape.go: [scrapePool], which runs a loop
    for each target of a job, and [newScrapeLoop]. The loops themselves run in goroutines; an
    operation of the pool tells which loops it stopped and started, in order. Caches have
    names, since a loop may get the cache of the loop that it replaces. *)
From S2P Require Import Prelude GoText Pdata Sampling Pmetric Flatten Utils SpanHistogram PromFamily ScrapeConfig PromTarget ScrapeCache ScrapeLoop.
From Stdlib Require Import SpecFloat.

(** [math], the HTTP client, and [reflect.DeepEqual] on configurations. *)
Class PoolLibrary `{SL : ScrapeLibrary} := {
  Log2 : float64 → float64; Floor : float64 → float64; float_min_factor : float64; newScrapeClient : HTTPClientConfig → string → option string;
  EmptyHTTPClientConfig : HTTPClientConfig; CheckNameValidationScheme : ValidationScheme → bool; DeepEqual : ScrapeConfig → ScrapeConfig → bool;
  EscapingKey : string; EscapingScheme_String : EscapingScheme → string }.

(** What the manager sets for all pools. *)
Record Options := {
  PassMetadataInContext : bool; AppendMetadata : bool; DiscoveryReloadInterval : Z; EnableStartTimestampZeroIngestion : bool; ParseST : bool;
  EnableTypeAndUnitLabels : bool; ScrapeOnShutdown : bool; DiscoveryReloadOnStartup : bool; InitialScrapeOffset : Z; skipJitterOffsetting : bool }.
Definition zero_Options : Options :=
  {| PassMetadataInContext := false; AppendMetadata := false; DiscoveryReloadInterval := 0; EnableStartTimestampZeroIngestion := false;
     ParseST := false; EnableTypeAndUnitLabels := false; ScrapeOnShutdown := false; DiscoveryReloadOnStartup := false; InitialScrapeOffset := 0;
     skipJitterOffsetting := false |}.

Section pool.
Context `{PM : Prometheus} `{TL : TargetLibrary} `{GR : GoRange} `{HL : HistogramLibrary} `{PL : !PoolLibrary}.

(** ** Loops *)

Definition float64_geb (a b : float64) : bool := SFleb b a.
(** The schema of the factor between buckets; [float_min_factor] is 1.00271. *)
Definition pickSchema (bucketFactor : float64) : Z :=
  let bucketFactor := if SFleb bucketFactor (float64_of_int 1) then float_min_factor else bucketFactor in
  let floor := Floor (SFopp (Log2 (Log2 bucketFactor))) in
  if float64_geb floor (float64_of_int ExponentialSchemaMax) then ExponentialSchemaMax
  else if SFleb floor (float64_of_int ExponentialSchemaMin) then ExponentialSchemaMin
  else int_of_float floor.

(** What a loop scrapes with. The labels of samples are changed as the configuration of its
    pool says, which is that of its start until it is replaced. *)
Definition loop_config (o : Options) (cfg : ScrapeConfig) (t : Target) (timeout : Z) : scrapeLoop :=
  {| sl_timeout := timeout;
     sl_sampleMutator ls := mutateSampleLabels ls t (HonorLabels cfg) (MetricRelabelConfigs cfg);
     sl_reportSampleMutator ls := mutateReportSampleLabels ls t;
     sl_sampleLimit := i64 (SampleLimit cfg); sl_bucketLimit := i64 (NativeHistogramBucketLimit cfg);
     sl_maxSchema := pickSchema (NativeHistogramMinBucketFactor cfg);
     sl_labelLimits := Some {| labelLimit := i64 (LabelLimit cfg); labelNameLengthLimit := i64 (LabelNameLengthLimit cfg);
                               labelValueLengthLimit := i64 (LabelValueLengthLimit cfg) |};
     sl_honorTimestamps := HonorTimestamps cfg; sl_trackTimestampsStaleness := TrackTimestampsStaleness cfg;
     sl_parseST := ParseST o || EnableStartTimestampZeroIngestion o; sl_appendMetadataToWAL := AppendMetadata o;
     sl_reportExtraMetrics := ExtraScrapeMetricsEnabled cfg; sl_validationScheme := MetricNameValidationScheme cfg |}.

Fixpoint accept_values (sps : list ScrapeProtocol) (scheme : EscapingScheme) (weight : Z) : list string :=
  match sps with
  | [] => ["*/*;q=0." +:+ FormatInt weight]
  | sp :: rest =>
      let val := default "" (ScrapeProtocolsHeaders !! sp) in
      let val := if bool_decide (sp = PrometheusText1_0_0) || bool_decide (sp = OpenMetricsText1_0_0)
                 then val +:+ ";" +:+ EscapingKey +:+ "=" +:+ EscapingScheme_String scheme else val in
      (val +:+ ";q=0." +:+ FormatInt weight) :: accept_values rest scheme (weight - 1)
  end.
Definition acceptHeader (sps : list ScrapeProtocol) (scheme : EscapingScheme) : string :=
  join "," (accept_values sps scheme (Z.of_nat (size ScrapeProtocolsHeaders) + 1)).
Definition acceptEncodingHeader (enableCompression : bool) : string := if enableCompression then "gzip" else "identity".

(** A loop, by a number of its own, with its target as it was at the start; [lp_disabled] when no
    markers are to be written at its end. *)
Record loop := {
  lp_id : Z; lp_target : Target; lp_config : scrapeLoop; lp_cache : Z; lp_interval : Z; lp_bodySizeLimit : Z; lp_acceptHeader : string;
  lp_acceptEncodingHeader : string; lp_forcedErr : option string; lp_disabled : bool; lp_failureLogger : option string }.
Definition setForcedError (err : option string) (l : loop) : loop :=
  {| lp_id := lp_id l; lp_target := lp_target l; lp_config := lp_config l; lp_cache := lp_cache l; lp_interval := lp_interval l;
     lp_bodySizeLimit := lp_bodySizeLimit l; lp_acceptHeader := lp_acceptHeader l; lp_acceptEncodingHeader := lp_acceptEncodingHeader l;
     lp_forcedErr := err; lp_disabled := lp_disabled l; lp_failureLogger := lp_failureLogger l |}.
Definition setScrapeFailureLogger (logger : option string) (l : loop) : loop :=
  {| lp_id := lp_id l; lp_target := lp_target l; lp_config := lp_config l; lp_cache := lp_cache l; lp_interval := lp_interval l;
     lp_bodySizeLimit := lp_bodySizeLimit l; lp_acceptHeader := lp_acceptHeader l; lp_acceptEncodingHeader := lp_acceptEncodingHeader l;
     lp_forcedErr := lp_forcedErr l; lp_disabled := lp_disabled l; lp_failureLogger := logger |}.
Definition disableEndOfRunStalenessMarkers (l : loop) : loop :=
  {| lp_id := lp_id l; lp_target := lp_target l; lp_config := lp_config l; lp_cache := lp_cache l; lp_interval := lp_interval l;
     lp_bodySizeLimit := lp_bodySizeLimit l; lp_acceptHeader := lp_acceptHeader l; lp_acceptEncodingHeader := lp_acceptEncodingHeader l;
     lp_forcedErr := lp_forcedErr l; lp_disabled := true; lp_failureLogger := lp_failureLogger l |}.

(** ** The pool *)

(** [sp_next] is the next number of a loop and of a cache. *)
Record scrapePool := {
  sp_options : Options; sp_config : ScrapeConfig; sp_loops : gmap Z loop; sp_activeTargets : gmap Z Target; sp_droppedTargets : list Target;
  sp_droppedTargetsCount : Z; sp_failureLogger : option string; sp_lastSymbolTableCheck : Z; sp_initialSymbolTableLen : Z; sp_next : Z }.
Definition with_loops (sp : scrapePool) (loops : gmap Z loop) (targets : gmap Z Target) (next : Z) : scrapePool :=
  {| sp_options := sp_options sp; sp_config := sp_config sp; sp_loops := loops; sp_activeTargets := targets;
     sp_droppedTargets := sp_droppedTargets sp; sp_droppedTargetsCount := sp_droppedTargetsCount sp; sp_failureLogger := sp_failureLogger sp;
     sp_lastSymbolTableCheck := sp_lastSymbolTableCheck sp; sp_initialSymbolTableLen := sp_initialSymbolTableLen sp; sp_next := next |}.
Definition with_config (sp : scrapePool) (cfg : ScrapeConfig) : scrapePool :=
  {| sp_options := sp_options sp; sp_config := cfg; sp_loops := sp_loops sp; sp_activeTargets := sp_activeTargets sp;
     sp_droppedTargets := sp_droppedTargets sp; sp_droppedTargetsCount := sp_droppedTargetsCount sp; sp_failureLogger := sp_failureLogger sp;
     sp_lastSymbolTableCheck := sp_lastSymbolTableCheck sp; sp_initialSymbolTableLen := sp_initialSymbolTableLen sp; sp_next := sp_next sp |}.
Definition with_dropped (sp : scrapePool) (dropped : list Target) (count : Z) : scrapePool :=
  {| sp_options := sp_options sp; sp_config := sp_config sp; sp_loops := sp_loops sp; sp_activeTargets := sp_activeTargets sp;
     sp_droppedTargets := dropped; sp_droppedTargetsCount := count; sp_failureLogger := sp_failureLogger sp;
     sp_lastSymbolTableCheck := sp_lastSymbolTableCheck sp; sp_initialSymbolTableLen := sp_initialSymbolTableLen sp; sp_next := sp_next sp |}.
Definition with_symbols (sp : scrapePool) (last len : Z) : scrapePool :=
  {| sp_options := sp_options sp; sp_config := sp_config sp; sp_loops := sp_loops sp; sp_activeTargets := sp_activeTargets sp;
     sp_droppedTargets := sp_droppedTargets sp; sp_droppedTargetsCount := sp_droppedTargetsCount sp; sp_failureLogger := sp_failureLogger sp;
     sp_lastSymbolTableCheck := last; sp_initialSymbolTableLen := len; sp_next := sp_next sp |}.
(** A loop is stopped, as it was, or started. An operation gives a new state and its events. *)
Inductive loop_event := Stopped (l : loop) | Started (l : loop).
Definition changed : Type := scrapePool * list loop_event.

(** The checks of a configuration, which its own validation has made already. *)
Definition check_schemes (cfg : ScrapeConfig) (unset invalid : string) : outcome (option string) :=
  if CheckNameValidationScheme (MetricNameValidationScheme cfg) then
    scheme ← ToEscapingScheme (MetricNameEscapingScheme cfg) (MetricNameValidationScheme cfg);
    Done (match scheme with Ok _ => None | Err err => Some (invalid +:+ err) end)
  else Done (Some unset).
Definition newScrapePool (o : Options) (cfg : ScrapeConfig) (now : Z) : outcome (result string scrapePool) :=
  match newScrapeClient (sc_HTTPClientConfig cfg) (JobName cfg) with
  | Some err => Done (Err err)
  | None =>
      checked ← check_schemes cfg "newScrapePool: MetricNameValidationScheme must be set in scrape configuration"
                  "invalid metric name escaping scheme, ";
      Done (match checked with
            | Some err => Err err
            | None => Ok {| sp_options := o; sp_config := cfg; sp_loops := ∅; sp_activeTargets := ∅; sp_droppedTargets := [];
                            sp_droppedTargetsCount := 0; sp_failureLogger := None; sp_lastSymbolTableCheck := now;
                            sp_initialSymbolTableLen := 0; sp_next := 1 |}
            end)
  end.
Definition ActiveTargets (sp : scrapePool) : list Target := (go_range (sp_activeTargets sp)).*2.
Definition DroppedTargets (sp : scrapePool) : list Target := sp_droppedTargets sp.
Definition DroppedTargetsCount (sp : scrapePool) : Z := sp_droppedTargetsCount sp.
Definition SetScrapeFailureLogger (sp : scrapePool) (logger : option string) : scrapePool :=
  {| sp_options := sp_options sp; sp_config := sp_config sp; sp_loops := setScrapeFailureLogger logger <$> sp_loops sp;
     sp_activeTargets := sp_activeTargets sp; sp_droppedTargets := sp_droppedTargets sp; sp_droppedTargetsCount := sp_droppedTargetsCount sp;
     sp_failureLogger := logger; sp_lastSymbolTableCheck := sp_lastSymbolTableCheck sp;
     sp_initialSymbolTableLen := sp_initialSymbolTableLen sp; sp_next := sp_next sp |}.
Definition pool_stop (sp : scrapePool) : changed :=
  (with_loops sp ∅ (filter (λ kv, sp_loops sp !! kv.1 = None) (sp_activeTargets sp)) (sp_next sp), Stopped <$> (go_range (sp_loops sp)).*2).

Definition refreshTargetLimitErr (sp : scrapePool) : option string :=
  if TargetLimit (sp_config sp) =? 0 then None
  else
    let l := Z.of_nat (size (sp_activeTargets sp)) in
    if i64 (TargetLimit (sp_config sp)) <? l
    then Some ("target_limit exceeded (number of targets: " +:+ FormatInt l +:+ ", limit: " +:+ FormatInt (TargetLimit (sp_config sp)) +:+ ")")
    else None.
(** The error of a scheme is dropped: it is that of no escaping. *)
Definition escaping_scheme (cfg : ScrapeConfig) : outcome EscapingScheme :=
  scheme ← ToEscapingScheme (MetricNameEscapingScheme cfg) (MetricNameValidationScheme cfg);
  Done (match scheme with Ok s => s | Err _ => NoEscaping end).
Definition new_loop (sp : scrapePool) (scheme : EscapingScheme) (t : Target) (cache : Z) : loop :=
  let cfg := sp_config sp in
  let '(targetInterval, targetTimeout, err) := intervalAndTimeout t (ScrapeInterval cfg) (ScrapeTimeout cfg) in
  {| lp_id := sp_next sp; lp_target := t; lp_config := loop_config (sp_options sp) cfg t targetTimeout; lp_cache := cache;
     lp_interval := targetInterval; lp_bodySizeLimit := BodySizeLimit cfg;
     lp_acceptHeader := acceptHeader (default [] (ScrapeProtocols cfg)) scheme;
     lp_acceptEncodingHeader := acceptEncodingHeader (EnableCompression cfg); lp_forcedErr := err; lp_disabled := false;
     lp_failureLogger := None |}.

(** *** Restarts *)

(** Each loop is replaced by one for the same target; a target that is not there is a panic. *)
Fixpoint restart_each (sp : scrapePool) (scheme : EscapingScheme) (reuseCache : bool) (forcedErr : option string) (l : list (Z * loop)) :
    outcome changed :=
  match l with
  | [] => Done (sp, [])
  | (fp, oldLoop) :: rest =>
      match sp_activeTargets sp !! fp with
      | None => Panics
      | Some t =>
          let oldLoop := if reuseCache then disableEndOfRunStalenessMarkers oldLoop else oldLoop in
          let cache := if reuseCache then lp_cache oldLoop else sp_next sp in
          let newLoop := setScrapeFailureLogger (sp_failureLogger sp) (setForcedError forcedErr (new_loop sp scheme t cache)) in
          let sp := with_loops sp (<[fp := newLoop]> (sp_loops sp)) (sp_activeTargets sp) (sp_next sp + 1) in
          '(sp, events) ← restart_each sp scheme reuseCache forcedErr rest;
          Done (sp, Stopped oldLoop :: Started newLoop :: events)
      end
  end.
Definition restartLoops (sp : scrapePool) (reuseCache : bool) : outcome changed :=
  scheme ← escaping_scheme (sp_config sp);
  restart_each sp scheme reuseCache (refreshTargetLimitErr sp) (go_range (sp_loops sp)).
Definition minTimeToCleanSymbolTable : Z := 5 * minute.
(** [len] is the size of the table of symbols. *)
Definition checkSymbolTable (sp : scrapePool) (now len : Z) : outcome changed :=
  if minTimeToCleanSymbolTable <? now - sp_lastSymbolTableCheck sp then
    if sp_initialSymbolTableLen sp =? 0 then Done (with_symbols sp now len, [])
    else if 2 * sp_initialSymbolTableLen sp <? len then
      '(sp, events) ← restartLoops (with_symbols sp (sp_lastSymbolTableCheck sp) 0) false;
      Done (with_symbols sp now 0, events)
    else Done (with_symbols sp now (sp_initialSymbolTableLen sp), [])
  else Done (sp, []).

(** What alters the metrics of a configuration. *)
Definition zeroConfig (c : ScrapeConfig) : ScrapeConfig :=
  {| JobName := JobName c; HonorLabels := HonorLabels c; HonorTimestamps := HonorTimestamps c;
     TrackTimestampsStaleness := TrackTimestampsStaleness c; Params := Params c; ScrapeInterval := 0; ScrapeTimeout := 0;
     ScrapeProtocols := ScrapeProtocols c; ScrapeFallbackProtocol := ScrapeFallbackProtocol c;
     ScrapeNativeHistograms := ScrapeNativeHistograms c; AlwaysScrapeClassicHistograms := AlwaysScrapeClassicHistograms c;
     ConvertClassicHistogramsToNHCB := ConvertClassicHistogramsToNHCB c; ScrapeFailureLogFile := ScrapeFailureLogFile c;
     MetricsPath := MetricsPath c; Scheme := Scheme c; EnableCompression := EnableCompression c; BodySizeLimit := BodySizeLimit c;
     SampleLimit := 0; TargetLimit := TargetLimit c; LabelLimit := LabelLimit c; LabelNameLengthLimit := LabelNameLengthLimit c;
     LabelValueLengthLimit := LabelValueLengthLimit c; NativeHistogramBucketLimit := NativeHistogramBucketLimit c;
     NativeHistogramMinBucketFactor := NativeHistogramMinBucketFactor c; KeepDroppedTargets := KeepDroppedTargets c;
     MetricNameValidationScheme := MetricNameValidationScheme c; MetricNameEscapingScheme := MetricNameEscapingScheme c;
     ExtraScrapeMetrics := ExtraScrapeMetrics c; ServiceDiscoveryConfigs := ServiceDiscoveryConfigs c;
     sc_HTTPClientConfig := EmptyHTTPClientConfig; RelabelConfigs := RelabelConfigs c; MetricRelabelConfigs := MetricRelabelConfigs c |}.
Definition reusableCache (r l : ScrapeConfig) : bool := DeepEqual (zeroConfig r) (zeroConfig l).
(** The configuration stays also when it is refused after the client was made. *)
Definition pool_reload (sp : scrapePool) (cfg : ScrapeConfig) : outcome (changed * option string) :=
  match newScrapeClient (sc_HTTPClientConfig cfg) (JobName cfg) with
  | Some err => Done ((sp, []), Some err)
  | None =>
      let reuseCache := reusableCache (sp_config sp) cfg in
      let sp := with_config sp cfg in
      checked ← check_schemes cfg "scrapePool.reload: MetricNameValidationScheme must be set in scrape configuration"
                  "scrapePool.reload: invalid metric name escaping scheme, ";
      match checked with
      | Some err => Done ((sp, []), Some err)
      | None => c ← restartLoops sp reuseCache; Done (c, None)
      end
  end.

(** *** Synchronization *)

(** The loops of the targets: a new one for a new target, none for one that has a loop. *)
Fixpoint sync_targets (sp : scrapePool) (scheme : EscapingScheme) (uniqueLoops : gmap Z (option loop)) (targets : list Target) :
    scrapePool * gmap Z (option loop) :=
  match targets with
  | [] => (sp, uniqueLoops)
  | t :: rest =>
      let hash := Target_hash t in
      match sp_activeTargets sp !! hash with
      | None =>
          let l := setScrapeFailureLogger (sp_failureLogger sp) (new_loop sp scheme t (sp_next sp)) in
          sync_targets (with_loops sp (<[hash := l]> (sp_loops sp)) (<[hash := t]> (sp_activeTargets sp)) (sp_next sp + 1)) scheme
            (<[hash := Some l]> uniqueLoops) rest
      | Some old =>
          let uniqueLoops := match uniqueLoops !! hash with Some _ => uniqueLoops | None => <[hash := None]> uniqueLoops end in
          let old := SetScrapeConfig old (sp_config sp) (t_tLabels t) (t_tgLabels t) in
          sync_targets (with_loops sp (sp_loops sp) (<[hash := old]> (sp_activeTargets sp)) (sp_next sp)) scheme uniqueLoops rest
      end
  end.
Definition gone (sp : scrapePool) (uniqueLoops : gmap Z (option loop)) (hash : Z) : Prop :=
  is_Some (sp_activeTargets sp !! hash) ∧ uniqueLoops !! hash = None.
#[export] Instance gone_dec sp uniqueLoops hash : base.Decision (gone sp uniqueLoops hash).
Proof. unfold gone. apply _. Defined.
Definition pool_sync (sp : scrapePool) (targets : list Target) : outcome changed :=
  scheme ← escaping_scheme (sp_config sp);
  let '(sp, uniqueLoops) := sync_targets sp scheme ∅ targets in
  let stopped := omap (λ kv, if decide (uniqueLoops !! kv.1 = None) then sp_loops sp !! kv.1 else None) (go_range (sp_activeTargets sp)) in
  let sp := with_loops sp (filter (λ kv, ¬ gone sp uniqueLoops kv.1) (sp_loops sp))
              (filter (λ kv, ¬ gone sp uniqueLoops kv.1) (sp_activeTargets sp)) (sp_next sp) in
  let forcedErr := refreshTargetLimitErr sp in
  let sp := with_loops sp (setForcedError forcedErr <$> sp_loops sp) (sp_activeTargets sp) (sp_next sp) in
  Done (sp, (Stopped <$> stopped) ++ (Started <$> (setForcedError forcedErr <$> omap (λ kv, kv.2) (go_range uniqueLoops)))).

(** A target without public labels was dropped; only so many of them are kept. *)
Definition nonEmpty (t : Target) : bool := match LabelsRange t with [] => false | _ => true end.
Definition add_target (cfg : ScrapeConfig) (acc : list Target * list Target * Z) (t : Target) : list Target * list Target * Z :=
  let '(all, dropped, count) := acc in
  if nonEmpty t then (all ++ [t], dropped, count)
  else (all, if (KeepDroppedTargets cfg =? 0) || (Z.of_nat (length dropped) <? KeepDroppedTargets cfg) then dropped ++ [t] else dropped, count + 1).
Definition group_targets (cfg : ScrapeConfig) (tgs : list target_group) : list Target :=
  tgs ≫= λ tg, (TargetsFromGroup cfg (tg_Source tg) (tg_Targets tg) (tg_Labels tg)).1.
Definition Sync (sp : scrapePool) (tgs : list target_group) (now len : Z) : outcome changed :=
  let '(all, dropped, count) := foldl (add_target (sp_config sp)) ([], [], 0) (group_targets (sp_config sp) tgs) in
  '(sp, events) ← pool_sync (with_dropped sp dropped count) all;
  '(sp, events') ← checkSymbolTable sp now len;
  Done (sp, events ++ events').
(** The loops of these targets write no markers at their end. *)
Definition pool_disableEndOfRunStalenessMarkers (sp : scrapePool) (targets : list Target) : scrapePool :=
  with_loops sp (foldl (λ loops t, alter disableEndOfRunStalenessMarkers (Target_hash t) loops) (sp_loops sp) targets) (sp_activeTargets sp) (sp_next sp).
End pool.
