(* ===== verification/ScrapePoolProps.v ===== *)
(** * A pool runs one loop for each of its targets

    Whatever is asked of a pool, in whatever order: no operation panics, the loops that run are
    those of its map, one for each active target, and after a synchronization the targets are
    those of the groups. A target that stays keeps its loop. *)
From S2P Require Import Prelude GoText Pdata Sampling Pmetric Flatten Utils SpanHistogram PromFamily PromFamilyProps ScrapeConfig ScrapeConfigProps PromTarget PromTargetProps ScrapeCache ScrapeLoop ScrapePool.
From Stdlib Require Import SpecFloat.

Section pool.
Context `{PM : Prometheus} `{TL : TargetLibrary} `{GR : GoRange} `{HL : HistogramLibrary} `{PL : !PoolLibrary}.

(** What validation has made sure of. *)
Definition known_scheme (cfg : ScrapeConfig) : Prop :=
  MetricNameValidationScheme cfg = UTF8Validation ∨ MetricNameValidationScheme cfg = LegacyValidation.
Lemma escaping_scheme_done cfg : known_scheme cfg → ∃ s, escaping_scheme cfg = Done s.
Proof.
  intros Hs. unfold escaping_scheme, ToEscapingScheme. case_decide; [|by eexists]. destruct Hs as [-> | ->]; by eexists.
Qed.

(** ** The state of a pool *)

Record pool_ok (sp : scrapePool) : Prop := {
  ok_scheme : known_scheme (sp_config sp);
  ok_dom h : is_Some (sp_loops sp !! h) ↔ is_Some (sp_activeTargets sp !! h);
  ok_labels h l t : sp_loops sp !! h = Some l → sp_activeTargets sp !! h = Some t → t_labels (lp_target l) = t_labels t;
  ok_next h l : sp_loops sp !! h = Some l → lp_id l < sp_next sp;
  ok_ids h1 h2 l1 l2 : sp_loops sp !! h1 = Some l1 → sp_loops sp !! h2 = Some l2 → lp_id l1 = lp_id l2 → h1 = h2 }.
(** The loops that run, by their numbers. *)
Definition runs (running : gset Z) (sp : scrapePool) : Prop := ∀ id, id ∈ running ↔ ∃ h l, sp_loops sp !! h = Some l ∧ lp_id l = id.
Definition after_event (running : gset Z) (e : loop_event) : gset Z :=
  match e with Stopped l => running ∖ {[lp_id l]} | Started l => running ∪ {[lp_id l]} end.
Definition after (running : gset Z) (events : list loop_event) : gset Z := foldl after_event running events.
Lemma elem_of_after_stops running ls id : id ∈ after running (Stopped <$> ls) ↔ id ∈ running ∧ id ∉ lp_id <$> ls.
Proof.
  revert running. induction ls as [|l ls IH]; intros running; [cbn; set_solver|]. unfold after in *. cbn [fmap list_fmap foldl]. rewrite IH. cbn. set_solver.
Qed.
Lemma elem_of_after_starts running ls id : id ∈ after running (Started <$> ls) ↔ id ∈ running ∨ id ∈ lp_id <$> ls.
Proof.
  revert running. induction ls as [|l ls IH]; intros running; [cbn; set_solver|]. unfold after in *. cbn [fmap list_fmap foldl]. rewrite IH. cbn. set_solver.
Qed.
Lemma after_app running l1 l2 : after running (l1 ++ l2) = after (after running l1) l2.
Proof. apply foldl_app. Qed.

Lemma elem_of_values {V} (m : gmap Z V) v : v ∈ (go_range m).*2 ↔ ∃ h, m !! h = Some v.
Proof.
  rewrite list_elem_of_fmap. split.
  - intros ([h v'] & -> & Hin). exists h. by rewrite go_range_perm, elem_of_map_to_list in Hin.
  - intros [h Hh]. exists (h, v). split; [done|]. by rewrite go_range_perm, elem_of_map_to_list.
Qed.

(** A change of loops that keeps their numbers and their targets. *)
Definition same_loop (l l' : loop) : Prop := lp_id l' = lp_id l ∧ t_labels (lp_target l') = t_labels (lp_target l).
Definition same_loops (sp sp' : scrapePool) : Prop :=
  known_scheme (sp_config sp') ∧ sp_next sp' = sp_next sp
  ∧ (∀ h, (∃ l l', sp_loops sp !! h = Some l ∧ sp_loops sp' !! h = Some l' ∧ same_loop l l') ∨ (sp_loops sp !! h = None ∧ sp_loops sp' !! h = None))
  ∧ (∀ h, t_labels <$> sp_activeTargets sp' !! h = t_labels <$> sp_activeTargets sp !! h).
Lemma same_loops_ok sp sp' : same_loops sp sp' → pool_ok sp → pool_ok sp'.
Proof.
  intros (Hs & Hn & Hl & Ht) []. assert (∀ h l', sp_loops sp' !! h = Some l' → ∃ l, sp_loops sp !! h = Some l ∧ same_loop l l') as Hback.
  { intros h l' E. destruct (Hl h) as [(l & l'' & E1 & E2 & ?)|[_ ?]]; [|congruence]. exists l. split; [done|]. congruence. }
  constructor; [done| | | |].
  - intros h. specialize (Ht h). specialize (ok_dom0 h). rewrite <-(fmap_is_Some t_labels), Ht, fmap_is_Some, <-ok_dom0.
    destruct (Hl h) as [(? & ? & -> & -> & _)|[-> ->]]; [|done]. split; by eexists.
  - intros h l' t' (l & E & _ & ->)%Hback Et. specialize (Ht h). rewrite Et in Ht. destruct (sp_activeTargets sp !! h) as [t|] eqn:E2; [|done].
    injection Ht as ->. by apply (ok_labels0 h).
  - intros h l' (l & E & -> & _)%Hback. rewrite Hn. by apply (ok_next0 h).
  - intros h1 h2 l1 l2 (l1' & E1 & -> & _)%Hback (l2' & E2 & -> & _)%Hback. by apply ok_ids0.
Qed.
Lemma same_loops_runs running sp sp' : same_loops sp sp' → runs running sp → runs running sp'.
Proof.
  intros (_ & _ & Hl & _) Hr id. rewrite (Hr id). split; intros (h & l & E & <-); destruct (Hl h) as [(l1 & l2 & E1 & E2 & Hid & _)|[? ?]]; try congruence.
  - exists h, l2. split; [done|]. congruence.
  - exists h, l1. split; [done|]. congruence.
Qed.

(** ** A loop in the place of another, or in a place of its own *)

Definition place (sp : scrapePool) (h : Z) (l : loop) (t : Target) : scrapePool :=
  with_loops sp (<[h := l]> (sp_loops sp)) (<[h := t]> (sp_activeTargets sp)) (sp_next sp + 1).
Lemma place_ok sp h l t : pool_ok sp → lp_id l = sp_next sp → t_labels (lp_target l) = t_labels t → pool_ok (place sp h l t).
Proof.
  intros [] Hid Hl. constructor; cbn; [done| | | |].
  - intros h'. rewrite !lookup_insert. case_decide; [by split; eexists|done].
  - intros h' l' t'. rewrite !lookup_insert. case_decide; [by intros [= <-] [= <-]|apply ok_labels0].
  - intros h' l'. rewrite lookup_insert. case_decide; [intros [= <-]; lia|]. intros Hlt%ok_next0. lia.
  - intros h1 h2 l1 l2. rewrite !lookup_insert. do 2 case_decide; [congruence| | |apply ok_ids0].
    + intros [= <-] Hlt%ok_next0. lia.
    + intros Hlt%ok_next0 [= <-]. lia.
Qed.
Lemma place_runs running sp h l t :
  pool_ok sp → runs running sp → lp_id l = sp_next sp →
  runs (after running ((Stopped <$> option_list (sp_loops sp !! h)) ++ [Started l])) (place sp h l t).
Proof.
  intros Hok Hr Hid id. rewrite after_app. change [Started l] with (Started <$> [l]). rewrite elem_of_after_starts, elem_of_after_stops.
  cbn [fmap list_fmap]. rewrite list_elem_of_singleton. split.
  - intros [[Hin Hno]| ->]; [|exists h, l; cbn; by rewrite lookup_insert_eq]. apply Hr in Hin as (h' & l' & E & <-). exists h', l'. split; [|done].
    cbn. rewrite lookup_insert_ne; [done|]. intros ->. apply Hno. rewrite E. by left.
  - intros (h' & l' & E & <-). cbn in E. rewrite lookup_insert in E. case_decide; [right; by injection E as ->|]. left. split.
    + apply Hr. by exists h', l'.
    + destruct (sp_loops sp !! h) as [lo|] eqn:Eo; cbn; [|by intros ?%elem_of_nil]. rewrite list_elem_of_singleton. intros E2.
      by apply (ok_ids _ Hok h' h l' lo E Eo) in E2.
Qed.

(** ** Restarts *)

(** The numbers of the loops are new, the targets the same. *)
Lemma restart_each_ok sp scheme reuse forced l running :
  pool_ok sp → runs running sp → NoDup l.*1 → (∀ h lp, (h, lp) ∈ l → sp_loops sp !! h = Some lp) →
  ∃ sp' events, restart_each sp scheme reuse forced l = Done (sp', events)
    ∧ pool_ok sp' ∧ runs (after running events) sp' ∧ sp_config sp' = sp_config sp ∧ sp_activeTargets sp' = sp_activeTargets sp.
Proof.
  revert sp running. induction l as [|[h old] l IH]; intros sp running Hok Hr Hn Hl; cbn [restart_each]; [by exists sp, []|].
  apply NoDup_cons in Hn as [Hh Hn]. pose proof (Hl h old ltac:(left)) as Eold.
  destruct (sp_activeTargets sp !! h) as [t|] eqn:Et; [|exfalso; assert (is_Some (sp_activeTargets sp !! h)) as [? ?] by (apply Hok; by eexists); congruence].
  set (old' := if reuse then disableEndOfRunStalenessMarkers old else old). set (l' := setScrapeFailureLogger _ _).
  assert (lp_id old' = lp_id old) as Eid by by destruct reuse.
  assert (lp_id l' = sp_next sp ∧ lp_target l' = t) as [Hid Htar] by (unfold l', new_loop; by destruct (intervalAndTimeout _ _ _) as [[]]).
  assert (with_loops sp (<[h := l']> (sp_loops sp)) (sp_activeTargets sp) (sp_next sp + 1) = place sp h l' t) as Ep
    by (unfold place; by rewrite (insert_id (sp_activeTargets sp))).
  assert (pool_ok (place sp h l' t)) as Hok' by (apply place_ok; by rewrite ?Htar).
  pose proof (place_runs running sp h l' t Hok Hr Hid) as Hr'. rewrite Eold in Hr'.
  destruct (IH (place sp h l' t) _ Hok' Hr' Hn) as (sp' & events & E & Hok2 & Hr2 & Hc & Ha).
  { intros h' lp Hin. cbn. rewrite lookup_insert_ne; [apply Hl; by right|]. intros <-. apply Hh, list_elem_of_fmap. by exists (h, lp). }
  fold old' l'. rewrite Ep, E. cbn. eexists _, _. split; [done|]. split_and!; [done| |by rewrite Hc|rewrite Ha; cbn; by rewrite insert_id].
  unfold after in *. cbn in *. by rewrite Eid.
Qed.

Lemma same_loops_refl sp sp' :
  known_scheme (sp_config sp') → sp_next sp' = sp_next sp → sp_loops sp' = sp_loops sp → sp_activeTargets sp' = sp_activeTargets sp → same_loops sp sp'.
Proof.
  intros Hs Hn Hl Ha. split_and!; [done|done| |by rewrite Ha]. intros h. rewrite Hl. destruct (sp_loops sp !! h) as [l|]; [left; by exists l, l|by right].
Qed.
(** What every operation does. *)
Definition good_change (running : gset Z) (c : changed) : Prop :=
  pool_ok c.1 ∧ runs (after running c.2) c.1.
Lemma same_loops_change running sp sp' : same_loops sp sp' → pool_ok sp → runs running sp → good_change running (sp', []).
Proof. intros Hs Hok Hr. split; cbn; [by eapply same_loops_ok|by eapply same_loops_runs]. Qed.

Lemma restartLoops_ok sp reuse running :
  pool_ok sp → runs running sp →
  ∃ c, restartLoops sp reuse = Done c ∧ good_change running c ∧ sp_config c.1 = sp_config sp ∧ sp_activeTargets c.1 = sp_activeTargets sp.
Proof.
  intros Hok Hr. unfold restartLoops. destruct (escaping_scheme_done (sp_config sp)) as [s ->]; [apply Hok|]. cbn.
  destruct (restart_each_ok sp s reuse (refreshTargetLimitErr sp) (go_range (sp_loops sp)) running Hok Hr) as (sp' & events & -> & ? & ? & ? & ?).
  - rewrite go_range_perm. apply NoDup_fst_map_to_list.
  - intros h lp. by rewrite go_range_perm, elem_of_map_to_list.
  - by exists (sp', events).
Qed.
Lemma checkSymbolTable_ok sp now len running :
  pool_ok sp → runs running sp →
  ∃ c, checkSymbolTable sp now len = Done c ∧ good_change running c ∧ sp_config c.1 = sp_config sp ∧ sp_activeTargets c.1 = sp_activeTargets sp.
Proof.
  intros Hok Hr. unfold checkSymbolTable. assert (∀ a b, same_loops sp (with_symbols sp a b)) as Hs by (intros a b; apply same_loops_refl; [apply Hok|done..]).
  destruct (_ <? _). 2: { eexists. split; [done|]. split; [|done]. apply (same_loops_change _ sp); [|done..]. by apply same_loops_refl; [apply Hok|..]. }
  destruct (_ =? 0); [eexists; split; [done|]; split; [by apply (same_loops_change _ sp)|done]|].
  destruct (_ <? len); [|eexists; split; [done|]; split; [by apply (same_loops_change _ sp)|done]].
  destruct (restartLoops_ok (with_symbols sp (sp_lastSymbolTableCheck sp) 0) false running) as ([sp' events] & -> & [Hok' Hr'] & Hc & Ha);
    [by eapply same_loops_ok|by eapply same_loops_runs|]. cbn in *.
  eexists. split; [done|]. cbn. split_and!; [|by rewrite Hc|by rewrite Ha].
  assert (same_loops sp' (with_symbols sp' now 0)) as Hs' by (apply same_loops_refl; [apply Hok'|done..]).
  split; cbn; [by eapply same_loops_ok|by eapply same_loops_runs].
Qed.

(** ** Synchronization *)

Definition symbols (sp : scrapePool) : Z * Z := (sp_lastSymbolTableCheck sp, sp_initialSymbolTableLen sp).
Definition has_hash (targets : list Target) (h : Z) : Prop := ∃ t, t ∈ targets ∧ Target_hash t = h.
Lemma has_hash_cons t targets h : has_hash (t :: targets) h ↔ Target_hash t = h ∨ has_hash targets h.
Proof. unfold has_hash. setoid_rewrite elem_of_cons. naive_solver. Qed.

Record synced (sp : scrapePool) (u : gmap Z (option loop)) (targets : list Target) (sp' : scrapePool) (u' : gmap Z (option loop)) : Prop := {
  s_ok : pool_ok sp'; s_config : sp_config sp' = sp_config sp ∧ symbols sp' = symbols sp;
  s_active h : is_Some (sp_activeTargets sp' !! h) ↔ is_Some (sp_activeTargets sp !! h) ∨ has_hash targets h;
  s_unique h : is_Some (u' !! h) ↔ is_Some (u !! h) ∨ has_hash targets h;
  s_kept h l : sp_loops sp !! h = Some l → sp_loops sp' !! h = Some l;
  s_started h l : u' !! h = Some (Some l) → u !! h = Some (Some l) ∨ sp_loops sp' !! h = Some l;
  s_loops h l : sp_loops sp' !! h = Some l → sp_loops sp !! h = Some l ∨ u' !! h = Some (Some l);
  s_keeps h l : u !! h = Some (Some l) → u' !! h = Some (Some l) }.
Lemma sync_targets_ok sp scheme u targets :
  pool_ok sp → (∀ h, is_Some (u !! h) → is_Some (sp_activeTargets sp !! h)) →
  synced sp u targets (sync_targets sp scheme u targets).1 (sync_targets sp scheme u targets).2.
Proof.
  revert sp u. induction targets as [|t targets IH]; intros sp u Hok Hu; cbn [sync_targets].
  { split; cbn; [done|done|intros h; unfold has_hash; set_solver|intros h; unfold has_hash; set_solver|done|by left|by left|done]. }
  set (hash := Target_hash t). destruct (sp_activeTargets sp !! hash) as [old|] eqn:Ea.
  - set (u0 := match u !! hash with Some _ => u | None => <[hash := None]> u end). set (sp0 := with_loops _ _ _ _).
    assert (∀ h, is_Some (sp_activeTargets sp0 !! h) ↔ is_Some (sp_activeTargets sp !! h)) as Ha0.
    { intros h. cbn. rewrite lookup_insert. case_decide; [|done]. subst h. rewrite Ea. by split; eexists. }
    assert (pool_ok sp0) as Hok0.
    { eapply same_loops_ok; [|done]. split_and!; [apply Hok|done| |].
      - intros h. cbn. destruct (sp_loops sp !! h) as [l|]; [left; by exists l, l|by right].
      - intros h. cbn. rewrite lookup_insert. case_decide; [|done]. subst h. by rewrite Ea. }
    assert (∀ h, u0 !! h = if decide (h = hash ∧ u !! hash = None) then Some None else u !! h) as Hu0.
    { intros h. unfold u0. destruct (u !! hash) eqn:E; [by rewrite decide_False by naive_solver|]. rewrite lookup_insert.
      repeat case_decide; naive_solver. }
    destruct (IH sp0 u0 Hok0) as [S1 S2 S3 S4 S5 S6 S7 S8].
    { intros h. rewrite Hu0, Ha0. case_decide as Hd; [destruct Hd as [-> _]; by rewrite Ea|apply Hu]. }
    split; [done|done| | |done| |done|].
    + intros h. rewrite S3, Ha0, has_hash_cons. fold hash. assert (hash = h → is_Some (sp_activeTargets sp !! h)) by (intros <-; by rewrite Ea). tauto.
    + intros h. rewrite S4, Hu0, has_hash_cons. fold hash. case_decide as Hd; [naive_solver|].
      assert (hash = h → is_Some (u !! h)) by (intros <-; destruct (u !! hash); naive_solver). tauto.
    + intros h l [Hl|Hl]%S6; [|by right]. rewrite Hu0 in Hl. case_decide; [done|by left].
    + intros h l Hl. apply S8. rewrite Hu0, decide_False; [done|]. intros [-> ?]. congruence.
  - set (l := setScrapeFailureLogger _ _). assert (lp_id l = sp_next sp ∧ lp_target l = t) as [Hid Htar]
      by (unfold l, new_loop; by destruct (intervalAndTimeout _ _ _) as [[]]).
    fold (place sp hash l t). assert (pool_ok (place sp hash l t)) as Hok0 by (apply place_ok; by rewrite ?Htar).
    assert (sp_loops sp !! hash = None) as El.
    { apply eq_None_not_Some. rewrite (ok_dom _ Hok), Ea. by intros [? ?]. }
    assert (u !! hash = None) as Eu. { apply eq_None_not_Some. intros H%Hu. rewrite Ea in H. by destruct H. }
    destruct (IH (place sp hash l t) (<[hash := Some l]> u) Hok0) as [S1 S2 S3 S4 S5 S6 S7 S8].
    { intros h. cbn. rewrite !lookup_insert. case_decide; [by eexists|apply Hu]. }
    split; [done|done| | | | | |].
    + intros h. rewrite S3, has_hash_cons. fold hash. cbn. rewrite lookup_insert. case_decide; [|tauto]. split; [by auto|by left; eexists].
    + intros h. rewrite S4, has_hash_cons. fold hash. rewrite lookup_insert. case_decide; [|tauto]. split; [by auto|by left; eexists].
    + intros h l0 Hl. apply S5. cbn. rewrite lookup_insert_ne; [done|]. intros <-. congruence.
    + intros h l0 Hl. apply S6 in Hl as [Hl|Hl]; [|by right]. rewrite lookup_insert in Hl. case_decide; [|by left]. subst h. injection Hl as <-.
      right. apply S5. cbn. by rewrite lookup_insert_eq.
    + intros h l0 Hl. apply S7 in Hl as [Hl|Hl]; [|by right]. cbn in Hl. rewrite lookup_insert in Hl. case_decide; [|by left]. subst h.
      injection Hl as <-. right. apply S8. by rewrite lookup_insert_eq.
    + intros h l0 Hl. apply S8. rewrite lookup_insert_ne; [done|]. intros <-. congruence.
Qed.

Lemma filter_loops_ok sp (P : Z → Prop) `{!∀ h, base.Decision (P h)} :
  pool_ok sp → pool_ok (with_loops sp (filter (λ kv, P kv.1) (sp_loops sp)) (filter (λ kv, P kv.1) (sp_activeTargets sp)) (sp_next sp)).
Proof.
  intros []. constructor; cbn; [done| | | |].
  - intros h. unfold is_Some. setoid_rewrite map_lookup_filter_Some. cbn. specialize (ok_dom0 h). unfold is_Some in ok_dom0. naive_solver.
  - intros h l t [E1 _]%map_lookup_filter_Some [E2 _]%map_lookup_filter_Some. by apply (ok_labels0 h).
  - intros h l [E _]%map_lookup_filter_Some. by apply (ok_next0 h).
  - intros h1 h2 l1 l2 [E1 _]%map_lookup_filter_Some [E2 _]%map_lookup_filter_Some. by apply ok_ids0.
Qed.
Lemma set_forced_same sp err : pool_ok sp → same_loops sp (with_loops sp (setForcedError err <$> sp_loops sp) (sp_activeTargets sp) (sp_next sp)).
Proof.
  intros Hok. split_and!; [apply Hok|done| |done]. intros h. cbn. rewrite lookup_fmap. destruct (sp_loops sp !! h) as [l|]; [left|by right].
  by exists l, (setForcedError err l).
Qed.
Lemma pool_sync_ok sp targets running :
  pool_ok sp → runs running sp →
  ∃ c, pool_sync sp targets = Done c ∧ good_change running c ∧ sp_config c.1 = sp_config sp ∧ symbols c.1 = symbols sp
    ∧ (∀ h, is_Some (sp_loops c.1 !! h) ↔ has_hash targets h)
    ∧ (∀ h l, sp_loops sp !! h = Some l → has_hash targets h → ∃ l', sp_loops c.1 !! h = Some l' ∧ same_loop l l').
Proof.
  intros Hok Hr. unfold pool_sync. destruct (escaping_scheme_done (sp_config sp)) as [s ->]; [apply Hok|]. cbn [mbind outcome_bind].
  pose proof (sync_targets_ok sp s ∅ targets Hok) as S. destruct (sync_targets sp s ∅ targets) as [sp1 u].
  destruct S as [S1 [S2 S9] S3 S4 S5 S6 S7 _]; [by intros h [? ?]|]. cbn [fst snd] in *. eexists. split; [done|]. cbn [fst snd].
  set (sp2 := with_loops sp1 (filter _ _) (filter _ _) _). assert (pool_ok sp2) as Hok2 by exact (filter_loops_ok sp1 (λ h, ¬ gone sp1 u h) S1).
  set (err := refreshTargetLimitErr sp2). pose proof (set_forced_same sp2 err Hok2) as Hs. set (sp3 := with_loops sp2 _ _ _) in *.
  assert (∀ h, is_Some (sp_activeTargets sp1 !! h) → ¬ gone sp1 u h ↔ has_hash targets h) as Hgone.
  { intros h Ha. unfold gone. specialize (S4 h). rewrite lookup_empty in S4.
    destruct (u !! h) eqn:Eu.
    - split; [|naive_solver]. intros _. destruct S4 as [S4 _]. destruct S4 as [[? ?]|?]; [by eexists|done|done].
    - split; [naive_solver|]. intros Hh. destruct S4 as [_ S4]. by destruct S4 as [? ?]; [by right|]. }
  assert (∀ h l, sp_loops sp2 !! h = Some l ↔ sp_loops sp1 !! h = Some l ∧ ¬ gone sp1 u h) as E2
    by (intros h l; cbn; apply map_lookup_filter_Some).
  assert (∀ h, is_Some (sp_loops sp3 !! h) ↔ is_Some (sp_loops sp2 !! h)) as E3 by (intros h; cbn; by rewrite lookup_fmap, fmap_is_Some).
  split_and!; [|by cbn|by cbn| |].
  - split; cbn [fst snd]; [by eapply same_loops_ok|]. eapply same_loops_runs; [done|]. intros id. rewrite after_app.
    rewrite elem_of_after_starts, elem_of_after_stops, !list_elem_of_fmap.
    assert (∀ l, l ∈ omap (λ kv : Z * Target, if decide (u !! kv.1 = None) then sp_loops sp1 !! kv.1 else None) (go_range (sp_activeTargets sp1))
              ↔ ∃ h, sp_loops sp1 !! h = Some l ∧ gone sp1 u h) as Hstop.
    { intros l. rewrite list_elem_of_omap. split.
      - intros ([h t] & Hin & E). rewrite go_range_perm, elem_of_map_to_list in Hin. cbn in E. case_decide; [|done]. exists h. split; [done|]. split; [by eexists|done].
      - intros (h & E & [t Ht] & Hu). exists (h, t). rewrite go_range_perm, elem_of_map_to_list. cbn. by rewrite decide_True. }
    assert (∀ l, l ∈ omap (λ kv : Z * option loop, kv.2) (go_range u) ↔ ∃ h, u !! h = Some (Some l)) as Hstart.
    { intros l. rewrite list_elem_of_omap. split.
      - intros ([h o] & Hin & E). rewrite go_range_perm, elem_of_map_to_list in Hin. cbn in E. subst o. by exists h.
      - intros [h E]. exists (h, Some l). by rewrite go_range_perm, elem_of_map_to_list. }
    split.
    + intros [[Hin Hno]|(l & -> & Hl)].
      * apply Hr in Hin as (h & l & E & <-). exists h, l. split; [|done]. apply E2. split; [by apply S5|]. intros Hg. apply Hno.
        exists l. split; [done|]. apply Hstop. exists h. split; [by apply S5|done].
      * apply list_elem_of_fmap in Hl as (l0 & -> & [h Hh]%Hstart). exists h, l0. split; [|done]. apply E2. destruct (S6 h l0 Hh) as [Hbad|Hl]; [done|].
        split; [done|]. intros [_ Hu]. congruence.
    + intros (h & l & [E Hg]%E2 & <-). destruct (S7 h l E) as [E0|Hu].
      * left. split; [apply Hr; by exists h, l|]. intros (l2 & Eid & (h2 & El2 & Hg2)%Hstop).
        apply Hg. by rewrite (ok_ids _ S1 h h2 l l2 E El2 Eid).
      * right. exists (setForcedError err l). split; [done|]. apply list_elem_of_fmap. exists l. split; [done|]. apply Hstart. by exists h.
  - intros h. rewrite E3. split.
    + intros [l [El Hg]%E2]. apply Hgone in Hg; [done|]. apply (ok_dom _ S1). by eexists.
    + intros Hh. assert (is_Some (sp_activeTargets sp1 !! h)) as Ha by (apply S3; by right). pose proof Ha as [l El]%(ok_dom _ S1).
      exists l. apply E2. split; [done|]. by apply Hgone.
  - intros h l El Hh. exists (setForcedError err l). split; [|done]. cbn. rewrite lookup_fmap. pose proof (S5 h l El) as El1.
    assert (sp_loops sp2 !! h = Some l) as E by (apply E2; split; [done|]; apply Hgone; [|done]; apply (ok_dom _ S1); by eexists). cbn in E. by rewrite E.
Qed.

(** After a synchronization, every loop has the error of the limit, or none, whatever it had. *)
Lemma loops_have_limit_error sp targets sp' events h l :
  pool_sync sp targets = Done (sp', events) → sp_loops sp' !! h = Some l → lp_forcedErr l = refreshTargetLimitErr sp'.
Proof.
  unfold pool_sync. destruct (escaping_scheme (sp_config sp)); [|done..]. cbn [mbind outcome_bind].
  destruct (sync_targets sp a ∅ targets) as [sp1 u]. intros [= <- _]. cbn. rewrite lookup_fmap, fmap_Some. intros (l0 & _ & ->). done.
Qed.

(** The targets that are scraped, and those that were dropped, within their limit. *)
Lemma add_targets cfg targets all dropped count :
  ∃ dropped', foldl (add_target cfg) (all, dropped, count) targets
    = (all ++ filter (λ t, nonEmpty t = true) targets, dropped', count + Z.of_nat (length (filter (λ t, nonEmpty t = false) targets))).
Proof.
  revert all dropped count. induction targets as [|t targets IH]; intros all dropped count; [exists dropped; by rewrite app_nil_r, Z.add_0_r|].
  cbn [foldl add_target]. rewrite !filter_cons. destruct (nonEmpty t).
  - destruct (IH (all ++ [t]) dropped count) as [d ->]. exists d. by rewrite decide_True, decide_False, <-app_assoc.
  - destruct (IH all (if (KeepDroppedTargets cfg =? 0) || (Z.of_nat (length dropped) <? KeepDroppedTargets cfg) then dropped ++ [t] else dropped) (count + 1)) as [d ->].
    exists d. rewrite decide_False, decide_True by done. f_equal. cbn [length]. lia.
Qed.
Definition scraped_targets (cfg : ScrapeConfig) (tgs : list target_group) : list Target :=
  filter (λ t, nonEmpty t = true) (group_targets cfg tgs).
(** The symbols do not make the pool start again. *)
Definition symbols_settled (sp : scrapePool) (now len : Z) : Prop :=
  now - sp_lastSymbolTableCheck sp ≤ minTimeToCleanSymbolTable ∨ sp_initialSymbolTableLen sp = 0 ∨ len ≤ 2 * sp_initialSymbolTableLen sp.


Lemma Sync_ok sp tgs now len running :
  pool_ok sp → runs running sp →
  ∃ c, Sync sp tgs now len = Done c ∧ good_change running c ∧ sp_config c.1 = sp_config sp
    ∧ (∀ h, is_Some (sp_loops c.1 !! h) ↔ has_hash (scraped_targets (sp_config sp) tgs) h)
    ∧ (symbols_settled sp now len → ∀ h l, sp_loops sp !! h = Some l → has_hash (scraped_targets (sp_config sp) tgs) h →
         ∃ l', sp_loops c.1 !! h = Some l' ∧ same_loop l l').
Proof.
  intros Hok Hr. unfold Sync. destruct (add_targets (sp_config sp) (group_targets (sp_config sp) tgs) [] [] 0) as [dropped ->].
  set (all := [] ++ _). set (count := 0 + _). change all with (scraped_targets (sp_config sp) tgs).
  assert (same_loops sp (with_dropped sp dropped count)) as Hs by (apply same_loops_refl; [apply Hok|done..]).
  destruct (pool_sync_ok (with_dropped sp dropped count) (scraped_targets (sp_config sp) tgs) running) as ([sp1 ev1] & -> & [Hok1 Hr1] & Hc1 & Hsym & Hl1 & Hk1);
    [by apply (same_loops_ok sp)|by apply (same_loops_runs _ sp)|]. cbn [mbind outcome_bind fst snd] in *.
  destruct (checkSymbolTable_ok sp1 now len _ Hok1 Hr1) as ([sp2 ev2] & E2 & [Hok2 Hr2] & Hc2 & Ha2). rewrite E2. cbn [mbind outcome_bind fst snd] in *.
  eexists. split; [done|]. cbn [fst snd]. split_and!; [split; cbn; [done|by rewrite after_app]|by rewrite Hc2, Hc1| |].
  - intros h. rewrite (ok_dom _ Hok2), Ha2, <-(ok_dom _ Hok1). apply Hl1.
  - intros Hset h l El Hh. destruct (Hk1 h l El Hh) as (l' & El' & Hsame). exists l'. split; [|done].
    injection Hsym as X1 X2. cbn in X1, X2. assert (sp_loops sp2 = sp_loops sp1) as ->; [|done]. revert E2. unfold checkSymbolTable. rewrite X1, X2.
    destruct (Z.ltb_spec minTimeToCleanSymbolTable (now - sp_lastSymbolTableCheck sp)); [|by intros [= <- _]].
    destruct (Z.eqb_spec (sp_initialSymbolTableLen sp) 0); [by intros [= <- _]|].
    destruct (Z.ltb_spec (2 * sp_initialSymbolTableLen sp) len); [|by intros [= <- _]]. exfalso. destruct Hset as [?|[?|?]]; lia.
Qed.
Lemma check_schemes_done cfg unset invalid : known_scheme cfg → ∃ e, check_schemes cfg unset invalid = Done e.
Proof.
  intros Hs. unfold check_schemes, ToEscapingScheme. destruct (CheckNameValidationScheme _); [|by eexists].
  case_decide; [|by eexists]. destruct Hs as [-> | ->]; by eexists.
Qed.
Lemma reload_ok sp cfg running :
  pool_ok sp → runs running sp → known_scheme cfg →
  ∃ c err, pool_reload sp cfg = Done (c, err) ∧ good_change running c ∧ (err = None → sp_config c.1 = cfg).
Proof.
  intros Hok Hr Hs. unfold pool_reload. destruct (newScrapeClient _ _) as [err|].
  { eexists _, _. split; [done|]. split; [|done]. apply (same_loops_change _ sp); [|done..]. apply same_loops_refl; [apply Hok|done..]. }
  assert (same_loops sp (with_config sp cfg)) as Hsame by (by apply same_loops_refl).
  destruct (check_schemes_done cfg "scrapePool.reload: MetricNameValidationScheme must be set in scrape configuration"
                 "scrapePool.reload: invalid metric name escaping scheme, " Hs) as [[err|] ->].
  - cbn. eexists _, _. split; [done|]. split; [|done]. by apply (same_loops_change _ sp).
  - cbn. destruct (restartLoops_ok (with_config sp cfg) (reusableCache (sp_config sp) cfg) running) as (c & -> & Hc & Hcfg & _);
      [by apply (same_loops_ok sp)|by apply (same_loops_runs _ sp)|]. cbn. by eexists _, _.
Qed.
Lemma new_pool_ok o cfg now :
  known_scheme cfg → ∃ r, newScrapePool o cfg now = Done r
    ∧ (∀ sp, r = Ok sp → pool_ok sp ∧ runs ∅ sp ∧ sp_config sp = cfg).
Proof.
  intros Hs. unfold newScrapePool. destruct (newScrapeClient _ _) as [e|]; [by exists (Err e)|].
  destruct (check_schemes_done cfg "newScrapePool: MetricNameValidationScheme must be set in scrape configuration"
                 "invalid metric name escaping scheme, " Hs) as [[err|] ->]; cbn; [by exists (Err err)|].
  eexists. split; [done|]. intros sp [= <-].
  split; [constructor; cbn; [done|intros h; split; by intros [? ?]|by intros ? ? ? ?|by intros ? ? ?|by intros ? ? ? ? ?]|].
  split; [|done]. intros id. cbn. split; [done|]. by intros (h & l & ? & _).
Qed.
Lemma disable_same sp targets : pool_ok sp → same_loops sp (pool_disableEndOfRunStalenessMarkers sp targets).
Proof.
  intros Hok. split_and!; [apply Hok|done| |done]. intros h. cbn. generalize (sp_loops sp). intros m.
  enough (∀ m' : gmap Z loop, (∀ h', (∃ l l', m !! h' = Some l ∧ m' !! h' = Some l' ∧ same_loop l l') ∨ (m !! h' = None ∧ m' !! h' = None)) →
    (∃ l l', m !! h = Some l ∧ foldl (λ loops t, alter disableEndOfRunStalenessMarkers (Target_hash t) loops) m' targets !! h = Some l' ∧ same_loop l l')
    ∨ (m !! h = None ∧ foldl (λ loops t, alter disableEndOfRunStalenessMarkers (Target_hash t) loops) m' targets !! h = None)) as Hgen.
  { apply Hgen. intros h'. destruct (m !! h') as [l|]; [left; by exists l, l|by right]. }
  induction targets as [|t targets IH]; intros m' Hm; [apply Hm|]. cbn [foldl]. apply IH. intros h'. rewrite lookup_alter.
  destruct (Hm h') as [(l & l' & E & E' & Hs)|[E E']]; case_decide as Hh; rewrite ?Hh, E'; cbn; [left|left|by right|by right].
  - exists l, (disableEndOfRunStalenessMarkers l'). by destruct Hs.
  - by exists l, l'.
Qed.
Lemma logger_same sp logger : pool_ok sp → same_loops sp (SetScrapeFailureLogger sp logger).
Proof.
  intros Hok. split_and!; [apply Hok|done| |done]. intros h. cbn. rewrite lookup_fmap. destruct (sp_loops sp !! h) as [l|]; [left|by right].
  by exists l, (setScrapeFailureLogger logger l).
Qed.
Lemma stop_ok sp running : pool_ok sp → runs running sp → good_change running (pool_stop sp).
Proof.
  intros Hok Hr. split; cbn.
  - constructor; cbn; [apply Hok| |by intros h l t ?|by intros h l ?|by intros h1 h2 l1 l2 ?]. intros h. rewrite lookup_empty.
    split; [by intros [? ?]|]. intros [t [Ht Hno]%map_lookup_filter_Some]. cbn in Hno. pose proof (ok_dom _ Hok h) as Hd. rewrite Hno, Ht in Hd.
    destruct Hd as [_ Hd]. destruct Hd; [by eexists|done].
  - intros id. rewrite elem_of_after_stops. split; [|by intros (h & l & E & _)].
    intros [(h & l & El & <-)%Hr Hno]. destruct Hno. apply list_elem_of_fmap. exists l. split; [done|]. apply elem_of_values. by exists h.
Qed.

(** ** Any sequence of operations *)

Inductive pool_op :=
| OpSync (tgs : list target_group) (now len : Z) | OpReload (cfg : ScrapeConfig) | OpLogger (logger : option string)
| OpDisable (targets : list Target) | OpStop.
Definition op_ok (op : pool_op) : Prop := match op with OpReload cfg => known_scheme cfg | _ => True end.
Definition run_op (sp : scrapePool) (op : pool_op) : outcome changed :=
  match op with
  | OpSync tgs now len => Sync sp tgs now len
  | OpReload cfg => r ← pool_reload sp cfg; Done r.1
  | OpLogger logger => Done (SetScrapeFailureLogger sp logger, [])
  | OpDisable targets => Done (pool_disableEndOfRunStalenessMarkers sp targets, [])
  | OpStop => Done (pool_stop sp)
  end.
Inductive reachable : scrapePool → gset Z → Prop :=
| reachable_new o cfg now sp : known_scheme cfg → newScrapePool o cfg now = Done (Ok sp) → reachable sp ∅
| reachable_op sp running op sp' events :
    reachable sp running → op_ok op → run_op sp op = Done (sp', events) → reachable sp' (after running events).

Lemma run_op_ok sp op running : pool_ok sp → runs running sp → op_ok op → ∃ c, run_op sp op = Done c ∧ good_change running c.
Proof.
  intros Hok Hr Hop. destruct op as [tgs now len|cfg|logger|targets|]; cbn.
  - destruct (Sync_ok sp tgs now len running Hok Hr) as (c & ? & ? & _). by exists c.
  - destruct (reload_ok sp cfg running Hok Hr Hop) as (c & err & -> & ? & _). by exists c.
  - eexists. split; [done|]. by apply (same_loops_change _ sp), Hr; [apply logger_same|].
  - eexists. split; [done|]. by apply (same_loops_change _ sp), Hr; [apply disable_same|].
  - eexists. split; [done|]. by apply stop_ok.
Qed.
Lemma reachable_ok sp running : reachable sp running → pool_ok sp ∧ runs running sp.
Proof.
  induction 1 as [o cfg now sp Hs E|sp running op sp' events _ [Hok Hr] Hop E].
  - destruct (new_pool_ok o cfg now Hs) as (r & E' & H). rewrite E in E'. injection E' as <-. by destruct (H sp) as (? & ? & _).
  - destruct (run_op_ok sp op running Hok Hr Hop) as (c & E' & Hc). rewrite E in E'. injection E' as <-. exact Hc.
Qed.

(** C38. Whatever is asked of a pool, in whatever order, nothing panics, and the loops that run are
    exactly those of its active targets, one for each. After a synchronization, they are those of
    the targets in the groups that were not dropped; a target that was there keeps its loop, unless
    all start again to drop the symbols. *)
Theorem pool_runs_its_targets sp running op :
  reachable sp running → op_ok op →
  ∃ sp' events, run_op sp op = Done (sp', events)
    ∧ (∀ id, id ∈ after running events ↔ ∃ h l, sp_loops sp' !! h = Some l ∧ lp_id l = id)
    ∧ (∀ h1 h2 l1 l2, sp_loops sp' !! h1 = Some l1 → sp_loops sp' !! h2 = Some l2 → lp_id l1 = lp_id l2 → h1 = h2)
    ∧ (∀ h, is_Some (sp_loops sp' !! h) ↔ is_Some (sp_activeTargets sp' !! h))
    ∧ match op with
      | OpSync tgs now len =>
          (∀ h, is_Some (sp_loops sp' !! h) ↔ ∃ t, t ∈ scraped_targets (sp_config sp) tgs ∧ Target_hash t = h)
          ∧ (symbols_settled sp now len → ∀ h l, sp_loops sp !! h = Some l → is_Some (sp_loops sp' !! h) →
               ∃ l', sp_loops sp' !! h = Some l' ∧ lp_id l' = lp_id l)
      | OpStop => sp_loops sp' = ∅
      | _ => True
      end.
Proof.
  intros [Hok Hr]%reachable_ok Hop. destruct (run_op_ok sp op running Hok Hr Hop) as ([sp' events] & E & [Hok' Hr']). cbn in Hok', Hr'.
  exists sp', events. split_and!; [done|done|apply Hok'|apply Hok'|]. destruct op as [tgs now len|cfg|logger|targets|]; [|done..|].
  - cbn in E. destruct (Sync_ok sp tgs now len running Hok Hr) as (c & E2 & _ & _ & Hl & Hk). rewrite E in E2. injection E2 as <-. cbn in Hl, Hk.
    split; [done|]. intros Hset h l El Hh. destruct (Hk Hset h l El) as (l' & El' & Hid & _); [by apply Hl|]. by exists l'.
  - by injection E as <- _.
Qed.
End pool.

(** ** An instance *)

#[local] Existing Instances any_prom any_scrape any_builder any_range any_target.
Definition any_resolution : HistogramLibrary := {|
  IsExponentialSchema s := bool_decide (-4 ≤ s ≤ 8); IsExponentialSchemaReserved s := bool_decide (-9 ≤ s ≤ 52);
  ExponentialSchemaMin := -4; ExponentialSchemaMax := 8; CustomBucketsSchema := -53; ReduceResolution C B h s := Ok h |}.
Definition any_pool : PoolLibrary := {|
  Log2 x := x; Floor x := x; float_min_factor := float64_of_int 1; newScrapeClient _ _ := None; EmptyHTTPClientConfig := tt;
  CheckNameValidationScheme s := bool_decide (s ≠ UnsetValidation); DeepEqual _ _ := true; EscapingKey := "escaping";
  EscapingScheme_String _ := "allow-utf-8" |}.
#[local] Existing Instances any_resolution any_pool.

Definition valid_job : ScrapeConfig :=
  match Scrape_Validate DefaultGlobalConfig (Some (scrape_job "server")) with Done (Ok c) => c | _ => scrape_job "server" end.
Definition empty_pool : scrapePool :=
  match newScrapePool zero_Options valid_job 0 with
  | Done (Ok sp) => sp
  | _ => {| sp_options := zero_Options; sp_config := valid_job; sp_loops := ∅; sp_activeTargets := ∅; sp_droppedTargets := [];
            sp_droppedTargetsCount := 0; sp_failureLogger := None; sp_lastSymbolTableCheck := 0; sp_initialSymbolTableLen := 0; sp_next := 1 |}
  end.
(** Two targets, one of them twice. *)
Definition two_targets : target_group :=
  {| tg_Source := "0"; tg_Targets := [{["__address__" := "a:80"]}; {["__address__" := "b:80"]}; {["__address__" := "a:80"]}]; tg_Labels := ∅ |}.

Lemma pool_runs_its_targets_witness :
  ∃ sp events, run_op empty_pool (OpSync [two_targets] 0 0) = Done (sp, events) ∧ after ∅ events = {[1; 2]} ∧ size (sp_loops sp) = 2%nat
    ∧ (∀ h, is_Some (sp_loops sp !! h) ↔ ∃ t, t ∈ scraped_targets valid_job [two_targets] ∧ Target_hash t = h)
    ∧ (∀ id, id ∈ after ∅ events ↔ ∃ h l, sp_loops sp !! h = Some l ∧ lp_id l = id).
Proof.
  destruct (pool_runs_its_targets empty_pool ∅ (OpSync [two_targets] 0 0)) as (sp & events & E & Hr & _ & _ & Hl & _);
    [by apply (reachable_new zero_Options valid_job 0); [left|]|done|].
  exists sp, events. split; [done|]. split; [|split]; [..|by split].
  - assert (match run_op empty_pool (OpSync [two_targets] 0 0) with Done (_, ev) => after ∅ ev | _ => ∅ end = {[1; 2]}) as H by (vm_compute; reflexivity).
    by rewrite E in H.
  - assert (match run_op empty_pool (OpSync [two_targets] 0 0) with Done (s, _) => size (sp_loops s) | _ => 0%nat end = 2%nat) as H by (vm_compute; reflexivity).
    by rewrite E in H.
Defined.
