(* ===== verification/ScrapeManager.v ===== *)
(** * The manager of the scrape pools

    src/receiver/prometheusreceiver/internal/scrape/manager.go: [Manager], with a pool for each
    job. It keeps the targets that discovery told last, and a reload gives them to the pools. A
    pool is synchronized in a goroutine of its own, which does not hold the lock of the manager,
    so that another operation may come before it; [syncing] lists those that are to come. *)
From S2P Require Import Prelude GoText Pdata Sampling Pmetric Flatten Utils SpanHistogram PromFamily ScrapeConfig PromTarget ScrapeCache ScrapeLoop ScrapePool.

(** What an operation finds: the files of jobs, the logs of failures that can be opened, the name
    of the host, the time and the sizes of the tables of symbols. *)
Record environment `{SL : ScrapeLibrary} := {
  env_Glob : string → result string (list string); env_ReadFile : string → result string (list (option ScrapeConfig));
  env_newScrapeFailureLogger : string → result string string; env_GetFQDN : result string string; env_now : Z; env_symbols : string → Z }.
(** [labels.Labels.String]. *)
Class ManagerLibrary := { labels_String : list (string * string) → string }.

Section manager.
Context `{PM : Prometheus} `{TL : TargetLibrary} `{GR : GoRange} `{HL : HistogramLibrary} `{PL : !PoolLibrary} `{ML : ManagerLibrary}.

(** A pool, by a number of its own; the context of a pool that was stopped is cancelled. *)
Record pool_entry := { pe_id : Z; pe_pool : scrapePool; pe_cancelled : bool }.
(** [mg_triggerReload] when a reload was asked for; [mg_next] is the next number of a pool. *)
Record Manager := {
  mg_opts : Options; mg_offsetSeed : Z; mg_scrapeConfigs : gmap string ScrapeConfig; mg_scrapePools : gmap string pool_entry;
  mg_scrapeFailureLoggers : gmap string (option string); mg_targetSets : gmap string (list target_group); mg_triggerReload : bool;
  mg_graceShut : bool; mg_next : Z }.
(** What happens to the loops of a pool, and a log of failures that is closed. *)
Inductive manager_event := OfPool (pool : Z) (e : loop_event) | Closed (logger : string).

Definition NewManager (o : Options) (appendable appendableV2 : bool) : result string Manager :=
  if appendable && appendableV2 then Err "scrape.NewManager: appendable and appendableV2 cannot be provided at the same time"
  else if negb appendable && negb appendableV2 then Err "scrape.NewManager: provide either appendable or appendableV2"
  else Ok {| mg_opts := o; mg_offsetSeed := 0; mg_scrapeConfigs := ∅; mg_scrapePools := ∅; mg_scrapeFailureLoggers := ∅; mg_targetSets := ∅;
             mg_triggerReload := false; mg_graceShut := false; mg_next := 0 |}.

Definition with_pools (m : Manager) (pools : gmap string pool_entry) (next : Z) : Manager :=
  {| mg_opts := mg_opts m; mg_offsetSeed := mg_offsetSeed m; mg_scrapeConfigs := mg_scrapeConfigs m; mg_scrapePools := pools;
     mg_scrapeFailureLoggers := mg_scrapeFailureLoggers m; mg_targetSets := mg_targetSets m; mg_triggerReload := mg_triggerReload m;
     mg_graceShut := mg_graceShut m; mg_next := next |}.
Definition with_jobs (m : Manager) (configs : gmap string ScrapeConfig) (loggers : gmap string (option string)) : Manager :=
  {| mg_opts := mg_opts m; mg_offsetSeed := mg_offsetSeed m; mg_scrapeConfigs := configs; mg_scrapePools := mg_scrapePools m;
     mg_scrapeFailureLoggers := loggers; mg_targetSets := mg_targetSets m; mg_triggerReload := mg_triggerReload m;
     mg_graceShut := mg_graceShut m; mg_next := mg_next m |}.
Definition with_seed (m : Manager) (seed : Z) : Manager :=
  {| mg_opts := mg_opts m; mg_offsetSeed := seed; mg_scrapeConfigs := mg_scrapeConfigs m; mg_scrapePools := mg_scrapePools m;
     mg_scrapeFailureLoggers := mg_scrapeFailureLoggers m; mg_targetSets := mg_targetSets m; mg_triggerReload := mg_triggerReload m;
     mg_graceShut := mg_graceShut m; mg_next := mg_next m |}.
Definition with_targets (m : Manager) (targets : gmap string (list target_group)) (trigger : bool) : Manager :=
  {| mg_opts := mg_opts m; mg_offsetSeed := mg_offsetSeed m; mg_scrapeConfigs := mg_scrapeConfigs m; mg_scrapePools := mg_scrapePools m;
     mg_scrapeFailureLoggers := mg_scrapeFailureLoggers m; mg_targetSets := targets; mg_triggerReload := trigger;
     mg_graceShut := mg_graceShut m; mg_next := mg_next m |}.

(** ** Targets *)

Definition updateTsets (m : Manager) (tsets : gmap string (list target_group)) : Manager := with_targets m tsets (mg_triggerReload m).
(** An update that [Run] receives. *)
Definition Run_receive (m : Manager) (tsets : gmap string (list target_group)) : Manager := with_targets (updateTsets m tsets) tsets true.

(** A pool that is missing is made, with the logger of its job. *)
Definition make_pool (m : Manager) (now : Z) (setName : string) : outcome (option Manager) :=
  match mg_scrapePools m !! setName with
  | Some _ => Done (Some m)
  | None =>
      match mg_scrapeConfigs m !! setName with
      | None => Done None
      | Some scrapeConfig =>
          r ← newScrapePool (mg_opts m) scrapeConfig now;
          match r with
          | Err _ => Done None
          | Ok sp =>
              let sp := match mg_scrapeFailureLoggers m !! ScrapeFailureLogFile scrapeConfig with Some l => SetScrapeFailureLogger sp l | None => sp end in
              Done (Some (with_pools m (<[setName := {| pe_id := mg_next m; pe_pool := sp; pe_cancelled := false |}]> (mg_scrapePools m)) (mg_next m + 1)))
          end
      end
  end.
(** A synchronization that is to come: the job, the number of its pool, the groups. *)
Definition syncing : Type := string * Z * list target_group.
Fixpoint reload_sets (m : Manager) (now : Z) (sets : list (string * list target_group)) : outcome (Manager * list syncing) :=
  match sets with
  | [] => Done (m, [])
  | (setName, groups) :: rest =>
      made ← make_pool m now setName;
      match made with
      | None => reload_sets m now rest
      | Some m =>
          '(m, syncs) ← reload_sets m now rest;
          Done (m, match mg_scrapePools m !! setName with Some e => (setName, pe_id e, groups) :: syncs | None => syncs end)
      end
  end.
Definition reload_start (m : Manager) (now : Z) : outcome (Manager * list syncing) := reload_sets m now (go_range (mg_targetSets m)).
(** A tick of [reloader], when a reload was asked for. *)
Definition reloader_tick (m : Manager) (now : Z) : outcome (Manager * list syncing) :=
  if mg_triggerReload m then reload_start (with_targets m (mg_targetSets m) false) now else Done (m, []).
(** A loop that starts in a pool that was stopped ends at once, and nothing scrapes with the
    tables of such a pool, so that its synchronization is left out. *)
Definition sync_pool (m : Manager) (env : environment) (s : syncing) : outcome (Manager * list manager_event) :=
  let '(setName, id, groups) := s in
  match mg_scrapePools m !! setName with
  | Some e =>
      if negb (pe_id e =? id) || pe_cancelled e then Done (m, [])
      else
        '(sp, events) ← Sync (pe_pool e) groups (env_now env) (env_symbols env setName);
        Done (with_pools m (<[setName := {| pe_id := id; pe_pool := sp; pe_cancelled := false |}]> (mg_scrapePools m)) (mg_next m),
              OfPool id <$> (events : list loop_event))
  | None => Done (m, [])
  end.
Fixpoint sync_pools (m : Manager) (env : environment) (syncs : list syncing) : outcome (Manager * list manager_event) :=
  match syncs with
  | [] => Done (m, [])
  | s :: rest => '(m, ev) ← sync_pool m env s; '(m, evs) ← sync_pools m env rest; Done (m, ev ++ evs)
  end.
(** A reload that nothing else comes between. *)
Definition reload (m : Manager) (env : environment) : outcome (Manager * list manager_event) :=
  '(m, syncs) ← reload_start m (env_now env); sync_pools m env syncs.

(** ** Configurations *)

(** A logger for each file of the jobs; without a name there is none. *)
Fixpoint open_loggers (env : environment) (loggers : gmap string (option string)) (scfgs : list ScrapeConfig) :
    result string (gmap string (option string)) :=
  match scfgs with
  | [] => Ok loggers
  | scfg :: rest =>
      match loggers !! ScrapeFailureLogFile scfg with
      | Some _ => open_loggers env loggers rest
      | None =>
          logger ← env_newScrapeFailureLogger env (ScrapeFailureLogFile scfg);
          open_loggers env (<[ScrapeFailureLogFile scfg := Some logger]> loggers) rest
      end
  end.
Definition setOffsetSeed (env : environment) (ls : list (string * string)) (m : Manager) : result string Manager :=
  hostname ← env_GetFQDN env; Ok (with_seed m (fnv1a fnv_offset64 (hostname +:+ labels_String ls))).
(** A pool whose job is gone is stopped; another one gets its logger and, when it differs, its
    configuration. *)
Definition apply_pool (m : Manager) (name : string) (e : pool_entry) : outcome (option pool_entry * list manager_event * bool) :=
  match mg_scrapeConfigs m !! name with
  | None => let '(_, events) := pool_stop (pe_pool e) in Done (None, OfPool (pe_id e) <$> (events : list loop_event), false)
  | Some cfg =>
      let sp := match mg_scrapeFailureLoggers m !! ScrapeFailureLogFile cfg with Some l => SetScrapeFailureLogger (pe_pool e) l | None => pe_pool e end in
      let entry sp := {| pe_id := pe_id e; pe_pool := sp; pe_cancelled := pe_cancelled e |} in
      if DeepEqual (sp_config sp) cfg then Done (Some (entry sp), [], false)
      else '((sp, events), err) ← pool_reload sp cfg; Done (Some (entry sp), OfPool (pe_id e) <$> (events : list loop_event), match err with Some _ => true | None => false end)
  end.
Fixpoint apply_pools (m : Manager) (l : list (string * pool_entry)) : outcome (Manager * list manager_event * bool) :=
  match l with
  | [] => Done (m, [], false)
  | (name, e) :: rest =>
      '(e', ev, failed) ← apply_pool m name e;
      let m := with_pools m (match e' with Some e' => <[name := e']> (mg_scrapePools m) | None => delete name (mg_scrapePools m) end) (mg_next m) in
      '(m, evs, others) ← apply_pools m rest;
      Done (m, ev ++ evs, failed || others)
  end.
(** The old loggers are closed at the end, also when the name of the host is not known. *)
Definition ApplyConfig (m : Manager) (env : environment) (cfg : Config) : outcome (Manager * list manager_event * option string) :=
  r ← GetScrapeConfigs (env_Glob env) (env_ReadFile env) cfg;
  match r with
  | Err err => Done (m, [], Some err)
  | Ok scfgs =>
      match open_loggers env {["" := None]} scfgs with
      | Err err => Done (m, [], Some err)
      | Ok loggers =>
          let closed := Closed <$> omap snd (go_range (mg_scrapeFailureLoggers m)) in
          let m := with_jobs m (foldl (λ c scfg, <[JobName scfg := scfg]> c) ∅ scfgs) loggers in
          match (if skipJitterOffsetting (mg_opts m) then Ok (with_seed m 0) else setOffsetSeed env (g_ExternalLabels (cfg_GlobalConfig cfg)) m) with
          | Err err => Done (m, closed, Some err)
          | Ok m =>
              '(m, events, failed) ← apply_pools m (go_range (mg_scrapePools m));
              Done (m, events ++ closed, if failed : bool then Some "failed to apply the new configuration" else None)
          end
      end
  end.

(** All pools stop. A second time the channel is closed already. *)
Fixpoint stop_pools (m : Manager) (l : list (string * pool_entry)) : Manager * list manager_event :=
  match l with
  | [] => (m, [])
  | (name, e) :: rest =>
      let '(sp, events) := pool_stop (pe_pool e) in
      let m := with_pools m (<[name := {| pe_id := pe_id e; pe_pool := sp; pe_cancelled := true |}]> (mg_scrapePools m)) (mg_next m) in
      let '(m, others) := stop_pools m rest in
      (m, (OfPool (pe_id e) <$> (events : list loop_event)) ++ others)
  end.
Definition Stop (m : Manager) : outcome (Manager * list manager_event) :=
  let '(m, events) := stop_pools m (go_range (mg_scrapePools m)) in
  if mg_graceShut m then Panics
  else
    Done ({| mg_opts := mg_opts m; mg_offsetSeed := mg_offsetSeed m; mg_scrapeConfigs := mg_scrapeConfigs m;
             mg_scrapePools := mg_scrapePools m; mg_scrapeFailureLoggers := mg_scrapeFailureLoggers m; mg_targetSets := mg_targetSets m;
             mg_triggerReload := mg_triggerReload m; mg_graceShut := true; mg_next := mg_next m |}, events).

(** ** What is asked of it *)

Definition TargetsAll (m : Manager) : gmap string (list Target) :=
  (λ e, ActiveTargets (pe_pool e) ++ DroppedTargets (pe_pool e)) <$> mg_scrapePools m.
Definition ScrapePools (m : Manager) : list string := (go_range (mg_scrapePools m)).*1.
Definition TargetsActive (m : Manager) : gmap string (list Target) := (λ e, ActiveTargets (pe_pool e)) <$> mg_scrapePools m.
Definition TargetsDropped (m : Manager) : gmap string (list Target) := (λ e, DroppedTargets (pe_pool e)) <$> mg_scrapePools m.
Definition TargetsDroppedCounts (m : Manager) : gmap string Z := (λ e, DroppedTargetsCount (pe_pool e)) <$> mg_scrapePools m.
Definition ScrapePoolConfig (m : Manager) (name : string) : result string ScrapeConfig :=
  match mg_scrapePools m !! name with
  | Some e => Ok (sp_config (pe_pool e))
  | None => Err ("scrape pool " +:+ Quote name +:+ " not found")
  end.
Definition DisableEndOfRunStalenessMarkers (m : Manager) (targetSet : string) (targets : list Target) : Manager :=
  match targets with
  | [] => m
  | _ =>
      with_pools m (alter (λ e, {| pe_id := pe_id e; pe_pool := pool_disableEndOfRunStalenessMarkers (pe_pool e) targets;
                                   pe_cancelled := pe_cancelled e |}) targetSet (mg_scrapePools m)) (mg_next m)
  end.
End manager.
