(* ===== verification/ScrapeManagerProps.v ===== *)
(** * From discovery to the loops that run

    The pools of the manager of [ScrapeManager] keep the promises of [ScrapePoolProps] whatever it
    is asked, and the loops that run are those of its pools. After a reload they are those of the
    targets that discovery ([ScrapeDiscoveryProps]) found last. *)
From S2P Require Import Prelude GoText Pdata Sampling Pmetric Flatten Utils SpanHistogram PromFamily PromFamilyProps ScrapeConfig ScrapeConfigProps PromTarget PromTargetProps ScrapeCache ScrapeLoop ScrapePool ScrapePoolProps ScrapeDiscovery ScrapeDiscoveryProps ScrapeManager.
From Stdlib Require Import SpecFloat.

Section manager.
Context `{PM : Prometheus} `{TL : TargetLibrary} `{GR : GoRange} `{HL : HistogramLibrary} `{PL : !PoolLibrary} `{ML : ManagerLibrary}.

(** ** The loops of all pools *)

(** The loops that run in each pool, by the number of the pool. *)
Abbreviation running_loops := (gmap Z (gset Z)).
Definition in_pool (running : running_loops) (id : Z) : gset Z := default ∅ (running !! id).
Definition after_manager_event (running : running_loops) (e : manager_event) : running_loops :=
  match e with OfPool id e => <[id := after_event (in_pool running id) e]> running | Closed _ => running end.
Definition after_events (running : running_loops) (events : list manager_event) : running_loops := foldl after_manager_event running events.
Lemma after_events_app running l1 l2 : after_events running (l1 ++ l2) = after_events (after_events running l1) l2.
Proof. apply foldl_app. Qed.
Lemma after_closed running ls : after_events running (Closed <$> ls) = running.
Proof. revert running. induction ls as [|l ls IH]; intros running; [done|]. apply IH. Qed.
Lemma in_pool_events running id evs id' :
  in_pool (after_events running (OfPool id <$> evs)) id' = if decide (id' = id) then after (in_pool running id) evs else in_pool running id'.
Proof.
  revert running. induction evs as [|e evs IH]; intros running; [cbn; by case_decide; subst|].
  cbn [fmap list_fmap after_events foldl]. change (foldl after_manager_event ?r ?l) with (after_events r l). rewrite IH. unfold in_pool at 2 4. cbn.
  case_decide as Hd; [|by rewrite lookup_insert_ne]. unfold in_pool at 1. cbn. by rewrite lookup_insert_eq.
Qed.

Abbreviation pools := (gmap string pool_entry).
Record pools_ok (running : running_loops) (ps : pools) (next : Z) : Prop := {
  mk_pool name e : ps !! name = Some e → pe_id e < next ∧ pool_ok (pe_pool e) ∧ runs (in_pool running (pe_id e)) (pe_pool e);
  mk_ids n1 n2 e1 e2 : ps !! n1 = Some e1 → ps !! n2 = Some e2 → pe_id e1 = pe_id e2 → n1 = n2;
  mk_gone id x : x ∈ in_pool running id → ∃ name e, ps !! name = Some e ∧ pe_id e = id }.

Lemma pools_replace running ps next name e e' evs :
  pools_ok running ps next → ps !! name = Some e → pe_id e' = pe_id e → good_change (in_pool running (pe_id e)) (pe_pool e', evs) →
  pools_ok (after_events running (OfPool (pe_id e) <$> evs)) (<[name := e']> ps) next.
Proof.
  intros [Hp Hi Hg] E Eid [Hok Hr]. cbn in Hok, Hr. constructor.
  - intros n x Hx. rewrite in_pool_events. destruct (decide (n = name)) as [->|Hne].
    + rewrite lookup_insert_eq in Hx. injection Hx as <-. rewrite Eid, decide_True by done. split; [by apply (Hp name)|done].
    + rewrite lookup_insert_ne in Hx by done. rewrite decide_False; [by eapply Hp|]. intros Ee. by destruct Hne, (Hi n name x e Hx E).
  - assert (∀ n x, <[name := e']> ps !! n = Some x → ∃ y, ps !! n = Some y ∧ pe_id y = pe_id x) as Hback.
    { intros n x Hx. destruct (decide (n = name)) as [->|Hne].
      - rewrite lookup_insert_eq in Hx. injection Hx as <-. by exists e.
      - rewrite lookup_insert_ne in Hx by done. by exists x. }
    intros n1 n2 e1 e2 (y1 & H1 & E1)%Hback (y2 & H2 & E2)%Hback Ee. eapply Hi; [done|done|congruence].
  - intros id x. rewrite in_pool_events. assert (∀ n y, ps !! n = Some y → ∃ y', <[name := e']> ps !! n = Some y' ∧ pe_id y' = pe_id y) as Hfwd.
    { intros n y Hy. destruct (decide (n = name)) as [->|Hne].
      - rewrite lookup_insert_eq. exists e'. split; [done|congruence].
      - rewrite lookup_insert_ne by done. by exists y. }
    case_decide as Hd.
    + intros _. destruct (Hfwd name e E) as (y & Hy & Ey). exists name, y. split; [done|congruence].
    + intros (n & y & Hy & <-)%Hg. destruct (Hfwd n y Hy) as (y' & Hy' & Ey). by exists n, y'.
Qed.
Lemma pools_same running ps next name e e' :
  pools_ok running ps next → ps !! name = Some e → pe_id e' = pe_id e → same_loops (pe_pool e) (pe_pool e') →
  pools_ok running (<[name := e']> ps) next.
Proof.
  intros Hps E Eid Hs. destruct (mk_pool _ _ _ Hps _ _ E) as (_ & Hok & Hr).
  exact (pools_replace running ps next name e e' [] Hps E Eid (same_loops_change _ _ _ Hs Hok Hr)).
Qed.
Lemma pools_remove running ps next name e :
  pools_ok running ps next → ps !! name = Some e →
  pools_ok (after_events running (OfPool (pe_id e) <$> (pool_stop (pe_pool e)).2)) (delete name ps) next.
Proof.
  intros [Hp Hi Hg] E. destruct (Hp _ _ E) as (_ & Hok & Hr). destruct (stop_ok _ _ Hok Hr) as [_ Hstop]. constructor.
  - intros n x [Hne Hx]%lookup_delete_Some. rewrite in_pool_events, decide_False; [by eapply Hp|]. intros Ee. by destruct Hne, (Hi n name x e Hx E).
  - intros n1 n2 e1 e2 [_ H1]%lookup_delete_Some [_ H2]%lookup_delete_Some. by eapply Hi.
  - intros id x. rewrite in_pool_events. case_decide as Hd; [intros (h & l & Hl & _)%Hstop; by cbn in Hl|].
    intros (n & y & Hy & <-)%Hg. exists n, y. split; [|done]. apply lookup_delete_Some. split; [|done]. intros ->. congruence.
Qed.
Lemma pools_add running ps next name sp :
  pools_ok running ps next → ps !! name = None → pool_ok sp → runs ∅ sp →
  pools_ok running (<[name := {| pe_id := next; pe_pool := sp; pe_cancelled := false |}]> ps) (next + 1).
Proof.
  intros [Hp Hi Hg] E Hok Hr. assert (in_pool running next = ∅) as Hnone.
  { destruct (set_choose_or_empty (in_pool running next)) as [[x Hx]|H]; [|by apply leibniz_equiv in H]. apply Hg in Hx as (n & y & Hy & Hid).
    apply Hp in Hy. lia. }
  constructor.
  - intros n x. rewrite lookup_insert_Some. intros [[<- <-]|[Hne Hx]]; [cbn; rewrite Hnone; split; [lia|done]|].
    destruct (Hp _ _ Hx) as (? & ? & ?). split; [lia|done].
  - intros n1 n2 e1 e2. rewrite !lookup_insert_Some. intros [[<- <-]|[Hne1 H1]] [[<- <-]|[Hne2 H2]]; cbn; [done| | |by eapply Hi].
    + intros Ee. apply Hp in H2. lia.
    + intros Ee. apply Hp in H1. lia.
  - intros id x (n & y & Hy & <-)%Hg. exists n, y. split; [|done]. rewrite lookup_insert_ne; [done|]. congruence.
Qed.

(** ** Reloads *)

Definition only_pools (m m' : Manager) : Prop := m' = with_pools m (mg_scrapePools m') (mg_next m').
Lemma only_pools_trans m1 m2 m3 : only_pools m1 m2 → only_pools m2 m3 → only_pools m1 m3.
Proof. unfold only_pools. intros E1 E2. rewrite E2 at 1. rewrite E1 at 1. by destruct m3. Qed.
Lemma only_pools_configs m m' : only_pools m m' → mg_scrapeConfigs m' = mg_scrapeConfigs m.
Proof. by intros ->. Qed.
Definition known_schemes (m : Manager) : Prop := ∀ name c, mg_scrapeConfigs m !! name = Some c → known_scheme c.
Definition manager_pools_ok (running : running_loops) (m : Manager) : Prop := pools_ok running (mg_scrapePools m) (mg_next m).

(** A pool can be made for the job. *)
Definition creatable (m : Manager) (now : Z) (name : string) : Prop :=
  ∃ c sp, mg_scrapeConfigs m !! name = Some c ∧ newScrapePool (mg_opts m) c now = Done (Ok sp).
Lemma make_pool_ok m now name running :
  manager_pools_ok running m → known_schemes m →
  ∃ r, make_pool m now name = Done r ∧
    match r with
    | None => mg_scrapePools m !! name = None ∧ ¬ creatable m now name
    | Some m' =>
        only_pools m m' ∧ manager_pools_ok running m' ∧ is_Some (mg_scrapePools m' !! name)
        ∧ (∀ n, n ≠ name → mg_scrapePools m' !! n = mg_scrapePools m !! n)
        ∧ (∀ e, mg_scrapePools m !! name = Some e → mg_scrapePools m' !! name = Some e)
        ∧ (∀ e, mg_scrapePools m' !! name = Some e →
             mg_scrapePools m !! name = Some e ∨ (mg_scrapeConfigs m !! name = Some (sp_config (pe_pool e)) ∧ pe_cancelled e = false))
    end.
Proof.
  intros Hp Hs. unfold make_pool. destruct (mg_scrapePools m !! name) as [e|] eqn:Ep.
  { eexists. split; [done|]. cbn. split_and!; [by destruct m|done|by eexists|done|congruence|]. intros e' E'. left. congruence. }
  destruct (mg_scrapeConfigs m !! name) as [cfg|] eqn:Ec; [|eexists; split; [done|]; split; [done|]; intros (c & sp & ? & _); congruence].
  destruct (new_pool_ok (mg_opts m) cfg now (Hs _ _ Ec)) as (r & En & Hr). rewrite En. cbn [mbind outcome_bind].
  destruct r as [sp|err]; [|eexists; split; [done|]; split; [done|]; intros (c & sp & ? & ?); congruence].
  destruct (Hr sp eq_refl) as (Hok & Hrun & Hcfg). set (sp' := match _ !! ScrapeFailureLogFile cfg with Some l => _ | None => sp end).
  assert (pool_ok sp' ∧ runs ∅ sp' ∧ sp_config sp' = cfg) as (Hok' & Hrun' & Hcfg').
  { subst sp'. destruct (_ !! ScrapeFailureLogFile cfg) as [l|]; [|done]. pose proof (logger_same sp l Hok) as Hl.
    split_and!; [by eapply same_loops_ok|by eapply same_loops_runs|done]. }
  eexists. split; [done|]. cbn. split_and!; [done|by apply pools_add|by rewrite lookup_insert_eq| |done|].
  - intros n Hn. by rewrite lookup_insert_ne.
  - intros e. rewrite lookup_insert_eq. intros [= <-]. right. cbn. by rewrite Hcfg'.
Qed.
Definition sync_of (m : Manager) (set : string * list target_group) : option syncing :=
  match mg_scrapePools m !! set.1 with Some e => Some (set.1, pe_id e, set.2) | None => None end.
Lemma reload_sets_ok m now sets running :
  manager_pools_ok running m → known_schemes m → NoDup sets.*1 →
  ∃ m' syncs, reload_sets m now sets = Done (m', syncs) ∧ only_pools m m' ∧ manager_pools_ok running m'
    ∧ (∀ n e, mg_scrapePools m !! n = Some e → mg_scrapePools m' !! n = Some e)
    ∧ (∀ n e, mg_scrapePools m' !! n = Some e →
         mg_scrapePools m !! n = Some e ∨ (n ∈ sets.*1 ∧ mg_scrapeConfigs m !! n = Some (sp_config (pe_pool e)) ∧ pe_cancelled e = false))
    ∧ syncs = omap (sync_of m') sets
    ∧ (∀ n, n ∈ sets.*1 → creatable m now n → is_Some (mg_scrapePools m' !! n)).
Proof.
  revert m. induction sets as [|[name groups] sets IH]; intros m Hp Hs Hd; cbn [reload_sets].
  { eexists _, _. split; [done|]. split_and!; [by destruct m|done|done|by left|done|]. intros n Hn. by apply not_elem_of_nil in Hn. }
  cbn in Hd. apply NoDup_cons in Hd as [Hn Hd]. destruct (make_pool_ok m now name running Hp Hs) as (r & -> & Hr). cbn [mbind outcome_bind].
  destruct r as [m1|].
  - destruct Hr as (Ho & Hp1 & [e He] & Hne & Hold & Hnew). assert (mg_scrapeConfigs m1 = mg_scrapeConfigs m) as Hc by (by apply only_pools_configs).
    destruct (IH m1) as (m' & syncs & -> & Ho' & Hp' & Hg & Hf & -> & Hcr); [done|unfold known_schemes; by rewrite Hc|done|]. cbn [mbind outcome_bind].
    rewrite (Hg _ _ He). eexists _, _. split; [done|]. split_and!; [by eapply only_pools_trans|done| | | |].
    + intros n x Hx. apply Hg. destruct (decide (n = name)) as [->|Hnn]; [by apply Hold|by rewrite Hne].
    + intros n x Hx. destruct (Hf n x Hx) as [H|(H1 & H2 & H3)]; [|right; rewrite Hc in H2; cbn; split; [set_solver|done]].
      destruct (decide (n = name)) as [->|Hnn]; [|left; by rewrite <-Hne]. destruct (Hnew x H) as [?|[? ?]]; [by left|]. right. cbn. split; [set_solver|done].
    + cbn. unfold sync_of at 2. cbn. by rewrite (Hg _ _ He).
    + intros n Hin Hc'. cbn in Hin. destruct (decide (n = name)) as [->|Hnn]; [by eexists; apply Hg|]. apply Hcr; [set_solver|].
      destruct Hc' as (c & sp & E1 & E2). exists c, sp. rewrite Hc. split; [done|]. by rewrite Ho.
  - destruct Hr as [Hr Hno]. destruct (IH m) as (m' & syncs & -> & Ho' & Hp' & Hg & Hf & -> & Hcr); [done..|]. cbn [mbind outcome_bind].
    eexists _, _. split; [done|]. split_and!; [done|done|done| | |].
    + intros n x Hx. destruct (Hf n x Hx) as [H|(H1 & H2)]; [by left|right]. cbn. split; [set_solver|done].
    + cbn. unfold sync_of at 2. cbn. destruct (mg_scrapePools m' !! name) as [x|] eqn:Ex; [|done]. destruct (Hf _ _ Ex) as [H|[H _]]; [congruence|done].
    + intros n Hin Hc'. cbn in Hin. destruct (decide (n = name)) as [->|Hnn]; [done|]. apply Hcr; [set_solver|done].
Qed.
Lemma go_range_nodup {V} (m : gmap string V) : NoDup (go_range m).*1.
Proof. rewrite go_range_perm. apply NoDup_fst_map_to_list. Qed.

Definition sync_result (m m' : Manager) (s : syncing) : Prop :=
  ∀ e, mg_scrapePools m !! s.1.1 = Some e → pe_id e = s.1.2 → pe_cancelled e = false →
    ∃ e', mg_scrapePools m' !! s.1.1 = Some e' ∧ pe_id e' = s.1.2 ∧ pe_cancelled e' = false ∧ sp_config (pe_pool e') = sp_config (pe_pool e)
      ∧ (∀ h, is_Some (sp_loops (pe_pool e') !! h) ↔ has_hash (scraped_targets (sp_config (pe_pool e)) s.2) h).
(** Each pool of the new state was there, with the configuration; one that was stopped stays so. *)
Definition same_configs (m m' : Manager) : Prop :=
  ∀ n e', mg_scrapePools m' !! n = Some e' →
    ∃ e, mg_scrapePools m !! n = Some e ∧ sp_config (pe_pool e') = sp_config (pe_pool e) ∧ (pe_cancelled e = true → pe_cancelled e' = true).
Lemma sync_pool_ok m env s running :
  manager_pools_ok running m →
  ∃ m' events, sync_pool m env s = Done (m', events) ∧ only_pools m m' ∧ manager_pools_ok (after_events running events) m' ∧ same_configs m m'
    ∧ (∀ n, n ≠ s.1.1 → mg_scrapePools m' !! n = mg_scrapePools m !! n) ∧ sync_result m m' s
    ∧ (∀ n, is_Some (mg_scrapePools m !! n) → is_Some (mg_scrapePools m' !! n)).
Proof.
  intros Hp. destruct s as [[name id] groups]. cbn [sync_pool fst snd].
  assert (∃ events, Done (m, []) = Done (m, events) ∧ only_pools m m ∧ manager_pools_ok (after_events running events) m ∧ same_configs m m
    ∧ (∀ n, n ≠ name → mg_scrapePools m !! n = mg_scrapePools m !! n)) as Hsame.
  { exists []. split_and!; [done|by destruct m|done| |done]. intros n e E. by exists e. }
  destruct (mg_scrapePools m !! name) as [e|] eqn:Ep.
  - destruct (Z.eqb_spec (pe_id e) id) as [<-|Hne]; cbn [negb orb].
    + destruct (pe_cancelled e) eqn:Ecan.
      { destruct Hsame as (ev & ? & ? & ? & ? & ?). exists m, ev. split_and!; [done..| |done]. intros e'. cbn. congruence. }
      destruct (mk_pool _ _ _ Hp _ _ Ep) as (Hlt & Hok & Hr).
      destruct (Sync_ok (pe_pool e) groups (env_now env) (env_symbols env name) _ Hok Hr) as ([sp events] & -> & Hgood & Hcfg & Hl & _). cbn [mbind outcome_bind fst snd] in *.
      eexists _, _. split; [done|]. split_and!; [done|by apply (pools_replace _ _ _ _ e)| | | |].
      * intros n x. cbn. rewrite lookup_insert_Some. intros [[<- <-]|[_ Hx]]; [|by exists x]. exists e. by rewrite Ecan.
      * intros n Hn. cbn. by rewrite lookup_insert_ne.
      * intros e'. cbn. rewrite Ep. intros [= <-] _ _. rewrite lookup_insert_eq. eexists. split; [done|]. cbn. by split_and!.
      * intros n Hn. cbn. rewrite lookup_insert. by case_decide.
    + destruct Hsame as (ev & ? & ? & ? & ? & ?). exists m, ev. split_and!; [done..| |done]. intros e'. cbn. intros E. rewrite Ep in E. by injection E as <-.
  - destruct Hsame as (ev & ? & ? & ? & ? & ?). exists m, ev. split_and!; [done..| |done]. intros e'. cbn. congruence.
Qed.
Lemma same_configs_trans m1 m2 m3 : same_configs m1 m2 → same_configs m2 m3 → same_configs m1 m3.
Proof. intros H1 H2 n e3 (e2 & E2 & -> & Hc2)%H2. destruct (H1 n e2 E2) as (e1 & E1 & -> & Hc1). exists e1. by split_and!; [..|auto]. Qed.
Lemma sync_pools_ok m env syncs running :
  manager_pools_ok running m → NoDup (fst ∘ fst <$> syncs) →
  ∃ m' events, sync_pools m env syncs = Done (m', events) ∧ only_pools m m' ∧ manager_pools_ok (after_events running events) m' ∧ same_configs m m'
    ∧ (∀ n, n ∉ fst ∘ fst <$> syncs → mg_scrapePools m' !! n = mg_scrapePools m !! n) ∧ Forall (sync_result m m') syncs
    ∧ (∀ n, is_Some (mg_scrapePools m !! n) → is_Some (mg_scrapePools m' !! n)).
Proof.
  revert m running. induction syncs as [|s syncs IH]; intros m running Hp Hd; cbn [sync_pools].
  { eexists _, _. split; [done|]. split_and!; [by destruct m|done| |done|by constructor|done]. intros n e E. by exists e. }
  cbn in Hd. apply NoDup_cons in Hd as [Hn Hd].
  destruct (sync_pool_ok m env s running Hp) as (m1 & ev & -> & Ho & Hp1 & Hc1 & Hne1 & Hres & Hex1). cbn [mbind outcome_bind].
  destruct (IH m1 _ Hp1 Hd) as (m' & evs & -> & Ho' & Hp' & Hc' & Hne' & Hall & Hex'). cbn [mbind outcome_bind].
  eexists _, _. split; [done|]. split_and!; [by eapply only_pools_trans|by rewrite after_events_app|by eapply same_configs_trans| |constructor|auto].
  - intros n Hx. cbn in Hx. rewrite Hne', Hne1; [done|set_solver..].
  - intros e He Hid Hcan. destruct (Hres e He Hid Hcan) as (e' & E' & H). exists e'. split; [|done]. by rewrite Hne'.
  - rewrite Forall_forall in Hall |- *. intros s' Hs' e. cbn. rewrite <-(Hne1 s'.1.1).
    + by apply Hall.
    + intros Eq. apply Hn. rewrite <-Eq. apply list_elem_of_fmap. by exists s'.
Qed.

(** ** Configurations and the end *)

Definition agrees (m : Manager) (name : string) (e : pool_entry) : Prop :=
  ∃ c, mg_scrapeConfigs m !! name = Some c ∧ (sp_config (pe_pool e) = c ∨ DeepEqual (sp_config (pe_pool e)) c = true).
Lemma apply_pool_ok m name e running :
  manager_pools_ok running m → known_schemes m → mg_scrapePools m !! name = Some e →
  ∃ e' events failed, apply_pool m name e = Done (e', events, failed)
    ∧ pools_ok (after_events running events) (match e' with Some e' => <[name := e']> (mg_scrapePools m) | None => delete name (mg_scrapePools m) end) (mg_next m)
    ∧ (failed = false → ∀ x, e' = Some x → agrees m name x).
Proof.
  intros Hp Hs Ep. unfold apply_pool. destruct (mg_scrapeConfigs m !! name) as [cfg|] eqn:Ec.
  - destruct (mk_pool _ _ _ Hp _ _ Ep) as (_ & Hok & Hr). set (sp := match _ !! ScrapeFailureLogFile cfg with Some l => _ | None => _ end).
    assert (same_loops (pe_pool e) sp) as Hsame.
    { subst sp. destruct (_ !! ScrapeFailureLogFile cfg) as [l|]; [by apply logger_same|]. apply same_loops_refl; [apply Hok|done..]. }
    cbv zeta. destruct (DeepEqual (sp_config sp) cfg) eqn:Ed.
    + eexists _, _, _. split; [done|]. split; [by apply (pools_same _ _ _ _ e)|]. intros _ x [= <-]. exists cfg. split; [done|by right].
    + destruct (reload_ok sp cfg (in_pool running (pe_id e))) as ([sp' events] & err & -> & Hgood & Hcfg);
        [by eapply same_loops_ok|by eapply same_loops_runs|by eapply Hs|]. cbn [mbind outcome_bind].
      eexists _, _, _. split; [done|]. split; [by apply (pools_replace _ _ _ _ e)|]. intros Hf x [= <-]. exists cfg. split; [done|].
      left. cbn. destruct err; [done|]. by apply Hcfg.
  - destruct (pool_stop (pe_pool e)) as [sp events] eqn:Es. eexists _, _, _. split; [done|]. split; [|done].
    replace events with (pool_stop (pe_pool e)).2 by (by rewrite Es). by apply pools_remove.
Qed.
Lemma apply_pools_ok m l running :
  manager_pools_ok running m → known_schemes m → NoDup l.*1 → (∀ n e, (n, e) ∈ l → mg_scrapePools m !! n = Some e) →
  ∃ m' events failed, apply_pools m l = Done (m', events, failed) ∧ only_pools m m' ∧ manager_pools_ok (after_events running events) m'
    ∧ (∀ n, n ∉ l.*1 → mg_scrapePools m' !! n = mg_scrapePools m !! n)
    ∧ (failed = false → ∀ n e, n ∈ l.*1 → mg_scrapePools m' !! n = Some e → agrees m n e).
Proof.
  revert m running. induction l as [|[name e] l IH]; intros m running Hp Hs Hd Hl; cbn [apply_pools].
  { eexists _, _, _. split; [done|]. split_and!; [by destruct m|done|done|]. intros _ n x Hn. by apply not_elem_of_nil in Hn. }
  cbn in Hd. apply NoDup_cons in Hd as [Hn Hd].
  destruct (apply_pool_ok m name e running Hp Hs) as (e' & ev & failed & -> & Hp1 & Hag); [apply Hl; by left|]. cbn [mbind outcome_bind].
  set (m1 := with_pools m _ _). assert (∀ n, n ≠ name → mg_scrapePools m1 !! n = mg_scrapePools m !! n) as Hne.
  { intros n Hnn. cbn. destruct e'; [by rewrite lookup_insert_ne|by rewrite lookup_delete_ne]. }
  destruct (IH m1 (after_events running ev)) as (m' & evs & others & -> & Ho & Hp' & Hsame & Hag'); [done|done|done| |].
  { intros n x Hin. rewrite Hne; [apply Hl; by right|]. intros ->. apply Hn. apply list_elem_of_fmap. by exists (name, x). }
  cbn [mbind outcome_bind]. eexists _, _, _. split; [done|]. split_and!; [eapply only_pools_trans, Ho; done|by rewrite after_events_app| |].
  - intros n Hx. cbn in Hx. rewrite Hsame, Hne; [done|set_solver..].
  - intros [Hf Hf']%orb_false_iff n x Hx Ex. cbn in Hx. destruct (decide (n = name)) as [->|Hnn].
    + rewrite Hsame in Ex by done. cbn in Ex. destruct e' as [y|]; [|by rewrite lookup_delete_eq in Ex].
      rewrite lookup_insert_eq in Ex. injection Ex as <-. by apply Hag.
    + apply (Hag' Hf' n x); [set_solver|done].
Qed.
Lemma stop_pools_ok m l running :
  manager_pools_ok running m → NoDup l.*1 → (∀ n e, (n, e) ∈ l → mg_scrapePools m !! n = Some e) →
  only_pools m (stop_pools m l).1 ∧ manager_pools_ok (after_events running (stop_pools m l).2) (stop_pools m l).1
    ∧ same_configs m (stop_pools m l).1
    ∧ (∀ n, n ∉ l.*1 → mg_scrapePools (stop_pools m l).1 !! n = mg_scrapePools m !! n)
    ∧ (∀ n e, n ∈ l.*1 → mg_scrapePools (stop_pools m l).1 !! n = Some e → sp_loops (pe_pool e) = ∅ ∧ pe_cancelled e = true).
Proof.
  revert m running. induction l as [|[name e] l IH]; intros m running Hp Hd Hl; cbn [stop_pools].
  { split_and!; [by destruct m|done| |done|]; [intros n x E; by exists x|]. intros n x Hn. by apply not_elem_of_nil in Hn. }
  cbn in Hd. apply NoDup_cons in Hd as [Hn Hd]. assert (mg_scrapePools m !! name = Some e) as Ep by (apply Hl; by left).
  destruct (mk_pool _ _ _ Hp _ _ Ep) as (_ & Hok & Hr). pose proof (stop_ok _ _ Hok Hr) as Hgood.
  destruct (pool_stop (pe_pool e)) as [sp events] eqn:Es. set (m1 := with_pools m _ _).
  assert (manager_pools_ok (after_events running (OfPool (pe_id e) <$> events)) m1) as Hp1 by (by apply (pools_replace _ _ _ _ e)).
  destruct (IH m1 _ Hp1 Hd) as (Ho & Hp' & Hc & Hsame & Hstop).
  { intros n x Hin. cbn. rewrite lookup_insert_ne; [apply Hl; by right|]. intros <-. apply Hn. apply list_elem_of_fmap. by exists (name, x). }
  destruct (stop_pools m1 l) as [m' others]. cbn [fst snd] in *.
  split_and!; [by eapply only_pools_trans, Ho|by rewrite after_events_app| | |].
  - eapply same_configs_trans, Hc. intros n x. cbn. rewrite lookup_insert_Some. intros [[<- <-]|[_ Hx]]; [|by exists x]. exists e.
    split; [done|]. cbn. unfold pool_stop in Es. by injection Es as <- _.
  - intros n Hx. rewrite Hsame; cbn in Hx |- *; [|set_solver]. rewrite lookup_insert_ne; [done|set_solver].
  - intros n x Hx Ex. cbn in Hx. destruct (decide (n = name)) as [->|Hnn]; [|apply (Hstop n x); [set_solver|done]].
    rewrite Hsame in Ex by done. cbn in Ex. rewrite lookup_insert_eq in Ex. injection Ex as <-. cbn. split; [|done]. unfold pool_stop in Es. by injection Es as <- _.
Qed.

(** ** Any sequence of operations *)

(** [st_applied] when the last configuration was applied without an error. *)
Record manager_state := { st_manager : Manager; st_syncs : list syncing; st_running : running_loops; st_applied : bool }.
Inductive manager_op :=
| AskApply (env : environment) (cfg : Config) | AskTargets (tsets : gmap string (list target_group)) | AskReload (now : Z)
| AskSync (k : nat) (env : environment) | AskDisable (name : string) (targets : list Target) | AskStop.
(** A reload waits until the pools of the one before are synchronized. *)
Definition exec_op (st : manager_state) (op : manager_op) : outcome manager_state :=
  let m := st_manager st in
  match op with
  | AskApply env cfg =>
      '(m, events, err) ← ApplyConfig m env cfg;
      Done {| st_manager := m; st_syncs := st_syncs st; st_running := after_events (st_running st) events;
              st_applied := match err with None => true | Some _ => false end |}
  | AskTargets tsets =>
      Done {| st_manager := Run_receive m tsets; st_syncs := st_syncs st; st_running := st_running st; st_applied := st_applied st |}
  | AskReload now =>
      match st_syncs st with
      | [] => '(m, syncs) ← reloader_tick m now;
              Done {| st_manager := m; st_syncs := syncs; st_running := st_running st; st_applied := st_applied st |}
      | _ => Done st
      end
  | AskSync k env =>
      match st_syncs st !! k with
      | Some s => '(m, events) ← sync_pool m env s;
                  Done {| st_manager := m; st_syncs := delete k (st_syncs st); st_running := after_events (st_running st) events;
                          st_applied := st_applied st |}
      | None => Done st
      end
  | AskDisable name targets =>
      Done {| st_manager := DisableEndOfRunStalenessMarkers m name targets; st_syncs := st_syncs st; st_running := st_running st;
              st_applied := st_applied st |}
  | AskStop =>
      '(m, events) ← Stop m;
      Done {| st_manager := m; st_syncs := st_syncs st; st_running := after_events (st_running st) events; st_applied := st_applied st |}
  end.
(** Configurations were loaded, none of their files has an empty job, and the manager stops once. *)
Definition op_allowed (st : manager_state) (op : manager_op) : Prop :=
  match op with
  | AskApply env cfg =>
      (∃ decoded dir, LoadScrapeConfig decoded dir = Done (Ok cfg)) ∧ ∃ r, GetScrapeConfigs (env_Glob env) (env_ReadFile env) cfg = Done r
  | AskStop => mg_graceShut (st_manager st) = false
  | _ => True
  end.
Definition new_state (m : Manager) : manager_state := {| st_manager := m; st_syncs := []; st_running := ∅; st_applied := true |}.
Inductive reachable_state : manager_state → Prop :=
| reached_new o v1 v2 m : NewManager o v1 v2 = Ok m → reachable_state (new_state m)
| reached_op st op st' : reachable_state st → op_allowed st op → exec_op st op = Done st' → reachable_state st'.

Record state_ok (st : manager_state) : Prop := {
  so_pools : manager_pools_ok (st_running st) (st_manager st); so_schemes : known_schemes (st_manager st);
  so_agree : st_applied st = true → ∀ n e, mg_scrapePools (st_manager st) !! n = Some e → agrees (st_manager st) n e }.
(** What an operation does besides. *)
Definition op_result (st : manager_state) (op : manager_op) (st' : manager_state) : Prop :=
  match op with
  | AskSync k env => ∀ s, st_syncs st !! k = Some s → sync_result (st_manager st) (st_manager st') s
  | AskStop => ∀ id, in_pool (st_running st') id = ∅
  | _ => True
  end.
Lemma agree_same m m' n e e' :
  mg_scrapeConfigs m' = mg_scrapeConfigs m → sp_config (pe_pool e') = sp_config (pe_pool e) → agrees m n e → agrees m' n e'.
Proof. intros Hc He (c & Ec & H). exists c. rewrite Hc, He. by split. Qed.
Lemma job_map_spec scfgs (m0 : gmap string ScrapeConfig) name c :
  foldl (λ m scfg, <[JobName scfg := scfg]> m) m0 scfgs !! name = Some c → m0 !! name = Some c ∨ c ∈ scfgs.
Proof.
  revert m0. induction scfgs as [|x scfgs IH]; intros m0; cbn; [by left|]. intros [H|H]%IH; [|right; set_solver].
  rewrite lookup_insert_Some in H. destruct H as [[_ <-]|[_ H]]; [right; set_solver|by left].
Qed.
Lemma apply_state_ok st env cfg :
  state_ok st → op_allowed st (AskApply env cfg) → ∃ st', exec_op st (AskApply env cfg) = Done st' ∧ state_ok st'.
Proof.
  intros [Hp Hs Ha] [(decoded & dir & Hload) (r & Hget)]. cbn [exec_op]. unfold ApplyConfig. rewrite Hget. cbn [mbind outcome_bind].
  destruct r as [scfgs|err]; [|by eexists]. destruct (open_loggers env _ scfgs) as [loggers|err]; [|by eexists].
  set (m1 := with_jobs _ _ _). assert (known_schemes m1) as Hs1.
  { intros name c [Hc|Hin]%job_map_spec; [by rewrite lookup_empty in Hc|].
    destruct (loaded_configs_ok _ _ _ _ _ _ Hload Hget) as [Hw _]. rewrite Forall_forall in Hw. destruct (wf_scheme _ (Hw c Hin)) as [H|H]; [by right|by left]. }
  destruct (if skipJitterOffsetting _ then _ else _) as [m2|err] eqn:E2.
  - assert (∃ seed, m2 = with_seed m1 seed) as [seed ->].
    { destruct (skipJitterOffsetting _); [injection E2 as <-; by eexists|]. unfold setOffsetSeed in E2.
      apply result_bind_Ok in E2 as (h & _ & E2). injection E2 as <-. by eexists. }
    destruct (apply_pools_ok (with_seed m1 seed) (go_range (mg_scrapePools (with_seed m1 seed))) (st_running st)) as (m' & events & failed & -> & Ho & Hp' & Hsame & Hag);
      [done|done|apply go_range_nodup|by intros n e; rewrite go_range_perm, elem_of_map_to_list|]. cbn [mbind outcome_bind].
    eexists. split; [done|]. assert (mg_scrapeConfigs m' = mg_scrapeConfigs m1) as Ec by (by rewrite (only_pools_configs _ _ Ho)).
    split; cbn [st_manager st_running st_applied].
    + by rewrite after_events_app, after_closed.
    + intros name c. rewrite Ec. apply Hs1.
    + intros Happ n e Hn. destruct failed; [done|].
      assert (n ∈ (go_range (mg_scrapePools (with_seed m1 seed))).*1) as Hin.
      { destruct (decide (n ∈ (go_range (mg_scrapePools (with_seed m1 seed))).*1)) as [|Hnot]; [done|]. rewrite (Hsame n Hnot) in Hn.
        destruct Hnot. apply list_elem_of_fmap. exists (n, e). split; [done|]. by rewrite go_range_perm, elem_of_map_to_list. }
      eapply agree_same; [|done|by apply Hag]. done.
  - cbn [mbind outcome_bind]. eexists. split; [done|]. split; cbn [st_manager st_running st_applied]; [by rewrite after_closed|done|done].
Qed.
Lemma reload_state_ok m now running :
  manager_pools_ok running m → known_schemes m → (∀ b, ∃ m' syncs, reload_start (with_targets m (mg_targetSets m) b) now = Done (m', syncs)
    ∧ manager_pools_ok running m' ∧ mg_scrapeConfigs m' = mg_scrapeConfigs m
    ∧ ∀ n e, mg_scrapePools m' !! n = Some e → mg_scrapePools m !! n = Some e ∨ mg_scrapeConfigs m !! n = Some (sp_config (pe_pool e))).
Proof.
  intros Hp Hs b. set (m1 := with_targets m _ b).
  destruct (reload_sets_ok m1 now (go_range (mg_targetSets m1)) running Hp Hs (go_range_nodup _)) as (m' & syncs & E & Ho & Hp' & _ & Hf & _).
  exists m', syncs. split_and!; [exact E|done|by rewrite (only_pools_configs _ _ Ho)|]. intros n e Hn. destruct (Hf n e Hn) as [H|(_ & H & _)]; [by left|by right].
Qed.
Lemma exec_op_ok st op :
  state_ok st → op_allowed st op → ∃ st', exec_op st op = Done st' ∧ state_ok st' ∧ op_result st op st'.
Proof.
  intros Hok Hop. pose proof Hok as [Hp Hs Ha]. destruct op as [env cfg|tsets|now|k env|name targets|].
  - destruct (apply_state_ok st env cfg Hok Hop) as (st' & E & H). by exists st'.
  - eexists. split; [done|]. by split; [split|].
  - cbn [exec_op]. destruct (st_syncs st); [|by exists st]. unfold reloader_tick. destruct (mg_triggerReload (st_manager st)); [|by eexists].
    destruct (reload_state_ok (st_manager st) now (st_running st) Hp Hs false) as (m' & syncs & -> & Hp' & Ec & Hf). cbn [mbind outcome_bind].
    eexists. split; [done|]. split; [|done]. split; cbn [st_manager st_running st_applied]; [done|unfold known_schemes; by rewrite Ec|].
    intros Happ n e Hn. destruct (Hf n e Hn) as [H|H]; [by apply (agree_same (st_manager st) _ _ e), Ha|]. eexists. rewrite Ec. split; [done|by left].
  - cbn [exec_op]. destruct (st_syncs st !! k) as [sy|] eqn:Ek; [|eexists; split; [done|]; split; [done|]; cbn; intros s'; congruence].
    destruct (sync_pool_ok (st_manager st) env sy (st_running st) Hp) as (m' & events & -> & Ho & Hp' & Hc & _ & Hres & _). cbn [mbind outcome_bind].
    eexists. split; [done|]. assert (mg_scrapeConfigs m' = mg_scrapeConfigs (st_manager st)) as Ec by (by rewrite (only_pools_configs _ _ Ho)).
    split; [split; cbn [st_manager st_running st_applied]; [done|unfold known_schemes; by rewrite Ec|]|cbn; rewrite Ek; by intros s' [= <-]].
    intros Happ n e' Hn. destruct (Hc n e' Hn) as (e & He & Ecfg & _). eapply agree_same; [done|done|by eapply Ha].
  - eexists. split; [done|]. split; [|done]. unfold DisableEndOfRunStalenessMarkers. destruct targets as [|t targets]; [done|].
    cbn [st_manager st_running st_applied]. set (ts := t :: targets). destruct (mg_scrapePools (st_manager st) !! name) as [e|] eqn:Ep.
    + assert (∀ f : pool_entry → pool_entry, alter f name (mg_scrapePools (st_manager st)) = <[name := f e]> (mg_scrapePools (st_manager st))) as Halt.
      { intros f. apply map_eq. intros n. rewrite lookup_alter, lookup_insert. case_decide as Hd; [subst n; by rewrite Ep|done]. }
      rewrite Halt. destruct (mk_pool _ _ _ Hp _ _ Ep) as (_ & Hpok & _). split; cbn [st_manager st_running st_applied].
      * apply (pools_same _ _ _ _ e); [done|done|done|by apply disable_same].
      * done.
      * intros Happ n x. cbn. rewrite lookup_insert_Some. intros [[<- <-]|[_ Hx]]; [by apply (agree_same (st_manager st) _ _ e), Ha|].
        by apply (agree_same (st_manager st) _ _ x), Ha.
    + assert (∀ f : pool_entry → pool_entry, alter f name (mg_scrapePools (st_manager st)) = mg_scrapePools (st_manager st)) as Halt.
      { intros f. apply map_eq. intros n. rewrite lookup_alter. case_decide as Hd; [subst n; by rewrite Ep|done]. }
      rewrite Halt. by split.
  - cbn [exec_op]. unfold Stop. cbn in Hop.
    destruct (stop_pools_ok (st_manager st) (go_range (mg_scrapePools (st_manager st))) (st_running st) Hp (go_range_nodup _)) as (Ho & Hp' & Hc & Hsame & Hstop).
    { intros n e. by rewrite go_range_perm, elem_of_map_to_list. }
    destruct (stop_pools _ _) as [m' events]. cbn [fst snd] in *.
    assert (∀ n e, mg_scrapePools m' !! n = Some e → sp_loops (pe_pool e) = ∅) as Hempty.
    { intros n e Hn. destruct (Hc n e Hn) as (e0 & He0 & _). apply (Hstop n e); [|done]. apply list_elem_of_fmap. exists (n, e0). split; [done|].
      by rewrite go_range_perm, elem_of_map_to_list. }
    assert (mg_graceShut m' = false) as -> by (rewrite Ho; exact Hop). cbn [mbind outcome_bind].
    assert (mg_scrapeConfigs m' = mg_scrapeConfigs (st_manager st)) as Ec by (by rewrite (only_pools_configs _ _ Ho)).
    eexists. split; [done|]. split; [split; cbn [st_manager st_running st_applied]|].
    + exact Hp'.
    + unfold known_schemes. cbn. rewrite Ec. exact Hs.
    + intros Happ n e' Hn. destruct (Hc n e' Hn) as (e & He & Ecfg & _). eapply agree_same; [exact Ec|exact Ecfg|by eapply Ha].
    + intros id. cbn. apply leibniz_equiv, set_equiv. intros x. split; [|done]. intros Hx. destruct (mk_gone _ _ _ Hp' _ _ Hx) as (n & e & Hn & <-).
      destruct (mk_pool _ _ _ Hp' _ _ Hn) as (_ & _ & Hr). apply Hr in Hx as (h & l & Hl & _). by rewrite (Hempty _ _ Hn) in Hl.
Qed.
Lemma new_state_ok o v1 v2 m : NewManager o v1 v2 = Ok m → state_ok (new_state m).
Proof.
  unfold NewManager. destruct (v1 && v2); [done|]. destruct (negb v1 && negb v2); [done|]. intros [= <-].
  split; cbn; [split; cbn; [done|done|]|done|done]. intros id x Hx. unfold in_pool in Hx. by rewrite lookup_empty in Hx.
Qed.
Lemma reachable_state_ok st : reachable_state st → state_ok st.
Proof.
  induction 1 as [o v1 v2 m E|st op st' _ Hok Hop E]; [by eapply new_state_ok|].
  destruct (exec_op_ok st op Hok Hop) as (st1 & E1 & Hok1 & _). rewrite E in E1. by injection E1 as <-.
Qed.

(** Whatever the manager is asked, and however the synchronizations of a reload interleave with
    it: nothing panics, and the loops that run are exactly those of its pools, also after a pool was
    removed; once a configuration was applied without an error, each pool scrapes with that of its
    job. A synchronization of a pool gives it the loops of the targets of its groups, and no loop
    runs after the end. *)
Theorem manager_runs_its_pools st op :
  reachable_state st → op_allowed st op →
  ∃ st', exec_op st op = Done st'
    ∧ (∀ id x, x ∈ in_pool (st_running st') id ↔
         ∃ name e h l, mg_scrapePools (st_manager st') !! name = Some e ∧ pe_id e = id ∧ sp_loops (pe_pool e) !! h = Some l ∧ lp_id l = x)
    ∧ (st_applied st' = true → ∀ name e, mg_scrapePools (st_manager st') !! name = Some e → agrees (st_manager st') name e)
    ∧ op_result st op st'.
Proof.
  intros Hr Hop. destruct (exec_op_ok st op (reachable_state_ok st Hr) Hop) as (st' & E & [Hp _ Ha] & Hres). exists st'. split_and!; [done| |done|done].
  intros id x. split.
  - intros Hx. destruct (mk_gone _ _ _ Hp _ _ Hx) as (name & e & He & <-). destruct (mk_pool _ _ _ Hp _ _ He) as (_ & _ & Hruns).
    apply Hruns in Hx as (h & l & Hl & Hid). by exists name, e, h, l.
  - intros (name & e & h & l & He & <- & Hl & Hid). destruct (mk_pool _ _ _ Hp _ _ He) as (_ & _ & Hruns). apply Hruns. by exists h, l.
Qed.

(** ** From discovery to the loops *)

Section discovery.
Context {DiscoveryConfig Discoverer : Type} `{ME : !Mechanism DiscoveryConfig Discoverer}.
Context (no_slash : ∀ c, "/"%char ∉ bytes (Config_Name c)).

Lemma sync_names m sets : NoDup sets.*1 → NoDup (fst ∘ fst <$> omap (sync_of m) sets) ∧ ∀ n, n ∈ fst ∘ fst <$> omap (sync_of m) sets → n ∈ sets.*1.
Proof.
  induction sets as [|[name groups] sets IH]; [intros _; by split; [constructor|]|]. cbn [fmap list_fmap]. intros [Hn Hd]%NoDup_cons. destruct (IH Hd) as [IHd IHin].
  assert (omap (sync_of m) ((name, groups) :: sets)
    = match mg_scrapePools m !! name with Some e => [(name, pe_id e, groups)] | None => [] end ++ omap (sync_of m) sets) as ->.
  { cbn. unfold sync_of at 1. cbn. by destruct (mg_scrapePools m !! name). }
  destruct (mg_scrapePools m !! name) as [e|]; cbn; [|split; [done|]; intros n Hin; apply IHin in Hin; set_solver].
  split; [constructor; [|done]; intros Hin; by apply Hn, IHin|]. intros n [->|Hin]%elem_of_cons; [set_solver|]. apply IHin in Hin. set_solver.
Qed.

(** C40. From discovery to the loops that run, while discovery runs and the manager of the scrapes
    got its last update: a reload that nothing comes between makes, for each job that discovery
    tells of, the pool that is missing and can be made, and starts and stops loops such that in each
    pool that was not stopped exactly one runs for each hash of a target that the discoverers of the
    job found last and that is not dropped. The pools of jobs that discovery does not tell of stay
    as they are. Names of mechanisms have no slash, as those of the registry. *)
Theorem reload_scrapes_view log s st env :
  Manager.runs log s → Manager.Cancelled ∉ log → Z.of_nat (Manager.applies log) < two64 → Manager.m_syncCh (Manager.s_manager s) = [] →
  reachable_state st → last (Manager.s_received s) = Some (mg_targetSets (st_manager st)) →
  ∃ m' events, reload (st_manager st) env = Done (m', events)
    ∧ (∀ job e, mg_scrapePools m' !! job = Some e → runs (in_pool (after_events (st_running st) events) (pe_id e)) (pe_pool e))
    ∧ (∀ job groups e, view (observed log) !! job = Some groups → mg_scrapePools m' !! job = Some e → pe_cancelled e = false →
         ∀ h, is_Some (sp_loops (pe_pool e) !! h) ↔ ∃ t, t ∈ scraped_targets (sp_config (pe_pool e)) groups ∧ Target_hash t = h)
    ∧ (∀ job, is_Some (view (observed log) !! job) → is_Some (mg_scrapePools (st_manager st) !! job) ∨ creatable (st_manager st) (env_now env) job →
         is_Some (mg_scrapePools m' !! job))
    ∧ (∀ job, view (observed log) !! job = None → mg_scrapePools m' !! job = mg_scrapePools (st_manager st) !! job).
Proof.
  intros Hruns Hno Hlt Hch Hst Hlast. destruct (runs_told no_slash _ _ Hruns Hno Hlt) as [_ _ _ _ _ [Hsent _]].
  rewrite Hch, app_nil_r, Hlast in Hsent. destruct (Manager.applies log =? 0)%nat; [done|]. injection Hsent as Htargets.
  destruct (reachable_state_ok st Hst) as [Hp Hs _]. set (m := st_manager st) in *. set (sets := go_range (mg_targetSets m)).
  assert (∀ job groups, (job, groups) ∈ sets ↔ view (observed log) !! job = Some groups) as Hsets
    by (intros job groups; unfold sets; by rewrite go_range_perm, elem_of_map_to_list, Htargets).
  destruct (reload_sets_ok m (env_now env) sets (st_running st) Hp Hs (go_range_nodup _)) as (m1 & syncs & E1 & Ho1 & Hp1 & Hg & Hf & -> & Hcr).
  destruct (sync_names m1 sets (go_range_nodup _)) as [Hnames Hin].
  destruct (sync_pools_ok m1 env _ _ Hp1 Hnames) as (m' & events & E2 & Ho2 & Hp' & Hc & Hsame & Hall & Hex'). rewrite Forall_forall in Hall.
  exists m', events. split; [unfold reload, reload_start; fold sets; rewrite E1; cbn [mbind outcome_bind]; exact E2|]. split_and!.
  - intros job e He. by destruct (mk_pool _ _ _ Hp' _ _ He) as (_ & _ & H).
  - intros job groups e Hv He Hcan. destruct (Hc job e He) as (e1 & He1 & _ & Hstay). assert (pe_cancelled e1 = false) as Hcan1
      by (destruct (pe_cancelled e1); [by rewrite Hstay in Hcan|done]).
    assert ((job, pe_id e1, groups) ∈ omap (sync_of m1) sets) as Hsy.
    { apply list_elem_of_omap. exists (job, groups). split; [by apply Hsets|]. unfold sync_of. cbn. by rewrite He1. }
    destruct (Hall _ Hsy e1 He1 eq_refl Hcan1) as (e' & He' & _ & _ & Hcfg & Hl). cbn in He', Hl. rewrite He in He'. injection He' as <-.
    rewrite Hcfg. exact Hl.
  - intros job [groups Hv] Hex. apply Hex'. destruct Hex as [[e He]|Hex]; [eexists; by apply Hg|]. apply Hcr; [|done].
    apply list_elem_of_fmap. exists (job, groups). split; [done|]. by apply Hsets.
  - intros job Hv. assert (job ∉ sets.*1) as Hnot.
    { intros ([j groups] & -> & Hj)%list_elem_of_fmap. apply Hsets in Hj. cbn in Hv. congruence. }
    rewrite Hsame by (intros Hbad; by apply Hnot, Hin). destruct (mg_scrapePools m !! job) as [e|] eqn:E; [by apply Hg|].
    destruct (mg_scrapePools m1 !! job) as [e|] eqn:E'; [|done]. destruct (Hf _ _ E') as [?|[? _]]; [congruence|done].
Qed.
End discovery.
End manager.

(** A job without configurations of discovery is not in an update at all. *)
Lemma job_without_discovery `{GR : GoRange} {DiscoveryConfig Discoverer : Type} `{ME : !Mechanism DiscoveryConfig Discoverer}
    (log : list (Manager.event (Config := DiscoveryConfig))) configs job :
  configs !! job = Some [] → view (observed (log ++ [Manager.Applied configs])) !! job = None.
Proof. intros E. rewrite observed_snoc. unfold view. cbn. by rewrite map_lookup_imap, lookup_fmap, E. Qed.

(** ** An instance *)

Import Providers.
#[local] Existing Instances any_prom any_scrape any_builder any_range any_target any_resolution any_pool any_discovery.
Definition any_manager : ManagerLibrary := {| labels_String _ := "{}" |}.
#[local] Existing Instance any_manager.
Definition some_environment : environment :=
  {| env_Glob _ := Ok ["etc/jobs.yml"]; env_ReadFile _ := Ok [Some (scrape_job "other")]; env_newScrapeFailureLogger f := Ok f;
     env_GetFQDN := Ok "host"; env_now := 0; env_symbols _ := 0 |}.
Definition some_manager : Manager :=
  {| mg_opts := zero_Options; mg_offsetSeed := 0; mg_scrapeConfigs := ∅; mg_scrapePools := ∅; mg_scrapeFailureLoggers := ∅;
     mg_targetSets := ∅; mg_triggerReload := false; mg_graceShut := false; mg_next := 0 |}.
(** Some operations, with what they lead to. *)
Fixpoint exec_ops (st : manager_state) (ops : list manager_op) : outcome manager_state :=
  match ops with [] => Done st | op :: rest => st ← exec_op st op; exec_ops st rest end.
Definition main_update : gmap string (list target_group) := {["main" := [two_targets]]}.
Definition with_config_applied : list manager_op := [AskApply some_environment loaded; AskTargets main_update].
Definition or_new (r : outcome manager_state) : manager_state := match r with Done st => st | _ => new_state some_manager end.
Definition told_targets : manager_state := or_new (exec_ops (new_state some_manager) with_config_applied).
Lemma told_targets_reachable : reachable_state told_targets.
Proof.
  assert (reachable_state (new_state some_manager)) as H0 by (by apply (reached_new zero_Options false true)).
  assert (op_allowed (new_state some_manager) (AskApply some_environment loaded)) as Ha.
  { split; [exists (Ok two_jobs), "etc"; vm_compute; reflexivity|]. eexists. vm_compute. reflexivity. }
  destruct (exec_op_ok _ _ (reachable_state_ok _ H0) Ha) as (st1 & E1 & _).
  pose proof (reached_op _ _ _ H0 Ha E1) as H1. unfold told_targets, with_config_applied. cbn [exec_ops]. rewrite E1. cbn [mbind outcome_bind exec_op or_new].
  by apply (reached_op st1 (AskTargets main_update)).
Qed.
Definition reloading : manager_state := or_new (exec_op told_targets (AskReload 0)).
Lemma manager_runs_its_pools_witness :
  ∃ st', exec_op reloading (AskSync 0 some_environment) = Done st'
    ∧ (∀ id x, x ∈ in_pool (st_running st') id ↔
         ∃ name e h l, mg_scrapePools (st_manager st') !! name = Some e ∧ pe_id e = id ∧ sp_loops (pe_pool e) !! h = Some l ∧ lp_id l = x)
    ∧ in_pool (st_running st') 0 = {[1; 2]} ∧ (∀ name e, mg_scrapePools (st_manager st') !! name = Some e → agrees (st_manager st') name e).
Proof.
  assert (reachable_state reloading) as Hr.
  { destruct (exec_op_ok told_targets (AskReload 0) (reachable_state_ok _ told_targets_reachable) I) as (st1 & E1 & _).
    unfold reloading. rewrite E1. by apply (reached_op told_targets (AskReload 0)), E1; [apply told_targets_reachable|]. }
  destruct (manager_runs_its_pools reloading (AskSync 0 some_environment) Hr I) as (st' & E & Hrun & Ha & _).
  assert (match exec_op reloading (AskSync 0 some_environment) with Done s => (st_applied s, in_pool (st_running s) 0) | _ => (false, ∅) end
    = (true, {[1; 2]})) as Hx by (vm_compute; reflexivity).
  rewrite E in Hx. injection Hx as Happ Hx. exists st'. split_and!; [done|done|done|]. by apply Ha.
Defined.
Definition main_found : option (list (Manager.event (Config := Providers.config)) * Manager.system (Discoverer := Providers.discoverer)) :=
  exec_all [] {| Manager.s_manager := Manager.NewManager; Manager.s_running := []; Manager.s_received := [] |}
    [DoApply {["main" := [Providers.Static [two_targets]]]}; DoFind 0; DoReceive].
Lemma reload_scrapes_view_witness :
  ∃ (log : list (Manager.event (Config := Providers.config))) (s : Manager.system (Discoverer := Providers.discoverer)) m' events,
    Manager.runs log s ∧ reload (st_manager told_targets) some_environment = Done (m', events)
    ∧ in_pool (after_events (st_running told_targets) events) 0 = {[1; 2]}
    ∧ (∀ groups e, view (observed log) !! "main" = Some groups → mg_scrapePools m' !! "main" = Some e → pe_cancelled e = false →
         ∀ h, is_Some (sp_loops (pe_pool e) !! h) ↔ ∃ t, t ∈ scraped_targets (sp_config (pe_pool e)) groups ∧ Target_hash t = h).
Proof.
  assert (match main_found with Some _ => true | None => false end = true) as Hsome by (vm_compute; reflexivity).
  destruct main_found as [[log s]|] eqn:E; [|done]. clear Hsome. assert (Manager.runs log s) as Hr by (eapply exec_all_runs; [apply Manager.runs_new|exact E]).
  assert (match main_found with
          | Some (log, s) => (forallb (λ e, match e with Manager.Cancelled => false | _ => true end) log, (Manager.applies log, length (Manager.m_syncCh (Manager.s_manager s))),
                              last (Manager.s_received s)) | None => (false, (0, 0)%nat, None) end = (true, (1, 0)%nat, Some main_update)) as H by (vm_compute; reflexivity).
  rewrite E in H. injection H as H1 H2 H3 H4. exists log, s.
  destruct (reload_scrapes_view mechanism_no_slash log s told_targets some_environment Hr) as (m' & events & Er & _ & Hl & _).
  - intros Hin. rewrite forallb_forall in H1. apply list_elem_of_In, H1 in Hin. done.
  - by rewrite H2.
  - by apply nil_length_inv.
  - apply told_targets_reachable.
  - rewrite H4. vm_compute. reflexivity.
  - exists m', events. split_and!; [done|done| |].
    + assert (match reload (st_manager told_targets) some_environment with Done (_, ev) => in_pool (after_events (st_running told_targets) ev) 0 | _ => ∅ end
        = {[1; 2]}) as Hx by (vm_compute; reflexivity). by rewrite Er in Hx.
    + intros groups e Hv He Hcan. by apply (Hl "main" groups e).
Defined.
